(* ===== verification/_CoqProject ===== *)
-Q . S2P
Prelude.v
CLib.v
Print.v
Calendar.v
SchedTime.v
ParamString.v
Address.v
IpTrie.v
Acl.v
Dscp.v
Nametable.v
Targets.v
Schedule.v
Testlib.v
Bytes.v
Checksum.v
Icmp.v
Dns.v
Traceroute.v
Controlmsg.v
Sockets.v
Run.v
Control.v
Files.v
Fetch.v
Certs.v
LocalSock.v
Resolver.v
Asn.v
Config.v
Boot.v
Daemon.v
Report.v
Mos.v
Packets.v
Double.v
Udpstream.v
Accept.v
As.v
Throughput.v
TputRun.v
Events.v
Diag.v
Remote.v
Release.v
Tcpping.v
