(* ===== verification/Prelude.v ===== *)
(** * amplet2: a verification development

    amplet2 is the client of the AMP active measurement project: a daemon
    (measured) reads schedules of network tests, runs each test in its period
    and window, and reports the results.  This library models the parts of the
    C code that decide what is run, when, against which targets and what is
    recorded, and proves them correct, or shows exactly where they are not.

    ** The program and the files here

    - Prelude.v: C as Rocq sees it.  [res] is a computation that returns or does
      something undefined ([fault]: out of bounds, NULL, assert, use after
      free, signed overflow, ...); [rd] and [wr] are array accesses; [u8] .. [i64] are machine
      integers; [timeval].  CLib.v: the string and byte order functions of the C
      library the code calls (strtok, strtol, atoi, ntohs, ...).  Print.v: numbers as
      printf() writes them, and what strtol() reads back.  Calendar.v:
      gmtime_r() and timegm().  Bytes.v: loads from packets and network byte
      order.
    - SchedTime.v (src/measured/schedule.c, get_period_label() to
      get_next_schedule_time()): when a test runs next.  A schedule is a period
      with a window and a frequency; the theorems say the time returned is the
      first slot of the schedule after now, before and after a run, and where
      the tolerance for early timers fails.
    - ParamString.v (parse_param_string()): argument strings.  Quoting
      round-trips, inputs that cannot overflow the fixed buffers, and one that
      does.
    - Nametable.v (src/measured/nametable.c) and Targets.v (parse_test_targets(),
      populate_target_lists()): the targets of a test, from the YAML document and
      the table of known names.  The document is a store of nodes that strtok()
      changes in place, so aliases of a node share the change.
    - Schedule.v (create_and_schedule_test(), merge_scheduled_tests(),
      clear_test_schedule(), read_schedule_file()): the event list and the
      ownership of argument vectors; a vector is an address in a set of live
      allocations, so freeing one twice is a fault.  Reading a file keeps every
      scheduled test within the limits of its definition; the loop that splits a
      test over its targets terminates.  The list holds the events that wait; those that
      are about to run are in Events.v and Daemon.v.
    - Acl.v (src/measured/acl.c): the tree of access control labels refines a
      table of rules where the longest matching suffix counts.
    - Address.v (compare_addresses() of src/common/testlib.c and the bit helpers
      of src/common/iptrie.c) and IpTrie.v (src/common/iptrie.c): the trie
      refines a map from prefixes to AS numbers with longest prefix lookup.
    - Dscp.v (src/common/dscp.c), Checksum.v (src/common/checksum.c): names of
      code points round-trip; a packet with its checksum filled in verifies.
    - Testlib.v and Packets.v (src/common/testlib.c): delay_send_packet() spaces
      packets, wait_for_data() and get_packet() wait as long as asked whatever
      interrupts them, sockets get the options asked for; transmit timestamps are
      those of the packet they are asked for, until a packet could not be sent; the
      name of a process is written into the memory of its arguments.
    - Icmp.v, Dns.v, Traceroute.v (src/tests/icmp, dns, traceroute): the tests
      themselves.  Probes are built and matched to the packets that come back;
      the timers and callbacks are transition systems over the globals of the
      test ([icmp_step], [Traceroute.step]), with invariants over every reachable
      state and a measure that bounds the work, so that a test ends and reports
      every destination.  The packets that break them are theorems too.
    - Tcpping.v (src/tests/tcpping): a SYN to each destination, with its checksum, and the
      segments and errors a capture device sees; the event loop refines the fate of every
      destination ([sim]), so that the report says what the network did to answers that can be told apart.
    - Udpstream.v (src/tests/udpstream): a stream of packets and its report.  What the
      receiver records is what the network did to the packets that were sent; the report
      is the run lengths of loss and the extremes, mean and percentiles of the variation
      of delay, the mean as the doubles of the code have it: Double.v is the arithmetic of
      binary64 on rationals, with a bound on its error, and agrees with SpecFloat of the
      Standard Library.  Mos.v (src/common/mos.c): the scores of voice quality, on the real
      numbers; more delay or loss never improves them.

    - Run.v (src/measured/run.c): a timer that fires starts its test if it is not
      too early and schedules the next run; run_test() builds the argument
      vector, resolves the names, calls the test and reports.  The theorems tie
      the timer to the slots of SchedTime, say what the test is called with, and
      where the argument vector overflows or was freed.
    - Controlmsg.v (src/common/controlmsg.c): length-prefixed messages over a
      connection that delivers its bytes in any pieces ([io] events).  Reading is
      equivalent to decoding the whole byte stream, and each message that is sent
      is read back.  [tls_loop] is the same over TLS, where bytes that were decrypted and
      not read are out of sight of select().
    - Sockets.v (src/common/serverlib.c, ssl.c, ssl_common_name.c and
      initialise_control_socket() of src/measured/control.c): listening,
      connecting, accepting and the TLS handshake, as system calls over a table of
      open descriptors ([world]); the theorems are total correctness triples
      ([wp]) that also say what is left open.
    - Control.v (src/measured/control.c, the measured messages of serverlib.c,
      src/measured/remote-client.c): the control port.  Only what the access
      control list allows is run, the rest is refused, serving ends, and requests
      and results arrive.

    - Asn.v (src/common/asn.c, src/measured/asnsock.c): AS numbers of addresses.
      The answers of the whois server are read the same however they are cut into
      pieces; the queries and results between a test and the cache round-trip;
      the worker thread ends, updates the cache with what it read and answers
      every address from the cache or the server.

    - LocalSock.v: recv() and send() on the local sockets between the processes of
      the client.  Resolver.v (src/common/ampresolv.c, src/measured/nssock.c): name
      resolution.  The names of a test reach the resolver thread and the addresses
      come back; what a name resolves to does not depend on how the callbacks of
      different names interleave, and no block is used after it was freed or left
      behind.  A callback is several steps ([tick_step]), since it releases its lock before it is done; two that
      overlap there can lose an entry.

    - Files.v: the disk, the servers that libcurl talks to and the log of what was
      done ([machine]), with a program logic for functions on it: [post] for results,
      [keeps] and [Frame] for what a function leaves alone whatever call fails.
      Fetch.v (src/measured/schedule.c, update_remote_schedule() to
      enable_remote_schedule_fetch(), and src/measured/watchdog.c): the schedule on
      disk is only replaced by one that was fetched completely and, unless closing the
      file fails, which the code does not look at, is complete.  Certs.v (src/measured/certs.c
      and the key locations of src/common/ssl.c): a private key is never lost or
      exposed, a success means that key and certificate are there, and a client gets
      its certificate once the server signs it, however often it has to ask.

    - Config.v (src/measured/parseconfig.c): the configuration, from the values that
      libconfuse has read to the settings of every other component.
      Boot.v (the options and the pidfile of src/measured/measured.c, users.c, clock.c,
      localsock.c and rabbitcfg.c): the steps of starting, over credentials, locks and
      descriptors that change as the manual pages say.  Daemon.v (measured.c, the module
      loader of src/common/modules.c): main() as a whole; the order of its steps whatever
      fails, the event loop in which timers expire, tests run and reloads come in any order
      ([happens]), and shutting down.  Report.v
      (src/measured/messaging.c): the calls that publish a result, with any of them failing.
      Accept.v (the callbacks of control.c, nssock.c and asnsock.c, the TLS context of
      src/common/ssl.c): the event loop of the control port over any sequence of
      connections, from the acl sections of the configuration to what each child runs.

    - As.v (src/tests/traceroute/as.c): the AS numbers of the hops of a path; private
      addresses are not looked up, every other hop gets what the longest matching answer
      says.  It uses the trie of IpTrie.v and the protocol of Asn.v.
    - Throughput.v (src/tests/throughput, src/common/tcpinfo.c): the schedule of a
      throughput test round-trips; a stream limited by bytes is delivered whole however the
      socket cuts it up, if select() is not interrupted before the last part, one limited by time ends; where the HTTP chunks are framed right
      and where they are a byte too long.  TputRun.v (runSchedule() of the client,
      serveTest() of the server): the two ends of a test over any channel of messages
      ([Channel], with the byte stream of Controlmsg.v as an instance) agree on every test
      of the schedule, each over a connection of its own, and both finish with their
      sockets closed.
    - Events.v (src/measured/libevent_foreach.c, the dump of schedule.c): the walk over the
      event base with its queues and heap; clearing it removes the tests that wait, and not
      those about to run.
    - Diag.v (src/common/debug.c, icmpcode.c, print.c, the dumps of nametable.c and acl.c):
      log lines and the texts of errors, sizes and speeds; two ICMP errors have the same
      text exactly when they mean the same.
    - Remote.v (src/measured/remote-client.c): the command that runs a test on another
      machine, from its options to the printed result, with the server of Control.v at the
      other end.
    - Release.v (free_acl(), unregister_tests(), free_control_config(),
      free_global_vars(), free_local_meta_vars() and others): structures as the blocks they
      are made of; shutting down frees every block once, unless the command line has set
      an interface or address, which is not a block.

    Data flows from the configuration (Config) through main() (Daemon) to the components;
    from the schedule file through Targets and Schedule to the event
    list, at the times of SchedTime; Run takes a test from there and gives it its
    options (ParamString) and destinations; the test has its sockets from
    Testlib, and uses Address and Checksum for its packets.  The other way to a
    test is the control port: Sockets accepts, Controlmsg frames, Acl decides, and
    Control calls run_test() or the server of a test.  Results leave through Report.

    ** Correspondence

    A definition has the name of the C function it models; where one C function
    is split, the parts are named after what they do and the whole keeps the
    name.  Records have the fields of the C structs.  Pointers into lists that
    have one owner are values of a list; where the code shares an object (YAML
    nodes, argument vectors, the last_probe pointer of traceroute) the sharing is
    modelled.  Integers are [Z] with the wrap-around of their C type written out.
    The host is little-endian with 64 bit long and time_t.

    ** Parameters

    Code outside the repository is an argument: getaddrinfo() of Nametable.v, the
    kernel (select(), sendto(), setsockopt(), stat()) as the answers it gives,
    the clock and random() as values.  libyaml's documents are data, libevent is
    the order in which callbacks run.  The classes [Sockets.Kernel] (what each
    system call answers) and [Sockets.Openssl] (handshakes and certificates) are
    uninterpreted; [Controlmsg.Protobuf] is the generated message code, with the
    laws [ProtobufLaws] (unpacking inverts packing, packed bytes are bytes) that
    [control_coding_laws] shows to be satisfiable.  Test callbacks and the local
    resolver are functions given to [Run.run_test].  [Asn.Inet] is inet_pton() and
    inet_ntop(); the answers of libunbound and the order of its callbacks are
    arguments of [Resolver.amp_resolver_worker_thread].  [Certs.Crypto] is what
    certs.c uses of OpenSSL, with the laws [CryptoLaws] (a key that was written can be
    read, digests have their size) that the instance [toy] satisfies; curl's transfers
    and the errors of calls are part of the [machine].  cfg_parse() of libconfuse is an
    argument of [Config.parse_config], the other answers main() depends on are the class
    [Daemon.Host], and each call of the rabbitmq client library works or not as
    [Report.answers] says.  Doubles are rounded after every operation in Udpstream.v (Double.v), and
    exact numbers elsewhere (R in Mos.v, Q in Diag.v and for the scores of Udpstream.v).
    [TputRun.Codec] is the generated code of the messages of the throughput test, with laws
    its instance satisfies; getopt_long() is the list of options it returns.

    ** Fuel

    [SchedTime.tv_carry], [Address.match_bits4] and [match_bits6], and
    [Checksum.fold_sum] count down the number of rounds the loop can make at most
    (carries of a microsecond count, bits of an address, folds of a 64 bit sum),
    so the loop condition is false when they stop.  Elsewhere running out is the
    fault [OutOfFuel], which no theorem about results admits:
    [Traceroute.skip_timed_out] has more rounds than a path has hops,
    [Schedule.schedule_loop] the bound [loop_bound] that
    [schedule_loop_terminates] proves enough, and [Targets.parse_test_targets],
    [Dns.decode_loop] and [Dns.process_opt_rr] take their fuel as an argument,
    since the C code need not terminate: [decode_pointer_loop] is an input on
    which it does not, and the theorems about results say how much is enough.
    The loops of Asn.v and Resolver.v have a round for each byte that can arrive, and their
    theorems conclude [Ok].  [Control.process_loop] has one round more than the stream has bytes, enough by
    [control_connection_ends]; [Sockets.connect_loop] and [listen_ports] count the
    attempts and ports that are left.  In Files.v, Fetch.v and Certs.v [OutOfFuel] is a
    server that never answers; [update_remote_schedule_safe] and
    [certificate_obtained] conclude that the functions return.  In Boot.v it is a clock
    that is never synchronised, in [Udpstream.send_loop] a list of rounds that is too
    short, in [Throughput.send_loop] likewise ([stream_delivered] and [stream_bounded] say
    which lists are long enough); [Packets.tx_loop] has the 101 rounds of the code.

    ** Not modelled

    Memory other than the blocks and vectors named above, usage texts, the Windows
    service and the replacements for functions other platforms lack, the control messages
    between the two ends of a udpstream test, the other tests (fastping, http, youtube,
    sip, ndt, external), the option parsing of tests and the printing of their
    results.  Of these fastping and the sending side of the DNS test have logic of their
    own; the others are calls of libraries. *)

From Stdlib Require Export ZArith Lia Ascii String.
From stdpp Require Export base list strings option sets.
#[local] Open Scope Z_scope.

(** ** Undefined behaviour as a value

    A C operation either returns or does something the language leaves
    undefined (or stops the process on an [assert]).  [res] records which. *)

Inductive fault : Set :=
| OutOfBounds      (* read or write outside an object *)
| NullDeref        (* use of a NULL pointer *)
| AssertFail       (* assert() that does not hold *)
| UseAfterFree     (* use of freed memory, or a second free() *)
| Uninitialised    (* use of a variable that was not, or not fully, set *)
| BadFree          (* free() of memory that malloc() did not give *)
| BadConversion    (* a number that does not fit the type it is converted to *)
| SignedOverflow   (* a result that does not fit its signed type *)
| OutOfFuel.       (* the model's loop bound ran out *)

Inductive res (A : Type) : Type :=
| Ok (a : A)
| Fault (f : fault).
Arguments Ok {A} a.
Arguments Fault {A} f.

#[export] Instance fault_eq_dec : EqDecision fault.
Proof. solve_decision. Defined.
#[export] Instance res_eq_dec `{EqDecision A} : EqDecision (res A).
Proof. solve_decision. Defined.

#[export] Instance res_ret : MRet res := fun A a => Ok a.
#[export] Instance res_bind : MBind res := fun A B k m =>
  match m with Ok a => k a | Fault f => Fault f end.

Lemma res_bind_Ok {A B} (m : res A) (k : A -> res B) b :
  m ≫= k = Ok b <-> exists a, m = Ok a /\ k a = Ok b.
Proof. destruct m; cbn; naive_solver. Qed.

(** [assert(b)] *)
Definition c_assert (b : bool) : res unit := if b then Ok tt else Fault AssertFail.

Lemma c_assert_true {A} b (k : unit -> res A) : b = true -> (c_assert b ≫= k) = k tt.
Proof. by intros ->. Qed.
Lemma bind_Ok {A B} (a : A) (k : A -> res B) : (Ok a ≫= k) = k a.
Proof. done. Qed.

(** Array read at a C index. *)
Definition rd {A} (l : list A) (i : Z) : res A :=
  if decide (0 <= i) then
    match l !! Z.to_nat i with Some a => Ok a | None => Fault OutOfBounds end
  else Fault OutOfBounds.

(** Array write at a C index. *)
Definition wr {A} (l : list A) (i : Z) (a : A) : res (list A) :=
  if decide (0 <= i < Z.of_nat (length l)) then Ok (<[Z.to_nat i := a]> l)
  else Fault OutOfBounds.

Lemma rd_Ok {A} (l : list A) i a :
  rd l i = Ok a <-> 0 <= i /\ l !! Z.to_nat i = Some a.
Proof. unfold rd. case_decide; destruct (l !! Z.to_nat i) eqn:E; naive_solver. Qed.

Lemma rd_in_bounds {A} (l : list A) i :
  0 <= i < Z.of_nat (length l) -> exists a, rd l i = Ok a.
Proof.
  intros Hi. destruct (lookup_lt_is_Some_2 l (Z.to_nat i)) as [a Ha]; [lia|].
  exists a. apply rd_Ok. auto with lia.
Qed.

Lemma wr_Ok {A} (l : list A) i a l' :
  wr l i a = Ok l' <-> 0 <= i < Z.of_nat (length l) /\ l' = <[Z.to_nat i := a]> l.
Proof. unfold wr. case_decide; naive_solver. Qed.

Lemma wr_in {A} (l : list A) i a :
  0 <= i < Z.of_nat (length l) -> wr l i a = Ok (<[Z.to_nat i := a]> l).
Proof. intros. by apply wr_Ok. Qed.

(** ** Machine integers *)

Definition u8  (z : Z) : Z := z mod 256.
Definition u16 (z : Z) : Z := z mod 65536.
Definition u32 (z : Z) : Z := z mod 4294967296.
Definition u64 (z : Z) : Z := z mod 18446744073709551616.
Definition i32 (z : Z) : Z := (z + 2147483648) mod 4294967296 - 2147483648.
Definition i64 (z : Z) : Z :=
  (z + 9223372036854775808) mod 18446744073709551616 - 9223372036854775808.

Lemma u8_id z : 0 <= z < 256 -> u8 z = z.
Proof. apply Z.mod_small. Qed.
Lemma u16_id z : 0 <= z < 65536 -> u16 z = z.
Proof. apply Z.mod_small. Qed.
Lemma u32_id z : 0 <= z < 4294967296 -> u32 z = z.
Proof. apply Z.mod_small. Qed.
Lemma u64_id z : 0 <= z < 18446744073709551616 -> u64 z = z.
Proof. apply Z.mod_small. Qed.
Lemma i32_id z : -2147483648 <= z < 2147483648 -> i32 z = z.
Proof. intros. unfold i32. rewrite Z.mod_small; lia. Qed.
Lemma i64_id z : -9223372036854775808 <= z < 9223372036854775808 -> i64 z = z.
Proof. intros. unfold i64. rewrite Z.mod_small; lia. Qed.

Lemma u8_range z : 0 <= u8 z < 256.
Proof. apply Z.mod_pos_bound; lia. Qed.
Lemma u16_range z : 0 <= u16 z < 65536.
Proof. apply Z.mod_pos_bound; lia. Qed.
Lemma u32_range z : 0 <= u32 z < 4294967296.
Proof. apply Z.mod_pos_bound; lia. Qed.

(** Removing wrap-around where the value is in range. *)
Create Rewrite HintDb cint.
#[export] Hint Rewrite u8_id u16_id u32_id u64_id i32_id i64_id using lia : cint.
Ltac cint := autorewrite with cint in *.

Definition b2z (b : bool) : Z := if b then 1 else 0.

(** ** Time values ([struct timeval]) *)
Record timeval : Set := Tv { tv_sec : Z; tv_usec : Z }.
#[export] Instance timeval_eq_dec : EqDecision timeval.
Proof. solve_decision. Defined.

Definition USEC : Z := 1000000.
Definition tv_us (t : timeval) : Z := tv_sec t * 1000000 + tv_usec t.
Definition tv_wf (t : timeval) : Prop := 0 <= tv_sec t /\ 0 <= tv_usec t < 1000000.

(** DIFF_TV_US of testlib.h: the difference of two times in microseconds. *)
Definition DIFF_TV_US (a b : timeval) : Z :=
  i64 ((tv_sec a - tv_sec b) * 1000000 + (tv_usec a - tv_usec b)).

Lemma tv_us_inj t t' : tv_wf t -> tv_wf t' -> tv_us t = tv_us t' -> t = t'.
Proof.
  destruct t as [s u], t' as [s' u']. unfold tv_wf, tv_us. cbn. intros. f_equal; lia.
Qed.

(** ** Automation *)

(** Case analysis on the boolean comparisons of the code. *)
Ltac zbool :=
  repeat match goal with
  | |- context [?a <? ?b] => destruct (Z.ltb_spec a b)
  | |- context [?a <=? ?b] => destruct (Z.leb_spec a b)
  | |- context [?a >? ?b] => destruct (Z.gtb_spec a b)
  | |- context [?a =? ?b] => destruct (Z.eqb_spec a b)
  end.

(** Invert a chain of [res] binds that returned [Ok]. *)
Ltac inv_res :=
  repeat match goal with
  | H : Ok _ = Ok _ |- _ => injection H as H
  | H : Fault _ = Ok _ |- _ => discriminate H
  | H : mret _ = Ok _ |- _ => unfold mret, res_ret in H
  | H : (_ ≫= _) = Ok _ |- _ =>
      apply res_bind_Ok in H; destruct H as (? & ? & H)
  | H : mbind _ _ = Ok _ |- _ =>
      apply res_bind_Ok in H; destruct H as (? & ? & H)
  end.

(** Evaluate the [bool_decide]s the context decides. *)
Ltac bd_side := first [done | assumption | vm_compute; done | vm_compute; intros ?; discriminate].
Ltac bd :=
  repeat match goal with
  | |- context [bool_decide ?P] =>
      first [ rewrite (bool_decide_eq_true_2 P) by bd_side
            | rewrite (bool_decide_eq_false_2 P) by bd_side ]
  end; cbn [andb orb negb].

(** Case analysis on every boolean condition of the goal. *)
Ltac case_ifs :=
  repeat match goal with |- context [if ?b then _ else _] => destruct b eqn:? end.

(** ** Lists *)
Lemma Forall_weaken {A} (P Q : A -> Prop) l :
  Forall P l -> (forall x, P x -> Q x) -> Forall Q l.
Proof. intros H HPQ. induction H; constructor; auto. Qed.

Lemma filter_rev {A} (P : A -> Prop) `{!forall x, Decision (P x)} l :
  filter P (rev l) = rev (filter P l).
Proof.
  induction l as [|x l IH]; [done|]. cbn [rev]. rewrite filter_app, IH, !filter_cons, filter_nil.
  case_decide; cbn; by rewrite ?app_nil_r.
Qed.

(** ** Loops that end *)

(** A computation that does not run out of fuel, whatever else it does. *)
Definition in_fuel {A} (m : res A) : Prop := m <> Fault OutOfFuel.

Lemma in_fuel_Ok {A} (a : A) : in_fuel (Ok a).
Proof. done. Qed.
Lemma in_fuel_bind {A B} (m : res A) (k : A -> res B) :
  in_fuel m -> (forall a, m = Ok a -> in_fuel (k a)) -> in_fuel (m ≫= k).
Proof. unfold in_fuel. destruct m as [a|f]; cbn; [auto|congruence]. Qed.
Lemma in_fuel_assert b : in_fuel (c_assert b).
Proof. by destruct b. Qed.

(** Discharge the goals on computations without loops of their own. *)
Ltac in_fuel :=
  repeat match goal with
  | |- in_fuel (Ok _) => apply in_fuel_Ok
  | |- in_fuel (Fault _) => discriminate
  | |- in_fuel (c_assert _) => apply in_fuel_assert
  | |- in_fuel (_ ≫= _) => apply in_fuel_bind; [|intros ? ?]
  | |- in_fuel (if ?b then _ else _) => destruct b eqn:?
  | |- in_fuel (match ?x with _ => _ end) => destruct x eqn:?
  | |- in_fuel (let (_, _) := ?x in _) => destruct x eqn:?
  end; try done.
