(* ===== verification/CLib.v ===== *)
(** The parts of the C library the modelled code calls.

    C strings are character lists without their terminator; [_eq] functions
    are the tests [strcmp(a, b) == 0] and the like.  Byte order functions are
    those of a little-endian host, so [ntohs] and [ntohl] swap bytes. *)
From S2P Require Import Prelude.
#[local] Open Scope Z_scope.

Abbreviation cstr := (list ascii).
(** String literals as C strings. *)
Definition str (s : string) : cstr := String.list_ascii_of_string s.

(** ** Byte order *)

Definition byte_at (x i : Z) : Z := Z.land (Z.shiftr x (8 * i)) 255.

Definition bswap16 (x : Z) : Z :=
  Z.lor (Z.shiftl (byte_at x 0) 8) (byte_at x 1).
Definition bswap32 (x : Z) : Z :=
  Z.lor (Z.lor (Z.shiftl (byte_at x 0) 24) (Z.shiftl (byte_at x 1) 16))
        (Z.lor (Z.shiftl (byte_at x 2) 8) (byte_at x 3)).

(** The arguments are converted to the unsigned type first. *)
Definition ntohs (x : Z) : Z := bswap16 (u16 x).
Definition htons (x : Z) : Z := ntohs x.
Definition ntohl (x : Z) : Z := bswap32 (u32 x).

(** Bits of a byte-swapped word. *)
Lemma byte_at_spec x i n :
  0 <= i -> 0 <= n -> Z.testbit (byte_at x i) n = (n <? 8) && Z.testbit x (n + 8 * i).
Proof.
  intros Hi Hn. unfold byte_at. change 255 with (Z.ones 8).
  rewrite Z.land_spec, Z.shiftr_spec by lia.
  rewrite Z.testbit_ones_nonneg by lia. apply andb_comm.
Qed.

Definition swap_index (bytes n : Z) : Z := 8 * (bytes - 1 - n / 8) + n mod 8.

Lemma bswap16_spec x n :
  0 <= n < 16 -> Z.testbit (bswap16 x) n = Z.testbit x (swap_index 2 n).
Proof.
  intros Hn. unfold bswap16, swap_index. rewrite Z.lor_spec, Z.shiftl_spec by lia.
  assert (Hc : n < 8 \/ 8 <= n < 16) by lia.
  destruct Hc.
  - rewrite (Z.testbit_neg_r _ (n - 8)), byte_at_spec by lia.
    replace (n <? 8) with true by lia. cbn [orb andb].
    f_equal; Z.div_mod_to_equations; lia.
  - rewrite !byte_at_spec by lia.
    replace (n <? 8) with false by lia. replace (n - 8 <? 8) with true by lia.
    cbn [orb andb]. rewrite orb_false_r. f_equal; Z.div_mod_to_equations; lia.
Qed.

Lemma bswap32_spec x n :
  0 <= n < 32 -> Z.testbit (bswap32 x) n = Z.testbit x (swap_index 4 n).
Proof.
  intros Hn. unfold bswap32, swap_index. rewrite !Z.lor_spec, !Z.shiftl_spec by lia.
  assert (Hb : forall i k, 0 <= i -> Z.testbit (byte_at x i) k =
    (0 <=? k) && (k <? 8) && Z.testbit x (k + 8 * i)).
  { intros i k Hi. destruct (Z.leb_spec 0 k); cbn.
    - by apply byte_at_spec.
    - by rewrite Z.testbit_neg_r by lia. }
  rewrite !Hb by lia.
  assert (Hc : n < 8 \/ 8 <= n < 16 \/ 16 <= n < 24 \/ 24 <= n < 32) by lia.
  destruct Hc as [|[|[|]]].
  all: repeat match goal with
    | |- context [?a <=? ?b] => first
        [ replace (a <=? b) with true by lia | replace (a <=? b) with false by lia ]
    | |- context [?a <? ?b] => first
        [ replace (a <? b) with true by lia | replace (a <? b) with false by lia ]
    end; cbn [andb orb]; rewrite ?orb_false_r, ?orb_false_l;
    f_equal; Z.div_mod_to_equations; lia.
Qed.

Lemma bits_above_range x w n : 0 <= x < 2 ^ w -> 0 <= w <= n -> Z.testbit x n = false.
Proof.
  intros Hx Hn. rewrite <- (Z.mod_small x (2 ^ w)) by lia.
  apply Z.mod_pow2_bits_high. lia.
Qed.

Lemma lor_range a b w : 0 <= w -> 0 <= a < 2 ^ w -> 0 <= b < 2 ^ w -> 0 <= Z.lor a b < 2 ^ w.
Proof.
  intros Hw Ha Hb. split; [apply Z.lor_nonneg; lia|].
  destruct (decide (Z.lor a b = 0)) as [->|Hne]; [lia|].
  assert (0 <= Z.lor a b) by (apply Z.lor_nonneg; lia).
  apply Z.log2_lt_pow2; [lia|]. rewrite Z.log2_lor by lia.
  assert (Hl : forall c, 0 <= c < 2 ^ w -> 0 < w -> Z.log2 c < w).
  { intros c Hc Hw'. destruct (decide (c = 0)) as [->|]; [cbn; lia|].
    apply Z.log2_lt_pow2; lia. }
  destruct (decide (w = 0)) as [->|].
  - change (2 ^ 0) with 1 in *. assert (a = 0) as -> by lia. assert (b = 0) as -> by lia. done.
  - pose proof (Hl a). pose proof (Hl b). lia.
Qed.

Lemma byte_at_range x i : 0 <= byte_at x i < 256.
Proof.
  unfold byte_at. change 255 with (Z.ones 8). rewrite Z.land_ones by lia.
  apply Z.mod_pos_bound. lia.
Qed.

Lemma bswap16_range x : 0 <= bswap16 x < 65536.
Proof.
  unfold bswap16. pose proof (byte_at_range x 0). pose proof (byte_at_range x 1).
  change 65536 with (2 ^ 16). apply lor_range; [lia| |lia].
  rewrite Z.shiftl_mul_pow2 by lia. lia.
Qed.

Lemma bswap32_range x : 0 <= bswap32 x < 4294967296.
Proof.
  unfold bswap32. pose proof (byte_at_range x 0). pose proof (byte_at_range x 1).
  pose proof (byte_at_range x 2). pose proof (byte_at_range x 3).
  change 4294967296 with (2 ^ 32).
  apply lor_range; [lia| |]; apply lor_range; try rewrite Z.shiftl_mul_pow2 by lia; lia.
Qed.

Lemma swap_index_range k n : 0 <= n < 8 * k -> 0 <= swap_index k n < 8 * k.
Proof. unfold swap_index. intros. Z.div_mod_to_equations. lia. Qed.

Lemma swap_index_inv k n : 0 <= n < 8 * k -> swap_index k (swap_index k n) = n.
Proof. unfold swap_index. intros. Z.div_mod_to_equations. lia. Qed.

(** Two words of [w] bits are equal when their bits below [w] are. *)
Lemma bits_eq w x y :
  0 <= x < 2 ^ w -> 0 <= y < 2 ^ w -> 0 <= w ->
  (forall n, 0 <= n < w -> Z.testbit x n = Z.testbit y n) -> x = y.
Proof.
  intros Hx Hy Hw H. apply Z.bits_inj'. intros n Hn.
  destruct (decide (n < w)); [by apply H|].
  by rewrite !(bits_above_range _ w) by lia.
Qed.

Lemma ntohl_spec x n :
  0 <= n < 32 -> Z.testbit (ntohl x) n = Z.testbit x (swap_index 4 n).
Proof.
  intros Hn. unfold ntohl. rewrite bswap32_spec by done.
  pose proof (swap_index_range 4 n). unfold u32. change 4294967296 with (2 ^ 32).
  apply Z.mod_pow2_bits_low. lia.
Qed.

Lemma ntohs_spec x n :
  0 <= n < 16 -> Z.testbit (ntohs x) n = Z.testbit x (swap_index 2 n).
Proof.
  intros Hn. unfold ntohs. rewrite bswap16_spec by done.
  pose proof (swap_index_range 2 n). unfold u16. change 65536 with (2 ^ 16).
  apply Z.mod_pow2_bits_low. lia.
Qed.

Lemma ntohl_invol x : 0 <= x < 4294967296 -> ntohl (ntohl x) = x.
Proof.
  intros Hx. apply (bits_eq 32); [apply bswap32_range|lia..|].
  intros n Hn. pose proof (swap_index_range 4 n).
  rewrite !ntohl_spec, swap_index_inv; lia || done.
Qed.

Lemma ntohs_invol x : 0 <= x < 65536 -> ntohs (ntohs x) = x.
Proof.
  intros Hx. apply (bits_eq 16); [apply bswap16_range|lia..|].
  intros n Hn. pose proof (swap_index_range 2 n).
  rewrite !ntohs_spec, swap_index_inv; lia || done.
Qed.

(** ** Strings *)

Definition ch (c : ascii) : Z := Z.of_N (N_of_ascii c).

Definition tolower (c : ascii) : ascii :=
  if (65 <=? ch c) && (ch c <=? 90) then ascii_of_N (Z.to_N (ch c + 32)) else c.

(** [strcmp(a, b) == 0], [strncmp(a, b, n) == 0] and their case-blind forms. *)
Definition strcmp_eq (a b : cstr) : bool := bool_decide (a = b).
Definition strncmp_eq (a b : cstr) (n : nat) : bool := bool_decide (take n a = take n b).
Definition strcasecmp_eq (a b : cstr) : bool :=
  bool_decide (map tolower a = map tolower b).
Definition strncasecmp_eq (a b : cstr) (n : nat) : bool :=
  bool_decide (map tolower (take n a) = map tolower (take n b)).

(** Index of the last occurrence of a character. *)
Fixpoint strrchr (s : cstr) (c : ascii) : option nat :=
  match s with
  | [] => None
  | x :: s' =>
      match strrchr s' c with
      | Some i => Some (S i)
      | None => if bool_decide (x = c) then Some O else None
      end
  end.

Lemma strrchr_Some s c i :
  strrchr s c = Some i -> exists a b, s = a ++ c :: b /\ length a = i /\ c ∉ b.
Proof.
  revert i. induction s as [|x s IH]; intros i Hi; cbn in Hi; [done|].
  destruct (strrchr s c) as [j|] eqn:Ej.
  - injection Hi as <-. destruct (IH j eq_refl) as (a & b & -> & <- & Hb).
    by exists (x :: a), b.
  - case_bool_decide as Hx; [|done]. injection Hi as <-. subst x.
    exists [], s. split_and!; [done..|]. intros Hin. clear IH.
    induction s as [|y s IHs]; [by inversion Hin|]. cbn in Ej.
    destruct (strrchr s c); [done|]. case_bool_decide; [done|].
    apply elem_of_cons in Hin as [->|]; auto.
Qed.

Lemma strrchr_None s c : strrchr s c = None <-> c ∉ s.
Proof.
  induction s as [|x s IH]; cbn; [split; [intros _ H; inversion H|done]|].
  rewrite elem_of_cons. destruct (strrchr s c) as [j|].
  - split; [done|]. intros H. exfalso. discriminate (proj2 IH ltac:(tauto)).
  - case_bool_decide as Hx.
    + split; [done|]. intros H. exfalso. apply H. by left.
    + split; [|done]. intros _ [->|Hin]; [done|]. by apply IH in Hin.
Qed.

Lemma strrchr_app a c b : c ∉ b -> strrchr (a ++ c :: b) c = Some (length a).
Proof.
  intros Hb. induction a as [|x a IH]; cbn.
  - apply strrchr_None in Hb. by rewrite Hb, bool_decide_eq_true_2.
  - by rewrite IH.
Qed.

(** [strtok]/[strtok_r] with the delimiters [ds]: the tokens its successive
    calls return.  Runs of delimiters separate once, and leading and trailing
    ones are dropped. *)
Fixpoint tokens_from (ds : cstr) (cur : cstr) (s : cstr) : list cstr :=
  match s with
  | [] => if bool_decide (cur = []) then [] else [cur]
  | x :: s' =>
      if bool_decide (x ∈ ds) then
        if bool_decide (cur = []) then tokens_from ds [] s'
        else cur :: tokens_from ds [] s'
      else tokens_from ds (cur ++ [x]) s'
  end.
Definition strtok_all (ds : cstr) (s : cstr) : list cstr := tokens_from ds [] s.

(** The first call also ends the string at the first token: it writes a NUL over
    the delimiter that follows. *)
Fixpoint cut_token (ds : cstr) (s : cstr) : cstr :=
  match s with
  | [] => []
  | x :: s' => if bool_decide (x ∈ ds) then [] else x :: cut_token ds s'
  end.
Fixpoint strtok_left (ds : cstr) (s : cstr) : cstr :=
  match s with
  | [] => []
  | x :: s' => if bool_decide (x ∈ ds) then x :: strtok_left ds s' else cut_token ds s
  end.

Example strtok_ex : strtok_all (str "!") (str "foo!!2!v4!") = [str "foo"; str "2"; str "v4"].
Proof. reflexivity. Qed.

Lemma cut_token_app ds a d rest :
  Forall (fun c => c ∉ ds) a -> d ∈ ds -> cut_token ds (a ++ d :: rest) = a.
Proof.
  intros Ha Hd. induction Ha as [|x a Hx Ha IH]; cbn; [by rewrite bool_decide_eq_true_2|].
  rewrite bool_decide_eq_false_2 by done. by rewrite IH.
Qed.
Lemma cut_token_all ds a : Forall (fun c => c ∉ ds) a -> cut_token ds a = a.
Proof.
  intros Ha. induction Ha as [|x a Hx Ha IH]; cbn; [done|].
  rewrite bool_decide_eq_false_2 by done. by rewrite IH.
Qed.
Lemma strtok_left_app ds a d rest :
  a <> [] -> Forall (fun c => c ∉ ds) a -> d ∈ ds -> strtok_left ds (a ++ d :: rest) = a.
Proof.
  intros Hne Ha Hd. destruct a as [|x a]; [done|]. cbn.
  inversion Ha; subst. rewrite bool_decide_eq_false_2 by done. f_equal. by apply cut_token_app.
Qed.

(** A word that holds no delimiter is one token. *)
Lemma tokens_from_word ds cur a rest :
  Forall (fun c => c ∉ ds) a -> tokens_from ds cur (a ++ rest) = tokens_from ds (cur ++ a) rest.
Proof.
  intros Ha. revert cur. induction Ha as [|x a Hx Ha IH]; intros cur; cbn; [by rewrite app_nil_r|].
  rewrite bool_decide_eq_false_2 by done. by rewrite IH, <- app_assoc.
Qed.
Lemma strtok_word ds a :
  a <> [] -> Forall (fun c => c ∉ ds) a -> strtok_all ds a = [a].
Proof.
  intros Hne Ha. unfold strtok_all. rewrite <- (app_nil_r a), tokens_from_word by done. cbn.
  rewrite bool_decide_eq_false_2 by done. by rewrite app_nil_r.
Qed.
Lemma strtok_cons ds a d rest :
  a <> [] -> Forall (fun c => c ∉ ds) a -> d ∈ ds ->
  strtok_all ds (a ++ d :: rest) = a :: strtok_all ds rest.
Proof.
  intros Hne Ha Hd. unfold strtok_all. rewrite tokens_from_word by done. cbn.
  rewrite bool_decide_eq_true_2, bool_decide_eq_false_2 by done. done.
Qed.

(** *** Numbers *)

Definition isspace (c : ascii) : bool :=
  (ch c =? 32) || ((9 <=? ch c) && (ch c <=? 13)).

Definition digit_val (c : ascii) : option Z :=
  if (48 <=? ch c) && (ch c <=? 57) then Some (ch c - 48)
  else if (97 <=? ch c) && (ch c <=? 122) then Some (ch c - 87)
  else if (65 <=? ch c) && (ch c <=? 90) then Some (ch c - 55)
  else None.

Fixpoint drop_spaces (s : cstr) : cstr :=
  match s with
  | x :: s' => if isspace x then drop_spaces s' else s
  | [] => []
  end.

Fixpoint digits (base : Z) (acc : Z) (s : cstr) : Z * cstr :=
  match s with
  | x :: s' =>
      match digit_val x with
      | Some d => if d <? base then digits base (acc * base + d) s' else (acc, s)
      | None => (acc, s)
      end
  | [] => (acc, [])
  end.

Definition has_digit (base : Z) (s : cstr) : bool :=
  match s with
  | x :: _ => match digit_val x with Some d => d <? base | None => false end
  | [] => false
  end.

Definition LONG_MAX : Z := 9223372036854775807.
Definition LONG_MIN : Z := -9223372036854775808.

(** [strtol(s, &end, base)]: the value, the rest of the string at [*end], and
    whether errno was set to ERANGE.  Base 0 selects 16, 8 or 10 from the
    prefix; a "0x" prefix only counts when a digit follows. *)
Definition strtol (s : cstr) (base : Z) : Z * cstr * bool :=
  let s0 := drop_spaces s in
  let '(neg, s1) :=
    match s0 with
    | "-" :: r => (true, r)
    | "+" :: r => (false, r)
    | _ => (false, s0)
    end%char in
  let hexrest :=
    match s1 with
    | "0" :: x :: r =>
        if (bool_decide (x = "x") || bool_decide (x = "X")) && has_digit 16 r
        then Some r else None
    | _ => None
    end%char in
  let '(b, s2) :=
    match base, hexrest, s1 with
    | 0, Some r, _ => (16, r)
    | 16, Some r, _ => (16, r)
    | 0, None, "0"%char :: _ => (8, s1)
    | 0, None, _ => (10, s1)
    | _, _, _ => (base, s1)
    end in
  if has_digit b s2 then
    let '(v, rest) := digits b 0 s2 in
    let v' := if neg then - v else v in
    if v' >? LONG_MAX then (LONG_MAX, rest, true)
    else if v' <? LONG_MIN then (LONG_MIN, rest, true)
    else (v', rest, false)
  else (0, s, false).

(** [atoi(s)] is [(int)strtol(s, NULL, 10)]. *)
Definition atoi (s : cstr) : Z := i32 (fst (fst (strtol s 10))).

Example strtol_hex : strtol (str " 0x2eg") 0 = (46, str "g", false).
Proof. reflexivity. Qed.
Example strtol_neg : strtol (str "-17") 0 = (-17, [], false).
Proof. reflexivity. Qed.
Example strtol_none : strtol (str "abc") 10 = (0, str "abc", false).
Proof. reflexivity. Qed.
Example atoi_ex : atoi (str "600s") = 600.
Proof. reflexivity. Qed.
