(* ===== verification/Print.v ===== *)
(** Numbers as printf() writes them, shared by the components that print text: the
    conversions %d, %ld and %u ([print_dec]), %x ([print_hex]) and %.Nd ([pad]), with
    what strtol() reads back from them. *)
From S2P Require Import Prelude CLib.
#[local] Open Scope Z_scope.

Definition digit_char (d : Z) : ascii := ascii_of_N (Z.to_N (if d <? 10 then d + 48 else d + 87)).

(** The digits of [n], put before [acc]. *)
Fixpoint print_digits (fuel : nat) (base n : Z) (acc : cstr) : cstr :=
  match fuel with
  | O => acc
  | S fuel =>
      let acc := digit_char (n mod base) :: acc in
      if n / base =? 0 then acc else print_digits fuel base (n / base) acc
  end.
Definition print_base (base n : Z) : cstr := print_digits (S (Z.to_nat (Z.log2 n))) base n [].
Definition print_hex (n : Z) : cstr := print_base 16 n.
Definition print_dec (n : Z) : cstr := if n <? 0 then "-"%char :: print_base 10 (- n) else print_base 10 n.
(** At least [width] digits. *)
Definition pad (width : nat) (s : cstr) : cstr := replicate (width - length s) "0"%char ++ s.

Example print_hex_ex : print_hex 131064 = str "1fff8". Proof. reflexivity. Qed.
Example print_dec_ex : print_dec (-120) = str "-120" /\ print_dec 0 = str "0". Proof. done. Qed.

(** ** What is read back *)

Lemma digit_cases (P : Z -> Prop) : Forall P (seqZ 0 16) -> forall d, 0 <= d < 16 -> P d.
Proof. intros H d Hd. rewrite Forall_forall in H. apply H, elem_of_seqZ. lia. Qed.
Lemma digit_val_char d : 0 <= d < 16 -> digit_val (digit_char d) = Some d.
Proof. revert d. apply (digit_cases (fun d => digit_val (digit_char d) = Some d)). repeat constructor. Qed.

Section Digits.
Context (base : Z) (Hbase : 2 <= base <= 16).

Lemma digit_mod n : digit_val (digit_char (n mod base)) = Some (n mod base) /\ (n mod base <? base) = true.
Proof using Hbase.
  pose proof (Z.mod_pos_bound n base). split; [apply digit_val_char; lia|]. apply Z.ltb_lt. lia.
Qed.

Lemma digits_print fuel : forall n acc,
  0 <= n < base ^ Z.of_nat fuel -> (0 < fuel)%nat ->
  digits base 0 (print_digits fuel base n acc) = digits base n acc.
Proof using Hbase.
  induction fuel as [|fuel IH]; intros n acc Hn Hf; [lia|]. cbn [print_digits].
  destruct (digit_mod n) as [Hd Hlt]. pose proof (Z.div_mod n base ltac:(lia)) as Hdm.
  destruct (Z.eqb_spec (n / base) 0) as [E|E].
  - cbn [digits]. rewrite Hd, Hlt. f_equal. lia.
  - rewrite Nat2Z.inj_succ, Z.pow_succ_r in Hn by lia. destruct fuel as [|fuel]; [|rewrite IH].
    + cbn in Hn. exfalso. apply E. apply Z.div_small. lia.
    + cbn [digits]. rewrite Hd, Hlt. f_equal. lia.
    + split; [apply Z.div_pos; lia|]. apply Z.div_lt_upper_bound; lia.
    + lia.
Qed.

Lemma fuel_enough n : 0 <= n -> n < base ^ Z.of_nat (S (Z.to_nat (Z.log2 n))).
Proof using Hbase.
  intros Hn. pose proof (Z.log2_nonneg n). rewrite Nat2Z.inj_succ, Z2Nat.id by lia.
  destruct (Z.eqb_spec n 0) as [->|Hne]; [cbn; lia|].
  eapply Z.lt_le_trans; [apply Z.log2_spec; lia|]. apply Z.pow_le_mono_l. lia.
Qed.

(** The digits of a number, followed by anything that does not start with a digit. *)
Lemma print_digits_app fuel n acc : print_digits fuel base n acc = print_digits fuel base n [] ++ acc.
Proof using.
  revert n acc. induction fuel as [|fuel IH]; intros n acc; [done|]. cbn [print_digits].
  destruct (_ =? 0); [done|]. rewrite IH, (IH _ [_]), <- app_assoc. done.
Qed.
Lemma digits_stop n rest : has_digit base rest = false -> digits base n rest = (n, rest).
Proof using. destruct rest as [|c rest]; [done|]. cbn. destruct (digit_val c); [|done]. by intros ->. Qed.
Lemma digits_print_base n rest :
  0 <= n -> has_digit base rest = false -> digits base 0 (print_base base n ++ rest) = (n, rest).
Proof using Hbase.
  intros Hn Hr. unfold print_base. rewrite <- print_digits_app, digits_print; [by apply digits_stop| |lia].
  split; [done|]. by apply fuel_enough.
Qed.

Lemma print_digits_chars fuel n acc :
  Forall (fun c => exists d, 0 <= d < base /\ c = digit_char d) acc ->
  Forall (fun c => exists d, 0 <= d < base /\ c = digit_char d) (print_digits fuel base n acc).
Proof using Hbase.
  revert n acc. induction fuel as [|fuel IH]; intros n acc Hacc; [done|]. cbn [print_digits].
  assert (Hc : Forall (fun c => exists d, 0 <= d < base /\ c = digit_char d) (digit_char (n mod base) :: acc)).
  { constructor; [|done]. exists (n mod base). split; [|done]. apply Z.mod_pos_bound. lia. }
  destruct (_ =? 0); [done|]. by apply IH.
Qed.
Lemma print_base_chars n : Forall (fun c => exists d, 0 <= d < base /\ c = digit_char d) (print_base base n).
Proof using Hbase. apply print_digits_chars. constructor. Qed.

(** The number of digits. *)
Lemma length_print_digits k : forall fuel n acc,
  base ^ k <= n < base ^ (k + 1) -> 0 <= k -> (Z.to_nat k < fuel)%nat ->
  length (print_digits fuel base n acc) = (Z.to_nat (k + 1) + length acc)%nat.
Proof using Hbase.
  intros fuel n acc Hn Hk. revert fuel n acc Hn. pattern k. revert k Hk. apply natlike_ind; [|intros k Hk IH];
    intros fuel n acc Hn Hf; (destruct fuel as [|fuel]; [lia|]); cbn [print_digits].
  - rewrite Z.div_small by lia. done.
  - rewrite Z.pow_succ_r in Hn by lia. assert (Hpk : 0 < base ^ k) by (apply Z.pow_pos_nonneg; lia).
    assert (Hge : base ^ k <= n / base) by (apply Z.div_le_lower_bound; lia).
    destruct (Z.eqb_spec (n / base) 0); [lia|]. rewrite IH; [|split; [done|]|lia].
    + cbn [length]. lia.
    + apply Z.div_lt_upper_bound; [lia|]. rewrite <- Z.pow_succ_r by lia.
      replace (Z.succ (k + 1)) with (Z.succ k + 1) by lia. lia.
Qed.
Lemma length_print_base k n :
  base ^ k <= n < base ^ (k + 1) -> 0 <= k -> length (print_base base n) = Z.to_nat (k + 1).
Proof using Hbase.
  intros Hn Hk. unfold print_base. rewrite (length_print_digits k); [cbn; lia|done..|].
  assert (Hlt : base ^ k < base ^ Z.of_nat (S (Z.to_nat (Z.log2 n)))).
  { eapply Z.le_lt_trans; [|apply fuel_enough]; [lia|]. pose proof (Z.pow_pos_nonneg base k). lia. }
  apply Z.pow_lt_mono_r_iff in Hlt; lia.
Qed.
Lemma length_print_digits_le m : forall fuel n acc,
  0 <= n < base ^ Z.of_nat (S m) -> (length (print_digits fuel base n acc) <= S m + length acc)%nat.
Proof using Hbase.
  induction m as [|m IH]; intros fuel n acc Hn; (destruct fuel as [|fuel]; [cbn; lia|]); cbn [print_digits].
  - rewrite Z.div_small by lia. cbn. lia.
  - destruct (n / base =? 0); [cbn; lia|]. etransitivity; [apply IH|cbn; lia].
    split; [apply Z.div_pos; lia|]. apply Z.div_lt_upper_bound; [lia|]. rewrite Nat2Z.inj_succ, Z.pow_succ_r in Hn by lia. lia.
Qed.
Lemma length_print_base_le m n :
  0 <= n < base ^ Z.of_nat (S m) -> (length (print_base base n) <= S m)%nat.
Proof using Hbase.
  intros Hn. unfold print_base. etransitivity; [by apply length_print_digits_le|]. cbn [length]. lia.
Qed.
Lemma print_base_nonempty n : print_base base n <> [].
Proof using.
  unfold print_base. cbn [print_digits]. destruct (_ =? 0); [done|].
  rewrite print_digits_app. by intros [_ ?]%app_nil.
Qed.
End Digits.

(** A decimal digit is neither a space nor a sign. *)
Lemma digit_shape d :
  0 <= d < 10 -> isspace (digit_char d) = false /\ digit_char d <> "-"%char /\ digit_char d <> "+"%char.
Proof.
  intros Hd. assert (H : Forall (fun d => isspace (digit_char d) = false /\ digit_char d <> "-"%char
    /\ digit_char d <> "+"%char) (seqZ 0 10)) by (repeat constructor; discriminate).
  rewrite Forall_forall in H. apply H, elem_of_seqZ. lia.
Qed.

(** strtol() reads a printed number back. *)
Lemma strtol_print_dec n :
  0 <= n <= LONG_MAX -> strtol (print_dec n) 10 = (n, [], false).
Proof.
  intros Hn. unfold print_dec. rewrite (proj2 (Z.ltb_ge n 0)) by lia.
  pose proof (digits_print_base 10 ltac:(lia) n [] ltac:(lia) eq_refl) as Hd. rewrite app_nil_r in Hd.
  pose proof (print_base_chars 10 ltac:(lia) n) as Hc. pose proof (print_base_nonempty 10 n) as Hne.
  destruct (print_base 10 n) as [|c s]; [done|]. rewrite Forall_cons in Hc. destruct Hc as [(d & Hd10 & ->) _].
  destruct (digit_shape d Hd10) as (Hs & Hm & Hp). unfold strtol. cbn [drop_spaces]. rewrite Hs.
  assert (Hneg : (match digit_char d :: s with "-"%char :: r => (true, r) | "+"%char :: r => (false, r)
     | _ => (false, digit_char d :: s) end) = (false, digit_char d :: s)).
  { clear -Hm Hp. destruct (digit_char d) as [[] [] [] [] [] [] [] []]; try reflexivity; by (contradict Hm || contradict Hp). }
  rewrite Hneg. cbv zeta.
  assert (Hb : has_digit 10 (digit_char d :: s) = true).
  { cbn. rewrite digit_val_char by lia. apply Z.ltb_lt. lia. }
  rewrite Hb, Hd. rewrite Z.gtb_ltb, (proj2 (Z.ltb_ge _ _)), (proj2 (Z.ltb_ge _ _));
    unfold LONG_MIN, LONG_MAX in *; lia || done.
Qed.
