(* ===== verification/Calendar.v ===== *)
(** Calendar time of the C library, as used by the scheduler.

    [gmtime_r] and [timegm] over the proleptic Gregorian calendar in UTC.
    [timegm] normalises an out-of-range day of the month, which
    get_period_start() in src/measured/schedule.c relies on.  The main result
    is the round trip [timegm_gmtime_r], and the fact that [timegm] is linear
    in the fields the scheduler overwrites ([timegm_shift]). *)
From S2P Require Import Prelude.
#[local] Open Scope Z_scope.

(** [struct tm]: [tm_mon] is 0..11, [tm_year] counts from 1900. *)
Record tm : Set := Tm {
  tm_sec : Z; tm_min : Z; tm_hour : Z; tm_mday : Z;
  tm_mon : Z; tm_year : Z; tm_wday : Z
}.

(** Days from 1970-01-01 to day [mday] of month [mon] (0..11) of [year]; years
    are counted from March so that the leap day is the last of its year. *)
Definition days_from_civil (year mon mday : Z) : Z :=
  let y := if mon <=? 1 then year - 1 else year in
  let era := y / 400 in
  let yoe := y mod 400 in
  let mp := if mon <=? 1 then mon + 10 else mon - 2 in
  let doy := (153 * mp + 2) / 5 + mday - 1 in
  let doe := yoe * 365 + yoe / 4 - yoe / 100 + doy in
  era * 146097 + doe - 719468.

(** The inverse: year, month (0..11) and day of the month. *)
Definition civil_from_days (days : Z) : Z * Z * Z :=
  let z := days + 719468 in
  let era := z / 146097 in
  let doe := z mod 146097 in
  let yoe := (doe - doe / 1460 + doe / 36524 - doe / 146096) / 365 in
  let doy := doe - (365 * yoe + yoe / 4 - yoe / 100) in
  let mp := (5 * doy + 2) / 153 in
  let mday := doy - (153 * mp + 2) / 5 + 1 in
  let mon := if mp <? 10 then mp + 2 else mp - 10 in
  let y := era * 400 + yoe in
  ((if mon <=? 1 then y + 1 else y), mon, mday).

Definition SECS_PER_DAY : Z := 86400.

Definition gmtime_r (t : Z) : tm :=
  let days := t / 86400 in
  let rem := t mod 86400 in
  let '(y, m, d) := civil_from_days days in
  {| tm_sec := rem mod 60; tm_min := rem / 60 mod 60; tm_hour := rem / 3600;
     tm_mday := d; tm_mon := m; tm_year := y - 1900;
     tm_wday := (days + 4) mod 7 |}.

Definition timegm (x : tm) : Z :=
  days_from_civil (tm_year x + 1900) (tm_mon x) (tm_mday x) * 86400
  + tm_hour x * 3600 + tm_min x * 60 + tm_sec x.

(** ** Round trip *)

(** Within one 400-year era the year and the day of the year are in range. *)
Lemma doe_bounds doe :
  0 <= doe < 146097 ->
  let yoe := (doe - doe / 1460 + doe / 36524 - doe / 146096) / 365 in
  0 <= yoe < 400 /\ 0 <= doe - (365 * yoe + yoe / 4 - yoe / 100) <= 365.
Proof. intros H. cbv zeta. Z.div_mod_to_equations. lia. Qed.

Lemma days_from_civil_from_days days :
  let '(y, m, d) := civil_from_days days in days_from_civil y m d = days.
Proof.
  unfold civil_from_days, days_from_civil.
  pose proof (Z.mod_pos_bound (days + 719468) 146097 eq_refl) as Hdoe.
  pose proof (doe_bounds _ Hdoe) as Hb. cbv zeta in *.
  pose proof (Z.div_mod (days + 719468) 146097 ltac:(lia)) as Hz.
  set (doe := (days + 719468) mod 146097) in *.
  set (era := (days + 719468) / 146097) in *.
  set (yoe := (doe - doe / 1460 + doe / 36524 - doe / 146096) / 365) in *.
  set (doy := doe - (365 * yoe + yoe / 4 - yoe / 100)) in *.
  destruct Hb as [Hy Hd].
  assert (Hmp : 0 <= (5 * doy + 2) / 153 <= 11) by (Z.div_mod_to_equations; lia).
  set (mp := (5 * doy + 2) / 153) in *. clearbody mp.
  assert (Hera : (era * 400 + yoe) / 400 = era /\ (era * 400 + yoe) mod 400 = yoe)
    by (Z.div_mod_to_equations; lia).
  destruct Hera as [Hq Hr].
  destruct (Z.ltb_spec mp 10).
  - replace (mp + 2 <=? 1) with false by lia. rewrite Hq, Hr.
    replace (mp + 2 - 2) with mp by lia. unfold doy. lia.
  - replace (mp - 10 <=? 1) with true by lia.
    replace (era * 400 + yoe + 1 - 1) with (era * 400 + yoe) by lia.
    rewrite Hq, Hr. replace (mp - 10 + 10) with mp by lia. unfold doy. lia.
Qed.

Lemma timegm_gmtime_r t : timegm (gmtime_r t) = t.
Proof.
  unfold timegm, gmtime_r.
  pose proof (days_from_civil_from_days (t / 86400)) as H.
  destruct (civil_from_days (t / 86400)) as [[y m] d]. cbn.
  replace (y - 1900 + 1900) with y by lia. rewrite H.
  clear H. Z.div_mod_to_equations. lia.
Qed.

(** [timegm] normalises whatever day, hour, minute and second it is given: it
    is linear in each of them. *)
Lemma timegm_shift x ds dm dh dd :
  timegm {| tm_sec := ds; tm_min := dm; tm_hour := dh; tm_mday := tm_mday x + dd;
            tm_mon := tm_mon x; tm_year := tm_year x; tm_wday := tm_wday x |}
  = timegm x + dd * 86400 + (dh - tm_hour x) * 3600 + (dm - tm_min x) * 60
    + (ds - tm_sec x).
Proof. unfold timegm, days_from_civil. cbn. lia. Qed.

(** The fields the scheduler reads are the ones of the second count. *)
Lemma gmtime_r_fields t :
  tm_sec (gmtime_r t) = t mod 86400 mod 60 /\
  tm_min (gmtime_r t) = t mod 86400 / 60 mod 60 /\
  tm_hour (gmtime_r t) = t mod 86400 / 3600 /\
  tm_wday (gmtime_r t) = (t / 86400 + 4) mod 7.
Proof.
  unfold gmtime_r. destruct (civil_from_days (t / 86400)) as [[y m] d]. by cbn.
Qed.

(** A few dates, against the calendar everyone knows. *)
Example epoch : civil_from_days 0 = (1970, 0, 1).
Proof. reflexivity. Qed.
Example leap_day : civil_from_days 11016 = (2000, 1, 29).
Proof. reflexivity. Qed.
Example tm_2021 : gmtime_r 1614556800 = Tm 0 0 0 1 2 121 1.
Proof. reflexivity. Qed.
