(* ===== verification/SchedTime.v ===== *)
(** When a scheduled test runs next (src/measured/schedule.c, lines 332-736).

    [get_period_start], [check_time_range] and
    [get_next_schedule_time_internal] are translated with the widths the C
    code uses: times in seconds are signed 64-bit, [start], [end] and
    [frequency] are unsigned 64-bit microseconds, so that mixed expressions
    wrap to 64 bits.  The specification is the set of time slots of a period:
    the first [start], its repeats every [frequency] up to [end], and the
    start of the next period.  The theorems say that the code returns the
    first slot after the current time. *)
From S2P Require Import Prelude CLib Calendar.
#[local] Open Scope Z_scope.

Inductive schedule_period : Set :=
| SCHEDULE_PERIOD_INVALID
| SCHEDULE_PERIOD_HOURLY
| SCHEDULE_PERIOD_DAILY
| SCHEDULE_PERIOD_WEEKLY.

#[export] Instance schedule_period_eq_dec : EqDecision schedule_period.
Proof. solve_decision. Defined.

Definition SCHEDULE_CLOCK_FUDGE : Z := 100 * 1000.

Definition get_period_label (period : cstr) : schedule_period :=
  if strcasecmp_eq period (str "hour") || strcasecmp_eq period (str "hourly")
     || strcasecmp_eq period (str "H") then SCHEDULE_PERIOD_HOURLY
  else if strcasecmp_eq period (str "day") || strcasecmp_eq period (str "daily")
     || strcasecmp_eq period (str "D") then SCHEDULE_PERIOD_DAILY
  else if strcasecmp_eq period (str "week") || strcasecmp_eq period (str "weekly")
     || strcasecmp_eq period (str "W") then SCHEDULE_PERIOD_WEEKLY
  else SCHEDULE_PERIOD_INVALID.

Definition get_period_max_value (period : schedule_period) : Z :=
  match period with
  | SCHEDULE_PERIOD_HOURLY => 60*60
  | SCHEDULE_PERIOD_DAILY => 60*60*24
  | SCHEDULE_PERIOD_WEEKLY => 60*60*24*7
  | _ => -1
  end.

Definition get_period_default_frequency (period : schedule_period) : Z :=
  match period with
  | SCHEDULE_PERIOD_HOURLY => 60
  | SCHEDULE_PERIOD_DAILY => 60*10
  | SCHEDULE_PERIOD_WEEKLY => 60*60
  | _ => -1
  end.

Definition check_time_range (value : Z) (period : schedule_period) : Z :=
  let max_interval := i64 (get_period_max_value period * 1000000) in
  if (max_interval <? 0) || (value <? 0) || (value >? max_interval) then -1
  else value.

Definition get_period_start (period : schedule_period) (now : Z) : Z :=
  let t := gmtime_r now in
  let start hour mday :=
    {| tm_sec := 0; tm_min := 0; tm_hour := hour; tm_mday := mday;
       tm_mon := tm_mon t; tm_year := tm_year t; tm_wday := tm_wday t |} in
  timegm (match period with
          | SCHEDULE_PERIOD_HOURLY => start (tm_hour t) (tm_mday t)
          | SCHEDULE_PERIOD_DAILY => start 0 (tm_mday t)
          | SCHEDULE_PERIOD_WEEKLY => start 0 (tm_mday t - tm_wday t)
          | _ => start 0 (tm_mday t)
          end).

(** US_FROM_TV *)
Definition US_FROM_TV (tv : timeval) : Z := i64 (tv_sec tv * 1000000 + tv_usec tv).

(** ADD_TV_PARTS: add, then carry whole seconds out of the microseconds. *)
Fixpoint tv_carry (fuel : nat) (sec usec : Z) : timeval :=
  match fuel with
  | O => Tv sec usec
  | S fuel' =>
      if 1000000 <=? usec then tv_carry fuel' (sec + 1) (usec - 1000000)
      else Tv sec usec
  end.
Definition ADD_TV_PARTS (a : timeval) (opsec opus : Z) : timeval :=
  let sec := i64 (tv_sec a + opsec) in
  let usec := i64 (tv_usec a + opus) in
  tv_carry (Z.to_nat (usec / 1000000)) sec usec.

(** evutil_timeradd(a, b, result) *)
Definition evutil_timeradd (a b : timeval) : timeval :=
  let sec := tv_sec a + tv_sec b in
  let usec := tv_usec a + tv_usec b in
  if 1000000 <=? usec then Tv (sec + 1) (usec - 1000000) else Tv sec usec.

(** Microseconds to a timeval, as [next.tv_sec = d / 1000000] and
    [next.tv_usec = d % 1000000] do. *)
Definition us_to_tv (d : Z) : timeval := Tv (Z.quot d 1000000) (Z.rem d 1000000).

(** The offset to the next run and, in the second component, the absolute
    time stored through [abstime]. *)
Definition get_next_schedule_time_internal (now : timeval)
    (period : schedule_period) (start end_ frequency : Z) (run : bool)
    : timeval * timeval :=
  let period_start := get_period_start period (tv_sec now) in
  let test_end := i64 (period_start * 1000000 + end_) in
  let diff := i64 (tv_sec now - period_start) in
  let diff := i64 (diff * 1000000) in
  let diff := i64 (diff + tv_usec now) in
  let diff := i64 (diff - start) in
  if diff <? 0 then
    let diff :=
      if run && (Z.abs diff <? SCHEDULE_CLOCK_FUDGE) then
        if frequency >? 0 then i64 (u64 (Z.abs diff + frequency))
        else i64 (Z.abs diff + i64 (get_period_max_value period * 1000000))
      else diff in
    let next := us_to_tv (Z.abs diff) in
    (next, evutil_timeradd now next)
  else
    let '(next_repeat, diff, next) :=
      if frequency =? 0 then (true, diff, Tv 0 0)
      else
        let diff := i64 (u64 diff mod frequency) in
        let diff := i64 (u64 (frequency - diff)) in
        let diff := if run && (diff <? SCHEDULE_CLOCK_FUDGE)
                    then i64 (u64 (diff + frequency)) else diff in
        (false, diff, us_to_tv diff) in
    let period_end := i64 (period_start + get_period_max_value period) in
    let next :=
      if next_repeat || (i64 (tv_sec now + Z.quot diff 1000000) >? period_end)
         || (i64 (US_FROM_TV now + diff) >? test_end)
      then
        let sec := period_end - tv_sec now in
        let base := if tv_usec now >? 0 then Tv (sec - 1) (1000000 - tv_usec now)
                    else Tv sec 0 in
        ADD_TV_PARTS base (start / 1000000) (start mod 1000000)
      else next in
    let next :=
      if (tv_sec next <? 0) || (tv_usec next <? 0) || (1000000 <=? tv_usec next)
      then if frequency =? 0 then Tv (get_period_max_value period) 0
           else Tv (frequency / 1000000) 0
      else next in
    (next, evutil_timeradd now next).

(** get_next_schedule_time(): the cached time of the event loop when there is
    one, the system clock otherwise. *)
Definition get_next_schedule_time (cached : option timeval) (gettimeofday : timeval)
    (period : schedule_period) (start end_ frequency : Z) (run : bool)
    : timeval * timeval :=
  let now := match cached with Some t => t | None => gettimeofday end in
  get_next_schedule_time_internal now period start end_ frequency run.

(** ** The start of a period *)

Definition period_valid (p : schedule_period) : Prop := p <> SCHEDULE_PERIOD_INVALID.

Lemma get_period_max_value_bounds p :
  period_valid p -> 3600 <= get_period_max_value p <= 604800.
Proof. destruct p; cbn; unfold period_valid; intros; try lia; done. Qed.

(** Seconds since the start of the current hour, day or week (weeks start on
    Sunday; the epoch was a Thursday). *)
Definition into_period (p : schedule_period) (now : Z) : Z :=
  match p with
  | SCHEDULE_PERIOD_HOURLY => now mod 3600
  | SCHEDULE_PERIOD_WEEKLY => (now + 4 * 86400) mod 604800
  | _ => now mod 86400
  end.

Lemma get_period_start_eq p now : get_period_start p now = now - into_period p now.
Proof.
  unfold get_period_start, into_period.
  pose proof (gmtime_r_fields now) as (Hs & Hm & Hh & Hw).
  pose proof (timegm_gmtime_r now) as Ht.
  destruct p.
  - pose proof (timegm_shift (gmtime_r now) 0 0 0 0) as H.
    rewrite Z.add_0_r in H. rewrite H, Ht, Hs, Hm, Hh. Z.div_mod_to_equations. lia.
  - pose proof (timegm_shift (gmtime_r now) 0 0 (tm_hour (gmtime_r now)) 0) as H.
    rewrite Z.add_0_r in H. rewrite H, Ht, Hs, Hm. clear. Z.div_mod_to_equations. lia.
  - pose proof (timegm_shift (gmtime_r now) 0 0 0 0) as H.
    rewrite Z.add_0_r in H. rewrite H, Ht, Hs, Hm, Hh. Z.div_mod_to_equations. lia.
  - pose proof (timegm_shift (gmtime_r now) 0 0 0 (- tm_wday (gmtime_r now))) as H.
    replace (tm_mday (gmtime_r now) + - tm_wday (gmtime_r now))
      with (tm_mday (gmtime_r now) - tm_wday (gmtime_r now)) in H by lia.
    rewrite H, Ht, Hs, Hm, Hh, Hw. Z.div_mod_to_equations. lia.
Qed.

Lemma into_period_bounds p now :
  period_valid p -> 0 <= into_period p now < get_period_max_value p.
Proof.
  destruct p; cbn; unfold period_valid; intros; try done; Z.div_mod_to_equations; lia.
Qed.

(** The period containing the current time starts at or before it, is less
    than one period old, and starts exactly where the previous one ended. *)
Lemma get_period_start_bounds p now :
  period_valid p ->
  get_period_start p now <= now < get_period_start p now + get_period_max_value p.
Proof. intros Hp. rewrite get_period_start_eq. pose proof (into_period_bounds p now Hp). lia. Qed.

(** Every time of a period has the same period start. *)
Lemma get_period_start_stable p now t :
  period_valid p ->
  get_period_start p now <= t < get_period_start p now + get_period_max_value p ->
  get_period_start p t = get_period_start p now.
Proof.
  intros Hp. rewrite !get_period_start_eq. unfold into_period.
  destruct p; cbn; try done; intros; Z.div_mod_to_equations; lia.
Qed.

(** ** The time slots of a test *)

(** Parameters that passed the checks of create_and_schedule_test(). *)
Record sched_ok (p : schedule_period) (start end_ frequency : Z) : Prop := {
  so_period : period_valid p;
  so_start : 0 <= start <= get_period_max_value p * 1000000;
  so_end : start <= end_ <= get_period_max_value p * 1000000;
  so_freq : 0 <= frequency <= get_period_max_value p * 1000000
}.

(** A normalised time before the year 36812 (2^40 seconds). *)
Definition now_ok (now : timeval) : Prop := tv_wf now /\ tv_sec now < 1099511627776.

(** Start of the current period in microseconds. *)
Definition start_us (p : schedule_period) (now : timeval) : Z :=
  get_period_start p (tv_sec now) * 1000000.
Definition max_us (p : schedule_period) : Z := get_period_max_value p * 1000000.

(** The absolute times (in microseconds) at which a test may run, as seen from
    time [now]. *)
Inductive slot (p : schedule_period) (start end_ frequency : Z) (now : timeval)
  : Z -> Prop :=
| slot_repeat k :
    0 <= k -> start + k * frequency <= end_ ->
    slot p start end_ frequency now (start_us p now + start + k * frequency)
| slot_next :
    slot p start end_ frequency now (start_us p now + max_us p + start).

(** [t] is the first slot at or after [from]. *)
Definition first_slot p start end_ frequency now (from t : Z) : Prop :=
  slot p start end_ frequency now t /\ from <= t /\
  forall t', slot p start end_ frequency now t' -> from <= t' -> t <= t'.

(** The same computation on unbounded integers. *)
Definition next_offset (p : schedule_period) (start end_ frequency : Z) (run : bool)
    (now : timeval) : Z :=
  let n := tv_us now in
  let d := n - start_us p now - start in
  if d <? 0 then
    if run && (- d <? SCHEDULE_CLOCK_FUDGE) then
      if 0 <? frequency then - d + frequency else - d + max_us p
    else - d
  else if frequency =? 0 then start_us p now + max_us p + start - n
  else
    let r := frequency - d mod frequency in
    let r := if run && (r <? SCHEDULE_CLOCK_FUDGE) then r + frequency else r in
    if n + r >? start_us p now + end_ then start_us p now + max_us p + start - n else r.

Lemma us_to_tv_wf d : 0 <= d -> tv_wf (us_to_tv d) /\ tv_us (us_to_tv d) = d.
Proof.
  intros. unfold us_to_tv, tv_wf, tv_us. cbn [tv_sec tv_usec].
  rewrite Z.quot_div_nonneg, Z.rem_mod_nonneg by lia. Z.div_mod_to_equations. lia.
Qed.

Lemma us_to_tv_us t : tv_wf t -> us_to_tv (tv_us t) = t.
Proof.
  intros H. assert (0 <= tv_us t) by (unfold tv_wf, tv_us in *; lia).
  destruct (us_to_tv_wf (tv_us t)); [done|]. by apply tv_us_inj.
Qed.

Lemma timeradd_us a b : tv_us (evutil_timeradd a b) = tv_us a + tv_us b.
Proof. unfold evutil_timeradd, tv_us. case_match; cbn; lia. Qed.

Lemma timeradd_wf a b : tv_wf a -> tv_wf b -> tv_wf (evutil_timeradd a b).
Proof. unfold evutil_timeradd, tv_wf. zbool; cbn; lia. Qed.

(** Advancing to the start of the next period. *)
Lemma next_period_tv sec usec pe start :
  0 <= usec < 1000000 -> sec <= pe -> (usec = 0 \/ sec < pe) -> 0 <= start ->
  pe - sec <= 604800 -> start <= 604800000000 ->
  let base := if usec >? 0 then Tv (pe - sec - 1) (1000000 - usec) else Tv (pe - sec) 0 in
  ADD_TV_PARTS base (start / 1000000) (start mod 1000000)
  = us_to_tv (pe * 1000000 + start - (sec * 1000000 + usec)).
Proof.
  intros Hu Hs Hc Hst Hb1 Hb2. cbv zeta.
  set (b := if usec >? 0 then _ else _).
  assert (Hb : 0 <= tv_sec b <= 604800 /\ 0 <= tv_usec b < 1000000
               /\ tv_us b = (pe - sec) * 1000000 - usec).
  { unfold b, tv_us. zbool; cbn; lia. }
  clearbody b. destruct b as [bs bu]. unfold tv_us, ADD_TV_PARTS in *. cbn in Hb |- *.
  assert (0 <= start / 1000000 <= 604800 /\ 0 <= start mod 1000000 < 1000000
          /\ start = start / 1000000 * 1000000 + start mod 1000000) as Hd
    by (Z.div_mod_to_equations; lia).
  set (q := start / 1000000) in *. set (r := start mod 1000000) in *. clearbody q r.
  rewrite !i64_id by lia.
  assert (Hc2 : exists c, 0 <= c <= 1 /\ bu + r - c * 1000000 < 1000000 /\
            0 <= bu + r - c * 1000000 /\
            tv_carry (Z.to_nat ((bu + r) / 1000000)) (bs + q) (bu + r)
            = Tv (bs + q + c) (bu + r - c * 1000000)).
  { destruct (Z.le_gt_cases 1000000 (bu + r)).
    - exists 1. replace ((bu + r) / 1000000) with 1 by (Z.div_mod_to_equations; lia).
      change (Z.to_nat 1) with 1%nat. cbn [tv_carry].
      rewrite (proj2 (Z.leb_le _ _)) by done. split_and!; lia || done.
    - exists 0. rewrite Z.div_small by lia. split_and!; try lia. cbn [tv_carry Z.to_nat].
      f_equal; lia. }
  destruct Hc2 as (c & Hc2 & Hlt & Hge & ->).
  symmetry. apply tv_us_inj.
  - apply us_to_tv_wf. lia.
  - unfold tv_wf. cbn [tv_sec tv_usec]. lia.
  - destruct (us_to_tv_wf (pe * 1000000 + start - (sec * 1000000 + usec))) as [_ ->]; [lia|].
    unfold tv_us. cbn [tv_sec tv_usec]. lia.
Qed.

(** The sanity check at the end of the function never fires on a time that
    came from a non-negative offset. *)
Lemma sane_tv d (alt : timeval) :
  0 <= d ->
  (if (tv_sec (us_to_tv d) <? 0) || (tv_usec (us_to_tv d) <? 0)
      || (1000000 <=? tv_usec (us_to_tv d)) then alt else us_to_tv d) = us_to_tv d.
Proof.
  intros Hd. destruct (us_to_tv_wf d Hd) as [Hw _]. unfold tv_wf in Hw.
  zbool; cbn; lia || done.
Qed.

(** Open the function on a time [sec], [usec] of a period that starts at [P] and is
    [M] seconds long; [d] is the time since the first run of the period. *)
Ltac open_schedule sec usec P M d :=
  match goal with
  | Hs : sched_ok ?p _ _ _, Hn : now_ok ?now |- _ =>
      destruct Hs as [Hp Hs He Hf], Hn as [[Hn1 Hn2] Hn3];
      pose proof (get_period_max_value_bounds p Hp) as HM;
      pose proof (get_period_start_bounds p (tv_sec now) Hp) as HP;
      unfold get_next_schedule_time_internal, next_offset, US_FROM_TV, start_us, max_us, tv_us,
        SCHEDULE_CLOCK_FUDGE in *;
      set (P := get_period_start p (tv_sec now)) in *; clearbody P;
      set (M := get_period_max_value p) in *; clearbody M; clear Hp;
      destruct now as [sec usec]
  end;
  cbn [tv_sec tv_usec] in *; cbv zeta;
  rewrite (i64_id (sec - P)) by lia;
  rewrite (i64_id ((sec - P) * 1000000)) by lia;
  rewrite (i64_id ((sec - P) * 1000000 + usec)) by lia;
  match goal with
  | |- context [i64 ((sec - P) * 1000000 + usec - ?start)] =>
      rewrite (i64_id ((sec - P) * 1000000 + usec - start)) by lia;
      replace (sec * 1000000 + usec - P * 1000000 - start)
        with ((sec - P) * 1000000 + usec - start) in * by lia;
      set (d := (sec - P) * 1000000 + usec - start) in *;
      assert (Hd : d = (sec - P) * 1000000 + usec - start) by done; clearbody d
  end;
  rewrite (i64_id (M * 1000000)) by lia;
  match goal with |- context [i64 (P * 1000000 + ?e)] => rewrite (i64_id (P * 1000000 + e)) by lia end;
  rewrite (i64_id (P + M)) by lia.

(** Before the first run of the period. *)
Lemma next_schedule_time_before now p start end_ frequency run :
  sched_ok p start end_ frequency -> now_ok now -> tv_us now - start_us p now - start < 0 ->
  get_next_schedule_time_internal now p start end_ frequency run =
    (us_to_tv (next_offset p start end_ frequency run now),
     evutil_timeradd now (us_to_tv (next_offset p start end_ frequency run now))).
Proof.
  intros Hok Hnow Hneg. open_schedule sec usec P M d. rewrite (proj2 (Z.ltb_lt d 0)) by lia.
  replace (Z.abs d) with (- d) by lia.
  destruct (run && (- d <? 100 * 1000)) eqn:Er.
  - rewrite Z.gtb_ltb. destruct (Z.ltb_spec 0 frequency).
    + rewrite u64_id, i64_id, Z.abs_eq by lia. done.
    + rewrite i64_id, Z.abs_eq by lia. done.
  - replace (Z.abs d) with (- d) by lia. done.
Qed.

(** At or after it. *)
Lemma next_schedule_time_after now p start end_ frequency run :
  sched_ok p start end_ frequency -> now_ok now -> 0 <= tv_us now - start_us p now - start ->
  get_next_schedule_time_internal now p start end_ frequency run =
    (us_to_tv (next_offset p start end_ frequency run now),
     evutil_timeradd now (us_to_tv (next_offset p start end_ frequency run now))).
Proof.
  intros Hok Hnow Hpos. open_schedule sec usec P M d. rewrite (proj2 (Z.ltb_ge d 0)) by lia.
  replace (P * 1000000 + M * 1000000 + start - (sec * 1000000 + usec))
    with ((P + M) * 1000000 + start - (sec * 1000000 + usec)) by lia.
  destruct (Z.eqb_spec frequency 0) as [Hf0|Hf0].
  - cbn [orb]. rewrite next_period_tv by lia. by rewrite sane_tv by lia.
  - pose proof (Z.mod_pos_bound d frequency ltac:(lia)) as Hmod.
    rewrite (u64_id d), (i64_id (d mod frequency)), (u64_id (frequency - _)),
      (i64_id (frequency - _)) by lia.
    set (r0 := frequency - d mod frequency) in *.
    assert (Hr0 : 0 < r0 <= frequency) by (unfold r0; lia).
    rewrite (u64_id (r0 + frequency)), (i64_id (r0 + frequency)) by lia.
    set (r := if run && (r0 <? 100 * 1000) then r0 + frequency else r0) in *.
    assert (Hr : 0 < r <= 2 * frequency) by (unfold r; case_match; lia).
    clearbody r. cbn [orb].
    rewrite (Z.quot_div_nonneg r) by lia.
    rewrite (i64_id (sec * 1000000 + usec)) by lia.
    rewrite (i64_id (sec * 1000000 + usec + r)) by lia.
    rewrite (i64_id (sec + r / 1000000)) by (Z.div_mod_to_equations; lia).
    destruct (sec * 1000000 + usec + r >? P * 1000000 + end_) eqn:Ee.
    + rewrite orb_true_r. rewrite next_period_tv by lia. by rewrite sane_tv by lia.
    + replace (sec + r / 1000000 >? P + M) with false.
      2: { symmetry. rewrite Z.gtb_ltb, Z.ltb_ge in *. Z.div_mod_to_equations. lia. }
      cbn [orb]. by rewrite sane_tv by lia.
Qed.

Lemma next_schedule_time_eq now p start end_ frequency run :
  sched_ok p start end_ frequency -> now_ok now ->
  get_next_schedule_time_internal now p start end_ frequency run =
    (us_to_tv (next_offset p start end_ frequency run now),
     evutil_timeradd now (us_to_tv (next_offset p start end_ frequency run now))).
Proof.
  intros Hs Hn. destruct (Z.lt_ge_cases (tv_us now - start_us p now - start) 0).
  - by apply next_schedule_time_before.
  - by apply next_schedule_time_after.
Qed.

(** ** Theorems *)

Lemma slot_le_next p start end_ frequency now t :
  sched_ok p start end_ frequency -> slot p start end_ frequency now t ->
  t <= start_us p now + max_us p + start.
Proof. intros [Hp Hs He Hf] [k Hk Hle|]; unfold max_us in *; lia. Qed.

(** The first repeat strictly after a time [d] past the first run. *)
Lemma repeat_after d f k : 0 < f -> 0 <= d -> d < k * f -> (d / f + 1) * f <= k * f.
Proof.
  intros Hf Hd Hk. apply Z.mul_le_mono_nonneg_r; [lia|].
  assert (d / f < k) by (apply Z.div_lt_upper_bound; lia). lia.
Qed.

(** The current time is inside its period. *)
Lemma now_in_period p now :
  period_valid p -> now_ok now ->
  start_us p now <= tv_us now < start_us p now + max_us p.
Proof.
  intros Hp [Hw _]. pose proof (get_period_start_bounds p (tv_sec now) Hp).
  unfold start_us, max_us, tv_us, tv_wf in *. lia.
Qed.

(** The slot of the [k]th repeat, under any name for its time. *)
Lemma slot_at p start end_ frequency now k t :
  0 <= k -> start + k * frequency <= end_ -> t = start_us p now + start + k * frequency ->
  slot p start end_ frequency now t.
Proof. intros. subst t. by constructor. Qed.

(** The distance [r] from [d] to the next repeat: it leads to repeat [d / f + 1]. *)
Lemma to_next_repeat d f :
  0 < f -> 0 <= d -> 0 < f - d mod f <= f /\ d + (f - d mod f) = (d / f + 1) * f.
Proof.
  intros Hf Hd. pose proof (Z.div_mod d f ltac:(lia)).
  pose proof (Z.mod_pos_bound d f Hf). lia.
Qed.

(** Skipping repeats closer than [g]: the one reached is the first at least [g]
    away, when repeats are at least [g] apart. *)
Lemma skip_repeat d f g :
  0 < g <= f -> 0 <= d ->
  let r0 := f - d mod f in
  let r := if r0 <? g then r0 + f else r0 in
  g <= r /\ exists j, 0 <= j /\ d + r = j * f /\
    forall k, d + g <= k * f -> j * f <= k * f.
Proof.
  intros Hg Hd. cbv zeta. pose proof (to_next_repeat d f ltac:(lia) Hd) as [Hr He].
  pose proof (Z.div_pos d f Hd ltac:(lia)).
  destruct (Z.ltb_spec (f - d mod f) g).
  - split; [lia|]. exists (d / f + 2). split_and!; [lia..|]. intros k Hk.
    apply Z.mul_le_mono_nonneg_r; [lia|].
    assert (d / f + 1 < k); [|lia]. apply (Z.mul_lt_mono_pos_r f); lia.
  - split; [lia|]. exists (d / f + 1). split_and!; [lia..|]. intros k Hk.
    apply repeat_after; lia.
Qed.

Lemma next_offset_first_slot p start end_ frequency now :
  sched_ok p start end_ frequency -> now_ok now ->
  first_slot p start end_ frequency now (tv_us now + 1)
    (tv_us now + next_offset p start end_ frequency false now).
Proof.
  intros Hok Hnow. pose proof Hok as [Hp Hs He Hf].
  pose proof (now_in_period p now Hp Hnow) as Hin.
  pose proof (slot_next p start end_ frequency now) as HSn.
  unfold next_offset, first_slot. cbv zeta. cbn [andb]. fold (max_us p) in *.
  set (n := tv_us now) in *. set (P := start_us p now) in *.
  destruct (Z.ltb_spec (n - P - start) 0) as [Hneg|Hpos].
  - split_and!; [apply (slot_at _ _ _ _ _ 0); fold P; lia|lia|].
    intros t' [k Hk Hle|] Hn'; fold P in Hn' |- *; nia.
  - destruct (Z.eqb_spec frequency 0) as [->|Hf0].
    { replace (n + (P + max_us p + start - n)) with (P + max_us p + start) by lia.
      split_and!; [done|lia|]. intros t' [k Hk Hle|] Hn'; fold P in Hn' |- *; lia. }
    pose proof (to_next_repeat (n - P - start) frequency ltac:(lia) Hpos) as [Hr Hrep].
    assert (Hq : 0 <= (n - P - start) / frequency) by (apply Z.div_pos; lia).
    pose proof (fun k => repeat_after (n - P - start) frequency k) as Hra.
    set (q := (n - P - start) / frequency) in *.
    set (r := frequency - (n - P - start) mod frequency) in *. clearbody q r.
    rewrite Z.gtb_ltb. destruct (Z.ltb_spec (P + end_) (n + r)).
    + replace (n + (P + max_us p + start - n)) with (P + max_us p + start) by lia.
      split_and!; [done|lia|].
      intros t' [k Hk Hle|] Hn'; fold P in Hn' |- *; [|lia]. specialize (Hra k). lia.
    + split_and!; [apply (slot_at _ _ _ _ _ (q + 1)); fold P; lia|lia|].
      intros t' [k Hk Hle|] Hn'; fold P in Hn' |- *; [|lia]. specialize (Hra k). lia.
Qed.

(** Same for a test that has just run: a slot within the clock tolerance of
    the current time is skipped, except at the end of the period. *)
Lemma next_offset_after_run p start end_ frequency now :
  sched_ok p start end_ frequency -> now_ok now ->
  SCHEDULE_CLOCK_FUDGE <= frequency -> start + frequency <= end_ ->
  let t := tv_us now + next_offset p start end_ frequency true now in
  slot p start end_ frequency now t /\ tv_us now < t /\
  (t = start_us p now + max_us p + start \/ tv_us now + SCHEDULE_CLOCK_FUDGE <= t) /\
  (forall t', slot p start end_ frequency now t' ->
     tv_us now + SCHEDULE_CLOCK_FUDGE <= t' -> t <= t').
Proof.
  intros Hok Hnow Hfudge Hend. pose proof Hok as [Hp Hs He Hf].
  pose proof (now_in_period p now Hp Hnow) as Hin.
  pose proof (slot_next p start end_ frequency now) as HSn.
  cbv zeta. unfold next_offset. cbv zeta. cbn [andb]. fold (max_us p) in *.
  assert (HF : 0 < SCHEDULE_CLOCK_FUDGE) by done.
  set (n := tv_us now) in *. set (P := start_us p now) in *.
  destruct (Z.ltb_spec (n - P - start) 0) as [Hneg|Hpos].
  - destruct (Z.ltb_spec (- (n - P - start)) SCHEDULE_CLOCK_FUDGE).
    + replace (0 <? frequency) with true by lia.
      split_and!; [apply (slot_at _ _ _ _ _ 1); fold P; lia|lia|lia|].
      intros t' [k Hk Hle|] Hn'; fold P in Hn' |- *; [|lia].
      destruct (decide (k = 0)) as [->|]; nia.
    + split_and!; [apply (slot_at _ _ _ _ _ 0); fold P; lia|lia|lia|].
      intros t' [k Hk Hle|] Hn'; fold P in Hn' |- *; nia.
  - replace (frequency =? 0) with false by lia.
    pose proof (skip_repeat (n - P - start) frequency SCHEDULE_CLOCK_FUDGE
                  ltac:(lia) Hpos) as [Hr (j & Hj & Hrj & Hmin)].
    set (r := if _ <? _ then _ else _) in *. clearbody r.
    rewrite Z.gtb_ltb. destruct (Z.ltb_spec (P + end_) (n + r)).
    + replace (n + (P + max_us p + start - n)) with (P + max_us p + start) by lia.
      split_and!; [done|lia|by left|].
      intros t' [k Hk Hle|] Hn'; fold P in Hn' |- *; [|lia]. specialize (Hmin k). lia.
    + split_and!; [apply (slot_at _ _ _ _ _ j); fold P; lia|lia|lia|].
      intros t' [k Hk Hle|] Hn'; fold P in Hn' |- *; [|lia]. specialize (Hmin k). lia.
Qed.

(** C1: For every period, window, frequency and current time, the time
    get_next_schedule_time_internal() computes for a test that is being
    scheduled (not one that has just run) is normalised, the absolute time it
    stores is the current time plus the offset, and that absolute time is the
    first slot strictly after now: the start of the window, a repeat inside
    the window, or the start of the next period's window. *)
Theorem next_schedule_time_first_slot now p start end_ frequency :
  sched_ok p start end_ frequency -> now_ok now ->
  let '(next, abstime) :=
    get_next_schedule_time_internal now p start end_ frequency false in
  tv_wf next /\ tv_wf abstime /\ tv_us abstime = tv_us now + tv_us next /\
  first_slot p start end_ frequency now (tv_us now + 1) (tv_us abstime).
Proof.
  intros Hok Hn. rewrite next_schedule_time_eq by done.
  pose proof (next_offset_first_slot p start end_ frequency now Hok Hn) as Hs.
  assert (Hpos : 0 <= next_offset p start end_ frequency false now)
    by (destruct Hs as (_ & ? & _); lia).
  destruct (us_to_tv_wf _ Hpos) as [Hw He].
  rewrite timeradd_us, He. split_and!; auto using timeradd_wf. apply timeradd_wf; [apply Hn|done].
Qed.

Lemma next_schedule_time_first_slot_witness :
  let now := Tv 1614561000 250000 in
  let '(next, abstime) := get_next_schedule_time_internal now
    SCHEDULE_PERIOD_DAILY 3600000000 7200000000 600000000 false in
  tv_wf next /\ tv_wf abstime /\ tv_us abstime = tv_us now + tv_us next /\
  first_slot SCHEDULE_PERIOD_DAILY 3600000000 7200000000 600000000 now
    (tv_us now + 1) (tv_us abstime).
Proof.
  apply (next_schedule_time_first_slot (Tv 1614561000 250000)).
  - split; cbn; done || lia.
  - unfold now_ok, tv_wf; cbn; lia.
Defined.

(** C2: For a test that has just run, with a frequency of at least the clock
    tolerance and a window that holds at least one repeat, the next time is a
    slot strictly in the future; unless it is the start of the next period it
    is at least the tolerance away, so the run that just finished (possibly a
    little early) is not repeated; and no slot further away than the tolerance
    is skipped. *)
Theorem next_schedule_time_after_run now p start end_ frequency :
  sched_ok p start end_ frequency -> now_ok now ->
  SCHEDULE_CLOCK_FUDGE <= frequency -> start + frequency <= end_ ->
  let '(next, abstime) :=
    get_next_schedule_time_internal now p start end_ frequency true in
  tv_wf next /\ tv_us abstime = tv_us now + tv_us next /\
  slot p start end_ frequency now (tv_us abstime) /\ 0 < tv_us next /\
  (tv_us abstime = start_us p now + max_us p + start \/
     SCHEDULE_CLOCK_FUDGE <= tv_us next) /\
  (forall t', slot p start end_ frequency now t' ->
     tv_us now + SCHEDULE_CLOCK_FUDGE <= t' -> tv_us abstime <= t').
Proof.
  intros Hok Hn Hf He. rewrite next_schedule_time_eq by done.
  pose proof (next_offset_after_run p start end_ frequency now Hok Hn Hf He) as Hs.
  cbv zeta in Hs. destruct Hs as (Hs & Hlt & Hor & Hmin).
  destruct (us_to_tv_wf (next_offset p start end_ frequency true now)) as [Hw Hu]; [lia|].
  rewrite timeradd_us, Hu. split_and!; try done; lia.
Qed.

Lemma next_schedule_time_after_run_witness :
  let now := Tv 1614561599 960000 in
  let '(next, abstime) := get_next_schedule_time_internal now
    SCHEDULE_PERIOD_DAILY 3600000000 7200000000 600000000 true in
  tv_wf next /\ tv_us abstime = tv_us now + tv_us next /\
  slot SCHEDULE_PERIOD_DAILY 3600000000 7200000000 600000000 now (tv_us abstime) /\
  0 < tv_us next /\
  (tv_us abstime = start_us SCHEDULE_PERIOD_DAILY now + max_us SCHEDULE_PERIOD_DAILY
     + 3600000000 \/ SCHEDULE_CLOCK_FUDGE <= tv_us next) /\
  (forall t', slot SCHEDULE_PERIOD_DAILY 3600000000 7200000000 600000000 now t' ->
     tv_us now + SCHEDULE_CLOCK_FUDGE <= t' -> tv_us abstime <= t').
Proof.
  apply (next_schedule_time_after_run (Tv 1614561599 960000)).
  - split; cbn; done || lia.
  - unfold now_ok, tv_wf; cbn; lia.
  - done.
  - lia.
Defined.

(** The tolerance does not work across the end of a period: a test whose
    window starts at the beginning of the period and that is triggered early,
    less than the tolerance before the new period, is scheduled again for the
    same slot (less than the tolerance later), whatever its frequency. *)
Theorem early_run_repeats_at_period_end now p end_ frequency :
  sched_ok p 0 end_ frequency -> now_ok now ->
  (frequency = 0 \/ SCHEDULE_CLOCK_FUDGE <= frequency) ->
  start_us p now + max_us p - SCHEDULE_CLOCK_FUDGE < tv_us now ->
  let '(next, _) := get_next_schedule_time_internal now p 0 end_ frequency true in
  tv_us next = start_us p now + max_us p - tv_us now /\
  0 < tv_us next < SCHEDULE_CLOCK_FUDGE.
Proof.
  intros Hok Hn Hf He. rewrite next_schedule_time_eq by done.
  pose proof Hok as [Hp Hs Hend Hfr]. pose proof (now_in_period p now Hp Hn) as Hin.
  assert (Ho : next_offset p 0 end_ frequency true now = start_us p now + max_us p - tv_us now).
  { unfold next_offset. cbv zeta. cbn [andb]. fold (max_us p) in *.
    replace (tv_us now - start_us p now - 0 <? 0) with false by lia.
    destruct (Z.eqb_spec frequency 0); [lia|].
    destruct (skip_repeat (tv_us now - start_us p now - 0) frequency SCHEDULE_CLOCK_FUDGE)
      as [Hr _]; [unfold SCHEDULE_CLOCK_FUDGE in *; lia|lia|].
    set (r := if _ <? _ then _ else _) in *.
    replace (tv_us now + r >? start_us p now + end_) with true by lia. lia. }
  destruct (us_to_tv_wf (next_offset p 0 end_ frequency true now)) as [Hw ->]; [lia|].
  lia.
Qed.

Lemma early_run_repeats_at_period_end_witness :
  let now := Tv 1614643199 950000 in
  let '(next, _) := get_next_schedule_time_internal now
    SCHEDULE_PERIOD_DAILY 0 86400000000 600000000 true in
  tv_us next = start_us SCHEDULE_PERIOD_DAILY now + max_us SCHEDULE_PERIOD_DAILY
    - tv_us now /\ 0 < tv_us next < SCHEDULE_CLOCK_FUDGE.
Proof.
  apply (early_run_repeats_at_period_end (Tv 1614643199 950000)).
  - split; cbn; done || lia.
  - unfold now_ok, tv_wf; cbn; lia.
  - by right.
  - vm_compute. done.
Defined.

(** The period start computed through gmtime_r() and timegm() is the last
    whole hour, midnight, or Sunday midnight (UTC) at or before the current
    time, at most one period away, and the same for every time of the period. *)
Theorem get_period_start_correct p now :
  period_valid p ->
  get_period_start p now = now - into_period p now /\
  get_period_start p now <= now < get_period_start p now + get_period_max_value p /\
  (forall t, get_period_start p now <= t < get_period_start p now + get_period_max_value p ->
     get_period_start p t = get_period_start p now).
Proof.
  intros Hp. split_and!; [apply get_period_start_eq|by apply get_period_start_bounds..|].
  intros t. by apply get_period_start_stable.
Qed.

Lemma get_period_start_correct_witness :
  get_period_start SCHEDULE_PERIOD_WEEKLY 1614643199 =
    1614643199 - into_period SCHEDULE_PERIOD_WEEKLY 1614643199 /\
  get_period_start SCHEDULE_PERIOD_WEEKLY 1614643199 <= 1614643199 <
    get_period_start SCHEDULE_PERIOD_WEEKLY 1614643199
    + get_period_max_value SCHEDULE_PERIOD_WEEKLY /\
  (forall t, get_period_start SCHEDULE_PERIOD_WEEKLY 1614643199 <= t <
     get_period_start SCHEDULE_PERIOD_WEEKLY 1614643199
     + get_period_max_value SCHEDULE_PERIOD_WEEKLY ->
     get_period_start SCHEDULE_PERIOD_WEEKLY t
     = get_period_start SCHEDULE_PERIOD_WEEKLY 1614643199).
Proof. apply (get_period_start_correct SCHEDULE_PERIOD_WEEKLY 1614643199). done. Defined.

(** Once a test is triggered a little before its window, the end of the window
    is not looked at: the next run is one frequency after the start even when
    that is past the end. *)
Example early_run_ignores_end :
  get_next_schedule_time_internal (Tv 1614560399 950000) SCHEDULE_PERIOD_DAILY
    3600000000 3660000000 600000000 true
  = (Tv 600 50000, Tv 1614561000 0).
Proof. reflexivity. Qed.

(** check_time_range() accepts exactly the values inside the period. *)
Lemma check_time_range_ok value p :
  0 <= check_time_range value p <->
  period_valid p /\ 0 <= value <= get_period_max_value p * 1000000.
Proof.
  unfold check_time_range, period_valid. destruct p; cbn [get_period_max_value];
    rewrite ?i64_id by lia; zbool; cbn; split; intros; try lia; split_and!; (done || lia).
Qed.
