(* ===== verification/ParamString.v ===== *)
(** Splitting a test's argument string (src/measured/schedule.c, lines 430-576).

    [parse_param_string] is the four-state machine of the C function.  The
    fixed-size token buffer and result array are kept: a write past either is
    [Fault OutOfBounds].  A malformed string is [Ok None] (the C function
    returns NULL). *)
From S2P Require Import Prelude CLib.
#[local] Open Scope Z_scope.

Definition MAX_TEST_ARGS : nat := 128.
Definition MAX_ARGUMENT_LENGTH : nat := 1024.

Inductive parse_state : Set := WHITESPACE | DQUOTE | SQUOTE | CHARACTER.

#[export] Instance parse_state_eq_dec : EqDecision parse_state.
Proof. solve_decision. Defined.

Definition c_nl : ascii := "010".
Definition c_tab : ascii := "009".
Definition c_sp : ascii := " ".
Definition c_dq : ascii := ascii_of_nat 34.
Definition c_sq : ascii := "'".
Definition c_bs : ascii := "\".

Definition is_blank (c : ascii) : bool :=
  bool_decide (c = c_nl) || bool_decide (c = c_sp) || bool_decide (c = c_tab).

(** [token[offset++] = c] in a buffer of MAX_ARGUMENT_LENGTH + 1 bytes. *)
Definition put_char (token : cstr) (c : ascii) : res cstr :=
  if (length token <? S MAX_ARGUMENT_LENGTH)%nat then Ok (token ++ [c])
  else Fault OutOfBounds.

(** save_token(token, &result[count++]): strdup() needs the terminator inside
    the buffer and the slot must be inside the array. *)
Definition save_token (token : cstr) (result : list cstr) : res (list cstr) :=
  if (length token <=? MAX_ARGUMENT_LENGTH)%nat
     && (length result <? MAX_TEST_ARGS)%nat
  then Ok (result ++ [token]) else Fault OutOfBounds.

#[global] Arguments MAX_TEST_ARGS : simpl never.
#[global] Arguments MAX_ARGUMENT_LENGTH : simpl never.
#[global] Arguments put_char : simpl never.
#[global] Arguments save_token : simpl never.

(** The loop over the characters, up to the end of the string or the error
    exit ([Ok None]); an escape with nothing after it fails check_more_data(). *)
Fixpoint parse_loop (s : cstr) (state : parse_state) (token : cstr)
    (result : list cstr) : res (option (parse_state * cstr * list cstr)) :=
  match s with
  | [] => Ok (Some (state, token, result))
  | c :: rest =>
      match state with
      | WHITESPACE =>
          if bool_decide (c = c_bs) then
            match rest with
            | [] => Ok None
            | c' :: rest' =>
                token' ← put_char token c'; parse_loop rest' CHARACTER token' result
            end
          else if is_blank c then parse_loop rest WHITESPACE token result
          else if bool_decide (c = c_dq) then parse_loop rest DQUOTE token result
          else if bool_decide (c = c_sq) then parse_loop rest SQUOTE token result
          else token' ← put_char token c; parse_loop rest CHARACTER token' result
      | DQUOTE | SQUOTE =>
          if (bool_decide (state = DQUOTE) && bool_decide (c = c_dq))
             || (bool_decide (state = SQUOTE) && bool_decide (c = c_sq))
          then parse_loop rest CHARACTER token result
          else if bool_decide (c = c_bs) then
            match rest with
            | [] => Ok None
            | c' :: rest' =>
                token' ← put_char token c'; parse_loop rest' state token' result
            end
          else token' ← put_char token c; parse_loop rest state token' result
      | CHARACTER =>
          if bool_decide (c = c_bs) then
            match rest with
            | [] => Ok None
            | c' :: rest' =>
                token' ← put_char token c'; parse_loop rest' CHARACTER token' result
            end
          else if bool_decide (c = c_dq) then parse_loop rest DQUOTE token result
          else if bool_decide (c = c_sq) then parse_loop rest SQUOTE token result
          else if is_blank c then
            result' ← save_token token result; parse_loop rest WHITESPACE [] result'
          else token' ← put_char token c; parse_loop rest CHARACTER token' result
      end
  end.

Definition parse_param_string (param_string : option cstr) : res (option (list cstr)) :=
  match param_string with
  | None | Some [] => Ok (Some [])
  | Some s =>
      r ← parse_loop s WHITESPACE [] [];
      match r with
      | None => Ok None
      | Some (DQUOTE, _, _) | Some (SQUOTE, _, _) => Ok None
      | Some (_, token, result) =>
          result' ← save_token token result;
          (* result[count] = NULL *)
          if (length result' <? MAX_TEST_ARGS)%nat then Ok (Some result')
          else Fault OutOfBounds
      end
  end.

Definition parse (s : string) : res (option (list cstr)) := parse_param_string (Some (str s)).

Example parse_words : parse "-a with 'two words'" =
  Ok (Some [str "-a"; str "with"; str "two words"]).
Proof. reflexivity. Qed.
Example parse_joined : parse "run'words with quotes'some" =
  Ok (Some [str "runwords with quotessome"]).
Proof. reflexivity. Qed.
Example parse_unbalanced : parse "unbalanced 'single" = Ok None.
Proof. reflexivity. Qed.
(** Trailing white space ends in an extra, empty argument. *)
Example parse_trailing : parse "one " = Ok (Some [str "one"; []]).
Proof. reflexivity. Qed.

(** ** Quoting, the inverse of parsing *)

(** An argument in double quotes, with quotes and backslashes escaped. *)
Definition esc (c : ascii) : cstr :=
  if bool_decide (c = c_dq) || bool_decide (c = c_bs) then [c_bs; c] else [c].
Definition quote_arg (a : cstr) : cstr := c_dq :: mjoin (esc <$> a) ++ [c_dq].
Fixpoint unparse (args : list cstr) : cstr :=
  match args with
  | [] => []
  | [a] => quote_arg a
  | a :: args' => quote_arg a ++ c_sp :: unparse args'
  end.

Lemma put_char_Ok token c :
  (length token <= MAX_ARGUMENT_LENGTH)%nat -> put_char token c = Ok (token ++ [c]).
Proof. intros H. unfold put_char. by rewrite (proj2 (Nat.ltb_lt _ _)) by lia. Qed.

Lemma save_token_Ok token result :
  (length token <= MAX_ARGUMENT_LENGTH)%nat -> (length result < MAX_TEST_ARGS)%nat ->
  save_token token result = Ok (result ++ [token]).
Proof.
  intros H1 H2. unfold save_token.
  by rewrite (proj2 (Nat.leb_le _ _) H1), (proj2 (Nat.ltb_lt _ _) H2).
Qed.

(** A quoted argument is consumed into the token. *)
Lemma parse_loop_quoted a token result rest :
  (length token + length a <= MAX_ARGUMENT_LENGTH)%nat ->
  parse_loop (mjoin (esc <$> a) ++ c_dq :: rest) DQUOTE token result
  = parse_loop rest CHARACTER (token ++ a) result.
Proof.
  revert token. induction a as [|c a IH]; intros token Hlen.
  { cbn. by rewrite app_nil_r. }
  cbn in Hlen. rewrite fmap_cons. cbn [mjoin list_join]. rewrite <- app_assoc.
  unfold esc at 1. destruct (decide (c = c_dq)) as [->|Hq]; [|destruct (decide (c = c_bs)) as [->|Hb]].
  all: bd; cbn [app parse_loop]; bd; rewrite put_char_Ok by lia; cbn;
    rewrite IH by (rewrite length_app; cbn; lia); by rewrite <- app_assoc.
Qed.

Lemma parse_loop_unparse a args result :
  Forall (fun x : cstr => length x <= MAX_ARGUMENT_LENGTH)%nat (a :: args) ->
  (length result + length args < MAX_TEST_ARGS)%nat ->
  exists pre lst, a :: args = pre ++ [lst] /\
    parse_loop (unparse (a :: args)) WHITESPACE [] result
    = Ok (Some (CHARACTER, lst, result ++ pre)).
Proof.
  revert a result. induction args as [|b args IH]; intros a result Hall Hlen;
    apply Forall_cons_1 in Hall as [Ha Hall].
  - exists [], a. split; [done|]. unfold unparse, quote_arg. cbn [app parse_loop].
    unfold is_blank at 1.
    bd. rewrite parse_loop_quoted by (cbn; lia). cbn. by rewrite app_nil_r.
  - destruct (IH b (result ++ [a])) as (pre & lst & Heq & Hp); [done| |].
    { rewrite length_app. cbn in *. lia. }
    exists (a :: pre), lst. split; [by rewrite Heq|].
    change (unparse (a :: b :: args)) with (quote_arg a ++ c_sp :: unparse (b :: args)).
    unfold quote_arg at 1. cbn [app parse_loop]. unfold is_blank at 1. bd.
    rewrite <- app_assoc. cbn [app].
    rewrite parse_loop_quoted by (cbn; lia). cbn [app parse_loop]. unfold is_blank at 1. bd.
    rewrite save_token_Ok by (cbn in *; lia). cbn [mbind res_bind]. rewrite Hp.
    by rewrite <- app_assoc.
Qed.

(** C38: Any non-empty list of fewer than 128 arguments, each of at most 1024
    characters, survives being quoted, joined with spaces and parsed again by
    parse_param_string(): every character, quote and backslash included. *)
Theorem parse_unparse args :
  args <> [] -> (length args < MAX_TEST_ARGS)%nat ->
  Forall (fun x : cstr => length x <= MAX_ARGUMENT_LENGTH)%nat args ->
  parse_param_string (Some (unparse args)) = Ok (Some args).
Proof.
  intros Hne Hlen Hall. destruct args as [|a args]; [done|].
  destruct (parse_loop_unparse a args []) as (pre & lst & Heq & Hp); [done|cbn in *; lia|].
  assert (Hu : exists c r, unparse (a :: args) = c :: r) by (destruct args; cbn; eauto).
  destruct Hu as (c & r & Hu). unfold parse_param_string. rewrite Hu, <- Hu, Hp. cbn [mbind res_bind].
  assert (Hlst : length (pre ++ [lst]) = length (a :: args)) by (by rewrite Heq).
  rewrite length_app in Hlst. cbn in Hlst, Hlen.
  rewrite Heq in Hall. apply Forall_app in Hall as [_ Hl]. apply Forall_cons_1 in Hl as [Hl _].
  rewrite save_token_Ok by (cbn; lia). cbn [mbind res_bind]. rewrite (proj2 (Nat.ltb_lt _ _)).
  - by rewrite Heq.
  - rewrite length_app. cbn. lia.
Qed.

Lemma parse_unparse_witness :
  parse_param_string (Some (unparse [str "-p"; str "a b\c"; []])) =
    Ok (Some [str "-p"; str "a b\c"; []]).
Proof.
  apply (parse_unparse [str "-p"; str "a b\c"; []]).
  - done.
  - cbn. unfold MAX_TEST_ARGS. lia.
  - repeat constructor; cbn; unfold MAX_ARGUMENT_LENGTH; lia.
Defined.

(** ** Memory safety *)

(** What a run has consumed pays for what it has produced: every saved argument
    took at least two characters. *)
Definition pending (state : parse_state) : nat :=
  match state with WHITESPACE => 0 | _ => 1 end.

Lemma parse_loop_safe s state token result :
  (length token + length s <= MAX_ARGUMENT_LENGTH)%nat ->
  (2 * length result + pending state + length s <= 253)%nat ->
  exists r, parse_loop s state token result = Ok r /\
    forall st tk rs, r = Some (st, tk, rs) ->
      (length tk <= MAX_ARGUMENT_LENGTH)%nat /\ (length rs <= 126)%nat.
Proof.
  revert state token result.
  induction s as [s IH] using (well_founded_ind (well_founded_ltof _ (@length ascii))).
  unfold ltof in IH. intros state token result Ht Hr.
  destruct s as [|c rest].
  { cbn [parse_loop]. eexists. split; [done|]. intros st tk rs [= <- <- <-].
    destruct state; cbn in *; lia. }
  assert (HMA : (126 < MAX_TEST_ARGS)%nat) by (unfold MAX_TEST_ARGS; lia).
  cbn [length] in *. cbn [parse_loop].
  assert (Hesc : forall st', (pending st' <= 1)%nat -> exists r,
    match rest with
    | [] => Ok None
    | c' :: rest' => token' ← put_char token c'; parse_loop rest' st' token' result
    end = Ok r /\ forall st tk rs, r = Some (st, tk, rs) ->
      (length tk <= MAX_ARGUMENT_LENGTH)%nat /\ (length rs <= 126)%nat).
  { intros st' Hp. destruct rest as [|c' rest']; [by eexists|]. cbn [length] in *.
    rewrite put_char_Ok by lia. cbn [mbind res_bind]. apply IH; cbn; [lia| |].
    - rewrite length_app. cbn. lia.
    - destruct state; cbn in *; lia. }
  assert (Hput : forall st', (pending st' <= 1)%nat -> exists r,
    (token' ← put_char token c; parse_loop rest st' token' result) = Ok r /\
    forall st tk rs, r = Some (st, tk, rs) ->
      (length tk <= MAX_ARGUMENT_LENGTH)%nat /\ (length rs <= 126)%nat).
  { intros st' Hp. rewrite put_char_Ok by lia. cbn [mbind res_bind].
    apply IH; [cbn; lia| |]; [rewrite length_app; cbn; lia|destruct state; cbn in *; lia]. }
  assert (Hmove : forall st', (pending st' <= 1)%nat -> exists r,
    parse_loop rest st' token result = Ok r /\
    forall st tk rs, r = Some (st, tk, rs) ->
      (length tk <= MAX_ARGUMENT_LENGTH)%nat /\ (length rs <= 126)%nat).
  { intros st' Hp. apply IH; [cbn; lia|lia|]. destruct state; cbn in *; lia. }
  destruct state; case_ifs; try apply Hesc; try apply Hput; try apply Hmove; cbn; try lia.
  rewrite save_token_Ok by (cbn in *; lia). cbn [mbind res_bind].
  apply IH; cbn in *; rewrite ?length_app; cbn; lia.
Qed.

(** Short strings fit the buffers. *)
Lemma parse_param_string_returns s :
  (length s <= 253)%nat -> exists r, parse_param_string (Some s) = Ok r.
Proof.
  intros Hlen. unfold parse_param_string. destruct s as [|c s]; [by eexists|].
  set (s' := c :: s) in *.
  destruct (parse_loop_safe s' WHITESPACE [] []) as (r & -> & Hr).
  { cbn [length] in *. unfold MAX_ARGUMENT_LENGTH. lia. }
  { cbn in *. lia. }
  cbn [mbind res_bind]. destruct r as [[[st tk] rs]|]; [|by eexists].
  destruct (Hr st tk rs eq_refl) as [H1 H2].
  assert ((126 < MAX_TEST_ARGS)%nat) by (unfold MAX_TEST_ARGS; lia).
  destruct st; try by eexists.
  all: rewrite save_token_Ok by lia; cbn [mbind res_bind].
  all: rewrite (proj2 (Nat.ltb_lt _ _)); [by eexists|rewrite length_app; cbn].
  all: unfold MAX_TEST_ARGS; lia.
Qed.

(** Parsing an argument string of at most 253 characters never writes
    outside the token buffer or the result array, whatever the string. *)
Theorem parse_param_string_safe s :
  (length s <= 253)%nat -> exists r, parse_param_string (Some s) = Ok r.
Proof. apply parse_param_string_returns. Qed.

Lemma parse_param_string_safe_witness :
  exists r, parse_param_string (Some (str "-c 1 -s 'x")) = Ok r.
Proof. apply (parse_param_string_safe (str "-c 1 -s 'x")). cbn. lia. Defined.

(** A word of plain characters fills the token. *)
Lemma parse_loop_word n token result :
  (length token + n <= S MAX_ARGUMENT_LENGTH)%nat ->
  parse_loop (replicate n "a"%char) CHARACTER token result
  = Ok (Some (CHARACTER, token ++ replicate n "a"%char, result)).
Proof.
  revert token. induction n as [|n IH]; intros token Hlen.
  { cbn. by rewrite app_nil_r. }
  cbn [replicate parse_loop]. unfold is_blank. bd.
  rewrite put_char_Ok by lia. cbn [mbind res_bind].
  rewrite IH by (rewrite length_app; cbn; lia). by rewrite <- app_assoc.
Qed.

Lemma parse_loop_word_overflow n token result :
  (length token <= S MAX_ARGUMENT_LENGTH < length token + n)%nat ->
  parse_loop (replicate n "a"%char) CHARACTER token result = Fault OutOfBounds.
Proof.
  revert token. induction n as [|n IH]; intros token Hlen; [lia|].
  cbn [replicate parse_loop]. unfold is_blank. bd.
  destruct (decide (length token <= MAX_ARGUMENT_LENGTH)%nat).
  - rewrite put_char_Ok by lia. cbn [mbind res_bind]. apply IH. rewrite length_app. cbn. lia.
  - unfold put_char. by rewrite (proj2 (Nat.ltb_ge _ _)) by lia.
Qed.

(** There is no bound check on the length of an argument: one unquoted word
    of more than MAX_ARGUMENT_LENGTH (1024) characters always makes
    parse_param_string() access memory outside its token buffer. *)
Theorem parse_param_string_overflow n :
  (MAX_ARGUMENT_LENGTH < n)%nat ->
  parse_param_string (Some (replicate n "a"%char)) = Fault OutOfBounds.
Proof.
  intros Hn. destruct n as [|n]; [lia|]. unfold parse_param_string.
  cbn [replicate parse_loop]. unfold is_blank. bd. rewrite put_char_Ok by (cbn; lia).
  cbn [mbind res_bind app].
  destruct (decide (n = MAX_ARGUMENT_LENGTH)) as [->|].
  - rewrite parse_loop_word by (cbn; lia). cbn [mbind res_bind]. unfold save_token.
    rewrite (proj2 (Nat.leb_gt _ _)); [done|].
    rewrite length_app, length_replicate. cbn. lia.
  - by rewrite parse_loop_word_overflow by (cbn; lia).
Qed.

Lemma parse_param_string_overflow_witness :
  parse_param_string (Some (replicate 1025 "a"%char)) = Fault OutOfBounds.
Proof. apply (parse_param_string_overflow 1025). unfold MAX_ARGUMENT_LENGTH. lia. Defined.
