(* ===== verification/Address.v ===== *)
(** Socket addresses and their comparison (compare_addresses() of
    src/common/testlib.c, and the two bit-level helpers of
    src/common/iptrie.c).

    An IPv4 address is the 32-bit [s_addr], an IPv6 address the eight 16-bit
    [s6_addr16] words, both as stored in memory (network byte order read on a
    little-endian host).  [abit a i] is bit [i] of the address counted from the
    most significant one; the lemmas reduce the masks and byte swaps of the C
    code to it. *)
From S2P Require Import Prelude CLib.
#[local] Open Scope Z_scope.

Definition AF_UNSPEC : Z := 0.
Definition AF_INET : Z := 2.
Definition AF_INET6 : Z := 10.

(** The address part of a [struct sockaddr], by family. *)
Inductive sockaddr : Set :=
| SockIn (s_addr : Z)
| SockIn6 (s6_addr16 : list Z)
| SockOther (family : Z).

#[export] Instance sockaddr_eq_dec : EqDecision sockaddr.
Proof. solve_decision. Defined.

Definition sa_family (a : sockaddr) : Z :=
  match a with SockIn _ => AF_INET | SockIn6 _ => AF_INET6 | SockOther f => f end.

(** memcmp() as a sign. *)
Fixpoint memcmp (a b : list Z) : Z :=
  match a, b with
  | x :: a', y :: b' => if x =? y then memcmp a' b' else if x >? y then 1 else -1
  | _, _ => 0
  end.

Definition in_addr_bytes (s : Z) : list Z :=
  [byte_at s 0; byte_at s 1; byte_at s 2; byte_at s 3].
Fixpoint in6_addr_bytes (ws : list Z) : list Z :=
  match ws with [] => [] | w :: ws' => byte_at w 0 :: byte_at w 1 :: in6_addr_bytes ws' end.

(** The loop over the 16-bit fields of an IPv6 address, from field [i]. *)
Fixpoint compare_fields (a b : list Z) (i len mask : Z) : Z :=
  match a, b with
  | x :: a', y :: b' =>
      if mask =? 65535 then
        let mask := if len <? (i + 1) * 16
                    then ntohs (Z.shiftl 65535 ((i + 1) * 16 - len)) else mask in
        if Z.land x mask =? Z.land y mask then compare_fields a' b' (i + 1) len mask
        else if Z.land x mask >? Z.land y mask then 1 else -1
      else 0
  | _, _ => 0
  end.

Definition compare_addresses (a b : option sockaddr) (len : Z) : Z :=
  match a, b with
  | Some a, Some b =>
      if negb (sa_family a =? sa_family b) then
        if sa_family a >? sa_family b then 1 else -1
      else if len =? 0 then 0
      else match a, b with
           | SockIn x, SockIn y =>
               if (len >? 0) && (len <? 32) then
                 let mask := ntohl (Z.shiftl 4294967295 (32 - len)) in
                 if Z.land x mask =? Z.land y mask then 0
                 else if Z.land x mask >? Z.land y mask then 1 else -1
               else memcmp (in_addr_bytes x) (in_addr_bytes y)
           | SockIn6 x, SockIn6 y =>
               if (len >? 0) && (len <? 128) then compare_fields x y 0 len 65535
               else memcmp (in6_addr_bytes x) (in6_addr_bytes y)
           | _, _ => -1
           end
  | _, _ => -1
  end.

Definition get_bit_at_index (address : option sockaddr) (index : Z) : Z :=
  match address with
  | None => -1
  | Some a =>
      if index <? 0 then -1
      else match a with
           | SockIn x =>
               if index >? 31 then -1
               else if Z.land x (ntohl (Z.shiftr 2147483648 index)) =? 0 then 0 else 1
           | SockIn6 ws =>
               if index >? 127 then -1
               else
                 let field := index / 16 in
                 let offset := ntohs (Z.shiftr 32768 (index mod 16)) in
                 if Z.land (ws !!! Z.to_nat field) offset =? 0 then 0 else 1
           | SockOther _ => -1
           end
  end.

(** Number of equal leading bits of two IPv4 addresses; [mask] is a signed int,
    shifted arithmetically. *)
Fixpoint match_bits4 (fuel : nat) (x y mask count : Z) : Z :=
  if (count <? 32) && (Z.land x (ntohl mask) =? Z.land y (ntohl mask)) then
    match fuel with
    | O => count
    | S fuel' =>
        match_bits4 fuel' x y (i32 (Z.lor (u32 (Z.shiftr mask 1)) 2147483648)) (count + 1)
    end
  else count.

(** The same inside the first differing field of two IPv6 addresses. *)
Fixpoint match_bits6 (fuel : nat) (x y mask count : Z) : Z :=
  if (count <? 128) && (Z.land x (ntohs mask) =? Z.land y (ntohs mask)) then
    match fuel with
    | O => count
    | S fuel' => match_bits6 fuel' x y (Z.lor (Z.shiftr mask 1) 32768) (count + 1)
    end
  else count.

Fixpoint match_fields (a b : list Z) (count : Z) : Z :=
  match a, b with
  | x :: a', y :: b' =>
      if x =? y then match_fields a' b' (count + 16)
      else match_bits6 128 x y 32768 count
  | _, _ => count
  end.

Definition get_matching_prefix_length (a b : option sockaddr) : Z :=
  match a, b with
  | Some a, Some b =>
      if negb (sa_family a =? sa_family b) then -1
      else match a, b with
           | SockIn x, SockIn y => match_bits4 32 x y (i32 2147483648) 0
           | SockIn6 x, SockIn6 y => match_fields x y 0
           | _, _ => 0
           end
  | _, _ => -1
  end.

(** ** Addresses as bit strings *)

Definition width (a : sockaddr) : Z :=
  match a with SockIn _ => 32 | SockIn6 _ => 128 | SockOther _ => 0 end.

Definition abit (a : sockaddr) (i : Z) : bool :=
  match a with
  | SockIn x => Z.testbit (ntohl x) (31 - i)
  | SockIn6 ws => Z.testbit (ntohs (ws !!! Z.to_nat (i / 16))) (15 - i mod 16)
  | SockOther _ => false
  end.

Definition addr_wf (a : sockaddr) : Prop :=
  match a with
  | SockIn x => 0 <= x < 4294967296
  | SockIn6 ws => length ws = 8%nat /\ Forall (fun w => 0 <= w < 65536) ws
  | SockOther _ => False
  end.

(** Two addresses of one family that agree on their first [n] bits. *)
Definition agree (a b : sockaddr) (n : Z) : Prop :=
  forall i, 0 <= i < n -> abit a i = abit b i.

Lemma agree_refl a n : agree a a n.
Proof. by intros i Hi. Qed.
Lemma agree_sym a b n : agree a b n -> agree b a n.
Proof. intros H i Hi. by rewrite H. Qed.
Lemma agree_trans a b c n : agree a b n -> agree b c n -> agree a c n.
Proof. intros H1 H2 i Hi. by rewrite H1, H2. Qed.
Lemma agree_le a b n m : m <= n -> agree a b n -> agree a b m.
Proof. intros Hle H i Hi. apply H. lia. Qed.
Lemma agree_0 a b n : n <= 0 -> agree a b n.
Proof. intros H i Hi. lia. Qed.

(** ** Masks and byte order *)

(** Comparing under a byte-swapped mask compares the bits of the mask in the
    byte-swapped words. *)
Lemma land_ntohl_eq x y m :
  Z.land x (ntohl m) = Z.land y (ntohl m) <->
  (forall n, 0 <= n < 32 -> Z.testbit m n = true ->
     Z.testbit (ntohl x) n = Z.testbit (ntohl y) n).
Proof.
  split.
  - intros H n Hn Hm. pose proof (swap_index_range 4 n ltac:(lia)) as Hr.
    apply (f_equal (fun z => Z.testbit z (swap_index 4 n))) in H.
    rewrite !Z.land_spec, ntohl_spec, swap_index_inv, Hm, !andb_true_r in H by lia.
    by rewrite !ntohl_spec by lia.
  - intros H. apply Z.bits_inj'. intros k Hk. rewrite !Z.land_spec.
    destruct (Z.lt_ge_cases k 32) as [Hlt|Hge].
    + rewrite ntohl_spec by lia. pose proof (swap_index_range 4 k ltac:(lia)) as Hr.
      destruct (Z.testbit m (swap_index 4 k)) eqn:Em; [|by rewrite !andb_false_r].
      pose proof (H _ Hr Em) as Hx. rewrite !ntohl_spec, swap_index_inv in Hx by lia.
      by rewrite Hx.
    + rewrite (bits_above_range (ntohl m) 32 k), !andb_false_r; [done| |lia].
      apply bswap32_range.
Qed.

Lemma land_ntohs_eq x y m :
  Z.land x (ntohs m) = Z.land y (ntohs m) <->
  (forall n, 0 <= n < 16 -> Z.testbit m n = true ->
     Z.testbit (ntohs x) n = Z.testbit (ntohs y) n).
Proof.
  split.
  - intros H n Hn Hm. pose proof (swap_index_range 2 n ltac:(lia)) as Hr.
    apply (f_equal (fun z => Z.testbit z (swap_index 2 n))) in H.
    rewrite !Z.land_spec, ntohs_spec, swap_index_inv, Hm, !andb_true_r in H by lia.
    by rewrite !ntohs_spec by lia.
  - intros H. apply Z.bits_inj'. intros k Hk. rewrite !Z.land_spec.
    destruct (Z.lt_ge_cases k 16) as [Hlt|Hge].
    + rewrite ntohs_spec by lia. pose proof (swap_index_range 2 k ltac:(lia)) as Hr.
      destruct (Z.testbit m (swap_index 2 k)) eqn:Em; [|by rewrite !andb_false_r].
      pose proof (H _ Hr Em) as Hx. rewrite !ntohs_spec, swap_index_inv in Hx by lia.
      by rewrite Hx.
    + rewrite (bits_above_range (ntohs m) 16 k), !andb_false_r; [done| |lia].
      apply bswap16_range.
Qed.

(** A single-bit mask tests that bit. *)
Lemma testbit_pow2 j n : 0 <= j -> Z.testbit (2 ^ j) n = (n =? j).
Proof.
  intros Hj. destruct (Z.eqb_spec n j) as [->|].
  - by apply Z.pow2_bits_true.
  - by apply Z.pow2_bits_false.
Qed.

Lemma ntohl_0 : ntohl 0 = 0. Proof. reflexivity. Qed.
Lemma ntohs_0 : ntohs 0 = 0. Proof. reflexivity. Qed.

Lemma land_ntohl_bit x j :
  0 <= j < 32 -> (Z.land x (ntohl (2 ^ j)) =? 0) = negb (Z.testbit (ntohl x) j).
Proof.
  intros Hj. pose proof (land_ntohl_eq x 0 (2 ^ j)) as H.
  rewrite Z.land_0_l, ntohl_0 in H.
  destruct (Z.testbit (ntohl x) j) eqn:E; cbn.
  - apply Z.eqb_neq. intros H0. pose proof (proj1 H H0) as Hb.
    rewrite (Hb j) in E; [by rewrite Z.testbit_0_l in E|done|by apply Z.pow2_bits_true; lia].
  - apply Z.eqb_eq. apply H. intros n Hn Hb. rewrite testbit_pow2 in Hb by lia.
    apply Z.eqb_eq in Hb as ->. by rewrite E, Z.testbit_0_l.
Qed.

Lemma land_ntohs_bit x j :
  0 <= j < 16 -> (Z.land x (ntohs (2 ^ j)) =? 0) = negb (Z.testbit (ntohs x) j).
Proof.
  intros Hj. pose proof (land_ntohs_eq x 0 (2 ^ j)) as H.
  rewrite Z.land_0_l, ntohs_0 in H.
  destruct (Z.testbit (ntohs x) j) eqn:E; cbn.
  - apply Z.eqb_neq. intros H0. pose proof (proj1 H H0) as Hb.
    rewrite (Hb j) in E; [by rewrite Z.testbit_0_l in E|done|by apply Z.pow2_bits_true; lia].
  - apply Z.eqb_eq. apply H. intros n Hn Hb. rewrite testbit_pow2 in Hb by lia.
    apply Z.eqb_eq in Hb as ->. by rewrite E, Z.testbit_0_l.
Qed.

Lemma get_bit_at_index_spec a i :
  0 <= i < width a -> get_bit_at_index (Some a) i = b2z (abit a i).
Proof.
  intros Hi. unfold get_bit_at_index. replace (i <? 0) with false by lia.
  destruct a as [x|ws|f]; cbn [width] in Hi; [| |lia].
  - rewrite Z.gtb_ltb, (proj2 (Z.ltb_ge _ _)) by lia.
    rewrite Z.shiftr_div_pow2 by lia. change 2147483648 with (2 ^ 31).
    rewrite <- Z.pow_sub_r, land_ntohl_bit by lia. cbn.
    by destruct (Z.testbit (ntohl x) (31 - i)).
  - rewrite Z.gtb_ltb, (proj2 (Z.ltb_ge _ _)) by lia. cbv zeta.
    pose proof (Z.mod_pos_bound i 16 ltac:(lia)).
    rewrite Z.shiftr_div_pow2 by lia. change 32768 with (2 ^ 15).
    rewrite <- Z.pow_sub_r, land_ntohs_bit by lia. cbn.
    by destruct (Z.testbit (ntohs (ws !!! Z.to_nat (i / 16))) (15 - i mod 16)).
Qed.

(** ** compare_addresses() *)

Lemma memcmp_eq a b : length a = length b -> memcmp a b = 0 <-> a = b.
Proof.
  revert b. induction a as [|x a IH]; intros [|y b] Hl; try done. cbn in *.
  destruct (Z.eqb_spec x y) as [->|Hne].
  - rewrite IH by lia. naive_solver.
  - case_match; split; naive_solver.
Qed.

(** Bits below the width are those of the bytes. *)
Lemma byte_at_eq_bits k x y :
  0 <= k -> byte_at x k = byte_at y k ->
  forall n, 8 * k <= n < 8 * k + 8 -> Z.testbit x n = Z.testbit y n.
Proof.
  intros Hk H n Hn. apply (f_equal (fun z => Z.testbit z (n - 8 * k))) in H.
  rewrite !byte_at_spec in H by lia. replace (n - 8 * k <? 8) with true in H by lia.
  cbn [andb] in H. by replace (n - 8 * k + 8 * k) with n in H by lia.
Qed.

Lemma in_addr_bytes_inj x y :
  0 <= x < 4294967296 -> 0 <= y < 4294967296 ->
  in_addr_bytes x = in_addr_bytes y -> x = y.
Proof.
  intros Hx Hy [= H0 H1 H2 H3]. apply (bits_eq 32); [lia..|]. intros n Hn.
  assert (Hc : n < 8 \/ 8 <= n < 16 \/ 16 <= n < 24 \/ 24 <= n < 32) by lia.
  destruct Hc as [|[|[|]]];
    [eapply (byte_at_eq_bits 0)|eapply (byte_at_eq_bits 1)|
     eapply (byte_at_eq_bits 2)|eapply (byte_at_eq_bits 3)]; (done || lia).
Qed.

Lemma in6_addr_bytes_inj a b :
  Forall (fun w => 0 <= w < 65536) a -> Forall (fun w => 0 <= w < 65536) b ->
  in6_addr_bytes a = in6_addr_bytes b -> a = b.
Proof.
  intros Ha. revert b. induction Ha as [|x a Hx Ha IH]; intros b Hb.
  - destruct Hb; [done|]. discriminate.
  - destruct Hb as [|y b Hy Hb]; [discriminate|].
    cbn [in6_addr_bytes]. intros [= H0 H1 Ht].
    f_equal; [|by apply IH]. apply (bits_eq 16); [lia..|]. intros n Hn.
    assert (Hc : n < 8 \/ 8 <= n < 16) by lia.
    destruct Hc; [eapply (byte_at_eq_bits 0)|eapply (byte_at_eq_bits 1)]; (done || lia).
Qed.

Lemma length_in6_bytes a : length (in6_addr_bytes a) = (2 * length a)%nat.
Proof.
  induction a as [|x a IH]; [done|]. cbn [in6_addr_bytes length]. lia.
Qed.

Lemma agree4_iff x y n :
  0 <= n <= 32 ->
  agree (SockIn x) (SockIn y) n <->
  (forall k, 32 - n <= k < 32 -> Z.testbit (ntohl x) k = Z.testbit (ntohl y) k).
Proof.
  intros Hn. unfold agree. cbn [abit]. split.
  - intros H k Hk. specialize (H (31 - k) ltac:(lia)). by replace (31 - (31 - k)) with k in H by lia.
  - intros H i Hi. apply H. lia.
Qed.

Lemma agree4_full x y :
  0 <= x < 4294967296 -> 0 <= y < 4294967296 ->
  agree (SockIn x) (SockIn y) 32 <-> x = y.
Proof.
  intros Hx Hy. rewrite agree4_iff by lia. split; [|by intros ->].
  intros H. rewrite <- (ntohl_invol x), <- (ntohl_invol y) by lia. f_equal.
  apply (bits_eq 32); [apply bswap32_range..|lia|]. intros n Hn. apply H. lia.
Qed.

(** The top [n] bits of two 16-bit fields. *)
Definition field_agree (x y n : Z) : Prop :=
  forall k, 0 <= k < 16 -> 16 - n <= k -> Z.testbit (ntohs x) k = Z.testbit (ntohs y) k.

Lemma field_agree_full x y n :
  16 <= n -> 0 <= x < 65536 -> 0 <= y < 65536 -> field_agree x y n <-> x = y.
Proof.
  intros Hn Hx Hy. split; [|by intros -> k].
  intros H. rewrite <- (ntohs_invol x), <- (ntohs_invol y) by lia. f_equal.
  apply (bits_eq 16); [apply bswap16_range..|lia|]. intros k Hk. apply H; lia.
Qed.

Lemma abit6_cons x ws i :
  0 <= i -> abit (SockIn6 (x :: ws)) i =
    if i <? 16 then Z.testbit (ntohs x) (15 - i) else abit (SockIn6 ws) (i - 16).
Proof.
  intros Hi. cbn [abit]. destruct (Z.ltb_spec i 16).
  - rewrite (Z.div_small i 16), (Z.mod_small i 16) by lia. done.
  - replace ((i - 16) mod 16) with (i mod 16) by (Z.div_mod_to_equations; lia).
    replace (Z.to_nat (i / 16)) with (S (Z.to_nat ((i - 16) / 16)))
      by (Z.div_mod_to_equations; lia).
    done.
Qed.

Lemma agree6_cons x y a b n :
  agree (SockIn6 (x :: a)) (SockIn6 (y :: b)) n <->
  field_agree x y n /\ agree (SockIn6 a) (SockIn6 b) (n - 16).
Proof.
  split.
  - intros H. split.
    + intros k Hk Hn. specialize (H (15 - k) ltac:(lia)).
      rewrite !abit6_cons in H by lia. replace (15 - k <? 16) with true in H by lia.
      by replace (15 - (15 - k)) with k in H by lia.
    + intros i Hi. specialize (H (i + 16) ltac:(lia)). rewrite !abit6_cons in H by lia.
      replace (i + 16 <? 16) with false in H by lia.
      by replace (i + 16 - 16) with i in H by lia.
  - intros [Hf Ha] i Hi. rewrite !abit6_cons by lia.
    destruct (Z.ltb_spec i 16); [apply Hf; lia|apply Ha; lia].
Qed.

Lemma agree6_full a b :
  length a = length b ->
  Forall (fun w => 0 <= w < 65536) a -> Forall (fun w => 0 <= w < 65536) b ->
  agree (SockIn6 a) (SockIn6 b) (16 * Z.of_nat (length a)) <-> a = b.
Proof.
  intros Hl Ha. revert b Hl. induction Ha as [|x a Hx Ha IH]; intros [|y b] Hl Hb; try done.
  apply Forall_cons_1 in Hb as [Hy Hb]. cbn [length] in *.
  rewrite agree6_cons, field_agree_full by lia.
  replace (16 * Z.of_nat (S (length a)) - 16) with (16 * Z.of_nat (length a)) by lia.
  rewrite IH by (lia || done). naive_solver.
Qed.

(** A left-shifted all-ones mask keeps the bits from the shift up. *)
Lemma testbit_mask_shift w s n :
  0 <= s -> 0 <= n < w -> Z.testbit (Z.shiftl (Z.ones w) s) n = (s <=? n).
Proof.
  intros Hs Hn. rewrite Z.shiftl_spec by lia. destruct (Z.leb_spec s n).
  - rewrite Z.testbit_ones_nonneg by lia. by apply Z.ltb_lt; lia.
  - by rewrite Z.testbit_neg_r by lia.
Qed.

Lemma mask4_agree x y len :
  0 <= len <= 32 ->
  Z.land x (ntohl (Z.shiftl 4294967295 (32 - len)))
  = Z.land y (ntohl (Z.shiftl 4294967295 (32 - len)))
  <-> agree (SockIn x) (SockIn y) len.
Proof.
  intros Hl. rewrite land_ntohl_eq, agree4_iff by lia.
  change 4294967295 with (Z.ones 32). split.
  - intros H k Hk. apply H; [lia|]. rewrite testbit_mask_shift by lia. lia.
  - intros H n Hn Hb. rewrite testbit_mask_shift in Hb by lia. apply H. lia.
Qed.

Lemma mask6_agree x y s n :
  0 <= s <= 16 -> n = 16 - s ->
  Z.land x (ntohs (Z.shiftl 65535 s)) = Z.land y (ntohs (Z.shiftl 65535 s))
  <-> field_agree x y n.
Proof.
  intros Hs ->. rewrite land_ntohs_eq. unfold field_agree.
  change 65535 with (Z.ones 16). split.
  - intros H k Hk Hn. apply H; [lia|]. rewrite testbit_mask_shift by lia. lia.
  - intros H k Hk Hb. rewrite testbit_mask_shift in Hb by lia. apply H; lia.
Qed.

Lemma mask6_partial s : 1 <= s <= 16 -> (ntohs (Z.shiftl 65535 s) =? 65535) = false.
Proof.
  intros Hs. apply Z.eqb_neq. intros H.
  apply (f_equal (fun z => Z.testbit z 8)) in H. rewrite ntohs_spec in H by lia.
  change (swap_index 2 8) with 0 in H. rewrite Z.shiftl_spec, Z.testbit_neg_r in H by lia.
  done.
Qed.

Lemma compare_fields_stop a b i len mask :
  (mask =? 65535) = false -> compare_fields a b i len mask = 0.
Proof. intros H. destruct a, b; cbn; try done. by rewrite H. Qed.

Lemma compare_fields_spec a b i len :
  length a = length b ->
  Forall (fun w => 0 <= w < 65536) a -> Forall (fun w => 0 <= w < 65536) b ->
  16 * i <= len ->
  len < 16 * (i + Z.of_nat (length a)) ->
  compare_fields a b i len 65535 = 0 <-> agree (SockIn6 a) (SockIn6 b) (len - 16 * i).
Proof.
  intros Hl Ha. revert b i Hl. induction Ha as [|x a Hx Ha IH]; intros [|y b] i Hl Hb Hi Hlen;
    try done.
  apply Forall_cons_1 in Hb as [Hy Hb]. cbn [length] in *.
  rewrite agree6_cons. cbn [compare_fields]. rewrite Z.eqb_refl.
  destruct (Z.ltb_spec len ((i + 1) * 16)) as [Hlast|Hmore].
  - pose proof (mask6_agree x y ((i + 1) * 16 - len) (len - 16 * i) ltac:(lia) ltac:(lia)) as Hm.
    rewrite compare_fields_stop by (apply mask6_partial; lia).
    destruct (Z.eqb_spec (Z.land x (ntohs (Z.shiftl 65535 ((i + 1) * 16 - len))))
      (Z.land y (ntohs (Z.shiftl 65535 ((i + 1) * 16 - len))))) as [He|He].
    + split; [intros _|done]. split; [by apply Hm|apply agree_0; lia].
    + split; [case_match; done|]. intros [Hf _]. by apply Hm in Hf.
  - pose proof (mask6_agree x y 0 16 ltac:(lia) ltac:(lia)) as Hm.
    change (ntohs (Z.shiftl 65535 0)) with 65535 in Hm.
    destruct (Z.eqb_spec (Z.land x 65535) (Z.land y 65535)) as [He|He].
    + rewrite IH by (lia || done).
      replace (len - 16 * (i + 1)) with (len - 16 * i - 16) by lia.
      apply Hm in He. rewrite (field_agree_full x y 16) in He by lia.
      rewrite He. split; [intros; split; [by intros k|done]|by intros [_ ?]].
    + split; [case_match; done|]. intros [Hf _]. exfalso.
      rewrite field_agree_full in Hf by lia. by rewrite Hf in He.
Qed.

(** Equality up to a prefix length is agreement on that many leading bits. *)
Lemma compare_addresses_spec a b len :
  addr_wf a -> addr_wf b -> sa_family a = sa_family b -> 0 <= len ->
  compare_addresses (Some a) (Some b) len = 0 <-> agree a b (Z.min len (width a)).
Proof.
  intros Ha Hb Hf Hlen. unfold compare_addresses. rewrite Hf, Z.eqb_refl. cbn [negb].
  destruct (Z.eqb_spec len 0) as [->|Hne].
  { split; [|done]. intros _. apply agree_0. lia. }
  destruct a as [x|ws|f], b as [y|ws'|f']; cbn [addr_wf] in *; try done; cbn [width].
  - rewrite Z.gtb_ltb. replace (0 <? len) with true by lia. cbn [andb].
    destruct (Z.ltb_spec len 32).
    + rewrite Z.min_l by lia. rewrite <- mask4_agree by lia.
      destruct (Z.eqb_spec (Z.land x (ntohl (Z.shiftl 4294967295 (32 - len))))
        (Z.land y (ntohl (Z.shiftl 4294967295 (32 - len))))); [done|].
      split; [case_match; done|done].
    + rewrite Z.min_r by lia. rewrite agree4_full by lia. rewrite memcmp_eq by done.
      split; [by apply in_addr_bytes_inj|by intros ->].
  - destruct Ha as [Hl Ha], Hb as [Hl' Hb].
    rewrite Z.gtb_ltb. replace (0 <? len) with true by lia. cbn [andb].
    destruct (Z.ltb_spec len 128).
    + rewrite Z.min_l by lia. rewrite compare_fields_spec by (lia || done).
      by replace (len - 16 * 0) with len by lia.
    + rewrite Z.min_r by lia. replace 128 with (16 * Z.of_nat (length ws)) by lia.
      rewrite agree6_full by (lia || done). rewrite memcmp_eq.
      * split; [by apply in6_addr_bytes_inj|by intros ->].
      * rewrite !length_in6_bytes. lia.
Qed.

Lemma compare_addresses_family a b len :
  sa_family a <> sa_family b -> compare_addresses (Some a) (Some b) len <> 0.
Proof.
  intros H. unfold compare_addresses. rewrite (proj2 (Z.eqb_neq _ _) H). cbn.
  case_match; lia.
Qed.

(** ** get_matching_prefix_length() *)

(** [m] is the length of the common prefix of [a] and [b] within [w] bits. *)
Definition common_prefix (a b : sockaddr) (w m : Z) : Prop :=
  0 <= m <= w /\ agree a b m /\ (m < w -> abit a m <> abit b m).

Lemma agree_step a b k : 0 <= k -> agree a b k -> abit a k = abit b k -> agree a b (k + 1).
Proof.
  intros Hk H He i Hi. destruct (decide (i = k)) as [->|]; [done|]. apply H. lia.
Qed.

Lemma mask4_step j :
  1 <= j <= 31 -> i32 (Z.lor (u32 (Z.shiftr (- 2 ^ j) 1)) 2147483648) = - 2 ^ (j - 1).
Proof.
  intros Hj.
  assert (Hall : forallb (fun n => let j := Z.of_nat n in
    i32 (Z.lor (u32 (Z.shiftr (- 2 ^ j) 1)) 2147483648) =? - 2 ^ (j - 1)) (seq 1 31) = true)
    by (vm_compute; reflexivity).
  rewrite forallb_forall in Hall. specialize (Hall (Z.to_nat j)).
  rewrite in_seq, Z2Nat.id in Hall by lia. cbv zeta in Hall. apply Z.eqb_eq, Hall. lia.
Qed.

Lemma land4_step x y k :
  0 <= k < 32 ->
  Z.land x (ntohl (- 2 ^ (31 - k))) = Z.land y (ntohl (- 2 ^ (31 - k)))
  <-> agree (SockIn x) (SockIn y) (k + 1).
Proof.
  intros Hk. rewrite land_ntohl_eq, agree4_iff by lia.
  assert (Hb : forall n, 0 <= n < 32 -> Z.testbit (- 2 ^ (31 - k)) n = (31 - k <=? n)).
  { intros n Hn. replace (- 2 ^ (31 - k)) with (Z.shiftl (-1) (31 - k))
      by (rewrite Z.shiftl_mul_pow2; lia).
    rewrite Z.shiftl_spec by lia. destruct (Z.leb_spec (31 - k) n).
    - apply Z.bits_m1. lia.
    - apply Z.testbit_neg_r. lia. }
  split.
  - intros H n Hn. apply H; [lia|]. rewrite Hb by lia. lia.
  - intros H n Hn Hm. rewrite Hb in Hm by lia. apply H. lia.
Qed.

Lemma match_bits4_spec fuel x y k mask :
  0 <= k <= 32 -> Z.of_nat fuel = 32 - k -> (k < 32 -> mask = - 2 ^ (31 - k)) ->
  agree (SockIn x) (SockIn y) k ->
  common_prefix (SockIn x) (SockIn y) 32 (match_bits4 fuel x y mask k).
Proof.
  revert k mask. induction fuel as [|fuel IH]; intros k mask Hk Hfuel Hmask Hag.
  - assert (k = 32) as -> by lia. cbn. split_and!; lia || done.
  - cbn [match_bits4]. replace (k <? 32) with true by lia. cbn [andb].
    rewrite Hmask by lia.
    destruct (Z.eqb_spec (Z.land x (ntohl (- 2 ^ (31 - k)))) (Z.land y (ntohl (- 2 ^ (31 - k)))))
      as [He|He].
    + apply land4_step in He; [|lia]. apply IH; [lia|lia| |done].
      intros Hk1. rewrite mask4_step by lia. f_equal. f_equal. lia.
    + split_and!; [lia|lia|done|]. intros _ Hbit. apply He, land4_step; [lia|].
      apply agree_step; [lia|done|done].
Qed.

Definition mask6 (k : Z) : Z := 65536 - 2 ^ (15 - k).

Lemma mask6_step k : 0 <= k < 15 -> Z.lor (Z.shiftr (mask6 k) 1) 32768 = mask6 (k + 1).
Proof.
  intros Hk.
  assert (Hall : forallb (fun n => let k := Z.of_nat n in
    Z.lor (Z.shiftr (mask6 k) 1) 32768 =? mask6 (k + 1)) (seq 0 15) = true)
    by (vm_compute; reflexivity).
  rewrite forallb_forall in Hall. specialize (Hall (Z.to_nat k)).
  rewrite in_seq, Z2Nat.id in Hall by lia. cbv zeta in Hall. apply Z.eqb_eq, Hall. lia.
Qed.

Lemma mask6_bit k n : 0 <= k < 16 -> 0 <= n < 16 -> Z.testbit (mask6 k) n = (15 - k <=? n).
Proof.
  intros Hk Hn.
  assert (Hall : forallb (fun a => forallb (fun b => Bool.eqb
    (Z.testbit (mask6 (Z.of_nat a)) (Z.of_nat b)) (15 - Z.of_nat a <=? Z.of_nat b))
    (seq 0 16)) (seq 0 16) = true) by (vm_compute; reflexivity).
  rewrite forallb_forall in Hall. specialize (Hall (Z.to_nat k)).
  rewrite in_seq in Hall. specialize (Hall ltac:(lia)).
  rewrite forallb_forall in Hall. specialize (Hall (Z.to_nat n)).
  rewrite in_seq, !Z2Nat.id in Hall by lia. apply eqb_prop, Hall. lia.
Qed.

Lemma land6_step x y k :
  0 <= k < 16 ->
  Z.land x (ntohs (mask6 k)) = Z.land y (ntohs (mask6 k)) <-> field_agree x y (k + 1).
Proof.
  intros Hk. rewrite land_ntohs_eq. unfold field_agree. split.
  - intros H n Hn Hge. apply H; [lia|]. rewrite mask6_bit by lia. lia.
  - intros H n Hn Hm. rewrite mask6_bit in Hm by lia. apply H; lia.
Qed.

Lemma match_bits6_spec fuel x y base k :
  0 <= k < 16 -> 16 <= Z.of_nat fuel + k -> 0 <= base -> base + 16 <= 128 ->
  field_agree x y k -> ~ field_agree x y 16 ->
  exists m, match_bits6 fuel x y (mask6 k) (base + k) = base + m /\ 0 <= m < 16 /\
    field_agree x y m /\ ~ field_agree x y (m + 1).
Proof.
  revert k. induction fuel as [|fuel IH]; intros k Hk Hf Hb Hb' Hag Hne; [lia|].
  cbn [match_bits6]. replace (base + k <? 128) with true by lia. cbn [andb].
  destruct (Z.eqb_spec (Z.land x (ntohs (mask6 k))) (Z.land y (ntohs (mask6 k)))) as [He|He].
  - apply land6_step in He; [|lia].
    destruct (decide (k = 15)) as [->|]; [done|].
    rewrite mask6_step by lia. replace (base + k + 1) with (base + (k + 1)) by lia.
    apply IH; lia || done.
  - exists k. split_and!; [done|lia|lia|done|]. intros Hf'. by apply He, land6_step.
Qed.

Lemma match_fields_spec a b count :
  length a = length b ->
  Forall (fun w => 0 <= w < 65536) a -> Forall (fun w => 0 <= w < 65536) b ->
  0 <= count -> count + 16 * Z.of_nat (length a) <= 128 ->
  exists m, match_fields a b count = count + m /\
    common_prefix (SockIn6 a) (SockIn6 b) (16 * Z.of_nat (length a)) m.
Proof.
  intros Hl Ha. revert b count Hl.
  induction Ha as [|x a Hx Ha IH]; intros [|y b] count Hl Hb Hc Hlen; try done.
  - exists 0. cbn. split; [lia|]. split_and!; [lia|lia|apply agree_0; lia|lia].
  - apply Forall_cons_1 in Hb as [Hy Hb]. cbn [length match_fields] in *.
    destruct (Z.eqb_spec x y) as [->|Hne].
    + destruct (IH b (count + 16)) as (m & -> & Hm & Hag & Hd); [lia|done|lia|lia|].
      exists (m + 16). split; [lia|]. split_and!; [lia|lia| |].
      * apply agree6_cons. split; [by intros k|]. by replace (m + 16 - 16) with m by lia.
      * intros Hlt. rewrite !abit6_cons by lia. replace (m + 16 <? 16) with false by lia.
        replace (m + 16 - 16) with m by lia. apply Hd. lia.
    + destruct (match_bits6_spec 128 x y count 0) as (m & He & Hm & Hag & Hd); [lia..| | |].
      { intros k Hk Hge. lia. }
      { by rewrite field_agree_full by lia. }
      replace (count + 0) with count in He by lia. change (mask6 0) with 32768 in He.
      rewrite He. exists m. split; [done|]. split_and!; [lia|lia| |].
      * apply agree6_cons. split; [done|apply agree_0; lia].
      * intros _. rewrite !abit6_cons by lia. replace (m <? 16) with true by lia.
        intros Hb15. apply Hd. intros k Hk Hge.
        destruct (decide (k = 15 - m)) as [->|]; [done|]. apply Hag; lia.
Qed.

Lemma get_matching_prefix_length_spec a b :
  addr_wf a -> addr_wf b -> sa_family a = sa_family b ->
  common_prefix a b (width a) (get_matching_prefix_length (Some a) (Some b)).
Proof.
  intros Ha Hb Hf. unfold get_matching_prefix_length. rewrite Hf, Z.eqb_refl. cbn [negb].
  destruct a as [x|ws|f], b as [y|ws'|f']; cbn [addr_wf] in *; try done; cbn [width].
  - apply match_bits4_spec; [lia|done|by intros _|apply agree_0; lia].
  - destruct Ha as [Hl Ha], Hb as [Hl' Hb].
    destruct (match_fields_spec ws ws' 0) as (m & -> & Hm); [lia|done|done|lia|lia|].
    replace 128 with (16 * Z.of_nat (length ws)) by lia. by rewrite Z.add_0_l.
Qed.

Lemma width_family a b : addr_wf a -> addr_wf b -> sa_family a = sa_family b -> width a = width b.
Proof. destruct a, b; cbn; done. Qed.

Lemma width_pos a : addr_wf a -> 32 <= width a <= 128.
Proof. destruct a; cbn; lia. Qed.

(** The three address helpers mean what they say for every pair of
    addresses of one family, IPv4 and IPv6, through the byte swaps, shifts and
    masks of the code: compare_addresses() with a prefix length is zero exactly
    when the first [len] bits agree (all of them when [len] is at least the
    width), get_bit_at_index() returns the bit at that position from the left,
    and get_matching_prefix_length() the length of the longest common prefix. *)
Theorem address_helpers_correct a b len i :
  addr_wf a -> addr_wf b -> sa_family a = sa_family b -> 0 <= len -> 0 <= i < width a ->
  (compare_addresses (Some a) (Some b) len = 0 <-> agree a b (Z.min len (width a))) /\
  get_bit_at_index (Some a) i = b2z (abit a i) /\
  common_prefix a b (width a) (get_matching_prefix_length (Some a) (Some b)).
Proof.
  intros. split_and!.
  - by apply compare_addresses_spec.
  - by apply get_bit_at_index_spec.
  - by apply get_matching_prefix_length_spec.
Qed.

(** 10.1.2.3 as stored in memory. *)
Definition ip4 (a b c d : Z) : sockaddr := SockIn (a + 256 * b + 65536 * c + 16777216 * d).

Lemma address_helpers_correct_witness :
  (compare_addresses (Some (ip4 10 1 2 3)) (Some (ip4 10 1 2 9)) 24 = 0 <->
     agree (ip4 10 1 2 3) (ip4 10 1 2 9) (Z.min 24 (width (ip4 10 1 2 3)))) /\
  get_bit_at_index (Some (ip4 10 1 2 3)) 4 = b2z (abit (ip4 10 1 2 3) 4) /\
  common_prefix (ip4 10 1 2 3) (ip4 10 1 2 9) (width (ip4 10 1 2 3))
    (get_matching_prefix_length (Some (ip4 10 1 2 3)) (Some (ip4 10 1 2 9))).
Proof. apply (address_helpers_correct (ip4 10 1 2 3) (ip4 10 1 2 9) 24 4); cbn; lia. Defined.

Example prefix_len_ex :
  get_matching_prefix_length (Some (ip4 10 1 2 3)) (Some (ip4 10 1 2 9)) = 28.
Proof. reflexivity. Qed.

#[global] Arguments compare_addresses : simpl never.
#[global] Arguments get_bit_at_index : simpl never.
#[global] Arguments get_matching_prefix_length : simpl never.
