(* ===== verification/IpTrie.v ===== *)
(** The prefix trie that caches AS numbers (src/common/iptrie.c).

    A node is translated with its [as], [prefix], [address] and two children;
    the [next] field, only used while a list of leaves is built, is the list
    [iptrie_to_list] returns.  The specification is a map from prefixes to AS
    numbers, given as the list of updates: the trie answers a lookup with the
    latest update whose prefix covers the address, as long as the prefixes put
    into it are pairwise equal or disjoint. *)
From S2P Require Import Prelude CLib Address.
#[local] Open Scope Z_scope.

Inductive iptrie_node : Set :=
| Null
| Node (as_ prefix : Z) (address : sockaddr) (lft rgt : iptrie_node).

Definition is_null (n : iptrie_node) : bool :=
  match n with Null => true | Node _ _ _ _ _ => false end.

(** struct iptrie: one trie per address family. *)
Record iptrie : Set := { ipv4 : iptrie_node; ipv6 : iptrie_node }.

(** A node made for a new address. *)
Definition new_node (as_ prefix : Z) (address : sockaddr) : iptrie_node :=
  Node as_ prefix address Null Null.

(** iptrie_add_internal(); the recursive calls on the NULL child of a node
    that has just been made are [new_node]. *)
Fixpoint iptrie_add_internal (root : iptrie_node) (address : sockaddr)
    (prefix as_ : Z) : iptrie_node :=
  match root with
  | Null => new_node as_ prefix address
  | Node ras rprefix raddr lft rgt =>
      if (prefix =? rprefix)
         && (compare_addresses (Some raddr) (Some address) prefix =? 0)
      then Node as_ rprefix raddr lft rgt
      else
        let len := get_matching_prefix_length (Some raddr) (Some address) in
        let len := if len >? rprefix then rprefix else len in
        let cmp := get_bit_at_index (Some address) len in
        if len <? rprefix then
          if cmp =? 0 then Node 0 (u8 len) address (new_node as_ prefix address) root
          else Node 0 (u8 len) address root (new_node as_ prefix address)
        else if cmp =? 0 then
          Node ras rprefix raddr (iptrie_add_internal lft address prefix as_) rgt
        else
          Node ras rprefix raddr lft (iptrie_add_internal rgt address prefix as_)
  end.

Definition iptrie_add (root : iptrie) (address : sockaddr) (prefix as_ : Z) : iptrie :=
  if sa_family address =? AF_INET then
    {| ipv4 := iptrie_add_internal (ipv4 root) address prefix as_; ipv6 := ipv6 root |}
  else if sa_family address =? AF_INET6 then
    {| ipv4 := ipv4 root; ipv6 := iptrie_add_internal (ipv6 root) address prefix as_ |}
  else root.

Fixpoint iptrie_lookup_as_internal (root : iptrie_node) (address : sockaddr) : Z :=
  match root with
  | Null => -1
  | Node as_ prefix raddr lft rgt =>
      if negb (compare_addresses (Some raddr) (Some address) prefix =? 0) then -1
      else if is_null lft && is_null rgt then as_
      else
        let next := get_bit_at_index (Some address) prefix in
        if (next =? 0) && negb (is_null lft) then iptrie_lookup_as_internal lft address
        else if (next =? 1) && negb (is_null rgt) then
          iptrie_lookup_as_internal rgt address
        else -1
  end.

Definition iptrie_lookup_as (root : iptrie) (address : sockaddr) : Z :=
  if sa_family address =? AF_INET then iptrie_lookup_as_internal (ipv4 root) address
  else if sa_family address =? AF_INET6 then iptrie_lookup_as_internal (ipv6 root) address
  else -1.

Definition iptrie_clear (root : iptrie) : iptrie := {| ipv4 := Null; ipv6 := Null |}.

Definition iptrie_is_empty (root : iptrie) : bool := is_null (ipv4 root) && is_null (ipv6 root).

(** iptrie_on_all_leaves(): [func] may update the [data] it is given. *)
Section Leaves.
Context {D : Type} (func : iptrie_node -> D -> Z * D).

Fixpoint iptrie_on_all_leaves_internal (root : iptrie_node) (data : D) : Z * D :=
match root with
| Null => (0, data)
| Node _ _ _ lft rgt =>
    if is_null lft && is_null rgt then func root data
    else
      let '(rl, data) := iptrie_on_all_leaves_internal lft data in
      if rl <? 0 then (-1, data)
      else
        let '(rr, data) := iptrie_on_all_leaves_internal rgt data in
        if rr <? 0 then (-1, data) else (0, data)
end.

Definition iptrie_on_all_leaves (root : iptrie) (data : D) : Z * D :=
let '(r4, data) := iptrie_on_all_leaves_internal (ipv4 root) data in
if r4 <? 0 then (-1, data)
else
  let '(r6, data) := iptrie_on_all_leaves_internal (ipv6 root) data in
  if r6 <? 0 then (-1, data) else (0, data).
End Leaves.

(** iptrie_to_list_internal(): put the node in front of the list. *)
Definition iptrie_to_list_internal (node : iptrie_node) (data : list iptrie_node)
    : Z * list iptrie_node :=
  match node with Null => (0, data) | _ => (0, node :: data) end.

Definition iptrie_to_list (root : iptrie) : list iptrie_node :=
  snd (iptrie_on_all_leaves iptrie_to_list_internal root []).

(** ** The abstract map *)

(** An update: address, prefix length and AS number. *)
Record entry : Set := { e_addr : sockaddr; e_prefix : Z; e_as : Z }.

Definition entry_wf (f : Z) (e : entry) : Prop :=
  addr_wf (e_addr e) /\ sa_family (e_addr e) = f /\ 0 <= e_prefix e <= width (e_addr e).

(** The prefix of [e] contains [x]. *)
Definition covers (e : entry) (x : sockaddr) : bool :=
  compare_addresses (Some (e_addr e)) (Some x) (e_prefix e) =? 0.

(** Lookup in a list of updates, newest first. *)
Fixpoint spec_lookup (es : list entry) (x : sockaddr) : Z :=
  match es with
  | [] => -1
  | e :: es' => if covers e x then e_as e else spec_lookup es' x
  end.

(** Same prefix, and no overlap at all. *)
Definition same_prefix (e e' : entry) : Prop :=
  e_prefix e = e_prefix e' /\ agree (e_addr e) (e_addr e') (e_prefix e).
Definition disjoint (e e' : entry) : Prop :=
  ~ agree (e_addr e) (e_addr e') (Z.min (e_prefix e) (e_prefix e')).
Definition compatible (e e' : entry) : Prop := same_prefix e e' \/ disjoint e e'.

(** ** Invariant of a trie *)

Fixpoint leaves (t : iptrie_node) : list entry :=
  match t with
  | Null => []
  | Node a p x l r =>
      if is_null l && is_null r then [{| e_addr := x; e_prefix := p; e_as := a |}]
      else leaves l ++ leaves r
  end.

(** Leaves below the side [b] of a branching node at ([p], [x]). *)
Definition below (p : Z) (x : sockaddr) (b : bool) (es : list entry) : Prop :=
  Forall (fun e => p < e_prefix e /\ agree x (e_addr e) p /\ abit (e_addr e) p = b) es.

Inductive trie_wf (f : Z) : iptrie_node -> Prop :=
| wf_leaf a p x :
    addr_wf x -> sa_family x = f -> 0 <= p <= width x ->
    trie_wf f (Node a p x Null Null)
| wf_branch a p x l r :
    addr_wf x -> sa_family x = f -> 0 <= p < width x ->
    trie_wf f l -> trie_wf f r ->
    below p x false (leaves l) -> below p x true (leaves r) ->
    trie_wf f (Node a p x l r).

#[export] Hint Constructors trie_wf : core.

Lemma trie_wf_not_null f t : trie_wf f t -> is_null t = false.
Proof. by destruct 1. Qed.

Lemma trie_wf_inv f a p x l r :
  trie_wf f (Node a p x l r) ->
  addr_wf x /\ sa_family x = f /\ 0 <= p <= width x /\
  ((l = Null /\ r = Null) \/
   (p < width x /\ trie_wf f l /\ trie_wf f r /\
    below p x false (leaves l) /\ below p x true (leaves r))).
Proof. inversion 1; subst; split_and!; try (done || lia); auto 10 with lia. Qed.

Lemma trie_wf_leaves f t : trie_wf f t -> Forall (entry_wf f) (leaves t) /\ leaves t <> [].
Proof.
  induction 1 as [a p x Hw Hf Hp|a p x l r Hw Hf Hp Hl [IHl Hnl] Hr [IHr Hnr] Hbl Hbr]; cbn.
  - split; [|done]. apply Forall_singleton. unfold entry_wf. by cbn.
  - rewrite (trie_wf_not_null f l) by done. cbn [andb]. split.
    + by apply Forall_app.
    + by destruct (leaves l).
Qed.

Section Family.
Context (f : Z).
Implicit Types (t : iptrie_node) (e : entry) (x : sockaddr).

Lemma covers_agree e x :
entry_wf f e -> addr_wf x -> sa_family x = f ->
covers e x = true <-> agree (e_addr e) x (e_prefix e).
Proof.
intros (Hw & Hf & Hp) Hx Hxf. unfold covers. rewrite Z.eqb_eq.
rewrite compare_addresses_spec by (done || lia || congruence).
by rewrite Z.min_l by lia.
Qed.

Lemma node_compare x y p :
addr_wf x -> addr_wf y -> sa_family x = f -> sa_family y = f -> 0 <= p <= width x ->
compare_addresses (Some x) (Some y) p = 0 <-> agree x y p.
Proof.
intros. rewrite compare_addresses_spec by (done || lia || congruence).
by rewrite Z.min_l by lia.
Qed.

(** The leaves of a well-formed trie extend the prefix of its root. *)
Lemma root_prefix a p x l r :
trie_wf f (Node a p x l r) ->
Forall (fun e => p <= e_prefix e /\ agree x (e_addr e) p) (leaves (Node a p x l r)).
Proof.
intros (Hw & Hf & Hp & [[-> ->]|(Hpw & Hl & Hr & Hbl & Hbr)])%trie_wf_inv; cbn.
- constructor; [|done]. cbn. split; [lia|by apply agree_refl].
- rewrite (trie_wf_not_null _ l) by eassumption. cbn [andb]. apply Forall_app. unfold below in *.
  split; (eapply Forall_weaken; [eassumption|]); cbn; intros e (? & ? & ?); split; (done || lia).
Qed.

(** A lookup that leaves the root's prefix fails. *)
Lemma lookup_outside a p x l r y :
compare_addresses (Some x) (Some y) p <> 0 ->
iptrie_lookup_as_internal (Node a p x l r) y = -1.
Proof. intros H. cbn. by rewrite (proj2 (Z.eqb_neq _ _) H). Qed.

(** A lookup inside the prefix of a branching node follows its bit. *)
Lemma lookup_branch a p x l r y :
is_null l = false -> is_null r = false -> 0 <= p < width y ->
compare_addresses (Some x) (Some y) p = 0 ->
iptrie_lookup_as_internal (Node a p x l r) y =
  iptrie_lookup_as_internal (if abit y p then r else l) y.
Proof.
intros Hl Hr Hp Hc. cbn [iptrie_lookup_as_internal]. rewrite Hc, Hl, Hr. cbn.
rewrite get_bit_at_index_spec by done. by destruct (abit y p).
Qed.

(** The leaves of a trie below a shorter prefix, and an address off it. *)
Lemma below_root a p x l r y m :
trie_wf f (Node a p x l r) -> agree y x m -> 0 <= m < p ->
below m y (abit x m) (leaves (Node a p x l r)).
Proof.
intros Ht Hag Hm. unfold below. eapply Forall_weaken; [exact (root_prefix _ _ _ _ _ Ht)|].
cbn beta. intros e [Hpe Hae]. split_and!.
- lia.
- eapply agree_trans; [exact Hag|]. eapply agree_le, Hae. lia.
- symmetry. apply Hae. lia.
Qed.
Lemma lookup_differs a p x l r z m :
trie_wf f (Node a p x l r) -> addr_wf z -> sa_family z = f -> 0 <= m < p -> abit z m <> abit x m ->
iptrie_lookup_as_internal (Node a p x l r) z = -1.
Proof.
intros (Hx & Hxf & Hpx & _)%trie_wf_inv Hz Hzf Hm Hb. apply lookup_outside.
rewrite node_compare by done. intros Ha. apply Hb. symmetry. by apply Ha.
Qed.

(** Making a branching node: the new leaf [(y, q)] and the old trie differ
  first at bit [m], before the end of either prefix. *)
Lemma branch_spec a p x l r y q s m :
let t := Node a p x l r in
trie_wf f t -> addr_wf y -> sa_family y = f -> 0 <= q <= width y ->
common_prefix x y (width x) m -> m < p -> m < q ->
let t' := if abit y m then Node 0 m y t (new_node s q y) else Node 0 m y (new_node s q y) t in
trie_wf f t' /\
(forall z, addr_wf z -> sa_family z = f ->
  iptrie_lookup_as_internal t' z =
    if covers {| e_addr := y; e_prefix := q; e_as := s |} z then s
    else iptrie_lookup_as_internal t z).
Proof.
cbv zeta. intros Ht Hy Hyf Hq (Hm & Hag & Hd) Hmp Hmq.
pose proof (trie_wf_inv _ _ _ _ _ _ Ht) as (Hx & Hxf & Hpx & _).
assert (Hwxy : width x = width y) by (apply width_family; congruence).
assert (Hbit : abit x m = negb (abit y m)).
{ specialize (Hd ltac:(lia)). by destruct (abit x m), (abit y m). }
set (e := {| e_addr := y; e_prefix := q; e_as := s |}).
assert (Hleaf : trie_wf f (new_node s q y)) by (by apply wf_leaf).
assert (Hbel : below m y (abit y m) (leaves (new_node s q y))).
{ apply Forall_singleton. cbn. split_and!; [lia|by apply agree_refl|done]. }
assert (Hbelt : below m y (negb (abit y m)) (leaves (Node a p x l r))).
{ rewrite <- Hbit. apply below_root; [done|by apply agree_sym|lia]. }
assert (Hlook : forall z, addr_wf z -> sa_family z = f ->
  iptrie_lookup_as_internal (new_node s q y) z = if covers e z then s else -1).
{ intros z _ _. cbn. unfold covers. cbn. by destruct (_ =? 0). }
(* where the bit of [z] at [m] differs from that of a prefix longer than [m] *)
assert (Hout : forall z, addr_wf z -> sa_family z = f -> abit z m <> abit x m ->
  iptrie_lookup_as_internal (Node a p x l r) z = -1).
{ intros z Hz Hzf Hb. by apply (lookup_differs a p x l r z m); [..|lia|]. }
assert (Hcov : forall z, addr_wf z -> sa_family z = f -> covers e z = true ->
  agree y z m /\ abit z m = abit y m).
{ intros z Hz Hzf Hc. apply covers_agree in Hc; [|done..]. cbn in Hc. split.
  - eapply agree_le, Hc. lia.
  - symmetry. apply Hc. lia. }
split.
{ destruct (abit y m); apply wf_branch; done || lia. }
intros z Hz Hzf. assert (width z = width y) by (apply width_family; congruence).
destruct (decide (compare_addresses (Some y) (Some z) m = 0)) as [Hc|Hc].
- transitivity (iptrie_lookup_as_internal
    (if bool_decide (abit z m = abit y m) then new_node s q y else Node a p x l r) z).
  { destruct (abit y m); rewrite lookup_branch by (done || lia); by destruct (abit z m). }
  case_bool_decide as Hb.
  + rewrite Hlook by done. destruct (covers e z); [done|].
    symmetry. apply Hout; [done..|]. rewrite Hb, Hbit. by destruct (abit y m).
  + destruct (covers e z) eqn:Hcv; [|done]. by destruct (Hcov z Hz Hzf Hcv).
- transitivity (-1).
  { destruct (abit y m); by apply lookup_outside. }
  destruct (covers e z) eqn:Hcv.
  { destruct (Hcov z Hz Hzf Hcv) as [Ha _]. by apply node_compare in Ha; [|done || lia..]. }
  symmetry. apply lookup_outside. rewrite node_compare by done. intros Ha.
  apply Hc, node_compare; [done..|lia|]. eapply agree_trans; [by apply agree_sym|].
  eapply agree_le, Ha. lia.
Qed.

(** ** Adding an entry *)

(** Every leaf after adding [e] has the prefix of an old leaf or of [e]. *)
Definition leaves_from (e : entry) (old new : list entry) : Prop :=
Forall (fun e' => Exists (fun e0 => same_prefix e0 e') old \/ same_prefix e e') new.

Lemma same_prefix_refl e : same_prefix e e.
Proof. split; [done|by apply agree_refl]. Qed.

Lemma leaves_from_old e es : leaves_from e es es.
Proof.
apply Forall_forall. intros e' Hin. left. apply Exists_exists.
exists e'. split; [done|apply same_prefix_refl].
Qed.

Lemma below_same p x b e e' :
same_prefix e e' -> p < e_prefix e /\ agree x (e_addr e) p /\ abit (e_addr e) p = b ->
0 <= p -> p < e_prefix e' /\ agree x (e_addr e') p /\ abit (e_addr e') p = b.
Proof.
intros [Hp Ha] (Hlt & Hag & Hb) H0. split_and!; [lia| |].
- eapply agree_trans; [exact Hag|]. eapply agree_le, Ha. lia.
- rewrite <- Hb. symmetry. apply Ha. lia.
Qed.

Lemma below_from e p x b old new :
below p x b old -> leaves_from e old new -> 0 <= p ->
p < e_prefix e -> agree x (e_addr e) p -> abit (e_addr e) p = b -> below p x b new.
Proof.
intros Hb Hfrom H0 Hlt Hag Hbit. unfold below, leaves_from in *.
eapply Forall_weaken; [exact Hfrom|]. cbn beta. intros e' [Hex|Hs].
- apply Exists_exists in Hex as (e0 & Hin & Hs). eapply below_same; [exact Hs| |done].
  rewrite Forall_forall in Hb. by apply Hb.
- by eapply below_same.
Qed.

(** What compatibility with the leaves says about a root that is not the
  entry's own leaf: the entry's prefix goes further than the common part. *)
Lemma compatible_root a p x l r e m :
trie_wf f (Node a p x l r) -> entry_wf f e ->
Forall (compatible e) (leaves (Node a p x l r)) ->
common_prefix x (e_addr e) (width x) m ->
((e_prefix e =? p) && (compare_addresses (Some x) (Some (e_addr e)) (e_prefix e) =? 0)) = false
\/ is_null l = false ->
Z.min m p < e_prefix e /\ (is_null l = true -> m < p).
Proof.
intros Ht He Hc (Hm & Hag & Hd) Htest. pose proof He as (Hw & Hf & Hq).
pose proof (trie_wf_leaves f _ Ht) as [Hlw Hne].
pose proof (root_prefix _ _ _ _ _ Ht) as Hrp.
destruct (leaves (Node a p x l r)) as [|e0 es] eqn:El; [done|].
apply Forall_cons_1 in Hc as [Hc _]. apply Forall_cons_1 in Hrp as [[Hp0 Hx0] _].
apply Forall_cons_1 in Hlw as [He0 _].
assert (Hmin : forall k, k <= Z.min m p -> agree (e_addr e) (e_addr e0) k).
{ intros k Hk. eapply agree_trans; [apply agree_sym, (agree_le _ _ m); [lia|done]|].
  eapply agree_le, Hx0. lia. }
apply trie_wf_inv in Ht as (Hxw & Hxf & Hpx & [[-> ->]|(Hpw & Hl & Hr & Hbl & Hbr)]).
- cbn in El. injection El as <- <-. cbn in *. destruct Htest as [Htest|]; [|done].
  assert (m < Z.min (e_prefix e) p).
  { destruct (Z.lt_ge_cases m (Z.min (e_prefix e) p)) as [|Hge]; [done|exfalso].
    destruct Hc as [[Hpe Ha]|Hdis]; cbn in *.
    - rewrite Hpe, Z.eqb_refl in Htest. cbn in Htest. apply Z.eqb_neq in Htest.
      apply Htest, node_compare; [done..|lia|]. apply agree_sym. by rewrite <- Hpe.
    - apply Hdis. apply Hmin. cbn. lia. }
  lia.
- rewrite (trie_wf_not_null _ _ Hl) in *. cbn in El.
  rewrite (trie_wf_not_null _ _ Hl) in El. cbn in El. split; [|done].
  assert (Hlt0 : p < e_prefix e0).
  { unfold below in Hbl. destruct (leaves l) as [|e1 es1] eqn:Ell.
    - by destruct (trie_wf_leaves _ _ Hl).
    - injection El as -> _. by apply Forall_cons_1 in Hbl as [[? _] _]. }
  destruct (Z.lt_ge_cases (Z.min m p) (e_prefix e)) as [|Hge]; [done|exfalso].
  destruct Hc as [[Hpe _]|Hdis]; [lia|]. apply Hdis, Hmin. lia.
Qed.

Definition add_entry (t : iptrie_node) (e : entry) : iptrie_node :=
iptrie_add_internal t (e_addr e) (e_prefix e) (e_as e).

(** The trie [t'] is [t] updated with [e]. *)
Definition updated (t t' : iptrie_node) (e : entry) : Prop :=
trie_wf f t' /\ leaves_from e (leaves t) (leaves t') /\
(forall z, addr_wf z -> sa_family z = f ->
  iptrie_lookup_as_internal t' z =
    if covers e z then e_as e else iptrie_lookup_as_internal t z).

Lemma updated_branch a p x l r e m :
let t := Node a p x l r in
trie_wf f t -> entry_wf f e -> common_prefix x (e_addr e) (width x) m ->
m < p -> m < e_prefix e ->
let leaf := new_node (e_as e) (e_prefix e) (e_addr e) in
updated t (if b2z (abit (e_addr e) m) =? 0 then Node 0 (u8 m) (e_addr e) leaf t
           else Node 0 (u8 m) (e_addr e) t leaf) e.
Proof.
cbv zeta. intros Ht He Hcp Hmp Hmq. pose proof He as (Hw & Hf & Hq).
destruct (trie_wf_inv _ _ _ _ _ _ Ht) as (Hx & Hxf & Hpx & _).
pose proof (width_pos x Hx) as Hwx. pose proof Hcp as (Hm & _).
rewrite u8_id by lia.
destruct (branch_spec a p x l r (e_addr e) (e_prefix e) (e_as e) m) as [Hwf Hlook];
  [done..|lia|lia|].
assert (Hleaf : leaves_from e (leaves (Node a p x l r)) [e]).
{ apply Forall_singleton. right. apply same_prefix_refl. }
assert (Heta : {| e_addr := e_addr e; e_prefix := e_prefix e; e_as := e_as e |} = e)
  by (by destruct e).
rewrite Heta in Hlook.
destruct (abit (e_addr e) m); cbn [b2z]; [change (1 =? 0) with false|change (0 =? 0) with true];
  cbn iota; split_and!; try done.
- cbn [leaves new_node is_null andb]. rewrite Heta. apply Forall_app.
  split; [apply leaves_from_old|done].
- cbn [leaves new_node is_null andb]. rewrite Heta. apply Forall_app.
  split; [done|apply leaves_from_old].
Qed.

Lemma leaves_from_app_l e old old' new :
leaves_from e old new -> leaves_from e (old ++ old') new.
Proof.
intros H. eapply Forall_weaken; [exact H|]. cbn beta. intros e' [Hex|Hs]; [left|by right].
apply Exists_app. by left.
Qed.
Lemma leaves_from_app_r e old old' new :
leaves_from e old' new -> leaves_from e (old ++ old') new.
Proof.
intros H. eapply Forall_weaken; [exact H|]. cbn beta. intros e' [Hex|Hs]; [left|by right].
apply Exists_app. by right.
Qed.

(** Going down one side of a branching node. *)
Lemma updated_down a p x l r e l' r' :
trie_wf f (Node a p x l r) -> is_null l = false -> entry_wf f e ->
agree x (e_addr e) p -> p < e_prefix e ->
(if abit (e_addr e) p then l' = l /\ updated r r' e else r' = r /\ updated l l' e) ->
updated (Node a p x l r) (Node a p x l' r') e.
Proof.
intros Ht Hnl He Hag Hlt Hside. pose proof He as (Hw & Hf & Hq).
apply trie_wf_inv in Ht as (Hx & Hxf & Hpx & [[-> ->]|(Hpw & Hl & Hr & Hbl & Hbr)]); [done|].
assert (Hwl : trie_wf f l' /\ trie_wf f r').
{ destruct (abit (e_addr e) p); destruct Hside as [-> [? _]]; done. }
destruct Hwl as [Hl' Hr'].
pose proof (trie_wf_not_null _ _ Hl) as El. pose proof (trie_wf_not_null _ _ Hr) as Er.
pose proof (trie_wf_not_null _ _ Hl') as El'. pose proof (trie_wf_not_null _ _ Hr') as Er'.
assert (Hcovb : forall z, addr_wf z -> sa_family z = f -> covers e z = true ->
  agree x z p /\ abit z p = abit (e_addr e) p).
{ intros z Hz Hzf Hc. apply covers_agree in Hc; [|done..]. split.
  - eapply agree_trans; [exact Hag|]. eapply agree_le, Hc. lia.
  - symmetry. apply Hc. lia. }
split_and!.
- apply wf_branch; [done|done|lia|done|done| |].
  all: destruct (abit (e_addr e) p) eqn:Eb; destruct Hside as [-> (_ & Hfrom & _)];
    [done || idtac..].
  all: eapply below_from; [|exact Hfrom|..]; done || lia.
- cbn [leaves]. rewrite El, Er, El', Er'. cbn [andb]. apply Forall_app.
  destruct (abit (e_addr e) p); destruct Hside as [-> (_ & Hfrom & _)]; split;
    (apply leaves_from_app_l; apply leaves_from_old || exact Hfrom)
    || (apply leaves_from_app_r; apply leaves_from_old || exact Hfrom).
- intros z Hz Hzf. assert (width z = width x) by (apply width_family; congruence).
  destruct (decide (compare_addresses (Some x) (Some z) p = 0)) as [Hc|Hc].
  + rewrite !lookup_branch by (done || lia).
    destruct (covers e z) eqn:Hcv.
    * destruct (Hcovb z Hz Hzf Hcv) as [_ ->].
      destruct (abit (e_addr e) p); destruct Hside as [-> (_ & _ & ->)]; try done;
        by rewrite Hcv.
    * destruct (abit (e_addr e) p); destruct Hside as [-> (_ & _ & Hlk)];
        destruct (abit z p); try done; by rewrite Hlk, Hcv.
  + rewrite !lookup_outside by done. destruct (covers e z) eqn:Hcv; [|done].
    destruct (Hcovb z Hz Hzf Hcv) as [Ha _]. exfalso. by apply Hc, node_compare.
Qed.

(** Updating a leaf that is there already. *)
Lemma updated_leaf a p x e :
addr_wf x -> sa_family x = f -> 0 <= p <= width x -> entry_wf f e -> e_prefix e = p ->
agree x (e_addr e) p -> updated (new_node a p x) (new_node (e_as e) p x) e.
Proof.
intros Hx Hxf Hpx He Hp Hag. split_and!; [by apply wf_leaf| |].
- apply Forall_singleton. right. split; cbn; [done|]. rewrite Hp. by apply agree_sym.
- intros z Hz Hzf. cbn [new_node iptrie_lookup_as_internal is_null andb].
  assert (Heq : (compare_addresses (Some x) (Some z) p =? 0) = covers e z).
  { apply eq_true_iff_eq. rewrite Z.eqb_eq, node_compare, covers_agree by done.
    rewrite Hp. split; intros Ha; (eapply agree_trans; [|exact Ha]); [by apply agree_sym|done]. }
  rewrite Heq. by destruct (covers e z).
Qed.

Lemma add_entry_spec t e :
trie_wf f t -> entry_wf f e -> Forall (compatible e) (leaves t) ->
updated t (add_entry t e) e.
Proof.
intros Ht He. pose proof He as (Hw & Hf & Hq).
induction t as [|a p x l IHl r IHr]; intros Hc; [inversion Ht|].
pose proof (trie_wf_inv _ _ _ _ _ _ Ht) as (Hx & Hxf & Hpx & Hch).
assert (Hwx : width x = width (e_addr e)) by (apply width_family; congruence).
pose proof (get_matching_prefix_length_spec x (e_addr e) Hx Hw ltac:(congruence)) as Hcp.
unfold add_entry in *. cbn [iptrie_add_internal].
set (m := get_matching_prefix_length (Some x) (Some (e_addr e))) in *.
pose proof (compatible_root a p x l r e m Ht He Hc Hcp) as Hroot.
destruct ((e_prefix e =? p) &&
  (compare_addresses (Some x) (Some (e_addr e)) (e_prefix e) =? 0)) eqn:Etest.
- (* the entry is already there *)
  apply andb_true_iff in Etest as [Hp%Z.eqb_eq Hcmp%Z.eqb_eq]. rewrite Hp in Hcmp.
  apply node_compare in Hcmp; [|done..].
  destruct Hch as [[-> ->]|(Hpw & Hl & Hr & Hbl & Hbr)].
  + by apply updated_leaf.
  + destruct Hroot as [Hlt _]; [right; by eapply trie_wf_not_null|].
    exfalso. destruct Hcp as (Hm & _ & Hd).
    destruct (Z.lt_ge_cases m p) as [Hmp|]; [|lia].
    apply Hd; [lia|]. by apply Hcmp; lia.
- destruct Hroot as [Hlt Hleaf]; [by left|].
  pose proof Hcp as (Hm & Hag & _).
  assert (Hlen : (if m >? p then p else m) = Z.min m p) by (rewrite Z.gtb_ltb; zbool; lia).
  rewrite Hlen. destruct (Z.ltb_spec (Z.min m p) p) as [Hmp|Hmp].
  + (* a new branching node *)
    rewrite Z.min_l in * by lia. rewrite get_bit_at_index_spec by lia.
    apply updated_branch; done || lia.
  + (* the whole prefix of the node matches *)
    assert (Hpm : p <= m) by lia. rewrite Z.min_r in * by lia.
    destruct Hch as [[-> ->]|(Hpw & Hl & Hr & _)]; [specialize (Hleaf eq_refl); lia|].
    pose proof (trie_wf_not_null _ _ Hl) as El.
    assert (Hcc : Forall (compatible e) (leaves l) /\ Forall (compatible e) (leaves r)).
    { cbn [leaves] in Hc. rewrite El in Hc. cbn in Hc. by apply Forall_app in Hc. }
    assert (Hagp : agree x (e_addr e) p) by (eapply agree_le, Hag; lia).
    rewrite get_bit_at_index_spec by lia.
    destruct (abit (e_addr e) p) eqn:Eb; cbn [b2z];
      [change (1 =? 0) with false|change (0 =? 0) with true]; cbn iota;
      (apply updated_down; [done..|]); rewrite Eb; split; try done;
      [apply IHr|apply IHl]; tauto.
Qed.
End Family.

(** ** Refinement of the abstract map *)

Definition trie_ok (f : Z) (t : iptrie_node) : Prop := t = Null \/ trie_wf f t.

(** [t] is what adding [es] (oldest first) gives. *)
Record represents (f : Z) (es : list entry) (t : iptrie_node) : Prop := {
  rep_ok : trie_ok f t;
  rep_leaves : Forall (fun e' => Exists (fun e => same_prefix e e') es) (leaves t);
  rep_lookup : forall z, addr_wf z -> sa_family z = f ->
    iptrie_lookup_as_internal t z = spec_lookup (rev es) z
}.

Lemma compatible_same e e0 e' : compatible e e0 -> same_prefix e0 e' -> compatible e e'.
Proof.
  intros Hc [Hp Ha]. destruct Hc as [[Hp' Ha']|Hd].
  - left. split; [congruence|]. eapply agree_trans; [exact Ha'|]. rewrite Hp'. exact Ha.
  - right. intros Hag. apply Hd. rewrite Hp. eapply agree_trans; [exact Hag|].
    apply agree_sym. eapply agree_le, Ha. lia.
Qed.

Lemma represents_add f es t e :
  represents f es t -> entry_wf f e -> Forall (compatible e) es ->
  represents f (es ++ [e]) (add_entry t e).
Proof.
  intros [Hok Hlv Hlk] He Hc. destruct Hok as [->|Ht].
  - destruct He as (Hw & Hf & Hp). split.
    + right. by apply wf_leaf.
    + apply Forall_singleton. apply Exists_app. right. apply Exists_cons_hd.
      split; cbn; [done|by apply agree_refl].
    + intros z Hz Hzf. rewrite rev_app_distr. cbn. unfold covers.
      specialize (Hlk z Hz Hzf). cbn in Hlk. rewrite <- Hlk. by destruct (_ =? 0).
  - assert (Hcl : Forall (compatible e) (leaves t)).
    { rewrite Forall_forall in Hlv, Hc |- *. intros e' Hin.
      apply Hlv, Exists_exists in Hin as (e0 & Hin & Hs). by eapply compatible_same; [apply Hc|]. }
    destruct (add_entry_spec f t e Ht He Hcl) as (Hwf & Hfrom & Hlook). split.
    + by right.
    + eapply Forall_weaken; [exact Hfrom|]. cbn beta. intros e' [Hex|Hs]; apply Exists_app.
      * left. apply Exists_exists in Hex as (e0 & Hin & Hs).
        rewrite Forall_forall in Hlv. apply Hlv, Exists_exists in Hin as (e1 & Hin & Hs1).
        apply Exists_exists. exists e1. split; [done|]. destruct Hs1 as [Hp1 Ha1], Hs as [Hp Ha].
        split; [congruence|]. eapply agree_trans; [exact Ha1|]. by rewrite Hp1.
      * right. by apply Exists_cons_hd.
    + intros z Hz Hzf. rewrite Hlook, rev_app_distr by done. cbn. by rewrite Hlk.
Qed.

(** Adding a sequence of updates, and looking an address up. *)
Definition add_all (es : list entry) (root : iptrie) : iptrie :=
  fold_left (fun r e => iptrie_add r (e_addr e) (e_prefix e) (e_as e)) es root.

Definition iptrie_empty : iptrie := {| ipv4 := Null; ipv6 := Null |}.

Definition any_wf (e : entry) : Prop :=
  addr_wf (e_addr e) /\ 0 <= e_prefix e <= width (e_addr e).

Definition in_family (f : Z) (e : entry) : bool := sa_family (e_addr e) =? f.

(** Updates of the other family do not cover an address. *)
Lemma spec_lookup_family f es z :
  sa_family z = f -> spec_lookup (filter (in_family f) es) z = spec_lookup es z.
Proof.
  intros Hf. induction es as [|e es IH]; [done|]. rewrite filter_cons.
  case_decide as Hd; cbn; rewrite IH; [done|].
  assert (Hne : sa_family (e_addr e) <> sa_family z).
  { unfold in_family in Hd. intros He. apply Hd. rewrite He, Hf, Z.eqb_refl. done. }
  pose proof (compare_addresses_family (e_addr e) z (e_prefix e) Hne) as Hc.
  unfold covers. by rewrite (proj2 (Z.eqb_neq _ _) Hc).
Qed.

Lemma add_all_families es root :
  Forall (fun e => addr_wf (e_addr e)) es ->
  ipv4 (add_all es root) = fold_left add_entry (filter (in_family AF_INET) es) (ipv4 root) /\
  ipv6 (add_all es root) = fold_left add_entry (filter (in_family AF_INET6) es) (ipv6 root).
Proof.
  intros Hw. revert root. induction Hw as [|e es He Hes IH]; intros root; [done|].
  rewrite !filter_cons. cbn [add_all fold_left]. fold (add_all es).
  change (fold_left _ es ?r) with (add_all es r).
  destruct (IH (iptrie_add root (e_addr e) (e_prefix e) (e_as e))) as [-> ->].
  assert (Hd : forall f, in_family f e = (sa_family (e_addr e) =? f)) by done.
  unfold iptrie_add, add_entry.
  split; case_decide as Hf; rewrite Hd in Hf;
    cbn [fold_left]; destruct (e_addr e) as [x|ws|f]; cbn in He, Hf |- *; done.
Qed.

Lemma fold_represents f es0 es t :
  represents f es0 t -> Forall (entry_wf f) es ->
  (forall e e', e ∈ es0 ++ es -> e' ∈ es0 ++ es -> compatible e e') ->
  represents f (es0 ++ es) (fold_left add_entry es t).
Proof.
  intros Hr Hw. revert es0 t Hr. induction Hw as [|e es He Hes IH]; intros es0 t Hr Hc.
  { by rewrite app_nil_r. }
  cbn. replace (es0 ++ e :: es) with ((es0 ++ [e]) ++ es) by (by rewrite <- app_assoc).
  apply IH.
  - apply represents_add; [done..|]. apply Forall_forall. intros e' Hin. apply Hc; set_solver.
  - intros e1 e2 H1 H2. apply Hc; set_solver.
Qed.

Lemma represents_nil f : represents f [] Null.
Proof. split; [by left|constructor|done]. Qed.

(** Looking up in the trie of one family. *)
Lemma fold_lookup f es z :
  Forall any_wf es ->
  (forall e e', e ∈ es -> e' ∈ es -> in_family f e -> in_family f e' -> compatible e e') ->
  addr_wf z -> sa_family z = f ->
  iptrie_lookup_as_internal (fold_left add_entry (filter (in_family f) es) Null) z
  = spec_lookup (rev es) z.
Proof.
  intros Hw Hc Hz Hf.
  assert (Hr : represents f ([] ++ filter (in_family f) es)
                 (fold_left add_entry (filter (in_family f) es) Null)).
  { apply fold_represents; [apply represents_nil| |].
    - apply Forall_forall. intros e [Hin He]%list_elem_of_filter.
      rewrite Forall_forall in Hw. destruct (Hw e He) as [? ?].
      unfold in_family in Hin. split_and!; try done || lia. by apply Z.eqb_eq, Is_true_true.
    - intros e e' [Hi He]%list_elem_of_filter [Hi' He']%list_elem_of_filter. by apply Hc. }
  rewrite (rep_lookup _ _ _ Hr) by done. cbn [app].
  rewrite <- (spec_lookup_family f (rev es)) by done.
  by rewrite filter_rev.
Qed.

(** Both families together. *)
Lemma add_all_lookup es z :
  Forall any_wf es ->
  (forall e e', e ∈ es -> e' ∈ es ->
     sa_family (e_addr e) = sa_family (e_addr e') -> compatible e e') ->
  addr_wf z ->
  iptrie_lookup_as (add_all es iptrie_empty) z = spec_lookup (rev es) z.
Proof.
  intros Hw Hc Hz. unfold iptrie_lookup_as.
  destruct (add_all_families es iptrie_empty) as [H4 H6].
  { eapply Forall_weaken; [exact Hw|]. by intros e []. }
  assert (Hc' : forall f e e', e ∈ es -> e' ∈ es -> in_family f e -> in_family f e' ->
    compatible e e').
  { unfold in_family. intros f e e' He He' Hf Hf'. apply Hc; [done..|].
    apply Is_true_true, Z.eqb_eq in Hf, Hf'. congruence. }
  destruct z as [x|ws|f]; cbn [sa_family]; [| |done].
  - change (AF_INET =? AF_INET) with true. rewrite H4. apply fold_lookup; eauto.
  - change (AF_INET6 =? AF_INET) with false. change (AF_INET6 =? AF_INET6) with true.
    rewrite H6. apply fold_lookup; eauto.
Qed.

(** C9: The trie implements the abstract map: after any sequence of
    iptrie_add() calls, IPv4 and IPv6 mixed, whose prefixes are (within a
    family) pairwise equal or disjoint, iptrie_lookup_as() of any address
    returns the AS number of the latest update whose prefix contains the
    address, and -1 when no prefix does. *)
Theorem iptrie_refines_map es z :
  Forall any_wf es ->
  (forall e e', e ∈ es -> e' ∈ es ->
     sa_family (e_addr e) = sa_family (e_addr e') -> compatible e e') ->
  addr_wf z ->
  iptrie_lookup_as (add_all es iptrie_empty) z = spec_lookup (rev es) z.
Proof. apply add_all_lookup. Qed.

(** Prefixes of one length are equal or disjoint. *)
Lemma same_length_compatible e e' :
  any_wf e -> any_wf e' -> sa_family (e_addr e) = sa_family (e_addr e') ->
  e_prefix e = e_prefix e' -> compatible e e'.
Proof.
  intros [Hw Hp] [Hw' Hp'] Hf Heq.
  destruct (covers e (e_addr e')) eqn:Hc.
  - left. split; [done|]. by eapply covers_agree; [|..|exact Hc].
  - right. intros Ha. rewrite Heq, Z.min_id, <- Heq in Ha.
    apply (covers_agree (sa_family (e_addr e))) in Ha; [congruence|done..].
Qed.

Lemma iptrie_refines_map_witness :
  iptrie_lookup_as
    (add_all [{| e_addr := ip4 10 1 2 0; e_prefix := 24; e_as := 100 |};
              {| e_addr := ip4 10 1 3 0; e_prefix := 24; e_as := 200 |}] iptrie_empty)
    (ip4 10 1 3 7)
  = spec_lookup (rev [{| e_addr := ip4 10 1 2 0; e_prefix := 24; e_as := 100 |};
                      {| e_addr := ip4 10 1 3 0; e_prefix := 24; e_as := 200 |}])
      (ip4 10 1 3 7).
Proof.
  assert (Hw : Forall any_wf [{| e_addr := ip4 10 1 2 0; e_prefix := 24; e_as := 100 |};
                              {| e_addr := ip4 10 1 3 0; e_prefix := 24; e_as := 200 |}]).
  { repeat constructor; cbn; lia. }
  apply (iptrie_refines_map [{| e_addr := ip4 10 1 2 0; e_prefix := 24; e_as := 100 |};
                             {| e_addr := ip4 10 1 3 0; e_prefix := 24; e_as := 200 |}]).
  - exact Hw.
  - intros e e' He He' Hf. rewrite Forall_forall in Hw.
    apply same_length_compatible; [by apply Hw|by apply Hw|done|].
    set_unfold. destruct He as [->|[->|[]]], He' as [->|[->|[]]]; reflexivity.
  - cbn. lia.
Defined.

(** The lengths under which the ASN code stores every answer: /24 and /64. *)
Definition asn_prefix (a : sockaddr) : Z :=
  match a with SockIn _ => 24 | SockIn6 _ => 64 | SockOther _ => 0 end.

(** An update the ASN code makes. *)
Definition asn_entry (e : entry) : Prop := addr_wf (e_addr e) /\ e_prefix e = asn_prefix (e_addr e).
Lemma asn_compatible es :
  Forall asn_entry es ->
  Forall any_wf es /\
  (forall e e', e ∈ es -> e' ∈ es -> sa_family (e_addr e) = sa_family (e_addr e') -> compatible e e').
Proof.
  intros Hw. assert (Hany : Forall any_wf es).
  { eapply Forall_impl; [exact Hw|]. intros e [Ha Hp]. split; [done|]. rewrite Hp.
    destruct (e_addr e); cbn in *; lia. }
  split; [done|]. rewrite Forall_forall in Hw, Hany. intros e e' He He' Hf.
  apply same_length_compatible; [by apply Hany..|done|].
  destruct (Hw e He) as [Wa ->], (Hw e' He') as [Wa' ->].
  destruct (e_addr e), (e_addr e'); cbn in *; done.
Qed.

(** For the updates the ASN code makes (IPv4 answers stored as /24s, IPv6
    as /64s) no condition is needed: whatever the addresses and their order,
    a lookup returns the AS number of the latest answer in the same /24 or
    /64 as the address, and -1 when there is none. *)
Theorem iptrie_asn_cache (answers : list (sockaddr * Z)) z :
  Forall (fun x => addr_wf (fst x)) answers -> addr_wf z ->
  let es := map (fun x => {| e_addr := fst x; e_prefix := asn_prefix (fst x);
                             e_as := snd x |}) answers in
  iptrie_lookup_as (add_all es iptrie_empty) z = spec_lookup (rev es) z.
Proof.
  intros Hw Hz es. destruct (asn_compatible es) as [Hes Hc]; [|by apply add_all_lookup].
  apply Forall_fmap. eapply Forall_impl; [exact Hw|]. done.
Qed.

Lemma iptrie_asn_cache_witness :
  let es := map (fun x => {| e_addr := fst x; e_prefix := asn_prefix (fst x);
                             e_as := snd x |})
              [(ip4 10 1 2 9, 100); (ip4 10 1 3 1, 200); (ip4 10 1 2 77, 300)] in
  iptrie_lookup_as (add_all es iptrie_empty) (ip4 10 1 2 3)
  = spec_lookup (rev es) (ip4 10 1 2 3).
Proof.
  apply (iptrie_asn_cache [(ip4 10 1 2 9, 100); (ip4 10 1 3 1, 200); (ip4 10 1 2 77, 300)]).
  - repeat constructor; cbn; lia.
  - cbn. lia.
Defined.

Example asn_cache_ex :
  iptrie_lookup_as (add_all [{| e_addr := ip4 10 1 2 9; e_prefix := 24; e_as := 100 |};
    {| e_addr := ip4 10 1 3 1; e_prefix := 24; e_as := 200 |};
    {| e_addr := ip4 10 1 2 77; e_prefix := 24; e_as := 300 |}] iptrie_empty) (ip4 10 1 2 3)
  = 300.
Proof. reflexivity. Qed.

(** Nested prefixes are outside the contract: a /8 added below a /16 is only
    reachable through the /16, and hides it. *)
Example nested_prefixes :
  let t := add_all [{| e_addr := ip4 10 1 0 0; e_prefix := 16; e_as := 1 |};
                    {| e_addr := ip4 10 1 0 0; e_prefix := 8; e_as := 2 |}] iptrie_empty in
  iptrie_lookup_as t (ip4 10 2 0 1) = -1 /\ iptrie_lookup_as t (ip4 10 1 0 1) = 2.
Proof. split; reflexivity. Qed.

(** ** Walking the leaves *)

Fixpoint leaf_nodes (t : iptrie_node) : list iptrie_node :=
  match t with
  | Null => []
  | Node _ _ _ l r => if is_null l && is_null r then [t] else leaf_nodes l ++ leaf_nodes r
  end.

(** Apply a function to each node in turn, up to the first failure. *)
Fixpoint run_until {D} (func : iptrie_node -> D -> Z * D) (ns : list iptrie_node) (data : D)
    : Z * D :=
  match ns with
  | [] => (0, data)
  | n :: ns' =>
      let '(r, data) := func n data in if r <? 0 then (-1, data) else run_until func ns' data
  end.

Lemma run_until_app {D} (func : iptrie_node -> D -> Z * D) ns ns' data :
  run_until func (ns ++ ns') data =
    let '(r, data) := run_until func ns data in
    if r <? 0 then (-1, data) else run_until func ns' data.
Proof.
  revert data. induction ns as [|n ns IH]; intros data; [done|]. cbn.
  destruct (func n data) as [r d]. destruct (r <? 0); [done|]. apply IH.
Qed.

Lemma on_leaves_internal {D} (func : iptrie_node -> D -> Z * D) t data :
  let '(r, d) := iptrie_on_all_leaves_internal func t data in
  let '(r', d') := run_until func (leaf_nodes t) data in
  d = d' /\ (r <? 0) = (r' <? 0) /\ (r' = 0 \/ r' = -1).
Proof.
  revert data. induction t as [|a p x l IHl r IHr]; intros data; cbn; [auto|].
  destruct (is_null l && is_null r).
  - cbn. destruct (func _ data) as [r0 d0]. destruct (r0 <? 0) eqn:E; auto.
  - rewrite run_until_app. specialize (IHl data).
    destruct (iptrie_on_all_leaves_internal func l data) as [rl d].
    destruct (run_until func (leaf_nodes l) data) as [rl' d'].
    destruct IHl as (-> & -> & Hr). destruct (rl' <? 0); [by auto|].
    specialize (IHr d').
    destruct (iptrie_on_all_leaves_internal func r d') as [rr dr].
    destruct (run_until func (leaf_nodes r) d') as [rr' dr'].
    destruct IHr as (-> & -> & [-> | ->]); cbn; auto.
Qed.

(** The walk iptrie_on_all_leaves() applies the function to exactly the leaves, the
    IPv4 ones first and each trie from left to right, threading the data
    through, stops at the first call that fails and then returns -1, and
    returns 0 otherwise, whatever the function. *)
Theorem iptrie_on_all_leaves_correct {D} (func : iptrie_node -> D -> Z * D) root data :
  iptrie_on_all_leaves func root data
  = run_until func (leaf_nodes (ipv4 root) ++ leaf_nodes (ipv6 root)) data.
Proof.
  unfold iptrie_on_all_leaves. rewrite run_until_app.
  pose proof (on_leaves_internal func (ipv4 root) data) as H4.
  destruct (iptrie_on_all_leaves_internal func (ipv4 root) data) as [r4 d4].
  destruct (run_until func (leaf_nodes (ipv4 root)) data) as [r4' d4'].
  destruct H4 as (-> & -> & _). destruct (r4' <? 0); [done|].
  pose proof (on_leaves_internal func (ipv6 root) d4') as H6.
  destruct (iptrie_on_all_leaves_internal func (ipv6 root) d4') as [r6 d6].
  destruct (run_until func (leaf_nodes (ipv6 root)) d4') as [r6' d6'].
  destruct H6 as (-> & -> & [-> | ->]); done.
Qed.

(** ** Copying a trie leaf by leaf *)

Definition root_ok (root : iptrie) : Prop := trie_ok AF_INET (ipv4 root) /\ trie_ok AF_INET6 (ipv6 root).
Definition all_leaves (root : iptrie) : list entry := leaves (ipv4 root) ++ leaves (ipv6 root).

Lemma below_covers f p x b es e z :
  below p x b es -> e ∈ es -> Forall (entry_wf f) es -> addr_wf z -> sa_family z = f -> 0 <= p ->
  covers e z = true -> agree x z p /\ abit z p = b.
Proof.
  unfold below. rewrite !Forall_forall. intros Hb He Hw Hz Hf Hp Hc.
  destruct (Hb e He) as (Hlt & Ha & <-). apply (covers_agree f) in Hc; [|by apply Hw|done|done]. split.
  - eapply agree_trans; [exact Ha|]. eapply agree_le, Hc. lia.
  - symmetry. apply Hc. lia.
Qed.

(** A lookup finds the leaf that covers the address. *)
Lemma lookup_leaf f t z :
  trie_wf f t -> addr_wf z -> sa_family z = f ->
  (forall e, e ∈ leaves t -> covers e z = true -> iptrie_lookup_as_internal t z = e_as e) /\
  ((forall e, e ∈ leaves t -> covers e z = false) -> iptrie_lookup_as_internal t z = -1).
Proof.
  intros Ht Hz Hzf. induction Ht as [a p x Hw Hf Hp|a p x l r Hw Hf Hp Hl [IHl IHl'] Hr [IHr IHr'] Hbl Hbr].
  - cbn. unfold covers. split.
    + intros e ->%list_elem_of_singleton. cbn. intros ->. done.
    + intros H. specialize (H _ ltac:(by left)). cbn in H. by rewrite H.
  - pose proof (trie_wf_not_null _ _ Hl) as Hnl. pose proof (trie_wf_not_null _ _ Hr) as Hnr.
    cbn [leaves]. rewrite Hnl. cbn [andb]. assert (Hwz : width x = width z) by (apply width_family; congruence).
    assert (Hin : agree x z p -> iptrie_lookup_as_internal (Node a p x l r) z =
      iptrie_lookup_as_internal (if abit z p then r else l) z).
    { intros Ha. apply lookup_branch; [done|done|lia|]. apply (node_compare f); (done || lia). }
    split.
    + intros e [He|He]%elem_of_app Hc.
      * destruct (below_covers f p x false (leaves l) e z) as [Ha Hb]; [done|done|by apply trie_wf_leaves|done..|lia|done|].
        rewrite Hin, Hb by done. by apply IHl.
      * destruct (below_covers f p x true (leaves r) e z) as [Ha Hb]; [done|done|by apply trie_wf_leaves|done..|lia|done|].
        rewrite Hin, Hb by done. by apply IHr.
    + intros Hno. destruct (decide (compare_addresses (Some x) (Some z) p = 0)) as [Hc|Hc].
      * apply (node_compare f) in Hc; [|done || lia..]. rewrite (Hin Hc).
        destruct (abit z p); [apply IHr'|apply IHl']; intros e He; apply Hno; set_solver.
      * by apply lookup_outside.
Qed.

Lemma leaves_compatible f t e e' : trie_wf f t -> e ∈ leaves t -> e' ∈ leaves t -> compatible e e'.
Proof.
  intros Ht. revert e e'. induction Ht as [a p x Hw Hf Hp|a p x l r Hw Hf Hp Hl IHl Hr IHr Hbl Hbr]; intros e e'.
  - cbn. intros ->%list_elem_of_singleton ->%list_elem_of_singleton. left. apply same_prefix_refl.
  - cbn [leaves]. rewrite (trie_wf_not_null _ _ Hl). cbn [andb].
    unfold below in *. rewrite Forall_forall in Hbl, Hbr.
    assert (Hd : forall e e', e ∈ leaves l -> e' ∈ leaves r -> abit (e_addr e) p <> abit (e_addr e') p /\
      0 <= p < Z.min (e_prefix e) (e_prefix e')).
    { intros e1 e2 H1 H2. destruct (Hbl _ H1) as (? & _ & ->), (Hbr _ H2) as (? & _ & ->). split; [done|lia]. }
    intros [He|He]%elem_of_app [He'|He']%elem_of_app; [by apply IHl| | |by apply IHr]; right; intros Ha.
    + destruct (Hd e e' He He') as [Hb Hm]. by apply Hb, Ha.
    + destruct (Hd e' e He' He) as [Hb Hm]. apply Hb. symmetry. apply Ha. lia.
Qed.

Lemma spec_lookup_unique es z v :
  (forall e, e ∈ es -> covers e z = true -> v = e_as e) ->
  ((forall e, e ∈ es -> covers e z = false) -> v = -1) -> spec_lookup es z = v.
Proof.
  induction es as [|e es IH]; intros Hc Hn; cbn.
  { symmetry. apply Hn. by intros e He%elem_of_nil. }
  destruct (covers e z) eqn:E; [symmetry; apply Hc; [left|done]|]. apply IH.
  - intros e' He'. apply Hc. by right.
  - intros H. apply Hn. intros e' [->|?]%elem_of_cons; auto.
Qed.

Lemma trie_ok_leaves f t : trie_ok f t -> Forall (entry_wf f) (leaves t).
Proof. intros [->|Ht]; [constructor|by apply trie_wf_leaves]. Qed.
Lemma filter_family f g es :
  Forall (entry_wf f) es -> filter (in_family g) es = if f =? g then es else [].
Proof.
  intros Hw. induction Hw as [|e es (_ & Hf & _) Hw IH]; [by destruct (f =? g)|].
  rewrite filter_cons, IH. unfold in_family. rewrite Hf. by destruct (f =? g).
Qed.
Lemma trie_lookup f t z :
  trie_ok f t -> addr_wf z -> sa_family z = f ->
  spec_lookup (rev (leaves t)) z = iptrie_lookup_as_internal t z.
Proof.
  intros [->|Ht] Hz Hf; [done|]. destruct (lookup_leaf f t z Ht Hz Hf) as [Hc Hn].
  apply spec_lookup_unique.
  - intros e He. apply Hc. by rewrite <- Permutation_rev in He.
  - intros H. apply Hn. intros e He. apply H. by rewrite <- Permutation_rev.
Qed.

(** A trie filled with the leaves of another one answers every lookup as the other
    does. *)
Lemma copy_lookup root z :
  root_ok root -> addr_wf z ->
  iptrie_lookup_as (add_all (all_leaves root) iptrie_empty) z = iptrie_lookup_as root z.
Proof.
  intros [H4 H6] Hz. pose proof (trie_ok_leaves _ _ H4) as W4. pose proof (trie_ok_leaves _ _ H6) as W6.
  assert (Hany : forall f es, Forall (entry_wf f) es -> Forall any_wf es).
  { intros f es Hw. eapply Forall_impl; [exact Hw|]. by intros e (? & ? & ?). }
  unfold all_leaves. rewrite add_all_lookup; [|apply Forall_app; split; by eapply Hany| |done].
  - rewrite <- (spec_lookup_family (sa_family z)), filter_rev, filter_app by done.
    rewrite (filter_family AF_INET), (filter_family AF_INET6) by done. unfold iptrie_lookup_as.
    destruct z as [x|ws|g]; [| |done]; cbn -[rev spec_lookup]; rewrite ?app_nil_r; by eapply trie_lookup.
  - rewrite Forall_forall in W4, W6.
    assert (Hc : forall f t e e', trie_ok f t -> e ∈ leaves t -> e' ∈ leaves t -> compatible e e').
    { intros f t e e' [->|Ht] He He'; [by apply elem_of_nil in He|by eapply leaves_compatible]. }
    intros e e' [He|He]%elem_of_app [He'|He']%elem_of_app Hf;
      [exact (Hc _ _ _ _ H4 He He')| | |exact (Hc _ _ _ _ H6 He He')].
    + destruct (W4 _ He) as (_ & E & _), (W6 _ He') as (_ & E' & _). rewrite E, E' in Hf. discriminate Hf.
    + destruct (W6 _ He) as (_ & E & _), (W4 _ He') as (_ & E' & _). rewrite E, E' in Hf. discriminate Hf.
Qed.

(** Tries made by adding compatible updates. *)
Lemma add_all_ok es :
  Forall any_wf es ->
  (forall e e', e ∈ es -> e' ∈ es -> sa_family (e_addr e) = sa_family (e_addr e') -> compatible e e') ->
  root_ok (add_all es iptrie_empty).
Proof.
  intros Hw Hc. destruct (add_all_families es iptrie_empty) as [E4 E6].
  { eapply Forall_impl; [exact Hw|]. by intros e []. }
  assert (H : forall f, trie_ok f (fold_left add_entry (filter (in_family f) es) Null)).
  { intros f. refine (rep_ok _ _ _ (fold_represents f [] _ Null (represents_nil f) _ _)).
    - apply Forall_forall. intros e [Hf He]%list_elem_of_filter. rewrite Forall_forall in Hw.
      destruct (Hw e He) as [? ?]. split_and!; try done || lia. by apply Z.eqb_eq, Is_true_true.
    - intros e e' [Hf He]%list_elem_of_filter [Hf' He']%list_elem_of_filter.
      apply Is_true_true, Z.eqb_eq in Hf, Hf'. apply Hc; [done..|congruence]. }
  split; [rewrite E4|rewrite E6]; apply H.
Qed.
