(* ===== verification/Acl.v ===== *)
(** Access control lists (src/measured/acl.c).

    An ACL is a tree of name labels per property; a rule for a name sets a node,
    nodes without a rule of their own carry the permission of their parent.
    [num_children] is the 8-bit counter of the source, next to the array of
    children.  The specification is a set of rules: the answer for a name is
    the rule of the longest suffix of the name (a wildcard such as
    ".example.com", or the name itself) that has one, and the permission of
    "all" otherwise. *)
From S2P Require Import Prelude CLib.
#[local] Open Scope Z_scope.
#[local] Set Warnings "-register-all".

Definition ACL_NONE : Z := 0.
Definition ACL_SERVER : Z := 1.
Definition ACL_TEST : Z := 2.
Definition ACL_SCHEDULE : Z := 4.

Inductive acl_node : Type :=
| AclNode (label : cstr) (permissions isset num_children : Z) (children : list acl_node).

Definition label (n : acl_node) : cstr := let '(AclNode l _ _ _ _) := n in l.
Definition permissions (n : acl_node) : Z := let '(AclNode _ p _ _ _) := n in p.
Definition isset (n : acl_node) : Z := let '(AclNode _ _ i _ _) := n in i.
Definition num_children (n : acl_node) : Z := let '(AclNode _ _ _ k _) := n in k.
Definition children (n : acl_node) : list acl_node := let '(AclNode _ _ _ _ c) := n in c.

Record acl_root : Type := { server : acl_node; test : acl_node; schedule : acl_node }.

Definition dot : ascii := ".".
Definition starts_with_dot (l : cstr) : bool :=
  match l with c :: _ => bool_decide (c = dot) | [] => false end.

(** get_label(), as the offset of the label in the name. *)
Definition get_label (fqdn : cstr) : nat :=
  match strrchr fqdn dot with Some i => i | None => O end.

Definition new_acl_node (label : cstr) (permissions isset : Z) : acl_node :=
  AclNode label permissions isset 0 [].

Definition initialise_acl : acl_root :=
  {| server := new_acl_node (str "all") ACL_NONE 0;
     test := new_acl_node (str "all") ACL_NONE 0;
     schedule := new_acl_node (str "all") ACL_NONE 0 |}.

Fixpoint get_acl_internal (root : acl_node) (fqdn : cstr) : Z :=
  match root with
  | AclNode _ perms _ num cs =>
      if num >? 0 then
        let off := get_label fqdn in
        (fix find (n : nat) (cs : list acl_node) {struct cs} : Z :=
           match cs, n with
           | c :: cs', S n' =>
               if strcmp_eq (label c) (drop off fqdn)
               then get_acl_internal c (take off fqdn) else find n' cs'
           | _, _ => perms
           end) (Z.to_nat num) cs
      else perms
  end.

Definition get_acl (root : option acl_root) (fqdn : option cstr) (property : Z) : Z :=
  match root, fqdn with
  | Some root, Some fqdn =>
      if property =? ACL_SERVER then get_acl_internal (server root) fqdn
      else if property =? ACL_TEST then get_acl_internal (test root) fqdn
      else if property =? ACL_SCHEDULE then get_acl_internal (schedule root) fqdn
      else 0
  | _, _ => 0
  end.

(** Apply [g] to the first [n] elements. *)
Fixpoint map_first {A} (g : A -> A) (n : nat) (l : list A) : list A :=
  match n, l with S n', x :: l' => g x :: map_first g n' l' | _, _ => l end.

Fixpoint update_acl_subtree (root : acl_node) (value : Z) : acl_node :=
  match root with
  | AclNode l perms set num cs =>
      if negb (set =? 0) && starts_with_dot l then root
      else
        AclNode l (if set =? 0 then value else perms) set num
          ((fix upd (n : nat) (cs : list acl_node) {struct cs} : list acl_node :=
              match cs, n with
              | c :: cs', S n' => update_acl_subtree c value :: upd n' cs'
              | _, _ => cs
              end) (Z.to_nat num) cs)
  end.

(** The loop that looks for a label among the first [n] children. *)
Fixpoint find_child (l : cstr) (n : nat) (cs : list acl_node) : option (nat * acl_node) :=
  match n, cs with
  | S n', c :: cs' =>
      if strcmp_eq (label c) l then Some (O, c)
      else match find_child l n' cs' with Some (i, c') => Some (S i, c') | None => None end
  | _, _ => None
  end.

(** add_acl_internal(); the name gets shorter with every level, so its length
    bounds the depth. *)
Fixpoint add_acl_internal (fuel : nat) (root : acl_node) (fqdn : cstr) (value : Z) : acl_node :=
  match fuel with
  | O => root
  | S fuel' =>
      let '(AclNode rl rp ri rn rc) := root in
      let off := get_label fqdn in
      let l := drop off fqdn in
      match find_child l (Z.to_nat rn) rc with
      | Some (i, c) =>
          let c' :=
            if negb (off =? 0)%nat then add_acl_internal fuel' c (take off fqdn) value
            else
              let '(AclNode cl _ _ cn cc) := c in
              AclNode cl value 1 cn
                (if starts_with_dot l
                 then map_first (fun x => update_acl_subtree x value) (Z.to_nat cn) cc
                 else cc) in
          AclNode rl rp ri rn (<[i := c']> rc)
      | None =>
          let c :=
            if (off =? 0)%nat then new_acl_node l value 1
            else add_acl_internal fuel' (new_acl_node l rp 0) (take off fqdn) value in
          AclNode rl rp ri (u8 (rn + 1)) (take (Z.to_nat rn) rc ++ [c])
      end
  end.

(** The work of add_acl() on one tree. *)
Definition add_rule (subtree : acl_node) (fqdn : cstr) (value : Z) : acl_node :=
  if strcmp_eq fqdn (str "all") then update_acl_subtree subtree value
  else add_acl_internal (S (length fqdn)) subtree fqdn value.

Definition add_acl (root : acl_root) (fqdn : cstr) (property value : Z) : Z * acl_root :=
  if property =? ACL_SERVER then
    (0, {| server := add_rule (server root) fqdn value; test := test root;
           schedule := schedule root |})
  else if property =? ACL_TEST then
    (0, {| server := server root; test := add_rule (test root) fqdn value;
           schedule := schedule root |})
  else if property =? ACL_SCHEDULE then
    (0, {| server := server root; test := test root;
           schedule := add_rule (schedule root) fqdn value |})
  else (-1, root).

(** ** Specification: a rule per name, longest matching suffix *)

(** The labels of a name from the right, each with its leading dot. *)
Fixpoint labels_fuel (fuel : nat) (s : cstr) : list cstr :=
  match fuel with
  | O => [s]
  | S fuel' =>
      let off := get_label s in
      if (off =? 0)%nat then [s] else drop off s :: labels_fuel fuel' (take off s)
  end.
Definition labels (s : cstr) : list cstr := labels_fuel (length s) s.

Example labels_ex : labels (str "www.example.com") = [str ".com"; str ".example"; str "www"].
Proof. reflexivity. Qed.
Example labels_wild : labels (str ".example.com") = [str ".com"; str ".example"].
Proof. reflexivity. Qed.

(** Rules by path, and the permission they give below one of value [eff]. *)
Definition rules : Type := list cstr -> option Z.
Definition below_label (R : rules) (l : cstr) : rules := fun p => R (l :: p).
Definition set_rule (R : rules) (path : list cstr) (v : Z) : rules :=
  fun p => if bool_decide (p = path) then Some v else R p.

Fixpoint walk (R : rules) (eff : Z) (path : list cstr) : Z :=
  match path with
  | [] => eff
  | l :: path' => walk (below_label R l) (default eff (R [l])) path'
  end.

(** An ACL as a specification: the permission of "all" and the other rules. *)
Record acl_spec : Type := { sp_all : Z; sp_rules : rules }.
Definition spec_init : acl_spec := {| sp_all := ACL_NONE; sp_rules := fun _ => None |}.
Definition spec_add (s : acl_spec) (fqdn : cstr) (v : Z) : acl_spec :=
  if strcmp_eq fqdn (str "all") then {| sp_all := v; sp_rules := sp_rules s |}
  else {| sp_all := sp_all s; sp_rules := set_rule (sp_rules s) (labels fqdn) v |}.
(** The non-empty prefixes of a path, shortest first; the rule of the last one
    that has a rule decides. *)
Definition prefixes (path : list cstr) : list (list cstr) :=
  (fun n => take n path) <$> seq 1 (length path).
Definition spec_get (s : acl_spec) (fqdn : cstr) : Z :=
  default (sp_all s) (last (omap (sp_rules s) (prefixes (labels fqdn)))).

(** ** Names and labels *)

Lemma get_label_spec s :
  (get_label s = O /\ labels s = [s]) \/
  (exists a b, s = a ++ dot :: b /\ a <> [] /\ get_label s = length a /\
     drop (get_label s) s = dot :: b /\ take (get_label s) s = a /\
     labels s = (dot :: b) :: labels a).
Proof.
  assert (Hl : forall n m t, (length t <= n)%nat -> (length t <= m)%nat ->
                 labels_fuel n t = labels_fuel m t).
  { induction n as [|n IH]; intros [|m] t Hn Hm; destruct t as [|x t]; try (cbn in *; lia);
      try reflexivity; cbn [labels_fuel].
    destruct (get_label (x :: t) =? 0)%nat eqn:E; [done|]. f_equal. apply Nat.eqb_neq in E.
    unfold get_label in *. destruct (strrchr (x :: t) dot) as [i|] eqn:Ei; [|done].
    apply strrchr_Some in Ei as (a & b & Hs & <- & _).
    rewrite Hs in *. rewrite take_app_length. apply (f_equal length) in Hs.
    rewrite length_app in *. cbn in *. apply IH; lia. }
  unfold labels. destruct (decide (get_label s = O)) as [E|E].
  { left. split; [done|]. destruct s as [|x s]; [done|]. cbn [length labels_fuel]. by rewrite E. }
  right. unfold get_label in E |- *. destruct (strrchr s dot) as [i|] eqn:Ei; [|done].
  pose proof Ei as Ei'. apply strrchr_Some in Ei as (a & b & -> & <- & Hb).
  exists a, b. assert (a <> []) by (by intros ->).
  rewrite drop_app_length, take_app_length. split_and!; [done..|].
  rewrite length_app. cbn [length]. rewrite Nat.add_succ_r. cbn [labels_fuel].
  unfold get_label. rewrite Ei', (proj2 (Nat.eqb_neq _ _) E), drop_app_length, take_app_length.
  f_equal. apply Hl; lia.
Qed.

Lemma walk_no_rules R eff path : (forall p, p <> [] -> R p = None) -> walk R eff path = eff.
Proof.
  revert R. induction path as [|l path IH]; intros R HR; [done|]. cbn [walk].
  rewrite HR by done. apply IH. intros p Hp. by apply HR.
Qed.

Lemma walk_ext R R' eff path : (forall p, R p = R' p) -> walk R eff path = walk R' eff path.
Proof.
  revert R R' eff. induction path as [|l path IH]; intros R R' eff H; [done|]. cbn [walk].
  rewrite H. apply IH. intros p. apply H.
Qed.

(** ** The invariant of a tree

    [acl_inv k R n]: below node [n] the tree holds exactly the rules [R], with at
    most [k] children per node. *)
Definition child_ok (R : rules) (p : Z) (c : acl_node) : Prop :=
  match R [label c] with
  | Some v => isset c = 1 /\ permissions c = v
  | None => isset c = 0 /\ permissions c = p
  end /\
  (children c <> [] -> starts_with_dot (label c) = true) /\
  (forall d, d ∈ children c -> label d <> []).

Inductive acl_inv (k : nat) : rules -> acl_node -> Prop :=
| AclInv R l p i cs :
    (length cs <= k)%nat ->
    NoDup (label <$> cs) ->
    (forall c, c ∈ cs -> child_ok R p c) ->
    (forall c, c ∈ cs -> acl_inv k (below_label R (label c)) c) ->
    (forall l' q, l' ∉ label <$> cs -> R (l' :: q) = None) ->
    acl_inv k R (AclNode l p i (Z.of_nat (length cs)) cs).

Lemma acl_node_ind' (P : acl_node -> Prop) :
  (forall l p i n cs, Forall P cs -> P (AclNode l p i n cs)) -> forall a, P a.
Proof.
  intros H. fix IH 1. intros [l p i n cs]. apply H.
  induction cs as [|c cs IHcs]; constructor; [apply IH | exact IHcs].
Qed.

Lemma acl_inv_ext k R R' n :
  (forall p, p <> [] -> R p = R' p) -> acl_inv k R n -> acl_inv k R' n.
Proof.
  revert R R'. induction n as [l p i m cs IH] using acl_node_ind'. intros R R' HR Hinv.
  inversion Hinv as [? ? ? ? ? Hk Hnd Hok Hrec Hno]; subst. constructor; auto.
  - intros c Hc. specialize (Hok c Hc). unfold child_ok in *. by rewrite <- HR.
  - intros c Hc. rewrite Forall_forall in IH. eapply (IH c Hc); [|by apply Hrec].
    intros q Hq. by apply HR.
  - intros l' q Hl. rewrite <- HR by done. auto.
Qed.

Lemma acl_inv_mono k k' R n : (k <= k')%nat -> acl_inv k R n -> acl_inv k' R n.
Proof.
  intros Hk. revert R. induction n as [l p i m cs IH] using acl_node_ind'. intros R Hinv.
  inversion Hinv; subst. rewrite Forall_forall in IH. constructor; auto with lia.
Qed.

Lemma acl_inv_shape k R n :
  acl_inv k R n ->
  n = AclNode (label n) (permissions n) (isset n) (Z.of_nat (length (children n))) (children n).
Proof. by intros []. Qed.

(** The two faces of the child search. *)
Lemma find_child_Some l cs i c :
  find_child l (length cs) cs = Some (i, c) -> cs !! i = Some c /\ label c = l.
Proof.
  revert i. induction cs as [|d cs IH]; intros i; cbn; [done|]. unfold strcmp_eq.
  case_bool_decide; [naive_solver|].
  destruct (find_child l (length cs) cs) as [[j e]|]; [|done]. intros [= <- <-]. by apply IH.
Qed.
Lemma find_child_None l cs :
  find_child l (length cs) cs = None -> l ∉ label <$> cs.
Proof.
  induction cs as [|d cs IH]; cbn; [intros _ H; inversion H|]. unfold strcmp_eq.
  case_bool_decide; [done|].
  destruct (find_child l (length cs) cs) as [[j e]|]; [done|]. intros _.
  rewrite elem_of_cons. intros [->|]; [done|]. by apply IH.
Qed.

Lemma get_acl_internal_eq l p i cs fqdn :
  get_acl_internal (AclNode l p i (Z.of_nat (length cs)) cs) fqdn =
  match find_child (drop (get_label fqdn) fqdn) (length cs) cs with
  | Some (_, c) => get_acl_internal c (take (get_label fqdn) fqdn)
  | None => p
  end.
Proof.
  destruct cs as [|c0 cs0] eqn:E; [done|]. rewrite <- E. cbn [get_acl_internal].
  rewrite (proj2 (Z.gtb_lt _ _)) by (subst; cbn; lia). rewrite Nat2Z.id.
  clear c0 cs0 E. set (off := get_label fqdn).
  induction cs as [|c cs IH]; cbn [find_child length]; [done|].
  destruct (strcmp_eq (label c) (drop off fqdn)); [done|]. rewrite IH.
  by destruct find_child as [[]|].
Qed.

Lemma get_acl_internal_walk k R n fqdn :
  acl_inv k R n -> get_acl_internal n fqdn = walk R (permissions n) (labels fqdn).
Proof.
  revert R fqdn. induction n as [l p i m cs IH] using acl_node_ind'. intros R fqdn Hinv.
  inversion Hinv as [? ? ? ? ? Hk Hnd Hok Hrec Hno]; subst. rewrite get_acl_internal_eq.
  cbn [permissions]. rewrite Forall_forall in IH.
  destruct (find_child _ _ _) as [[j c]|] eqn:Ef.
  - apply find_child_Some in Ef as [Hj Hlab]. apply list_elem_of_lookup_2 in Hj.
    pose proof (Hok c Hj) as (Hset & Hdot & Hne). pose proof (Hrec c Hj) as Hc.
    assert (Hp : permissions c = default p (R [label c])).
    { destruct (R [label c]); cbn; tauto. }
    destruct (get_label_spec fqdn) as [[E ->]|(a & b & -> & Ha & E & Ed & Et & ->)].
    + rewrite E in *. rewrite drop_0 in Hlab. cbn [walk take]. rewrite <- Hlab, <- Hp.
      rewrite (acl_inv_shape _ _ _ Hc), get_acl_internal_eq. cbn [permissions].
      destruct (find_child _ _ _) as [[j' d]|] eqn:Ef'; [|done]. exfalso.
      apply find_child_Some in Ef' as [Hd Hld]. apply list_elem_of_lookup_2 in Hd.
      apply (Hne d Hd). rewrite Hld. reflexivity.
    + rewrite Ed in Hlab. rewrite Et. cbn [walk]. rewrite <- Hlab, <- Hp. by apply (IH c Hj).
  - apply find_child_None in Ef.
    assert (Hw : forall q, walk R p (drop (get_label fqdn) fqdn :: q) = p).
    { intros q. cbn [walk]. rewrite Hno by done. apply walk_no_rules. intros r _. by apply Hno. }
    destruct (get_label_spec fqdn) as [[E ->]|(a & b & _ & _ & _ & <- & _ & ->)]; [|done].
    rewrite E, drop_0 in Hw. done.
Qed.

(** ** Adding a rule *)

Lemma map_first_all {A} (g : A -> A) (l : list A) : map_first g (length l) l = g <$> l.
Proof. induction l as [|x l IH]; cbn; by rewrite ?IH. Qed.

Lemma update_acl_subtree_eq l p i cs v :
  update_acl_subtree (AclNode l p i (Z.of_nat (length cs)) cs) v =
  if negb (i =? 0) && starts_with_dot l then AclNode l p i (Z.of_nat (length cs)) cs
  else AclNode l (if i =? 0 then v else p) i (Z.of_nat (length cs))
         ((fun c => update_acl_subtree c v) <$> cs).
Proof.
  cbn [update_acl_subtree]. destruct (negb (i =? 0) && starts_with_dot l); [done|]. f_equal.
  rewrite Nat2Z.id. induction cs as [|c cs IH]; [done|]. cbn. by f_equal.
Qed.

Lemma update_acl_subtree_label n v : label (update_acl_subtree n v) = label n.
Proof. destruct n. cbn. by case_match. Qed.

Lemma update_labels (cs : list acl_node) v : label <$> ((fun c => update_acl_subtree c v) <$> cs) = label <$> cs.
Proof.
  rewrite <- list_fmap_compose. apply list_fmap_ext. intros i c _. cbn.
  apply update_acl_subtree_label.
Qed.

(** A new permission [v] for a node goes down to the nodes without a rule. *)
Lemma update_child k R p v c :
  child_ok R p c -> acl_inv k (below_label R (label c)) c ->
  child_ok R v (update_acl_subtree c v) /\
  acl_inv k (below_label R (label c)) (update_acl_subtree c v).
Proof.
  revert R p. induction c as [l pc i m cs IH] using acl_node_ind'. intros R p Hok Hinv.
  inversion Hinv as [? ? ? ? ? Hk Hnd Hoks Hrec Hno]; subst.
  rewrite update_acl_subtree_eq. unfold child_ok in Hok |- *.
  cbn [label isset permissions children] in *. destruct Hok as (Hset & Hdot & Hne).
  destruct (R [l]) as [w|] eqn:HR.
  - destruct Hset as [-> ->]. cbn [negb Z.eqb andb].
    destruct (starts_with_dot l) eqn:El.
    + cbn [label isset permissions children]. rewrite HR. tauto.
    + assert (cs = []) as -> by (destruct cs; [done|]; discriminate (Hdot ltac:(done))).
      cbn [label isset permissions children fmap list_fmap]. rewrite HR. tauto.
  - destruct Hset as [-> ->]. cbn [negb Z.eqb andb label isset permissions children]. rewrite HR.
    rewrite Forall_forall in IH. split.
    + split_and!; [done..| |].
      * intros Hcs. apply Hdot. by destruct cs.
      * intros d Hd. apply list_elem_of_fmap in Hd as (d0 & -> & Hd).
        rewrite update_acl_subtree_label. auto.
    + rewrite <- (length_fmap (fun c => update_acl_subtree c v) cs).
      constructor; rewrite ?update_labels, ?length_fmap; auto.
      * intros d Hd. apply list_elem_of_fmap in Hd as (d0 & -> & Hd).
        eapply (IH d0 Hd); [by apply Hoks | by apply Hrec].
      * intros d Hd. apply list_elem_of_fmap in Hd as (d0 & -> & Hd).
        rewrite update_acl_subtree_label.
        eapply (IH d0 Hd); [by apply Hoks | by apply Hrec].
Qed.

Lemma update_children k R l p i cs l' v i' :
  acl_inv k R (AclNode l p i (Z.of_nat (length cs)) cs) ->
  acl_inv k R (AclNode l' v i' (Z.of_nat (length cs)) ((fun c => update_acl_subtree c v) <$> cs)).
Proof.
  intros Hinv. inversion Hinv as [? ? ? ? ? Hk Hnd Hoks Hrec Hno]; subst.
  rewrite <- (length_fmap (fun c => update_acl_subtree c v) cs).
  constructor; rewrite ?update_labels, ?length_fmap; auto;
    intros d Hd; apply list_elem_of_fmap in Hd as (d0 & -> & Hd);
    destruct (update_child k R p v d0); rewrite ?update_acl_subtree_label; auto.
Qed.

(** Replacing child [i], or adding one, under a new rule below its label. *)
Lemma child_ok_ext R R' p c : R [label c] = R' [label c] -> child_ok R p c -> child_ok R' p c.
Proof. unfold child_ok. by intros ->. Qed.

Lemma set_rule_other R l path v l' q : l' <> l -> set_rule R (l :: path) v (l' :: q) = R (l' :: q).
Proof. intros. unfold set_rule. rewrite bool_decide_eq_false_2; congruence. Qed.

Lemma set_rule_below R l path v q :
  path <> [] -> below_label (set_rule R (l :: path) v) l q = set_rule (below_label R l) path v q.
Proof.
  intros _. unfold below_label, set_rule. destruct (decide (q = path)) as [->|].
  - by rewrite !bool_decide_eq_true_2.
  - rewrite !bool_decide_eq_false_2; congruence.
Qed.

Lemma replace_child k R l p i cs j c c' path v :
  acl_inv k R (AclNode l p i (Z.of_nat (length cs)) cs) ->
  cs !! j = Some c -> label c' = label c ->
  child_ok (set_rule R (label c :: path) v) p c' ->
  acl_inv k (below_label (set_rule R (label c :: path) v) (label c)) c' ->
  acl_inv k (set_rule R (label c :: path) v)
    (AclNode l p i (Z.of_nat (length cs)) (<[j := c']> cs)).
Proof.
  intros Hinv Hj Hl Hok' Hinv'. inversion Hinv as [? ? ? ? ? Hk Hnd Hoks Hrec Hno]; subst.
  assert (Hlab : label <$> <[j := c']> cs = label <$> cs).
  { rewrite list_fmap_insert, Hl. apply list_insert_id. by rewrite list_lookup_fmap, Hj. }
  assert (Hcase : forall d, d ∈ <[j := c']> cs -> d = c' \/ (d ∈ cs /\ label d <> label c)).
  { intros d Hd. apply list_elem_of_lookup_1 in Hd as [m Hm].
    destruct (decide (m = j)) as [->|Hmj].
    - rewrite list_lookup_insert_eq in Hm by eauto using lookup_lt_Some. left. congruence.
    - rewrite list_lookup_insert_ne in Hm by done. right.
      split; [eauto using list_elem_of_lookup_2|]. intros E. apply Hmj.
      eapply (NoDup_lookup (label <$> cs)); [done|..]; rewrite list_lookup_fmap;
        [by rewrite Hm | rewrite Hj; cbn; congruence]. }
  rewrite <- (length_insert cs j c'). constructor; rewrite ?Hlab, ?length_insert; auto.
  - intros d [->|[Hd Hne]]%Hcase; [done|].
    eapply child_ok_ext; [|by apply Hoks]. by rewrite set_rule_other.
  - intros d [->|[Hd Hne]]%Hcase; [by rewrite Hl|].
    eapply acl_inv_ext; [|by apply Hrec]. intros q _. unfold below_label. by rewrite set_rule_other.
  - intros l' q Hl'. rewrite set_rule_other; [by apply Hno|]. intros ->. apply Hl'.
    apply list_elem_of_fmap. eauto using list_elem_of_lookup_2.
Qed.

Lemma append_child k R l p i cs c' path v :
  acl_inv k R (AclNode l p i (Z.of_nat (length cs)) cs) ->
  (S (length cs) <= k)%nat -> label c' ∉ label <$> cs ->
  child_ok (set_rule R (label c' :: path) v) p c' ->
  acl_inv k (below_label (set_rule R (label c' :: path) v) (label c')) c' ->
  acl_inv k (set_rule R (label c' :: path) v)
    (AclNode l p i (Z.of_nat (length (cs ++ [c']))) (cs ++ [c'])).
Proof.
  intros Hinv Hlen Hnew Hok' Hinv'. inversion Hinv as [? ? ? ? ? Hk Hnd Hoks Hrec Hno]; subst.
  assert (Hne : forall d, d ∈ cs -> label d <> label c').
  { intros d Hd E. apply Hnew. rewrite <- E. by apply list_elem_of_fmap_2. }
  constructor.
  - rewrite length_app. cbn. lia.
  - rewrite fmap_app. apply NoDup_app. split_and!; [done| |apply NoDup_singleton].
    intros x Hx. cbn. rewrite list_elem_of_singleton. intros ->. done.
  - intros d [Hd|Hd]%elem_of_app.
    + eapply child_ok_ext; [|by apply Hoks]. by rewrite set_rule_other by auto.
    + apply list_elem_of_singleton in Hd as ->. done.
  - intros d [Hd|Hd]%elem_of_app.
    + eapply acl_inv_ext; [|by apply Hrec]. intros q _. unfold below_label.
      by rewrite set_rule_other by auto.
    + apply list_elem_of_singleton in Hd as ->. done.
  - intros l' q Hl'. rewrite fmap_app, elem_of_app in Hl'.
    rewrite set_rule_other; [apply Hno; tauto|]. intros ->. apply Hl'. right.
    cbn. by apply list_elem_of_singleton.
Qed.

Lemma labels_ne s : labels s <> [].
Proof. by destruct (get_label_spec s) as [[_ ->]|(a & b & _ & _ & _ & _ & _ & ->)]. Qed.

Lemma last_label_ne s : s <> [] -> drop (get_label s) s <> [].
Proof.
  intros Hs. by destruct (get_label_spec s) as [[-> _]|(a & b & _ & _ & _ & -> & _)].
Qed.

(** add_acl_internal() leaves the node itself alone. *)
Lemma add_acl_internal_head fuel n fqdn v :
  label (add_acl_internal fuel n fqdn v) = label n /\
  permissions (add_acl_internal fuel n fqdn v) = permissions n /\
  isset (add_acl_internal fuel n fqdn v) = isset n.
Proof.
  destruct fuel; [done|]. destruct n. cbn -[new_acl_node]. by destruct find_child as [[]|].
Qed.

Lemma add_acl_internal_children fuel k R n fqdn v d :
  acl_inv k R n -> d ∈ children (add_acl_internal fuel n fqdn v) ->
  (exists c, c ∈ children n /\ label d = label c) \/ label d = drop (get_label fqdn) fqdn.
Proof.
  intros Hinv. destruct fuel as [|fuel]; [by eauto|].
  destruct Hinv as [R l p i cs _ _ _ _ _]. cbn [add_acl_internal children]. rewrite Nat2Z.id.
  destruct (find_child _ _ _) as [[j c]|] eqn:Ef; cbn [children].
  - apply find_child_Some in Ef as [Hj Hl]. intros Hd. apply list_elem_of_lookup_1 in Hd as [m Hm].
    destruct (decide (m = j)) as [->|Hmj].
    + rewrite list_lookup_insert_eq in Hm by eauto using lookup_lt_Some. right.
      injection Hm as <-. rewrite <- Hl. destruct (negb _).
      * apply (add_acl_internal_head fuel).
      * by destruct c.
    + rewrite list_lookup_insert_ne in Hm by done. left. eauto using list_elem_of_lookup_2.
  - intros [Hd|Hd]%elem_of_app.
    + left. rewrite take_ge in Hd by done. eauto.
    + right. apply list_elem_of_singleton in Hd as ->. destruct (_ =? _)%nat; [done|].
      rewrite (proj1 (add_acl_internal_head _ _ _ _)). done.
Qed.

Lemma new_acl_node_inv k R l p i :
  (forall q, q <> [] -> R q = None) -> acl_inv k R (new_acl_node l p i).
Proof.
  intros HR. apply (AclInv k R l p i []); try (intros c Hc; by inversion Hc).
  - cbn. lia.
  - constructor.
  - intros l' q _. by apply HR.
Qed.

(** A rule that ends at child [c]: the child takes the value, and a wildcard
    hands it to the part of its subtree without rules. *)
Lemma set_child k R p c v :
  child_ok R p c -> acl_inv k (below_label R (label c)) c ->
  let c' := AclNode (label c) v 1 (num_children c)
      (if starts_with_dot (label c)
       then map_first (fun x => update_acl_subtree x v) (Z.to_nat (num_children c)) (children c)
       else children c) in
  child_ok (set_rule R [label c] v) p c' /\
  acl_inv k (below_label (set_rule R [label c] v) (label c)) c'.
Proof.
  intros (_ & Hdot & Hne) Hinv. rewrite (acl_inv_shape _ _ _ Hinv). cbn [label num_children children].
  rewrite Nat2Z.id, map_first_all. rewrite (acl_inv_shape _ _ _ Hinv) in Hinv. cbn [label] in Hinv.
  set (cs := children c) in *. set (l := label c) in *.
  assert (Hext : forall q, q <> [] -> below_label R l q = below_label (set_rule R [l] v) l q).
  { intros q Hq. unfold below_label, set_rule. rewrite bool_decide_eq_false_2; congruence. }
  destruct (starts_with_dot l) eqn:El.
  - split.
    + unfold child_ok. cbn [label isset permissions children].
      unfold set_rule at 1. rewrite bool_decide_eq_true_2 by done. split_and!; [done..|].
      intros d Hd. apply list_elem_of_fmap in Hd as (d0 & -> & Hd).
      rewrite update_acl_subtree_label. auto.
    + eapply acl_inv_ext; [exact Hext|]. eapply update_children. exact Hinv.
  - assert (cs = []) as Hcs by (destruct cs; [done|]; discriminate (Hdot ltac:(done))).
    rewrite Hcs in *. split.
    + unfold child_ok. cbn [label isset permissions children].
      unfold set_rule at 1. rewrite bool_decide_eq_true_2 by done. split_and!; [done..|].
      intros d Hd. by inversion Hd.
    + eapply acl_inv_ext; [exact Hext|].
      exact (update_children k _ l _ _ [] l v 1 Hinv).
Qed.

(** A rule that goes on below child [c]. *)
Lemma descend_child k R p c c' a v :
  child_ok R p c -> label c' = label c -> permissions c' = permissions c -> isset c' = isset c ->
  starts_with_dot (label c) = true -> (forall d, d ∈ children c' -> label d <> []) ->
  acl_inv k (set_rule (below_label R (label c)) (labels a) v) c' ->
  child_ok (set_rule R (label c :: labels a) v) p c' /\
  acl_inv k (below_label (set_rule R (label c :: labels a) v) (label c)) c'.
Proof.
  intros (Hset & _ & _) Hl Hp Hi Hdot Hne Hinv. split.
  - unfold child_ok. rewrite Hl, Hp, Hi. split_and!; [|done..].
    unfold set_rule. rewrite bool_decide_eq_false_2; [done|]. intros [= E]. by apply (labels_ne a).
  - eapply acl_inv_ext; [|exact Hinv]. intros q _. symmetry. apply set_rule_below, labels_ne.
Qed.

(** A new rule that ends at a new child. *)
Lemma append_leaf k R l p i cs fqdn v :
  acl_inv k R (AclNode l p i (Z.of_nat (length cs)) cs) -> (S (length cs) <= k)%nat ->
  fqdn ∉ label <$> cs -> (forall q, R (fqdn :: q) = None) ->
  acl_inv k (set_rule R [fqdn] v)
    (AclNode l p i (Z.of_nat (length (cs ++ [new_acl_node fqdn v 1]))) (cs ++ [new_acl_node fqdn v 1])).
Proof.
  intros Hinv Hlen Hnew Hno. apply (append_child k R l p i cs (new_acl_node fqdn v 1) []); [done|lia|done|..].
  - unfold child_ok, new_acl_node. cbn [label isset permissions children].
    unfold set_rule at 1. rewrite bool_decide_eq_true_2 by done. split_and!; [done..|].
    intros d Hd. by inversion Hd.
  - apply new_acl_node_inv. intros q Hq. unfold below_label, set_rule. cbn [label new_acl_node].
    rewrite bool_decide_eq_false_2 by congruence. by apply Hno.
Qed.

Lemma add_acl_internal_inv k fuel R n fqdn v :
  acl_inv k R n -> (k < 255)%nat -> (length fqdn < fuel)%nat ->
  acl_inv (S k) (set_rule R (labels fqdn) v) (add_acl_internal fuel n fqdn v).
Proof.
  revert R n fqdn. induction fuel as [|fuel IH]; intros R n fqdn Hinv Hk Hf; [lia|].
  pose proof (acl_inv_mono k (S k) R n ltac:(lia) Hinv) as HinvS.
  destruct Hinv as [R l p i cs Hlen Hnd Hoks Hrec Hno]. cbn [add_acl_internal]. rewrite Nat2Z.id.
  assert (Hdesc : forall c a b, fqdn = a ++ dot :: b -> a <> [] -> label c = dot :: b ->
     child_ok R p c -> acl_inv k (below_label R (label c)) c ->
     child_ok (set_rule R (label c :: labels a) v) p (add_acl_internal fuel c a v) /\
     acl_inv (S k) (below_label (set_rule R (label c :: labels a) v) (label c))
       (add_acl_internal fuel c a v)).
  { intros c a b Hfq Ha Hl Hok Hc. pose proof (add_acl_internal_head fuel c a v) as (? & ? & ?).
    apply descend_child; try done; [by rewrite Hl| |].
    - intros d Hd. destruct (add_acl_internal_children _ _ _ _ _ _ _ Hc Hd) as [(e & He & ->)| ->].
      + by apply Hok.
      + by apply last_label_ne.
    - apply IH; [done..|]. subst fqdn. rewrite length_app in Hf. cbn in Hf. lia. }
  destruct (find_child _ _ _) as [[j c]|] eqn:Ef.
  - apply find_child_Some in Ef as [Hj Hl].
    pose proof (Hoks c (list_elem_of_lookup_2 _ _ _ Hj)) as Hok.
    pose proof (Hrec c (list_elem_of_lookup_2 _ _ _ Hj)) as Hc.
    destruct (get_label_spec fqdn) as [[E ->]|(a & b & Hfq & Ha & E & Ed & Et & ->)].
    + rewrite E, drop_0 in *. cbn [Nat.eqb negb]. rewrite <- Hl.
      destruct (set_child (S k) R p c v Hok (acl_inv_mono k (S k) _ _ ltac:(lia) Hc)) as [Hok' Hc'].
      destruct c as [cl cp ci cn cc]. by apply (replace_child _ R l p i cs j (AclNode cl cp ci cn cc)).
    + rewrite Et, Ed, E in *. rewrite (proj2 (Nat.eqb_neq _ _)) by (by destruct a).
      cbn [negb]. destruct (Hdesc c a b Hfq Ha Hl Hok Hc) as [Hok' Hc']. rewrite <- Hl.
      apply replace_child with (c := c); try done. apply add_acl_internal_head.
  - apply find_child_None in Ef. rewrite (take_ge cs), u8_id by lia.
    replace (Z.of_nat (length cs) + 1) with (Z.of_nat (length cs + 1)) by lia.
    destruct (get_label_spec fqdn) as [[E ->]|(a & b & Hfq & Ha & E & Ed & Et & ->)].
    + rewrite E, drop_0 in *. cbn [Nat.eqb].
      replace (length cs + 1)%nat with (length (cs ++ [new_acl_node fqdn v 1]))
        by (by rewrite length_app).
      apply append_leaf; [done|lia|done|]. intros q. by apply Hno.
    + rewrite Et, Ed, E in *. rewrite (proj2 (Nat.eqb_neq _ _)) by (by destruct a).
      set (c := new_acl_node (dot :: b) p 0).
      destruct (Hdesc c a b Hfq Ha eq_refl) as [Hok' Hc'].
      * unfold child_ok, c, new_acl_node. cbn [label isset permissions children].
        rewrite Hno by done. split_and!; try done. intros d Hd. by inversion Hd.
      * apply new_acl_node_inv. intros q Hq. by apply Hno.
      * pose proof (proj1 (add_acl_internal_head fuel c a v)) as Hlab.
        replace (length cs + 1)%nat with (length (cs ++ [add_acl_internal fuel c a v]))
          by (by rewrite length_app).
        change (dot :: b) with (label c) in Ef |- *. rewrite <- Hlab in Ef, Hok', Hc' |- *.
        apply append_child; [done|lia|done..].
Qed.

(** ** The specification and the code *)

Lemma prefixes_cons l path : prefixes (l :: path) = [l] :: (cons l <$> prefixes path).
Proof.
  unfold prefixes. cbn [length seq fmap list_fmap take]. f_equal.
  rewrite <- fmap_S_seq, <- !list_fmap_compose. done.
Qed.

Lemma walk_longest R eff path : walk R eff path = default eff (last (omap R (prefixes path))).
Proof.
  revert R eff. induction path as [|l path IH]; intros R eff; [done|].
  rewrite prefixes_cons. cbn [walk]. rewrite IH.
  assert (Hb : omap R (cons l <$> prefixes path) = omap (below_label R l) (prefixes path)).
  { clear IH. induction (prefixes path) as [|q qs IHq]; [done|]. cbn [fmap list_fmap omap list_omap].
    unfold below_label at 1. by rewrite IHq. }
  cbn [omap list_omap]. rewrite Hb. destruct (R [l]) as [v|]; [|done].
  rewrite last_cons. by destruct (last _).
Qed.

(** A tree that holds the rules of [s], at most [k] to a node. *)
Definition implements (k : nat) (s : acl_spec) (n : acl_node) : Prop :=
  acl_inv k (sp_rules s) n /\ permissions n = sp_all s /\ isset n = 0.

Lemma add_rule_implements k s n fqdn v :
  implements k s n -> (k < 255)%nat -> implements (S k) (spec_add s fqdn v) (add_rule n fqdn v).
Proof.
  intros (Hinv & Hp & Hi) Hk. unfold spec_add, add_rule. destruct (strcmp_eq fqdn (str "all")).
  - destruct Hinv as [R l p i cs ? ? ? ? ?]. cbn in Hp, Hi. subst. rewrite update_acl_subtree_eq.
    cbn. split; [|done]. eapply acl_inv_mono with (k := k); [lia|].
    eapply (update_children k R l (sp_all s) 0 cs). by constructor.
  - pose proof (add_acl_internal_head (S (length fqdn)) n fqdn v) as (_ & Hp' & Hi').
    split_and!; cbn [sp_rules sp_all]; [|congruence..]. apply add_acl_internal_inv; auto with lia.
Qed.

Lemma implements_get k s n fqdn :
  implements k s n -> get_acl_internal n fqdn = spec_get s fqdn.
Proof.
  intros (Hinv & Hp & _). rewrite (get_acl_internal_walk _ _ _ _ Hinv), walk_longest, Hp. done.
Qed.

(** One call of add_acl(). *)
Record acl_call : Type := { ac_fqdn : cstr; ac_property : Z; ac_value : Z }.
Definition do_call (root : acl_root) (c : acl_call) : acl_root :=
  snd (add_acl root (ac_fqdn c) (ac_property c) (ac_value c)).
Definition spec_call (property : Z) (s : acl_spec) (c : acl_call) : acl_spec :=
  if ac_property c =? property then spec_add s (ac_fqdn c) (ac_value c) else s.

Definition implements_root (k : nat) (s : Z -> acl_spec) (r : acl_root) : Prop :=
  implements k (s ACL_SERVER) (server r) /\ implements k (s ACL_TEST) (test r) /\
  implements k (s ACL_SCHEDULE) (schedule r).

Lemma implements_S k s n : implements k s n -> implements (S k) s n.
Proof. intros (? & ? & ?). split_and!; [eapply acl_inv_mono with (k := k); auto|done..]. Qed.

Lemma do_calls_implements cs : (length cs <= 255)%nat ->
  implements_root (length cs) (fun q => foldl (spec_call q) spec_init cs)
    (foldl do_call initialise_acl cs).
Proof.
  induction cs as [|c cs IH] using rev_ind; intros Hlen.
  { unfold implements_root, implements. cbn -[new_acl_node].
    split_and!; try done; by apply new_acl_node_inv. }
  rewrite length_app in *. cbn in Hlen. rewrite Nat.add_1_r, foldl_snoc.
  destruct IH as (Hs & Ht & Hc); [lia|].
  assert (Hk : (length cs < 255)%nat) by lia.
  unfold implements_root. rewrite !foldl_snoc.
  assert (Hcall : forall q, spec_call q (foldl (spec_call q) spec_init cs) c =
    if ac_property c =? q then spec_add (foldl (spec_call q) spec_init cs) (ac_fqdn c) (ac_value c)
    else foldl (spec_call q) spec_init cs) by done.
  rewrite !Hcall. unfold do_call at 1 3 5, add_acl. clear Hcall.
  destruct (Z.eqb_spec (ac_property c) ACL_SERVER) as [E|]; [rewrite ?E|
    destruct (Z.eqb_spec (ac_property c) ACL_TEST) as [E|]; [rewrite ?E|
      destruct (Z.eqb_spec (ac_property c) ACL_SCHEDULE) as [E|]; [rewrite ?E|]]];
    cbn [server test schedule snd Z.eqb Pos.eqb ACL_SERVER ACL_TEST ACL_SCHEDULE];
    split_and!; auto using implements_S, add_rule_implements.
Qed.

(** The tree answers as the rule table does. *)
Lemma get_acl_rules (calls : list acl_call) (fqdn : cstr) (property : Z) :
  (length calls <= 255)%nat ->
  get_acl (Some (foldl do_call initialise_acl calls)) (Some fqdn) property =
  (if bool_decide (property ∈ [ACL_SERVER; ACL_TEST; ACL_SCHEDULE])
   then spec_get (foldl (spec_call property) spec_init calls) fqdn else 0).
Proof.
  intros Hlen. destruct (do_calls_implements calls Hlen) as (Hs & Ht & Hc). unfold get_acl.
  destruct (Z.eqb_spec property ACL_SERVER) as [->|]; [by apply (implements_get _ _ _ _ Hs)|].
  destruct (Z.eqb_spec property ACL_TEST) as [->|]; [by apply (implements_get _ _ _ _ Ht)|].
  destruct (Z.eqb_spec property ACL_SCHEDULE) as [->|]; [by apply (implements_get _ _ _ _ Hc)|].
  rewrite bool_decide_eq_false_2; [done|]. rewrite !elem_of_cons, elem_of_nil. tauto.
Qed.

(** C10: the access control trees implement a rule table.  After any sequence of
    up to 255 add_acl() calls, get_acl() for a name and property returns the
    value of the most specific matching rule of that property (the longest
    suffix of the name with a rule, the last value given for that rule),
    the value of "all" where none matches, and 0 for an unknown property. *)
Theorem acl_refines_rules (calls : list acl_call) (fqdn : cstr) (property : Z) :
  (length calls <= 255)%nat ->
  get_acl (Some (foldl do_call initialise_acl calls)) (Some fqdn) property =
  (if bool_decide (property ∈ [ACL_SERVER; ACL_TEST; ACL_SCHEDULE])
   then spec_get (foldl (spec_call property) spec_init calls) fqdn else 0).
Proof. apply get_acl_rules. Qed.

Definition sample_calls : list acl_call :=
  [ {| ac_fqdn := str "www.example.com"; ac_property := ACL_TEST; ac_value := 1 |};
    {| ac_fqdn := str "all"; ac_property := ACL_TEST; ac_value := 0 |};
    {| ac_fqdn := str ".example.com"; ac_property := ACL_TEST; ac_value := 1 |};
    {| ac_fqdn := str "www.example.com"; ac_property := ACL_TEST; ac_value := 0 |};
    {| ac_fqdn := str ".com"; ac_property := ACL_TEST; ac_value := 0 |} ].

Lemma acl_refines_rules_witness :
  (length sample_calls <= 255)%nat /\
  get_acl (Some (foldl do_call initialise_acl sample_calls)) (Some (str "ns.example.com")) ACL_TEST
  = 1 /\
  get_acl (Some (foldl do_call initialise_acl sample_calls)) (Some (str "www.example.com")) ACL_TEST
  = 0.
Proof.
  split_and!; [vm_compute; lia|..]; rewrite acl_refines_rules; try (vm_compute; lia); reflexivity.
Defined.

(** The child counter of a node has 8 bits.  A node with 255 children that
    is given one more forgets all of them: the counter wraps to zero and
    every name below the node gets the permission of the node itself. *)
Theorem acl_256th_child_hides_rules (n : acl_node) (fqdn : cstr) (v : Z) (name : cstr) :
  num_children n = 255 ->
  find_child (drop (get_label fqdn) fqdn) 255 (children n) = None ->
  get_acl_internal (add_acl_internal (S (length fqdn)) n fqdn v) name = permissions n.
Proof.
  destruct n as [l p i m cs]. cbn [num_children children permissions]. intros -> Hf.
  cbn [add_acl_internal]. change (Z.to_nat 255) with 255%nat. rewrite Hf. done.
Qed.

(** 255 hosts allowed to run tests, then one more. *)
Definition host (i : nat) : cstr :=
  [ascii_of_nat (97 + i / 16); ascii_of_nat (97 + i mod 16)].
Definition full_node : acl_node :=
  foldl (fun n i => add_rule n (host i) 1) (new_acl_node (str "all") 0 0) (seq 0 255).

Lemma acl_256th_child_hides_rules_witness :
  get_acl_internal full_node (host 7) = 1 /\ permissions full_node = 0 /\
  get_acl_internal (add_acl_internal (S (length (host 255))) full_node (host 255) 1) (host 7)
  = permissions full_node.
Proof.
  split_and!; [vm_compute; reflexivity..|].
  apply (acl_256th_child_hides_rules full_node (host 255) 1 (host 7)); vm_compute; reflexivity.
Defined.
