(* ===== verification/Dscp.v ===== *)
(** Differentiated services code points (src/common/dscp.c): names, and the
    parser of the -Q option shared by all tests. *)
From S2P Require Import Prelude CLib.
#[local] Open Scope Z_scope.

Definition dscp_to_str (value : Z) : cstr :=
  str match value with
  | 0 => "default"
  | 8 => "cs1"
  | 16 => "cs2"
  | 24 => "cs3"
  | 32 => "cs4"
  | 40 => "cs5"
  | 48 => "cs6"
  | 56 => "cs7"
  | 10 => "af11"
  | 12 => "af12"
  | 14 => "af13"
  | 18 => "af21"
  | 20 => "af22"
  | 22 => "af23"
  | 26 => "af31"
  | 28 => "af32"
  | 30 => "af33"
  | 34 => "af41"
  | 36 => "af42"
  | 38 => "af43"
  | 44 => "va"
  | 46 => "ef"
  | _ => "non-standard"
  end.

(** [strncasecmp(value, name, strlen(name)) == 0] *)
Definition named (value : cstr) (name : string) : bool :=
  strncasecmp_eq value (str name) (length (str name)).

(** The condition under which a conversion is refused. *)
Definition bad_conversion (r : Z * cstr * bool) : bool :=
  let '(v, endptr, erange) := r in
  erange || negb (bool_decide (endptr = [])) || (i32 v >=? 64).

(** parse_dscp_value(): the return value and [*result]. *)
Definition parse_dscp_value (value : cstr) : Z * Z :=
  if named value "cs0" || named value "none" || named value "default" then (0, 0)
  else if named value "cs1" then (0, 8)
  else if named value "cs2" then (0, 16)
  else if named value "cs3" then (0, 24)
  else if named value "cs4" then (0, 32)
  else if named value "cs5" then (0, 40)
  else if named value "cs6" then (0, 48)
  else if named value "cs7" then (0, 56)
  else if named value "af11" then (0, 10)
  else if named value "af12" then (0, 12)
  else if named value "af13" then (0, 14)
  else if named value "af21" then (0, 18)
  else if named value "af22" then (0, 20)
  else if named value "af23" then (0, 22)
  else if named value "af31" then (0, 26)
  else if named value "af32" then (0, 28)
  else if named value "af33" then (0, 30)
  else if named value "af41" then (0, 34)
  else if named value "af42" then (0, 36)
  else if named value "af43" then (0, 38)
  else if named value "va" then (0, 44)
  else if named value "ef" then (0, 46)
  else
    let binary := strtol value 2 in
    if bad_conversion binary then
      let other := strtol value 0 in
      if bad_conversion other then (-1, 0)
      else (0, u8 (i32 (fst (fst other))))
    else (0, u8 (i32 (fst (fst binary)))).

(** ** Printing and parsing *)

Definition nibble (n : Z) : ascii :=
  ascii_of_N (Z.to_N (if n <? 10 then n + 48 else n + 87)).
Definition binary6 (v : Z) : cstr :=
  (fun i => nibble (Z.land (Z.shiftr v i) 1)) <$> [5; 4; 3; 2; 1; 0].
Definition hex2 (v : Z) : cstr := str "0x" ++ [nibble (v / 16); nibble (v mod 16)].
Definition octal (v : Z) : cstr := str "0" ++ [nibble (v / 8); nibble (v mod 8)].
Definition decimal (v : Z) : cstr :=
  if v <? 10 then [nibble v] else [nibble (v / 10); nibble (v mod 10)].
Lemma code_point_cases (P : Z -> Prop) : Forall P (seqZ 0 64) -> forall v, 0 <= v < 64 -> P v.
Proof. intros H v Hv. rewrite Forall_forall in H. apply H, elem_of_seqZ. lia. Qed.

(** Names of code points round-trip.  The name dscp_to_str() prints for a
    standard code point is read back as that code point in either case of
    letters, whatever follows the name in the string. *)
Theorem dscp_name_roundtrip (v : Z) (upper : bool) (rest : cstr) :
  0 <= v < 64 -> dscp_to_str v <> str "non-standard" ->
  let toupper c := if (97 <=? ch c) && (ch c <=? 122) then ascii_of_N (Z.to_N (ch c - 32)) else c in
  parse_dscp_value ((if upper then toupper <$> dscp_to_str v else dscp_to_str v) ++ rest) = (0, v).
Proof.
  intros Hv. pattern v. revert v Hv. apply code_point_cases. change (seqZ 0 64) with
    ltac:(let l := eval vm_compute in (seqZ 0 64) in exact l).
  repeat (constructor; [first [ intros H; by contradict H; reflexivity
                              | intros _; destruct upper; vm_compute; reflexivity ]|]).
  constructor.
Qed.

Lemma dscp_name_roundtrip_witness :
  dscp_to_str 46 = str "ef" /\ parse_dscp_value (str "EF ") = (0, 46).
Proof.
  split; [reflexivity|].
  exact (dscp_name_roundtrip 46 true (str " ") ltac:(lia) ltac:(vm_compute; discriminate)).
Defined.

(** Numeric code points.  Each of the 64 values is read back from its
    six-digit binary and its hexadecimal form; from its octal and decimal form
    too, except that 010, 011, 10 and 11, which look like binary, are read as 2
    and 3. *)
Theorem dscp_number_roundtrip (v : Z) :
  0 <= v < 64 ->
  parse_dscp_value (binary6 v) = (0, v) /\
  parse_dscp_value (hex2 v) = (0, v) /\
  parse_dscp_value (octal v) = (0, if bool_decide (v ∈ [8; 9]) then v - 6 else v) /\
  parse_dscp_value (decimal v) = (0, if bool_decide (v ∈ [10; 11]) then v - 8 else v).
Proof.
  revert v. apply code_point_cases. change (seqZ 0 64) with
    ltac:(let l := eval vm_compute in (seqZ 0 64) in exact l).
  repeat (constructor; [split_and!; vm_compute; reflexivity|]). constructor.
Qed.

Lemma dscp_number_roundtrip_witness :
  decimal 46 = str "46" /\ parse_dscp_value (decimal 46) = (0, 46) /\
  decimal 10 = str "10" /\ parse_dscp_value (decimal 10) = (0, 2).
Proof.
  split_and!; [reflexivity| |reflexivity|].
  - apply (dscp_number_roundtrip 46). lia.
  - apply (dscp_number_roundtrip 10). lia.
Defined.

(** ** Range of an accepted value *)

Lemma digit_val_nonneg c d : digit_val c = Some d -> 0 <= d.
Proof.
  unfold digit_val. intros H.
  repeat match type of H with (if ?b then _ else _) = _ => destruct b eqn:? end;
    try discriminate; injection H as <-; rewrite andb_true_iff in *;
    rewrite !Z.leb_le in *; lia.
Qed.

Lemma digits_bounds b s acc :
  1 < b -> 0 <= acc ->
  0 <= fst (digits b acc s) < (acc + 1) * b ^ Z.of_nat (length s).
Proof.
  intros Hb. revert acc. induction s as [|x s IH]; intros acc Hacc; cbn [digits fst length].
  - cbn. lia.
  - assert (Hp : 0 < b ^ Z.of_nat (length s)) by (apply Z.pow_pos_nonneg; lia).
    rewrite Nat2Z.inj_succ, Z.pow_succ_r by lia.
    assert (Hstop : 0 <= acc < (acc + 1) * (b * b ^ Z.of_nat (length s))) by nia.
    destruct (digit_val x) as [d|] eqn:Ed; [|done]. apply digit_val_nonneg in Ed.
    destruct (Z.ltb_spec d b); [|done].
    specialize (IH (acc * b + d) ltac:(nia)). nia.
Qed.

Lemma length_drop_spaces s : (length (drop_spaces s) <= length s)%nat.
Proof. induction s as [|x s IH]; cbn; [done|]. destruct (isspace x); cbn; lia. Qed.

Lemma elem_of_drop_spaces s c : c ∈ drop_spaces s -> c ∈ s.
Proof.
  induction s as [|x s IH]; cbn; [done|]. destruct (isspace x); [|done].
  intros. apply elem_of_cons. auto.
Qed.

(** A short string without a minus sign is a small non-negative number. *)
Lemma strtol_small s base :
  (length s <= 7)%nat -> "-"%char ∉ s -> base = 0 \/ base = 2 ->
  0 <= fst (fst (strtol s base)) < 268435456.
Proof.
  intros Hlen Hm Hbase. unfold strtol.
  pose proof (length_drop_spaces s) as Hl. pose proof (elem_of_drop_spaces s "-"%char) as He.
  set (s0 := drop_spaces s) in *.
  match goal with |- context [let '(neg, s1) := ?m in _] => set (sg := m) end.
  assert (Hs1 : exists s1, sg = (false, s1) /\ (length s1 <= 7)%nat).
  { clearbody s0. subst sg. destruct s0 as [|x s0]; [exists []; split; [done|cbn; lia]|].
    cbn in Hl. destruct (decide (x = "-"%char)) as [->|]; [exfalso; apply Hm, He; left|].
    destruct x as [[] [] [] [] [] [] [] []]; try (by eexists; split; [reflexivity|cbn; lia]); done. }
  destruct Hs1 as (s1 & -> & Hl1).
  match goal with |- context [let '(b, s2) := ?m in _] => set (bs := m) end.
  assert (Hbs : 1 < fst bs <= 16 /\ (length (snd bs) <= 7)%nat).
  { subst bs. destruct s1 as [|x s1]; [destruct Hbase; subst; cbn; lia|]. cbn in Hl1.
    destruct s1 as [|y s1]; destruct x as [[] [] [] [] [] [] [] []]; destruct Hbase; subst; cbn in *;
      try lia; destruct (_ && _); cbn; lia. }
  destruct bs as [b s2]. cbn in Hbs. destruct Hbs as [Hb Hl2].
  destruct (has_digit b s2); [|cbn; lia].
  pose proof (digits_bounds b s2 0 ltac:(lia) ltac:(lia)) as Hd.
  destruct (digits b 0 s2) as [v rest]. cbn [fst] in Hd.
  assert (Hpow : b ^ Z.of_nat (length s2) <= 16 ^ 7).
  { transitivity (b ^ 7); [apply Z.pow_le_mono_r; lia | apply Z.pow_le_mono_l; lia]. }
  change (16 ^ 7) with 268435456 in Hpow. unfold LONG_MAX, LONG_MIN. zbool; cbn; lia.
Qed.

(** What the parser lets through.  An accepted string of at most seven
    characters and without a minus sign gives a six-bit code point. *)
Theorem dscp_accepted_range (value : cstr) (r : Z) :
  parse_dscp_value value = (0, r) -> (length value <= 7)%nat -> "-"%char ∉ value ->
  0 <= r < 64.
Proof.
  intros H Hlen Hm.
  assert (Hconv : forall base, base = 0 \/ base = 2 -> bad_conversion (strtol value base) = false ->
            0 <= u8 (i32 (fst (fst (strtol value base)))) < 64).
  { intros base Hb Hok. pose proof (strtol_small value base Hlen Hm Hb) as Hs.
    destruct (strtol value base) as [[v e] er]. cbn [fst bad_conversion] in *.
    apply orb_false_iff in Hok as [_ Hok]. rewrite Z.geb_leb, Z.leb_gt in Hok.
    rewrite i32_id in Hok by lia. rewrite i32_id, u8_id; rewrite ?i32_id; lia. }
  unfold parse_dscp_value in H.
  repeat match type of H with
  | (if ?b then _ else _) = _ => destruct b eqn:?; try (injection H as <-; lia)
  end; try discriminate; injection H as <-; apply Hconv; auto.
Qed.

Lemma dscp_accepted_range_witness : parse_dscp_value (str "0x2e") = (0, 46) /\ 0 <= 46 < 64.
Proof.
  split; [reflexivity|]. apply (dscp_accepted_range (str "0x2e") 46); [reflexivity|cbn; lia|].
  vm_compute. intros H. repeat (apply elem_of_cons in H as [H|H]; [discriminate|]). inversion H.
Defined.

(** Outside that set the parser lets values through that are no code points:
    only the upper bound is tested, after a conversion to int. *)
Example dscp_negative : parse_dscp_value (str "-1") = (0, 255).
Proof. reflexivity. Qed.
Example dscp_truncated : parse_dscp_value (str "4294967295") = (0, 255).
Proof. reflexivity. Qed.
Example dscp_empty : parse_dscp_value [] = (0, 0).
Proof. reflexivity. Qed.
