(* ===== verification/Nametable.v ===== *)
(** The table of fixed names (src/measured/nametable.c): names the schedule may
    use in place of an address, each with a chain of addresses.

    [getaddrinfo] belongs to the C library's resolver and is a parameter. *)
From S2P Require Import Prelude CLib Address.
#[local] Open Scope Z_scope.

(** A [struct addrinfo] without its [ai_next]; a chain is a list. *)
Record addrinfo : Set := { ai_addr : sockaddr; ai_canonname : option cstr }.
Definition ai_family (a : addrinfo) : Z := sa_family (ai_addr a).
#[export] Instance addrinfo_eq_dec : EqDecision addrinfo.
Proof. solve_decision. Defined.

Record nametable_t : Set := { nt_addr : list addrinfo; nt_count : Z }.
#[export] Instance nametable_eq_dec : EqDecision nametable_t.
Proof. solve_decision. Defined.

Definition MAX_NAMETABLE_LINE : nat := 128.
Definition NL : ascii := "010".
Definition NAMETABLE_DELIMITER : cstr := [" "%char; NL].

(** name_to_address(): the position of the first item of that name. *)
Fixpoint find_name (name : cstr) (table : list nametable_t) : res (option nat) :=
  match table with
  | [] => Ok None
  | item :: rest =>
      match nt_addr item with
      | [] => Fault AssertFail
      | a :: _ =>
          match ai_canonname a with
          | None => Fault AssertFail
          | Some n =>
              if strcmp_eq name n then Ok (Some O)
              else r ← find_name name rest; Ok (option_map S r)
          end
      end
  end.
Definition name_to_address (name_table : list nametable_t) (name : option cstr)
    : res (option nat) :=
  match name with None => Fault AssertFail | Some name => find_name name name_table end.

(** insert_nametable_entry() of a chain [info] *)
Definition insert_nametable_entry (name_table : list nametable_t) (name : cstr)
    (info : list addrinfo) : res (list nametable_t) :=
  match info with
  | [a] =>
      let a := {| ai_addr := ai_addr a; ai_canonname := Some name |} in
      found ← name_to_address name_table (Some name);
      match found with
      | None => Ok ({| nt_addr := [a]; nt_count := 1 |} :: name_table)
      | Some i =>
          match name_table !! i with
          | None => Fault OutOfBounds
          | Some item =>
              Ok (<[i := {| nt_addr := a :: nt_addr item; nt_count := u8 (nt_count item + 1) |}]>
                    name_table)
          end
      end
  | _ => Fault AssertFail
  end.

Definition clear_nametable (name_table : list nametable_t) : list nametable_t := [].

(** Successive fgets() calls on a file with a buffer of [size] bytes. *)
Fixpoint fgets_from (size room : nat) (cur : cstr) (s : cstr) : list cstr :=
  match s with
  | [] => if bool_decide (cur = []) then [] else [cur]
  | x :: s' =>
      if bool_decide (x = NL) then (cur ++ [x]) :: fgets_from size (size - 1) [] s'
      else match room with
           | S (S room') => fgets_from size (S room') (cur ++ [x]) s'
           | _ => (cur ++ [x]) :: fgets_from size (size - 1) [] s'
           end
  end.
Definition fgets_all (size : nat) (s : cstr) : list cstr := fgets_from size (size - 1) [] s.

Section Read.
(** getaddrinfo() for a numeric address: an error, or a chain. *)
Context (getaddrinfo : cstr -> option (list addrinfo)).

(** One turn of the loop of read_nametable_file(). *)
Definition read_nametable_line (name_table : list nametable_t) (line : cstr)
    : res (list nametable_t) :=
  match line with
  | c :: _ =>
      if bool_decide (c = "#"%char) || bool_decide (c = NL) then Ok name_table
      else match strtok_all NAMETABLE_DELIMITER line with
           | name :: address :: _ =>
               match getaddrinfo address with
               | None => Ok name_table
               | Some info => insert_nametable_entry name_table name info
               end
           | _ => Ok name_table
           end
  | [] => Ok name_table
  end.

Fixpoint read_lines (name_table : list nametable_t) (lines : list cstr)
    : res (list nametable_t) :=
  match lines with
  | [] => Ok name_table
  | l :: ls => t ← read_nametable_line name_table l; read_lines t ls
  end.

(** read_nametable_file(); [None] is a file that does not open. *)
Definition read_nametable_file (name_table : list nametable_t) (contents : option cstr)
    : res (list nametable_t) :=
  match contents with
  | None => Ok name_table
  | Some s => read_lines name_table (fgets_all MAX_NAMETABLE_LINE s)
  end.
End Read.

(** ** Specification: a list of (name, address) entries *)

Definition entry_of (name : cstr) (a : sockaddr) : addrinfo :=
  {| ai_addr := a; ai_canonname := Some name |}.
(** The addresses of a name, latest first. *)
Definition addrs_of (entries : list (cstr * sockaddr)) (name : cstr) : list sockaddr :=
  snd <$> filter (fun e => fst e = name) (rev entries).

Definition item_for (name : cstr) (addrs : list sockaddr) (item : nametable_t) : Prop :=
  nt_addr item = entry_of name <$> addrs /\ nt_count item = u8 (Z.of_nat (length addrs)).

(** Every item has a name of its own and holds the addresses of that name. *)
Definition table_inv (entries : list (cstr * sockaddr)) (table : list nametable_t) : Prop :=
  exists names, NoDup names /\
    Forall2 (fun n item => addrs_of entries n <> [] /\ item_for n (addrs_of entries n) item)
      names table /\
    (forall n, addrs_of entries n <> [] -> n ∈ names).

Lemma find_name_spec entries names table name :
  Forall2 (fun n item => addrs_of entries n <> [] /\ item_for n (addrs_of entries n) item)
    names table ->
  exists r, find_name name table = Ok r /\
    match r with Some i => names !! i = Some name | None => name ∉ names end.
Proof.
  intros H. induction H as [|n item names table [Hne [Hi _]] HF IH]; cbn.
  { exists None. split; [done|]. intros Hin. inversion Hin. }
  rewrite Hi. destruct (addrs_of entries n) as [|a l]; [done|]. cbn. unfold strcmp_eq.
  destruct IH as (r & Hr & Hspec).
  case_bool_decide as Hn; [exists (Some O); cbn; by subst|].
  rewrite Hr. cbn. exists (option_map S r). split; [done|]. destruct r as [i|]; cbn; [done|].
  rewrite elem_of_cons. tauto.
Qed.

Lemma addrs_of_snoc entries name a n :
  addrs_of (entries ++ [(name, a)]) n =
  if bool_decide (n = name) then a :: addrs_of entries n else addrs_of entries n.
Proof.
  unfold addrs_of. rewrite rev_app_distr. cbn [rev app]. rewrite filter_cons. cbn [fst].
  case_bool_decide; case_decide; subst; done.
Qed.

Lemma insert_nametable_entry_inv entries table name a c :
  table_inv entries table ->
  exists table', insert_nametable_entry table name [{| ai_addr := a; ai_canonname := c |}] = Ok table' /\
    table_inv (entries ++ [(name, a)]) table'.
Proof.
  intros (names & Hnd & HF & Hall). unfold insert_nametable_entry, name_to_address.
  destruct (find_name_spec entries names table name HF) as ([i|] & -> & Hspec); cbn.
  - destruct (Forall2_lookup_l _ _ _ _ _ HF Hspec) as (item & Hitem & Hne & Ha & Hc).
    rewrite Hitem. eexists. split; [done|]. exists names. split_and!; [done| |].
    + apply Forall2_same_length_lookup_2.
      { rewrite length_insert. by eapply Forall2_length. }
      intros j n it Hn Hit. destruct (decide (j = i)) as [->|Hj].
      * rewrite list_lookup_insert_eq in Hit by eauto using lookup_lt_Some. injection Hit as <-.
        assert (n = name) as -> by congruence. rewrite addrs_of_snoc, bool_decide_eq_true_2 by done.
        split; [done|]. split; cbn; [by rewrite Ha|]. rewrite Hc. unfold u8.
        rewrite Zplus_mod_idemp_l. f_equal. lia.
      * rewrite list_lookup_insert_ne in Hit by done.
        destruct (Forall2_lookup_lr _ _ _ _ _ _ HF Hn Hit) as [Hne' Hit'].
        rewrite addrs_of_snoc, bool_decide_eq_false_2; [done|]. intros ->.
        apply Hj. eapply NoDup_lookup; eauto.
    + intros n. rewrite addrs_of_snoc. case_bool_decide; [subst|by auto].
      intros _. by eapply list_elem_of_lookup_2.
  - eexists. split; [done|]. exists (name :: names). split_and!.
    + by constructor.
    + constructor.
      * assert (addrs_of entries name = []) as E.
        { destruct (addrs_of entries name) eqn:E; [done|]. exfalso. apply Hspec, Hall. by rewrite E. }
        rewrite addrs_of_snoc, bool_decide_eq_true_2, E by done. done.
      * eapply Forall2_impl; [|intros n it H; exact H].
        apply Forall2_same_length_lookup_2; [by eapply Forall2_length|].
        intros j n it Hn Hit. destruct (Forall2_lookup_lr _ _ _ _ _ _ HF Hn Hit) as [Hne' Hit'].
        rewrite addrs_of_snoc, bool_decide_eq_false_2; [done|]. intros ->.
        apply Hspec. by eapply list_elem_of_lookup_2.
    + intros n. rewrite addrs_of_snoc, elem_of_cons. case_bool_decide; [auto|]. intros. right. auto.
Qed.

(** ** Reading a file *)

(** The entry a line of the file gives. *)
Definition line_entry (getaddrinfo : cstr -> option (list addrinfo)) (line : cstr)
    : option (cstr * sockaddr) :=
  match line with
  | c :: _ =>
      if bool_decide (c = "#"%char) || bool_decide (c = NL) then None
      else match strtok_all NAMETABLE_DELIMITER line with
           | name :: address :: _ =>
               info ← getaddrinfo address; a ← head info; Some (name, ai_addr a)
           | _ => None
           end
  | [] => None
  end.

Lemma read_lines_inv gai entries table lines :
  (forall s info, gai s = Some info -> exists a, info = [a]) ->
  table_inv entries table ->
  exists table', read_lines gai table lines = Ok table' /\
  table_inv (entries ++ omap (line_entry gai) lines) table'.
Proof.
  intros Hgai. revert entries table. induction lines as [|l lines IH]; intros entries table Hinv.
  { exists table. cbn. by rewrite app_nil_r. }
  assert (Hline : exists t, read_nametable_line gai table l = Ok t /\
          table_inv (entries ++ omap (line_entry gai) [l]) t).
  { unfold read_nametable_line, line_entry. cbn. destruct l as [|c l]; [rewrite app_nil_r; by eauto|].
    destruct (_ || _); [rewrite app_nil_r; by eauto|].
    destruct (strtok_all _ _) as [|name [|address ?]]; [rewrite app_nil_r; by eauto..|].
    destruct (gai address) as [info|] eqn:Eg; cbn; [|rewrite app_nil_r; by eauto].
    destruct (Hgai _ _ Eg) as [[a c'] ->]. by apply insert_nametable_entry_inv. }
  destruct Hline as (t & Ht & Hinv'). cbn [read_lines]. rewrite Ht. cbn.
  destruct (IH _ _ Hinv') as (t' & Ht' & Hinv''). exists t'. split; [done|].
  rewrite <- app_assoc in Hinv''. cbn in Hinv''. cbn. by destruct (line_entry gai l).
Qed.

(** Reading a nametable file never fails an assertion and makes a table of the
    lines: a name looks up to the chain of all its addresses, the last line
    first, under that canonical name (with the number of them modulo 256 as
    its count), and to nothing exactly when the file has no address for it.
    The resolver has to return a single address for a numeric one, which
    AI_NUMERICHOST with one socket type gives. *)
Theorem nametable_lookup (getaddrinfo : cstr -> option (list addrinfo)) (contents name : cstr) :
  (forall s info, getaddrinfo s = Some info -> exists a, info = [a]) ->
  let addrs := addrs_of (omap (line_entry getaddrinfo) (fgets_all MAX_NAMETABLE_LINE contents)) name in
  exists table r,
    read_nametable_file getaddrinfo [] (Some contents) = Ok table /\
  name_to_address table (Some name) = Ok r /\
  match r with
    | Some i => addrs <> [] /\ exists item, table !! i = Some item /\ item_for name addrs item
    | None => addrs = []
    end.
Proof.
  intros Hgai addrs. cbn [read_nametable_file].
  destruct (read_lines_inv getaddrinfo [] [] (fgets_all MAX_NAMETABLE_LINE contents) Hgai)
    as (table & Ht & names & Hnd & HF & Hall).
  { exists []. split_and!; [constructor|constructor|]. intros n. done. }
  cbn [app] in *. destruct (find_name_spec _ _ _ name HF) as (r & Hr & Hspec).
  exists table, r. split_and!; [done..|]. destruct r as [i|].
  - destruct (Forall2_lookup_l _ _ _ _ _ HF Hspec) as (item & ? & ? & ?). eauto.
  - destruct addrs eqn:E; [done|]. exfalso. apply Hspec, Hall. fold addrs. by rewrite E.
Qed.

(** A resolver for two addresses. *)
Definition sample_getaddrinfo (s : cstr) : option (list addrinfo) :=
  if strcmp_eq s (str "10.0.0.1") then Some [{| ai_addr := ip4 10 0 0 1; ai_canonname := None |}]
  else if strcmp_eq s (str "10.0.0.2") then Some [{| ai_addr := ip4 10 0 0 2; ai_canonname := None |}]
  else None.
Definition sample_file : cstr :=
  str "# names" ++ [NL] ++ str "foo 10.0.0.1" ++ [NL; NL] ++ str "bar 10.0.0.9" ++ [NL]
  ++ str "foo   10.0.0.2" ++ [NL].

Lemma nametable_lookup_witness :
  (forall s info, sample_getaddrinfo s = Some info -> exists a, info = [a]) /\
exists table r,
    read_nametable_file sample_getaddrinfo [] (Some sample_file) = Ok table /\
  name_to_address table (Some (str "foo")) = Ok r /\
  match r with
    | Some i => [ip4 10 0 0 2; ip4 10 0 0 1] <> [] /\
      exists item, table !! i = Some item /\
        item_for (str "foo") [ip4 10 0 0 2; ip4 10 0 0 1] item
    | None => [ip4 10 0 0 2; ip4 10 0 0 1] = []
    end.
Proof.
  assert (Hg : forall s info, sample_getaddrinfo s = Some info -> exists a, info = [a]).
  { intros s info. unfold sample_getaddrinfo. repeat case_match; intros [= <-]; eauto. }
  split; [exact Hg|]. exact (nametable_lookup sample_getaddrinfo sample_file (str "foo") Hg).
Defined.
