(* ===== verification/Targets.v ===== *)
(** Targets of a scheduled test (parse_test_targets() and
    populate_target_lists() of src/measured/schedule.c).

    A loaded YAML document is a store of nodes by index.  Target names are
    pointers into it (the index of the scalar node): populate_target_lists()
    cuts the strings in place with strtok(), and an alias makes the same node a
    target twice, so the store is part of the state. *)
From stdpp Require Import gmap.
From S2P Require Import Prelude CLib Address Nametable.
#[local] Open Scope Z_scope.

Inductive yaml_node : Type :=
| YScalar (value : cstr)
| YSequence (items : list Z)
| YMapping (pairs : list (Z * Z)).
#[export] Instance yaml_node_eq_dec : EqDecision yaml_node.
Proof. solve_decision. Defined.

(** yaml_document_get_node() is the lookup of this map. *)
Abbreviation yaml_document := (gmap Z yaml_node).

(** A C array of string pointers; [None] is NULL. *)
Definition str_array : Type := list (option Z).

(** parse_test_targets(), with the array and its length passed through.  The
    recursion follows the document, of which nothing says it has no cycle. *)
Fixpoint parse_test_targets (fuel : nat) (document : yaml_document) (node : Z)
    (targets : str_array) (len : Z) : res (str_array * Z) :=
  match fuel with
  | O => Fault OutOfFuel
  | S fuel' =>
      match document !! node with
      | None => Fault NullDeref
      | Some (YScalar _) =>
          let targets := resize (Z.to_nat (len + 1)) None targets in
          targets ← wr targets (len - 1) (Some node);
          targets ← wr targets len None;
          Ok (targets, len + 1)
      | Some (YSequence items) =>
          (fix each (items : list Z) (targets : str_array) (len : Z) : res (str_array * Z) :=
             match items with
             | [] => Ok (targets, len)
             | item :: items' =>
                 r ← parse_test_targets fuel' document item targets len;
                 each items' (fst r) (snd r)
             end) items targets len
      | Some (YMapping _) => Ok (targets, len)
      end
  end.

Record test_t : Set := { test_name : cstr; max_targets : Z; min_targets : Z }.
#[export] Instance test_t_eq_dec : EqDecision test_t.
Proof. solve_decision. Defined.

(** [struct resolve_dest] of src/common/ampresolv.h; the count has 8 bits. *)
Record resolve_dest : Set := { rd_name : cstr; rd_count : Z; rd_family : Z }.
#[export] Instance resolve_dest_eq_dec : EqDecision resolve_dest.
Proof. solve_decision. Defined.

(** The four target fields of a test_schedule_item_t. *)
Record target_lists : Set :=
  { dest_count : Z; resolve_count : Z; dests : list addrinfo; resolve : list resolve_dest }.
Definition no_targets : target_lists :=
  {| dest_count := 0; resolve_count := 0; dests := []; resolve := [] |}.
Definition total_count (t : target_lists) : Z := u32 (dest_count t + resolve_count t).

(** The options that follow a name, left to right. *)
Fixpoint target_options (opts : list cstr) (family count : Z) : Z * Z :=
  match opts with
  | [] => (family, count)
  | o :: opts' =>
      if strncmp_eq o (str "*") 1 then target_options opts' family count
      else if strncmp_eq o (str "v4") 2 then target_options opts' AF_INET count
      else if strncmp_eq o (str "v6") 2 then target_options opts' AF_INET6 count
      else target_options opts' family (u16 (atoi o))
  end.

(** The loop over the addresses of a name that is in the nametable. *)
Fixpoint add_addresses (max family count : Z) (t : target_lists) (chain : list addrinfo)
    : target_lists :=
  match chain with
  | [] => t
  | addr :: chain' =>
      if ((max >? 0) && (total_count t >=? max)) || ((count >? 0) && (total_count t >=? count))
      then t
      else
        add_addresses max family count
          (if (family =? AF_UNSPEC) || (family =? ai_family addr)
           then {| dest_count := u32 (dest_count t + 1); resolve_count := resolve_count t;
                   dests := dests t ++ [addr]; resolve := resolve t |}
           else t) chain'
  end.

Definition BANG : cstr := str "!".

(** The loop of populate_target_lists(): the document afterwards, the lists, and
    the part of the array that is left. *)
Fixpoint populate_loop (name_table : list nametable_t) (max : Z) (document : yaml_document)
    (t : target_lists) (targets : str_array) : res (yaml_document * target_lists * str_array) :=
  match targets with
  | [] => Fault OutOfBounds
  | None :: _ => Ok (document, t, targets)
  | Some node :: targets' =>
      if (max =? 0) || (total_count t <? max) then
        match document !! node with
        | Some (YScalar s) =>
            let document := <[node := YScalar (strtok_left BANG s)]> document in
            match strtok_all BANG s with
            | [] => Fault AssertFail   (* name_to_address(NULL) *)
            | addr_str :: opts =>
                let '(family, count) := target_options opts AF_UNSPEC 0 in
                found ← name_to_address name_table (Some addr_str);
                match found with
                | Some i =>
                    match name_table !! i with
                    | None => Fault OutOfBounds
                    | Some addresses =>
                        populate_loop name_table max document
                          (add_addresses max family count t (nt_addr addresses)) targets'
                    end
                | None =>
                    populate_loop name_table max document
                      {| dest_count := dest_count t;
                         resolve_count := u32 (resolve_count t + 1);
                         dests := dests t;
                         resolve := {| rd_name := addr_str; rd_count := u8 count;
                                       rd_family := family |} :: resolve t |} targets'
                end
            end
        | _ => Fault NullDeref
        end
      else Ok (document, t, targets)
  end.

Definition populate_target_lists (name_table : list nametable_t) (test : test_t)
    (document : yaml_document) (targets : option str_array)
    : res (yaml_document * target_lists * option str_array) :=
  match targets with
  | None => Ok (document, no_targets, None)
  | Some targets =>
      r ← populate_loop name_table (max_targets test) document no_targets targets;
      let '(document, t, rest) := r in Ok (document, t, Some rest)
  end.

(** ** parse_test_targets() collects the scalars below a node *)

(** The scalars below a node in document order, for a node without cycles. *)
Inductive scalars_below (document : yaml_document) : Z -> list Z -> Prop :=
| SbScalar i s : document !! i = Some (YScalar s) -> scalars_below document i [i]
| SbMapping i ps : document !! i = Some (YMapping ps) -> scalars_below document i []
| SbSequence i items ls :
    document !! i = Some (YSequence items) -> scalars_in document items ls ->
    scalars_below document i ls
with scalars_in (document : yaml_document) : list Z -> list Z -> Prop :=
| SiNil : scalars_in document [] []
| SiCons i items l ls :
    scalars_below document i l -> scalars_in document items ls ->
    scalars_in document (i :: items) (l ++ ls).

Scheme scalars_below_mind := Minimality for scalars_below Sort Prop
  with scalars_in_mind := Minimality for scalars_in Sort Prop.

(** The array that holds the targets [ts]: one entry more, which is NULL. *)
Definition target_array (ts : list Z) : str_array := (Some <$> ts) ++ [None].

Lemma target_array_push ts i :
  let targets := resize (Z.to_nat (Z.of_nat (S (length ts)) + 1)) None (target_array ts) in
  exists t1, wr targets (Z.of_nat (S (length ts)) - 1) (Some i) = Ok t1 /\
    wr t1 (Z.of_nat (S (length ts))) None = Ok (target_array (ts ++ [i])).
Proof.
  assert (Hr : resize (Z.to_nat (Z.of_nat (S (length ts)) + 1)) None (target_array ts)
    = (Some <$> ts) ++ [None; None]).
  { rewrite resize_ge; unfold target_array; rewrite length_app, length_fmap; cbn; [|lia].
    rewrite <- app_assoc. f_equal. by replace (_ - _)%nat with 1%nat by lia. }
  assert (E1 : Z.to_nat (Z.of_nat (S (length ts)) - 1) = (length (Some <$> ts) + 0)%nat)
    by (rewrite length_fmap; lia).
  assert (E2 : Z.to_nat (Z.of_nat (S (length ts))) = (length (Some <$> ts) + 1)%nat)
    by (rewrite length_fmap; lia).
  cbn zeta. rewrite Hr. exists ((Some <$> ts) ++ [Some i; None]).
  split; apply wr_Ok; rewrite ?E1, ?E2, insert_app_r; cbn [insert list_insert].
  - split; [|done]. rewrite length_app, length_fmap. cbn [length]. lia.
  - split; [rewrite length_app, length_fmap; cbn [length]; lia|].
    unfold target_array. rewrite fmap_app. cbn. by rewrite <- app_assoc.
Qed.

(** The targets of a test are the scalars of its "target" node.  Where the
    node has no cycle the recursion ends, and the NULL-terminated array gains
    exactly the scalar nodes below it, in document order. *)
Theorem parse_test_targets_scalars document node ls ts :
  scalars_below document node ls ->
  exists fuel, forall fuel', (fuel <= fuel')%nat ->
    parse_test_targets fuel' document node (target_array ts) (Z.of_nat (S (length ts)))
    = Ok (target_array (ts ++ ls), Z.of_nat (S (length (ts ++ ls)))).
Proof.
  intros H. revert ts.
  pattern node, ls. revert node ls H.
  apply (scalars_below_mind document _ (fun items ls => forall ts, exists fuel, forall fuel',
    (fuel <= fuel')%nat ->
    (fix each (items : list Z) (targets : str_array) (len : Z) : res (str_array * Z) :=
       match items with
       | [] => Ok (targets, len)
       | item :: items' =>
           r ← parse_test_targets fuel' document item targets len;
           each items' (fst r) (snd r)
       end) items (target_array ts) (Z.of_nat (S (length ts)))
    = Ok (target_array (ts ++ ls), Z.of_nat (S (length (ts ++ ls)))))).
  - intros i s Hi ts. exists 1%nat. intros [|f] Hf; [lia|]. cbn [parse_test_targets]. rewrite Hi.
    destruct (target_array_push ts i) as (t1 & -> & H2). cbn [mbind res_bind]. rewrite H2. cbn.
    rewrite length_app. cbn. do 2 f_equal. lia.
  - intros i ps Hi ts. exists 1%nat. intros [|f] Hf; [lia|]. cbn [parse_test_targets].
    by rewrite Hi, app_nil_r.
  - intros i items ls Hi _ IH ts. destruct (IH ts) as [fuel Hfuel]. exists (S fuel).
    intros [|f] Hf; [lia|]. cbn [parse_test_targets]. rewrite Hi. apply Hfuel. lia.
  - intros ts. exists O. intros f _. by rewrite app_nil_r.
  - intros i items l ls _ IH1 _ IH2 ts. destruct (IH1 ts) as [f1 H1], (IH2 (ts ++ l)) as [f2 H2].
    exists (Nat.max f1 f2). intros f Hf. rewrite H1 by lia. cbn [mbind res_bind fst snd].
    rewrite H2 by lia. by rewrite <- app_assoc.
Qed.

Definition sample_doc : yaml_document :=
  <[1 := YSequence [2; 3; 2]]> (<[2 := YScalar (str "www.example.org!2!v4")]>
    (<[3 := YSequence [4]]> (<[4 := YScalar (str "wand.net.nz")]> ∅))).

Lemma parse_test_targets_scalars_witness :
  scalars_below sample_doc 1 [2; 4; 2] /\
  exists fuel, forall fuel', (fuel <= fuel')%nat ->
    parse_test_targets fuel' sample_doc 1 (target_array []) (Z.of_nat 1)
    = Ok (target_array [2; 4; 2], Z.of_nat 4).
Proof.
  assert (H : scalars_below sample_doc 1 [2; 4; 2]).
  { apply (SbSequence _ 1 [2; 3; 2]); [done|].
    apply (SiCons _ 2 [3; 2] [2] [4; 2]); [by eapply SbScalar|].
    apply (SiCons _ 3 [2] [4] [2]).
    - apply (SbSequence _ 3 [4]); [done|]. apply (SiCons _ 4 [] [4] []); [by eapply SbScalar|constructor].
    - apply (SiCons _ 2 [] [2] []); [by eapply SbScalar|constructor]. }
  split; [exact H|]. exact (parse_test_targets_scalars sample_doc 1 [2; 4; 2] [] H).
Defined.

(** ** The string a target leaves behind *)

Lemma cut_token_spec ds s :
  exists r, s = cut_token ds s ++ r /\ Forall (fun c => c ∉ ds) (cut_token ds s) /\
    (r = [] \/ exists d r', r = d :: r' /\ d ∈ ds).
Proof.
  induction s as [|x s (r & Hs & Hf & Hr)]; cbn; [exists []; auto|].
  case_bool_decide; [exists (x :: s); split_and!; eauto|].
  exists r. split_and!; [cbn; congruence|by constructor|done].
Qed.

Lemma strtok_all_left ds s a opts :
  strtok_all ds s = a :: opts -> strtok_all ds (strtok_left ds s) = [a].
Proof.
  induction s as [|x s IH]; [done|]. unfold strtok_all in *. cbn [strtok_left].
  case_bool_decide as Hx; [cbn; by rewrite !bool_decide_eq_true_2|]. clear IH.
  destruct (cut_token_spec ds (x :: s)) as (r & Hs & Hf & Hr). rewrite Hs at 1.
  assert (Hne : cut_token ds (x :: s) <> []) by (cbn; by rewrite bool_decide_eq_false_2).
  fold (strtok_all ds (cut_token ds (x :: s) ++ r)).
  destruct Hr as [->|(d & r' & -> & Hd)].
  - rewrite app_nil_r, strtok_word by done. intros [= <- <-]. by apply strtok_word.
  - rewrite strtok_cons by done. intros [= <- _]. by apply strtok_word.
Qed.

(** ** populate_target_lists() never faults and keeps its counts *)

Definition nt_ok (name_table : list nametable_t) : Prop :=
  forall name, exists r, find_name name name_table = Ok r.
Definition targets_ok (document : yaml_document) (ts : list Z) : Prop :=
  forall i, i ∈ ts -> exists s a opts,
    document !! i = Some (YScalar s) /\ strtok_all BANG s = a :: opts.

Lemma targets_ok_cut document ts i s a opts :
  targets_ok document ts -> document !! i = Some (YScalar s) -> strtok_all BANG s = a :: opts ->
  targets_ok (<[i := YScalar (strtok_left BANG s)]> document) ts.
Proof.
  intros H Hi Hs j Hj. destruct (decide (j = i)) as [->|Hne].
  - rewrite lookup_insert_eq. do 3 eexists. split; [done|]. by eapply strtok_all_left.
  - rewrite lookup_insert_ne by done. by apply H.
Qed.

Lemma find_name_lt name nt i : find_name name nt = Ok (Some i) -> exists item, nt !! i = Some item.
Proof.
  revert i. induction nt as [|item nt IH]; intros i; cbn; [done|].
  destruct (nt_addr item) as [|a l]; [done|]. destruct (ai_canonname a) as [c|]; [|done].
  destruct (strcmp_eq name c); [intros [= <-]; cbn; eauto|].
  destruct (find_name name nt) as [[j|]|]; cbn; [|done..]. intros [= <-]. cbn. by apply IH.
Qed.

Definition num_targets (t : target_lists) : Z := Z.of_nat (length (dests t) + length (resolve t)).
Definition counts_ok (max : Z) (t : target_lists) : Prop :=
  dest_count t = u32 (Z.of_nat (length (dests t))) /\
  resolve_count t = u32 (Z.of_nat (length (resolve t))) /\
  (0 < max -> num_targets t <= max).

Lemma counts_total max t : 0 < max < 65536 -> counts_ok max t -> total_count t = num_targets t.
Proof.
  intros Hm (Hd & Hr & Hs). unfold total_count, num_targets in *. rewrite Hd, Hr.
  specialize (Hs ltac:(lia)). rewrite !u32_id; rewrite ?u32_id; lia.
Qed.

Lemma u32_succ n : u32 (u32 (Z.of_nat n) + 1) = u32 (Z.of_nat (n + 1)).
Proof. unfold u32. rewrite Zplus_mod_idemp_l. f_equal. lia. Qed.

Lemma add_addresses_counts max family count t chain :
  0 <= max < 65536 -> counts_ok max t -> counts_ok max (add_addresses max family count t chain).
Proof.
  intros Hm. revert t. induction chain as [|addr chain IH]; intros t Hc; [done|].
  cbn [add_addresses]. destruct ((_ && _) || _) eqn:Estop; [done|]. apply IH.
  destruct ((family =? _) || _); [|done]. destruct Hc as (Hd & Hr & Hs) eqn:E. clear E.
  split_and!; cbn [dest_count dests resolve_count resolve]; [|done|].
  - by rewrite Hd, length_app, u32_succ.
  - intros Hpos. apply orb_false_iff in Estop as [Estop _].
    rewrite (proj2 (Z.gtb_lt _ _) Hpos) in Estop. cbn in Estop.
    rewrite Z.geb_leb, Z.leb_gt, (counts_total max) in Estop by (repeat split; auto with lia).
    unfold num_targets in *. cbn [dests resolve]. rewrite length_app. cbn. lia.
Qed.

Lemma populate_loop_spec nt max document t ts :
  nt_ok nt -> 0 <= max < 65536 -> targets_ok document ts -> counts_ok max t ->
  exists document' t' used rest,
    populate_loop nt max document t (target_array ts) = Ok (document', t', target_array rest) /\
    ts = used ++ rest /\ counts_ok max t' /\
    (forall us, targets_ok document us -> targets_ok document' us) /\
    (rest <> [] -> num_targets t' = max /\ 0 < max) /\
    (ts <> [] -> max = 0 \/ num_targets t < max -> used <> []).
Proof.
  intros Hnt Hm. revert document t. induction ts as [|i ts IH]; intros document t Hts Hc.
  { exists document, t, [], []. by split_and!. }
  change (target_array (i :: ts)) with (Some i :: target_array ts). cbn [populate_loop].
  destruct ((max =? 0) || (total_count t <? max)) eqn:Econd.
  - destruct (Hts i) as (s & a & opts & Hi & Hs); [left|]. rewrite Hi, Hs.
    destruct (target_options opts AF_UNSPEC 0) as [family count].
    set (d1 := <[i := YScalar (strtok_left BANG s)]> document).
    assert (Hcut : forall us, targets_ok document us -> targets_ok d1 us)
      by eauto using targets_ok_cut.
    assert (Hd1 : targets_ok d1 ts).
    { apply Hcut. intros j Hj. apply Hts. by right. }
    assert (Hgo : forall t1, counts_ok max t1 -> exists document' t' used rest,
      populate_loop nt max d1 t1 (target_array ts) = Ok (document', t', target_array rest) /\
      i :: ts = used ++ rest /\ counts_ok max t' /\
      (forall us, targets_ok document us -> targets_ok document' us) /\
      (rest <> [] -> num_targets t' = max /\ 0 < max) /\
      (i :: ts <> [] -> max = 0 \/ num_targets t < max -> used <> [])).
    { intros t1 Hc1. destruct (IH d1 t1 Hd1 Hc1) as (d' & t' & used & rest & Hp & Hsp & Hc' & Hd' & Hr & _).
      exists d', t', (i :: used), rest. split_and!; auto. cbn. by rewrite Hsp. }
    unfold name_to_address. destruct (Hnt a) as ([j|] & Hf); rewrite Hf; cbn [mbind res_bind].
    + destruct (find_name_lt _ _ _ Hf) as (item & ->). apply Hgo. by apply add_addresses_counts.
    + apply Hgo. destruct Hc as (Hd & Hr & Hsz) eqn:E. clear E.
      split_and!; cbn [dest_count dests resolve_count resolve]; [done| |].
      * rewrite Hr, u32_succ. cbn. f_equal. lia.
      * intros Hpos. rewrite (proj2 (Z.eqb_neq max 0)) in Econd by lia. cbn in Econd.
        rewrite Z.ltb_lt, (counts_total max) in Econd by (repeat split; auto with lia).
        unfold num_targets in *. cbn [dests resolve length]. lia.
  - apply orb_false_iff in Econd as [E0 Elt]. apply Z.eqb_neq in E0. apply Z.ltb_ge in Elt.
    rewrite (counts_total max) in Elt by (auto with lia). destruct Hc as (Hd & Hr & Hsz) eqn:E.
    exists document, t, [], (i :: ts). split_and!; try done; try (intros; lia).
Qed.

(** The counters stay right on every path that returns. *)
Lemma populate_loop_counts nt max document t targets r :
  0 <= max < 65536 -> counts_ok max t ->
  populate_loop nt max document t targets = Ok r -> counts_ok max (snd (fst r)).
Proof.
  intros Hm. revert document t. induction targets as [|x targets IH]; intros document t Hc; [done|].
  cbn [populate_loop]. destruct x as [node|]; [|by intros [= <-]].
  destruct ((max =? 0) || (total_count t <? max)) eqn:Econd; [|by intros [= <-]].
  destruct (document !! node) as [[s| |]|]; [|done..].
  destruct (strtok_all BANG s) as [|a opts]; [done|].
  destruct (target_options opts AF_UNSPEC 0) as [family count].
  destruct (name_to_address nt (Some a)) as [[i|]|]; cbn [mbind res_bind]; [| |done].
  - destruct (nt !! i) as [item|]; [|done]. apply IH. by apply add_addresses_counts.
  - apply IH. destruct Hc as (Hd & Hr & Hsz) eqn:E. clear E.
    split_and!; cbn [dest_count dests resolve_count resolve]; [done| |].
    + rewrite Hr, u32_succ. cbn. f_equal. lia.
    + intros Hpos. rewrite (proj2 (Z.eqb_neq max 0)) in Econd by lia. cbn in Econd.
      rewrite Z.ltb_lt, (counts_total max) in Econd by (repeat split; auto with lia).
      unfold num_targets in *. cbn [dests resolve length]. lia.
Qed.

Lemma counts_ok_nil max : counts_ok max no_targets.
Proof. split_and!; cbn; [done..|]. unfold num_targets. cbn. lia. Qed.

Lemma populate_target_lists_counts nt test document targets r :
  0 <= max_targets test < 65536 -> populate_target_lists nt test document targets = Ok r ->
  counts_ok (max_targets test) (snd (fst r)).
Proof.
  intros Hm. unfold populate_target_lists. destruct targets as [targets|].
  - destruct (populate_loop _ _ _ _ _) as [[[d t] rest]|] eqn:E; cbn; [|done]. intros [= <-].
    apply (populate_loop_counts _ _ _ _ _ _ Hm (counts_ok_nil _) E).
  - intros [= <-]. apply counts_ok_nil.
Qed.

(** C11: filling the target lists of a test is safe and bounded.  For targets that
    name something, the call returns, consumes at least one target, leaves a
    rest only when the test has its maximum of targets, never exceeds that
    maximum, and the two counters are the lengths of the two lists. *)
Theorem populate_target_lists_bounded nt test document ts :
  nt_ok nt -> 0 <= max_targets test < 65536 -> targets_ok document ts ->
  exists document' t used rest,
    populate_target_lists nt test document (Some (target_array ts))
    = Ok (document', t, Some (target_array rest)) /\
    ts = used ++ rest /\ (ts <> [] -> used <> []) /\ targets_ok document' ts /\
    (rest <> [] -> num_targets t = max_targets test) /\
    dest_count t = u32 (Z.of_nat (length (dests t))) /\
    resolve_count t = u32 (Z.of_nat (length (resolve t))) /\
    (0 < max_targets test -> num_targets t <= max_targets test).
Proof.
  intros Hnt Hm Hts.
  destruct (populate_loop_spec nt (max_targets test) document no_targets ts Hnt Hm Hts)
    as (d' & t & used & rest & Hp & Hsp & (Hd & Hr & Hs) & Hd' & Hrest & Hused);
    [apply counts_ok_nil|].
  exists d', t, used, rest. unfold populate_target_lists. rewrite Hp. cbn.
  split_and!; auto.
  - intros Hne. apply Hused; [done|]. unfold num_targets. cbn. lia.
  - intros Hne. by apply Hrest.
Qed.

Definition icmp_like : test_t := {| test_name := str "skeleton"; max_targets := 1; min_targets := 1 |}.

Lemma populate_target_lists_bounded_witness :
  exists document' t used rest,
    populate_target_lists [] icmp_like sample_doc (Some (target_array [2; 4]))
    = Ok (document', t, Some (target_array rest)) /\
    [2; 4] = used ++ rest /\ ([2; 4] <> [] -> used <> []) /\ targets_ok document' [2; 4] /\
    (rest <> [] -> num_targets t = 1) /\
    dest_count t = u32 (Z.of_nat (length (dests t))) /\
    resolve_count t = u32 (Z.of_nat (length (resolve t))) /\
    (0 < 1 -> num_targets t <= 1).
Proof.
  apply (populate_target_lists_bounded [] icmp_like sample_doc [2; 4]).
  - intros name. by exists None.
  - cbn. lia.
  - intros i Hi. rewrite !elem_of_cons, elem_of_nil in Hi. destruct Hi as [->|[->|[]]].
    + exists (str "www.example.org!2!v4"), (str "www.example.org"), [str "2"; str "v4"]. done.
    + exists (str "wand.net.nz"), (str "wand.net.nz"), []. done.
Defined.

(** ** What a target stands for *)

(** The addresses a target adds, or the name to resolve at test time. *)
Definition target_view (nt : list nametable_t) (s : cstr) : list addrinfo + resolve_dest :=
  match strtok_all BANG s with
  | [] => inl []
  | a :: opts =>
      let '(family, count) := target_options opts AF_UNSPEC 0 in
      match find_name a nt with
      | Ok (Some i) =>
          inl (filter (fun x => family = AF_UNSPEC \/ family = ai_family x)
                 (default [] (nt_addr <$> nt !! i)))
      | _ => inr {| rd_name := a; rd_count := u8 count; rd_family := family |}
      end
  end.

Definition view_dests (v : list addrinfo + resolve_dest) : list addrinfo :=
  match v with inl l => l | inr _ => [] end.
Definition view_resolve (v : list addrinfo + resolve_dest) : option resolve_dest :=
  match v with inl _ => None | inr r => Some r end.

(** No limit in a target string. *)
Definition unlimited (s : cstr) : Prop :=
  snd (target_options (tail (strtok_all BANG s)) AF_UNSPEC 0) = 0.

Definition scalar_at (document : yaml_document) (i : Z) : cstr :=
  match document !! i with Some (YScalar s) => s | _ => [] end.

Lemma add_addresses_all family t chain :
  exists n, add_addresses 0 family 0 t chain =
  {| dest_count := n; resolve_count := resolve_count t;
     dests := dests t ++ filter (fun x => family = AF_UNSPEC \/ family = ai_family x) chain;
     resolve := resolve t |}.
Proof.
  revert t. induction chain as [|a chain IH]; intros t.
  - exists (dest_count t). destruct t. cbn. by rewrite app_nil_r.
  - cbn [add_addresses Z.gtb Z.compare andb orb].
    destruct (Z.eqb_spec family AF_UNSPEC) as [E|E], (Z.eqb_spec family (ai_family a)) as [E'|E'];
      cbn [orb];
      match goal with |- context [add_addresses _ _ _ ?u _] => destruct (IH u) as [n Hn] end;
      exists n; rewrite Hn;
      first [rewrite filter_cons_True by tauto | rewrite filter_cons_False by tauto];
      cbn [dests resolve resolve_count]; rewrite <- ?app_assoc; reflexivity.
Qed.

Lemma populate_loop_all nt document t ts :
  nt_ok nt -> NoDup ts -> targets_ok document ts ->
  (forall i, i ∈ ts -> unlimited (scalar_at document i)) ->
  exists document' t',
    populate_loop nt 0 document t (target_array ts) = Ok (document', t', target_array []) /\
    dests t' = dests t ++ mjoin (view_dests <$> (target_view nt <$> (scalar_at document <$> ts))) /\
    resolve t' = rev (omap view_resolve (target_view nt <$> (scalar_at document <$> ts))) ++ resolve t.
Proof.
  intros Hnt. revert document t. induction ts as [|i ts IH]; intros document t Hnd Hts Hun.
  { exists document, t. cbn. by rewrite app_nil_r. }
  inversion Hnd as [|? ? Hi Hnd']; subst.
  change (target_array (i :: ts)) with (Some i :: target_array ts). cbn [populate_loop Z.eqb orb].
  destruct (Hts i) as (s & a & opts & Hs & Htok); [left|]. rewrite Hs, Htok.
  specialize (Hun i ltac:(left)) as Huni.
  assert (Hsc : scalar_at document i = s) by (unfold scalar_at; by rewrite Hs).
  unfold unlimited in Huni. rewrite Hsc, Htok in Huni. cbn [tail] in Huni.
  set (d1 := <[i := YScalar (strtok_left BANG s)]> document).
  assert (Hsame : forall j, j ∈ ts -> d1 !! j = document !! j).
  { intros j Hj. apply lookup_insert_ne. by intros ->. }
  assert (Hd1 : targets_ok d1 ts).
  { intros j Hj. rewrite Hsame by done. apply Hts. by right. }
  assert (Hscal : scalar_at d1 <$> ts = scalar_at document <$> ts).
  { apply list_fmap_ext. intros k j Hk. unfold scalar_at.
    by rewrite Hsame by (by eapply list_elem_of_lookup_2). }
  assert (Hun1 : forall j, j ∈ ts -> unlimited (scalar_at d1 j)).
  { intros j Hj. unfold scalar_at. rewrite Hsame by done. apply Hun. by right. }
  cbn [fmap list_fmap]. rewrite Hsc. unfold target_view at 1 3. rewrite Htok.
  destruct (target_options opts AF_UNSPEC 0) as [family count]. cbn [snd] in Huni. subst count.
  unfold name_to_address. destruct (Hnt a) as ([j|] & Hf); rewrite Hf; cbn [mbind res_bind].
  - destruct (find_name_lt _ _ _ Hf) as (item & Hj). rewrite Hj. cbn [fmap option_fmap option_map default].
    destruct (add_addresses_all family t (nt_addr item)) as [n ->].
    edestruct (IH d1) as (d' & t' & -> & Hd & Hr); [done..|]. rewrite Hscal in Hd, Hr.
    exists d', t'. split; [done|]. cbn [dests resolve] in *. cbn. by rewrite Hd, Hr, <- app_assoc.
  - edestruct (IH d1) as (d' & t' & -> & Hd & Hr); [done..|]. rewrite Hscal in Hd, Hr.
    exists d', t'. split; [done|]. cbn [dests resolve] in *. cbn. by rewrite Hd, Hr, <- app_assoc.
Qed.

(** For a test without a maximum, whose targets are distinct nodes without a
    count, every target is honoured: names in the nametable add their
    addresses of the wanted family in order, and every other name is kept to be
    resolved, with the family asked for. *)
Theorem populate_target_lists_complete nt test document ts :
  nt_ok nt -> max_targets test = 0 -> NoDup ts -> targets_ok document ts ->
  (forall i, i ∈ ts -> unlimited (scalar_at document i)) ->
  exists document' t,
    populate_target_lists nt test document (Some (target_array ts))
    = Ok (document', t, Some (target_array [])) /\
    dests t = mjoin (view_dests <$> (target_view nt <$> (scalar_at document <$> ts))) /\
    resolve t = rev (omap view_resolve (target_view nt <$> (scalar_at document <$> ts))).
Proof.
  intros Hnt Hm Hnd Hts Hun. unfold populate_target_lists. rewrite Hm.
  destruct (populate_loop_all nt document no_targets ts Hnt Hnd Hts Hun) as (d & t & -> & Hd & Hr).
  exists d, t. cbn. split_and!; [done..|]. rewrite Hr. apply app_nil_r.
Qed.

Lemma populate_target_lists_complete_witness :
  exists document' t,
    populate_target_lists [] {| test_name := str "icmp"; max_targets := 0; min_targets := 1 |}
      (<[2 := YScalar (str "www.example.org!v6")]> sample_doc) (Some (target_array [2; 4]))
    = Ok (document', t, Some (target_array [])) /\
    dests t = [] /\
    resolve t = [ {| rd_name := str "wand.net.nz"; rd_count := 0; rd_family := AF_UNSPEC |};
                  {| rd_name := str "www.example.org"; rd_count := 0; rd_family := AF_INET6 |} ].
Proof.
  destruct (populate_target_lists_complete []
    {| test_name := str "icmp"; max_targets := 0; min_targets := 1 |}
    (<[2 := YScalar (str "www.example.org!v6")]> sample_doc) [2; 4]) as (d & t & H & Hd & Hr).
  - intros name. by exists None.
  - reflexivity.
  - repeat constructor; rewrite ?elem_of_cons, elem_of_nil; intros H; repeat destruct H as [H|H]; done.
  - intros i Hi. rewrite !elem_of_cons, elem_of_nil in Hi. destruct Hi as [->|[->|[]]].
    + exists (str "www.example.org!v6"), (str "www.example.org"), [str "v6"]. done.
    + exists (str "wand.net.nz"), (str "wand.net.nz"), []. done.
  - intros i Hi. rewrite !elem_of_cons, elem_of_nil in Hi. by destruct Hi as [->|[->|[]]].
  - exists d, t. split_and!; [exact H|by rewrite Hd|by rewrite Hr].
Defined.

(** ** The documented forms of a target *)

(** name, name!n, name!v4, name!v6, name!n!v4 and name!n!v6 *)
Definition target_string (name : cstr) (count : option cstr) (family : Z) : cstr :=
  name ++ (match count with Some ds => "!"%char :: ds | None => [] end)
       ++ (if family =? AF_INET then str "!v4" else if family =? AF_INET6 then str "!v6" else []).

Definition word (s : cstr) : Prop := s <> [] /\ Forall (fun c => c ∉ BANG) s.
Definition numeral (s : cstr) : Prop :=
  word s /\ match s with c :: _ => c <> "*"%char /\ c <> "v"%char | [] => False end.

Definition family_ok (family : Z) : Prop := family = AF_UNSPEC \/ family = AF_INET \/ family = AF_INET6.
Definition count_of (count : option cstr) : Z :=
  match count with Some ds => u16 (atoi ds) | None => 0 end.

Ltac not_bang :=
  split; [discriminate|]; repeat constructor; vm_compute; intros H; inversion H; subst;
  match goal with H : _ ∈ [] |- _ => inversion H end.

Lemma bang_in : "!"%char ∈ BANG.
Proof. left. Qed.

Lemma target_options_numeral ds opts family count :
  numeral ds ->
  target_options (ds :: opts) family count = target_options opts family (u16 (atoi ds)).
Proof.
  intros [_ H]. destruct ds as [|c ds]; [done|]. destruct H as [Hs Hv]. cbn [target_options].
  unfold strncmp_eq. rewrite !bool_decide_eq_false_2; [done|..]; cbn; congruence.
Qed.

Lemma family_options family :
  family_ok family ->
  let suffix := if family =? AF_INET then str "!v4" else if family =? AF_INET6 then str "!v6" else [] in
  (suffix = [] /\ family = AF_UNSPEC) \/
  exists o, suffix = "!"%char :: o /\ word o /\
    forall count, target_options [o] AF_UNSPEC count = (family, count).
Proof.
  intros [ -> | [ -> | -> ] ]; cbn; [by left|right..].
  - exists (str "v4"). split_and!; [done|not_bang|done].
  - exists (str "v6"). split_and!; [done|not_bang|done].
Qed.

Lemma target_string_tokens name count family :
  word name -> (forall ds, count = Some ds -> numeral ds) -> family_ok family ->
  strtok_left BANG (target_string name count family) = name /\
  exists opts, strtok_all BANG (target_string name count family) = name :: opts /\
    target_options opts AF_UNSPEC 0 = (family, count_of count).
Proof.
  intros [Hne Hname] Hcount Hfam. unfold target_string.
  destruct (family_options family Hfam) as [[-> ->]|(o & -> & [Hone Ho] & Hopt)];
    destruct count as [ds|]; cbn [app].
  - destruct (Hcount ds eq_refl) as [[Hdne Hds] Hnum] eqn:E. rewrite app_nil_r.
    split; [by apply strtok_left_app, bang_in|]. exists [ds].
    rewrite strtok_cons, (strtok_word _ ds) by auto using bang_in. split; [done|].
    by rewrite target_options_numeral by (by apply Hcount).
  - rewrite app_nil_r. split.
    + unfold strtok_left. destruct name as [|x name]; [done|]. inversion Hname; subst.
      rewrite bool_decide_eq_false_2 by done. by apply cut_token_all.
    + exists []. by rewrite strtok_word.
  - destruct (Hcount ds eq_refl) as [[Hdne Hds] Hnum] eqn:E.
    split; [by apply strtok_left_app, bang_in|]. exists [ds; o].
    rewrite !strtok_cons, (strtok_word _ o) by auto using bang_in. split; [done|].
    rewrite target_options_numeral by (by apply Hcount). apply Hopt.
  - split; [by apply strtok_left_app, bang_in|]. exists [o].
    rewrite strtok_cons, (strtok_word _ o) by auto using bang_in. by rewrite Hopt.
Qed.

Lemma populate_loop_name nt max document t node targets name count family :
  word name -> (forall ds, count = Some ds -> numeral ds) -> family_ok family ->
  find_name name nt = Ok None -> max = 0 \/ total_count t < max ->
  document !! node = Some (YScalar (target_string name count family)) ->
  populate_loop nt max document t (Some node :: targets) =
  populate_loop nt max (<[node := YScalar name]> document)
    {| dest_count := dest_count t; resolve_count := u32 (resolve_count t + 1); dests := dests t;
       resolve := {| rd_name := name; rd_count := u8 (count_of count); rd_family := family |}
                    :: resolve t |} targets.
Proof.
  intros Hname Hcount Hfam Hnt Hmax Hdoc. cbn [populate_loop].
  destruct (target_string_tokens name count family Hname Hcount Hfam) as (Hl & opts & Hall & Hopt).
  replace ((max =? 0) || (total_count t <? max)) with true.
  2:{ destruct Hmax as [->|H]; [done|]. apply Z.ltb_lt in H. rewrite H. by rewrite orb_true_r. }
  rewrite Hdoc, Hl, Hall, Hopt. cbn [name_to_address]. rewrite Hnt. done.
Qed.

(** The documented target syntax.  A target "name", optionally with "!n" and
    "!v4" or "!v6", whose name is not in the nametable, becomes one name to
    resolve with that address family and the count n modulo 256 (the count has
    8 bits in the list of names); its string is cut down to the name. *)
Theorem target_syntax nt test document node name count family :
  word name -> (forall ds, count = Some ds -> numeral ds) -> family_ok family ->
  find_name name nt = Ok None -> 0 <= max_targets test ->
  document !! node = Some (YScalar (target_string name count family)) ->
  populate_target_lists nt test document (Some (target_array [node])) =
  Ok (<[node := YScalar name]> document,
      {| dest_count := 0; resolve_count := 1; dests := [];
         resolve := [{| rd_name := name; rd_count := u8 (count_of count); rd_family := family |}] |},
      Some (target_array [])).
Proof.
  intros Hname Hcount Hfam Hnt Hmax Hdoc. unfold populate_target_lists.
  change (target_array [node]) with [Some node; None].
  rewrite (populate_loop_name nt _ document no_targets node [None] name count family); auto.
  change (total_count no_targets) with 0. lia.
Qed.

Lemma target_syntax_witness :
  populate_target_lists [] icmp_like
    (<[7 := YScalar (str "www.example.org!2!v6")]> ∅) (Some (target_array [7])) =
  Ok (<[7 := YScalar (str "www.example.org")]> (<[7 := YScalar (str "www.example.org!2!v6")]> ∅),
      {| dest_count := 0; resolve_count := 1; dests := [];
         resolve := [{| rd_name := str "www.example.org"; rd_count := 2; rd_family := AF_INET6 |}] |},
      Some (target_array [])).
Proof.
  apply (target_syntax [] icmp_like _ 7 (str "www.example.org") (Some (str "2")) AF_INET6).
  - not_bang.
  - intros ds [= <-]. split; [not_bang|split; discriminate].
  - right. right. reflexivity.
  - reflexivity.
  - cbn. lia.
  - reflexivity.
Defined.

(** A target that is an alias loses its options.  Where the same node is a
    target twice, as an alias in the schedule makes it, the first use cuts the
    string, so the second use is taken without count and address family. *)
Theorem aliased_target_loses_options nt test document node name count family :
  word name -> (forall ds, count = Some ds -> numeral ds) -> family_ok family ->
  find_name name nt = Ok None -> max_targets test = 0 ->
  document !! node = Some (YScalar (target_string name count family)) ->
  exists document' t,
  populate_target_lists nt test document (Some (target_array [node; node]))
  = Ok (document', t, Some (target_array [])) /\
  resolve t = [ {| rd_name := name; rd_count := 0; rd_family := AF_UNSPEC |};
                {| rd_name := name; rd_count := u8 (count_of count); rd_family := family |} ].
Proof.
  intros Hname Hcount Hfam Hnt Hmax Hdoc. unfold populate_target_lists. rewrite Hmax.
  change (target_array [node; node]) with [Some node; Some node; None].
  rewrite (populate_loop_name nt _ document no_targets node [Some node; None] name count family) by auto.
  rewrite (populate_loop_name nt _ (<[node := YScalar name]> document) _ node [None] name None AF_UNSPEC).
  - do 2 eexists. split; reflexivity.
  - done.
  - done.
  - by left.
  - done.
  - by left.
  - rewrite lookup_insert_eq. unfold target_string. cbn. by rewrite app_nil_r.
Qed.

Lemma aliased_target_loses_options_witness :
  exists document' t,
  populate_target_lists [] {| test_name := str "icmp"; max_targets := 0; min_targets := 1 |}
    (<[7 := YScalar (str "www.example.org!1!v4")]> ∅) (Some (target_array [7; 7]))
  = Ok (document', t, Some (target_array [])) /\
  resolve t = [ {| rd_name := str "www.example.org"; rd_count := 0; rd_family := AF_UNSPEC |};
                {| rd_name := str "www.example.org"; rd_count := 1; rd_family := AF_INET |} ].
Proof.
  apply (aliased_target_loses_options [] {| test_name := str "icmp"; max_targets := 0; min_targets := 1 |}
           _ 7 (str "www.example.org") (Some (str "1")) AF_INET).
  - not_bang.
  - intros ds [= <-]. split; [not_bang|split; discriminate].
  - right. left. reflexivity.
  - reflexivity.
  - reflexivity.
  - reflexivity.
Defined.

(** A count of 256 asks for no limit. *)
Example count_truncated :
  populate_target_lists [] icmp_like (<[7 := YScalar (str "www.example.org!256")]> ∅)
    (Some (target_array [7])) =
  populate_target_lists [] icmp_like (<[7 := YScalar (str "www.example.org!0")]> ∅)
    (Some (target_array [7])).
Proof. vm_compute. reflexivity. Qed.

(** The count of a name in the nametable is compared with the number of targets
    the test has so far: the second name gets no address. *)
Definition two_names : list nametable_t :=
  [ {| nt_addr := [entry_of (str "a") (ip4 10 0 0 1); entry_of (str "a") (ip4 10 0 0 2)]; nt_count := 2 |};
    {| nt_addr := [entry_of (str "b") (ip4 10 0 0 3)]; nt_count := 1 |} ].
Example count_is_of_all_targets :
  exists document' t,
  populate_target_lists two_names {| test_name := str "icmp"; max_targets := 0; min_targets := 1 |}
    (<[1 := YScalar (str "a!1")]> (<[2 := YScalar (str "b!1")]> ∅)) (Some (target_array [1; 2]))
  = Ok (document', t, Some (target_array [])) /\ dests t = [entry_of (str "a") (ip4 10 0 0 1)].
Proof. do 2 eexists. split; vm_compute; reflexivity. Qed.
