(* ===== verification/Schedule.v ===== *)
(** The test schedule (src/measured/schedule.c): scheduled tests as timer events,
    comparing and merging them, creating them from a schedule file, and
    clearing the schedule.

    Argument vectors are allocated blocks that several tests may point to, so
    they live in a heap and free() removes them: a second free() or a use after
    it is a fault.  The events of an event base are a list in the order in
    which event_base_foreach_event() visits them; where libevent puts a new
    event in that order is a parameter. *)
From stdpp Require Import gmap.
From S2P Require Import Prelude CLib Address SchedTime ParamString Nametable Targets.
#[local] Open Scope Z_scope.

(** ** Data *)

(** test_schedule_item_t *)
Record test_item : Type := {
  abstime : timeval;
  interval : timeval;
  start : Z;
  end_ : Z;
  period : schedule_period;
  test : test_t;
  tgts : target_lists;
  params : option Z
}.

(** A timer event of measured, by its callback: run_scheduled_test(),
    timer_fetch_callback() or something else; tests carry their next timeout. *)
Inductive event : Type :=
| RunTest (item : test_item) (next : timeval)
| FetchSchedule (url : cstr)
| OtherEvent.

(** Argument vectors by address. *)
Abbreviation param_heap := (gmap Z (list cstr)).

Record sched : Type := { doc : yaml_document; heap : param_heap; base : list event }.

#[export] Instance schedule_period_eq_dec : EqDecision schedule_period.
Proof. solve_decision. Defined.

(** ** Comparing and merging *)

(** The argument loop of compare_test_items(): its condition tests [b->params]
    and not [b->params[i]], so [strcmp] may get a NULL from [b]. *)
Fixpoint compare_params (a b : list cstr) : res bool :=
  match a with
  | [] => Ok (match b with [] => true | _ => false end)
  | x :: a' =>
      match b with
      | [] => Fault NullDeref
      | y :: b' => if strcmp_eq x y then compare_params a' b' else Ok false
      end
  end.

Definition deref (h : param_heap) (p : Z) : res (list cstr) :=
  match h !! p with Some l => Ok l | None => Fault UseAfterFree end.

Definition compare_test_items (h : param_heap) (a b : test_item) : res bool :=
  if negb (bool_decide (test a = test b)) then Ok false
  else if negb (bool_decide (interval a = interval b)) then Ok false
  else if negb (bool_decide (period a = period b)) then Ok false
  else if negb (start a =? start b) then Ok false
  else if negb (end_ a =? end_ b) then Ok false
  else match params a, params b with
       | Some p, Some q => x ← deref h p; y ← deref h q; compare_params x y
       | None, None => Ok true
       | _, _ => Ok false
       end.

(** check_test_compare_callback(): whether the event takes the new test. *)
Definition check_test_compare_callback (h : param_heap) (ev : event) (new : test_item) : res bool :=
  match ev with
  | RunTest sched_test _ =>
      same ← compare_test_items h sched_test new;
      Ok (same && ((max_targets (test new) =? 0)
                   || (total_count (tgts sched_test) <? max_targets (test new))))
  | _ => Ok false
  end.

(** event_base_foreach_event() with that callback: the first event it takes. *)
Fixpoint find_mergeable (h : param_heap) (new : test_item) (evs : list event)
    : res (option nat) :=
  match evs with
  | [] => Ok None
  | ev :: evs' =>
      hit ← check_test_compare_callback h ev new;
      if (hit : bool) then Ok (Some O)
      else r ← find_mergeable h new evs'; Ok (option_map S r)
  end.

Definition with_tgts (i : test_item) (t : target_lists) : test_item :=
  {| abstime := abstime i; interval := interval i; start := start i; end_ := end_ i;
     period := period i; test := test i; tgts := t; params := params i |}.

(** What merging makes of the targets of the scheduled test. *)
Definition merge_targets (old new : target_lists) : res target_lists :=
  if dest_count new >? 0 then
    d ← rd (dests new) 0;
    Ok {| dest_count := u32 (dest_count old + 1); resolve_count := resolve_count old;
          dests := dests old ++ [d]; resolve := resolve old |}
  else
    match resolve new with
    | [] => Fault NullDeref
    | r :: _ =>
        Ok {| dest_count := dest_count old; resolve_count := u32 (resolve_count old + 1);
              dests := dests old; resolve := r :: resolve old |}
    end.

Definition merge_scheduled_tests (h : param_heap) (evs : list event) (new : test_item)
    : res (list event * bool) :=
  hit ← find_mergeable h new evs;
  match hit with
  | None => Ok (evs, false)
  | Some i =>
      match evs !! i with
      | Some (RunTest old next) =>
          t ← merge_targets (tgts old) (tgts new);
          Ok (<[i := RunTest (with_tgts old t) next]> evs, true)
      | _ => Fault OutOfBounds
      end
  end.

(** ** Freeing *)

(** free_test_schedule_item(): the effect on the shared heap; the lists of
    targets belong to the item. *)
Definition free_test_schedule_item (h : param_heap) (item : test_item) : res param_heap :=
  match params item with
  | None => Ok h
  | Some p => _ ← deref h p; Ok (delete p h)
  end.

(** clear_test_schedule(): collect the events (the callback prepends, so the
    list is in reverse order), then drop the tests, and the fetches if [all].  The list
    holds the events that event_base_foreach_event() meets, here and in the other
    functions on [base]; an event that is about to run is in an active queue and not in
    the list (Events.v has the queues and the whole base after clearing). *)
Fixpoint clear_loop (all : bool) (h : param_heap) (collected kept : list event)
    : res (param_heap * list event) :=
  match collected with
  | [] => Ok (h, kept)
  | RunTest item next :: rest =>
      h ← free_test_schedule_item h item; clear_loop all h rest kept
  | FetchSchedule url :: rest =>
      clear_loop all h rest (if all then kept else FetchSchedule url :: kept)
  | OtherEvent :: rest => clear_loop all h rest (OtherEvent :: kept)
  end.
Definition clear_test_schedule (all : bool) (h : param_heap) (evs : list event)
    : res (param_heap * list event) := clear_loop all h (rev evs) [].

(** ** Creating tests from the schedule file *)

Definition get_test_by_name (amp_tests : list test_t) (name : cstr) : option test_t :=
  find (fun t => strcmp_eq (test_name t) name) amp_tests.

(** The local variables the loop over the YAML mapping sets. *)
Record config : Type := {
  c_start : Z; c_end : Z; c_frequency : Z;
  c_period_str : option cstr; c_testname : option cstr;
  c_params : option Z; c_params_present : bool;
  c_targets : option str_array
}.
Definition default_config : config :=
  {| c_start := 0; c_end := -1; c_frequency := -1; c_period_str := None; c_testname := None;
     c_params := None; c_params_present := false; c_targets := None |}.

(** [assert(value->type == YAML_SCALAR_NODE)] and the string. *)
Definition scalar_value (document : yaml_document) (node : Z) : res cstr :=
  match document !! node with
  | Some (YScalar s) => Ok s
  | Some _ => Fault AssertFail
  | None => Fault NullDeref
  end.

Definition seconds (s : cstr) : Z := i64 (atoi s * 1000000).

(** One key of the mapping. *)
Definition read_key (document : yaml_document) (h : param_heap) (c : config) (key : cstr) (value : Z)
    : res (param_heap * config) :=
  let '(Build_config st en fr pe tn pa pp ta) := c in
  if strcmp_eq key (str "test") then
    s ← scalar_value document value; Ok (h, Build_config st en fr pe (Some s) pa pp ta)
  else if strcmp_eq key (str "frequency") then
    s ← scalar_value document value; Ok (h, Build_config st en (seconds s) pe tn pa pp ta)
  else if strcmp_eq key (str "start") then
    s ← scalar_value document value; Ok (h, Build_config (seconds s) en fr pe tn pa pp ta)
  else if strcmp_eq key (str "end") then
    s ← scalar_value document value; Ok (h, Build_config st (seconds s) fr pe tn pa pp ta)
  else if strcmp_eq key (str "period") then
    s ← scalar_value document value; Ok (h, Build_config st en fr (Some s) tn pa pp ta)
  else if strcmp_eq key (str "args") then
    s ← scalar_value document value;
    parsed ← parse_param_string (Some s);
    match parsed with
    | Some l =>
        let p := fresh (dom h) in
        Ok (<[p := l]> h, Build_config st en fr pe tn (Some p) true ta)
    | None => Ok (h, Build_config st en fr pe tn None true ta)
    end
  else if strcmp_eq key (str "target") then
    let targets := default [None] ta in
    r ← parse_test_targets (S (size document)) document value targets (Z.of_nat (length targets));
    Ok (h, Build_config st en fr pe tn pa pp (Some (fst r)))
  else Ok (h, c).

(** The loop over the pairs; [None] is the "goto end" of a key that is no scalar. *)
Fixpoint read_pairs (document : yaml_document) (h : param_heap) (c : config)
    (pairs : list (Z * Z)) : res (param_heap * option config) :=
  match pairs with
  | [] => Ok (h, Some c)
  | (key, value) :: pairs' =>
      match document !! key with
      | None => Fault NullDeref
      | Some (YScalar k) => r ← read_key document h c k value; read_pairs document (fst r) (snd r) pairs'
      | Some _ => Ok (h, None)
      end
  end.

(** The checks between the two loops: the settings of the test, or nothing. *)
Record settings : Type := {
  s_test : test_t; s_period : schedule_period; s_start : Z; s_end : Z; s_frequency : Z;
  s_params : option Z; s_targets : option str_array
}.
Definition check_config (amp_tests : list test_t) (c : config) : option settings :=
  testname ← c_testname c;
  test_definition ← get_test_by_name amp_tests testname;
  let period := match c_period_str c with
                | None => SCHEDULE_PERIOD_DAILY | Some s => get_period_label s end in
  if bool_decide (period = SCHEDULE_PERIOD_INVALID) then None
  else if check_time_range (c_start c) period <? 0 then None
  else
    end_ ← (if c_end c <? 0 then Some (i64 (get_period_max_value period * 1000000))
            else if check_time_range (c_end c) period <? 0 then None else Some (c_end c));
    frequency ← (if c_frequency c <? 0 then Some (get_period_default_frequency period * 1000000)
                 else if check_time_range (c_frequency c) period <? 0 then None
                 else Some (c_frequency c));
    if c_params_present c && bool_decide (c_params c = None) then None
    else Some {| s_test := test_definition; s_period := period; s_start := c_start c;
                 s_end := end_; s_frequency := frequency; s_params := c_params c;
                 s_targets := c_targets c |}.

Section Create.
(** The clock: the cached time of the event base, or gettimeofday(). *)
Context (cached : option timeval) (gettimeofday : timeval).
(** Where event_add() puts a new event in the order of the event base. *)
Context (event_add : list event -> event -> list event).
Context (amp_tests : list test_t) (name_table : list nametable_t).

(** [remaining != NULL && *remaining == NULL], and the other way. *)
Definition at_end (remaining : option str_array) : res bool :=
  match remaining with None => Ok false | Some a => x ← rd a 0; Ok (bool_decide (x = None)) end.
Definition more_left (remaining : option str_array) : res bool :=
  match remaining with None => Ok false | Some a => x ← rd a 0; Ok (bool_decide (x <> None)) end.

(** One pass of the do-while loop: the state, the rest of the targets, and
    whether a break was taken. *)
Definition schedule_pass (s : settings) (st : sched) (remaining : option str_array)
    : res (sched * option str_array * bool) :=
  r ← populate_target_lists name_table (s_test s) (doc st) remaining;
  let '(document, t, remaining) := r in
  let '(next, abst) := get_next_schedule_time cached gettimeofday (s_period s) (s_start s) (s_end s)
      (US_FROM_TV (Tv (s_frequency s / 1000000) (s_frequency s mod 1000000))) false in
  let item := {| abstime := abst;
                 interval := Tv (s_frequency s / 1000000) (s_frequency s mod 1000000);
                 start := s_start s; end_ := s_end s; period := s_period s; test := s_test s;
                 tgts := t; params := s_params s |} in
  if total_count t <? min_targets (s_test s) then
    h ← free_test_schedule_item (heap st) item;
    Ok ({| doc := document; heap := h; base := base st |}, remaining, true)
  else
    last ← at_end remaining;
    merged ← (if (last : bool) && negb (max_targets (s_test s) =? 1)
              then merge_scheduled_tests (heap st) (base st) item else Ok (base st, false));
    if snd merged : bool then
      h ← free_test_schedule_item (heap st) item;
      Ok ({| doc := document; heap := h; base := fst merged |}, remaining, true)
    else
      Ok ({| doc := document; heap := heap st; base := event_add (base st) (RunTest item next) |},
          remaining, false).

(** The loop itself; every pass uses up a target. *)
Fixpoint schedule_loop (fuel : nat) (s : settings) (st : sched) (remaining : option str_array)
    : res sched :=
  match fuel with
  | O => Fault OutOfFuel
  | S fuel' =>
      r ← schedule_pass s st remaining;
      let '(st, remaining, stop) := r in
      if (stop : bool) then Ok st
      else more ← more_left remaining;
           if (more : bool) then schedule_loop fuel' s st remaining else Ok st
  end.

Definition loop_bound (targets : option str_array) : nat := S (length (default [] targets)).

(** create_and_schedule_test() for the node [index] *)
Definition create_and_schedule_test (st : sched) (index : Z) : res sched :=
  match doc st !! index with
  | Some (YMapping pairs) =>
      r ← read_pairs (doc st) (heap st) default_config pairs;
      let st := {| doc := doc st; heap := fst r; base := base st |} in
      match snd r ≫= check_config amp_tests with
      | None => Ok st
      | Some s => schedule_loop (loop_bound (s_targets s)) s st (s_targets s)
      end
  | _ => Ok st
  end.

Fixpoint create_all (st : sched) (items : list Z) : res sched :=
  match items with
  | [] => Ok st
  | i :: items' => st ← create_and_schedule_test st i; create_all st items'
  end.

Fixpoint read_tests (st : sched) (pairs : list (Z * Z)) : res sched :=
  match pairs with
  | [] => Ok st
  | (k, v) :: pairs' =>
      match doc st !! k, doc st !! v with
      | Some (YScalar key), Some (YSequence items) =>
          if strcmp_eq key (str "tests")
          then st ← create_all st items; read_tests st pairs'
          else read_tests st pairs'
      | Some _, Some _ => read_tests st pairs'
      | None, _ => Fault NullDeref
      | Some (YScalar _), None => Fault NullDeref
      | Some _, None => read_tests st pairs'
      end
  end.

(** read_schedule_file(): [None] is a file that does not open or parse; the
    root node has index 1. *)
Definition read_schedule_file (h : param_heap) (evs : list event) (loaded : option yaml_document)
    : res (param_heap * list event) :=
  match loaded with
  | None => Ok (h, evs)
  | Some document =>
      match document !! 1 with
      | Some (YMapping pairs) =>
          st ← read_tests {| doc := document; heap := h; base := evs |} pairs;
          Ok (heap st, base st)
      | _ => Ok (h, evs)
      end
  end.
End Create.

(** ** Comparing two tests *)

Lemma compare_params_spec a b :
  compare_params a b =
  if bool_decide (b `prefix_of` a /\ a <> b) then Fault NullDeref else Ok (bool_decide (a = b)).
Proof.
  revert b. induction a as [|x a IH]; intros b; cbn.
  - destruct b as [|y b].
    + rewrite bool_decide_eq_false_2 by tauto. by rewrite bool_decide_eq_true_2.
    + rewrite !bool_decide_eq_false_2; [done|done|].
      intros [H _]. by apply prefix_nil_inv in H.
  - destruct b as [|y b].
    + rewrite bool_decide_eq_true_2; [done|]. split; [apply prefix_nil|done].
    + unfold strcmp_eq. destruct (decide (x = y)) as [->|Hne].
      * rewrite (bool_decide_eq_true_2 (y = y)) by done. rewrite IH.
        rewrite (bool_decide_ext (b `prefix_of` a /\ a <> b)
                   (y :: b `prefix_of` y :: a /\ y :: a <> y :: b)).
        2:{ split; intros [H1 H2]; (split; [|congruence]).
            - by apply prefix_cons. - by apply prefix_cons_inv_2 in H1. }
        rewrite (bool_decide_ext (a = b) (y :: a = y :: b)); [done|]. split; congruence.
      * rewrite (bool_decide_eq_false_2 (x = y)) by done.
        rewrite !bool_decide_eq_false_2; [done|congruence|].
        intros [H _]. apply prefix_cons_inv_1 in H. congruence.
Qed.

(** Same test at the same times. *)
Definition same_times (a b : test_item) : Prop :=
  test a = test b /\ interval a = interval b /\ period a = period b /\
  start a = start b /\ end_ a = end_ b.
#[export] Instance same_times_dec a b : Decision (same_times a b).
Proof. unfold same_times. apply _. Defined.

Lemma compare_test_items_times h a b :
  compare_test_items h a b =
  if bool_decide (same_times a b) then
    match params a, params b with
    | Some p, Some q => x ← deref h p; y ← deref h q; compare_params x y
    | None, None => Ok true
    | _, _ => Ok false
    end
  else Ok false.
Proof.
  unfold compare_test_items.
  assert (Hno : ~ same_times a b -> bool_decide (same_times a b) = false)
    by apply bool_decide_eq_false_2.
  repeat match goal with
  | |- context [negb (bool_decide ?P)] => destruct (decide P) as [?|?];
      [rewrite (bool_decide_eq_true_2 P) by done
      |rewrite (bool_decide_eq_false_2 P) by done; rewrite Hno by (unfold same_times; tauto); done];
      cbn [negb]
  | |- context [negb (?x =? ?y)] => destruct (Z.eqb_spec x y) as [?|?]; cbn [negb];
      [|rewrite Hno by (unfold same_times; tauto); done]
  end.
  by rewrite (bool_decide_eq_true_2 (same_times a b)) by (unfold same_times; tauto).
Qed.

(** Comparing two scheduled tests.  Tests without arguments are the same
    exactly when test, interval, period, start and end agree.  For two tests
    with arguments, the comparison answers whether these and the arguments
    agree, unless the arguments of the new test are a proper prefix of those
    of the scheduled one: then it reads past the shorter list and passes a
    NULL to strcmp(). *)
Theorem compare_test_items_correct h a b :
  (params a = None /\ params b = None ->
   compare_test_items h a b = Ok (bool_decide (same_times a b))) /\
  (forall p q x y, params a = Some p -> params b = Some q -> h !! p = Some x -> h !! q = Some y ->
   compare_test_items h a b =
   if bool_decide (same_times a b /\ y `prefix_of` x /\ x <> y) then Fault NullDeref
   else Ok (bool_decide (same_times a b /\ x = y))).
Proof.
  rewrite compare_test_items_times. split.
  - intros [-> ->]. by destruct (bool_decide _).
  - intros p q x y -> -> Hp Hq. unfold deref. rewrite Hp, Hq. cbn. rewrite compare_params_spec.
    destruct (decide (same_times a b)) as [H|H].
    + rewrite (bool_decide_eq_true_2 _ H).
      rewrite (bool_decide_ext (same_times a b /\ y `prefix_of` x /\ x <> y)
                 (y `prefix_of` x /\ x <> y)) by tauto.
      by rewrite (bool_decide_ext (same_times a b /\ x = y) (x = y)) by tauto.
    + rewrite !bool_decide_eq_false_2 by tauto. done.
Qed.

(** ** Merging *)

Definition all_targets (t : target_lists) : list (addrinfo + resolve_dest) :=
  (inl <$> dests t) ++ (inr <$> resolve t).
(** The target that merging takes over. *)
Definition first_target (t : target_lists) : option (addrinfo + resolve_dest) := head (all_targets t).

Lemma merge_targets_spec max old new :
  0 <= max < 65536 -> counts_ok max old -> counts_ok max new ->
  0 < num_targets new < 4294967296 -> max = 0 \/ total_count old < max ->
  exists t x, merge_targets old new = Ok t /\ first_target new = Some x /\
    all_targets t ≡ₚ x :: all_targets old /\ counts_ok max t.
Proof.
  intros Hm (Hd & Hr & Hs) (Hd' & Hr' & Hs') Hne Hroom.
  assert (Hroom' : 0 < max -> num_targets old < max).
  { intros Hpos. rewrite <- (counts_total max) by (repeat split; auto with lia). lia. }
  unfold merge_targets, first_target, all_targets, num_targets in *.
  rewrite Hd'. destruct (dests new) as [|d ds].
  - cbn. destruct (resolve new) as [|r rs]; [cbn in *; lia|].
    do 2 eexists. split_and!; [done..| |].
    + cbn. by rewrite Permutation_middle.
    + split_and!; cbn [dest_count resolve_count dests resolve]; [done|rewrite Hr, u32_succ; f_equal; cbn; lia|].
      unfold num_targets. cbn [dests resolve length]. lia.
  - rewrite u32_id by (cbn in *; lia). rewrite (proj2 (Z.gtb_lt _ _)) by (cbn; lia).
    do 2 eexists. split_and!; [done..| |].
    + cbn. rewrite fmap_app. cbn. rewrite <- app_assoc. cbn. by rewrite Permutation_middle.
    + split_and!; cbn [dest_count resolve_count dests resolve]; [|done|].
      * by rewrite Hd, u32_succ, length_app.
      * unfold num_targets. cbn [dests resolve length]. rewrite length_app. cbn. lia.
Qed.

Lemma find_mergeable_Some h new evs i :
  find_mergeable h new evs = Ok (Some i) ->
  exists old next, evs !! i = Some (RunTest old next) /\
    compare_test_items h old new = Ok true /\
    (max_targets (test new) = 0 \/ total_count (tgts old) < max_targets (test new)).
Proof.
  revert i. induction evs as [|ev evs IH]; intros i; cbn [find_mergeable]; [done|].
  destruct (check_test_compare_callback h ev new) as [hit|] eqn:Ehit; [|done].
  cbn [mbind res_bind]. destruct hit.
  - intros [= <-]. destruct ev as [old next| |]; cbn in Ehit; [|done..].
    exists old, next. split; [done|]. destruct (compare_test_items h old new) as [same|]; [|done].
    injection Ehit as Ehit. apply andb_true_iff in Ehit as [-> Ehit]. split; [done|].
    apply orb_true_iff in Ehit as [E|E]; [left; lia|right; lia].
  - destruct (find_mergeable h new evs) as [[j|]|]; cbn; [|done..]. intros [= <-]. by apply IH.
Qed.

(** Merging a test into the schedule.  A merge replaces one event by the same
    test at the same times with one target more, the first target of the new
    test, and keeps the limits and counters of that event; the other targets
    of the new test, if it has more than one, are in no event. *)
Theorem merge_takes_first_target h evs new evs' :
  0 <= max_targets (test new) < 65536 -> counts_ok (max_targets (test new)) (tgts new) ->
  0 < num_targets (tgts new) < 4294967296 ->
  (forall old next, RunTest old next ∈ evs -> counts_ok (max_targets (test old)) (tgts old)) ->
  merge_scheduled_tests h evs new = Ok (evs', true) ->
  exists i old next t x,
    evs !! i = Some (RunTest old next) /\ evs' = <[i := RunTest (with_tgts old t) next]> evs /\
    same_times old new /\ first_target (tgts new) = Some x /\
    all_targets t ≡ₚ x :: all_targets (tgts old) /\ counts_ok (max_targets (test new)) t.
Proof.
  intros Hmax Hnew Hne Hold. unfold merge_scheduled_tests.
  destruct (find_mergeable h new evs) as [[i|]|] eqn:Ef; cbn; [|done..].
  apply find_mergeable_Some in Ef as (old & next & Hi & Hcmp & Hroom). rewrite Hi.
  assert (Hsame : same_times old new).
  { rewrite compare_test_items_times in Hcmp. by case_bool_decide. }
  assert (Hc : counts_ok (max_targets (test new)) (tgts old)).
  { destruct Hsame as [<- _]. apply (Hold old next). by eapply list_elem_of_lookup_2. }
  destruct (merge_targets_spec _ _ _ Hmax Hc Hnew Hne Hroom) as (t & x & -> & Hx & Hperm & Hct).
  cbn. intros [= <-]. exists i, old, next, t, x. done.
Qed.

(** ** Clearing the schedule *)

(** The argument vectors of the tests among the events. *)
Definition ev_params (ev : event) : option Z :=
  match ev with RunTest item _ => params item | _ => None end.
Definition stays (all : bool) (ev : event) : Prop :=
  match ev with RunTest _ _ => False | FetchSchedule _ => all = false | OtherEvent => True end.
#[export] Instance stays_dec all ev : Decision (stays all ev).
Proof. destruct ev; cbn; apply _. Defined.

Definition delete_all (ps : list Z) (h : param_heap) : param_heap := foldr delete h ps.

Lemma clear_loop_spec all h evs kept :
  let ps := omap ev_params evs in
  clear_loop all h evs kept =
  if bool_decide (NoDup ps /\ Forall (fun p => is_Some (h !! p)) ps)
  then Ok (delete_all (rev ps) h, rev (filter (stays all) evs) ++ kept)
  else Fault UseAfterFree.
Proof.
  revert h kept. induction evs as [|ev evs IH]; intros h kept; cbn zeta.
  { rewrite bool_decide_eq_true_2; [done|]. cbn. split; constructor. }
  assert (Hskip : forall k', omap ev_params (ev :: evs) = omap ev_params evs ->
    rev (filter (stays all) evs) ++ k' = rev (filter (stays all) (ev :: evs)) ++ kept ->
    clear_loop all h evs k' =
    (if bool_decide (NoDup (omap ev_params (ev :: evs)) /\
          Forall (fun p => is_Some (h !! p)) (omap ev_params (ev :: evs)))
     then Ok (delete_all (rev (omap ev_params (ev :: evs))) h,
              rev (filter (stays all) (ev :: evs)) ++ kept) else Fault UseAfterFree)).
  { intros k' -> <-. apply IH. }
  destruct ev as [item next|url|]; cbn [clear_loop].
  - unfold free_test_schedule_item. destruct (params item) as [p|] eqn:Ep.
    2:{ apply Hskip; [cbn; by rewrite Ep|]. by rewrite filter_cons_False by tauto. }
    assert (Hom : omap ev_params (RunTest item next :: evs) = p :: omap ev_params evs)
      by (cbn; by rewrite Ep).
    rewrite Hom, filter_cons_False by tauto. unfold deref.
    destruct (h !! p) as [l|] eqn:Eh; cbn [mbind res_bind].
    + rewrite IH. cbn zeta. set (ps := omap ev_params evs).
      destruct (decide (NoDup (p :: ps) /\ Forall (fun q => is_Some (h !! q)) (p :: ps))) as [H|H].
      * rewrite !bool_decide_eq_true_2; [|done|].
        2:{ destruct H as [H1 H2]. inversion H1; inversion H2; subst. split; [done|].
            apply Forall_forall. intros q Hq. rewrite lookup_delete_ne by congruence.
            by eapply Forall_forall in Hq; [|done]. }
        unfold delete_all. cbn [rev]. by rewrite foldr_app.
      * rewrite !bool_decide_eq_false_2; [done|done|]. intros [H1 H2]. apply H.
        assert (Hq : forall q, q ∈ ps -> q <> p /\ is_Some (h !! q)).
        { intros q Hq. eapply Forall_forall in Hq; [|exact H2]. cbn in Hq.
          destruct (decide (q = p)) as [->|]; [rewrite lookup_delete_eq in Hq; by destruct Hq|].
          by rewrite lookup_delete_ne in Hq by congruence. }
        split; constructor; [intros Hin; by destruct (Hq _ Hin)|done|by rewrite Eh|].
        apply Forall_forall. intros q Hin. by apply Hq.
    + rewrite bool_decide_eq_false_2; [done|]. intros [_ H]. inversion H as [|? ? [? Hx]]. congruence.
  - apply Hskip; [done|]. destruct all.
    + by rewrite filter_cons_False by done.
    + rewrite filter_cons_True by done. cbn [rev]. by rewrite <- app_assoc.
  - apply Hskip; [done|]. rewrite filter_cons_True by done. cbn [rev]. by rewrite <- app_assoc.
Qed.

(** Clearing frees every vector once, or faults. *)
Lemma clear_test_schedule_spec all h evs :
  let ps := omap ev_params evs in
  (NoDup ps /\ Forall (fun p => is_Some (h !! p)) ps ->
   clear_test_schedule all h evs = Ok (delete_all ps h, filter (stays all) evs)) /\
  (~ (NoDup ps /\ Forall (fun p => is_Some (h !! p)) ps) ->
   clear_test_schedule all h evs = Fault UseAfterFree).
Proof.
  intros ps. unfold clear_test_schedule. rewrite clear_loop_spec. cbn zeta.
  assert (Hrev : omap ev_params (rev evs) = rev ps).
  { subst ps. induction evs as [|e evs IH]; [done|]. cbn [rev]. rewrite omap_app, IH. cbn.
    destruct (ev_params e); [done|]. by rewrite app_nil_r. }
  rewrite Hrev, rev_involutive, filter_rev, rev_involutive, app_nil_r.
  assert (Hiff : NoDup ps /\ Forall (fun p => is_Some (h !! p)) ps <->
    NoDup (rev ps) /\ Forall (fun p => is_Some (h !! p)) (rev ps)).
  { by rewrite <- (Permutation_rev ps). }
  split; intros H.
  - by rewrite bool_decide_eq_true_2 by tauto.
  - by rewrite bool_decide_eq_false_2 by tauto.
Qed.
Lemma clear_schedule_cases all h evs :
  clear_test_schedule all h evs = Ok (delete_all (omap ev_params evs) h, filter (stays all) evs) \/
  clear_test_schedule all h evs = Fault UseAfterFree.
Proof.
  destruct (clear_test_schedule_spec all h evs) as [H1 H2].
  destruct (decide (NoDup (omap ev_params evs) /\ Forall (fun p => is_Some (h !! p)) (omap ev_params evs)));
    [left; by apply H1|right; by apply H2].
Qed.

(** Clearing the schedule.  When the tests have allocated argument vectors of
    their own, all tests go (and the schedule fetches too, if asked), the other
    events stay in place, and exactly the argument vectors of the tests are
    freed.  When two tests share a vector, or one has been freed before,
    clearing frees memory twice. *)
Theorem clear_test_schedule_correct all h evs :
  let ps := omap ev_params evs in
  (NoDup ps /\ Forall (fun p => is_Some (h !! p)) ps ->
   clear_test_schedule all h evs = Ok (delete_all ps h, filter (stays all) evs)) /\
  (~ (NoDup ps /\ Forall (fun p => is_Some (h !! p)) ps) ->
   clear_test_schedule all h evs = Fault UseAfterFree).
Proof. apply clear_test_schedule_spec. Qed.

(** ** Which settings are accepted *)

Definition within (v : Z) (p : schedule_period) : Prop := 0 <= v <= get_period_max_value p * 1000000.

Definition settings_ok (amp_tests : list test_t) (s : settings) : Prop :=
  s_test s ∈ amp_tests /\ period_valid (s_period s) /\
  within (s_start s) (s_period s) /\ within (s_end s) (s_period s) /\
  within (s_frequency s) (s_period s).

Lemma check_time_range_within v p : period_valid p -> 0 <= check_time_range v p -> within v p.
Proof. intros Hp H. unfold within. apply check_time_range_ok in H. tauto. Qed.

Lemma check_config_ok amp_tests c s :
  check_config amp_tests c = Some s -> settings_ok amp_tests s.
Proof.
  unfold check_config. destruct (c_testname c) as [name|]; [|done]. cbn.
  destruct (get_test_by_name amp_tests name) as [t|] eqn:Et; [|done]. cbn.
  apply find_some in Et as [Ht _]. apply list_elem_of_In in Ht.
  set (p := match c_period_str c with Some s => _ | None => _ end).
  destruct (bool_decide _) eqn:Ep; [done|]. apply bool_decide_eq_false in Ep.
  destruct (Z.ltb_spec (check_time_range (c_start c) p) 0) as [|Hs]; [done|].
  assert (Hmax : i64 (get_period_max_value p * 1000000) = get_period_max_value p * 1000000).
  { apply i64_id. pose proof (get_period_max_value_bounds p Ep). lia. }
  intros H. apply bind_Some in H as (en & Hen & H). apply bind_Some in H as (fr & Hfr & H).
  destruct (_ && _); [done|]. injection H as <-.
  split_and!; cbn; auto using check_time_range_within.
  - destruct (c_end c <? 0).
    + injection Hen as <-. rewrite Hmax. unfold within.
      pose proof (get_period_max_value_bounds p Ep). lia.
    + destruct (Z.ltb_spec (check_time_range (c_end c) p) 0); [done|]. injection Hen as <-.
      auto using check_time_range_within.
  - destruct (c_frequency c <? 0).
    + injection Hfr as <-. unfold within. destruct p; cbn in *; try lia; done.
    + destruct (Z.ltb_spec (check_time_range (c_frequency c) p) 0); [done|]. injection Hfr as <-.
      auto using check_time_range_within.
Qed.

(** ** What every scheduled test satisfies *)

Definition item_ok (amp_tests : list test_t) (i : test_item) : Prop :=
  test i ∈ amp_tests /\ period_valid (period i) /\
  within (start i) (period i) /\ within (end_ i) (period i) /\
  tv_wf (interval i) /\ within (tv_us (interval i)) (period i) /\
  counts_ok (max_targets (test i)) (tgts i) /\
  min_targets (test i) <= num_targets (tgts i).
Definition events_ok (amp_tests : list test_t) (evs : list event) : Prop :=
  forall i next, RunTest i next ∈ evs -> item_ok amp_tests i.

Lemma total_count_le t max :
  counts_ok max t -> total_count t <= num_targets t.
Proof.
  intros (Hd & Hr & _). unfold total_count, num_targets. rewrite Hd, Hr. unfold u32.
  rewrite <- Zplus_mod. rewrite <- Nat2Z.inj_add.
  apply Z.mod_le; lia.
Qed.

Lemma merge_targets_counts max old new t :
  0 <= max < 65536 -> counts_ok max old -> max = 0 \/ total_count old < max ->
  merge_targets old new = Ok t -> counts_ok max t /\ num_targets t = num_targets old + 1.
Proof.
  intros Hm (Hd & Hr & Hs) Hroom.
  assert (Hroom' : 0 < max -> num_targets old < max).
  { intros Hpos. rewrite <- (counts_total max) by (repeat split; auto with lia). lia. }
  unfold merge_targets. intros H. unfold num_targets in *.
  destruct (dest_count new >? 0).
  - inv_res. subst t. unfold counts_ok, num_targets. cbn [dest_count resolve_count dests resolve].
    rewrite Hd, u32_succ, length_app. cbn [length]. split_and!; [done|done|lia|lia].
  - destruct (resolve new) as [|r rs]; inv_res. subst t. unfold counts_ok, num_targets.
    cbn [dest_count resolve_count dests resolve length].
    rewrite Hr, u32_succ. split_and!; [done|f_equal; lia|lia|lia].
Qed.

Lemma merge_scheduled_tests_ok amp_tests h evs new evs' m :
  (forall t, t ∈ amp_tests -> 0 <= max_targets t < 65536) -> events_ok amp_tests evs ->
  merge_scheduled_tests h evs new = Ok (evs', m) -> events_ok amp_tests evs'.
Proof.
  intros Hmax Hevs. unfold merge_scheduled_tests.
  destruct (find_mergeable h new evs) as [[i|]|] eqn:Ef; cbn; [|by intros [= <- _]|done].
  apply find_mergeable_Some in Ef as (old & next & Hi & Hcmp & Hroom). rewrite Hi.
  destruct (merge_targets (tgts old) (tgts new)) as [t|] eqn:Em; cbn; [|done]. intros [= <- _].
  pose proof (Hevs old next (list_elem_of_lookup_2 _ _ _ Hi))
    as (Ht & Hp & Hst & Hen & Hwf & Hiv & Hc & Hmin).
  assert (Hsame : test old = test new).
  { rewrite compare_test_items_times in Hcmp. case_bool_decide as Hs; [apply Hs|done]. }
  rewrite <- Hsame in Hroom.
  destruct (merge_targets_counts _ _ _ _ (Hmax _ Ht) Hc Hroom Em) as [Hct Hnum].
  intros item nx Hin. apply list_elem_of_lookup_1 in Hin as [j Hj].
  destruct (decide (j = i)) as [->|Hne].
  - rewrite list_lookup_insert_eq in Hj by eauto using lookup_lt_Some. injection Hj as <- <-.
    unfold item_ok. cbn. split_and!; auto; lia.
  - rewrite list_lookup_insert_ne in Hj by done. eapply Hevs, list_elem_of_lookup_2, Hj.
Qed.

(** An invariant of the event base that every pass of the loop keeps is kept by reading a
    file. *)
Section Keeping.
Context (cached : option timeval) (gettimeofday : timeval).
Context (event_add : list event -> event -> list event).
Context (amp_tests : list test_t) (name_table : list nametable_t).
Context (I : list event -> Prop).
Context (pass_keeps : forall s st remaining st' r' stop,
  settings_ok amp_tests s -> I (base st) ->
  schedule_pass cached gettimeofday event_add name_table s st remaining = Ok (st', r', stop) -> I (base st')).

Lemma schedule_loop_keeps fuel s st remaining st' :
  settings_ok amp_tests s -> I (base st) ->
  schedule_loop cached gettimeofday event_add name_table fuel s st remaining = Ok st' -> I (base st').
Proof using pass_keeps.
  intros Hs. revert st remaining. induction fuel as [|fuel IH]; intros st remaining Hst; [done|].
  cbn [schedule_loop]. intros H. inv_res. destruct x as [[st1 rem1] stop].
  pose proof (pass_keeps _ _ _ _ _ _ Hs Hst ltac:(eassumption)) as Hst1.
  destruct stop; [by inv_res; subst|]. inv_res. destruct x; [by eapply IH|]. inv_res. by subst.
Qed.

Lemma create_and_schedule_test_keeps st index st' :
  I (base st) ->
  create_and_schedule_test cached gettimeofday event_add amp_tests name_table st index = Ok st' -> I (base st').
Proof using pass_keeps.
  intros Hst. unfold create_and_schedule_test.
  destruct (doc st !! index) as [[]|]; try (intros [= <-]; done).
  intros H. inv_res. destruct (snd x ≫= check_config amp_tests) as [s|] eqn:Es.
  - apply bind_Some in Es as (c & _ & Hc). apply check_config_ok in Hc.
    eapply schedule_loop_keeps; [done| |exact H]. done.
  - inv_res. by subst.
Qed.

Lemma create_all_keeps st items st' :
  I (base st) ->
  create_all cached gettimeofday event_add amp_tests name_table st items = Ok st' -> I (base st').
Proof using pass_keeps.
  revert st. induction items as [|i items IH]; intros st Hst; cbn; [by intros [= <-]|].
  intros H. inv_res. eapply IH; [|exact H]. by eapply create_and_schedule_test_keeps.
Qed.

Lemma read_tests_keeps st pairs st' :
  I (base st) ->
  read_tests cached gettimeofday event_add amp_tests name_table st pairs = Ok st' -> I (base st').
Proof using pass_keeps.
  revert st. induction pairs as [|[k v] pairs IH]; intros st Hst; cbn [read_tests]; [by intros [= <-]|].
  destruct (doc st !! k) as [[key| |]|], (doc st !! v) as [[w|seq|ps]|]; try done; try (by apply IH).
  destruct (strcmp_eq key (str "tests")); [|by apply IH]. intros H. inv_res.
  eapply IH; [|exact H]. by eapply create_all_keeps.
Qed.

Lemma read_schedule_file_keeps h evs loaded h' evs' :
  I evs ->
  read_schedule_file cached gettimeofday event_add amp_tests name_table h evs loaded = Ok (h', evs') -> I evs'.
Proof using pass_keeps.
  intros Hevs. unfold read_schedule_file.
  destruct loaded as [document|]; [|by intros [= <- <-]].
  destruct (document !! 1) as [[| |pairs]|]; try (intros [= <- <-]; done).
  intros H. inv_res. simplify_eq. eapply read_tests_keeps; [|eassumption]. done.
Qed.
End Keeping.

Section Invariant.
Context (cached : option timeval) (gettimeofday : timeval).
Context (event_add : list event -> event -> list event).
Context (amp_tests : list test_t) (name_table : list nametable_t).
Context (event_add_perm : forall evs ev, event_add evs ev ≡ₚ ev :: evs).

(** Reading schedules leaves the events that are not tests alone. *)
Lemma merge_others h evs new evs' m :
  merge_scheduled_tests h evs new = Ok (evs', m) -> filter (stays false) evs' = filter (stays false) evs.
Proof.
  unfold merge_scheduled_tests. intros H. inv_res. destruct x as [i|]; [|by inv_res; simplify_eq].
  destruct (evs !! i) as [[old next| |]|] eqn:Ei; try done. inv_res. simplify_eq.
  pose proof (take_drop_middle _ _ _ Ei) as Hsplit.
  rewrite (insert_take_drop _ _ _ (lookup_lt_Some _ _ _ Ei)). rewrite <- Hsplit at 3.
  rewrite !filter_app, !filter_cons_False; [done|exact id..].
Qed.

Lemma read_schedule_file_others h evs loaded h' evs' :
  read_schedule_file cached gettimeofday event_add amp_tests name_table h evs loaded = Ok (h', evs') ->
  filter (stays false) evs' ≡ₚ filter (stays false) evs.
Proof using event_add_perm.
  apply (read_schedule_file_keeps _ _ _ _ _ (fun l => filter (stays false) l ≡ₚ filter (stays false) evs)); [|done].
  intros s st remaining st' r' stop _ Hst. unfold schedule_pass.
  destruct (populate_target_lists _ _ _ _) as [[[d t] rem]|]; cbn [mbind res_bind]; [|done].
  destruct (get_next_schedule_time _ _ _ _ _ _) as [next abst].
  destruct (Z.ltb_spec (total_count t) (min_targets (s_test s))); intros H'; inv_res; [by simplify_eq|].
  destruct x0 as [evs1 []]; cbn [fst snd] in *; inv_res; simplify_eq; cbn.
  - destruct (_ && _); [|by inv_res]. by erewrite merge_others.
  - rewrite event_add_perm, filter_cons_False by exact id. done.
Qed.

Context (max_u16 : forall t, t ∈ amp_tests -> 0 <= max_targets t < 65536).

Lemma schedule_pass_ok s st remaining st' r' stop :
  settings_ok amp_tests s -> events_ok amp_tests (base st) ->
  schedule_pass cached gettimeofday event_add name_table s st remaining = Ok (st', r', stop) ->
  events_ok amp_tests (base st').
Proof using event_add_perm max_u16.
  intros (Ht & Hp & Hs & He & Hf) Hevs. unfold schedule_pass.
  destruct (populate_target_lists _ _ _ _) as [[[d t] rem]|] eqn:Epop; cbn [mbind res_bind]; [|done].
  pose proof (populate_target_lists_counts _ _ _ _ _ (max_u16 _ Ht) Epop) as Hc. cbn in Hc.
  destruct (get_next_schedule_time _ _ _ _ _ _) as [next abst].
  destruct (Z.ltb_spec (total_count t) (min_targets (s_test s))) as [Hfew|Hmin].
  { intros H. inv_res. simplify_eq. done. }
  intros H. inv_res. destruct x0 as [evs' []]; cbn [fst snd] in H.
  - inv_res. simplify_eq. cbn. destruct (_ && _); [|by inv_res].
    eapply merge_scheduled_tests_ok; eauto.
  - inv_res. simplify_eq. cbn. intros item nx Hin. rewrite event_add_perm in Hin.
    apply elem_of_cons in Hin as [[= -> ->]|Hin]; [|by eapply Hevs].
    unfold item_ok. cbn. unfold within in *.
    split_and!; auto; try lia.
    + unfold tv_wf. cbn. pose proof (Z.mod_pos_bound (s_frequency s) 1000000).
      pose proof (Z.div_pos (s_frequency s) 1000000). lia.
    + unfold tv_us. cbn. pose proof (Z.div_mod (s_frequency s) 1000000). lia.
    + unfold tv_us. cbn. pose proof (Z.div_mod (s_frequency s) 1000000). lia.
    + pose proof (total_count_le t _ Hc). lia.
Qed.

Lemma read_schedule_file_ok h evs loaded h' evs' :
  events_ok amp_tests evs ->
  read_schedule_file cached gettimeofday event_add amp_tests name_table h evs loaded = Ok (h', evs') ->
  events_ok amp_tests evs'.
Proof using event_add_perm max_u16. apply read_schedule_file_keeps, schedule_pass_ok. Qed.
End Invariant.

(** C3: reading a schedule file keeps the schedule sound.  Every test it leaves
    scheduled is a registered test, its start, end and frequency lie within its
    period, its interval is a proper time value, its target counters are right
    and bounded by the maximum of the test, and it has at least the minimum. *)
Theorem read_schedule_file_sound cached gettimeofday event_add amp_tests name_table h evs loaded h' evs' :
  (forall evs ev, event_add evs ev ≡ₚ ev :: evs) ->
  (forall t, t ∈ amp_tests -> 0 <= max_targets t < 65536) ->
  events_ok amp_tests evs ->
  read_schedule_file cached gettimeofday event_add amp_tests name_table h evs loaded = Ok (h', evs') ->
  events_ok amp_tests evs'.
Proof. intros. by eapply read_schedule_file_ok. Qed.

(** ** Scheduling ends and covers the targets *)

Lemma compare_without_params h a b :
  params b = None -> exists r, compare_test_items h a b = Ok r.
Proof.
  intros Hb. rewrite compare_test_items_times, Hb. destruct (bool_decide _), (params a); eauto.
Qed.

Lemma find_mergeable_without_params h new evs :
  params new = None -> exists r, find_mergeable h new evs = Ok r.
Proof.
  intros Hp. induction evs as [|ev evs [r IH]]; cbn [find_mergeable]; [eauto|].
  assert (Hc : exists b, check_test_compare_callback h ev new = Ok b).
  { destruct ev as [old next| |]; cbn; eauto.
    destruct (compare_without_params h old new Hp) as [b ->]. cbn. eauto. }
  destruct Hc as [[] ->]; cbn; rewrite ?IH; cbn; eauto.
Qed.

Lemma merge_targets_total max old new :
  counts_ok max new -> 0 < total_count new -> exists t, merge_targets old new = Ok t.
Proof.
  intros (Hd & Hr & _) Hpos. unfold merge_targets, total_count in *. rewrite Hd, Hr in *.
  destruct (Z.gtb_spec (u32 (Z.of_nat (length (dests new)))) 0) as [H|H].
  - destruct (dests new) as [|d ds]; [done|]. cbn. eauto.
  - destruct (resolve new) as [|r rs]; [|eauto]. exfalso.
    pose proof (u32_range (Z.of_nat (length (dests new)))) as Hrange.
    replace (u32 (Z.of_nat (length (dests new)))) with 0 in Hpos by lia. done.
Qed.

Lemma merge_total h evs new max :
  params new = None -> counts_ok max (tgts new) -> 0 < total_count (tgts new) ->
  exists r, merge_scheduled_tests h evs new = Ok r.
Proof.
  intros Hp Hc Hpos. unfold merge_scheduled_tests.
  destruct (find_mergeable_without_params h new evs Hp) as [[i|] Hf]; rewrite Hf; cbn; [|eauto].
  apply find_mergeable_Some in Hf as (old & next & Hi & _). rewrite Hi.
  destruct (merge_targets_total max (tgts old) (tgts new) Hc Hpos) as [t ->]. cbn. eauto.
Qed.

Lemma rd_target_array ts :
  rd (target_array ts) 0 = Ok (head ts).
Proof. by destruct ts. Qed.

Section Total.
Context (cached : option timeval) (gettimeofday : timeval).
Context (event_add : list event -> event -> list event).
Context (name_table : list nametable_t) (nt_good : nt_ok name_table).
Context (s : settings) (no_params : s_params s = None).
Context (max_u16 : 0 <= max_targets (s_test s) < 65536) (min_pos : 0 < min_targets (s_test s)).

Lemma schedule_pass_total st ts :
  targets_ok (doc st) ts ->
  exists st' rest stop,
    schedule_pass cached gettimeofday event_add name_table s st (Some (target_array ts))
    = Ok (st', Some (target_array rest), stop) /\
    (exists used, ts = used ++ rest /\ (ts <> [] -> used <> [])) /\
    targets_ok (doc st') rest.
Proof using nt_good no_params max_u16 min_pos.
  intros Hts. unfold schedule_pass, populate_target_lists.
  destruct (populate_loop_spec name_table (max_targets (s_test s)) (doc st) no_targets ts nt_good
              max_u16 Hts) as (d & t & used & rest & -> & Hsp & Hc & Hd & _ & Hused);
    [apply counts_ok_nil|]. cbn [mbind res_bind].
  assert (Hrest : targets_ok d rest).
  { apply Hd. intros i Hi. apply Hts. rewrite Hsp. apply elem_of_app. auto. }
  assert (Hprog : exists used, ts = used ++ rest /\ (ts <> [] -> used <> [])).
  { exists used. split; [done|]. intros Hne. apply Hused; [done|]. unfold num_targets. cbn. lia. }
  destruct (get_next_schedule_time _ _ _ _ _ _) as [next abst].
  unfold free_test_schedule_item. cbn [params]. rewrite no_params.
  destruct (Z.ltb_spec (total_count t) (min_targets (s_test s))) as [Hfew|Hmin].
  { cbn. do 3 eexists. split; [done|]. split; done. }
  cbn [at_end]. rewrite rd_target_array. cbn [mbind res_bind].
  destruct (bool_decide (head rest = None) && negb (max_targets (s_test s) =? 1)).
  - match goal with |- context [merge_scheduled_tests ?h ?e ?n] =>
      destruct (merge_total h e n (max_targets (s_test s))) as [[evs' []] ->] end;
      [done|done|cbn; lia| |]; cbn; do 3 eexists; (split; [done|]); split; done.
  - cbn. do 3 eexists. split; [done|]. split; done.
Qed.

Lemma schedule_loop_total fuel st ts :
  targets_ok (doc st) ts -> (Nat.max 1 (length ts) <= fuel)%nat ->
  exists st', forall fuel', (fuel <= fuel')%nat ->
    schedule_loop cached gettimeofday event_add name_table fuel' s st (Some (target_array ts)) = Ok st'.
Proof using nt_good no_params max_u16 min_pos.
  revert st ts. induction fuel as [|fuel IH]; intros st ts Hts Hf; [lia|].
  destruct (schedule_pass_total st ts Hts) as (st' & rest & stop & Hp & (used & Hsp & Hne) & Hrest).
  assert (Hunf : forall k, (S fuel <= k)%nat -> exists f, k = S f /\ (fuel <= f)%nat).
  { intros [|f] Hk; [lia|]. exists f. split; [done|lia]. }
  destruct (decide (stop = false /\ is_Some (head rest))) as [[-> Hmore]|Hend].
  - destruct (IH st' rest Hrest) as [st2 H2].
    { destruct ts as [|i ts].
      { symmetry in Hsp. apply app_eq_nil in Hsp as [_ ->]. by destruct Hmore. }
      assert (used <> []) by (by apply Hne). destruct used as [|u used]; [done|]. destruct rest as [|r rest]; [by destruct Hmore|].
      rewrite Hsp in Hf. cbn [length app] in Hf |- *. rewrite length_app in Hf. cbn [length] in Hf. lia. }
    exists st2. intros k (f & -> & Hk)%Hunf. cbn [schedule_loop]. rewrite Hp. cbn [mbind res_bind more_left].
    rewrite rd_target_array. cbn [mbind res_bind]. case_bool_decide; [by apply H2|].
    destruct rest; [by destruct Hmore|]. done.
  - exists st'. intros k (f & -> & Hk)%Hunf. cbn [schedule_loop]. rewrite Hp. cbn [mbind res_bind].
    destruct stop; [done|]. cbn [more_left]. rewrite rd_target_array. cbn [mbind res_bind].
    case_bool_decide as Hmore; [|done]. destruct Hend. split; [done|]. by destruct (head rest).
Qed.
End Total.

(** C12: creating the tests of a schedule entry terminates.  Take an entry without
    arguments, for a registered test that needs at least one target, whose targets all are
    scalars that name something before any '!' (another target stops the program at an
    assertion), and a schedule that is sound.  The loop that splits the targets into tests
    makes at most one pass per target (one pass when there is no target), so every larger
    bound gives the same result, the one of the bound used to run it among them; it does
    not fault, and the schedule is sound afterwards. *)
Theorem schedule_loop_terminates cached gettimeofday event_add amp_tests name_table s st ts :
  nt_ok name_table -> settings_ok amp_tests s -> s_params s = None ->
  (forall evs ev, event_add evs ev ≡ₚ ev :: evs) ->
  (forall t, t ∈ amp_tests -> 0 <= max_targets t < 65536) -> 0 < min_targets (s_test s) ->
  targets_ok (doc st) ts -> events_ok amp_tests (base st) ->
  exists st',
    (forall fuel, (Nat.max 1 (length ts) <= fuel)%nat ->
       schedule_loop cached gettimeofday event_add name_table fuel s st (Some (target_array ts)) = Ok st') /\
    schedule_loop cached gettimeofday event_add name_table
      (loop_bound (Some (target_array ts))) s st (Some (target_array ts)) = Ok st' /\
    events_ok amp_tests (base st').
Proof.
  intros Hnt Hs Hnp Hperm Hmax Hmin Hts Hevs.
  destruct (schedule_loop_total cached gettimeofday event_add name_table Hnt s Hnp
              (Hmax _ (proj1 Hs)) Hmin (Nat.max 1 (length ts)) st ts Hts) as [st' Hst']; [done|].
  assert (Hb : (Nat.max 1 (length ts) <= loop_bound (Some (target_array ts)))%nat).
  { unfold loop_bound, target_array. cbn. rewrite length_app, length_fmap. cbn. lia. }
  exists st'. split_and!; [done|by apply Hst'|]. specialize (Hst' _ Hb).
  eapply schedule_loop_keeps; eauto using schedule_pass_ok.
Qed.

(** ** Tests that share their arguments *)

Section Shared.
Context (cached : option timeval) (gettimeofday : timeval).
Context (event_add : list event -> event -> list event).
Context (event_add_perm : forall evs ev, event_add evs ev ≡ₚ ev :: evs).
Context (s : settings) (max_one : max_targets (s_test s) = 1) (min_one : min_targets (s_test s) <= 1).

Lemma populate_one document i ts :
  targets_ok document (i :: ts) ->
  exists document' t,
    populate_target_lists [] (s_test s) document (Some (target_array (i :: ts)))
    = Ok (document', t, Some (target_array ts)) /\
    total_count t = 1 /\ targets_ok document' ts.
Proof using max_one.
  intros Hts. destruct (Hts i) as (str & a & opts & Hi & Hs); [left|].
  unfold populate_target_lists. rewrite max_one.
  change (target_array (i :: ts)) with (Some i :: target_array ts).
  cbn [populate_loop Z.eqb orb]. change (total_count no_targets <? 1) with true.
  cbn [orb]. rewrite Hi, Hs. destruct (target_options opts AF_UNSPEC 0) as [family count].
  cbn [name_to_address find_name mbind res_bind].
  do 2 eexists. split; [|split].
  - unfold target_array. by destruct ts.
  - done.
  - apply (targets_ok_cut document ts i str a opts); [|done..].
    intros j Hj. apply Hts. by right.
Qed.

Lemma schedule_loop_shared fuel st i ts :
  targets_ok (doc st) (i :: ts) -> (length (i :: ts) <= fuel)%nat ->
  exists st' evs,
    schedule_loop cached gettimeofday event_add [] fuel s st (Some (target_array (i :: ts))) = Ok st' /\
    heap st' = heap st /\ base st' ≡ₚ evs ++ base st /\
    length evs = S (length ts) /\ Forall (fun ev => ev_params ev = s_params s) evs.
Proof using event_add_perm max_one min_one.
  revert st i ts. induction fuel as [|fuel IH]; intros st i ts Hts Hf; [cbn in Hf; lia|].
  cbn [schedule_loop]. unfold schedule_pass.
  destruct (populate_one (doc st) i ts Hts) as (d & t & -> & Htot & Hd). cbn [mbind res_bind].
  destruct (get_next_schedule_time _ _ _ _ _ _) as [next abst].
  rewrite Htot, (proj2 (Z.ltb_ge _ _) min_one), max_one. cbn [at_end].
  rewrite rd_target_array. cbn [mbind res_bind Z.eqb Pos.eqb negb andb].
  rewrite andb_false_r. cbn [mbind res_bind snd more_left]. rewrite rd_target_array.
  cbn [mbind res_bind].
  match goal with |- context [event_add (base st) ?e] => set (ev := e) end.
  destruct ts as [|j ts]; cbn [head].
  - rewrite bool_decide_eq_false_2 by tauto. eexists _, [ev]. split; [done|].
    split; [done|]. split; [apply (event_add_perm (base st) ev)|]. split; [done|]. by constructor.
  - rewrite bool_decide_eq_true_2 by done.
    destruct (IH {| doc := d; heap := heap st; base := event_add (base st) ev |} j ts)
      as (st' & evs & -> & Hh & Hb & Hlen & Hall); [done|cbn in *; lia|].
    exists st', (evs ++ [ev]). split_and!; [done|done| | |].
    + rewrite Hb. cbn [base]. rewrite event_add_perm, <- app_assoc. done.
    + rewrite length_app, Hlen. cbn. lia.
    + apply Forall_app. split; [done|]. by constructor.
Qed.
End Shared.

(** A test that is split over several targets shares its arguments.  Where an
    entry with arguments names two or more targets of a test that takes one
    target at a time, one test per target is scheduled, all with the same
    argument vector, and clearing the schedule afterwards, as a reload does,
    frees that vector more than once. *)
Theorem split_test_shares_args cached gettimeofday event_add s st i j ts p all :
  (forall evs ev, event_add evs ev ≡ₚ ev :: evs) ->
  max_targets (s_test s) = 1 -> min_targets (s_test s) <= 1 -> s_params s = Some p ->
  targets_ok (doc st) (i :: j :: ts) ->
  exists st' evs,
    schedule_loop cached gettimeofday event_add [] (loop_bound (Some (target_array (i :: j :: ts)))) s st
      (Some (target_array (i :: j :: ts))) = Ok st' /\
    base st' ≡ₚ evs ++ base st /\ length evs = S (S (length ts)) /\
    Forall (fun ev => ev_params ev = Some p) evs /\
    clear_test_schedule all (heap st') (base st') = Fault UseAfterFree.
Proof.
  intros Hperm Hmax Hmin Hp Hts.
  destruct (schedule_loop_shared cached gettimeofday event_add Hperm s Hmax Hmin
    (loop_bound (Some (target_array (i :: j :: ts)))) st i (j :: ts) Hts)
    as (st' & evs & Hrun & Hh & Hb & Hlen & Hall).
  { unfold loop_bound, target_array. cbn. rewrite length_app, length_fmap. cbn. lia. }
  rewrite Hp in Hall. exists st', evs. split_and!; [done..|].
  unfold clear_test_schedule. rewrite clear_loop_spec. cbn zeta.
  rewrite bool_decide_eq_false_2; [done|]. intros [Hnd _].
  rewrite <- Permutation_rev, Hb, omap_app in Hnd.
  destruct evs as [|e1 [|e2 evs]]; [cbn in Hlen; lia..|].
  inversion Hall as [|? ? H1 Hall']. inversion Hall' as [|? ? H2 _]. subst.
  cbn in Hnd. rewrite H1, H2 in Hnd. inversion Hnd as [|? ? Hnin _]. apply Hnin. left.
Qed.

(** ** Concrete schedules *)

Definition t_icmp : test_t := {| test_name := str "icmp"; max_targets := 0; min_targets := 1 |}.
Definition t_throughput : test_t :=
  {| test_name := str "throughput"; max_targets := 1; min_targets := 1 |}.
Definition sample_tests : list test_t := [t_icmp; t_throughput].
Definition add_front (evs : list event) (ev : event) : list event := ev :: evs.

Definition sample_item (ps : option Z) (t : target_lists) : test_item :=
  {| abstime := Tv 1614556800 0; interval := Tv 60 0; start := 0; end_ := 86400000000;
     period := SCHEDULE_PERIOD_DAILY; test := t_icmp; tgts := t; params := ps |}.
Definition name_target (n : string) : resolve_dest :=
  {| rd_name := str n; rd_count := 0; rd_family := AF_UNSPEC |}.
Definition names (ns : list string) : target_lists :=
  {| dest_count := 0; resolve_count := Z.of_nat (length ns); dests := [];
     resolve := name_target <$> ns |}.

Lemma compare_test_items_correct_witness :
  let h := <[1 := [str "-s"; str "84"]]> (<[2 := [str "-s"]]> (∅ : param_heap)) in
  compare_test_items h (sample_item (Some 1) (names ["a"%string]))
    (sample_item (Some 2) (names ["b"%string])) = Fault NullDeref /\
  compare_test_items h (sample_item (Some 2) (names ["a"%string]))
    (sample_item (Some 1) (names ["b"%string])) = Ok false /\
  compare_test_items h (sample_item None (names ["a"%string]))
    (sample_item None (names ["b"%string])) = Ok true.
Proof.
  intros h. split_and!.
  - rewrite (proj2 (compare_test_items_correct h _ _) 1 2 [str "-s"; str "84"] [str "-s"]) by reflexivity.
    vm_compute. reflexivity.
  - rewrite (proj2 (compare_test_items_correct h _ _) 2 1 [str "-s"] [str "-s"; str "84"]) by reflexivity.
    vm_compute. reflexivity.
  - rewrite (proj1 (compare_test_items_correct h _ _)) by (split; reflexivity).
    vm_compute. reflexivity.
Defined.

Lemma counts_names ns max : max = 0 -> (length ns < 1000)%nat -> counts_ok max (names ns).
Proof.
  intros -> Hn. split_and!; cbn; [done| |lia].
  rewrite length_fmap, u32_id; lia.
Qed.

(** Two names merge into a test that has one: the second name is lost. *)
Definition before_merge : list event := [OtherEvent; RunTest (sample_item None (names ["a"%string])) (Tv 60 0)].
Definition after_merge : list event :=
  [OtherEvent; RunTest (sample_item None (names ["b"%string; "a"%string])) (Tv 60 0)].

Lemma merge_takes_first_target_witness :
  merge_scheduled_tests ∅ before_merge (sample_item None (names ["b"%string; "c"%string]))
  = Ok (after_merge, true) /\
  exists i old next t x,
    before_merge !! i = Some (RunTest old next) /\
    after_merge = <[i := RunTest (with_tgts old t) next]> before_merge /\
    same_times old (sample_item None (names ["b"%string; "c"%string])) /\
    first_target (names ["b"%string; "c"%string]) = Some x /\
    all_targets t ≡ₚ x :: all_targets (tgts old) /\ counts_ok 0 t.
Proof.
  assert (H : merge_scheduled_tests ∅ before_merge (sample_item None (names ["b"%string; "c"%string]))
    = Ok (after_merge, true)) by reflexivity.
  split; [exact H|].
  apply (merge_takes_first_target ∅ before_merge (sample_item None (names ["b"%string; "c"%string]))).
  - cbn. lia.
  - apply counts_names; [reflexivity|cbn; lia].
  - vm_compute. split; reflexivity.
  - intros old next Hin. unfold before_merge in Hin. rewrite !elem_of_cons, elem_of_nil in Hin.
    destruct Hin as [Hin|[Hin|[]]]; [discriminate|]. injection Hin as -> ->.
    apply counts_names; [reflexivity|cbn; lia].
  - exact H.
Defined.

Lemma clear_test_schedule_correct_witness :
  let h := <[1 := [str "-s"]]> (<[2 := [str "-4"]]> (∅ : param_heap)) in
  let one := RunTest (sample_item (Some 1) (names ["a"%string])) (Tv 60 0) in
  let evs := [FetchSchedule (str "https://example.org"); one; OtherEvent] in
  clear_test_schedule false h evs = Ok (delete 1 h, [FetchSchedule (str "https://example.org"); OtherEvent]) /\
  clear_test_schedule true h (one :: evs) = Fault UseAfterFree.
Proof.
  intros h one evs. split.
  - apply (proj1 (clear_test_schedule_correct false h evs)). split.
    + apply NoDup_singleton.
    + repeat constructor. by exists [str "-s"].
  - apply (proj2 (clear_test_schedule_correct true h (one :: evs))). intros [H _].
    cbn in H. inversion H as [|? ? Hn _]. apply Hn. left.
Defined.

(** A schedule file: a ping of two names every ten minutes of the day, and a
    throughput test with arguments to two targets. *)
Definition sample_schedule : yaml_document :=
  <[1 := YMapping [(2, 3)]]> (<[2 := YScalar (str "tests")]> (<[3 := YSequence [4; 5]]>
  (<[4 := YMapping [(10, 11); (12, 13)]]> (<[5 := YMapping [(10, 16); (12, 17); (18, 19)]]>
  (<[10 := YScalar (str "test")]> (<[11 := YScalar (str "icmp")]>
  (<[12 := YScalar (str "target")]> (<[13 := YSequence [14; 15]]>
  (<[14 := YScalar (str "www.example.org")]> (<[15 := YScalar (str "wand.net.nz!v6")]>
  (<[16 := YScalar (str "throughput")]> (<[17 := YSequence [20; 21]]>
  (<[18 := YScalar (str "args")]> (<[19 := YScalar (str "-t 10")]>
  (<[20 := YScalar (str "amp.one")]> (<[21 := YScalar (str "amp.two")]> ∅)))))))))))))))).

Definition noon : timeval := Tv 1614600000 0.
Definition load (evs : list event) (loaded : option yaml_document) : res (param_heap * list event) :=
  read_schedule_file (Some noon) noon add_front sample_tests [] ∅ evs loaded.

(** Three tests, and a reload that frees the arguments twice. *)
Example sample_schedule_reload :
  exists h evs, load [] (Some sample_schedule) = Ok (h, evs) /\ length evs = 3%nat /\
    clear_test_schedule false h evs = Fault UseAfterFree.
Proof. do 2 eexists. split; [vm_compute; reflexivity|]. split; vm_compute; reflexivity. Qed.

Lemma sample_tests_u16 : forall t, t ∈ sample_tests -> 0 <= max_targets t < 65536.
Proof.
  intros t Ht. unfold sample_tests in Ht. rewrite !elem_of_cons, elem_of_nil in Ht.
  destruct Ht as [->|[->|[]]]; cbn; lia.
Qed.

Lemma read_schedule_file_sound_witness :
  exists h evs, load [] (Some sample_schedule) = Ok (h, evs) /\ events_ok sample_tests evs.
Proof.
  destruct (load [] (Some sample_schedule)) as [[h evs]|] eqn:E; [|vm_compute in E; discriminate].
  exists h, evs. split; [reflexivity|].
  apply (read_schedule_file_sound (Some noon) noon add_front sample_tests [] ∅ []
           (Some sample_schedule) h evs).
  - reflexivity.
  - exact sample_tests_u16.
  - intros i next Hin. inversion Hin.
  - exact E.
Defined.

Definition sample_settings (t : test_t) (ps : option Z) : settings :=
  {| s_test := t; s_period := SCHEDULE_PERIOD_DAILY; s_start := 0; s_end := 86400000000;
     s_frequency := 600000000; s_params := ps; s_targets := Some (target_array [14; 15]) |}.
Definition sample_state : sched :=
  {| doc := sample_schedule; heap := <[1 := [str "-t"; str "10"]]> ∅; base := [] |}.

Lemma sample_targets_ok : targets_ok sample_schedule [14; 15].
Proof.
  intros i Hi. rewrite !elem_of_cons, elem_of_nil in Hi. destruct Hi as [->|[->|[]]].
  - exists (str "www.example.org"), (str "www.example.org"), []. done.
  - exists (str "wand.net.nz!v6"), (str "wand.net.nz"), [str "v6"]. done.
Qed.

Lemma schedule_loop_terminates_witness :
  exists st',
    (forall fuel, (2 <= fuel)%nat -> schedule_loop (Some noon) noon add_front [] fuel
       (sample_settings t_icmp None) sample_state (Some (target_array [14; 15])) = Ok st') /\
    schedule_loop (Some noon) noon add_front [] (loop_bound (Some (target_array [14; 15])))
      (sample_settings t_icmp None) sample_state (Some (target_array [14; 15])) = Ok st' /\
    events_ok sample_tests (base st').
Proof.
  apply (schedule_loop_terminates (Some noon) noon add_front sample_tests []
           (sample_settings t_icmp None) sample_state [14; 15]).
  - intros name. by exists None.
  - unfold settings_ok, within. cbn. split_and!; try lia; [left|done].
  - reflexivity.
  - reflexivity.
  - exact sample_tests_u16.
  - cbn. lia.
  - exact sample_targets_ok.
  - intros i next Hin. inversion Hin.
Defined.

Lemma split_test_shares_args_witness :
  exists st' evs,
    schedule_loop (Some noon) noon add_front [] (loop_bound (Some (target_array [14; 15])))
      (sample_settings t_throughput (Some 1)) sample_state (Some (target_array [14; 15])) = Ok st' /\
    base st' ≡ₚ evs ++ base sample_state /\ length evs = 2%nat /\
    Forall (fun ev => ev_params ev = Some 1) evs /\
    clear_test_schedule false (heap st') (base st') = Fault UseAfterFree.
Proof.
  apply (split_test_shares_args (Some noon) noon add_front (sample_settings t_throughput (Some 1))
           sample_state 14 15 [] 1 false).
  - reflexivity.
  - reflexivity.
  - cbn. lia.
  - reflexivity.
  - exact sample_targets_ok.
Defined.
