(* ===== verification/Testlib.v ===== *)
(** Helpers shared by the tests (src/common/testlib.c): pacing of outgoing packets,
    waiting for data, receive timestamps, and the options of sockets.

    The clock and the system calls are parameters: a call of gettimeofday() is
    the time it returned, select() and setsockopt() are what they answered. *)
From Stdlib Require Import Sorted.
From S2P Require Import Prelude CLib Address.
#[local] Open Scope Z_scope.

(** ** Pacing *)

(** What a call of delay_send_packet() came to. *)
Inductive send_result : Set :=
| Wait (delay : Z)        (* return value > 0: nothing was sent *)
| Sent (when : timeval)   (* return value 0 *)
| SendFailed.             (* return value -1: sendto() sent too little *)

(** delay_send_packet(): [last] is its static variable, [now] the time of day and
    [sendto_ok] whether sendto() took the whole packet. *)
Definition delay_send_packet (last now : timeval) (inter_packet_delay : Z) (sendto_ok : bool)
    : timeval * send_result :=
  let diff := i32 (DIFF_TV_US now last) in
  let diff := if diff <? 0 then 0 else diff in
  if negb (tv_sec last =? 0) && (diff <? i32 inter_packet_delay) then
    let delay := i32 (u32 (inter_packet_delay - diff)) in
    if negb (delay =? 0) then (last, Wait delay)
    else (last, if sendto_ok then Sent now else SendFailed)
  else (now, if sendto_ok then Sent now else SendFailed).

(** ** Waiting *)

(** The sockets of a test, one per address family. *)
Record socket_t : Set := { socket : Z; socket6 : Z }.

(** One return of select(): interrupted, failed, or the readable sockets, with
    the time of day afterwards. *)
Inductive select_result : Set :=
| SelIntr (now : timeval)
| SelError (now : timeval)
| SelReady (readable : list Z) (now : timeval).

Definition elapsed (now start_time : timeval) : Z :=
  let d := i32 (DIFF_TV_US now start_time) in if d <? 0 then 0 else d.

(** The timeout given to select(). *)
Definition select_timeout (maxwait delay : Z) : timeval :=
  if delay >? maxwait then Tv 0 0
  else Tv (Z.quot (maxwait - delay) 1000000) (Z.rem (maxwait - delay) 1000000).

(** wait_for_data(): the timeouts of the select() calls it made, its return value
    and the new [*maxwait]; [None] while it is still waiting. *)
Fixpoint wait_loop (sockets : socket_t) (maxwait : Z) (start_time : timeval) (delay : Z)
    (env : list select_result) : list timeval * option (Z * Z) :=
  let timeout := select_timeout maxwait delay in
  let left d := if maxwait - d <? 0 then 0 else maxwait - d in
  match env with
  | [] => ([timeout], None)
  | SelIntr now :: env' =>
      let '(ts, r) := wait_loop sockets maxwait start_time (elapsed now start_time) env' in
      (timeout :: ts, r)
  | SelError now :: _ => ([timeout], Some (-1, left (elapsed now start_time)))
  | SelReady readable now :: _ =>
      ([timeout],
       Some (if (socket sockets >? 0) && bool_decide (socket sockets ∈ readable) then AF_INET
             else if (socket6 sockets >? 0) && bool_decide (socket6 sockets ∈ readable) then AF_INET6
             else -1, left (elapsed now start_time)))
  end.
Definition wait_for_data (sockets : socket_t) (maxwait : Z) (start_time : timeval)
    (env : list select_result) : list timeval * option (Z * Z) :=
  wait_loop sockets maxwait start_time 0 env.

(** ** Receive timestamps *)

(** A control message of a received packet. *)
Inductive cmsg : Set :=
| Timestamping (level : Z) (long_enough : bool) (hw_sec hw_nsec sw_sec sw_nsec : Z)
| Timestamp (level : Z) (long_enough : bool) (tv : timeval)
| OtherCmsg (level : Z).
Definition SOL_SOCKET : Z := 1.
Definition cmsg_level (c : cmsg) : Z :=
  match c with Timestamping l _ _ _ _ _ => l | Timestamp l _ _ => l | OtherCmsg l => l end.

Definition retrieve_timestamping (c : cmsg) : option timeval :=
  match c with
  | Timestamping _ true hw_sec hw_nsec sw_sec sw_nsec =>
      Some (if negb (hw_sec =? 0) then Tv hw_sec (Z.quot hw_nsec 1000)
            else Tv sw_sec (Z.quot sw_nsec 1000))
  | _ => None
  end.
Definition retrieve_timestamp (c : cmsg) : option timeval :=
  match c with Timestamp _ true tv => Some tv | _ => None end.

(** get_timestamp(): [siocgstamp] is the ioctl if it worked. *)
Fixpoint get_timestamp (msg : list cmsg) (siocgstamp : option timeval) (gettimeofday : timeval)
    : timeval :=
  match msg with
  | [] => match siocgstamp with Some t => t | None => gettimeofday end
  | c :: msg' =>
      if cmsg_level c =? SOL_SOCKET then
        match retrieve_timestamping c with
        | Some t => t
        | None =>
            match retrieve_timestamp c with
            | Some t => t
            | None => get_timestamp msg' siocgstamp gettimeofday
            end
        end
      else get_timestamp msg' siocgstamp gettimeofday
  end.

(** ** Binding *)

(** bind_sockets_to_device(): [bind] is whether SO_BINDTODEVICE works on a socket;
    the sockets bound, in order, and the return value. *)
Definition bind_sockets_to_device (sockets : socket_t) (bind : Z -> bool) : res (list Z * Z) :=
  _ ← c_assert ((socket sockets >=? 0) || (socket6 sockets >=? 0));
  let v4 := socket sockets >=? 0 in
  let v6 := socket6 sockets >=? 0 in
  if v4 && negb (bind (socket sockets)) then Ok ([socket sockets], -1)
  else
    let tried := if v4 then [socket sockets] else [] in
    if v6 && negb (bind (socket6 sockets)) then Ok (tried ++ [socket6 sockets], -1)
    else Ok (tried ++ (if v6 then [socket6 sockets] else []), 0).

(** bind_sockets_to_address() *)
Definition bind_sockets_to_address (sockets : socket_t) (sourcev4 sourcev6 : option sockaddr)
    (bind : Z -> sockaddr -> bool) : res (list (Z * sockaddr) * Z) :=
  let v4 := if socket sockets >=? 0 then sourcev4 else None in
  let v6 := if socket6 sockets >=? 0 then sourcev6 else None in
  _ ← c_assert (match v4, v6 with None, None => false | _, _ => true end);
  match v4 with
  | Some a =>
      if negb (bind (socket sockets) a) then Ok ([(socket sockets, a)], -1)
      else match v6 with
           | Some b =>
               Ok ([(socket sockets, a); (socket6 sockets, b)],
                   if bind (socket6 sockets) b then 0 else -1)
           | None => Ok ([(socket sockets, a)], 0)
           end
  | None =>
      match v6 with
      | Some b => Ok ([(socket6 sockets, b)], if bind (socket6 sockets) b then 0 else -1)
      | None => Ok ([], 0)
      end
  end.

(** ** Socket options *)

Inductive sockopt : Set :=
| TCP_MAXSEG | TCP_NODELAY | SO_RCVBUF | SO_RCVBUFFORCE | SO_SNDBUF | SO_SNDBUFFORCE
| SO_REUSEADDR | IP_TOS | IPV6_TCLASS.
#[export] Instance sockopt_eq_dec : EqDecision sockopt.
Proof. solve_decision. Defined.

Record sockopt_t : Set := {
  sock_mss : Z; sock_disable_nagle : Z; sock_rcvbuf : Z; sock_sndbuf : Z; reuse_addr : Z; dscp : Z
}.

(** A setsockopt() call. *)
Record setting : Set := { on : Z; option_ : sockopt; value : Z }.

(** How setsockopt() answers: an error, ENOPROTOOPT, or done. *)
Inductive set_answer : Set := SetFailed | SetNoProto | SetDone.

Section Options.
(** setsockopt(), and the value getsockopt() reports afterwards, if it works. *)
Context (setsockopt : setting -> set_answer) (getsockopt : setting -> option Z).

Definition is_buffer (o : sockopt) : bool :=
  match o with SO_RCVBUF | SO_RCVBUFFORCE | SO_SNDBUF | SO_SNDBUFFORCE => true | _ => false end.

Definition set_and_verify_sockopt (s : setting) : Z :=
  match setsockopt s with
  | SetDone =>
      match getsockopt s with
      | Some verify =>
          if is_buffer (option_ s)
          then if value s =? Z.quot verify 2 then 0 else -1
          else if value s =? verify then 0 else -1
      | None => -1
      end
  | _ => -1
  end.

(** set_dscp_socket_options(): the calls made and the return value. *)
Definition set_dscp_socket_options (sockets : socket_t) (dscp : Z) : res (list setting * Z) :=
  _ ← c_assert ((socket sockets >? 0) || (socket6 sockets >? 0));
  let value := Z.shiftl dscp 2 in
  let s4 := {| on := socket sockets; option_ := IP_TOS; value := value |} in
  let s6 := {| on := socket6 sockets; option_ := IPV6_TCLASS; value := value |} in
  let calls4 := if socket sockets >? 0 then [s4] else [] in
  if (socket sockets >? 0) && match setsockopt s4 with SetDone => false | _ => true end
  then Ok (calls4, -1)
  else if socket6 sockets >? 0 then
    Ok (calls4 ++ [s6], match setsockopt s6 with SetFailed => -1 | _ => 0 end)
  else Ok (calls4, 0).

(** do_socket_setup(): the setsockopt() calls, in order. *)
Definition do_socket_setup (sock family : Z) (options : option sockopt_t) : res (list setting) :=
  match options with
  | None => Ok []
  | Some o =>
      let call opt v := {| on := sock; option_ := opt; value := v |} in
      let mss := if sock_mss o >? 0 then [call TCP_MAXSEG (sock_mss o)] else [] in
      let nagle := if negb (sock_disable_nagle o =? 0)
                   then [call TCP_NODELAY (sock_disable_nagle o)] else [] in
      let buffer v plain force :=
        if v >? 0 then
          call plain v
          :: (if set_and_verify_sockopt (call plain v) <? 0 then [call force v] else [])
        else [] in
      let reuse := if negb (reuse_addr o =? 0) then [call SO_REUSEADDR (reuse_addr o)] else [] in
      let calls := mss ++ nagle ++ buffer (sock_rcvbuf o) SO_RCVBUF SO_RCVBUFFORCE
                   ++ buffer (sock_sndbuf o) SO_SNDBUF SO_SNDBUFFORCE ++ reuse in
      if dscp o =? 0 then Ok calls
      else if family =? AF_INET then
        r ← set_dscp_socket_options {| socket := sock; socket6 := 0 |} (dscp o); Ok (calls ++ fst r)
      else if family =? AF_INET6 then
        r ← set_dscp_socket_options {| socket := 0; socket6 := sock |} (dscp o); Ok (calls ++ fst r)
      else Ok calls
  end.
End Options.

(** ** Small helpers *)

(** check_exists(): stat() says error, nothing there, or the kind and size. *)
Inductive stat_result : Set :=
| StatError | StatMissing | StatFile (regular link : bool) (size : Z).
Definition check_exists (st : stat_result) (strict : bool) : Z :=
  match st with
  | StatError => -1
  | StatFile regular link size =>
      if (regular && (size >? 0)) || link then 0
      else if negb regular then -1
      else if strict then -1 else 1
  | StatMissing => if strict then -1 else 1
  end.

(** copy_address_to_protobuf(): the return value and the bytes of the field;
    [Some None] is a destination without an address. *)
Definition copy_address_to_protobuf (src : option (option sockaddr)) : Z * option (list Z) :=
  match src with
  | Some (Some (SockIn s)) => (1, Some (in_addr_bytes s))
  | Some (Some (SockIn6 ws)) => (1, Some (in6_addr_bytes ws))
  | _ => (0, None)
  end.

(** parse_optional_argument(): the argument and the new [optind]. *)
Definition parse_optional_argument (optarg : option cstr) (argv : list (option cstr)) (optind : Z)
    : res (option cstr * Z) :=
  match optarg with
  | Some a => Ok (Some a, optind)
  | None =>
      next ← rd argv optind;
      match next with
      | None => Ok (None, optind)
      | Some w =>
          match w with
          | c :: _ => if bool_decide (c = "-"%char) then Ok (None, optind) else Ok (Some w, optind + 1)
          | [] => Ok (Some w, optind + 1)
          end
      end
  end.

(** ** Packets are paced *)

(** The times at which a series of calls went through to sendto(). *)
Fixpoint send_times (last : timeval) (ipd : Z) (calls : list (timeval * bool)) : list timeval :=
  match calls with
  | [] => []
  | (now, ok) :: calls' =>
      let '(last', r) := delay_send_packet last now ipd ok in
      match r with
      | Wait _ => send_times last' ipd calls'
      | _ => now :: send_times last' ipd calls'
      end
  end.

(** Successive times are at least [gap] microseconds apart. *)
Fixpoint spaced (gap : Z) (ts : list timeval) : Prop :=
  match ts with
  | a :: rest => match rest with b :: _ => gap <= tv_us b - tv_us a | [] => True end /\ spaced gap rest
  | [] => True
  end.

(** A clock that does not go back and stays in a span of 35 minutes. *)
Definition clock_ok (t0 : Z) (ts : list timeval) : Prop :=
  Forall (fun t => tv_wf t /\ 0 < tv_sec t /\ t0 <= tv_us t < t0 + 2147483648) ts /\
  StronglySorted (fun a b => tv_us a <= tv_us b) ts.

Lemma diff_us a b :
  tv_wf a -> tv_wf b -> tv_us b <= tv_us a < tv_us b + 2147483648 ->
  i32 (DIFF_TV_US a b) = tv_us a - tv_us b.
Proof.
  intros _ _ H. unfold DIFF_TV_US, tv_us in *.
  replace ((tv_sec a - tv_sec b) * 1000000 + (tv_usec a - tv_usec b))
    with (tv_sec a * 1000000 + tv_usec a - (tv_sec b * 1000000 + tv_usec b)) by lia.
  rewrite i64_id by lia. apply i32_id. lia.
Qed.

(** One call when the clock is [d] microseconds past the last packet. *)
Lemma delay_send_packet_spec last now ipd ok :
  tv_wf last -> tv_wf now -> tv_us last <= tv_us now < tv_us last + 2147483648 ->
  0 <= ipd < 2147483648 ->
  delay_send_packet last now ipd ok =
  if negb (tv_sec last =? 0) && (tv_us now - tv_us last <? ipd)
  then (last, Wait (ipd - (tv_us now - tv_us last)))
  else (now, if ok then Sent now else SendFailed).
Proof.
  intros Hl Hn Hd Hi. unfold delay_send_packet. rewrite diff_us by done.
  rewrite (proj2 (Z.ltb_ge (tv_us now - tv_us last) 0)) by lia. rewrite i32_id by lia.
  destruct (negb (tv_sec last =? 0)); cbn [andb]; [|done].
  destruct (Z.ltb_spec (tv_us now - tv_us last) ipd); [|done].
  rewrite u32_id, i32_id by lia. rewrite (proj2 (Z.eqb_neq _ _)) by lia. done.
Qed.

Lemma first_send now last ipd ok :
  tv_sec last = 0 -> delay_send_packet last now ipd ok = (now, if ok then Sent now else SendFailed).
Proof. intros H. unfold delay_send_packet. by rewrite H. Qed.

Lemma send_times_after ipd t0 calls last :
  0 <= ipd < 2147483648 -> clock_ok t0 (last :: (fst <$> calls)) ->
  spaced ipd (last :: send_times last ipd calls).
Proof.
  intros Hi. revert last. induction calls as [|[now ok] calls IH]; intros last [Hf Hs]; [done|].
  cbn [fmap list_fmap] in *. inversion Hf as [|? ? (Hl & Hlp & Hlr) Hf']; subst.
  inversion Hf' as [|? ? (Hn & Hnp & Hnr) Hf'']; subst.
  inversion Hs as [|? ? Hs' Hle]; subst. inversion Hle as [|? ? Hln Hle']; subst.
  inversion Hs' as [|? ? Hs'' Hle'']; subst. cbn in *.
  rewrite delay_send_packet_spec by (done || lia).
  rewrite (proj2 (Z.eqb_neq (tv_sec last) 0)) by lia. cbn [negb andb].
  destruct (Z.ltb_spec (tv_us now - tv_us last) ipd).
  - apply (IH last). split; constructor; auto.
  - destruct ok; (split; [lia|]); apply (IH now); split; constructor; auto.
Qed.

(** Packets are paced.  However a test calls delay_send_packet(), successive
    packets are sent at least the inter-packet delay apart, as long as the clock
    does not go back. *)
Theorem packets_are_paced ipd t0 calls :
  0 <= ipd < 2147483648 -> clock_ok t0 (fst <$> calls) ->
  spaced ipd (send_times (Tv 0 0) ipd calls).
Proof.
  intros Hi Hc. destruct calls as [|[now ok] calls]; [done|]. cbn [send_times].
  rewrite first_send by done. destruct ok; by apply (send_times_after ipd t0).
Qed.

Lemma packets_are_paced_witness :
  let calls := [(Tv 5 0, true); (Tv 5 40, true); (Tv 5 100, true); (Tv 5 300, false)] in
  send_times (Tv 0 0) 100 calls = [Tv 5 0; Tv 5 100; Tv 5 300] /\
  spaced 100 (send_times (Tv 0 0) 100 calls).
Proof.
  intros calls. split; [reflexivity|]. apply (packets_are_paced 100 5000000); [lia|].
  split; repeat (constructor; [first [ split_and!; vm_compute; (reflexivity || discriminate)
    | repeat (constructor; [vm_compute; discriminate|]); constructor ]|]);
    try (repeat (constructor; [vm_compute; discriminate|]); constructor).
Defined.

(** Waiting as told is enough.  When delay_send_packet() asks to wait, a call
    made that much later, or up to half an hour after the last packet, sends
    the packet. *)
Theorem delay_is_enough last now now' ipd ok ok' d :
  tv_wf last -> tv_wf now -> tv_wf now' -> 0 <= ipd < 2147483648 ->
  tv_us last <= tv_us now -> tv_us now' < tv_us last + 2147483648 ->
  delay_send_packet last now ipd ok = (last, Wait d) -> tv_us now + d <= tv_us now' ->
  0 < d <= ipd /\
  delay_send_packet last now' ipd ok' = (now', if ok' then Sent now' else SendFailed).
Proof.
  intros Hl Hn Hn' Hi H1 H2 Hw H3.
  destruct (Z.lt_ge_cases (tv_us now) (tv_us last + 2147483648)) as [Hlt|Hge].
  - rewrite delay_send_packet_spec in Hw by (done || lia).
    destruct (negb (tv_sec last =? 0) && (tv_us now - tv_us last <? ipd)) eqn:E; [|by destruct ok].
    injection Hw as <-. apply andb_true_iff in E as [_ E]. apply Z.ltb_lt in E.
    split; [lia|]. rewrite delay_send_packet_spec by (done || lia).
    rewrite (proj2 (Z.ltb_ge _ ipd)) by lia. by rewrite andb_false_r.
  - exfalso. unfold delay_send_packet in Hw.
    set (diff := if i32 (DIFF_TV_US now last) <? 0 then 0 else i32 (DIFF_TV_US now last)) in *.
    assert (Hdiff : 0 <= diff) by (subst diff; destruct (Z.ltb_spec (i32 (DIFF_TV_US now last)) 0); lia).
    destruct (negb (tv_sec last =? 0)); cbn [andb] in Hw; [|by destruct ok].
    destruct (Z.ltb_spec diff (i32 ipd)) as [E|]; [|by destruct ok].
    rewrite (i32_id ipd) in E by lia. rewrite u32_id, i32_id in Hw by lia.
    rewrite (proj2 (Z.eqb_neq _ _)) in Hw by lia. injection Hw as <-. lia.
Qed.

Lemma delay_is_enough_witness :
  delay_send_packet (Tv 5 0) (Tv 5 40) 100 true = (Tv 5 0, Wait 60) /\
  0 < 60 <= 100 /\ delay_send_packet (Tv 5 0) (Tv 5 101) 100 true = (Tv 5 101, Sent (Tv 5 101)).
Proof.
  split; [reflexivity|].
  apply (delay_is_enough (Tv 5 0) (Tv 5 40) (Tv 5 101) 100 true true 60);
    try (unfold tv_wf; cbn; lia); try (vm_compute; (reflexivity || discriminate)).
Defined.

(** ** Waiting for data *)

Definition sel_time (s : select_result) : timeval :=
  match s with SelIntr t => t | SelError t => t | SelReady _ t => t end.
(** The family of the socket a final select() result gives. *)
Definition sel_family (sockets : socket_t) (s : select_result) : Z :=
  match s with
  | SelReady readable _ =>
      if (socket sockets >? 0) && bool_decide (socket sockets ∈ readable) then AF_INET
      else if (socket6 sockets >? 0) && bool_decide (socket6 sockets ∈ readable) then AF_INET6
      else -1
  | _ => -1
  end.
Definition sane (start t : timeval) : Prop :=
  tv_wf t /\ tv_us start <= tv_us t < tv_us start + 2147483648.
Definition time_left (maxwait : Z) (start t : timeval) : Z := Z.max 0 (maxwait - (tv_us t - tv_us start)).

Lemma elapsed_us now start : tv_wf start -> sane start now -> elapsed now start = tv_us now - tv_us start.
Proof.
  intros Hs [Hn Hd]. unfold elapsed. rewrite diff_us by done.
  by rewrite (proj2 (Z.ltb_ge _ _)) by lia.
Qed.

Lemma select_timeout_us maxwait d :
  0 <= d -> 0 <= maxwait ->
  tv_us (select_timeout maxwait d) = Z.max 0 (maxwait - d) /\ tv_wf (select_timeout maxwait d).
Proof.
  intros Hd Hm. unfold select_timeout. destruct (Z.gtb_spec d maxwait).
  - unfold tv_us, tv_wf. cbn [tv_sec tv_usec]. lia.
  - rewrite Z.quot_div_nonneg, Z.rem_mod_nonneg by lia. unfold tv_us, tv_wf. cbn [tv_sec tv_usec].
    pose proof (Z.div_mod (maxwait - d) 1000000). pose proof (Z.mod_pos_bound (maxwait - d) 1000000).
    pose proof (Z.div_pos (maxwait - d) 1000000). lia.
Qed.

Lemma wait_loop_spec sockets maxwait start d intrs final rest :
  tv_wf start -> 0 <= maxwait -> 0 <= d ->
  Forall (sane start) intrs -> sane start (sel_time final) -> (forall t, final <> SelIntr t) ->
  exists ts,
    wait_loop sockets maxwait start d ((SelIntr <$> intrs) ++ final :: rest)
    = (ts, Some (sel_family sockets final, time_left maxwait start (sel_time final))) /\
    tv_us <$> ts = Z.max 0 (maxwait - d) :: (time_left maxwait start <$> intrs) /\
    Forall tv_wf ts.
Proof.
  intros Hst Hm. revert d. induction intrs as [|t intrs IH]; intros d Hd Hi Hf Hne;
    destruct (select_timeout_us maxwait d Hd Hm) as [Hus Hwf].
  - exists [select_timeout maxwait d]. split_and!.
    + assert (Hl : (if maxwait - elapsed (sel_time final) start <? 0 then 0
                    else maxwait - elapsed (sel_time final) start)
                   = time_left maxwait start (sel_time final)).
      { rewrite elapsed_us by done. unfold time_left.
        destruct (Z.ltb_spec (maxwait - (tv_us (sel_time final) - tv_us start)) 0); lia. }
      destruct final as [t|t|readable t]; [by destruct (Hne t)| |]; cbn in *; by rewrite Hl.
    + cbn. by rewrite Hus.
    + constructor; [done|constructor].
  - inversion Hi as [|? ? Ht Hi']; subst.
    destruct (IH (elapsed t start)) as (ts & Hw & Hts & Hall); [|done..|].
    { rewrite elapsed_us by done. destruct Ht. lia. }
    exists (select_timeout maxwait d :: ts). cbn [fmap list_fmap app wait_loop]. rewrite Hw.
    split_and!; [done| |by constructor]. cbn [fmap list_fmap]. rewrite Hus, Hts.
    unfold time_left at 2. by rewrite elapsed_us by done.
Qed.

(** Waiting for data.  Whatever signals interrupt it, wait_for_data() goes on
    with a timeout of exactly the time that is left, returns with the first
    answer of select() that is no interruption, reports the IPv4 socket before
    the IPv6 one, and takes the time that has passed off the caller's budget. *)
Theorem wait_for_data_correct sockets maxwait start intrs final rest :
  tv_wf start -> 0 <= maxwait -> Forall (sane start) intrs -> sane start (sel_time final) ->
  (forall t, final <> SelIntr t) ->
  exists ts,
    wait_for_data sockets maxwait start ((SelIntr <$> intrs) ++ final :: rest)
    = (ts, Some (sel_family sockets final, time_left maxwait start (sel_time final))) /\
    tv_us <$> ts = maxwait :: (time_left maxwait start <$> intrs) /\ Forall tv_wf ts.
Proof.
  intros Hst Hm Hi Hf Hne.
  destruct (wait_loop_spec sockets maxwait start 0 intrs final rest) as (ts & H1 & H2 & H3); auto; [lia|].
  exists ts. rewrite Z.sub_0_r, Z.max_r in H2 by lia. done.
Qed.

Lemma wait_for_data_correct_witness :
  exists ts,
    wait_for_data {| socket := 4; socket6 := 5 |} 1500000 (Tv 10 0)
      [SelIntr (Tv 10 500000); SelReady [5] (Tv 11 0)]
    = (ts, Some (AF_INET6, 500000)) /\
    tv_us <$> ts = [1500000; 1000000] /\ Forall tv_wf ts.
Proof.
  apply (wait_for_data_correct {| socket := 4; socket6 := 5 |} 1500000 (Tv 10 0)
           [Tv 10 500000] (SelReady [5] (Tv 11 0)) []).
  - unfold tv_wf. cbn. lia.
  - lia.
  - constructor; [|constructor]. unfold sane, tv_wf, tv_us. cbn. lia.
  - unfold sane, tv_wf, tv_us. cbn. lia.
  - discriminate.
Defined.

(** ** Socket options *)

(** Which option of a test asks for a setsockopt() call, and with what value. *)
Definition asked_for (o : sockopt_t) (s : setting) : Prop :=
  match option_ s with
  | TCP_MAXSEG => value s = sock_mss o /\ 0 < value s
  | TCP_NODELAY => value s = sock_disable_nagle o /\ value s <> 0
  | SO_RCVBUF | SO_RCVBUFFORCE => value s = sock_rcvbuf o /\ 0 < value s
  | SO_SNDBUF | SO_SNDBUFFORCE => value s = sock_sndbuf o /\ 0 < value s
  | SO_REUSEADDR => value s = reuse_addr o /\ value s <> 0
  | IP_TOS | IPV6_TCLASS => value s = 4 * dscp o /\ dscp o <> 0
  end.

Lemma verify_failed setsockopt getsockopt s :
  (set_and_verify_sockopt setsockopt getsockopt s <? 0) = true ->
  set_and_verify_sockopt setsockopt getsockopt s = -1.
Proof. unfold set_and_verify_sockopt. repeat case_match; done. Qed.

(** The call an option asks for; the privileged forms are never asked for. *)
Definition requested (o : sockopt_t) (family : Z) (opt : sockopt) (v : Z) : Prop :=
  match opt with
  | TCP_MAXSEG => v = sock_mss o /\ 0 < v
  | TCP_NODELAY => v = sock_disable_nagle o /\ v <> 0
  | SO_RCVBUF => v = sock_rcvbuf o /\ 0 < v
  | SO_SNDBUF => v = sock_sndbuf o /\ 0 < v
  | SO_REUSEADDR => v = reuse_addr o /\ v <> 0
  | IP_TOS => family = AF_INET /\ v = 4 * dscp o /\ dscp o <> 0
  | IPV6_TCLASS => family = AF_INET6 /\ v = 4 * dscp o /\ dscp o <> 0
  | SO_RCVBUFFORCE | SO_SNDBUFFORCE => False
  end.

Section Setup.
Context (setsockopt : setting -> set_answer) (getsockopt : setting -> option Z).
Context (sock : Z) (o : sockopt_t) (Hsock : 0 < sock).

(** A call on our socket that was asked for, in its privileged form only where
    the plain one did not take. *)
Definition call_ok (s : setting) : Prop :=
  (on s = sock /\ asked_for o s) /\
  (option_ s = SO_RCVBUFFORCE -> set_and_verify_sockopt setsockopt getsockopt
     {| on := sock; option_ := SO_RCVBUF; value := value s |} = -1) /\
  (option_ s = SO_SNDBUFFORCE -> set_and_verify_sockopt setsockopt getsockopt
     {| on := sock; option_ := SO_SNDBUF; value := value s |} = -1).

(** The calls before the one for the code point. *)
Definition plain_calls : list setting :=
  let call opt v := {| on := sock; option_ := opt; value := v |} in
  let buffer v plain force :=
    if v >? 0 then
      call plain v :: (if set_and_verify_sockopt setsockopt getsockopt (call plain v) <? 0
                       then [call force v] else [])
    else [] in
  (if sock_mss o >? 0 then [call TCP_MAXSEG (sock_mss o)] else [])
  ++ (if negb (sock_disable_nagle o =? 0) then [call TCP_NODELAY (sock_disable_nagle o)] else [])
  ++ buffer (sock_rcvbuf o) SO_RCVBUF SO_RCVBUFFORCE
  ++ buffer (sock_sndbuf o) SO_SNDBUF SO_SNDBUFFORCE
  ++ (if negb (reuse_addr o =? 0) then [call SO_REUSEADDR (reuse_addr o)] else []).

Lemma plain_calls_ok : Forall call_ok plain_calls.
Proof using Type.
  unfold plain_calls. rewrite !Forall_app. split_and!.
  - destruct (Z.gtb_spec (sock_mss o) 0); constructor; [|constructor]. by repeat split.
  - destruct (Z.eqb_spec (sock_disable_nagle o) 0); cbn [negb]; constructor; [|constructor].
    by repeat split.
  - destruct (Z.gtb_spec (sock_rcvbuf o) 0); [|constructor].
    destruct (set_and_verify_sockopt _ _ _ <? 0) eqn:E; (constructor; [by repeat split|]);
      [|constructor]. constructor; [|constructor]. repeat split; try done.
    intros _. by apply verify_failed.
  - destruct (Z.gtb_spec (sock_sndbuf o) 0); [|constructor].
    destruct (set_and_verify_sockopt _ _ _ <? 0) eqn:E; (constructor; [by repeat split|]);
      [|constructor]. constructor; [|constructor]. repeat split; try done.
    intros _. by apply verify_failed.
  - destruct (Z.eqb_spec (reuse_addr o) 0); cbn [negb]; constructor; [|constructor]. by repeat split.
Qed.

Lemma plain_calls_complete family opt v :
  requested o family opt v -> opt <> IP_TOS -> opt <> IPV6_TCLASS ->
  {| on := sock; option_ := opt; value := v |} ∈ plain_calls.
Proof using Type.
  intros Hr H4 H6. unfold plain_calls. rewrite !elem_of_app.
  destruct opt; cbn in Hr; try done; destruct Hr as [-> Hv].
  - left. rewrite (proj2 (Z.gtb_lt _ _) Hv). by left.
  - right. left. rewrite (proj2 (Z.eqb_neq _ _) Hv). by left.
  - do 2 right. left. rewrite (proj2 (Z.gtb_lt _ _) Hv). by left.
  - do 3 right. left. rewrite (proj2 (Z.gtb_lt _ _) Hv). by left.
  - do 4 right. rewrite (proj2 (Z.eqb_neq _ _) Hv). by left.
Qed.

Lemma dscp_call_ok sockets :
  (socket sockets = sock /\ socket6 sockets = 0) \/ (socket sockets = 0 /\ socket6 sockets = sock) ->
  dscp o <> 0 ->
  exists calls r, set_dscp_socket_options setsockopt sockets (dscp o) = Ok (calls, r) /\
    Forall call_ok calls /\
    {| on := sock; option_ := if socket sockets =? sock then IP_TOS else IPV6_TCLASS;
       value := 4 * dscp o |} ∈ calls.
Proof using Hsock.
  intros Hs Hd. unfold set_dscp_socket_options.
  rewrite c_assert_true by (apply orb_true_iff; rewrite !Z.gtb_lt; lia).
  rewrite Z.shiftl_mul_pow2 by lia. change (2 ^ 2) with 4.
  replace (dscp o * 4) with (4 * dscp o) by lia. destruct sockets as [a b]. cbn [socket socket6] in *.
  destruct Hs as [[-> ->]|[-> ->]].
  - rewrite (proj2 (Z.gtb_lt sock 0) Hsock), Z.eqb_refl. change (0 >? 0) with false. cbn [andb].
    repeat case_match; do 2 eexists; (split; [done|]); (split; [|by left]);
      (constructor; [by repeat split|constructor]).
  - rewrite (proj2 (Z.gtb_lt sock 0) Hsock), (proj2 (Z.eqb_neq 0 sock)) by lia.
    change (0 >? 0) with false. cbn [andb app].
    repeat case_match; do 2 eexists; (split; [done|]); (split; [|by left]);
      (constructor; [by repeat split|constructor]).
Qed.

Lemma do_socket_setup_calls family :
  family = AF_INET \/ family = AF_INET6 ->
  exists calls, do_socket_setup setsockopt getsockopt sock family (Some o) = Ok calls /\
    Forall call_ok calls /\
    forall opt v, requested o family opt v -> {| on := sock; option_ := opt; value := v |} ∈ calls.
Proof using Hsock.
  intros Hfam. unfold do_socket_setup. cbn zeta. fold plain_calls.
  destruct (Z.eqb_spec (dscp o) 0) as [Hd|Hd].
  { exists plain_calls. split; [done|]. split; [apply plain_calls_ok|]. intros opt v Hr.
    eapply plain_calls_complete; [done|..]; intros ->; cbn in Hr; tauto. }
  pose proof plain_calls_ok as Hok.
  destruct Hfam as [->| ->]; cbn [Z.eqb AF_INET AF_INET6 Pos.eqb].
  - destruct (dscp_call_ok {| socket := sock; socket6 := 0 |}) as (cs & r & -> & Hcs & Hin);
      [by left|done|]. eexists. split; [done|]. split; [by apply Forall_app|].
    intros opt v Hr. cbn [socket] in Hin. rewrite Z.eqb_refl in Hin. apply elem_of_app.
    destruct opt; try (by left; eapply plain_calls_complete); cbn in Hr; [|by destruct Hr as [? _]].
    right. by destruct Hr as (_ & -> & _).
  - destruct (dscp_call_ok {| socket := 0; socket6 := sock |}) as (cs & r & -> & Hcs & Hin);
      [by right|done|]. eexists. split; [done|]. split; [by apply Forall_app|].
    intros opt v Hr. cbn [socket] in Hin. rewrite (proj2 (Z.eqb_neq 0 sock)) in Hin by lia. apply elem_of_app.
    destruct opt; try (by left; eapply plain_calls_complete); cbn in Hr; [by destruct Hr as [? _]|].
    right. by destruct Hr as (_ & -> & _).
Qed.
End Setup.

(** A test gets the socket options it asks for, and no others.  On a socket of
    either family do_socket_setup() makes a call for each option that is asked
    for; it makes only calls on that socket, each with the value one of the
    options asks for (the code point in the upper six bits of the traffic class
    byte); and it uses the privileged form of a buffer size only where the plain
    one did not take. *)
Theorem socket_setup_as_asked setsockopt getsockopt sock family o :
  0 < sock -> family = AF_INET \/ family = AF_INET6 ->
  exists calls, do_socket_setup setsockopt getsockopt sock family (Some o) = Ok calls /\
    (forall opt v, requested o family opt v -> {| on := sock; option_ := opt; value := v |} ∈ calls) /\
    Forall (fun s => on s = sock /\ asked_for o s) calls /\
    (forall s, s ∈ calls -> option_ s = SO_RCVBUFFORCE ->
       set_and_verify_sockopt setsockopt getsockopt
         {| on := sock; option_ := SO_RCVBUF; value := value s |} = -1) /\
    (forall s, s ∈ calls -> option_ s = SO_SNDBUFFORCE ->
       set_and_verify_sockopt setsockopt getsockopt
         {| on := sock; option_ := SO_SNDBUF; value := value s |} = -1).
Proof.
  intros Hsock Hfam.
  destruct (do_socket_setup_calls setsockopt getsockopt sock o Hsock family Hfam)
    as (calls & Hrun & HQ & Hall). exists calls. split; [done|]. split; [done|].
  rewrite Forall_forall in HQ. split_and!.
  - apply Forall_forall. intros s Hs. by apply HQ.
  - intros s Hs. by apply HQ.
  - intros s Hs. by apply HQ.
Qed.

Definition sample_options : sockopt_t :=
  {| sock_mss := 1400; sock_disable_nagle := 0; sock_rcvbuf := 65536; sock_sndbuf := 0;
     reuse_addr := 1; dscp := 46 |}.

Lemma socket_setup_as_asked_witness :
  let kernel := fun s : setting => SetDone in
  let report := fun s : setting => Some (value s) in
  exists calls, do_socket_setup kernel report 5 AF_INET (Some sample_options) = Ok calls /\
    (forall opt v, requested sample_options AF_INET opt v ->
       {| on := 5; option_ := opt; value := v |} ∈ calls) /\
    Forall (fun s => on s = 5 /\ asked_for sample_options s) calls /\
    (forall s, s ∈ calls -> option_ s = SO_RCVBUFFORCE ->
       set_and_verify_sockopt kernel report {| on := 5; option_ := SO_RCVBUF; value := value s |} = -1) /\
    (forall s, s ∈ calls -> option_ s = SO_SNDBUFFORCE ->
       set_and_verify_sockopt kernel report {| on := 5; option_ := SO_SNDBUF; value := value s |} = -1).
Proof.
  intros kernel report. apply (socket_setup_as_asked kernel report 5 AF_INET sample_options).
  - lia.
  - left. reflexivity.
Defined.
