(* ===== verification/Bytes.v ===== *)
(** Byte buffers: 16-bit loads and stores of a little-endian host, and how they
    meet network byte order. *)
From S2P Require Import Prelude CLib.
#[local] Open Scope Z_scope.

Definition bytes_ok (l : list Z) : Prop := Forall (fun b => 0 <= b < 256) l.

(** A uint16_t load at [buf + off]. *)
Definition rd16 (buf : list Z) (off : Z) : res Z :=
  lo ← rd buf off; hi ← rd buf (off + 1); Ok (lo + 256 * hi).

(** The bytes of a stored uint16_t, and of one in network byte order. *)
Definition le16 (x : Z) : list Z := [u16 x mod 256; u16 x / 256].
Definition be16 (x : Z) : list Z := [u16 x / 256; u16 x mod 256].

Lemma le16_bytes x : bytes_ok (le16 x).
Proof.
  unfold bytes_ok, le16. pose proof (u16_range x).
  repeat constructor; Z.div_mod_to_equations; lia.
Qed.

Lemma lor_shift8 a b : 0 <= b < 256 -> Z.lor (Z.shiftl a 8) b = 256 * a + b.
Proof.
  intros Hb. rewrite Z.shiftl_mul_pow2 by lia. change (2 ^ 8) with 256.
  assert (Hand : Z.land (a * 256) b = 0).
  { apply Z.bits_inj'. intros n Hn. rewrite Z.land_spec, Z.bits_0.
    destruct (Z.lt_ge_cases n 8).
    - change 256 with (2 ^ 8). by rewrite Z.mul_pow2_bits_low.
    - by rewrite (bits_above_range b 8), andb_false_r by lia. }
  rewrite <- Z.lxor_lor, <- Z.add_nocarry_lxor by done. lia.
Qed.

(** A word in network byte order. *)
Lemma ntohs_bytes lo hi : 0 <= lo < 256 -> 0 <= hi < 256 -> ntohs (lo + 256 * hi) = 256 * lo + hi.
Proof.
  intros Hlo Hhi. unfold ntohs, bswap16. rewrite u16_id by lia.
  assert (H0 : byte_at (lo + 256 * hi) 0 = lo).
  { unfold byte_at. change 255 with (Z.ones 8). rewrite Z.land_ones, Z.mul_0_r, Z.shiftr_0_r by lia.
    change (2 ^ 8) with 256. Z.div_mod_to_equations. lia. }
  assert (H1 : byte_at (lo + 256 * hi) 1 = hi).
  { unfold byte_at. change 255 with (Z.ones 8). rewrite Z.land_ones by lia.
    rewrite Z.shiftr_div_pow2 by lia. change (2 ^ (8 * 1)) with 256. change (2 ^ 8) with 256.
    Z.div_mod_to_equations. lia. }
  rewrite H0, H1, lor_shift8 by lia. lia.
Qed.

Lemma htons_be16 x : le16 (htons x) = be16 x.
Proof.
  pose proof (u16_range x) as Hx. unfold htons.
  assert (E : ntohs x = u16 x / 256 + 256 * (u16 x mod 256)).
  { unfold ntohs. replace (u16 x) with (u16 x mod 256 + 256 * (u16 x / 256)) at 1
      by (Z.div_mod_to_equations; lia).
    rewrite <- (u16_id (u16 x mod 256 + 256 * (u16 x / 256))) by (Z.div_mod_to_equations; lia).
    fold (ntohs (u16 x mod 256 + 256 * (u16 x / 256))).
    rewrite ntohs_bytes by (Z.div_mod_to_equations; lia). lia. }
  unfold le16, be16. rewrite E. rewrite u16_id by (Z.div_mod_to_equations; lia).
  f_equal; [|f_equal]; Z.div_mod_to_equations; lia.
Qed.

(** Reads in the part of a buffer they fall in. *)
Lemma rd_app_r {A} (a b : list A) i :
  0 <= i -> rd (a ++ b) (Z.of_nat (length a) + i) = rd b i.
Proof.
  intros Hi. unfold rd. rewrite !decide_True by lia. rewrite lookup_app_r by lia.
  by replace (Z.to_nat (Z.of_nat (length a) + i) - length a)%nat with (Z.to_nat i) by lia.
Qed.
Lemma rd_app_0 {A} (a b : list A) : rd (a ++ b) (Z.of_nat (length a)) = rd b 0.
Proof. rewrite <- (Z.add_0_r (Z.of_nat (length a))). by apply rd_app_r. Qed.

Lemma rd16_app_r a b i : 0 <= i -> rd16 (a ++ b) (Z.of_nat (length a) + i) = rd16 b i.
Proof.
  intros Hi. unfold rd16. rewrite <- Z.add_assoc, !rd_app_r by lia. done.
Qed.

Lemma rd_at {A} (l : list A) i x : l !! i = Some x -> rd l (Z.of_nat i) = Ok x.
Proof. intros H. apply rd_Ok. split; [lia|]. by rewrite Nat2Z.id. Qed.

Lemma rd16_at buf i lo hi :
  buf !! i = Some lo -> buf !! S i = Some hi -> rd16 buf (Z.of_nat i) = Ok (lo + 256 * hi).
Proof.
  intros H1 H2. unfold rd16. rewrite (rd_at _ _ _ H1). cbn.
  replace (Z.of_nat i + 1) with (Z.of_nat (S i)) by lia. by rewrite (rd_at _ _ _ H2).
Qed.

Lemma rd_byte buf i b : bytes_ok buf -> rd buf i = Ok b -> 0 <= b < 256.
Proof.
  intros Hb (_ & H)%rd_Ok. unfold bytes_ok in Hb. rewrite Forall_lookup in Hb. by apply (Hb _ _ H).
Qed.

(** Loads of what [be16] and [le16] store. *)
Definition word (x : Z) : Prop := 0 <= x < 65536.

Lemma be16_load x : word x -> ntohs (u16 x / 256 + 256 * (u16 x mod 256)) = x.
Proof.
  intros Hx. unfold word in Hx. rewrite u16_id by lia.
  rewrite ntohs_bytes by (Z.div_mod_to_equations; lia). Z.div_mod_to_equations; lia.
Qed.
Lemma le16_load x : word x -> u16 x mod 256 + 256 * (u16 x / 256) = x.
Proof. intros Hx. unfold word in Hx. rewrite u16_id by lia. Z.div_mod_to_equations; lia. Qed.

(** ** IPv4 headers *)

(** The bit fields of the first byte of an IPv4 header. *)
Definition ip_version (b : Z) : Z := Z.shiftr b 4.
Definition ip_ihl (b : Z) : Z := Z.land b 15.

(** An IPv4 header: its first byte gives the version and its own length. *)
Definition hdr_ok (hdr : list Z) : Prop :=
  exists b0 rest, hdr = b0 :: rest /\ ip_version b0 = 4 /\ 5 <= ip_ihl b0 /\
    ip_ihl b0 * 4 = Z.of_nat (length hdr).

Lemma rd_app_l {A} (a b : list A) i : i < Z.of_nat (length a) -> rd (a ++ b) i = rd a i.
Proof.
  intros Hi. unfold rd. case_decide; [|done]. by rewrite lookup_app_l by lia.
Qed.

(** ** 32-bit words *)

(** The bytes of a stored uint32_t, of one in network byte order, and the load. *)
Definition le32 (x : Z) : list Z :=
  [u32 x mod 256; u32 x / 256 mod 256; u32 x / 65536 mod 256; u32 x / 16777216].
Definition be32 (x : Z) : list Z := rev (le32 x).
Definition ld32 (l : list Z) : Z :=
  match l with
  | [b0; b1; b2; b3] => b0 + 256 * b1 + 65536 * b2 + 16777216 * b3
  | _ => 0
  end.
(** The number four bytes in network byte order stand for. *)
Definition be_val (l : list Z) : Z := foldl (fun acc b => 256 * acc + b) 0 l.

Lemma bswap32_sum x :
  bswap32 x = 16777216 * byte_at x 0 + 65536 * byte_at x 1 + 256 * byte_at x 2 + byte_at x 3.
Proof.
  unfold bswap32. pose proof (byte_at_range x 0). pose proof (byte_at_range x 1).
  pose proof (byte_at_range x 2). pose proof (byte_at_range x 3).
  assert (E : forall a b, Z.lor (Z.shiftl a 24) (Z.shiftl b 16) = Z.shiftl (Z.lor (Z.shiftl a 8) b) 16).
  { intros. by rewrite Z.shiftl_lor, Z.shiftl_shiftl by lia. }
  rewrite E, !lor_shift8 by lia.
  assert (Hs : forall a b, 0 <= b < 65536 -> Z.lor (Z.shiftl a 16) b = 65536 * a + b).
  { intros a b Hb. replace b with (Z.lor (Z.shiftl (b / 256) 8) (b mod 256)) at 1
      by (rewrite lor_shift8; Z.div_mod_to_equations; lia).
    change 16 with (8 + 8). rewrite <- Z.shiftl_shiftl, Z.lor_assoc, <- Z.shiftl_lor by lia.
    rewrite lor_shift8 by (Z.div_mod_to_equations; lia).
    rewrite lor_shift8 by (Z.div_mod_to_equations; lia). Z.div_mod_to_equations. lia. }
  rewrite Hs by lia. lia.
Qed.

Lemma byte_at_div x i : 0 <= i -> byte_at x i = x / 256 ^ i mod 256.
Proof.
  intros Hi. unfold byte_at. change 255 with (Z.ones 8).
  rewrite Z.land_ones, Z.shiftr_div_pow2 by lia. by rewrite Z.pow_mul_r.
Qed.

(** A 32-bit word in network byte order. *)
Lemma ntohl_ld32 l : bytes_ok l -> length l = 4%nat -> ntohl (ld32 l) = be_val l.
Proof.
  intros Hb Hl. destruct l as [|b0 [|b1 [|b2 [|b3 [|]]]]]; try done.
  inversion Hb as [|? ? H0 Hb1]; subst. inversion Hb1 as [|? ? H1 Hb2]; subst.
  inversion Hb2 as [|? ? H2 Hb3]; subst. inversion Hb3 as [|? ? H3 _]; subst.
  unfold ntohl, ld32. rewrite u32_id, bswap32_sum by lia. rewrite !byte_at_div by lia.
  change (256 ^ 0) with 1. change (256 ^ 1) with 256.
  change (256 ^ 2) with 65536. change (256 ^ 3) with 16777216.
  cbn -[Z.mul Z.add Z.div Z.modulo]. Z.div_mod_to_equations. lia.
Qed.

Lemma htonl_be32 x : le32 (ntohl x) = be32 x.
Proof.
  pose proof (u32_range x) as Hx. unfold le32, be32. rewrite (u32_id (ntohl x)) by apply bswap32_range.
  unfold ntohl. rewrite bswap32_sum, !byte_at_div by lia.
  change (256 ^ 0) with 1. change (256 ^ 1) with 256.
  change (256 ^ 2) with 65536. change (256 ^ 3) with 16777216.
  cbn [rev app]. repeat (apply (f_equal2 cons); [Z.div_mod_to_equations; lia|]). done.
Qed.

Lemma be32_val x : be_val (be32 x) = u32 x.
Proof.
  pose proof (u32_range x). unfold be32, le32. cbn -[Z.mul Z.add Z.div Z.modulo].
  Z.div_mod_to_equations. lia.
Qed.

Lemma be32_bytes x : bytes_ok (be32 x).
Proof.
  pose proof (u32_range x). unfold be32, le32, bytes_ok. cbn [rev app].
  repeat constructor; Z.div_mod_to_equations; lia.
Qed.

Lemma bytes_ok_decide l : forallb (fun b => (0 <=? b) && (b <? 256)) l = true -> bytes_ok l.
Proof.
  rewrite forallb_forall. intros H. apply List.Forall_forall. intros b Hb.
  specialize (H b Hb). lia.
Qed.

(** The [n] bytes of an integer in memory, and the value of some bytes. *)
Fixpoint le_bytes (n : nat) (x : Z) : list Z :=
  match n with O => [] | S n => x mod 256 :: le_bytes n (x / 256) end.
Fixpoint le_val (l : list Z) : Z := match l with [] => 0 | b :: l => b + 256 * le_val l end.

Lemma le_bytes_length n x : length (le_bytes n x) = n.
Proof. revert x. induction n as [|n IH]; intros x; cbn; [done|]. by rewrite IH. Qed.
Lemma le_val_bytes n x : le_val (le_bytes n x) = x mod 256 ^ Z.of_nat n.
Proof.
  revert x. induction n as [|n IH]; intros x; [by rewrite Z.mod_1_r|]. cbn [le_bytes le_val].
  rewrite IH, Nat2Z.inj_succ, Z.pow_succ_r by lia. rewrite Z.rem_mul_r by lia. done.
Qed.
Lemma le_val_small n x : 0 <= x < 256 ^ Z.of_nat n -> le_val (le_bytes n x) = x.
Proof. intros Hx. rewrite le_val_bytes. by apply Z.mod_small. Qed.
