(* ===== verification/Checksum.v ===== *)
(** The Internet checksum (src/common/checksum.c, after RFC 1071).

    Data is a list of bytes; the code reads it as 16-bit words of a
    little-endian host and adds a trailing odd byte as its low half. *)
From S2P Require Import Prelude CLib Bytes.
#[local] Open Scope Z_scope.

(** The first two loops: the sum of the words. *)
Fixpoint sum_words (data : list Z) (sum : Z) : Z :=
  match data with
  | lo :: hi :: rest => sum_words rest (u64 (sum + (lo + 256 * hi)))
  | [b] => u64 (sum + b)
  | [] => sum
  end.

(** The folding loop; a 64-bit sum is below 2^16 after five turns. *)
Fixpoint fold_sum (fuel : nat) (sum : Z) : Z :=
  match fuel with
  | O => sum
  | S fuel' =>
      if Z.shiftr sum 16 =? 0 then sum
      else fold_sum fuel' (u64 (Z.land sum 65535 + Z.shiftr sum 16))
  end.
Definition FOLD_FUEL : nat := 5.

(** checksum(data, length) with [length] the length of the list. *)
Definition checksum (data : list Z) : Z := u16 (Z.lnot (fold_sum FOLD_FUEL (sum_words data 0))).

(** ** The sum *)

(** The sum without wrap-around. *)
Fixpoint words (data : list Z) : Z :=
  match data with
  | lo :: hi :: rest => lo + 256 * hi + words rest
  | [b] => b
  | [] => 0
  end.

(** Induction two bytes at a time. *)
Lemma pairs_ind (P : list Z -> Prop) :
  P [] -> (forall b, P [b]) -> (forall lo hi l, P l -> P (lo :: hi :: l)) -> forall l, P l.
Proof.
  intros H0 H1 H2. fix IH 1. intros [|lo [|hi l]]; [exact H0|apply H1|apply H2, IH].
Qed.

Lemma words_bounds data : bytes_ok data -> 0 <= words data <= 65535 * Z.of_nat (length data).
Proof.
  induction data as [|b|lo hi l IH] using pairs_ind; intros H; cbn [words length].
  - lia.
  - inversion H; subst. lia.
  - inversion H as [|? ? Hlo H']; inversion H' as [|? ? Hhi H'']; subst. specialize (IH H''). lia.
Qed.

Lemma sum_words_eq data sum :
  bytes_ok data -> 0 <= sum -> sum + 65535 * Z.of_nat (length data) < 18446744073709551616 ->
  sum_words data sum = sum + words data.
Proof.
  revert sum. induction data as [|b|lo hi l IH] using pairs_ind; intros sum H Hs Hb;
    cbn [sum_words words length] in *.
  - lia.
  - inversion H; subst. rewrite u64_id; lia.
  - inversion H as [|? ? Hlo H']; inversion H' as [|? ? Hhi H'']; subst.
    rewrite u64_id, IH by (done || lia). lia.
Qed.

Lemma words_app a b : Nat.even (length a) = true -> words (a ++ b) = words a + words b.
Proof.
  induction a as [|x|lo hi l IH] using pairs_ind; intros He; cbn [app words]; [done|done|].
  rewrite IH by done. lia.
Qed.

(** ** Folding *)

Lemma fold_step s : 0 <= s -> Z.land s 65535 + Z.shiftr s 16 = s mod 65536 + s / 65536.
Proof.
  intros Hs. change 65535 with (Z.ones 16). rewrite Z.land_ones, Z.shiftr_div_pow2 by lia. done.
Qed.

(** What folding keeps: the residue modulo 2^16 - 1, and being zero. *)
Definition folded (s r : Z) : Prop := 0 <= r < 65536 /\ (65535 | s - r) /\ (r = 0 <-> s = 0).

Lemma folded_step s r :
  0 < s -> folded (s mod 65536 + s / 65536) r -> folded s r.
Proof.
  intros Hs (Hr & [k Hk] & Hz).
  pose proof (Z.div_mod s 65536 ltac:(lia)). pose proof (Z.mod_pos_bound s 65536 ltac:(lia)).
  pose proof (Z.div_pos s 65536 ltac:(lia) ltac:(lia)).
  split_and!; [lia|lia| |].
  - exists (k + s / 65536). lia.
  - split; intros; [|lia]. assert (s mod 65536 + s / 65536 = 0) by tauto. lia.
Qed.

Lemma fold_sum_small fuel s : 0 <= s < 65536 -> fold_sum fuel s = s.
Proof.
  intros Hs. destruct fuel; [done|]. cbn [fold_sum].
  rewrite Z.shiftr_div_pow2, Z.div_small by (cbn; lia). done.
Qed.

Lemma fold_sum_folded fuel s b :
  0 <= s <= b -> b < 18446744073709551616 ->
  (Nat.iter fuel (fun x => if x <? 65536 then x else Z.min (x - 65535) (65535 + x / 65536)) b < 65536) ->
  folded s (fold_sum fuel s).
Proof.
  revert s b. induction fuel as [|fuel IH]; intros s b Hs Hb Hit.
  { cbn in *. unfold folded. split_and!; [lia|lia|exists 0; lia|lia]. }
  destruct (Z.lt_ge_cases s 65536) as [Hsmall|Hbig].
  { rewrite fold_sum_small by lia. unfold folded. split_and!; [lia|lia|exists 0; lia|lia]. }
  cbn [fold_sum]. rewrite fold_step, Z.shiftr_div_pow2 by lia.
  change (2 ^ 16) with 65536.
  pose proof (Z.div_mod s 65536 ltac:(lia)) as Hdm. pose proof (Z.mod_pos_bound s 65536 ltac:(lia)) as Hmb.
  assert (Hd : 1 <= s / 65536) by (apply Z.div_le_lower_bound; lia).
  rewrite (proj2 (Z.eqb_neq _ _)) by lia.
  rewrite u64_id by (split; [lia|]; assert (s / 65536 <= s) by (apply Z.div_le_upper_bound; lia); lia).
  apply folded_step; [lia|].
  assert (Hdb : s / 65536 <= b / 65536) by (apply Z.div_le_mono; lia).
  apply (IH _ (Z.min (b - 65535) (65535 + b / 65536))).
  - split; [lia|]. apply Z.min_glb; lia.
  - assert (b / 65536 <= b) by (apply Z.div_le_upper_bound; lia). lia.
  - rewrite Nat.iter_succ_r in Hit. cbn beta in Hit.
    rewrite (proj2 (Z.ltb_ge b 65536)) in Hit by lia. exact Hit.
Qed.

Lemma fold_64 s :
  0 <= s < 18446744073709551616 -> folded s (fold_sum FOLD_FUEL s).
Proof.
  intros Hs. apply (fold_sum_folded _ s 18446744073709551615); [lia|lia|]. vm_compute. done.
Qed.

Definition small_enough (data : list Z) : Prop :=
  bytes_ok data /\ Z.of_nat (length data) < 281474976710656.

Lemma checksum_eq data :
  small_enough data ->
  exists r, folded (words data) r /\ checksum data = 65535 - r.
Proof.
  intros [Hb Hl]. unfold checksum. rewrite sum_words_eq by (done || lia). rewrite Z.add_0_l.
  pose proof (words_bounds data Hb). pose proof (fold_64 (words data) ltac:(lia)) as Hf.
  exists (fold_sum FOLD_FUEL (words data)). split; [done|]. destruct Hf as (Hr & _).
  unfold u16, Z.lnot. set (r := fold_sum _ _) in *.
  replace (Z.pred (- r)) with ((65535 - r) + (-1) * 65536) by lia.
  rewrite Z.mod_add, Z.mod_small by lia. lia.
Qed.

(** Storing the checksum makes the checksum of the whole zero. *)
Lemma checksum_fill before after lo hi :
  Nat.even (length before) = true -> small_enough (before ++ [0; 0] ++ after) ->
  0 <= lo < 256 -> 0 <= hi < 256 -> checksum (before ++ [0; 0] ++ after) = lo + 256 * hi ->
  checksum (before ++ [lo; hi] ++ after) = 0.
Proof.
  intros He Hsmall Hlo Hhi Hc. destruct (checksum_eq _ Hsmall) as (r & (Hr & [k Hk] & Hz) & Hcr).
  assert (Hs' : small_enough (before ++ [lo; hi] ++ after)).
  { destruct Hsmall as [Hb Hl]. unfold bytes_ok in *. rewrite !Forall_app in Hb. split.
    - unfold bytes_ok. rewrite !Forall_app. repeat constructor; try lia; tauto.
    - rewrite !length_app in *. cbn in *. lia. }
  destruct (checksum_eq _ Hs') as (r' & (Hr' & [k' Hk'] & Hz') & ->).
  destruct Hs' as [Hb _]. unfold bytes_ok in Hb. rewrite !Forall_app in Hb. destruct Hb as (Hb1 & _ & Hb2).
  rewrite words_app in * by done. cbn [app words] in *.
  pose proof (words_bounds before) as Hwb. pose proof (words_bounds after) as Hwa.
  specialize (Hwb Hb1). specialize (Hwa Hb2).
  assert (E : 65535 - r = lo + 256 * hi) by congruence.
  assert (Hpos : r' <> 0).
  { intros H0. apply Hz' in H0. assert (words before + (0 + 256 * 0 + words after) = 0) by lia.
    apply Hz in H. lia. }
  assert (r' = 65535); [|lia]. assert (Hm : (65535 | r')) by (exists (k + 1 - k'); lia).
  destruct Hm as [m Hm]. lia.
Qed.

(** A packet carries a valid checksum.  When the checksum of data with a zero
    checksum field, at an even offset, is stored into that field in host
    order, the checksum of the whole is 0, which is how a receiver checks it. *)
Theorem checksum_verifies before after lo hi :
  Nat.even (length before) = true -> small_enough (before ++ [0; 0] ++ after) ->
  0 <= lo < 256 -> 0 <= hi < 256 -> checksum (before ++ [0; 0] ++ after) = lo + 256 * hi ->
  checksum (before ++ [lo; hi] ++ after) = 0.
Proof. apply checksum_fill. Qed.

Lemma checksum_verifies_witness :
  checksum ([8; 0] ++ [0; 0] ++ [18; 52; 0; 1; 9]) = 220 + 256 * 202 /\
  checksum ([8; 0] ++ [220; 202] ++ [18; 52; 0; 1; 9]) = 0.
Proof.
  split; [reflexivity|]. apply (checksum_verifies [8; 0] [18; 52; 0; 1; 9] 220 202).
  - reflexivity.
  - split; [repeat (constructor; [lia|]); constructor|cbn; lia].
  - lia.
  - lia.
  - reflexivity.
Defined.

(** The checksum detects a change of one word.  Data that differ in one
    16-bit word have different checksums, except where 0x0000 and 0xffff were
    exchanged. *)
Theorem checksum_detects_word before after lo hi lo' hi' :
  Nat.even (length before) = true ->
  small_enough (before ++ [lo; hi] ++ after) -> small_enough (before ++ [lo'; hi'] ++ after) ->
  checksum (before ++ [lo; hi] ++ after) = checksum (before ++ [lo'; hi'] ++ after) ->
  (lo = lo' /\ hi = hi') \/ Z.abs (lo + 256 * hi - (lo' + 256 * hi')) = 65535.
Proof.
  intros He H1 H2 Heq.
  destruct (checksum_eq _ H1) as (r & (Hr & [k Hk] & _) & Hc).
  destruct (checksum_eq _ H2) as (r' & (Hr' & [k' Hk'] & _) & Hc').
  destruct H1 as [H1 _], H2 as [H2 _]. unfold bytes_ok in H1, H2. rewrite !Forall_app in H1, H2.
  destruct H1 as (_ & H1 & _), H2 as (_ & H2 & _).
  rewrite words_app in Hk, Hk' by done. cbn [app words] in *.
  assert (r = r') by lia. subst r'.
  inversion H1 as [|? ? Hlo H1']; inversion H1' as [|? ? Hhi _]; subst.
  inversion H2 as [|? ? Hlo' H2']; inversion H2' as [|? ? Hhi' _]; subst.
  assert (Hdiff : (lo + 256 * hi) - (lo' + 256 * hi') = (k - k') * 65535) by lia.
  assert (k - k' = 0 \/ k - k' = 1 \/ k - k' = -1) as [E|[E|E]] by lia; rewrite E in Hdiff; [left|right..]; lia.
Qed.

Lemma checksum_detects_word_witness :
  let p := [8; 0; 226; 202; 18; 52] in
  small_enough ([8; 0] ++ [226; 202] ++ [18; 52]) /\
  checksum ([8; 0] ++ [226; 202] ++ [18; 52]) = checksum ([8; 0] ++ [226; 202] ++ [18; 52]) /\
  ((226 = 226 /\ 202 = 202) \/ Z.abs (226 + 256 * 202 - (226 + 256 * 202)) = 65535).
Proof.
  intros p. assert (H : small_enough ([8; 0] ++ [226; 202] ++ [18; 52]))
    by (split; [repeat (constructor; [lia|]); constructor|cbn; lia]).
  split; [exact H|]. split; [reflexivity|].
  exact (checksum_detects_word [8; 0] [18; 52] 226 202 226 202 eq_refl H H eq_refl).
Defined.
