(* ===== verification/Icmp.v ===== *)
(** The ICMP test (src/tests/icmp/icmp.c): building and sending echo requests, and
    matching the replies and errors that come back.

    A received packet is the byte buffer together with the number of bytes
    read; every header field is a load from the buffer, so a load or store
    outside an object is a fault.  The socket, the random numbers and the clock
    are parameters of the steps that use them. *)
From stdpp Require Import relations.
From S2P Require Import Prelude CLib Address Bytes Checksum.
#[local] Open Scope Z_scope.

(** Sizes and numbers of the system headers. *)
Definition IPHDR : Z := 20.
Definition IP6HDR : Z := 40.
Definition ICMPHDR : Z := 8.
Definition ICMP_ECHOREPLY : Z := 0.
Definition ICMP_REDIRECT : Z := 5.
Definition ICMP_ECHO : Z := 8.
Definition NR_ICMP_TYPES : Z := 18.
Definition ICMP6_ECHO_REQUEST : Z := 128.
Definition ICMP6_ECHO_REPLY : Z := 129.
Definition IPPROTO_ICMP : Z := 1.

Definition MIN_PACKET_LEN : Z := IP6HDR + ICMPHDR + 2.
Definition RESPONSE_BUFFER_LEN : Z := IPHDR + 60 + ICMPHDR + 8.
Definition LOSS_TIMEOUT : Z := 10.

Record dest : Set := { ai_family : Z; ai_addr : option sockaddr }.

(** struct info_t *)
Record info_t : Set := {
  addr : dest; time_sent : timeval; delay : Z; magic : Z; reply : Z;
  err_type : Z; err_code : Z; ttl : Z
}.

(** struct icmpglobals_t; [halted] is event_base_loopbreak() of [base], the two
    timers are their timeouts. *)
Record globals : Set := {
  packet_size : Z; inter_packet_delay : Z; socket : Z; socket6 : Z;
  dests : list dest; info : list info_t;
  ident : Z; index : Z; count : Z; outstanding : Z;
  halted : bool; nextpackettimer : option timeval; losstimer : option timeval
}.

Definition with_info (g : globals) (i : list info_t) (out : Z) : globals :=
  {| packet_size := packet_size g; inter_packet_delay := inter_packet_delay g;
     socket := socket g; socket6 := socket6 g; dests := dests g; info := i;
     ident := ident g; index := index g; count := count g; outstanding := out;
     halted := halted g; nextpackettimer := nextpackettimer g; losstimer := losstimer g |}.
Definition halt (g : globals) : globals :=
  {| packet_size := packet_size g; inter_packet_delay := inter_packet_delay g;
     socket := socket g; socket6 := socket6 g; dests := dests g; info := info g;
     ident := ident g; index := index g; count := count g; outstanding := outstanding g;
     halted := true; nextpackettimer := nextpackettimer g; losstimer := losstimer g |}.

Definition set_error (i : info_t) (type code : Z) : info_t :=
  {| addr := addr i; time_sent := time_sent i; delay := delay i; magic := magic i;
     reply := if type =? ICMP_REDIRECT then reply i else 1;
     err_type := type; err_code := code; ttl := ttl i |}.

(** icmp_error() *)
Definition icmp_error (packet : list Z) (bytes : Z) (ident : Z) (info : list info_t)
    : res (Z * list info_t) :=
  b0 ← rd packet 0;
  _ ← c_assert (ip_version b0 =? 4);
  _ ← c_assert (ip_ihl b0 >=? 5);
  let hl := ip_ihl b0 * 4 in
  let required_bytes := hl + IPHDR + ICMPHDR * 2 in
  if bytes <? required_bytes then Ok (-1, info)
  else
    tot_len ← rd16 packet 2;
    if tot_len <? required_bytes then Ok (-1, info)
    else
      let embed_ip := hl + ICMPHDR in
      e0 ← rd packet embed_ip;
      let embed_icmp := embed_ip + ip_ihl e0 * 4 in
      ours ← (if negb (ip_version e0 =? 4) then Ok false
              else
                protocol ← rd packet (embed_ip + 9);
                if negb (protocol =? IPPROTO_ICMP) then Ok false
                else
                  type ← rd packet embed_icmp;
                  if (type >? NR_ICMP_TYPES) || negb (type =? ICMP_ECHO) then Ok false
                  else
                    code ← rd packet (embed_icmp + 1);
                    if negb (code =? 0) then Ok false
                    else id ← rd16 packet (embed_icmp + 4); Ok (ntohs id =? ident));
      if negb ours then Ok (-1, info)
      else
        sequence ← rd16 packet (embed_icmp + 6);
        let seq := ntohs sequence in
        outer_type ← rd packet hl;
        outer_code ← rd packet (hl + 1);
        entry ← rd info seq;
        info ← wr info seq (set_error entry outer_type outer_code);
        Ok (0, info).

(** What both reply handlers record for a good reply. *)
Definition set_reply (i : info_t) (now : timeval) : info_t :=
  let d := DIFF_TV_US now (time_sent i) in
  {| addr := addr i; time_sent := time_sent i; delay := if d >? 0 then u32 d else 0;
     magic := magic i; reply := 1; err_type := err_type i; err_code := err_code i; ttl := ttl i |}.

Definition process_ipv4_packet (g : globals) (packet : list Z) (bytes : Z) (now : timeval)
    : res (Z * globals) :=
  if bytes <? IPHDR + ICMPHDR + 2 then Ok (-1, g)
  else
    b0 ← rd packet 0;
    _ ← c_assert (ip_version b0 =? 4);
    _ ← c_assert (ip_ihl b0 >=? 5);
    let hl := ip_ihl b0 * 4 in
    if bytes <? hl + ICMPHDR + 2 then Ok (-1, g)
    else
      type ← rd packet hl;
      if negb (type =? ICMP_ECHOREPLY) then
        r ← icmp_error packet bytes (ident g) (info g);
        Ok (fst r, with_info g (snd r) (outstanding g))
      else
        id ← rd16 packet (hl + 4);
        if negb (ntohs id =? ident g) then Ok (-1, g)
        else
          sequence ← rd16 packet (hl + 6);
          let seq := ntohs sequence in
          if seq >? count g then Ok (-1, g)
          else
            got ← rd16 packet (hl + ICMPHDR);
            entry ← rd (info g) seq;
            if negb (got =? magic entry) then Ok (-1, g)
            else
              info ← wr (info g) seq (set_reply entry now);
              Ok (0, with_info g info (i32 (outstanding g - 1))).

Definition process_ipv6_packet (g : globals) (packet : list Z) (bytes : Z) (now : timeval)
    : res (Z * globals) :=
  if bytes <? ICMPHDR then Ok (-1, g)
  else
    sequence ← rd16 packet 6;
    let seq := ntohs sequence in
    type ← rd packet 0;
    id ← rd16 packet 4;
    if negb (type =? ICMP6_ECHO_REPLY) || negb (ntohs id =? ident g) || (seq >? count g)
    then Ok (-1, g)
    else
      got ← rd16 packet ICMPHDR;
      entry ← rd (info g) seq;
      if negb (got =? magic entry) then Ok (-1, g)
      else
        info ← wr (info g) seq (set_reply entry now);
        Ok (0, with_info g info (i32 (outstanding g - 1))).

(** receive_probe_callback(): [received] is what get_packet() returned. *)
Definition receive_probe_callback (g : globals) (received : option (list Z * Z * timeval))
    : res globals :=
  g ← match received with
      | Some (packet, bytes, now) =>
          if bytes >? 0 then
            b0 ← rd packet 0;
            r ← (if ip_version b0 =? 4 then process_ipv4_packet g packet bytes now
                 else process_ipv6_packet g packet bytes now);
            Ok (snd r)
          else Ok g
      | None => Ok g
      end;
  Ok (if (outstanding g =? 0) && (index g =? count g) then halt g else g).

(** build_probe(): the packet and the number of bytes to send. *)
Definition build_probe (family packet_size seq ident magic : Z) : res (list Z * Z) :=
  _ ← c_assert (packet_size >=? MIN_PACKET_LEN);
  let type := if family =? AF_INET then ICMP_ECHO else ICMP6_ECHO_REQUEST in
  let packet := [type; 0; 0; 0] ++ le16 (htons ident) ++ le16 (htons seq) ++ le16 magic
                ++ replicate (Z.to_nat packet_size - 10) 0 in
  if family =? AF_INET then
    let length := packet_size - IPHDR in
    let ck := checksum (take (Z.to_nat length) packet) in
    packet ← wr packet 2 (ck mod 256);
    packet ← wr packet 3 (ck / 256);
    Ok (packet, length)
  else Ok (packet, packet_size - IP6HDR).

Definition new_info (d : dest) (magic : Z) : info_t :=
  {| addr := d; time_sent := Tv 0 0; delay := 0; magic := magic; reply := 0;
     err_type := 0; err_code := 0; ttl := 0 |}.

(** The "next:" part of send_packet(). *)
Definition schedule_next (g : globals) : globals :=
  let index := i32 (index g + 1) in
  let last := index =? count g in
  let waiting := negb (outstanding g =? 0) in
  {| packet_size := packet_size g; inter_packet_delay := inter_packet_delay g;
     socket := socket g; socket6 := socket6 g; dests := dests g; info := info g;
     ident := ident g; index := index; count := count g; outstanding := outstanding g;
     halted := if last && negb waiting then true else halted g;
     nextpackettimer :=
       if last then None
       else Some (Tv (inter_packet_delay g / 1000000) (inter_packet_delay g mod 1000000));
     losstimer := if last && waiting then Some (Tv LOSS_TIMEOUT 0) else losstimer g |}.

(** send_packet(): [random] is rand(), and [transmit] the loop around
    delay_send_packet() on a socket, which ends with the time sent or a failure. *)
Definition send_packet (g : globals) (random : Z)
    (transmit : Z -> list Z -> Z -> option timeval) : res globals :=
  let seq := index g in
  d ← rd (dests g) seq;
  let entry := new_info d (u16 random) in
  infos ← wr (info g) seq entry;
  let g := with_info g infos (outstanding g) in
  let sock := if ai_family d =? AF_INET then socket g
              else if ai_family d =? AF_INET6 then socket6 g else -1 in
  match ai_addr d with
  | None => Ok (schedule_next g)
  | Some _ =>
      if negb (ai_family d =? AF_INET) && negb (ai_family d =? AF_INET6) then Ok (schedule_next g)
      else if sock <? 0 then Ok (schedule_next g)
      else
        probe ← build_probe (ai_family d) (packet_size g) seq (ident g) (magic entry);
        match transmit sock (fst probe) (snd probe) with
        | Some t =>
            infos ← wr (info g) seq
              {| addr := d; time_sent := t; delay := 0; magic := magic entry; reply := 0;
                 err_type := 0; err_code := 0; ttl := 0 |};
            Ok (schedule_next (with_info g infos (i32 (outstanding g + 1))))
        | None =>
            infos ← wr (info g) seq
              {| addr := d; time_sent := Tv 0 0; delay := 0; magic := magic entry; reply := 1;
                 err_type := 0; err_code := 0; ttl := 0 |};
            Ok (schedule_next (with_info g infos (outstanding g)))
        end
  end.

(** The optional fields report_destination() puts in an item. *)
Record item : Set := { rtt : option Z; item_ttl : option Z; error : option (Z * Z) }.
Definition report_destination (i : info_t) : item :=
  let has_rtt := negb (reply i =? 0) && (tv_sec (time_sent i) >? 0)
      && ((err_type i =? ICMP_REDIRECT) || ((err_type i =? 0) && (err_code i =? 0))) in
  {| rtt := if has_rtt then Some (delay i) else None;
     item_ttl := if has_rtt then Some (ttl i) else None;
     error := if has_rtt || (err_type i >? 0) then Some (err_type i, err_code i) else None |}.

(** ** Replies *)

(** An ICMP message with the given identifier, sequence number and magic. *)
Definition icmp_msg (type code c0 c1 id seq mg : Z) (rest : list Z) : list Z :=
  [type; code; c0; c1] ++ be16 id ++ be16 seq ++ le16 mg ++ rest.

Section Reply.
Context (g : globals) (hdr : list Z) (code c0 c1 id seq mg : Z) (rest : list Z) (now : timeval).
Context (Hhdr : hdr_ok hdr) (Hid : word id) (Hseq : word seq) (Hmg : word mg).
Let packet := hdr ++ icmp_msg ICMP_ECHOREPLY code c0 c1 id seq mg rest.

Lemma process_reply :
  process_ipv4_packet g packet (Z.of_nat (length packet)) now =
  if negb (id =? ident g) then Ok (-1, g)
  else if seq >? count g then Ok (-1, g)
  else match info g !! Z.to_nat seq with
       | None => Fault OutOfBounds
       | Some e =>
           if mg =? magic e
           then Ok (0, with_info g (<[Z.to_nat seq := set_reply e now]> (info g))
                         (i32 (outstanding g - 1)))
           else Ok (-1, g)
       end.
Proof using Hhdr Hid Hseq Hmg.
  destruct Hhdr as (b0 & hrest & Hb & Hv & Hi & Hl). unfold process_ipv4_packet.
  assert (Hlen : Z.of_nat (length packet) = Z.of_nat (length hdr) + 10 + Z.of_nat (length rest)).
  { subst packet. unfold icmp_msg. rewrite !length_app. cbn. lia. }
  unfold IPHDR, ICMPHDR. rewrite (proj2 (Z.ltb_ge _ _)) by lia.
  assert (Hr0 : rd packet 0 = Ok b0) by (subst packet; rewrite Hb; done).
  rewrite Hr0. cbn [mbind res_bind]. rewrite Hv. cbn [Z.eqb Pos.eqb c_assert mbind res_bind].
  unfold c_assert. rewrite (proj2 (Z.geb_le _ _)) by lia. cbn [mbind res_bind]. rewrite Hl.
  rewrite (proj2 (Z.ltb_ge _ _)) by lia. subst packet. rewrite rd_app_0.
  assert (H0 : rd (icmp_msg ICMP_ECHOREPLY code c0 c1 id seq mg rest) 0 = Ok ICMP_ECHOREPLY) by done.
  rewrite H0. cbn [mbind res_bind]. change (negb (ICMP_ECHOREPLY =? ICMP_ECHOREPLY)) with false.
  rewrite !rd16_app_r by lia. unfold icmp_msg.
  assert (H4 : rd16 ([ICMP_ECHOREPLY; code; c0; c1] ++ be16 id ++ be16 seq ++ le16 mg ++ rest) 4
               = Ok (u16 id / 256 + 256 * (u16 id mod 256))) by done.
  assert (H6 : rd16 ([ICMP_ECHOREPLY; code; c0; c1] ++ be16 id ++ be16 seq ++ le16 mg ++ rest) 6
               = Ok (u16 seq / 256 + 256 * (u16 seq mod 256))) by done.
  assert (H8 : rd16 ([ICMP_ECHOREPLY; code; c0; c1] ++ be16 id ++ be16 seq ++ le16 mg ++ rest) 8
               = Ok (u16 mg mod 256 + 256 * (u16 mg / 256))) by done.
  rewrite H4. cbn [mbind res_bind]. rewrite be16_load by done. destruct (negb _); [done|].
  rewrite H6. cbn [mbind res_bind]. rewrite be16_load by done. destruct (_ >? _); [done|].
  rewrite H8. cbn [mbind res_bind]. rewrite le16_load by done.
  unfold rd. rewrite decide_True by (unfold word in Hseq; lia).
  destruct (info g !! Z.to_nat seq) as [e|] eqn:Ee; cbn [mbind res_bind]; [|done].
  destruct (mg =? magic e); cbn [negb]; [|done].
  unfold wr. apply lookup_lt_Some in Ee. unfold word in Hseq. rewrite decide_True by lia. done.
Qed.
End Reply.

(** Recording an echo reply.  A well-formed echo reply whose sequence number is
    that of a probe is accepted exactly when identifier and magic match; then
    that probe, and no other, is marked as answered with the time since it was
    sent (0 if the clock went back), and one packet fewer is outstanding.
    Otherwise nothing changes. *)
Theorem icmp_reply_recorded g hdr code c0 c1 id seq mg rest now e :
  hdr_ok hdr -> word id -> word seq -> word mg ->
  seq < count g -> info g !! Z.to_nat seq = Some e ->
  let packet := hdr ++ icmp_msg ICMP_ECHOREPLY code c0 c1 id seq mg rest in
  process_ipv4_packet g packet (Z.of_nat (length packet)) now =
  Ok (if (id =? ident g) && (mg =? magic e)
      then (0, with_info g (<[Z.to_nat seq := set_reply e now]> (info g)) (i32 (outstanding g - 1)))
      else (-1, g)).
Proof.
  intros Hh Hi Hs Hm Hc He packet. subst packet. rewrite process_reply by done. rewrite He.
  destruct (id =? ident g); cbn [negb andb]; [|done].
  destruct (Z.gtb_spec seq (count g)); [lia|]. by destruct (mg =? magic e).
Qed.

(** The check of the sequence number is off by one.  An echo reply with our
    identifier and the sequence number one past the last probe passes it, and
    the lookup of the expected magic is outside the array of probes. *)
Theorem icmp_reply_past_end g hdr code c0 c1 mg rest now :
  hdr_ok hdr -> word (ident g) -> word (count g) -> word mg ->
  Z.of_nat (length (info g)) = count g ->
  let packet := hdr ++ icmp_msg ICMP_ECHOREPLY code c0 c1 (ident g) (count g) mg rest in
  process_ipv4_packet g packet (Z.of_nat (length packet)) now = Fault OutOfBounds.
Proof.
  intros Hh Hi Hc Hm Hlen packet. subst packet. rewrite process_reply by done.
  rewrite Z.eqb_refl. cbn [negb]. destruct (Z.gtb_spec (count g) (count g)); [lia|].
  by rewrite lookup_ge_None_2 by lia.
Qed.

(** ** Probes *)

Lemma build_probe_v4 size seq id mg :
  MIN_PACKET_LEN <= size < 65536 ->
  exists c0 c1 zeros,
    build_probe AF_INET size seq id mg =
      Ok (icmp_msg ICMP_ECHO 0 c0 c1 id seq mg (zeros ++ replicate 20 0), size - IPHDR) /\
    Z.of_nat (length zeros) = size - 30 /\
    take (Z.to_nat (size - IPHDR)) (icmp_msg ICMP_ECHO 0 c0 c1 id seq mg (zeros ++ replicate 20 0))
      = icmp_msg ICMP_ECHO 0 c0 c1 id seq mg zeros /\
    0 <= c0 < 256 /\ 0 <= c1 < 256 /\ bytes_ok zeros /\
    checksum (icmp_msg ICMP_ECHO 0 0 0 id seq mg zeros) = c0 + 256 * c1.
Proof.
  unfold MIN_PACKET_LEN, IP6HDR, ICMPHDR, IPHDR. intros Hsize. unfold build_probe, c_assert.
  rewrite (proj2 (Z.geb_le _ _)) by (unfold MIN_PACKET_LEN, IP6HDR, ICMPHDR; lia).
  cbn [mbind res_bind]. change (AF_INET =? AF_INET) with true. rewrite !htons_be16.
  set (zeros := replicate (Z.to_nat (size - 30)) 0).
  assert (Hz : replicate (Z.to_nat size - 10) 0 = zeros ++ replicate 20 0).
  { unfold zeros. rewrite <- replicate_add. f_equal. lia. }
  rewrite Hz. fold (icmp_msg ICMP_ECHO 0 0 0 id seq mg (zeros ++ replicate 20 0)).
  assert (Hlz : Z.of_nat (length zeros) = size - 30) by (unfold zeros; rewrite length_replicate; lia).
  assert (Htake : forall c0 c1, take (Z.to_nat (size - 20)) (icmp_msg ICMP_ECHO 0 c0 c1 id seq mg (zeros ++ replicate 20 0))
      = icmp_msg ICMP_ECHO 0 c0 c1 id seq mg zeros).
  { intros c0 c1. unfold icmp_msg. rewrite !app_assoc.
    rewrite take_app_length'; [done|]. rewrite !length_app. cbn [length be16 le16]. lia. }
  unfold IPHDR. rewrite Htake. set (ck := checksum _).
  exists (ck mod 256), (ck / 256), zeros.
  assert (Hck : 0 <= ck < 65536) by apply u16_range.
  split.
  { rewrite (proj2 (wr_Ok _ 2 (ck mod 256) (icmp_msg ICMP_ECHO 0 (ck mod 256) 0 id seq mg (zeros ++ replicate 20 0))))
      by (split; [unfold icmp_msg; rewrite length_app; cbn; lia|reflexivity]).
    cbn [mbind res_bind].
    rewrite (proj2 (wr_Ok _ 3 (ck / 256) (icmp_msg ICMP_ECHO 0 (ck mod 256) (ck / 256) id seq mg (zeros ++ replicate 20 0))))
      by (split; [unfold icmp_msg; rewrite length_app; cbn; lia|reflexivity]). done. }
  split; [done|]. split; [done|]. split; [Z.div_mod_to_equations; lia|].
  split; [Z.div_mod_to_equations; lia|]. split; [|Z.div_mod_to_equations; lia].
  unfold zeros, bytes_ok. apply Forall_replicate. lia.
Qed.

Lemma icmp_msg_bytes type code c0 c1 id seq mg rest :
  0 <= type < 256 -> 0 <= code < 256 -> 0 <= c0 < 256 -> 0 <= c1 < 256 -> bytes_ok rest ->
  bytes_ok (icmp_msg type code c0 c1 id seq mg rest).
Proof.
  intros. unfold icmp_msg, bytes_ok. rewrite <- !htons_be16. rewrite !Forall_app.
  repeat split; try apply le16_bytes; [|done]. repeat (constructor; [lia|]). constructor.
Qed.

(** Probes and replies fit together.  The ICMPv4 probe built for a destination
    carries a valid checksum, and the echo reply that returns its contents
    (with any IP header, code and checksum of its own) is accepted as the
    reply to exactly that probe. *)
Theorem icmp_probe_roundtrip g hdr code x y size seq e now :
  hdr_ok hdr -> MIN_PACKET_LEN <= size < 65536 -> word seq -> word (ident g) -> word (magic e) ->
  seq < count g -> info g !! Z.to_nat seq = Some e ->
  exists p len,
    build_probe AF_INET size seq (ident g) (magic e) = Ok (p, len) /\ len = size - IPHDR /\
    let sent := take (Z.to_nat len) p in
    let answer := hdr ++ [ICMP_ECHOREPLY; code; x; y] ++ drop 4 sent in
    checksum sent = 0 /\
    process_ipv4_packet g answer (Z.of_nat (length answer)) now =
    Ok (0, with_info g (<[Z.to_nat seq := set_reply e now]> (info g)) (i32 (outstanding g - 1))).
Proof.
  intros Hh Hsize Hs Hi Hm Hc He.
  destruct (build_probe_v4 size seq (ident g) (magic e) Hsize)
    as (c0 & c1 & zeros & Hb & Hlz & Ht & Hc0 & Hc1 & Hz & Hck).
  do 2 eexists. split; [exact Hb|]. split; [done|]. cbn zeta. rewrite Ht. split.
  - apply (checksum_fill [ICMP_ECHO; 0] (be16 (ident g) ++ be16 seq ++ le16 (magic e) ++ zeros)); try done.
    split.
    + apply (icmp_msg_bytes ICMP_ECHO 0 0 0); unfold ICMP_ECHO; (lia || done).
    + rewrite !length_app. cbn. unfold MIN_PACKET_LEN in *. lia.
  - change (drop 4 (icmp_msg ICMP_ECHO 0 c0 c1 (ident g) seq (magic e) zeros))
      with (be16 (ident g) ++ be16 seq ++ le16 (magic e) ++ zeros).
    fold (icmp_msg ICMP_ECHOREPLY code x y (ident g) seq (magic e) zeros).
    rewrite process_reply by done. rewrite He, Z.eqb_refl. cbn [negb].
    destruct (Z.gtb_spec seq (count g)); [lia|]. by rewrite Z.eqb_refl.
Qed.

(** ** Errors *)

(** An IPv4 header that carries ICMP. *)
Definition icmp_hdr_ok (hdr : list Z) : Prop := hdr_ok hdr /\ hdr !! 9%nat = Some IPPROTO_ICMP.

(** An ICMP error that embeds the start of an echo request. *)
Definition error_msg (type code x0 x1 x2 x3 x4 x5 : Z) (ehdr : list Z) (c0 c1 id seq : Z) (rest : list Z)
    : list Z :=
  [type; code; x0; x1; x2; x3; x4; x5] ++ ehdr ++ [ICMP_ECHO; 0; c0; c1] ++ be16 id ++ be16 seq ++ rest.

(** The total length as the code reads it, without byte swap. *)
Definition tot_len (hdr : list Z) : Z := default 0 (hdr !! 2%nat) + 256 * default 0 (hdr !! 3%nat).

Section Error.
Context (info : list info_t) (our_id : Z) (hdr : list Z) (type code x0 x1 x2 x3 x4 x5 : Z)
  (ehdr : list Z) (c0 c1 id seq : Z) (rest : list Z).
Context (Hhdr : hdr_ok hdr) (Hehdr : icmp_hdr_ok ehdr) (Hid : word id) (Hseq : word seq).
Let packet := hdr ++ error_msg type code x0 x1 x2 x3 x4 x5 ehdr c0 c1 id seq rest.
Context (Htot : Z.of_nat (length hdr) + 36 <= tot_len hdr).

Lemma icmp_error_embedded :
  icmp_error packet (Z.of_nat (length packet)) our_id info =
  if negb (id =? our_id) then Ok (-1, info)
  else match info !! Z.to_nat seq with
       | None => Fault OutOfBounds
       | Some e => Ok (0, <[Z.to_nat seq := set_error e type code]> info)
       end.
Proof using Hhdr Hehdr Hid Hseq Htot.
  destruct Hhdr as (b0 & hrest & Hb & Hv & Hi & Hl).
  destruct Hehdr as [(e0 & erest & Heb & Hev & Hei & Hel) Hproto].
  set (msg := [ICMP_ECHO; 0; c0; c1] ++ be16 id ++ be16 seq ++ rest).
  set (outer := [type; code; x0; x1; x2; x3; x4; x5]).
  assert (Hp2 : packet = (hdr ++ outer) ++ (ehdr ++ msg)) by (subst packet; unfold error_msg; by rewrite <- app_assoc).
  assert (Hp3 : packet = ((hdr ++ outer) ++ ehdr) ++ msg) by (rewrite Hp2; by rewrite !app_assoc).
  assert (Hlo : Z.of_nat (length (hdr ++ outer)) = Z.of_nat (length hdr) + 8) by (rewrite length_app; cbn; lia).
  assert (Hlo3 : Z.of_nat (length ((hdr ++ outer) ++ ehdr)) = Z.of_nat (length hdr) + 8 + Z.of_nat (length ehdr))
    by (rewrite length_app; lia).
  assert (Hlen : Z.of_nat (length packet) = Z.of_nat (length hdr) + Z.of_nat (length ehdr) + 16 + Z.of_nat (length rest)).
  { rewrite Hp3, length_app. unfold msg. rewrite !length_app. cbn. rewrite length_app in Hlo3. cbn in Hlo3. lia. }
  assert (Hr0 : rd packet 0 = Ok b0) by (subst packet; rewrite Hb; done).
  assert (Hr2 : rd16 packet 2 = Ok (tot_len hdr)).
  { assert (Hsz : (4 <= length hdr)%nat) by lia. subst packet.
    destruct hdr as [|h0 [|h1 [|h2 [|h3 hr]]]]; cbn in Hsz; [lia..|]. done. }
  assert (Houter : rd packet (Z.of_nat (length hdr)) = Ok type) by (subst packet; by rewrite rd_app_0).
  assert (Houter1 : rd packet (Z.of_nat (length hdr) + 1) = Ok code) by (subst packet; by rewrite rd_app_r).
  assert (He0 : rd packet (Z.of_nat (length (hdr ++ outer))) = Ok e0) by (rewrite Hp2, rd_app_0, Heb; done).
  assert (He9 : rd packet (Z.of_nat (length (hdr ++ outer)) + 9) = Ok IPPROTO_ICMP).
  { rewrite Hp2, rd_app_r by lia. change 9 with (Z.of_nat 9). apply rd_at.
    by apply lookup_app_l_Some. }
  assert (Hm : forall k, 0 <= k -> rd packet (Z.of_nat (length ((hdr ++ outer) ++ ehdr)) + k) = rd msg k)
    by (intros k Hk; rewrite Hp3; by apply rd_app_r).
  assert (Hm16 : forall k, 0 <= k -> rd16 packet (Z.of_nat (length ((hdr ++ outer) ++ ehdr)) + k) = rd16 msg k)
    by (intros k Hk; rewrite Hp3; by apply rd16_app_r).
  unfold icmp_error, IPHDR, ICMPHDR. rewrite Hr0. cbn [mbind res_bind]. rewrite Hv. unfold c_assert.
  cbn [Z.eqb Pos.eqb mbind res_bind]. rewrite (proj2 (Z.geb_le _ _)) by lia. cbn [mbind res_bind].
  rewrite Hl. rewrite (proj2 (Z.ltb_ge _ _)) by lia. rewrite Hr2. cbn [mbind res_bind].
  rewrite (proj2 (Z.ltb_ge _ _)) by lia. rewrite <- Hlo, He0. cbn [mbind res_bind].
  rewrite Hev. cbn [Z.eqb Pos.eqb negb]. rewrite He9. cbn [mbind res_bind].
  change (negb (IPPROTO_ICMP =? IPPROTO_ICMP)) with false. cbn iota.
  rewrite Hel. replace (Z.of_nat (length (hdr ++ outer)) + Z.of_nat (length ehdr))
    with (Z.of_nat (length ((hdr ++ outer) ++ ehdr)) + 0) by (rewrite !length_app; lia).
  rewrite (Hm 0) by lia. change (rd msg 0) with (Ok ICMP_ECHO). cbn [mbind res_bind].
  change ((ICMP_ECHO >? NR_ICMP_TYPES) || negb (ICMP_ECHO =? ICMP_ECHO)) with false. cbn iota.
  rewrite Z.add_0_r, (Hm 1) by lia. change (rd msg 1) with (Ok 0). cbn [mbind res_bind Z.eqb negb].
  rewrite (Hm16 4) by lia. change (rd16 msg 4) with (Ok (u16 id / 256 + 256 * (u16 id mod 256))).
  cbn [mbind res_bind]. rewrite be16_load by done. destruct (id =? our_id); cbn [negb]; [|done].
  rewrite (Hm16 6) by lia. change (rd16 msg 6) with (Ok (u16 seq / 256 + 256 * (u16 seq mod 256))).
  cbn [mbind res_bind]. rewrite be16_load by done. rewrite Houter, Houter1. cbn [mbind res_bind].
  unfold word in Hseq. unfold rd. rewrite decide_True by lia.
  destruct (info !! Z.to_nat seq) as [e|] eqn:Ee; cbn [mbind res_bind]; [|done].
  unfold wr. apply lookup_lt_Some in Ee. rewrite decide_True by lia. done.
Qed.
End Error.

Lemma process_error g hdr type code x0 x1 x2 x3 x4 x5 ehdr c0 c1 id seq rest now :
  hdr_ok hdr -> icmp_hdr_ok ehdr -> word id -> word seq ->
  Z.of_nat (length hdr) + 36 <= tot_len hdr -> type <> ICMP_ECHOREPLY ->
  let packet := hdr ++ error_msg type code x0 x1 x2 x3 x4 x5 ehdr c0 c1 id seq rest in
  process_ipv4_packet g packet (Z.of_nat (length packet)) now =
  r ← icmp_error packet (Z.of_nat (length packet)) (ident g) (info g);
  Ok (fst r, with_info g (snd r) (outstanding g)).
Proof.
  intros Hhdr [(e0 & erest & Heb & _ & Hei & Hel) _] Hid Hseq Htot Htype packet.
  destruct Hhdr as (b0 & hrest & Hb & Hv & Hi & Hl). unfold process_ipv4_packet.
  assert (Hlen : Z.of_nat (length hdr) + 36 <= Z.of_nat (length packet)).
  { subst packet. unfold error_msg. rewrite !length_app. cbn. lia. }
  unfold IPHDR, ICMPHDR. rewrite (proj2 (Z.ltb_ge _ _)) by lia.
  assert (Hr0 : rd packet 0 = Ok b0) by (subst packet; rewrite Hb; done).
  rewrite Hr0. cbn [mbind res_bind]. rewrite Hv. unfold c_assert.
  cbn [Z.eqb Pos.eqb mbind res_bind]. rewrite (proj2 (Z.geb_le _ _)) by lia. cbn [mbind res_bind].
  rewrite Hl, (proj2 (Z.ltb_ge _ _)) by lia.
  assert (Ht : rd packet (Z.of_nat (length hdr)) = Ok type) by (subst packet; by rewrite rd_app_0).
  rewrite Ht. cbn [mbind res_bind]. by rewrite (proj2 (Z.eqb_neq _ _) Htype).
Qed.

(** Recording an ICMP error.  An error whose embedded packet is one of our
    echo requests marks that probe with the type and code of the error, and as
    answered unless it is a redirect; the count of outstanding packets stays.
    The sequence number is not checked at all: a larger one writes outside the
    array of probes. *)
Theorem icmp_error_recorded g hdr type code x0 x1 x2 x3 x4 x5 ehdr c0 c1 seq rest now :
  hdr_ok hdr -> icmp_hdr_ok ehdr -> word (ident g) -> word seq ->
  Z.of_nat (length hdr) + 36 <= tot_len hdr -> type <> ICMP_ECHOREPLY ->
  let packet := hdr ++ error_msg type code x0 x1 x2 x3 x4 x5 ehdr c0 c1 (ident g) seq rest in
  (forall e, info g !! Z.to_nat seq = Some e ->
   process_ipv4_packet g packet (Z.of_nat (length packet)) now =
   Ok (0, with_info g (<[Z.to_nat seq := set_error e type code]> (info g)) (outstanding g))) /\
  (Z.of_nat (length (info g)) <= seq ->
   process_ipv4_packet g packet (Z.of_nat (length packet)) now = Fault OutOfBounds).
Proof.
  intros Hh He Hi Hs Ht Hty packet. subst packet.
  rewrite process_error, icmp_error_embedded by done. rewrite Z.eqb_refl. cbn [negb]. split.
  - intros e ->. done.
  - intros Hlen. by rewrite lookup_ge_None_2 by lia.
Qed.

(** A duplicated reply is counted twice.  With two probes outstanding after the
    last one was sent, two copies of the reply to the first end the test while
    the second is still unanswered. *)
Theorem icmp_duplicate_reply_ends_test g hdr code c0 c1 seq rest now e :
  hdr_ok hdr -> word (ident g) -> word seq -> word (magic e) ->
  seq < count g -> info g !! Z.to_nat seq = Some e ->
  outstanding g = 2 -> index g = count g ->
  let packet := hdr ++ icmp_msg ICMP_ECHOREPLY code c0 c1 (ident g) seq (magic e) rest in
  let got := Some (packet, Z.of_nat (length packet), now) in
  exists g1 g2, receive_probe_callback g got = Ok g1 /\ receive_probe_callback g1 got = Ok g2 /\
    halted g2 = true /\
    forall j, j <> Z.to_nat seq -> info g2 !! j = info g !! j.
Proof.
  intros Hh Hi Hs Hm Hc He Ho Hidx packet got.
  assert (Hr0 : exists b0, rd packet 0 = Ok b0 /\ ip_version b0 = 4).
  { destruct Hh as (b0 & hrest & Hb & Hv & _). exists b0. subst packet. rewrite Hb. done. }
  destruct Hr0 as (b0 & Hr0 & Hv).
  assert (Hpos : (Z.of_nat (length packet) >? 0) = true).
  { apply Z.gtb_lt. subst packet. unfold icmp_msg. rewrite !length_app. cbn. lia. }
  assert (Hstep : forall g' e', ident g' = ident g -> count g' = count g -> magic e' = magic e ->
     info g' !! Z.to_nat seq = Some e' ->
     process_ipv4_packet g' packet (Z.of_nat (length packet)) now =
     Ok (0, with_info g' (<[Z.to_nat seq := set_reply e' now]> (info g')) (i32 (outstanding g' - 1)))).
  { intros g' e' Hig Hcg Hmg He'. subst packet. rewrite process_reply by done.
    rewrite He', Hig, Hcg, Hmg, Z.eqb_refl. cbn [negb].
    destruct (Z.gtb_spec seq (count g)); [lia|]. by rewrite Z.eqb_refl. }
  unfold receive_probe_callback, got. rewrite Hpos, Hr0. cbn [mbind res_bind]. rewrite Hv.
  cbn [Z.eqb Pos.eqb]. rewrite (Hstep g e) by done. cbn [mbind res_bind snd].
  set (g1 := with_info g _ _).
  assert (Hg1 : (if (outstanding g1 =? 0) && (index g1 =? count g1) then halt g1 else g1) = g1).
  { subst g1. cbn. by rewrite Ho. }
  do 2 eexists. split; [reflexivity|]. rewrite Hg1.
  assert (He1 : info g1 !! Z.to_nat seq = Some (set_reply e now)).
  { subst g1. cbn. apply list_lookup_insert_eq. by eapply lookup_lt_Some. }
  rewrite (Hstep g1 (set_reply e now)) by done. cbn [mbind res_bind snd].
  split; [reflexivity|]. set (g2 := with_info g1 _ _).
  assert (Hend : (outstanding g2 =? 0) && (index g2 =? count g2) = true).
  { subst g2 g1. cbn [outstanding index count with_info]. by rewrite Ho, Hidx, !Z.eqb_refl. }
  rewrite Hend. split; [done|]. intros j Hj. subst g2 g1. cbn.
  by rewrite !list_lookup_insert_ne by done.
Qed.

(** ** The test as a state machine *)

Lemma icmp_error_length packet bytes id info r :
  icmp_error packet bytes id info = Ok r -> length (snd r) = length info.
Proof.
  unfold icmp_error. intros H. inv_res.
  repeat match type of H with
  | (if ?b then _ else _) = Ok _ => destruct b; inv_res; subst; cbn [snd]; try done
  end.
  match goal with H : wr _ _ _ = Ok _ |- _ => apply wr_Ok in H as [_ ->] end.
  apply length_insert.
Qed.

(** Receiving a packet changes the array of probes and the count only. *)
Definition same_but_info (g g' : globals) : Prop :=
  exists i out, g' = with_info g i out /\ length i = length (info g).

Lemma same_but_info_refl g : same_but_info g g.
Proof. exists (info g), (outstanding g). by destruct g. Qed.

Lemma process_ipv4_same g packet bytes now r :
  process_ipv4_packet g packet bytes now = Ok r -> same_but_info g (snd r).
Proof.
  unfold process_ipv4_packet. intros H. inv_res.
  repeat match type of H with
  | (if ?b then _ else _) = Ok _ => destruct b; inv_res; subst; cbn [snd];
      try (apply same_but_info_refl)
  end.
  - do 2 eexists. split; [done|]. eapply icmp_error_length. eassumption.
  - do 2 eexists. split; [done|].
    match goal with H : wr _ _ _ = Ok _ |- _ => apply wr_Ok in H as [_ ->] end. apply length_insert.
Qed.

Lemma process_ipv6_same g packet bytes now r :
  process_ipv6_packet g packet bytes now = Ok r -> same_but_info g (snd r).
Proof.
  unfold process_ipv6_packet. intros H.
  repeat match type of H with
  | (if ?b then _ else _) = Ok _ => destruct b; inv_res; subst; cbn [snd];
      try (apply same_but_info_refl)
  end.
  do 2 eexists. split; [done|].
  match goal with H : wr _ _ _ = Ok _ |- _ => apply wr_Ok in H as [_ ->] end. apply length_insert.
Qed.

(** halt_test(), the loss timer. *)
Definition halt_test (g : globals) : globals :=
  {| packet_size := packet_size g; inter_packet_delay := inter_packet_delay g;
     socket := socket g; socket6 := socket6 g; dests := dests g; info := info g;
     ident := ident g; index := index g; count := count g; outstanding := outstanding g;
     halted := true; nextpackettimer := nextpackettimer g; losstimer := None |}.

Inductive icmp_step : globals -> globals -> Prop :=
| StepSend g random transmit g' :
    nextpackettimer g <> None -> send_packet g random transmit = Ok g' -> icmp_step g g'
| StepReceive g received g' :
    receive_probe_callback g received = Ok g' -> icmp_step g g'
| StepTimeout g : losstimer g <> None -> icmp_step g (halt_test g).

(** How run_icmp() sets the test up: the first packet is due at once. *)
Definition icmp_start (g : globals) : Prop :=
  index g = 0 /\ 0 < count g < 2147483648 /\ outstanding g = 0 /\ halted g = false /\
  Z.of_nat (length (info g)) = count g /\ Z.of_nat (length (dests g)) = count g /\
  MIN_PACKET_LEN <= packet_size g < 65536 /\
  nextpackettimer g = Some (Tv 0 0) /\ losstimer g = None.

Definition icmp_inv (g : globals) : Prop :=
  0 <= index g <= count g /\ 0 < count g < 2147483648 /\
  Z.of_nat (length (info g)) = count g /\ Z.of_nat (length (dests g)) = count g /\
  MIN_PACKET_LEN <= packet_size g < 65536 /\
  (nextpackettimer g <> None <-> index g < count g) /\
  (index g = count g -> halted g = true \/ losstimer g <> None).

Lemma icmp_start_inv g : icmp_start g -> icmp_inv g.
Proof.
  intros (Hi & Hc & _ & _ & Hl & Hd & Hp & Hn & _). unfold icmp_inv. rewrite Hi, Hn.
  split_and!; try (intros; lia); try done. split; [intros; lia|done].
Qed.

Lemma build_probe_total family size seq id mg :
  MIN_PACKET_LEN <= size < 65536 -> exists p, build_probe family size seq id mg = Ok p.
Proof.
  intros Hs. destruct (Z.eqb_spec family AF_INET) as [->|Hne].
  - destruct (build_probe_v4 size seq id mg Hs) as (c0 & c1 & z & -> & _). eauto.
  - unfold build_probe, c_assert. rewrite (proj2 (Z.geb_le _ _)) by lia. cbn [mbind res_bind].
    rewrite (proj2 (Z.eqb_neq _ _) Hne). eauto.
Qed.

(** The state after a packet was dealt with, whatever came of it. *)
Lemma schedule_next_inv g infos out :
  icmp_inv g -> index g < count g -> length infos = length (info g) ->
  icmp_inv (schedule_next (with_info g infos out)).
Proof.
  intros (Hi & Hc & Hl & Hd & Hp & Hn & _) Hlt Hlen. unfold icmp_inv, schedule_next.
  cbn [index count info dests packet_size nextpackettimer losstimer halted outstanding with_info].
  rewrite i32_id by lia. rewrite Hlen.
  split; [lia|]. split; [lia|]. split; [lia|]. split; [lia|]. split; [done|].
  destruct (Z.eqb_spec (index g + 1) (count g)) as [E|E].
  - split; [split; [done|lia]|]. intros _. destruct (out =? 0); cbn; auto.
  - split; [split; [lia|done]|]. lia.
Qed.

Lemma send_packet_inv g random transmit :
  icmp_inv g -> index g < count g ->
  exists g', send_packet g random transmit = Ok g' /\ icmp_inv g'.
Proof.
  intros Hinv Hlt. pose proof Hinv as (Hi & Hc & Hl & Hd & Hp & _). unfold send_packet.
  destruct (rd_in_bounds (dests g) (index g)) as [d ->]; [lia|]. cbn [mbind res_bind].
  assert (Hwr : forall (l : list info_t) e, length l = length (info g) ->
    exists l', wr l (index g) e = Ok l' /\ length l' = length (info g)).
  { intros l e Hll. eexists. split; [apply wr_Ok; split; [lia|done]|]. by rewrite length_insert. }
  destruct (Hwr (info g) (new_info d (u16 random)) eq_refl) as (l1 & -> & Hl1). cbn [mbind res_bind].
  assert (Hnext : forall l out, length l = length (info g) ->
    exists g', Ok (schedule_next (with_info g l out)) = Ok g' /\ icmp_inv g').
  { intros l out Hll. eexists. split; [done|]. by apply schedule_next_inv. }
  assert (Htwice : forall l l' o o', with_info (with_info g l o) l' o' = with_info g l' o') by done.
  destruct (ai_addr d); [|by apply Hnext]. destruct (_ && _); [by apply Hnext|].
  destruct (_ <? 0); [by apply Hnext|]. cbn [packet_size ident with_info info outstanding].
  destruct (build_probe_total (ai_family d) (packet_size g) (index g) (ident g)
              (magic (new_info d (u16 random))) Hp) as [p ->]. cbn [mbind res_bind].
  destruct (transmit _ _ _) as [t|].
  - match goal with |- context [wr l1 _ ?e] => destruct (Hwr l1 e Hl1) as (l2 & -> & Hl2) end.
    cbn [mbind res_bind]. rewrite Htwice. by apply Hnext.
  - match goal with |- context [wr l1 _ ?e] => destruct (Hwr l1 e Hl1) as (l2 & -> & Hl2) end.
    cbn [mbind res_bind]. rewrite Htwice. by apply Hnext.
Qed.

Lemma receive_inv g received g' :
  icmp_inv g -> receive_probe_callback g received = Ok g' -> icmp_inv g'.
Proof.
  intros Hinv H. unfold receive_probe_callback in H. inv_res.
  assert (Hsame : same_but_info g x).
  { destruct received as [[[packet bytes] now]|]; [|inv_res; subst; apply same_but_info_refl].
    destruct (bytes >? 0); [|inv_res; subst; apply same_but_info_refl].
    inv_res. subst. destruct (_ =? 4).
    - by eapply process_ipv4_same. - by eapply process_ipv6_same. }
  destruct Hsame as (l & out & -> & Hlen). destruct Hinv as (Hi & Hc & Hl & Hd & Hp & Hn & He).
  subst g'. destruct (_ && _); unfold icmp_inv; cbn; rewrite ?Hlen; tauto.
Qed.

(** C40: the ICMP test always comes to an end.  In every state the test can reach,
    sending the next packet succeeds while there is one to send, and once all
    packets are sent the event loop has been stopped or the loss timer that
    stops it is running. *)
Theorem icmp_test_ends g0 g :
  icmp_start g0 -> rtc icmp_step g0 g ->
  (nextpackettimer g <> None <-> index g < count g) /\
  (forall random transmit, index g < count g -> exists g', send_packet g random transmit = Ok g') /\
  (index g = count g -> halted g = true \/ losstimer g <> None).
Proof.
  intros H0 Hrtc.
  assert (Hinv : icmp_inv g).
  { apply icmp_start_inv in H0. induction Hrtc as [|g g1 g2 Hstep _ IH]; [done|]. apply IH.
    destruct Hstep as [g random transmit g' Hn Hs|g received g' Hr|g Hloss].
    - destruct (send_packet_inv g random transmit) as (g'' & Heq & Hi); [done| |].
      { by apply H0. }
      rewrite Hs in Heq. injection Heq as ->. done.
    - by eapply receive_inv.
    - unfold icmp_inv in *. cbn. tauto. }
  pose proof Hinv as (_ & _ & _ & _ & _ & Hn & He). split_and!; [apply Hn..| |done].
  intros random transmit Hlt. destruct (send_packet_inv g random transmit Hinv Hlt) as (g' & -> & _).
  eauto.
Qed.

(** What the report says.  A destination is reported with a round trip time
    exactly when its probe was sent and answered, with no error other than a
    redirect; the error fields are present exactly then or for an error, so a
    lost probe has neither. *)
Theorem report_destination_fields i :
  0 <= err_type i ->
  let answered := reply i <> 0 /\ 0 < tv_sec (time_sent i) /\
    (err_type i = ICMP_REDIRECT \/ (err_type i = 0 /\ err_code i = 0)) in
  (answered -> report_destination i =
     {| rtt := Some (delay i); item_ttl := Some (ttl i); error := Some (err_type i, err_code i) |}) /\
  (~ answered -> rtt (report_destination i) = None /\ item_ttl (report_destination i) = None /\
     error (report_destination i) = if err_type i =? 0 then None else Some (err_type i, err_code i)).
Proof.
  intros Hty answered. unfold report_destination.
  destruct (negb (reply i =? 0) && (tv_sec (time_sent i) >? 0) &&
    ((err_type i =? ICMP_REDIRECT) || (err_type i =? 0) && (err_code i =? 0))) eqn:E.
  - split; [done|]. intros Hn. exfalso. apply Hn. subst answered.
    rewrite !andb_true_iff, orb_true_iff, andb_true_iff, negb_true_iff, Z.eqb_neq, Z.gtb_lt, !Z.eqb_eq in E.
    tauto.
  - split.
    + intros H. exfalso. apply not_true_iff_false in E. apply E. subst answered.
      rewrite !andb_true_iff, orb_true_iff, andb_true_iff, negb_true_iff, Z.eqb_neq, Z.gtb_lt, !Z.eqb_eq.
      tauto.
    + intros _. cbn. split_and!; [done..|]. zbool; try done; lia.
Qed.

(** ** Concrete tests *)

Definition target (a : sockaddr) : dest := {| ai_family := sa_family a; ai_addr := Some a |}.
Definition probe (a : sockaddr) (mg : Z) : info_t :=
  {| addr := target a; time_sent := Tv 1614556800 0; delay := 0; magic := mg; reply := 0;
     err_type := 0; err_code := 0; ttl := 0 |}.
Definition two_dests : list dest := [target (ip4 10 0 0 1); target (ip4 10 0 0 2)].
Definition two_probes : list info_t := [probe (ip4 10 0 0 1) 4660; probe (ip4 10 0 0 2) 22136].
Definition sample_globals (idx out : Z) : globals :=
  {| packet_size := 84; inter_packet_delay := 100; socket := 3; socket6 := 4;
     dests := two_dests; info := two_probes; ident := 513; index := idx; count := 2;
     outstanding := out; halted := false;
     nextpackettimer := if idx <? 2 then Some (Tv 0 0) else None;
     losstimer := if idx <? 2 then None else Some (Tv LOSS_TIMEOUT 0) |}.
(** An IPv4 header of 20 bytes for a packet of 84. *)
Definition sample_hdr : list Z :=
  [69; 0; 0; 84; 0; 0; 0; 0; 64; 1; 0; 0; 10; 0; 0; 1; 10; 0; 0; 9].

Lemma sample_hdr_ok : icmp_hdr_ok sample_hdr.
Proof.
  split; [|reflexivity]. exists 69, (tail sample_hdr). split_and!; [reflexivity..| |reflexivity].
  vm_compute. discriminate.
Qed.

Ltac in_word := unfold word; vm_compute; split; [discriminate|reflexivity].

Lemma icmp_reply_recorded_witness :
  let g := sample_globals 2 2 in
  let packet := sample_hdr ++ icmp_msg ICMP_ECHOREPLY 0 0 0 513 1 22136 [] in
  process_ipv4_packet g packet (Z.of_nat (length packet)) (Tv 1614556800 1500) =
  Ok (0, with_info g [probe (ip4 10 0 0 1) 4660;
                      set_reply (probe (ip4 10 0 0 2) 22136) (Tv 1614556800 1500)] 1).
Proof.
  intros g packet.
  exact (icmp_reply_recorded g sample_hdr 0 0 0 513 1 22136 [] (Tv 1614556800 1500)
           (probe (ip4 10 0 0 2) 22136) (proj1 sample_hdr_ok) ltac:(in_word) ltac:(in_word)
           ltac:(in_word) ltac:(reflexivity) ltac:(reflexivity)).
Defined.

Lemma icmp_reply_past_end_witness :
  let g := sample_globals 2 2 in
  let packet := sample_hdr ++ icmp_msg ICMP_ECHOREPLY 0 0 0 513 2 22136 [] in
  process_ipv4_packet g packet (Z.of_nat (length packet)) (Tv 1614556800 1500) = Fault OutOfBounds.
Proof.
  intros g packet.
  exact (icmp_reply_past_end g sample_hdr 0 0 0 22136 [] (Tv 1614556800 1500) (proj1 sample_hdr_ok)
           ltac:(in_word) ltac:(in_word) ltac:(in_word) ltac:(reflexivity)).
Defined.

Lemma icmp_probe_roundtrip_witness :
  exists p len,
    build_probe AF_INET 84 1 513 22136 = Ok (p, len) /\ len = 84 - IPHDR /\
    let sent := take (Z.to_nat len) p in
    let answer := sample_hdr ++ [ICMP_ECHOREPLY; 0; 0; 0] ++ drop 4 sent in
    checksum sent = 0 /\
    process_ipv4_packet (sample_globals 2 2) answer (Z.of_nat (length answer)) (Tv 1614556800 1500) =
    Ok (0, with_info (sample_globals 2 2)
             (<[Z.to_nat 1 := set_reply (probe (ip4 10 0 0 2) 22136) (Tv 1614556800 1500)]> two_probes)
             (i32 (2 - 1))).
Proof.
  apply (icmp_probe_roundtrip (sample_globals 2 2) sample_hdr 0 0 0 84 1
           (probe (ip4 10 0 0 2) 22136) (Tv 1614556800 1500)).
  - exact (proj1 sample_hdr_ok).
  - vm_compute. split; [discriminate|reflexivity].
  - in_word.
  - in_word.
  - in_word.
  - reflexivity.
  - reflexivity.
Defined.

Lemma icmp_error_recorded_witness :
  let g := sample_globals 2 2 in
  let packet seq := sample_hdr ++ error_msg 3 1 0 0 0 0 0 0 sample_hdr 0 0 513 seq [] in
  process_ipv4_packet g (packet 0) (Z.of_nat (length (packet 0))) (Tv 1614556800 1500) =
  Ok (0, with_info g [set_error (probe (ip4 10 0 0 1) 4660) 3 1; probe (ip4 10 0 0 2) 22136] 2) /\
  process_ipv4_packet g (packet 700) (Z.of_nat (length (packet 700))) (Tv 1614556800 1500)
  = Fault OutOfBounds.
Proof.
  intros g packet. split.
  - apply (proj1 (icmp_error_recorded g sample_hdr 3 1 0 0 0 0 0 0 sample_hdr 0 0 0 []
      (Tv 1614556800 1500) (proj1 sample_hdr_ok) sample_hdr_ok ltac:(in_word) ltac:(in_word)
      ltac:(vm_compute; discriminate) ltac:(discriminate)) (probe (ip4 10 0 0 1) 4660)).
    reflexivity.
  - apply (proj2 (icmp_error_recorded g sample_hdr 3 1 0 0 0 0 0 0 sample_hdr 0 0 700 []
      (Tv 1614556800 1500) (proj1 sample_hdr_ok) sample_hdr_ok ltac:(in_word) ltac:(in_word)
      ltac:(vm_compute; discriminate) ltac:(discriminate))).
    vm_compute. discriminate.
Defined.

Lemma icmp_duplicate_reply_ends_test_witness :
  let packet := sample_hdr ++ icmp_msg ICMP_ECHOREPLY 0 0 0 513 0 4660 [] in
  let got := Some (packet, Z.of_nat (length packet), Tv 1614556800 1500) in
  exists g1 g2, receive_probe_callback (sample_globals 2 2) got = Ok g1 /\
    receive_probe_callback g1 got = Ok g2 /\ halted g2 = true /\
    forall j, j <> Z.to_nat 0 -> info g2 !! j = two_probes !! j.
Proof.
  intros packet got.
  exact (icmp_duplicate_reply_ends_test (sample_globals 2 2) sample_hdr 0 0 0 0 []
    (Tv 1614556800 1500) (probe (ip4 10 0 0 1) 4660) (proj1 sample_hdr_ok) ltac:(in_word)
    ltac:(in_word) ltac:(in_word) ltac:(reflexivity) ltac:(reflexivity) eq_refl eq_refl).
Defined.

Lemma icmp_test_ends_witness :
  exists g,
    send_packet (sample_globals 0 0) 7 (fun _ _ _ => Some (Tv 1614556800 0)) = Ok g /\
    (nextpackettimer g <> None <-> index g < count g) /\
    (forall random transmit, index g < count g -> exists g', send_packet g random transmit = Ok g') /\
    (index g = count g -> halted g = true \/ losstimer g <> None).
Proof.
  destruct (send_packet (sample_globals 0 0) 7 (fun _ _ _ => Some (Tv 1614556800 0))) as [g|] eqn:E;
    [|vm_compute in E; discriminate].
  exists g. split; [reflexivity|]. apply (icmp_test_ends (sample_globals 0 0)).
  - unfold icmp_start. split_and!; vm_compute; first [reflexivity | discriminate].
  - eapply rtc_once, StepSend; [|exact E]. discriminate.
Defined.

Lemma report_destination_fields_witness :
  report_destination (set_reply (probe (ip4 10 0 0 1) 4660) (Tv 1614556800 1500))
  = {| rtt := Some 1500; item_ttl := Some 0; error := Some (0, 0) |} /\
  rtt (report_destination (set_error (probe (ip4 10 0 0 1) 4660) 3 1)) = None.
Proof.
  split.
  - apply (proj1 (report_destination_fields
      (set_reply (probe (ip4 10 0 0 1) 4660) (Tv 1614556800 1500)) ltac:(vm_compute; discriminate))).
    vm_compute. split_and!; [discriminate|reflexivity|right; split; reflexivity].
  - apply (proj2 (report_destination_fields (set_error (probe (ip4 10 0 0 1) 4660) 3 1)
      ltac:(vm_compute; discriminate))).
    intros (_ & _ & [H|[H _]]); vm_compute in H; discriminate.
Defined.
