(* ===== verification/Dns.v ===== *)
(** The DNS test (src/tests/dns/dns.c): encoding and decoding of names, the query
    that is sent, and the processing of a response.

    Strings and packets are lists of bytes; pointers into a packet are offsets.
    The packet is the whole receive buffer: process_packet() does not use the
    number of bytes received. *)
From S2P Require Import Prelude CLib Bytes.
#[local] Open Scope Z_scope.

Definition MAX_DNS_NAME_LEN : Z := 255.
Definition DOT : Z := 46.
Definition RESPONSEOK : Z := 0.
Definition INVALID : Z := 2.
Definition NOTFOUND : Z := 3.
Definition DNS_T : Z := 12.
Definition DNS_QUERY_T : Z := 4.
Definition DNS_OPT_RR_T : Z := 10.
Definition DNS_OPT_RDATA_T : Z := 4.

(** strncpy(dst, data + off, length): the bytes it writes. *)
Fixpoint strncpy_bytes (data : list Z) (off : Z) (length : nat) : res (list Z) :=
  match length with
  | O => Ok []
  | S length' =>
      b ← rd data off;
      if b =? 0 then Ok (replicate (S length') 0)
      else rest ← strncpy_bytes data (off + 1) length'; Ok (b :: rest)
  end.

(** Append to a name buffer that holds [MAX_DNS_NAME_LEN] bytes. *)
Definition append (name extra : list Z) : res (list Z) :=
  if Z.of_nat (length (name ++ extra)) <=? MAX_DNS_NAME_LEN then Ok (name ++ extra)
  else Fault OutOfBounds.

(** decode(): [result] is the name written so far ([None] for a NULL result),
    [current] the saved position.  Returns the name without its terminator and
    the position after the name.  Nothing bounds the number of jumps. *)
Fixpoint decode_loop (fuel : nat) (data : list Z) (result : option (list Z)) (start : Z)
    (current : option Z) : res (option (list Z) * Z) :=
  match fuel with
  | O => Fault OutOfFuel
  | S fuel' =>
      length ← rd data start;
      if Z.land length 192 =? 192 then
        low ← rd data (start + 1);
        let current := match current with None => Some (start + 2) | Some _ => current end in
        decode_loop fuel' data result (Z.lor (Z.shiftl (Z.land length 63) 8) (Z.land low 255)) current
      else if length >? 0 then
        result ← match result with
                 | None => Ok None
                 | Some name =>
                     name ← (if (0 <? Z.of_nat (Datatypes.length name)) then append name [DOT] else Ok name);
                     part ← strncpy_bytes data (start + 1) (Z.to_nat length);
                     name ← append name part;
                     Ok (Some name)
                 end;
        decode_loop fuel' data result (start + length + 1) current
      else
        result ← match result with
                 | None => Ok None
                 | Some name => _ ← append name [0]; Ok (Some name)
                 end;
        Ok (result, match current with Some c => c | None => start + 1 end)
  end.
Definition decode (fuel : nat) (want_name : bool) (data : list Z) (start : Z)
    : res (option (list Z) * Z) :=
  decode_loop fuel data (if want_name then Some [] else None) start None.

(** encode(): one turn of its loop per part of the query string. *)
Fixpoint encode_loop (query part name : list Z) : res (list Z) :=
  match query with
  | [] => name ← append name (u8 (Z.of_nat (length part)) :: part); append name [0]
  | c :: query' =>
      if c =? DOT then
        name ← append name (u8 (Z.of_nat (length part)) :: part); encode_loop query' [] name
      else encode_loop query' (part ++ [c]) name
  end.
Definition encode (query : list Z) : res (list Z) := encode_loop query [] [].

(** The fields of struct info_t that the processing of a response sets. *)
Record info_t : Set := {
  nsid : option (list Z); time_sent : timeval; delay : Z; bytes : Z; flags : Z;
  total_answer : Z; total_authority : Z; total_additional : Z;
  reply : Z; response_code : Z; rrsig : Z
}.
Definition no_info (t : timeval) : info_t :=
  {| nsid := None; time_sent := t; delay := 0; bytes := 0; flags := 0; total_answer := 0;
     total_authority := 0; total_additional := 0; reply := 0; response_code := 0; rrsig := 0 |}.

Record globals : Set := {
  info : list info_t; ident : Z; index : Z; count : Z; outstanding : Z; halted : bool
}.

(** [memcpy] out of a packet. *)
Fixpoint read_bytes (data : list Z) (off : Z) (n : nat) : res (list Z) :=
  match n with
  | O => Ok []
  | S n' => b ← rd data off; rest ← read_bytes data (off + 1) n'; Ok (b :: rest)
  end.

(** process_opt_rr(): the options of an OPT record at [option]; [rrlen] is a
    uint16_t and wraps when an option claims more than there is. *)
Fixpoint process_opt_rr (fuel : nat) (packet : list Z) (option : Z) (rrlen : Z)
    (found : Datatypes.option (list Z)) : res (Datatypes.option (list Z)) :=
  match fuel with
  | O => Fault OutOfFuel
  | S fuel' =>
      code ← rd16 packet option;
      len ← rd16 packet (option + 2);
      let len := ntohs len in
      found ← (if ntohs code =? 3
               then payload ← read_bytes packet (option + DNS_OPT_RDATA_T) (Z.to_nat len);
                    Ok (Some payload)
               else Ok found);
      let rrlen := u16 (u16 (rrlen - DNS_OPT_RDATA_T) - len) in
      if rrlen >? 0
      then process_opt_rr fuel' packet (option + len + DNS_OPT_RDATA_T) rrlen found
      else Ok found
  end.

(** The loop over the questions. *)
Fixpoint skip_questions (fuel : nat) (packet : list Z) (n : nat) (rr_start : Z) : res Z :=
  match n with
  | O => Ok rr_start
  | S n' =>
      r ← decode fuel false packet rr_start;
      skip_questions fuel packet n' (snd r + DNS_QUERY_T)
  end.

(** The loop over the resource records: the position, NSID and RRSIG found. *)
Fixpoint read_records (fuel : nat) (packet : list Z) (n : nat) (rr_start : Z)
    (found : option (list Z)) (sig : Z) : res (Z * option (list Z) * Z) :=
  match n with
  | O => Ok (rr_start, found, sig)
  | S n' =>
      r ← decode fuel true packet rr_start;
      let rr := snd r in
      type ← rd16 packet rr;
      rdlen ← rd16 packet (rr + 8);
      let type := ntohs type in
      let rdlen := ntohs rdlen in
      found ← (if (type =? 41) && (rdlen >=? DNS_OPT_RDATA_T)
               then process_opt_rr fuel packet (rr + DNS_OPT_RR_T) rdlen found
               else Ok found);
      read_records fuel packet n' (rr + DNS_OPT_RR_T + rdlen) found
        (if type =? 46 then 1 else sig)
  end.

(** response_count: the three counts are added as they are in the packet, and
    the low 16 bits of the sum are swapped. *)
Definition response_count (an ns ar : Z) : Z := ntohs (an + ns + ar).

(** The checks of the header, in order. *)
Definition check_response (flags qd_count responses : Z) : Z :=
  if negb (Z.testbit flags 7) then INVALID
  else if negb (ntohs qd_count =? 1) then INVALID
  else if negb (Z.land (Z.shiftr flags 8) 15 =? 0) then NOTFOUND
  else if responses <? 1 then NOTFOUND
  else RESPONSEOK.

Definition process_packet (fuel : nat) (g : globals) (packet : list Z) (now : timeval)
    : res globals :=
  id ← rd16 packet 0;
  let recv_ident := ntohs id in
  if (recv_ident <? ident g) || (recv_ident - ident g >? count g) then Ok g
  else
    let idx := recv_ident - ident g in
    entry ← rd (info g) idx;
    fl ← rd16 packet 2;
    qd ← rd16 packet 4;
    an ← rd16 packet 6;
    ns ← rd16 packet 8;
    ar ← rd16 packet 10;
    let responses := response_count an ns ar in
    let code := check_response fl qd responses in
    r ← (if (code =? RESPONSEOK) || (code =? NOTFOUND) then
           rr ← skip_questions fuel packet (Z.to_nat (ntohs qd)) DNS_T;
           r ← read_records fuel packet (Z.to_nat responses) rr (nsid entry) (rrsig entry);
           Ok (let '(rr, found, sig) := r in (u32 rr, found, sig))
         else Ok (0, nsid entry, rrsig entry));
    let '(size, found, sig) := r in
    let d := DIFF_TV_US now (time_sent entry) in
    infos ← wr (info g) idx
      {| nsid := found; time_sent := time_sent entry; delay := if d >? 0 then u32 d else 0;
         bytes := size; flags := fl; total_answer := ntohs an; total_authority := ntohs ns;
         total_additional := ntohs ar; reply := 1; response_code := code; rrsig := sig |};
    Ok {| info := infos; ident := ident g; index := index g; count := count g;
          outstanding := i32 (outstanding g - 1); halted := halted g |}.

(** receive_probe_callback(): [received] is the buffer get_packet() filled. *)
Definition receive_probe_callback (fuel : nat) (g : globals) (received : option (list Z * timeval))
    : res globals :=
  g ← match received with
      | Some (packet, now) => process_packet fuel g packet now
      | None => Ok g
      end;
  Ok (if (outstanding g =? 0) && (index g =? count g)
      then {| info := info g; ident := ident g; index := index g; count := count g;
              outstanding := outstanding g; halted := true |}
      else g).

(** The options that shape a query. *)
Record opt_t : Set := {
  query_string : list Z; query_type : Z; query_class : Z; udp_payload_size : Z;
  recurse : bool; dnssec : bool; use_nsid : bool
}.

(** The bytes of a NUL-terminated string up to its first NUL. *)
Fixpoint c_string (s : list Z) : list Z :=
  match s with [] => [] | b :: s' => if b =? 0 then [] else b :: c_string s' end.

(** create_dns_query(), field by field. *)
Definition create_dns_query (ident : Z) (opt : opt_t) : res (list Z) :=
  encoded ← encode (query_string opt);
  let name := c_string encoded ++ [0] in
  let extra := dnssec opt || use_nsid opt || negb (udp_payload_size opt =? 0) in
  Ok (le16 (ntohs ident)
      ++ [if recurse opt then 1 else 0; 0]
      ++ le16 (htons 1) ++ le16 0 ++ le16 0 ++ le16 (if extra then htons 1 else 0)
      ++ name
      ++ le16 (htons (query_type opt)) ++ le16 (htons (query_class opt))
      ++ (if extra then
            [0] ++ le16 (htons 41) ++ le16 (htons (udp_payload_size opt)) ++ [0; 0]
            ++ le16 (if dnssec opt then htons 32768 else 0)
            ++ le16 (if use_nsid opt then htons DNS_OPT_RDATA_T else 0)
            ++ (if use_nsid opt then le16 (htons 3) ++ le16 0 else [])
          else [])).

(** ** Names *)

Definition label_ok (l : list Z) : Prop :=
  l <> [] /\ (length l <= 63)%nat /\ Forall (fun b => 0 < b < 256 /\ b <> DOT) l.

(** The parts of a name after the first, each behind its dot. *)
Definition dotted (ls : list (list Z)) : list Z := mjoin (cons DOT <$> ls).
Definition host_name (l : list Z) (ls : list (list Z)) : list Z := l ++ dotted ls.
(** A name as RFC 1035 writes it: length bytes and labels, then a zero. *)
Definition wire_labels (ls : list (list Z)) : list Z :=
  mjoin ((fun l => Z.of_nat (length l) :: l) <$> ls).
Definition wire_name (l : list Z) (ls : list (list Z)) : list Z := wire_labels (l :: ls) ++ [0].

Lemma dotted_cons l ls : dotted (l :: ls) = DOT :: (l ++ dotted ls).
Proof. done. Qed.
Lemma wire_labels_cons l ls : wire_labels (l :: ls) = Z.of_nat (length l) :: (l ++ wire_labels ls).
Proof. done. Qed.

Lemma length_dotted ls : length (dotted ls) = length (wire_labels ls).
Proof.
  induction ls as [|l ls IH]; [done|]. rewrite dotted_cons, wire_labels_cons. cbn [length].
  rewrite !length_app. lia.
Qed.

Lemma encode_loop_word l rest part name :
  Forall (fun b => 0 < b < 256 /\ b <> DOT) l ->
  encode_loop (l ++ rest) part name = encode_loop rest (part ++ l) name.
Proof.
  intros Hl. revert part. induction Hl as [|c l [Hc Hd] Hl IH]; intros part; cbn [app encode_loop].
  - by rewrite app_nil_r.
  - rewrite (proj2 (Z.eqb_neq _ _) Hd), IH, <- app_assoc. done.
Qed.

Lemma append_Ok name extra :
  Z.of_nat (length name + length extra) <= MAX_DNS_NAME_LEN -> append name extra = Ok (name ++ extra).
Proof.
  intros H. unfold append. rewrite length_app. by rewrite (proj2 (Z.leb_le _ _)) by lia.
Qed.

Lemma encode_loop_dotted ls l name :
  Forall label_ok (l :: ls) ->
  Z.of_nat (length name + length (wire_name l ls)) <= MAX_DNS_NAME_LEN ->
  encode_loop (dotted ls) l name = Ok (name ++ wire_name l ls).
Proof.
  revert l name. induction ls as [|l' ls IH]; intros l name Hok Hlen.
  - cbn [dotted mjoin list_join fmap list_fmap encode_loop].
    unfold wire_name, wire_labels in *. cbn in Hlen. rewrite !length_app in Hlen. cbn in Hlen.
    inversion Hok as [|? ? (_ & Hl & _) _]; subst. rewrite u8_id by lia.
    rewrite append_Ok by (cbn [length]; lia). cbn [mbind res_bind].
    rewrite append_Ok by (rewrite length_app; cbn [length]; lia).
    cbn. by rewrite app_nil_r, <- app_assoc.
  - inversion Hok as [|? ? (_ & Hl & _) Hok']; subst.
    inversion Hok' as [|? ? (_ & Hl' & Hb') _]; subst.
    change (dotted (l' :: ls)) with (DOT :: (l' ++ dotted ls)). cbn [encode_loop].
    rewrite Z.eqb_refl. rewrite u8_id by lia.
    assert (Hw : wire_name l (l' :: ls) = (Z.of_nat (length l) :: l) ++ wire_name l' ls)
      by (unfold wire_name, wire_labels; cbn; by rewrite <- app_assoc).
    rewrite Hw, length_app in Hlen. cbn [length] in Hlen.
    rewrite append_Ok by (cbn [length]; lia). cbn [mbind res_bind].
    rewrite encode_loop_word by done. cbn [app]. rewrite IH; [|done|rewrite length_app; cbn [length]; lia].
    by rewrite Hw, <- app_assoc.
Qed.

Lemma encode_host l ls :
  Forall label_ok (l :: ls) -> Z.of_nat (length (wire_name l ls)) <= MAX_DNS_NAME_LEN ->
  encode (host_name l ls) = Ok (wire_name l ls).
Proof.
  intros Hok Hlen. unfold encode, host_name. rewrite encode_loop_word.
  - by rewrite encode_loop_dotted.
  - by inversion Hok as [|? ? (_ & _ & Hb) _].
Qed.

Lemma length_byte n : 0 <= n < 64 -> (Z.land n 192 =? 192) = false.
Proof.
  intros Hn. assert (Hall : Forall (fun n => (Z.land n 192 =? 192) = false) (seqZ 0 64))
    by (vm_compute; repeat constructor).
  rewrite Forall_forall in Hall. apply Hall, elem_of_seqZ. lia.
Qed.

Lemma strncpy_label pre l post :
  Forall (fun b => 0 < b < 256 /\ b <> DOT) l ->
  strncpy_bytes (pre ++ l ++ post) (Z.of_nat (length pre)) (length l) = Ok l.
Proof.
  intros Hl. revert pre. induction Hl as [|b l [Hb _] Hl IH]; intros pre; [done|].
  cbn [length strncpy_bytes app]. rewrite rd_app_0.
  change (rd (b :: l ++ post) 0) with (Ok b). cbn [mbind res_bind].
  rewrite (proj2 (Z.eqb_neq _ _)) by lia. specialize (IH (pre ++ [b])).
  rewrite length_app, <- app_assoc in IH. cbn in IH.
  replace (Z.of_nat (length pre) + 1) with (Z.of_nat (length pre + 1)) by lia.
  rewrite IH. done.
Qed.

(** Decoding the rest of a name of which [name] is already written. *)
Lemma decode_loop_labels fuel pre ls post name current :
  (length ls < fuel)%nat -> Forall label_ok ls -> name <> [] ->
  Z.of_nat (length name + length (dotted ls) + 1) <= MAX_DNS_NAME_LEN ->
  decode_loop fuel (pre ++ wire_labels ls ++ [0] ++ post) (Some name) (Z.of_nat (length pre)) current =
  Ok (Some (name ++ dotted ls),
      match current with Some c => c | None => Z.of_nat (length pre + length (wire_labels ls) + 1) end).
Proof.
  intros Hf Hok. revert fuel pre name Hf. induction Hok as [|l ls (Hne & Hl & Hb) Hok IH];
    intros fuel pre name Hf Hname Hlen; destruct fuel as [|fuel]; [cbn in Hf; lia..|  |cbn in Hf; lia|];
    cbn [decode_loop].
  - cbn [wire_labels mjoin list_join fmap list_fmap app]. rewrite rd_app_0.
    change (rd (0 :: post) 0) with (Ok 0). cbn [mbind res_bind].
    change (Z.land 0 192 =? 192) with false. change (0 >? 0) with false. cbn iota.
    cbn in Hlen. rewrite append_Ok by (cbn [length]; lia). cbn. rewrite app_nil_r.
    do 2 f_equal. destruct current; [done|lia].
  - set (n := Z.of_nat (length l)).
    assert (Hdata : pre ++ wire_labels (l :: ls) ++ [0] ++ post =
      (pre ++ [n]) ++ l ++ (wire_labels ls ++ [0] ++ post)).
    { unfold wire_labels. cbn. by rewrite <- !app_assoc. }
    rewrite Hdata. rewrite <- app_assoc, rd_app_0.
    change (rd ([n] ++ l ++ wire_labels ls ++ [0] ++ post) 0) with (Ok n). cbn [mbind res_bind].
    assert (Hlpos : (0 < length l)%nat) by (destruct l; [done|cbn; lia]).
    rewrite length_byte by lia. rewrite (proj2 (Z.gtb_lt n 0)) by lia.
    rewrite app_assoc. change (dotted (l :: ls)) with (DOT :: (l ++ dotted ls)) in Hlen |- *.
    cbn [length] in Hlen. rewrite length_app in Hlen.
    rewrite (proj2 (Z.ltb_lt 0 _)) by (destruct name; [done|cbn; lia]).
    rewrite append_Ok by (cbn [length]; lia). cbn [mbind res_bind].
    replace (Z.of_nat (length pre) + 1) with (Z.of_nat (length (pre ++ [n]))) by (rewrite length_app; cbn [length]; lia).
    replace (Z.to_nat n) with (length l) by lia. rewrite strncpy_label by done. cbn [mbind res_bind].
    rewrite append_Ok by (rewrite length_app; cbn [length]; lia). cbn [mbind res_bind].
    assert (Hdata2 : (pre ++ [n]) ++ l ++ wire_labels ls ++ [0] ++ post =
      (pre ++ [n] ++ l) ++ wire_labels ls ++ [0] ++ post) by (by rewrite <- !app_assoc).
    rewrite Hdata2.
    replace (Z.of_nat (length pre) + n + 1) with (Z.of_nat (length (pre ++ [n] ++ l)))
      by (rewrite !length_app; cbn [length]; lia).
    rewrite IH; [| cbn in Hf; lia | by destruct name | rewrite !length_app; cbn [length]; lia].
    rewrite <- !app_assoc. cbn [app]. do 2 f_equal.
    destruct current; [done|]. rewrite wire_labels_cons, !length_app. cbn [length]. rewrite !length_app. lia.
Qed.

Lemma decode_loop_name fuel pre l ls post current :
  (length (l :: ls) < fuel)%nat -> Forall label_ok (l :: ls) ->
  Z.of_nat (length (wire_name l ls)) <= MAX_DNS_NAME_LEN ->
  decode_loop fuel (pre ++ wire_name l ls ++ post) (Some []) (Z.of_nat (length pre)) current =
  Ok (Some (host_name l ls),
      match current with Some c => c | None => Z.of_nat (length pre + length (wire_name l ls)) end).
Proof.
  intros Hf Hok Hlen. inversion Hok as [|? ? (Hne & Hl & Hb) Hok']; subst.
  destruct fuel as [|fuel]; [lia|]. cbn [decode_loop]. set (n := Z.of_nat (length l)).
  assert (Hdata : pre ++ wire_name l ls ++ post =
      (pre ++ [n]) ++ l ++ (wire_labels ls ++ [0] ++ post)).
  { unfold wire_name, wire_labels. cbn. by rewrite <- !app_assoc. }
  assert (Hwl : length (wire_name l ls) = (length l + length (wire_labels ls) + 2)%nat).
  { unfold wire_name. rewrite wire_labels_cons. cbn [app length]. rewrite !length_app. cbn [length]. lia. }
  rewrite Hdata, <- app_assoc, rd_app_0.
  change (rd ([n] ++ l ++ wire_labels ls ++ [0] ++ post) 0) with (Ok n). cbn [mbind res_bind].
  assert (Hlpos : (0 < length l)%nat) by (destruct l; [done|cbn; lia]).
  rewrite length_byte by lia. rewrite (proj2 (Z.gtb_lt n 0)) by lia. rewrite app_assoc.
  change (0 <? Z.of_nat (length (@nil Z))) with false. cbn iota. cbn [mbind res_bind].
  replace (Z.of_nat (length pre) + 1) with (Z.of_nat (length (pre ++ [n]))) by (rewrite length_app; cbn [length]; lia).
  replace (Z.to_nat n) with (length l) by lia. rewrite strncpy_label by done. cbn [mbind res_bind].
  rewrite append_Ok by (cbn [length]; lia). cbn [mbind res_bind].
  change ([] ++ l) with l.
  assert (Hdata2 : (pre ++ [n]) ++ l ++ wire_labels ls ++ [0] ++ post =
      (pre ++ [n] ++ l) ++ wire_labels ls ++ [0] ++ post) by (by rewrite <- !app_assoc).
  rewrite Hdata2.
  replace (Z.of_nat (length pre) + n + 1) with (Z.of_nat (length (pre ++ [n] ++ l)))
    by (rewrite !length_app; cbn [length]; lia).
  rewrite decode_loop_labels; [|cbn in Hf; lia|done|done|rewrite length_dotted; lia].
  unfold host_name. do 2 f_equal. destruct current; [done|]. rewrite Hwl, !length_app. cbn. lia.
Qed.

(** A pointer to offset [off], as two bytes. *)
Definition pointer (off : Z) : list Z := [192 + off / 256; off mod 256].

Lemma pointer_byte n :
  0 <= n < 64 -> Z.land (192 + n) 192 = 192 /\ Z.land (192 + n) 63 = n.
Proof.
  intros Hn. assert (Hall : Forall (fun n => Z.land (192 + n) 192 = 192 /\ Z.land (192 + n) 63 = n) (seqZ 0 64))
    by (vm_compute; repeat constructor).
  rewrite Forall_forall in Hall. apply Hall, elem_of_seqZ. lia.
Qed.

(** One jump. *)
Lemma decode_loop_jump fuel pre off post result current :
  0 <= off < 16384 ->
  decode_loop (S fuel) (pre ++ pointer off ++ post) result (Z.of_nat (length pre)) current =
  decode_loop fuel (pre ++ pointer off ++ post) result off
    (match current with None => Some (Z.of_nat (length pre) + 2) | Some _ => current end).
Proof.
  intros Hoff. cbn [decode_loop]. rewrite rd_app_0.
  change (rd (pointer off ++ post) 0) with (Ok (192 + off / 256)). cbn [mbind res_bind].
  destruct (pointer_byte (off / 256)) as [H1 H2]; [Z.div_mod_to_equations; lia|].
  rewrite H1, Z.eqb_refl, H2, rd_app_r by lia.
  change (rd (pointer off ++ post) 1) with (Ok (off mod 256)). cbn [mbind res_bind].
  change 255 with (Z.ones 8). rewrite Z.land_ones by lia. change (2 ^ 8) with 256.
  rewrite Z.mod_mod, lor_shift8 by (Z.div_mod_to_equations; lia).
  replace (256 * (off / 256) + off mod 256) with off by (Z.div_mod_to_equations; lia). done.
Qed.

(** C18: Names of the dns test round-trip.  A host name of one or more labels, each of 1 to 63
    characters that are not a dot or NUL, whose encoding is no longer than 255 bytes, is
    encoded as RFC 1035 has it: each label behind its length, then a zero.  In a packet that
    has this encoding at an offset below 16384, and anything before and after it, decode()
    from that offset returns the name and the position after its encoding, and decode() from
    a compression pointer to it returns the name and the position after the pointer; both
    take at most two turns more of the loop than the name has labels. *)
Theorem dns_name_roundtrip fuel pre l ls mid post :
  Forall label_ok (l :: ls) -> Z.of_nat (length (wire_name l ls)) <= MAX_DNS_NAME_LEN ->
  (S (length (l :: ls)) < fuel)%nat -> Z.of_nat (length pre) < 16384 ->
  exists w, encode (host_name l ls) = Ok w /\ w = wire_labels (l :: ls) ++ [0] /\
    let packet := pre ++ w ++ mid ++ pointer (Z.of_nat (length pre)) ++ post in
    decode fuel true packet (Z.of_nat (length pre))
    = Ok (Some (host_name l ls), Z.of_nat (length (pre ++ w))) /\
    decode fuel true packet (Z.of_nat (length (pre ++ w ++ mid)))
    = Ok (Some (host_name l ls), Z.of_nat (length (pre ++ w ++ mid)) + 2).
Proof.
  intros Hok Hlen Hf Hpre. exists (wire_name l ls). split; [by apply encode_host|]. split; [done|]. cbn zeta.
  unfold decode. split.
  - rewrite decode_loop_name; [by rewrite length_app|lia|done|done].
  - destruct fuel as [|fuel]; [lia|].
    assert (Hp : pre ++ wire_name l ls ++ mid ++ pointer (Z.of_nat (length pre)) ++ post =
      (pre ++ wire_name l ls ++ mid) ++ pointer (Z.of_nat (length pre)) ++ post)
      by (by rewrite <- !app_assoc).
    rewrite Hp, decode_loop_jump, <- Hp by lia.
    rewrite decode_loop_name; [done|lia|done|done].
Qed.

Definition amp : list Z := [97; 109; 112].
Definition org : list Z := [111; 114; 103].

Lemma sample_labels : Forall label_ok [amp; org].
Proof. repeat (constructor; [split_and!; [discriminate|cbn; lia|repeat (constructor; [split; [lia|discriminate]|]); constructor]|]). constructor. Qed.

Lemma dns_name_roundtrip_witness :
  exists w, encode (host_name amp [org]) = Ok w /\ w = [3; 97; 109; 112; 3; 111; 114; 103; 0] /\
    let packet := [1; 2] ++ w ++ [0; 1] ++ pointer 2 ++ [0; 0] in
    decode 10 true packet 2 = Ok (Some (host_name amp [org]), Z.of_nat (length ([1; 2] ++ w))) /\
    decode 10 true packet (Z.of_nat (length ([1; 2] ++ w ++ [0; 1])))
    = Ok (Some (host_name amp [org]), Z.of_nat (length ([1; 2] ++ w ++ [0; 1])) + 2).
Proof.
  apply (dns_name_roundtrip 10 [1; 2] amp [org] [0; 1] [0; 0]).
  - exact sample_labels.
  - vm_compute. discriminate.
  - cbn. lia.
  - cbn. lia.
Defined.

(** A pointer that points at itself makes decode() run forever: no bound on
    the number of steps is enough.  A response can hold one. *)
Theorem decode_pointer_loop fuel pre post want_name :
  Z.of_nat (length pre) < 16384 ->
  decode fuel want_name (pre ++ pointer (Z.of_nat (length pre)) ++ post) (Z.of_nat (length pre))
  = Fault OutOfFuel.
Proof.
  intros Hpre. unfold decode.
  generalize (if want_name then Some (@nil Z) else None). generalize (@None Z).
  induction fuel as [|fuel IH]; intros current result; [done|].
  rewrite decode_loop_jump by lia. apply IH.
Qed.

Lemma decode_pointer_loop_witness :
  decode 1000 true ([0; 0] ++ pointer 2 ++ [7]) 2 = Fault OutOfFuel.
Proof. apply (decode_pointer_loop 1000 [0; 0] [7] true). cbn. lia. Defined.

(** ** Responses *)

Lemma decode_loop_skip fuel pre ls post current :
  (length ls < fuel)%nat -> Forall label_ok ls ->
  decode_loop fuel (pre ++ wire_labels ls ++ [0] ++ post) None (Z.of_nat (length pre)) current =
  Ok (None, match current with Some c => c | None => Z.of_nat (length pre + length (wire_labels ls) + 1) end).
Proof.
  intros Hf Hok. revert fuel pre Hf. induction Hok as [|l ls (Hne & Hl & Hb) Hok IH];
    intros fuel pre Hf; destruct fuel as [|fuel]; [cbn in Hf; lia..| |cbn in Hf; lia|];
    cbn [decode_loop].
  - change (wire_labels [] ++ [0] ++ post) with (0 :: post). rewrite rd_app_0.
    change (rd (0 :: post) 0) with (Ok 0). cbn [mbind res_bind].
    change (Z.land 0 192 =? 192) with false. change (0 >? 0) with false. cbn iota. cbn [mbind res_bind].
    do 2 f_equal. destruct current; [done|]. change (length (wire_labels [])) with O. lia.
  - set (n := Z.of_nat (length l)).
    assert (Hdata : pre ++ wire_labels (l :: ls) ++ [0] ++ post =
      (pre ++ [n] ++ l) ++ wire_labels ls ++ [0] ++ post)
      by (rewrite wire_labels_cons; cbn [app]; by rewrite <- !app_assoc).
    assert (Hr : rd (pre ++ wire_labels (l :: ls) ++ [0] ++ post) (Z.of_nat (length pre)) = Ok n)
      by (by rewrite rd_app_0).
    rewrite Hr. cbn [mbind res_bind].
    assert (Hlpos : (0 < length l)%nat) by (destruct l; [done|cbn; lia]).
    rewrite length_byte by lia. rewrite (proj2 (Z.gtb_lt n 0)) by lia. cbn [mbind res_bind].
    rewrite Hdata. replace (Z.of_nat (length pre) + n + 1) with (Z.of_nat (length (pre ++ [n] ++ l)))
      by (rewrite !length_app; cbn [length]; lia).
    rewrite IH by (cbn in Hf; lia). do 2 f_equal. destruct current; [done|].
    rewrite wire_labels_cons, !length_app. cbn [length]. rewrite !length_app. lia.
Qed.

(** The response packet of a server that has no answer: our question comes back
    with the flags [f0], [f1]; [rest] is the rest of the receive buffer. *)
Definition empty_response (id f0 f1 : Z) (l : list Z) (ls : list (list Z)) (type class : Z)
    (rest : list Z) : list Z :=
  be16 id ++ [f0; f1] ++ be16 1 ++ be16 0 ++ be16 0 ++ be16 0 ++ wire_name l ls
  ++ be16 type ++ be16 class ++ rest.

Lemma c_string_app a b : Forall (fun x => x <> 0) a -> c_string (a ++ 0 :: b) = a.
Proof.
  intros Ha. induction Ha as [|x a Hx Ha IH]; [done|]. cbn.
  rewrite (proj2 (Z.eqb_neq _ _) Hx). by rewrite IH.
Qed.

Lemma wire_labels_nonzero ls : Forall label_ok ls -> Forall (fun x => x <> 0) (wire_labels ls).
Proof.
  intros H. induction H as [|l ls (Hne & _ & Hb) H IH]; [constructor|]. rewrite wire_labels_cons.
  constructor; [destruct l; [done|cbn [length]; lia]|]. apply Forall_app. split; [|done].
  eapply Forall_weaken; [exact Hb|]. cbn. lia.
Qed.

Lemma create_plain_query id opt l ls :
  query_string opt = host_name l ls ->
  dnssec opt = false -> use_nsid opt = false -> udp_payload_size opt = 0 ->
  Forall label_ok (l :: ls) -> Z.of_nat (length (wire_name l ls)) <= MAX_DNS_NAME_LEN ->
  create_dns_query id opt =
    Ok (be16 id ++ [if recurse opt then 1 else 0; 0] ++ be16 1 ++ be16 0 ++ be16 0 ++ be16 0
        ++ wire_name l ls ++ be16 (query_type opt) ++ be16 (query_class opt)).
Proof.
  intros Hq Hd Hn Hu Hok Hlen. unfold create_dns_query. rewrite Hq, encode_host by done.
  cbn [mbind res_bind]. rewrite Hd, Hn, Hu. cbn [orb negb Z.eqb].
  change (ntohs id) with (htons id). rewrite !htons_be16.
  unfold wire_name. rewrite c_string_app by (by apply wire_labels_nonzero). by rewrite app_nil_r.
Qed.

Lemma check_empty_response flags : Z.testbit flags 7 = true -> check_response flags 256 0 = NOTFOUND.
Proof.
  intros Hf. unfold check_response. rewrite Hf. cbn [negb]. change (ntohs 256 =? 1) with true.
  cbn [negb]. by destruct (_ =? 0).
Qed.

(** The query and what comes back.  The query for a host name carries the
    identifier of its probe and the encoded name; the response that repeats
    the question and has no records is matched to that probe, recorded as
    answered, not found, with its size and the time since the query was sent,
    and nothing else changes. *)
Theorem dns_query_response fuel g opt l ls idx e f0 f1 rest now :
  query_string opt = host_name l ls ->
  dnssec opt = false -> use_nsid opt = false -> udp_payload_size opt = 0 ->
  Forall label_ok (l :: ls) -> Z.of_nat (length (wire_name l ls)) <= MAX_DNS_NAME_LEN ->
  (length (l :: ls) < fuel)%nat ->
  0 <= ident g -> 0 <= idx < count g -> ident g + idx < 65536 -> info g !! Z.to_nat idx = Some e ->
  Z.testbit (f0 + 256 * f1) 7 = true ->
  let size := 16 + Z.of_nat (length (wire_name l ls)) in
  create_dns_query (ident g + idx) opt =
    Ok (be16 (ident g + idx) ++ [if recurse opt then 1 else 0; 0] ++ be16 1 ++ be16 0 ++ be16 0 ++ be16 0
        ++ wire_name l ls ++ be16 (query_type opt) ++ be16 (query_class opt)) /\
  process_packet fuel g
    (empty_response (ident g + idx) f0 f1 l ls (query_type opt) (query_class opt) rest) now =
  Ok {| info := <[Z.to_nat idx :=
          {| nsid := nsid e; time_sent := time_sent e;
             delay := if DIFF_TV_US now (time_sent e) >? 0 then u32 (DIFF_TV_US now (time_sent e)) else 0;
             bytes := size; flags := f0 + 256 * f1; total_answer := 0; total_authority := 0;
             total_additional := 0; reply := 1; response_code := NOTFOUND; rrsig := rrsig e |}]> (info g);
        ident := ident g; index := index g; count := count g;
        outstanding := i32 (outstanding g - 1); halted := halted g |}.
Proof.
  intros Hq Hd Hn Hu Hok Hlen Hf Hid Hidx Hsum He Hqr size.
  split; [by apply create_plain_query|].
  set (packet := empty_response _ _ _ _ _ _ _ _).
  assert (Hhdr : packet = (be16 (ident g + idx) ++ [f0; f1] ++ be16 1 ++ be16 0 ++ be16 0 ++ be16 0)
    ++ wire_labels (l :: ls) ++ [0] ++ (be16 (query_type opt) ++ be16 (query_class opt) ++ rest)).
  { unfold packet, empty_response, wire_name. by rewrite <- !app_assoc. }
  unfold process_packet.
  change (rd16 packet 0) with (Ok (u16 (ident g + idx) / 256 + 256 * (u16 (ident g + idx) mod 256))).
  change (rd16 packet 2) with (Ok (f0 + 256 * f1)). change (rd16 packet 4) with (Ok 256).
  change (rd16 packet 6) with (Ok 0). change (rd16 packet 8) with (Ok 0).
  change (rd16 packet 10) with (Ok 0). cbn [mbind res_bind].
  rewrite be16_load by (unfold word; lia).
  rewrite (proj2 (Z.ltb_ge (ident g + idx) (ident g))) by lia.
  replace (ident g + idx - ident g) with idx by lia.
  destruct (Z.gtb_spec idx (count g)); [lia|]. cbn [orb].
  rewrite (proj2 (rd_Ok (info g) idx e)) by (split; [lia|done]). cbn [mbind res_bind].
  change (response_count 0 0 0) with 0. rewrite check_empty_response by done.
  change ((NOTFOUND =? RESPONSEOK) || (NOTFOUND =? NOTFOUND)) with true. cbn iota.
  change (Z.to_nat (ntohs 256)) with 1%nat. cbn [skip_questions]. unfold decode.
  rewrite Hhdr. change DNS_T with (Z.of_nat (length (be16 (ident g + idx) ++ [f0; f1] ++ be16 1
    ++ be16 0 ++ be16 0 ++ be16 0))).
  rewrite decode_loop_skip by done. cbn [mbind res_bind snd].
  change (Z.to_nat 0) with O. cbn [read_records mbind res_bind].
  assert (Hsize : u32 (Z.of_nat (length (be16 (ident g + idx) ++ [f0; f1] ++ be16 1 ++ be16 0 ++ be16 0
      ++ be16 0) + length (wire_labels (l :: ls)) + 1) + DNS_QUERY_T) = size).
  { change (length (be16 (ident g + idx) ++ [f0; f1] ++ be16 1 ++ be16 0 ++ be16 0 ++ be16 0)) with 12%nat.
    unfold size, wire_name, MAX_DNS_NAME_LEN, DNS_QUERY_T in *. rewrite length_app in *.
    cbn [length] in *. rewrite u32_id; lia. }
  rewrite Hsize. apply lookup_lt_Some in He.
  by rewrite wr_in by lia.
Qed.

(** ** A complete exchange *)

Definition sample_opt : opt_t :=
  {| query_string := host_name amp [org]; query_type := 1; query_class := 1; udp_payload_size := 0;
     recurse := true; dnssec := false; use_nsid := false |}.
Definition sample_globals : globals :=
  {| info := [no_info (Tv 100 0); no_info (Tv 100 200)]; ident := 258; index := 2; count := 2;
     outstanding := 2; halted := false |}.

Lemma dns_query_response_witness :
  create_dns_query 259 sample_opt =
    Ok (be16 259 ++ [1; 0] ++ be16 1 ++ be16 0 ++ be16 0 ++ be16 0
        ++ wire_name amp [org] ++ be16 1 ++ be16 1) /\
  process_packet 10 sample_globals (empty_response 259 129 131 amp [org] 1 1 [0; 0; 0; 0]) (Tv 100 1200) =
  Ok {| info := [no_info (Tv 100 0);
          {| nsid := None; time_sent := Tv 100 200; delay := 1000;
             bytes := 25; flags := 129 + 256 * 131; total_answer := 0; total_authority := 0;
             total_additional := 0; reply := 1; response_code := NOTFOUND; rrsig := 0 |}];
        ident := 258; index := 2; count := 2; outstanding := 1; halted := false |}.
Proof.
  apply (dns_query_response 10 sample_globals sample_opt amp [org] 1 (no_info (Tv 100 200)) 129 131
           [0; 0; 0; 0] (Tv 100 1200)).
  - reflexivity.
  - reflexivity.
  - reflexivity.
  - reflexivity.
  - exact sample_labels.
  - vm_compute. discriminate.
  - cbn. lia.
  - cbn. lia.
  - cbn. lia.
  - cbn. lia.
  - reflexivity.
  - reflexivity.
Defined.

(** The check of the identifier is off by one.  A packet with the identifier
    one past that of the last query passes it, and its results are written
    outside the array of queries. *)
Theorem dns_ident_past_end fuel g rest now :
  0 <= ident g -> 0 <= count g -> ident g + count g < 65536 ->
  Z.of_nat (length (info g)) = count g ->
  process_packet fuel g (be16 (ident g + count g) ++ rest) now = Fault OutOfBounds.
Proof.
  intros Hi Hc Hsum Hlen. unfold process_packet.
  change (rd16 (be16 (ident g + count g) ++ rest) 0)
    with (Ok (u16 (ident g + count g) / 256 + 256 * (u16 (ident g + count g) mod 256))).
  cbn [mbind res_bind]. rewrite be16_load by (unfold word; lia).
  rewrite (proj2 (Z.ltb_ge (ident g + count g) (ident g))) by lia.
  replace (ident g + count g - ident g) with (count g) by lia.
  destruct (Z.gtb_spec (count g) (count g)); [lia|]. cbn [orb]. unfold rd.
  rewrite decide_True by lia. by rewrite lookup_ge_None_2 by lia.
Qed.

Lemma dns_ident_past_end_witness :
  process_packet 10 sample_globals (be16 260 ++ [1; 2; 3]) (Tv 100 0) = Fault OutOfBounds.
Proof. apply (dns_ident_past_end 10 sample_globals [1; 2; 3] (Tv 100 0)); cbn; lia. Defined.

(** The number of records.  The three counts are added before their bytes are
    swapped, which gives their sum as long as it is below 256; carries beyond
    that are lost, so 255 answers and one more record count as none. *)
Theorem response_count_small an ns ar :
  0 <= an -> 0 <= ns -> 0 <= ar -> an + ns + ar < 256 ->
  response_count (htons an) (htons ns) (htons ar) = an + ns + ar /\
  response_count (htons 255) (htons 1) (htons 0) = 0.
Proof.
  intros Ha Hn Hr Hs. split; [|reflexivity]. unfold response_count.
  assert (Hsw : forall n, 0 <= n < 256 -> htons n = 0 + 256 * n).
  { intros n Hn'. unfold htons. replace n with (n + 256 * 0) at 1 by lia.
    rewrite ntohs_bytes; lia. }
  rewrite (Hsw an), (Hsw ns), (Hsw ar) by lia. replace (0 + 256 * an + (0 + 256 * ns) + (0 + 256 * ar))
    with (0 + 256 * (an + ns + ar)) by lia. rewrite ntohs_bytes; lia.
Qed.

Lemma response_count_small_witness :
  response_count (htons 2) (htons 0) (htons 1) = 3.
Proof. apply (response_count_small 2 0 1); lia. Defined.
