(* ===== verification/Traceroute.v ===== *)
(** The traceroute test (src/tests/traceroute/traceroute.c): the probing of many
    paths at once.

    A destination ([dest_info_t]) is moved between the pending, ready,
    outstanding and done lists of the [probe_list_t] as its probes are sent,
    answered or time out; each list is the sequence of its items in order (the
    [_end] pointers of the code are the last elements).  The two libevent
    timers are their timeouts, and event_base_loopbreak() sets [halted].  A
    received packet is the 2048 byte buffer it was read into; every header field
    is a load from it.  The socket calls, random() and the clock are parameters
    of the steps that use them. *)
From stdpp Require Import relations.
From S2P Require Import Prelude CLib Address Testlib Bytes.
#[local] Open Scope Z_scope.

(** Sizes and numbers of the system headers, and constants of traceroute.h. *)
Definition IPHDR : Z := 20.
Definition IP6HDR : Z := 40.
Definition ICMPHDR : Z := 8.
Definition UDPHDR : Z := 8.
Definition IPPROTO_UDP : Z := 17.
Definition IPPROTO_FRAGMENT : Z := 44.
Definition ICMP_DEST_UNREACH : Z := 3.
Definition ICMP_TIME_EXCEEDED : Z := 11.
Definition ICMP_PARAMETERPROB : Z := 12.
Definition ICMP_PORT_UNREACH : Z := 3.
Definition ICMP6_DST_UNREACH : Z := 1.
Definition ICMP6_TIME_EXCEEDED : Z := 3.
Definition ICMP6_PARAM_PROB : Z := 4.
Definition ICMP6_DST_UNREACH_NOPORT : Z := 4.
Definition MIN_TRACEROUTE_PROBE_LEN : Z := IP6HDR + UDPHDR + 4.
Definition LOSS_TIMEOUT : Z := 2.
Definition LOSS_TIMEOUT_US : Z := LOSS_TIMEOUT * 1000000.
Definition MAX_HOPS_IN_PATH : Z := 30.
Definition TRACEROUTE_DEST_PORT : Z := 33434.
Definition MIN_INITIAL_TTL : Z := 3.
Definition MAX_INITIAL_TTL : Z := 8.
Definition TRACEROUTE_RETRY_LIMIT : Z := 2.
Definition TRACEROUTE_NO_REPLY_LIMIT : Z := 5.

(** int8_t *)
Definition i8 (z : Z) : Z := (z + 128) mod 256 - 128.
Lemma i8_id z : -128 <= z < 128 -> i8 z = z.
Proof. intros. unfold i8. rewrite Z.mod_small; lia. Qed.

(** ** Data (traceroute.h) *)

Inductive reply_t : Set := REPLY_UNKNOWN | REPLY_TIMED_OUT | REPLY_OK.
#[export] Instance reply_eq_dec : EqDecision reply_t.
Proof. solve_decision. Defined.

Record opt_t : Set := { packet_size : Z; inter_packet_delay : Z; dscp : Z; ip : bool; as_opt : bool }.
Record dest : Set := { ai_family : Z; ai_addr : option sockaddr }.

(** struct hop_info_t; [hop_addr] is the address of the reply, if there is one. *)
Record hop_info_t : Set := {
  time_sent : timeval; as_ : Z; delay : Z; reply : reply_t; hop_addr : option sockaddr
}.

Definition set_time_sent (o : hop_info_t) (v : timeval) : hop_info_t :=
  {| time_sent := v; as_ := as_ o; delay := delay o; reply := reply o; hop_addr := hop_addr
     o |}.
Definition set_delay (o : hop_info_t) (v : Z) : hop_info_t :=
  {| time_sent := time_sent o; as_ := as_ o; delay := v; reply := reply o; hop_addr :=
     hop_addr o |}.
Definition set_reply (o : hop_info_t) (v : reply_t) : hop_info_t :=
  {| time_sent := time_sent o; as_ := as_ o; delay := delay o; reply := v; hop_addr :=
     hop_addr o |}.
Definition set_hop_addr (o : hop_info_t) (v : option sockaddr) : hop_info_t :=
  {| time_sent := time_sent o; as_ := as_ o; delay := delay o; reply := reply o; hop_addr :=
     v |}.

(** struct dest_info_t *)
Record dest_info_t : Set := {
  addr : dest;
  id : Z;
  probes : Z;
  first_response : Z;
  ttl : Z;
  first_ttl : Z;
  path_length : Z;
  done_forward : bool;
  attempts : Z;
  no_reply_count : Z;
  err_type : Z;
  err_code : Z;
  hop : list hop_info_t
}.

Definition set_probes (o : dest_info_t) (v : Z) : dest_info_t :=
  {| addr := addr o; id := id o; probes := v; first_response := first_response o; ttl := ttl
     o; first_ttl := first_ttl o; path_length := path_length o; done_forward := done_forward
     o; attempts := attempts o; no_reply_count := no_reply_count o; err_type := err_type o;
     err_code := err_code o; hop := hop o |}.
Definition set_first_response (o : dest_info_t) (v : Z) : dest_info_t :=
  {| addr := addr o; id := id o; probes := probes o; first_response := v; ttl := ttl o;
     first_ttl := first_ttl o; path_length := path_length o; done_forward := done_forward o;
     attempts := attempts o; no_reply_count := no_reply_count o; err_type := err_type o;
     err_code := err_code o; hop := hop o |}.
Definition set_ttl (o : dest_info_t) (v : Z) : dest_info_t :=
  {| addr := addr o; id := id o; probes := probes o; first_response := first_response o; ttl
     := v; first_ttl := first_ttl o; path_length := path_length o; done_forward :=
     done_forward o; attempts := attempts o; no_reply_count := no_reply_count o; err_type :=
     err_type o; err_code := err_code o; hop := hop o |}.
Definition set_path_length (o : dest_info_t) (v : Z) : dest_info_t :=
  {| addr := addr o; id := id o; probes := probes o; first_response := first_response o; ttl
     := ttl o; first_ttl := first_ttl o; path_length := v; done_forward := done_forward o;
     attempts := attempts o; no_reply_count := no_reply_count o; err_type := err_type o;
     err_code := err_code o; hop := hop o |}.
Definition set_done_forward (o : dest_info_t) (v : bool) : dest_info_t :=
  {| addr := addr o; id := id o; probes := probes o; first_response := first_response o; ttl
     := ttl o; first_ttl := first_ttl o; path_length := path_length o; done_forward := v;
     attempts := attempts o; no_reply_count := no_reply_count o; err_type := err_type o;
     err_code := err_code o; hop := hop o |}.
Definition set_attempts (o : dest_info_t) (v : Z) : dest_info_t :=
  {| addr := addr o; id := id o; probes := probes o; first_response := first_response o; ttl
     := ttl o; first_ttl := first_ttl o; path_length := path_length o; done_forward :=
     done_forward o; attempts := v; no_reply_count := no_reply_count o; err_type := err_type
     o; err_code := err_code o; hop := hop o |}.
Definition set_no_reply_count (o : dest_info_t) (v : Z) : dest_info_t :=
  {| addr := addr o; id := id o; probes := probes o; first_response := first_response o; ttl
     := ttl o; first_ttl := first_ttl o; path_length := path_length o; done_forward :=
     done_forward o; attempts := attempts o; no_reply_count := v; err_type := err_type o;
     err_code := err_code o; hop := hop o |}.
Definition set_err_type (o : dest_info_t) (v : Z) : dest_info_t :=
  {| addr := addr o; id := id o; probes := probes o; first_response := first_response o; ttl
     := ttl o; first_ttl := first_ttl o; path_length := path_length o; done_forward :=
     done_forward o; attempts := attempts o; no_reply_count := no_reply_count o; err_type :=
     v; err_code := err_code o; hop := hop o |}.
Definition set_err_code (o : dest_info_t) (v : Z) : dest_info_t :=
  {| addr := addr o; id := id o; probes := probes o; first_response := first_response o; ttl
     := ttl o; first_ttl := first_ttl o; path_length := path_length o; done_forward :=
     done_forward o; attempts := attempts o; no_reply_count := no_reply_count o; err_type :=
     err_type o; err_code := v; hop := hop o |}.
Definition set_hop (o : dest_info_t) (v : list hop_info_t) : dest_info_t :=
  {| addr := addr o; id := id o; probes := probes o; first_response := first_response o; ttl
     := ttl o; first_ttl := first_ttl o; path_length := path_length o; done_forward :=
     done_forward o; attempts := attempts o; no_reply_count := no_reply_count o; err_type :=
     err_type o; err_code := err_code o; hop := v |}.

(** struct probe_list_t.  [last_probe] points at the time_sent of a hop of an
    item, named by the id of the item and the index of the hop; [lost] holds the
    items that are allocated but in no list of the code. *)
Record probe_list_t : Set := {
  sockets : socket_t;
  pending : list dest_info_t;
  ready : list dest_info_t;
  outstanding : list dest_info_t;
  done_ : list dest_info_t;
  lost : list dest_info_t;
  halted : bool;
  timeout : option timeval;
  sendtimer : option timeval;
  count : Z;
  done_count : Z;
  ident : Z;
  opts : opt_t;
  total_probes : Z;
  last_probe : option (Z * Z)
}.

Definition set_ready (o : probe_list_t) (v : list dest_info_t) : probe_list_t :=
  {| sockets := sockets o; pending := pending o; ready := v; outstanding := outstanding o;
     done_ := done_ o; lost := lost o; halted := halted o; timeout := timeout o; sendtimer
     := sendtimer o; count := count o; done_count := done_count o; ident := ident o; opts :=
     opts o; total_probes := total_probes o; last_probe := last_probe o |}.
Definition set_outstanding (o : probe_list_t) (v : list dest_info_t) : probe_list_t :=
  {| sockets := sockets o; pending := pending o; ready := ready o; outstanding := v; done_
     := done_ o; lost := lost o; halted := halted o; timeout := timeout o; sendtimer :=
     sendtimer o; count := count o; done_count := done_count o; ident := ident o; opts :=
     opts o; total_probes := total_probes o; last_probe := last_probe o |}.
Definition set_done (o : probe_list_t) (v : list dest_info_t) : probe_list_t :=
  {| sockets := sockets o; pending := pending o; ready := ready o; outstanding :=
     outstanding o; done_ := v; lost := lost o; halted := halted o; timeout := timeout o;
     sendtimer := sendtimer o; count := count o; done_count := done_count o; ident := ident
     o; opts := opts o; total_probes := total_probes o; last_probe := last_probe o |}.
Definition set_lost (o : probe_list_t) (v : list dest_info_t) : probe_list_t :=
  {| sockets := sockets o; pending := pending o; ready := ready o; outstanding :=
     outstanding o; done_ := done_ o; lost := v; halted := halted o; timeout := timeout o;
     sendtimer := sendtimer o; count := count o; done_count := done_count o; ident := ident
     o; opts := opts o; total_probes := total_probes o; last_probe := last_probe o |}.
Definition set_halted (o : probe_list_t) (v : bool) : probe_list_t :=
  {| sockets := sockets o; pending := pending o; ready := ready o; outstanding :=
     outstanding o; done_ := done_ o; lost := lost o; halted := v; timeout := timeout o;
     sendtimer := sendtimer o; count := count o; done_count := done_count o; ident := ident
     o; opts := opts o; total_probes := total_probes o; last_probe := last_probe o |}.
Definition set_timeout (o : probe_list_t) (v : option timeval) : probe_list_t :=
  {| sockets := sockets o; pending := pending o; ready := ready o; outstanding :=
     outstanding o; done_ := done_ o; lost := lost o; halted := halted o; timeout := v;
     sendtimer := sendtimer o; count := count o; done_count := done_count o; ident := ident
     o; opts := opts o; total_probes := total_probes o; last_probe := last_probe o |}.
Definition set_sendtimer (o : probe_list_t) (v : option timeval) : probe_list_t :=
  {| sockets := sockets o; pending := pending o; ready := ready o; outstanding :=
     outstanding o; done_ := done_ o; lost := lost o; halted := halted o; timeout := timeout
     o; sendtimer := v; count := count o; done_count := done_count o; ident := ident o; opts
     := opts o; total_probes := total_probes o; last_probe := last_probe o |}.
Definition set_done_count (o : probe_list_t) (v : Z) : probe_list_t :=
  {| sockets := sockets o; pending := pending o; ready := ready o; outstanding :=
     outstanding o; done_ := done_ o; lost := lost o; halted := halted o; timeout := timeout
     o; sendtimer := sendtimer o; count := count o; done_count := v; ident := ident o; opts
     := opts o; total_probes := total_probes o; last_probe := last_probe o |}.
Definition set_total_probes (o : probe_list_t) (v : Z) : probe_list_t :=
  {| sockets := sockets o; pending := pending o; ready := ready o; outstanding :=
     outstanding o; done_ := done_ o; lost := lost o; halted := halted o; timeout := timeout
     o; sendtimer := sendtimer o; count := count o; done_count := done_count o; ident :=
     ident o; opts := opts o; total_probes := v; last_probe := last_probe o |}.
Definition set_last_probe (o : probe_list_t) (v : option (Z * Z)) : probe_list_t :=
  {| sockets := sockets o; pending := pending o; ready := ready o; outstanding :=
     outstanding o; done_ := done_ o; lost := lost o; halted := halted o; timeout := timeout
     o; sendtimer := sendtimer o; count := count o; done_count := done_count o; ident :=
     ident o; opts := opts o; total_probes := total_probes o; last_probe := v |}.
Definition set_pending (o : probe_list_t) (v : list dest_info_t) : probe_list_t :=
  {| sockets := sockets o; pending := v; ready := ready o; outstanding := outstanding o;
     done_ := done_ o; lost := lost o; halted := halted o; timeout := timeout o; sendtimer
     := sendtimer o; count := count o; done_count := done_count o; ident := ident o; opts :=
     opts o; total_probes := total_probes o; last_probe := last_probe o |}.

(** Update of one hop of an item; the index is a C array index. *)
Definition upd_hop (item : dest_info_t) (i : Z) (f : hop_info_t -> hop_info_t) : res dest_info_t :=
  h ← rd (hop item) i; hops ← wr (hop item) i (f h); Ok (set_hop item hops).

(** ** Probes *)

(** build_ipv4_probe(): [packet] is a zeroed buffer of [packet_size] bytes. *)
Definition build_ipv4_probe (packet : list Z) (packet_size dscp id ttl ident : Z) (d : dest)
    : res (list Z * Z) :=
  _ ← c_assert (packet_size >=? MIN_TRACEROUTE_PROBE_LEN);
  match ai_addr d with
  | None => Fault NullDeref
  | Some (SockIn daddr) =>
      Ok ([69; u8 dscp] ++ le16 (htons packet_size) ++ le16 (htons id) ++ [0; 0]
          ++ [u8 ttl; IPPROTO_UDP; 0; 0] ++ [0; 0; 0; 0] ++ in_addr_bytes daddr
          ++ le16 (htons ident) ++ le16 (htons TRACEROUTE_DEST_PORT)
          ++ le16 (htons (packet_size - 20)) ++ drop 26 packet, packet_size)
  | Some _ => Fault OutOfBounds (* not a sockaddr_in *)
  end.

(** build_ipv6_probe(): the body of the datagram. *)
Definition build_ipv6_probe (packet : list Z) (packet_size id ident : Z) : list Z * Z :=
  (le16 (htons id) ++ le16 (htons ident) ++ drop 4 packet, packet_size).

(** What the system calls of send_probe() answer: setsockopt(IPV6_UNICAST_HOPS),
    and the loop around delay_send_packet() on a socket: whether the packet was
    sent, and the time it left in its [sent] argument. *)
Record net : Set := { hops_ok : bool; transmit : Z -> list Z -> bool * timeval }.

(** The loop over the first hops when a probe could not be sent. *)
Fixpoint clear_hops (n : nat) (hops : list hop_info_t) : list hop_info_t :=
  match n, hops with
  | S n, h :: hops => set_hop_addr h None :: clear_hops n hops
  | _, _ => hops
  end.

Definition send_probe (s : socket_t) (ident : Z) (o : opt_t) (n : net) (info : dest_info_t)
    : res (Z * dest_info_t) :=
  match ai_addr (addr info) with
  | None => Ok (-1, info)
  | Some _ =>
      let packet := replicate (Z.to_nat (packet_size o)) 0 in
      let id := u16 (Z.shiftl (ttl info) 10 + id info) in
      let family := ai_family (addr info) in
      if negb (family =? AF_INET) && negb (family =? AF_INET6) then Ok (-1, info)
      else if (family =? AF_INET6) && negb (hops_ok n) then Ok (-1, info)
      else
        probe ← (if family =? AF_INET
                 then build_ipv4_probe packet (packet_size o) (dscp o) id (ttl info) ident (addr info)
                 else Ok (build_ipv6_probe packet (packet_size o) id ident));
        let sock := if family =? AF_INET then socket s else socket6 s in
        _ ← c_assert (sock >? 0);
        _ ← c_assert (snd probe >? 0);
        let '(sent_ok, sent) := transmit n sock (fst probe) in
        info ← upd_hop info (ttl info - 1) (fun h => set_time_sent h sent);
        let info := set_probes info (u32 (probes info + 1)) in
        if sent_ok then Ok (0, info)
        else
          let info := set_path_length (set_done_forward info true) TRACEROUTE_NO_REPLY_LIMIT in
          Ok (-1, set_hop info (clear_hops (Z.to_nat TRACEROUTE_NO_REPLY_LIMIT) (hop info)))
  end.

(** ** Received packets *)

(** get_index(): [embedded] is the offset of the quoted packet. *)
Definition check_index (index ident want_ident count : Z) : Z :=
  if negb (ident =? want_ident) then -1
  else if Z.land index 1023 >=? count then
    if Z.land (ntohs index) 1023 <? count then ntohs index else -1
  else index.

Definition get_index (family : Z) (packet : list Z) (embedded want_ident count : Z) : res Z :=
  if family =? AF_INET then
    protocol ← rd packet (embedded + 9);
    if negb (protocol =? IPPROTO_UDP) then Ok (-1)
    else
      b0 ← rd packet embedded;
      index ← rd16 packet (embedded + 4);
      ident ← rd16 packet (embedded + ip_ihl b0 * 4);
      Ok (check_index (ntohs index) (ntohs ident) want_ident count)
  else if family =? AF_INET6 then
    let udp := embedded + IP6HDR in
    nxt ← rd packet (embedded + 6);
    frag ← (if nxt =? IPPROTO_FRAGMENT then nxt ← rd packet udp; Ok (nxt, udp + 8)
            else Ok (nxt, udp));
    if negb (fst frag =? IPPROTO_UDP) then Ok (-1)
    else
      index ← rd16 packet (snd frag + UDPHDR);
      ident ← rd16 packet (snd frag + UDPHDR + 2);
      Ok (check_index (ntohs index) (ntohs ident) want_ident count)
  else Ok (-1).

Definition get_embedded_ipv4_packet (packet : list Z) : res (option Z) :=
  b0 ← rd packet 0;
  _ ← c_assert (ip_version b0 =? 4);
  _ ← c_assert (ip_ihl b0 >=? 5);
  tot_len ← rd16 packet 2;
  if ntohs tot_len <? ip_ihl b0 * 4 + ICMPHDR + IPHDR + UDPHDR then Ok None
  else
    let embedded_ip := ip_ihl b0 * 4 + ICMPHDR in
    protocol ← rd packet (embedded_ip + 9);
    Ok (if negb (protocol =? IPPROTO_UDP) then None else Some embedded_ip).

Definition get_embedded_ipv6_packet (packet : list Z) : res (option Z) :=
  type ← rd packet 0;
  Ok (if negb (type =? ICMP6_DST_UNREACH) && negb (type =? ICMP6_TIME_EXCEEDED) then None
      else Some ICMPHDR).

Definition get_embedded_packet (family : Z) (packet : list Z) : res (option Z) :=
  if family =? AF_INET then get_embedded_ipv4_packet packet
  else if family =? AF_INET6 then get_embedded_ipv6_packet packet
  else Ok None.

Definition get_icmp_code (family : Z) (packet : list Z) : res Z :=
  if family =? AF_INET then b0 ← rd packet 0; rd packet (ip_ihl b0 * 4 + 1)
  else if family =? AF_INET6 then rd packet 1
  else Ok (-1).

Definition get_icmp_type (family : Z) (packet : list Z) : res Z :=
  if family =? AF_INET then b0 ← rd packet 0; rd packet (ip_ihl b0 * 4)
  else if family =? AF_INET6 then rd packet 0
  else Ok (-1).

Definition get_ttl (family : Z) (packet : list Z) (off : Z) : res Z :=
  if family =? AF_INET then rd packet (off + 8)
  else if family =? AF_INET6 then rd packet (off + 7)
  else Ok (-1).

Definition get_embedded_ttl (family : Z) (packet : list Z) : res Z :=
  embedded ← get_embedded_packet family packet;
  match embedded with None => Ok (-1) | Some off => get_ttl family packet off end.

Definition unexpected_error (family type : Z) : bool :=
  if family =? AF_INET then negb (type =? ICMP_TIME_EXCEEDED) && negb (type =? ICMP_DEST_UNREACH)
  else if family =? AF_INET6 then
    negb (type =? ICMP6_TIME_EXCEEDED) && negb (type =? ICMP6_DST_UNREACH)
  else false.

Definition terminal_error (family type code : Z) : Z :=
  if family =? AF_INET then
    if negb (type =? ICMP_PARAMETERPROB) && negb (type =? ICMP_DEST_UNREACH) then 0
    else if (type =? ICMP_DEST_UNREACH) && (code =? ICMP_PORT_UNREACH) then 1 else 2
  else if family =? AF_INET6 then
    if negb (type =? ICMP6_PARAM_PROB) && negb (type =? ICMP6_DST_UNREACH) then 0
    else if (type =? ICMP6_DST_UNREACH) && (code =? ICMP6_DST_UNREACH_NOPORT) then 1 else 2
  else 2.

(** ** Choosing the next TTL *)

(** The loop of inc_probe_ttl() over hops that already timed out.  Each round
    moves to the next of the 30 hops, so 32 rounds are enough. *)
Definition SKIP_FUEL : nat := 32.
Fixpoint skip_timed_out (fuel : nat) (item : dest_info_t) : res dest_info_t :=
  match fuel with
  | O => Fault OutOfFuel
  | S fuel =>
      h ← rd (hop item) (ttl item - 1);
      if bool_decide (reply h = REPLY_TIMED_OUT) then
        let item := set_no_reply_count item (u8 (no_reply_count item + 1)) in
        if no_reply_count item >=? TRACEROUTE_NO_REPLY_LIMIT then Ok item
        else skip_timed_out fuel (set_ttl item (i8 (ttl item + 1)))
      else Ok item
  end.

Definition inc_probe_ttl (item : dest_info_t) : res dest_info_t :=
  _ ← c_assert (ttl item <? MAX_HOPS_IN_PATH);
  item ← (if (attempts item >? TRACEROUTE_RETRY_LIMIT) && (first_response item =? 0) then
            Ok (set_no_reply_count (set_ttl item (Z.quot (ttl item) 2)) 0)
          else if negb (done_forward item) then
            skip_timed_out SKIP_FUEL (set_ttl item (i8 (ttl item + 1)))
          else Ok (set_ttl item (i8 (ttl item - 1))));
  Ok (set_attempts item 0).

(** The end of forward probing. *)
Definition start_backwards (item : dest_info_t) : dest_info_t :=
  set_no_reply_count (set_attempts (set_ttl item (i8 (first_response item - 1))) 0) 0.

Definition inc_attempt_counter (info : dest_info_t) : res (Z * dest_info_t) :=
  let info := set_attempts info (u8 (attempts info + 1)) in
  if attempts info <=? TRACEROUTE_RETRY_LIMIT then Ok (1, info)
  else
    info ← upd_hop info (ttl info - 1)
             (fun h => set_reply (set_hop_addr h None) REPLY_TIMED_OUT);
    let info := if negb (done_forward info)
                then set_no_reply_count info (u8 (no_reply_count info + 1)) else info in
    info ← (if (no_reply_count info <? TRACEROUTE_NO_REPLY_LIMIT)
               && (ttl info <? MAX_HOPS_IN_PATH) then inc_probe_ttl info else Ok info);
    let info :=
      if negb (done_forward info)
         && ((no_reply_count info >=? TRACEROUTE_NO_REPLY_LIMIT) || (ttl info >=? MAX_HOPS_IN_PATH))
      then start_backwards (set_path_length (set_done_forward info true) (u8 (ttl info)))
      else info in
    Ok (ttl info, info).

(** ** Responses *)

(** What becomes of an item once its response is dealt with: it goes to the
    ready list, to the done list, or to no list. *)
Inductive action : Set := Again | Finished | Dropped.
#[export] Instance action_eq_dec : EqDecision action.
Proof. solve_decision. Defined.

(** process_packet(), "we've hit the destination on the first go so need the
    real ttl": the TTL the response is for, or None when it is bogus. *)
Definition real_ttl (family : Z) (packet : list Z) (te t : Z) (item : dest_info_t)
    : res (option Z * dest_info_t) :=
  if negb (te =? 0) && (ttl item =? first_ttl item) then
    embedded ← get_embedded_ttl family packet;
    let t := first_ttl item - embedded + 1 in
    if (t <? 0) || (t >? MAX_HOPS_IN_PATH) then Ok (None, set_path_length item 0)
    else
      let item := set_ttl item (i8 t) in
      first ← rd (hop item) (first_ttl item - 1);
      item ← upd_hop item (t - 1) (fun h => set_time_sent h (time_sent first));
      Ok (Some t, item)
  else Ok (Some t, item).

(** The delay of the hop, unless it has one. *)
Definition record_delay (now : timeval) (h : hop_info_t) : hop_info_t :=
  if delay h =? 0 then
    let d := DIFF_TV_US now (time_sent h) in set_delay h (if d >? 0 then u32 d else 0)
  else h.

(** Errors that say nothing about a hop of the path. *)
Definition respond_error (te type code : Z) (item : dest_info_t) : res (action * dest_info_t) :=
  let item := set_err_code (set_err_type item (u8 type)) (u8 code) in
  r ← (if te =? 0 then inc_attempt_counter item else Ok (0, item));
  let '(retry, item) := r in
  if negb (retry =? 0) then Ok (Again, item)
  else
    let item := set_path_length item (u8 (ttl item - no_reply_count item - 1)) in
    let item := set_ttl (set_done_forward item true) (i8 (first_response item - 1)) in
    if ttl item =? 0 then Ok (Finished, item)
    else Ok (Again, set_no_reply_count (set_attempts item 0) 0).

(** A response from the end of the path, or from the last hop we probe. *)
Definition respond_end (te type code : Z) (item : dest_info_t) : action * dest_info_t :=
  let item := set_path_length item (u8 (ttl item)) in
  let item :=
    if done_forward item && (te =? 1) then set_ttl item (i8 (ttl item - 1))
    else
      let item := set_ttl (set_done_forward item true) (i8 (first_response item - 1)) in
      if te =? 2 then set_err_code (set_err_type item (u8 type)) (u8 code) else item in
  if ttl item =? 0 then (Finished, item)
  else (Again, set_no_reply_count (set_attempts item 0) 0).

(** Where to probe next, once the hop is recorded. *)
Definition respond_hop (te type code t : Z) (item : dest_info_t) : res (action * dest_info_t) :=
  if done_forward item && (ttl item =? 1) then Ok (Finished, item)
  else if negb (te =? 0) || (ttl item >=? MAX_HOPS_IN_PATH)
  then Ok (respond_end te type code item)
  else
    h ← rd (hop item) (t - 1);
    if delay h <? LOSS_TIMEOUT_US then
      item ← inc_probe_ttl (set_attempts (set_no_reply_count item 0) 0);
      Ok (if ttl item <? 1 then Finished else Again, item)
    else Ok (Dropped, item).

(** process_packet() from the item that was found: the response of [type] and
    [code] to its probe with TTL [t], from [from]. *)
Definition respond (from : sockaddr) (packet : list Z) (now : timeval) (t type code : Z)
    (item : dest_info_t) : res (action * dest_info_t) :=
  let family := sa_family from in
  let te := terminal_error family type code in
  r ← real_ttl family packet te t item;
  match r with
  | (None, item) => Ok (Finished, item)
  | (Some t, item) =>
      let item := if first_response item =? 0 then set_first_response item (i8 t) else item in
      item ← upd_hop item (t - 1) (record_delay now);
      if unexpected_error family type
         || ((te =? 1) && negb (compare_addresses (ai_addr (addr item)) (Some from) 0 =? 0))
      then respond_error te type code item
      else
        item ← upd_hop item (t - 1) (fun h => set_hop_addr (set_reply h REPLY_OK) (Some from));
        respond_hop te type code t item
  end.

(** ** The lists *)

Definition append_ready_item (pl : probe_list_t) (item : dest_info_t) : Z * probe_list_t :=
  (match ready pl with [] => 1 | _ => 0 end, set_ready pl (ready pl ++ [item])).

Definition enqueue_next_pending (pl : probe_list_t) : Z * probe_list_t :=
  match pending pl with
  | next :: rest => append_ready_item (set_pending pl rest) next
  | [] => (0, pl)
  end.

Definition set_done_item (pl : probe_list_t) (item : dest_info_t) : probe_list_t :=
  set_done_count (set_done pl (set_done_forward item true :: done_ pl)) (u32 (done_count pl + 1)).

(** The search of find_outstanding_item(): the item and the list without it. *)
Fixpoint find_item (index t : Z) (l : list dest_info_t) : option (dest_info_t * list dest_info_t) :=
  match l with
  | [] => None
  | item :: l' =>
      if (id item =? index) && (ttl item =? t) then Some (item, l')
      else match find_item index t l' with
           | Some (found, rest) => Some (found, item :: rest)
           | None => None
           end
  end.
Definition find_outstanding_item (pl : probe_list_t) (index t : Z)
    : option dest_info_t * probe_list_t :=
  match find_item index t (outstanding pl) with
  | Some (item, rest) => (Some item, set_outstanding pl rest)
  | None => (None, pl)
  end.

(** The index and TTL, type and code of a packet that answers one of our probes. *)
Definition read_response (family : Z) (packet : list Z) (pl : probe_list_t)
    : res (option (Z * Z * Z * Z)) :=
  embedded ← get_embedded_packet family packet;
  match embedded with
  | None => Ok None
  | Some embedded =>
      index ← get_index family packet embedded (ident pl) (count pl);
      if index <? 0 then Ok None
      else
        type ← get_icmp_type family packet;
        code ← get_icmp_code family packet;
        Ok (Some (Z.land index 1023, Z.shiftr index 10, type, code))
  end.

Definition finish_item (pl : probe_list_t) (item : dest_info_t) : Z * probe_list_t :=
  enqueue_next_pending (set_done_item pl item).

Definition process_packet (from : sockaddr) (packet : list Z) (now : timeval) (pl : probe_list_t)
    : res (Z * probe_list_t) :=
  r ← read_response (sa_family from) packet pl;
  match r with
  | None => Ok (-1, pl)
  | Some (index, t, type, code) =>
      match find_outstanding_item pl index t with
      | (None, pl) => Ok (-1, pl)
      | (Some item, pl) =>
          a ← respond from packet now t type code item;
          match a with
          | (Again, item) => Ok (append_ready_item pl item)
          | (Finished, item) => Ok (finish_item pl item)
          | (Dropped, item) => Ok (0, set_lost pl (item :: lost pl))
          end
      end
  end.

(** ** Timers *)

Definition S_FROM_US (x : Z) : Z := i32 (Z.quot x 1000000).
Definition US_FROM_US (x : Z) : Z := Z.rem x 1000000.

Definition get_next_send_time (last : option timeval) (delay : Z) (now : timeval) : timeval :=
  match last with
  | Some last =>
      let diff := DIFF_TV_US now last in
      if diff <? delay then Tv (S_FROM_US (delay - diff)) (US_FROM_US (delay - diff)) else Tv 0 0
  | None => Tv 0 0
  end.

Definition get_next_timeout_time (next : timeval) (delay : Z) (now : timeval) : timeval :=
  let diff := i64 (DIFF_TV_US next now + delay) in
  let delay := if diff <? 0 then 0 else u32 diff in
  Tv (S_FROM_US delay) (US_FROM_US delay).

(** All the items that are allocated. *)
Definition all_items (pl : probe_list_t) : list dest_info_t :=
  pending pl ++ ready pl ++ outstanding pl ++ done_ pl ++ lost pl.

(** The time a [last_probe] pointer points at. *)
Definition deref_sent (pl : probe_list_t) (p : Z * Z) : res timeval :=
  match filter (fun item => id item = fst p) (all_items pl) with
  | item :: _ => h ← rd (hop item) (snd p); Ok (time_sent h)
  | [] => Fault UseAfterFree
  end.

(** event_new() and event_add() of the send timer. *)
Definition arm_sendtimer (pl : probe_list_t) (now : timeval) : res probe_list_t :=
  _ ← c_assert (match sendtimer pl with None => true | Some _ => false end);
  last ← match last_probe pl with
         | Some p => t ← deref_sent pl p; Ok (Some t)
         | None => Ok None
         end;
  Ok (set_sendtimer pl (Some (get_next_send_time last (inter_packet_delay (opts pl)) now))).

(** The loss timer of the item that has been outstanding longest. *)
Definition arm_timeout (pl : probe_list_t) (item : dest_info_t) (now : timeval) : res probe_list_t :=
  h ← rd (hop item) (ttl item - 1);
  Ok (set_timeout pl (Some (get_next_timeout_time (time_sent h) LOSS_TIMEOUT_US now))).

(** ** Callbacks *)

(** A probe that was sent joins the outstanding list. *)
Definition add_outstanding (pl : probe_list_t) (item : dest_info_t) : probe_list_t :=
  let pl := set_total_probes (set_last_probe pl (Some (id item, ttl item - 1)))
                             (i32 (total_probes pl + 1)) in
  match outstanding pl with
  | [] => set_timeout (set_outstanding pl [item]) (Some (Tv LOSS_TIMEOUT 0))
  | l => set_outstanding pl (l ++ [item])
  end.

Definition send_probe_callback (pl : probe_list_t) (n : net) (now : timeval) : res probe_list_t :=
  let pl := set_sendtimer pl None in
  match ready pl with
  | [] => Ok pl
  | item :: rest =>
      let pl := set_ready pl rest in
      s ← send_probe (sockets pl) (ident pl) (opts pl) n item;
      let '(sent, item) := s in
      let pl := if sent <? 0 then snd (finish_item pl item) else add_outstanding pl item in
      if (sent <? 0) && bool_decide (outstanding pl = []) && bool_decide (ready pl = [])
      then Ok (set_halted pl true)
      else match ready pl with
           | [] => Ok pl
           | _ => arm_sendtimer pl now
           end
  end.

(** recv_probe_callback(): [received] is what get_packet() read, if it did. *)
Definition recv_probe_callback (pl : probe_list_t)
    (received : option (sockaddr * list Z * timeval)) (now : timeval) : res probe_list_t :=
  match received with
  | None => Ok pl
  | Some (from, packet, stamp) =>
      let first := id <$> head (outstanding pl) in
      r ← process_packet from packet stamp pl;
      pl ← (if fst r >? 0 then arm_sendtimer (snd r) now else Ok (snd r));
      match outstanding pl with
      | [] =>
          let pl := set_timeout pl None in
          Ok (if bool_decide (ready pl = []) then set_halted pl true else pl)
      | item :: _ =>
          if bool_decide (first = Some (id item)) then Ok pl
          else arm_timeout pl item now
      end
  end.

Definition probe_timeout_callback (pl : probe_list_t) (now : timeval) : res probe_list_t :=
  match outstanding pl with
  | [] => Fault AssertFail
  | item :: rest =>
      let pl := set_outstanding (set_timeout pl None) rest in
      r ← inc_attempt_counter item;
      let '(retry, item) := r in
      let pl := if negb (retry =? 0) then snd (append_ready_item pl item)
                else snd (finish_item pl item) in
      pl ← (match sendtimer pl, ready pl with
            | None, _ :: _ => arm_sendtimer pl now
            | _, _ => Ok pl
            end);
      match outstanding pl with
      | item :: _ => arm_timeout pl item now
      | [] => Ok (if bool_decide (ready pl = []) then set_halted pl true else pl)
      end
  end.

(** ** Start, report and clean up *)

Definition new_hop : hop_info_t :=
  {| time_sent := Tv 0 0; as_ := 0; delay := 0; reply := REPLY_UNKNOWN; hop_addr := None |}.

(** [r] is random(); the division by RAND_MAX + 1.0 is exact in a double. *)
Definition new_item (d : dest) (i r : Z) : dest_info_t :=
  let t := MIN_INITIAL_TTL + (MAX_INITIAL_TTL - MIN_INITIAL_TTL) * r / 2147483648 in
  {| addr := d; id := i; probes := 0; first_response := 0; ttl := t; first_ttl := t;
     path_length := 0; done_forward := false; attempts := 0; no_reply_count := 0;
     err_type := 0; err_code := 0; hop := replicate 30 new_hop |}.

(** The loop of run_traceroute() that puts the destinations into the lists. *)
Fixpoint add_items (dests : list (dest * Z)) (i window : Z) (pl : probe_list_t) : probe_list_t :=
  match dests with
  | [] => pl
  | (d, r) :: dests =>
      let item := new_item d i r in
      if negb (window =? 0)
      then add_items dests (i + 1) (window - 1) (snd (append_ready_item pl item))
      else add_items dests (i + 1) window (set_pending pl (item :: pending pl))
  end.

(** run_traceroute() up to event_base_dispatch(); [usec] is the current time. *)
Definition make_ident (usec : Z) : Z :=
  let ident := u16 usec in if ident <? 9000 then u16 (ident + 9000) else ident.
Definition start_traceroute (s : socket_t) (o : opt_t) (window usec : Z) (dests : list (dest * Z))
    : probe_list_t :=
  add_items dests 0 window
    {| sockets := s; pending := []; ready := []; outstanding := []; done_ := []; lost := [];
       halted := false; timeout := None; sendtimer := Some (Tv 0 0);
       count := Z.of_nat (length dests); done_count := 0; ident := make_ident usec; opts := o;
       total_probes := 0; last_probe := None |}.

(** report_destination(): a hop and the fields set for a path. *)
Record report_hop : Set := { r_address : option (list Z); r_rtt : option Z; r_asn : option Z }.
Record report_item : Set := {
  r_family : Z; r_dest : option (list Z); r_error : option (Z * Z); r_path : list report_hop
}.

Definition report_hop_info (o : opt_t) (h : hop_info_t) : report_hop :=
  let address := if ip o then snd (copy_address_to_protobuf (Some <$> hop_addr h)) else None in
  {| r_address := address;
     r_rtt := match address with Some _ => Some (delay h) | None => None end;
     r_asn := if as_opt o then Some (as_ h) else None |}.

Fixpoint report_hops (o : opt_t) (info : dest_info_t) (i : Z) (n : nat) : res (list report_hop) :=
  match n with
  | O => Ok []
  | S n =>
      h ← rd (hop info) i;
      rest ← report_hops o info (i + 1) n;
      Ok (report_hop_info o h :: rest)
  end.

Definition report_destination (o : opt_t) (info : dest_info_t) : res report_item :=
  path ← report_hops o info 0 (Z.to_nat (path_length info));
  Ok {| r_family := ai_family (addr info);
        r_dest := snd (copy_address_to_protobuf (Some (ai_addr (addr info))));
        r_error := if err_type info >? 0 then Some (err_type info, err_code info) else None;
        r_path := path |}.

(** report_results(): the first [n] items of the done list; fewer fail the assert. *)
Fixpoint report_results (o : opt_t) (n : Z) (l : list dest_info_t) : res (list report_item) :=
  match l with
  | info :: l =>
      if 0 <? n then
        r ← report_destination o info;
        rest ← report_results o (n - 1) l;
        Ok (r :: rest)
      else _ ← c_assert (n =? 0); Ok []
  | [] => _ ← c_assert (n =? 0); Ok []
  end.

(** free_dest_info(): the address of a hop with a reply is dereferenced. *)
Fixpoint free_hops (hops : list hop_info_t) : res unit :=
  match hops with
  | [] => Ok tt
  | h :: hops =>
      _ ← (if bool_decide (reply h = REPLY_OK) then
             match hop_addr h with None => Fault NullDeref | Some _ => Ok tt end
           else Ok tt);
      free_hops hops
  end.
Fixpoint free_dest_info (l : list dest_info_t) : res unit :=
  match l with [] => Ok tt | item :: l => _ ← free_hops (hop item); free_dest_info l end.

(** ** Probing one path *)

(** The hops after the furthest probe have no result. *)
Definition fresh_after (k : Z) (hops : list hop_info_t) : Prop :=
  forall i h, hops !! i = Some h -> k <= Z.of_nat i -> reply h <> REPLY_TIMED_OUT.

(** Parts of the invariant that hold in every phase. *)
Record item_base (item : dest_info_t) : Prop := {
  b_hops : length (hop item) = 30%nat;
  b_first : 3 <= first_ttl item <= 7;
  b_length : 0 <= path_length item <= 30;
  b_delay : Forall (fun h => 0 <= delay h < LOSS_TIMEOUT_US) (hop item)
}.

(** An item that still has a probe to send: looking for a first response by
    halving the TTL, probing forward from it, or backward from it. *)
Record probing (item : dest_info_t) : Prop := {
  p_base : item_base item;
  p_ttl : 1 <= ttl item <= 30;
  p_attempts : 0 <= attempts item <= 2;
  p_noreply : 0 <= no_reply_count item <= 5;
  p_resp : 0 <= first_response item <= first_ttl item;
  p_halving : first_response item = 0 -> done_forward item = false;
  p_halving_ttl : first_response item = 0 -> ttl item <= first_ttl item /\ no_reply_count item = 0;
  p_back : done_forward item = true -> ttl item < first_response item /\ no_reply_count item = 0;
  p_fresh : done_forward item = false -> fresh_after (Z.max (ttl item) (first_ttl item)) (hop item)
}.

(** How many more probes the path can need. *)
Definition work (item : dest_info_t) : Z :=
  (if done_forward item then 3 * ttl item
   else if first_response item =? 0 then 400 + 3 * ttl item
   else 200 + 3 * (30 - ttl item)) + (2 - attempts item).

(** Same destination; nothing but the probing state differs. *)
Definition same_dest (a b : dest_info_t) : Prop :=
  id b = id a /\ addr b = addr a /\ first_ttl b = first_ttl a.

Lemma upd_hop_ok item i f :
  length (hop item) = 30%nat -> 0 <= i < 30 ->
  exists h, hop item !! Z.to_nat i = Some h /\
    upd_hop item i f = Ok (set_hop item (<[Z.to_nat i := f h]> (hop item))).
Proof.
  intros Hl Hi. destruct (rd_in_bounds (hop item) i) as [h Hh]; [lia|].
  exists h. split; [apply rd_Ok in Hh; naive_solver|]. unfold upd_hop. rewrite Hh. cbn.
  by rewrite wr_in by lia.
Qed.

Lemma fresh_insert k i h hops :
  fresh_after k hops -> (Z.of_nat i < k \/ reply h <> REPLY_TIMED_OUT) ->
  fresh_after k (<[i := h]> hops).
Proof.
  intros Hf Hi j h' Hj Hk. destruct (decide (i = j)) as [->|].
  - apply list_lookup_insert_Some in Hj as [(_ & <- & _)|(Hne & _)]; [|by destruct Hne].
    destruct Hi; [lia|done].
  - rewrite list_lookup_insert_ne in Hj by done. by eapply Hf.
Qed.

Lemma fresh_weaken k k' hops : fresh_after k hops -> k <= k' -> fresh_after k' hops.
Proof. intros Hf Hk i h Hi Hl. eapply Hf; [done|lia]. Qed.

Lemma skip_timed_out_ok fuel item k :
  length (hop item) = 30%nat -> fresh_after k (hop item) -> k <= 29 ->
  1 <= ttl item <= k + 1 -> 0 <= no_reply_count item <= 4 ->
  (Z.to_nat (k + 2 - ttl item) <= fuel)%nat ->
  exists t n, skip_timed_out fuel item = Ok (set_no_reply_count (set_ttl item t) n) /\
    ttl item <= t <= k + 1 /\ 0 <= n <= 5.
Proof.
  revert item. induction fuel as [|fuel IH]; intros item Hl Hf Hk Ht Hn Hfuel; [lia|]. cbn.
  destruct (rd_in_bounds (hop item) (ttl item - 1)) as [h Hh]; [lia|]. rewrite Hh. cbn.
  assert (E : item = set_no_reply_count (set_ttl item (ttl item)) (no_reply_count item))
    by (by destruct item).
  case_bool_decide as Hr.
  - rewrite u8_id by lia. unfold TRACEROUTE_NO_REPLY_LIMIT.
    assert (ttl item <> k + 1).
    { intros Heq. apply rd_Ok in Hh as [_ Hh]. apply (Hf _ _ Hh); [lia|done]. }
    destruct (Z.geb_spec (no_reply_count item + 1) 5).
    + exists (ttl item), (no_reply_count item + 1). split; [by destruct item|lia].
    + edestruct (IH (set_ttl (set_no_reply_count item (no_reply_count item + 1))
                       (i8 (ttl item + 1)))) as (t & n & -> & Ht' & Hn');
        cbn; rewrite ?i8_id by lia; try done; try lia.
      cbn in Ht'. rewrite i8_id in Ht' by lia.
      exists t, n. split; [by destruct item|lia].
  - exists (ttl item), (no_reply_count item). split; [by rewrite E at 1|lia].
Qed.
#[local] Arguments skip_timed_out : simpl never.
#[local] Opaque skip_timed_out.

Definition moves_on (item item' : dest_info_t) : Prop :=
  same_dest item item' /\ probing item' /\ work item' < work item.
Definition ends (item item' : dest_info_t) : Prop := same_dest item item' /\ item_base item'.

Lemma inc_probe_halve item :
  ttl item < 30 -> 2 < attempts item -> first_response item = 0 ->
  inc_probe_ttl item =
    Ok (set_attempts (set_no_reply_count (set_ttl item (Z.quot (ttl item) 2)) 0) 0).
Proof.
  intros Ht Ha Hr. unfold inc_probe_ttl, MAX_HOPS_IN_PATH, TRACEROUTE_RETRY_LIMIT.
  rewrite Hr. destruct (Z.ltb_spec (ttl item) 30); [|lia]. cbn.
  destruct (Z.gtb_spec (attempts item) 2); [done|lia].
Qed.

Lemma inc_probe_back item :
  1 <= ttl item < 30 -> first_response item <> 0 -> done_forward item = true ->
  inc_probe_ttl item = Ok (set_attempts (set_ttl item (ttl item - 1)) 0).
Proof.
  intros Ht Hr Hd. unfold inc_probe_ttl, MAX_HOPS_IN_PATH.
  rewrite (proj2 (Z.eqb_neq (first_response item) 0)), andb_false_r, Hd, i8_id by lia.
  destruct (Z.ltb_spec (ttl item) 30); [|lia]. cbn. by rewrite i8_id by lia.
Qed.

Lemma inc_probe_forward item :
  length (hop item) = 30%nat -> first_ttl item <= 7 ->
  1 <= ttl item < 30 -> (attempts item <= 2 \/ first_response item <> 0) ->
  done_forward item = false -> 0 <= no_reply_count item <= 4 ->
  fresh_after (Z.max (ttl item) (first_ttl item)) (hop item) ->
  exists t n, inc_probe_ttl item = Ok (set_attempts (set_no_reply_count (set_ttl item t) n) 0) /\
    ttl item < t <= 30 /\ 0 <= n <= 5.
Proof.
  intros Hl Hft Ht Ha Hd Hn Hf. unfold inc_probe_ttl, MAX_HOPS_IN_PATH, TRACEROUTE_RETRY_LIMIT.
  assert (((attempts item >? 2) && (first_response item =? 0)) = false) as ->.
  { destruct (Z.gtb_spec (attempts item) 2), (Z.eqb_spec (first_response item) 0); cbn; lia || done. }
  rewrite c_assert_true by (apply Z.ltb_lt; lia). rewrite Hd. cbv beta iota delta [negb].
  rewrite i8_id by lia.
  destruct (skip_timed_out_ok SKIP_FUEL (set_ttl item (ttl item + 1))
              (Z.max (ttl item) (first_ttl item))) as (t & n & E & Ht' & Hn');
    [done|done|lia|cbn [ttl set_ttl]; lia|done|cbn [ttl set_ttl]; unfold SKIP_FUEL; lia|].
  rewrite E, bind_Ok. cbn [ttl set_ttl] in Ht'. exists t, n. split; [done|lia].
Qed.

(** What only depends on the hops. *)
Lemma base_set_hop item i h :
  item_base item -> 0 <= delay h < LOSS_TIMEOUT_US -> item_base (set_hop item (<[i := h]> (hop item))).
Proof.
  intros [] Hh. split; cbn; try done.
  - by rewrite length_insert.
  - by apply Forall_insert.
Qed.

Lemma base_delay item i h :
  item_base item -> hop item !! i = Some h -> 0 <= delay h < LOSS_TIMEOUT_US.
Proof. intros [] H. rewrite Forall_lookup in b_delay0. by apply (b_delay0 _ _ H). Qed.

Ltac base_done := match goal with H : item_base _ |- item_base _ => destruct H; split; cbn; done || lia end.

(** Marking a hop as timed out. *)
Definition mark (h : hop_info_t) : hop_info_t := set_reply (set_hop_addr h None) REPLY_TIMED_OUT.

Lemma mark_hop item :
  probing item -> exists hops, upd_hop item (ttl item - 1) mark = Ok (set_hop item hops) /\
    item_base (set_hop item hops) /\
    (done_forward item = false -> fresh_after (Z.max (ttl item) (first_ttl item)) hops).
Proof.
  intros []. destruct (upd_hop_ok item (ttl item - 1) mark) as (h & Hh & ->); [apply p_base0|lia|].
  eexists. split_and!; [done| |].
  - apply base_set_hop; [done|]. change (delay (mark h)) with (delay h). by eapply base_delay.
  - intros Hd. apply fresh_insert; [auto|lia].
Qed.

(** Starting backward probing from the hop before the first to respond. *)
Lemma backwards_moves item item' :
  item_base item' -> same_dest item item' -> done_forward item = false ->
  0 <= attempts item <= 2 -> 1 <= ttl item <= 30 -> 1 <= first_response item' <= first_ttl item ->
  done_forward item' = true -> ttl item' = first_response item' - 1 -> ttl item' <> 0 ->
  attempts item' = 0 -> no_reply_count item' = 0 ->
  moves_on item item'.
Proof.
  intros Hb Hs Hd Ha Ht Hr Hd' Ht' Hnz Ha' Hn'. pose proof (b_first _ Hb) as Hf.
  destruct Hs as (Hi & Had & Hft). rewrite Hft in Hf. split; [done|]. split.
  - split; rewrite ?Ha', ?Hn', ?Hd', ?Hft; try done; lia.
  - unfold work. rewrite Hd, Hd', Ha', Ht'. destruct (first_response item =? 0); lia.
Qed.

(** Too many attempts at a TTL, in each of the three phases. *)
Lemma give_up_halving item hops :
  probing item -> attempts item = 2 -> first_response item = 0 ->
  item_base (set_hop item hops) -> fresh_after (Z.max (ttl item) (first_ttl item)) hops ->
  let item' := set_attempts (set_no_reply_count (set_ttl (set_hop item hops)
                 (Z.quot (ttl item) 2)) 0) 0 in
  (ttl item' <> 0 -> moves_on item item') /\ ends item item'.
Proof.
  intros [] Ha Hr Hb Hf. cbn -[Z.quot]. specialize (p_halving0 Hr). specialize (p_halving_ttl0 Hr).
  rewrite Z.quot_div_nonneg by lia. split; [|split; [done|base_done]].
  intros Hnz. split; [done|split].
  - split; cbn; try done; try base_done; try (Z.div_mod_to_equations; lia).
    + intros. split; [Z.div_mod_to_equations; lia|done].
    + intros _. eapply fresh_weaken; [exact Hf|].
      Z.div_mod_to_equations; lia.
  - unfold work. cbn. rewrite p_halving0, Hr, Ha. cbn. Z.div_mod_to_equations; lia.
Qed.

Lemma give_up_forward item hops t n :
  probing item -> first_response item <> 0 -> done_forward item = false ->
  item_base (set_hop item hops) -> fresh_after (Z.max (ttl item) (first_ttl item)) hops ->
  ttl item < t <= 30 -> 0 <= n <= 5 ->
  moves_on item (set_attempts (set_no_reply_count (set_ttl (set_hop item hops) t) n) 0).
Proof.
  intros [] Hr Hd Hb Hf Ht Hn. split; [done|split].
  - split; cbn; try done; try base_done; try lia; try congruence.
    + intros _. eapply fresh_weaken; [exact Hf|lia].
  - unfold work. cbn. rewrite Hd, (proj2 (Z.eqb_neq _ _) Hr). lia.
Qed.

Lemma give_up_back item hops :
  probing item -> done_forward item = true -> item_base (set_hop item hops) ->
  let item' := set_attempts (set_ttl (set_hop item hops) (ttl item - 1)) 0 in
  (ttl item' <> 0 -> moves_on item item') /\ ends item item'.
Proof.
  intros [] Hd Hb. cbn. destruct (p_back0 Hd) as [Hlt Hn]. split; [|split; [done|base_done]].
  intros Hnz. split; [done|split].
  - split; cbn; try done; try base_done; try lia; try congruence.
  - unfold work. cbn. rewrite Hd. lia.
Qed.

(** The outcome of dealing with one probe. *)
Definition outcome (again : bool) (item item' : dest_info_t) : Prop :=
  if again then moves_on item item' else ends item item'.

Lemma retry_moves item :
  probing item -> attempts item < 2 -> moves_on item (set_attempts item (attempts item + 1)).
Proof.
  intros [] Ha. split; [done|split].
  - split; cbn; try done; try base_done; lia.
  - unfold work. cbn. lia.
Qed.

(** The rest of inc_attempt_counter(), once the hop is marked. *)
Definition next_attempt (info : dest_info_t) : res (Z * dest_info_t) :=
  let info := if negb (done_forward info)
              then set_no_reply_count info (u8 (no_reply_count info + 1)) else info in
  info ← (if (no_reply_count info <? TRACEROUTE_NO_REPLY_LIMIT)
             && (ttl info <? MAX_HOPS_IN_PATH) then inc_probe_ttl info else Ok info);
  let info :=
    if negb (done_forward info)
       && ((no_reply_count info >=? TRACEROUTE_NO_REPLY_LIMIT) || (ttl info >=? MAX_HOPS_IN_PATH))
    then start_backwards (set_path_length (set_done_forward info true) (u8 (ttl info)))
    else info in
  Ok (ttl info, info).

Lemma inc_attempt_give_up item hops :
  attempts item = 2 ->
  upd_hop (set_attempts item 3) (ttl item - 1) mark = Ok (set_hop (set_attempts item 3) hops) ->
  inc_attempt_counter item = next_attempt (set_hop (set_attempts item 3) hops).
Proof.
  intros Ha Hm. unfold inc_attempt_counter. rewrite Ha. change (u8 (2 + 1)) with 3.
  cbn [attempts set_attempts]. change (3 <=? TRACEROUTE_RETRY_LIMIT) with false. cbv iota zeta.
  change (ttl (set_attempts item 3)) with (ttl item). unfold mark in Hm. by rewrite Hm, bind_Ok.
Qed.

Lemma next_attempt_halving item hops :
  probing item -> attempts item = 2 -> first_response item = 0 ->
  item_base (set_hop item hops) -> fresh_after (Z.max (ttl item) (first_ttl item)) hops ->
  exists x item', next_attempt (set_hop (set_attempts item 3) hops) = Ok (x, item') /\
    outcome (negb (x =? 0)) item item'.
Proof.
  intros Hp Ha Hr Hb Hf. destruct (give_up_halving _ _ Hp Ha Hr Hb Hf) as [Hm He]. destruct Hp.
  specialize (p_halving0 Hr). destruct (p_halving_ttl0 Hr) as [Hle Hn].
  pose proof (b_first _ p_base0). unfold next_attempt. cbn [done_forward set_hop set_attempts].
  rewrite p_halving0. cbn [negb no_reply_count ttl set_no_reply_count set_hop set_attempts].
  rewrite Hn. change (u8 (0 + 1)) with 1. change (1 <? TRACEROUTE_NO_REPLY_LIMIT) with true.
  rewrite (proj2 (Z.ltb_lt (ttl item) MAX_HOPS_IN_PATH)) by (unfold MAX_HOPS_IN_PATH; lia).
  cbn [andb]. rewrite inc_probe_halve, bind_Ok by (cbn; lia).
  cbn [negb done_forward no_reply_count ttl set_no_reply_count set_hop set_attempts set_ttl].
  change (0 >=? TRACEROUTE_NO_REPLY_LIMIT) with false.
  assert ((Z.quot (ttl item) 2 >=? MAX_HOPS_IN_PATH) = false) as ->.
  { rewrite Z.quot_div_nonneg by lia. unfold MAX_HOPS_IN_PATH.
    destruct (Z.geb_spec (ttl item / 2) 30); [Z.div_mod_to_equations; lia|done]. }
  rewrite andb_false_r. do 2 eexists. split; [done|].
  cbn [ttl set_attempts set_no_reply_count set_ttl set_hop] in *.
  destruct (Z.eqb_spec (Z.quot (ttl item) 2) 0); cbn [negb outcome]; [exact He|auto].
Qed.

Lemma next_attempt_back item hops :
  probing item -> attempts item = 2 -> done_forward item = true -> item_base (set_hop item hops) ->
  exists x item', next_attempt (set_hop (set_attempts item 3) hops) = Ok (x, item') /\
    outcome (negb (x =? 0)) item item'.
Proof.
  intros Hp Ha Hd Hb. destruct (give_up_back _ _ Hp Hd Hb) as [Hm He]. destruct Hp.
  destruct (p_back0 Hd) as [Hlt Hn]. pose proof (b_first _ p_base0).
  unfold next_attempt. cbn [done_forward set_hop set_attempts].
  rewrite Hd. cbn [negb no_reply_count ttl set_no_reply_count set_hop set_attempts].
  rewrite Hn. change (0 <? TRACEROUTE_NO_REPLY_LIMIT) with true.
  rewrite (proj2 (Z.ltb_lt (ttl item) MAX_HOPS_IN_PATH)) by (unfold MAX_HOPS_IN_PATH; lia).
  cbn [andb]. rewrite inc_probe_back, bind_Ok by (cbn; lia || done).
  cbn [done_forward set_hop set_attempts set_ttl]. rewrite Hd. cbn [negb andb].
  do 2 eexists. split; [done|].
  cbn [ttl set_attempts set_no_reply_count set_ttl set_hop] in *.
  destruct (Z.eqb_spec (ttl item - 1) 0); cbn [negb outcome]; [exact He|auto].
Qed.

(** Forward probing that goes no further. *)
Lemma backwards_outcome item b :
  probing item -> done_forward item = false -> item_base b -> same_dest item b ->
  first_response b = first_response item -> first_response item <> 0 -> 1 <= ttl b <= 30 ->
  let item' := start_backwards (set_path_length (set_done_forward b true) (u8 (ttl b))) in
  outcome (negb (ttl item' =? 0)) item item'.
Proof.
  intros [] Hd Hb Hs Hr Hnz Ht. cbn -[i8 u8]. pose proof (b_first _ p_base0).
  rewrite Hr, i8_id, u8_id by lia.
  destruct (Z.eqb_spec (first_response item - 1) 0); cbn [negb outcome].
  - split; [done|base_done].
  - apply backwards_moves; cbn -[i8]; rewrite ?Hr, ?i8_id by lia; try done; try lia. base_done.
Qed.

Lemma next_attempt_forward item hops :
  probing item -> attempts item = 2 -> first_response item <> 0 -> done_forward item = false ->
  item_base (set_hop item hops) -> fresh_after (Z.max (ttl item) (first_ttl item)) hops ->
  exists x item', next_attempt (set_hop (set_attempts item 3) hops) = Ok (x, item') /\
    outcome (negb (x =? 0)) item item'.
Proof.
  intros Hp Ha Hr Hd Hb Hf. pose proof Hp as []. pose proof (b_first _ p_base0).
  unfold next_attempt. cbn [done_forward set_hop set_attempts].
  rewrite Hd. cbn [negb no_reply_count ttl set_no_reply_count set_hop set_attempts].
  rewrite u8_id by lia. unfold TRACEROUTE_NO_REPLY_LIMIT, MAX_HOPS_IN_PATH.
  destruct ((no_reply_count item + 1 <? 5) && (ttl item <? 30)) eqn:Hgo.
  - apply andb_true_iff in Hgo as [?%Z.ltb_lt ?%Z.ltb_lt].
    destruct (inc_probe_forward (set_no_reply_count (set_hop (set_attempts item 3) hops)
                (no_reply_count item + 1))) as (t & n & E & Ht & Hn);
      [apply Hb|cbn; lia|cbn; lia|by right|done|cbn; lia|done|].
    cbn [ttl set_no_reply_count set_hop set_attempts] in Ht. rewrite E, bind_Ok.
    cbn [done_forward set_hop set_attempts set_ttl set_no_reply_count no_reply_count ttl].
    rewrite Hd. cbn [negb andb]. destruct ((n >=? 5) || (t >=? 30)) eqn:Hend.
    + do 2 eexists. split; [done|]. apply backwards_outcome; try done; [base_done|cbn; lia].
    + do 2 eexists. split; [done|]. cbn [ttl set_attempts set_no_reply_count set_ttl].
      destruct (Z.eqb_spec t 0); [lia|]. cbn [negb outcome].
      exact (give_up_forward item hops t n Hp Hr Hd Hb Hf Ht Hn).
  - rewrite bind_Ok. cbn [done_forward set_hop set_attempts set_ttl set_no_reply_count no_reply_count ttl].
    rewrite Hd. cbn [negb andb].
    assert (((no_reply_count item + 1 >=? 5) || (ttl item >=? 30)) = true) as ->.
    { rewrite !Z.geb_leb, !Z.leb_antisym, <- negb_andb, Hgo. done. }
    do 2 eexists. split; [done|].
    refine (backwards_outcome item (set_no_reply_count (set_hop (set_attempts item 3) hops)
              (no_reply_count item + 1)) Hp Hd _ _ _ Hr p_ttl0); [base_done|done|done].
Qed.

(** A probe that times out moves its path on, or ends it. *)
Lemma timeout_step item :
  probing item ->
  exists x item', inc_attempt_counter item = Ok (x, item') /\ outcome (negb (x =? 0)) item item'.
Proof.
  intros Hp. pose proof Hp as []. destruct (decide (attempts item < 2)).
  - unfold inc_attempt_counter. rewrite u8_id by lia. cbn [attempts set_attempts].
    unfold TRACEROUTE_RETRY_LIMIT. rewrite (proj2 (Z.leb_le _ _)) by lia.
    do 2 eexists. split; [done|]. by apply retry_moves.
  - assert (Ha : attempts item = 2) by lia.
    destruct (mark_hop item Hp) as (hops & Hm & Hb & Hf).
    assert (Hm3 : upd_hop (set_attempts item 3) (ttl item - 1) mark
                  = Ok (set_hop (set_attempts item 3) hops)).
    { unfold upd_hop in *. inv_res. cbn [hop set_attempts]. rewrite H, bind_Ok, H0, bind_Ok.
      by subst. }
    rewrite (inc_attempt_give_up _ _ Ha Hm3).
    destruct (done_forward item) eqn:Hd; [by apply next_attempt_back|].
    destruct (decide (first_response item = 0)); [apply next_attempt_halving|apply next_attempt_forward]; auto.
Qed.

(** Responses the state machine copes with: time exceeded and unreachable
    messages of the family of the target, that arrive before the probe is
    declared lost.  The first probe that reaches the end of the path must quote
    a TTL from which a distance can be computed, and a hop probed backward is
    not to answer with a terminal error other than port unreachable. *)
Record good_response (from : sockaddr) (packet : list Z) (now : timeval) (type code : Z)
    (item : dest_info_t) : Prop := {
  g_type : unexpected_error (sa_family from) type = false;
  g_from : compare_addresses (ai_addr (addr item)) (Some from) 0 = 0;
  g_first : terminal_error (sa_family from) type code <> 0 -> ttl item = first_ttl item ->
    exists e, get_embedded_ttl (sa_family from) packet = Ok e /\ 1 <= e /\ e <> first_ttl item + 1;
  g_back : done_forward item = true -> terminal_error (sa_family from) type code <> 2;
  g_time : forall h, hop item !! Z.to_nat (ttl item - 1) = Some h ->
    DIFF_TV_US now (time_sent h) < LOSS_TIMEOUT_US
}.

(** A response to a probe that was accepted: [t] is the hop it is for. *)
Record answered (item item' : dest_info_t) (te t : Z) : Prop := {
  a_same : same_dest item item';
  a_base : item_base item';
  a_ttl : ttl item' = t;
  a_range : 1 <= t <= 30;
  a_resp : first_response item' =
    if first_response item =? 0 then t else first_response item;
  a_dir : done_forward item' = done_forward item;
  a_near : t = ttl item \/ (te <> 0 /\ ttl item = first_ttl item /\ t <= first_ttl item);
  a_fresh : done_forward item = false ->
    fresh_after (Z.max (ttl item) (first_ttl item)) (hop item')
}.

Lemma real_ttl_ok from packet now type code item :
  probing item -> good_response from packet now type code item ->
  let te := terminal_error (sa_family from) type code in
  (exists item', real_ttl (sa_family from) packet te (ttl item) item = Ok (None, item') /\
     ends item item') \/
  (exists hops t h, real_ttl (sa_family from) packet te (ttl item) item
       = Ok (Some t, set_hop (set_ttl item t) hops) /\
     item_base (set_hop item hops) /\ 1 <= t <= 30 /\
     (t = ttl item \/ (te <> 0 /\ ttl item = first_ttl item /\ t <= first_ttl item)) /\
     hops !! Z.to_nat (t - 1) = Some h /\ DIFF_TV_US now (time_sent h) < LOSS_TIMEOUT_US /\
     (done_forward item = false -> fresh_after (Z.max (ttl item) (first_ttl item)) hops)).
Proof.
  intros [] [] te. pose proof (b_first _ p_base0). unfold real_ttl.
  assert (Hh : exists h, hop item !! Z.to_nat (ttl item - 1) = Some h).
  { apply lookup_lt_is_Some_2. rewrite (b_hops _ p_base0). lia. }
  destruct Hh as [h Hh].
  destruct (negb (te =? 0) && (ttl item =? first_ttl item)) eqn:Hfst.
  - apply andb_true_iff in Hfst as [Hte%negb_true_iff%Z.eqb_neq Heq%Z.eqb_eq].
    destruct (g_first0 Hte Heq) as (e & -> & He & Hne). rewrite bind_Ok. unfold MAX_HOPS_IN_PATH.
    destruct (Z.ltb_spec (first_ttl item - e + 1) 0); cbn [orb].
    { left. eexists. split; [done|]. split; [done|base_done]. }
    destruct (Z.gtb_spec (first_ttl item - e + 1) 30); [lia|]. right.
    rewrite i8_id by lia. set (t := first_ttl item - e + 1) in *. cbn [hop set_ttl first_ttl].
    rewrite (proj2 (rd_Ok (hop item) (first_ttl item - 1) h)), bind_Ok
      by (rewrite <- Heq; split; [lia|done]).
    destruct (upd_hop_ok (set_ttl item t) (t - 1) (fun h' => set_time_sent h' (time_sent h)))
      as (h' & Hh' & ->); [apply p_base0|lia|]. cbn [hop set_ttl] in Hh'. rewrite bind_Ok.
    eexists _, t, _. split; [done|].
    split_and!; [|lia|lia|right; split_and!; [done|done|lia]|..].
    + refine (base_set_hop item _ _ p_base0 _). exact (base_delay item _ h' p_base0 Hh').
    + apply list_lookup_insert_eq. by apply lookup_lt_Some in Hh'.
    + exact (g_time0 h Hh).
    + intros Hd. apply fresh_insert; [exact (p_fresh0 Hd)|]. left. lia.
  - right. exists (hop item), (ttl item), h. split; [by destruct item|].
    split_and!; auto; try lia. by destruct item.
Qed.

Lemma record_delay_range now h :
  0 <= delay h < LOSS_TIMEOUT_US -> DIFF_TV_US now (time_sent h) < LOSS_TIMEOUT_US ->
  0 <= delay (record_delay now h) < LOSS_TIMEOUT_US.
Proof.
  intros Hd Ht. unfold record_delay. destruct (delay h =? 0); [|done]. cbn [delay set_delay].
  unfold LOSS_TIMEOUT_US, LOSS_TIMEOUT in *.
  destruct (Z.gtb_spec (DIFF_TV_US now (time_sent h)) 0); [|lia]. rewrite u32_id; lia.
Qed.

(** A good response ends the path because its TTL is bogus, or it is recorded
    and the next TTL is chosen. *)
Lemma respond_good from packet now type code item :
  probing item -> good_response from packet now type code item ->
  let te := terminal_error (sa_family from) type code in
  (exists item', respond from packet now (ttl item) type code item = Ok (Finished, item') /\
     ends item item') \/
  (exists t item', respond from packet now (ttl item) type code item
       = respond_hop te type code t item' /\ answered item item' te t).
Proof.
  intros Hp Hg te. subst te. unfold respond. cbv zeta.
  destruct (real_ttl_ok _ _ _ _ _ _ Hp Hg) as [(item' & -> & He)|
    (hops & t & h & -> & Hb & Ht & Hnear & Hh & Hd & Hf)]; rewrite bind_Ok.
  { left. by eexists. }
  right. destruct Hp, Hg. exists t.
  set (i1 := if first_response (set_hop (set_ttl item t) hops) =? 0 then _ else _).
  assert (Hi1 : exists r, i1 = set_first_response (set_hop (set_ttl item t) hops) r /\
            r = if first_response item =? 0 then t else first_response item).
  { unfold i1. cbn. destruct (first_response item =? 0); eexists; (split; [|done]);
      [by rewrite i8_id by lia|by destruct item]. }
  destruct Hi1 as (r & -> & Hr).
  set (i2 := set_first_response _ r).
  assert (Hb1 : item_base i2) by base_done.
  destruct (upd_hop_ok i2 (t - 1) (record_delay now) (b_hops _ Hb1)) as (h' & Hh' & ->); [lia|].
  cbn in Hh'. rewrite Hh in Hh'. injection Hh' as <-. rewrite bind_Ok.
  change (addr (set_hop i2 _)) with (addr item). rewrite g_type0, g_from0, andb_false_r. cbn [orb].
  pose proof (base_set_hop i2 (Z.to_nat (t - 1)) _ Hb1
                (record_delay_range now h (base_delay _ _ _ Hb1 Hh) Hd)) as Hb2.
  edestruct (upd_hop_ok _ (t - 1) (fun h => set_hop_addr (set_reply h REPLY_OK) (Some from))
               (b_hops _ Hb2)) as (h2 & Hh2 & ->); [lia|]. rewrite bind_Ok.
  eexists. split; [done|]. split; try done.
  - apply base_set_hop; [done|]. change (delay _) with (delay h2). by eapply base_delay.
  - intros Hdf. apply fresh_insert; [apply fresh_insert; [exact (Hf Hdf)|left; lia]|by right].
Qed.

Section Answered.
Context (item item' : dest_info_t) (te t : Z).
Context (Hp : probing item) (Ha : answered item item' te t).

Lemma answered_resp : 1 <= first_response item' <= first_ttl item.
Proof.
  destruct Hp, Ha. rewrite a_resp0. destruct (Z.eqb_spec (first_response item) 0) as [Hz|]; [|lia].
  specialize (p_halving_ttl0 Hz). lia.
Qed.

Lemma answered_back : done_forward item = true -> t = ttl item /\ 1 <= t < 7.
Proof.
  intros Hd. destruct Hp, Ha. specialize (p_back0 Hd). pose proof (b_first _ p_base0). lia.
Qed.

(** One hop nearer, probing backward. *)
Lemma answered_nearer i' :
  done_forward item = true -> t <> 1 -> item_base i' -> same_dest item' i' ->
  first_response i' = first_response item' -> done_forward i' = true -> ttl i' = t - 1 ->
  attempts i' = 0 -> no_reply_count i' = 0 -> moves_on item i'.
Proof.
  intros Hd Ht Hb Hs Hr Hd' Ht' Ha' Hn'. destruct (answered_back Hd) as [Heq ?].
  pose proof answered_resp. destruct Hp, Ha, a_same0 as (E1 & E2 & E3), Hs as (F1 & F2 & F3).
  destruct (p_back0 Hd). split; [|split].
  - split_and!; congruence.
  - split; rewrite ?Hr, ?Hd', ?Ht', ?Ha', ?Hn'; try done; try lia.
    intros _. split; [|done]. rewrite a_resp0. destruct (Z.eqb_spec (first_response item) 0); lia.
  - unfold work. rewrite Hd, Hd', Ht', Ha'. lia.
Qed.

(** The next unprobed hop, probing forward. *)
Lemma answered_further t' n :
  done_forward item = false -> ttl item < t' <= 30 -> 0 <= n <= 5 ->
  moves_on item (set_attempts (set_no_reply_count (set_ttl item' t') n) 0).
Proof.
  intros Hd Ht' Hn. pose proof answered_resp. destruct Hp, Ha, a_same0 as (E1 & E2 & E3).
  split; [done|split].
  - split; cbn; try done; try base_done; try lia; rewrite ?a_dir0, ?Hd; try done; try lia.
    intros _. rewrite E3. eapply fresh_weaken; [exact (a_fresh0 Hd)|lia].
  - unfold work. cbn. rewrite a_dir0, Hd. destruct (Z.eqb_spec (first_response item') 0); [lia|].
    destruct (Z.eqb_spec (first_response item) 0); lia.
Qed.

Lemma respond_end_ok type code :
  (done_forward item = true -> te = 1 /\ t <> 1) ->
  let r := respond_end te type code item' in
  fst r <> Dropped /\ outcome (bool_decide (fst r = Again)) item (snd r).
Proof.
  intros Hback. pose proof answered_resp. pose proof (b_first _ (p_base _ Hp)).
  unfold respond_end. cbn [done_forward set_path_length].
  rewrite (a_dir _ _ _ _ Ha), (a_ttl _ _ _ _ Ha).
  pose proof (a_range _ _ _ _ Ha). rewrite u8_id by lia.
  destruct (done_forward item) eqn:Hd.
  - destruct (Hback eq_refl) as [Hte Ht]. cbn [andb]. rewrite Hte. change (1 =? 1) with true. cbv iota.
    cbn [ttl set_ttl set_path_length]. rewrite (a_ttl _ _ _ _ Ha), i8_id by lia.
    destruct (Z.eqb_spec (t - 1) 0); [lia|]. split; [done|]. cbn.
    apply answered_nearer; try done; [|by cbn; rewrite (a_dir _ _ _ _ Ha)].
    pose proof (a_base _ _ _ _ Ha) as Hb. base_done.
  - cbn [andb]. set (i' := if te =? 2 then _ else _).
    assert (Hi : exists ty co, i' = set_err_code (set_err_type (set_ttl (set_done_forward
               (set_path_length item' t) true) (first_response item' - 1)) ty) co).
    { unfold i'. cbn [first_response set_done_forward set_path_length]. rewrite i8_id by lia.
      destruct (te =? 2); do 2 eexists; [done|by destruct item']. }
    destruct Hi as (ty & co & ->). cbn [ttl set_err_code set_err_type set_ttl].
    pose proof (a_base _ _ _ _ Ha) as Hb.
    destruct (Z.eqb_spec (first_response item' - 1) 0); (split; [done|]); cbn.
    + split; [apply Ha|]. base_done.
    + destruct Hp. apply backwards_moves; cbn; try done; try lia; [base_done|apply Ha].
Qed.

Lemma respond_hop_ok type code :
  (done_forward item = true -> te <> 2) -> 0 <= te <= 2 ->
  exists a i', respond_hop te type code t item' = Ok (a, i') /\
    a <> Dropped /\ outcome (bool_decide (a = Again)) item i'.
Proof.
  intros Hback Hte. unfold respond_hop, MAX_HOPS_IN_PATH.
  rewrite (a_dir _ _ _ _ Ha), (a_ttl _ _ _ _ Ha). pose proof (a_base _ _ _ _ Ha) as Hb.
  destruct (done_forward item && (t =? 1)) eqn:H1.
  { do 2 eexists. split; [done|]. split; [done|]. split; [apply Ha|done]. }
  pose proof (a_range _ _ _ _ Ha) as Hr. apply andb_false_iff in H1.
  destruct (negb (te =? 0) || (t >=? 30)) eqn:H2.
  { destruct (respond_end te type code item') as [a i'] eqn:E. do 2 eexists. split; [done|].
    pose proof (respond_end_ok type code) as Hok. rewrite E in Hok. apply Hok.
    intros Hd. destruct H1 as [?|?%Z.eqb_neq]; [congruence|].
    destruct (answered_back Hd). specialize (Hback Hd).
    apply orb_true_iff in H2 as [Hz%negb_true_iff%Z.eqb_neq|?%Z.geb_le]; lia. }
  apply orb_false_iff in H2 as [Hte0%negb_false_iff%Z.eqb_eq Hlt].
  rewrite Z.geb_leb in Hlt. apply Z.leb_gt in Hlt.
  destruct (rd_in_bounds (hop item') (t - 1)) as [h Hh]; [rewrite (b_hops _ Hb); lia|].
  rewrite Hh, bind_Ok. apply rd_Ok in Hh as [_ Hh].
  rewrite (proj2 (Z.ltb_lt _ _)) by apply (base_delay _ _ _ Hb Hh).
  assert (Hnear : t = ttl item) by (destruct (a_near _ _ _ _ Ha) as [|[]]; done).
  pose proof answered_resp as Hresp. pose proof (b_first _ Hb) as Hfirst.
  pose proof (a_ttl _ _ _ _ Ha) as Htt.
  destruct (done_forward item) eqn:Hd.
  - rewrite inc_probe_back, bind_Ok by (cbn; rewrite ?Htt, ?(a_dir _ _ _ _ Ha); lia || done).
    cbn [ttl set_attempts set_ttl set_no_reply_count]. rewrite Htt.
    destruct H1 as [?|?%Z.eqb_neq]; [done|]. destruct (Z.ltb_spec (t - 1) 1); [lia|].
    do 2 eexists. split; [done|]. split; [done|]. cbn.
    apply answered_nearer; try done; [base_done|by cbn; rewrite (a_dir _ _ _ _ Ha)].
  - destruct (inc_probe_forward (set_attempts (set_no_reply_count item' 0) 0))
      as (t' & n & E & Ht' & Hn);
      [apply Hb|cbn; lia|cbn; lia|by left|cbn; by rewrite (a_dir _ _ _ _ Ha)|cbn; lia| |].
    { cbn. rewrite Htt, Hnear. destruct (a_same _ _ _ _ Ha) as (_ & _ & ->).
      exact (a_fresh _ _ _ _ Ha Hd). }
    cbn [ttl set_attempts set_no_reply_count] in Ht'. rewrite E, bind_Ok.
    cbn [ttl set_attempts set_ttl set_no_reply_count].
    destruct (Z.ltb_spec t' 1); [lia|]. do 2 eexists. split; [done|]. split; [done|]. cbn.
    refine (answered_further t' n Hd _ Hn). lia.
Qed.
End Answered.

Lemma terminal_error_range family type code : 0 <= terminal_error family type code <= 2.
Proof. unfold terminal_error. case_ifs; lia. Qed.

(** A good response moves its path on, or ends it. *)
Lemma response_step from packet now type code item :
  probing item -> good_response from packet now type code item ->
  exists a item', respond from packet now (ttl item) type code item = Ok (a, item') /\
    a <> Dropped /\ outcome (bool_decide (a = Again)) item item'.
Proof.
  intros Hp Hg. destruct (respond_good _ _ _ _ _ _ Hp Hg) as [(i' & -> & He)|(t & i' & -> & Ha)].
  { by do 2 eexists. }
  destruct (respond_hop_ok _ _ _ _ Hp Ha type code) as (a & i'' & -> & Hnd & Ho);
    [apply Hg|apply terminal_error_range|]. by do 2 eexists.
Qed.

(** ** Sending *)

(** A destination whose address is of the family it says. *)
Definition target_ok (d : dest) : Prop :=
  ai_family d = AF_INET -> ai_addr d = None \/ exists s, ai_addr d = Some (SockIn s).
Definition live (item : dest_info_t) : Prop := probing item /\ target_ok (addr item).

Record env_ok (pl : probe_list_t) : Prop := {
  e_size : MIN_TRACEROUTE_PROBE_LEN <= packet_size (opts pl);
  e_sock : 0 < socket (sockets pl);
  e_sock6 : 0 < socket6 (sockets pl)
}.

Lemma probing_sent item sent n :
  probing item -> exists hops,
    upd_hop item (ttl item - 1) (fun h => set_time_sent h sent) = Ok (set_hop item hops) /\
    probing (set_probes (set_hop item hops) n).
Proof.
  intros Hp. pose proof Hp as [].
  destruct (upd_hop_ok item (ttl item - 1) (fun h => set_time_sent h sent)) as (h & Hh & ->);
    [apply p_base0|lia|]. eexists. split; [done|].
  assert (Hb : item_base (set_hop item (<[Z.to_nat (ttl item - 1) := set_time_sent h sent]> (hop item)))).
  { refine (base_set_hop item _ _ p_base0 _). exact (base_delay _ _ _ p_base0 Hh). }
  split; cbn; try done; try base_done. intros Hd. apply fresh_insert; [auto|left; lia].
Qed.

Lemma clear_hops_base n item : item_base item -> item_base (set_hop item (clear_hops n (hop item))).
Proof.
  intros []. split; cbn; try done.
  - rewrite <- b_hops0. clear. revert n. induction (hop item) as [|h l IH]; intros [|n]; cbn; auto.
  - revert b_delay0. clear. revert n.
    induction (hop item) as [|h l IH]; intros [|n]; cbn; auto. intros [? ?]%Forall_cons.
    constructor; [done|auto].
Qed.

Lemma send_probe_ok pl n item :
  env_ok pl -> live item ->
  exists x item', send_probe (sockets pl) (ident pl) (opts pl) n item = Ok (x, item') /\
    same_dest item item' /\
    ((x = 0 /\ live item' /\ work item' = work item /\ ttl item' = ttl item) \/
     (x = -1 /\ item_base item')).
Proof.
  intros [] [Hp Hok]. unfold send_probe.
  destruct (ai_addr (addr item)) as [a|] eqn:Ea; [|by do 2 eexists; split_and!; [..|right; split; [|apply Hp]]].
  set (fam := ai_family (addr item)).
  destruct (negb (fam =? AF_INET) && negb (fam =? AF_INET6));
    [by do 2 eexists; split_and!; [..|right; split; [|apply Hp]]|].
  destruct ((fam =? AF_INET6) && negb (hops_ok n));
    [by do 2 eexists; split_and!; [..|right; split; [|apply Hp]]|].
  set (bp := if fam =? AF_INET then build_ipv4_probe _ _ _ _ _ _ _ else _).
  assert (Hbp : exists p, bp = Ok (p, packet_size (opts pl))).
  { unfold bp. destruct (Z.eqb_spec fam AF_INET) as [Hf|]; [|by eexists].
    unfold build_ipv4_probe. rewrite c_assert_true by (apply Z.geb_le; lia).
    destruct (Hok Hf) as [?|[s E]]; [congruence|]. rewrite E. by eexists. }
  destruct Hbp as [p ->]. rewrite bind_Ok. unfold MIN_TRACEROUTE_PROBE_LEN, IP6HDR, UDPHDR in *.
  rewrite c_assert_true by (case_ifs; apply Z.gtb_lt; lia).
  rewrite c_assert_true by (cbn; apply Z.gtb_lt; lia).
  destruct (transmit n _ _) as [ok sent].
  destruct (probing_sent item sent (u32 (probes item + 1)) Hp) as (hops & -> & Hp'). rewrite bind_Ok.
  destruct ok; do 2 eexists; (split; [done|]); (split; [done|]).
  - left. done.
  - right. split; [done|].
    change (hop (set_path_length _ _)) with (hop (set_probes (set_hop item hops) (u32 (probes item + 1)))).
    pose proof (clear_hops_base (Z.to_nat TRACEROUTE_NO_REPLY_LIMIT) _ (p_base _ Hp')) as Hc.
    unfold TRACEROUTE_NO_REPLY_LIMIT in *. base_done.
Qed.

(** ** The lists of destinations *)

(** Every destination is in exactly one list, or is one of [hand], the item a
    callback is working on. *)
Record core (ids : list Z) (hand : list dest_info_t) (pl : probe_list_t) : Prop := {
  c_ids : (id <$> hand) ++ (id <$> all_items pl) ≡ₚ ids;
  c_nodup : NoDup ids;
  c_small : Z.of_nat (length ids) < 4294967296;
  c_lost : lost pl = [];
  c_live : Forall live (pending pl ++ ready pl ++ outstanding pl);
  c_done : Forall item_base (done_ pl);
  c_count : done_count pl = Z.of_nat (length (done_ pl));
  c_last : forall i k, last_probe pl = Some (i, k) -> i ∈ ids /\ 0 <= k < 30;
  c_env : env_ok pl
}.

(** Work left in each list; an item that has been sent counts less than one
    that is to be sent, and that less than one that has not started. *)
Definition list_work (k : Z) (l : list dest_info_t) : Z :=
  foldr (fun item w => 2 * work item + k + w) 0 l.
Definition weight (pl : probe_list_t) : Z :=
  list_work 3 (pending pl) + list_work 2 (ready pl) + list_work 1 (outstanding pl).

Lemma list_work_app k l l' : list_work k (l ++ l') = list_work k l + list_work k l'.
Proof. induction l as [|i l IH]; cbn -[Z.mul]; [done|]. unfold list_work in *. lia. Qed.
Lemma list_work_snoc k l i : list_work k (l ++ [i]) = list_work k l + 2 * work i + k.
Proof. rewrite list_work_app. unfold list_work. cbn -[Z.mul]. lia. Qed.
Lemma list_work_cons k i l : list_work k (i :: l) = 2 * work i + k + list_work k l.
Proof. done. Qed.

Lemma work_nonneg item : probing item -> 0 <= work item.
Proof. intros []. unfold work. case_ifs; lia. Qed.
Lemma list_work_nonneg k l : 0 <= k -> Forall live l -> 0 <= list_work k l.
Proof.
  intros Hk. induction 1 as [|i l [Hi _] _ IH]; [done|]. rewrite list_work_cons.
  pose proof (work_nonneg _ Hi). lia.
Qed.

Lemma live_same item item' : live item -> same_dest item item' -> probing item' -> live item'.
Proof. intros [_ Ht] (_ & E & _) Hp. split; [done|]. by rewrite E. Qed.

Lemma core_hand ids item item' pl :
  core ids [item] pl -> same_dest item item' -> core ids [item'] pl.
Proof. intros [] (E & _ & _). split; try done. cbn in *. by rewrite E. Qed.

Ltac ids_perm :=
  unfold all_items in *; cbn in *; rewrite !fmap_app in *; cbn in *; rewrite ?fmap_app in *;
  solve_Permutation.

Lemma core_append ids item pl :
  core ids [item] pl -> live item -> core ids [] (snd (append_ready_item pl item)).
Proof.
  intros [] Hl. split; cbn; try done.
  - rewrite <- c_ids0. ids_perm.
  - rewrite !Forall_app in *. naive_solver.
  - by destruct c_env0.
Qed.

Lemma core_done ids item pl :
  core ids [item] pl -> item_base item -> core ids [] (set_done_item pl item).
Proof.
  intros [] Hb. split; cbn; try done.
  - rewrite <- c_ids0. ids_perm.
  - constructor; [base_done|done].
  - assert (Hle : (length (done_ pl) < length ids)%nat).
    { rewrite <- c_ids0. unfold all_items. rewrite !length_app, !length_fmap, !length_app. cbn. lia. }
    rewrite c_count0, u32_id by lia. lia.
  - by destruct c_env0.
Qed.

Lemma core_pending ids pl :
  core ids [] pl -> core ids [] (snd (enqueue_next_pending pl)).
Proof.
  intros Hc. unfold enqueue_next_pending. destruct (pending pl) as [|i rest] eqn:E; [done|].
  apply core_append.
  - destruct Hc. split; cbn; try done.
    + rewrite <- c_ids0. unfold all_items. cbn. rewrite E. done.
    + rewrite E in c_live0. cbn in c_live0. by apply Forall_cons in c_live0 as [? ?].
    + by destruct c_env0.
  - destruct Hc. rewrite E in c_live0. cbn in c_live0. by apply Forall_cons in c_live0 as [? ?].
Qed.

Lemma core_finish ids item pl :
  core ids [item] pl -> item_base item -> core ids [] (snd (finish_item pl item)).
Proof. intros. apply core_pending. by apply core_done. Qed.

Lemma find_item_spec index t l item rest :
  find_item index t l = Some (item, rest) ->
  id item = index /\ ttl item = t /\ exists l1 l2, l = l1 ++ item :: l2 /\ rest = l1 ++ l2.
Proof.
  revert item rest. induction l as [|i l IH]; intros item rest; cbn; [done|].
  destruct ((id i =? index) && (ttl i =? t)) eqn:E.
  - intros [= -> ->]. apply andb_true_iff in E as [->%Z.eqb_eq ->%Z.eqb_eq].
    split_and!; try done. by exists [], rest.
  - destruct (find_item index t l) as [[f r]|]; [|done]. intros [= -> <-].
    destruct (IH _ _ eq_refl) as (? & ? & l1 & l2 & -> & ->). split_and!; try done.
    by exists (i :: l1), l2.
Qed.

Lemma core_take ids pl l1 item l2 :
  core ids [] pl -> outstanding pl = l1 ++ item :: l2 ->
  core ids [item] (set_outstanding pl (l1 ++ l2)) /\ live item.
Proof.
  intros [] E. rewrite E in *. rewrite !Forall_app, Forall_cons in c_live0.
  destruct c_live0 as (? & ? & ? & ? & ?). split; [|done]. split; cbn; try done.
  - rewrite <- c_ids0. unfold all_items. rewrite E. ids_perm.
  - rewrite !Forall_app. done.
  - by destruct c_env0.
Qed.

Lemma core_take_ready ids pl item rest :
  core ids [] pl -> ready pl = item :: rest ->
  core ids [item] (set_ready pl rest) /\ live item.
Proof.
  intros [] E. rewrite E in *. rewrite !Forall_app, Forall_cons in c_live0.
  destruct c_live0 as (? & (? & ?) & ?). split; [|done]. split; cbn; try done.
  - rewrite <- c_ids0. unfold all_items. rewrite E. ids_perm.
  - rewrite !Forall_app. done.
  - by destruct c_env0.
Qed.

(** ** Timers *)

Lemma core_item_base ids pl : core ids [] pl -> Forall item_base (all_items pl).
Proof.
  intros []. unfold all_items. rewrite c_lost0, app_nil_r, !app_assoc, <- app_assoc.
  rewrite <- app_assoc in *. rewrite !app_assoc in *. apply Forall_app. split; [|done].
  eapply Forall_weaken; [exact c_live0|]. intros i [Hp _]. apply Hp.
Qed.

Lemma deref_sent_ok ids pl i k :
  core ids [] pl -> last_probe pl = Some (i, k) -> exists t, deref_sent pl (i, k) = Ok t.
Proof.
  intros Hc Hl. pose proof (core_item_base _ _ Hc) as Hb. destruct Hc.
  destruct (c_last0 _ _ Hl) as [Hi Hk]. cbn in c_ids0. rewrite <- c_ids0 in Hi.
  apply list_elem_of_fmap in Hi as (item & -> & Hi). unfold deref_sent. cbn [fst snd].
  destruct (filter _ (all_items pl)) as [|j l] eqn:E.
  - exfalso. assert (Hin : item ∈ filter (fun j => id j = id item) (all_items pl))
      by (by apply list_elem_of_filter).
    rewrite E in Hin. by apply not_elem_of_nil in Hin.
  - assert (Hj : j ∈ all_items pl).
    { eapply proj2, list_elem_of_filter. rewrite E. left. }
    rewrite Forall_forall in Hb. specialize (Hb _ Hj).
    destruct (rd_in_bounds (hop j) k) as [h ->]; [rewrite (b_hops _ Hb); lia|]. by eexists.
Qed.

Lemma arm_sendtimer_ok ids pl now :
  core ids [] pl -> sendtimer pl = None ->
  exists tv, arm_sendtimer pl now = Ok (set_sendtimer pl (Some tv)).
Proof.
  intros Hc Hs. unfold arm_sendtimer. rewrite Hs, c_assert_true by done.
  destruct (last_probe pl) as [[i k]|] eqn:El; [|by eexists].
  destruct (deref_sent_ok _ _ _ _ Hc El) as [t ->]. by eexists.
Qed.

Lemma arm_timeout_ok item pl now :
  live item -> exists tv, arm_timeout pl item now = Ok (set_timeout pl (Some tv)).
Proof.
  intros [[] _]. unfold arm_timeout.
  destruct (rd_in_bounds (hop item) (ttl item - 1)) as [h ->]; [rewrite (b_hops _ p_base0); lia|].
  by eexists.
Qed.

Lemma core_timers ids hand pl pl' :
  core ids hand pl ->
  (exists s t h, pl' = set_halted (set_timeout (set_sendtimer pl s) t) h) -> core ids hand pl'.
Proof. intros [] (s & t & h & ->). split; try done. by destruct c_env0. Qed.

(** What append_ready_item() and set_done_item() + enqueue_next_pending() do to
    the rest of the probe list. *)
Record moved (pl : probe_list_t) (r : Z * probe_list_t) : Prop := {
  m_out : outstanding (snd r) = outstanding pl;
  m_send : sendtimer (snd r) = sendtimer pl;
  m_timeout : timeout (snd r) = timeout pl;
  m_halted : halted (snd r) = halted pl;
  m_ready : ready (snd r) = [] -> ready pl = [] /\ pending (snd r) = [];
  m_fst : fst r = if bool_decide (ready pl = []) && negb (bool_decide (ready (snd r) = []))
                  then 1 else 0
}.

Lemma append_moved pl item : moved pl (append_ready_item pl item).
Proof.
  split; try done; cbn.
  - by intros [_ ?]%app_nil.
  - destruct (ready pl); cbn; done.
Qed.

Lemma finish_moved pl item : moved pl (finish_item pl item).
Proof.
  unfold finish_item, enqueue_next_pending. cbn. destruct (pending pl) as [|i rest] eqn:E.
  - split; try done; cbn.
    by destruct (ready pl).
  - destruct (append_moved (set_pending (set_done_item pl item) rest) i). by split.
Qed.

Lemma append_weight pl item :
  weight (snd (append_ready_item pl item)) = weight pl + 2 * work item + 2.
Proof. unfold weight. cbn [pending ready outstanding append_ready_item snd set_ready]. rewrite list_work_snoc. lia. Qed.

Lemma finish_weight pl item : weight (snd (finish_item pl item)) <= weight pl.
Proof.
  unfold finish_item, enqueue_next_pending. cbn [pending set_done_item set_done_count set_done].
  destruct (pending pl) as [|i rest] eqn:E; [done|]. rewrite append_weight.
  unfold weight. cbn [pending ready outstanding set_pending set_done_item set_done_count set_done].
  rewrite E, list_work_cons. lia.
Qed.

(** ** The event loop *)

Lemma settle ids pl item item' again :
  core ids [item] pl -> live item -> outcome again item item' ->
  let r := if again then append_ready_item pl item' else finish_item pl item' in
  core ids [] (snd r) /\ moved pl r /\ weight (snd r) < weight pl + 2 * work item + 1.
Proof.
  intros Hc Hl Ho. pose proof (work_nonneg _ (proj1 Hl)). destruct again; cbn [outcome] in Ho.
  - destruct Ho as (Hs & Hp & Hw). split_and!.
    + apply core_append; [by eapply core_hand|by eapply live_same].
    + apply append_moved.
    + rewrite append_weight. lia.
  - destruct Ho as [Hs Hb]. split_and!.
    + apply core_finish; [by eapply core_hand|done].
    + apply finish_moved.
    + pose proof (finish_weight pl item'). lia.
Qed.

(** The send timer runs while there is a probe to send, the loss timer while one
    is unanswered, and the loop ends when there is neither. *)
Record inv (ids : list Z) (pl : probe_list_t) : Prop := {
  v_core : core ids [] pl;
  v_send : sendtimer pl = None <-> ready pl = [];
  v_loss : timeout pl = None <-> outstanding pl = [];
  v_idle : halted pl = true <-> ready pl = [] /\ outstanding pl = [];
  v_pending : ready pl = [] -> outstanding pl = [] -> pending pl = []
}.

Lemma weight_timers pl s t h :
  weight (set_halted (set_timeout (set_sendtimer pl s) t) h) = weight pl.
Proof. done. Qed.
Lemma weight_take pl l1 item l2 :
  outstanding pl = l1 ++ item :: l2 ->
  weight pl = weight (set_outstanding pl (l1 ++ l2)) + 2 * work item + 1.
Proof.
  intros E. unfold weight. cbn [pending ready outstanding set_outstanding].
  rewrite E, !list_work_app, list_work_cons. lia.
Qed.

(** The end of a callback: the loss timer for the probes still outstanding. *)
Lemma rearm_ok ids pl now :
  core ids [] pl -> (sendtimer pl = None <-> ready pl = []) -> halted pl = false ->
  (ready pl = [] -> outstanding pl = [] -> pending pl = []) ->
  (outstanding pl = [] -> timeout pl = None) ->
  exists pl', (match outstanding pl with
               | item :: _ => arm_timeout pl item now
               | [] => Ok (if bool_decide (ready pl = []) then set_halted pl true else pl)
               end) = Ok pl' /\ inv ids pl' /\ weight pl' = weight pl.
Proof.
  intros Hc Hs Hh Hp Ht. destruct (outstanding pl) as [|item rest] eqn:Eo.
  - specialize (Ht eq_refl). eexists. split; [done|]. case_bool_decide as Er; (split; [|done]).
    + split; [eapply core_timers; [exact Hc|]; exists (sendtimer pl), (timeout pl), true; by destruct pl
             |cbn; rewrite ?Ht, ?Eo, ?Er in *; naive_solver ..].
    + split; try done; rewrite ?Ht, ?Eo, ?Hh; try done; naive_solver.
  - destruct (arm_timeout_ok item pl now) as [tv ->].
    { destruct Hc. rewrite !Forall_app, Eo, Forall_cons in c_live0. tauto. }
    eexists. split; [done|]. split; [|done]. split; cbn; try done; rewrite ?Eo, ?Hh; try done; try naive_solver.
    eapply core_timers; [exact Hc|]. exists (sendtimer pl), (Some tv), (halted pl). by destruct pl.
Qed.

(** Starting the send timer when the ready list was empty. *)
Lemma resend_ok ids pl r now :
  core ids [] (snd r) -> moved pl r -> (sendtimer pl = None <-> ready pl = []) ->
  exists pl3, (if fst r >? 0 then arm_sendtimer (snd r) now else Ok (snd r)) = Ok pl3 /\
    (match sendtimer (snd r), ready (snd r) with
     | None, _ :: _ => arm_sendtimer (snd r) now | _, _ => Ok (snd r) end) = Ok pl3 /\
    core ids [] pl3 /\ (sendtimer pl3 = None <-> ready pl3 = []) /\
    halted pl3 = halted pl /\ outstanding pl3 = outstanding pl /\ timeout pl3 = timeout pl /\
    (ready pl3 = [] -> pending pl3 = []) /\ weight pl3 = weight (snd r).
Proof.
  intros Hc [] Hs. rewrite m_fst0.
  destruct (ready (snd r)) as [|i l] eqn:Er.
  - destruct (m_ready0 eq_refl) as [E Ep]. rewrite E in *. exists (snd r).
    cbn. split; [done|]. split; [by destruct (sendtimer (snd r))|]. by rewrite Er, m_send0.
  - destruct (sendtimer pl) as [s|] eqn:Es.
    + exists (snd r). rewrite m_send0, Er. rewrite bool_decide_eq_false_2 by naive_solver. cbn.
      split_and!; done.
    + destruct (arm_sendtimer_ok ids (snd r) now Hc) as [tv Htv]; [done|].
      exists (set_sendtimer (snd r) (Some tv)). rewrite m_send0.
      rewrite bool_decide_eq_true_2 by naive_solver. rewrite bool_decide_eq_false_2 by done. cbn.
      split_and!; try done; [|by rewrite Er|by rewrite Er].
      eapply core_timers; [exact Hc|]. exists (Some tv), (timeout (snd r)), (halted (snd r)).
      by destruct (snd r).
Qed.

Lemma probe_timeout_callback_ok ids pl now :
  inv ids pl -> outstanding pl <> [] ->
  exists pl', probe_timeout_callback pl now = Ok pl' /\ inv ids pl' /\ weight pl' < weight pl.
Proof.
  intros [] Hne. unfold probe_timeout_callback.
  destruct (outstanding pl) as [|item rest] eqn:Eo; [done|].
  destruct (core_take ids pl [] item rest v_core0 Eo) as [Hc Hl]. cbn [app] in Hc.
  set (pl1 := set_outstanding (set_timeout pl None) rest).
  assert (Hc1 : core ids [item] pl1).
  { eapply core_timers; [exact Hc|]. exists (sendtimer pl), None, (halted pl). by destruct pl. }
  destruct (timeout_step item (proj1 Hl)) as (x & item' & -> & Ho). rewrite bind_Ok.
  destruct (settle _ _ _ _ _ Hc1 Hl Ho) as (Hc2 & Hm & Hw).
  assert (Hw0 : weight pl = weight pl1 + 2 * work item + 1) by exact (weight_take pl [] item rest Eo).
  replace (if negb (x =? 0) then snd (append_ready_item pl1 item') else snd (finish_item pl1 item'))
    with (snd (if negb (x =? 0) then append_ready_item pl1 item' else finish_item pl1 item'))
    by (by destruct (negb (x =? 0))).
  destruct (resend_ok ids pl1 _ now Hc2 Hm v_send0)
    as (pl3 & _ & -> & Hc3 & Hs3 & Hh3 & Ho3 & Ht3 & Hp3 & Hw3). rewrite bind_Ok.
  destruct (rearm_ok ids pl3 now) as (pl' & -> & Hinv & Hw'); try done; [|auto|].
  - rewrite Hh3. cbn. destruct (halted pl); [|done]. by destruct (proj1 v_idle0 eq_refl).
  - exists pl'. split_and!; [done|done|lia].
Qed.

(** A packet that is no response to an outstanding probe, or a good response. *)
Definition good_packet (pl : probe_list_t) (received : option (sockaddr * list Z * timeval)) : Prop :=
  match received with
  | None => True
  | Some (from, packet, stamp) =>
      exists r, read_response (sa_family from) packet pl = Ok r /\
        forall index t type code item rest,
          r = Some (index, t, type, code) ->
          find_item index t (outstanding pl) = Some (item, rest) ->
          good_response from packet stamp type code item
  end.

(** The end of recv_probe_callback(). *)
Lemma recv_rearm_ok ids pl first now :
  core ids [] pl -> (sendtimer pl = None <-> ready pl = []) -> halted pl = false ->
  (ready pl = [] -> pending pl = []) -> timeout pl <> None ->
  exists pl', (match outstanding pl with
      | [] => let pl := set_timeout pl None in
              Ok (if bool_decide (ready pl = []) then set_halted pl true else pl)
      | item :: _ => if bool_decide (first = Some (id item)) then Ok pl else arm_timeout pl item now
      end) = Ok pl' /\ inv ids pl' /\ weight pl' = weight pl.
Proof.
  intros Hc Hs Hh Hp Ht. destruct (outstanding pl) as [|item rest] eqn:Eo.
  - assert (Hc' : core ids [] (set_timeout pl None)).
    { eapply core_timers; [exact Hc|]. exists (sendtimer pl), None, (halted pl). by destruct pl. }
    destruct (rearm_ok ids (set_timeout pl None) now) as (pl' & E & Hi & Hw); try done; [auto|].
    cbn in E. rewrite Eo in E. exists pl'. split; [exact E|]. split; [done|]. by rewrite Hw.
  - case_bool_decide.
    + exists pl. split; [done|]. split; [|done]. split; rewrite ?Eo, ?Hh; try done; naive_solver.
    + destruct (rearm_ok ids pl now) as (pl' & E & Hi & Hw); try done; rewrite ?Eo; try done.
      rewrite Eo in E. by exists pl'.
Qed.

Lemma stray_packet ids pl now :
  inv ids pl -> halted pl = false ->
  (match outstanding pl with
      | [] => let pl := set_timeout pl None in
              Ok (if bool_decide (ready pl = []) then set_halted pl true else pl)
      | item :: _ => if bool_decide (id <$> head (outstanding pl) = Some (id item)) then Ok pl
                     else arm_timeout pl item now
      end) = Ok pl.
Proof.
  intros [] Hh. destruct (outstanding pl) as [|item rest] eqn:Eo; cbn.
  - rewrite bool_decide_eq_false_2.
    + f_equal. rewrite <- (proj2 v_loss0 eq_refl). by destruct pl.
    + intros Er. assert (halted pl = true) by naive_solver. congruence.
  - by rewrite bool_decide_eq_true_2.
Qed.

Lemma recv_probe_callback_ok ids pl received now :
  inv ids pl -> halted pl = false -> good_packet pl received ->
  exists pl', recv_probe_callback pl received now = Ok pl' /\ inv ids pl' /\
    (weight pl' < weight pl \/ pl' = pl).
Proof.
  intros Hinv Hh Hg. destruct received as [[[from packet] stamp]|]; [|by exists pl; auto].
  destruct Hg as (r & Er & Hgood). unfold recv_probe_callback, process_packet.
  rewrite Er, bind_Ok. pose proof (stray_packet ids pl now Hinv Hh) as Hstray.
  destruct r as [[[[index t] type] code]|]; [|exists pl; split; [exact Hstray|by auto]].
  unfold find_outstanding_item. destruct (find_item index t (outstanding pl)) as [[item rest]|] eqn:Ef;
    [|exists pl; split; [exact Hstray|by auto]].
  specialize (Hgood _ _ _ _ _ _ eq_refl Ef).
  destruct (find_item_spec _ _ _ _ _ Ef) as (_ & <- & l1 & l2 & Eo & ->).
  destruct Hinv. destruct (core_take ids pl l1 item l2 v_core0 Eo) as [Hc Hl].
  destruct (response_step _ _ _ _ _ _ (proj1 Hl) Hgood) as (a & item' & -> & Hnd & Ho).
  rewrite bind_Ok. destruct (settle _ _ _ _ _ Hc Hl Ho) as (Hc2 & Hm & Hw).
  pose proof (weight_take pl l1 item l2 Eo) as Hw0.
  set (pl1 := set_outstanding pl (l1 ++ l2)) in *.
  assert (Ha : match a with
               | Again => Ok (append_ready_item pl1 item')
               | Finished => Ok (finish_item pl1 item')
               | Dropped => Ok (0, set_lost pl1 (item' :: lost pl1))
               end = Ok (if bool_decide (a = Again) then append_ready_item pl1 item'
                         else finish_item pl1 item')) by (by destruct a).
  rewrite Ha, bind_Ok. clear Ha.
  destruct (resend_ok ids pl1 _ now Hc2 Hm v_send0)
    as (pl3 & -> & _ & Hc3 & Hs3 & Hh3 & Ho3 & Ht3 & Hp3 & Hw3). rewrite bind_Ok.
  destruct (recv_rearm_ok ids pl3 (id <$> head (outstanding pl)) now) as (pl' & E & Hi & Hw');
    try done; try (rewrite Hh3; done).
  - rewrite Ht3. cbn. rewrite v_loss0, Eo. by intros [_ ?]%app_nil.
  - exists pl'. split; [exact E|]. split; [done|left; lia].
Qed.

Lemma core_add_outstanding ids item pl :
  core ids [item] pl -> live item -> core ids [] (add_outstanding pl item).
Proof.
  intros [] Hl. pose proof (p_ttl _ (proj1 Hl)).
  assert (Hlast : forall i k, Some (id item, ttl item - 1) = Some (i, k) -> i ∈ ids /\ 0 <= k < 30).
  { intros i k [= <- <-]. split; [|lia]. rewrite <- c_ids0. cbn. left. }
  assert (Hlive : Forall live (pending pl ++ ready pl ++ outstanding pl ++ [item])).
  { rewrite !app_assoc in *. apply Forall_app. split; [done|by constructor]. }
  assert (Hids : id <$> (pending pl ++ ready pl ++ (outstanding pl ++ [item]) ++ done_ pl ++ lost pl)
                 ≡ₚ ids) by (rewrite <- c_ids0; ids_perm).
  unfold add_outstanding. cbn [outstanding set_total_probes set_last_probe].
  destruct (outstanding pl) as [|o l] eqn:Eo; split; try done; by destruct c_env0.
Qed.

Lemma weight_add_outstanding pl item :
  weight (add_outstanding pl item) = weight pl + 2 * work item + 1.
Proof.
  unfold add_outstanding. cbn [outstanding set_total_probes set_last_probe].
  destruct (outstanding pl) as [|o l] eqn:Eo;
    unfold weight; cbn [pending ready outstanding set_timeout set_outstanding set_total_probes
      set_last_probe]; rewrite Eo.
  - rewrite list_work_cons. unfold list_work. cbn. lia.
  - rewrite (list_work_snoc 1 (o :: l)). lia.
Qed.

(** The end of send_probe_callback(). *)
Lemma send_rearm_ok ids pl x now :
  core ids [] pl -> sendtimer pl = None -> halted pl = false ->
  (timeout pl = None <-> outstanding pl = []) -> (outstanding pl = [] -> x < 0) ->
  (ready pl = [] -> outstanding pl = [] -> pending pl = []) ->
  exists pl', (if (x <? 0) && bool_decide (outstanding pl = []) && bool_decide (ready pl = [])
               then Ok (set_halted pl true)
               else match ready pl with [] => Ok pl | _ => arm_sendtimer pl now end) = Ok pl' /\
    inv ids pl' /\ weight pl' = weight pl.
Proof.
  intros Hc Hs Hh Ht Hx Hp.
  destruct ((x <? 0) && bool_decide (outstanding pl = []) && bool_decide (ready pl = [])) eqn:E.
  - apply andb_true_iff in E as [[_ Eo%bool_decide_eq_true]%andb_true_iff Er%bool_decide_eq_true].
    eexists. split; [done|]. split; [|done]. split; cbn; try naive_solver.
    eapply core_timers; [exact Hc|]. exists (sendtimer pl), (timeout pl), true. by destruct pl.
  - destruct (ready pl) as [|i l] eqn:Er.
    + exists pl. split; [done|]. split; [|done].
      assert (Ho : outstanding pl <> []).
      { intros Ho. specialize (Hx Ho). rewrite Ho, (proj2 (Z.ltb_lt _ _) Hx) in E. done. }
      split; rewrite ?Er, ?Hs, ?Hh; try done; try tauto. split; [done|tauto].
    + destruct (arm_sendtimer_ok ids pl now Hc Hs) as [tv ->].
      eexists. split; [done|]. split; [|done]. split; cbn; rewrite ?Er, ?Hh; try done; try (split; intros; naive_solver).
      eapply core_timers; [exact Hc|]. exists (Some tv), (timeout pl), (halted pl). by destruct pl.
Qed.

Lemma send_probe_callback_ok ids pl n now :
  inv ids pl -> ready pl <> [] ->
  exists pl', send_probe_callback pl n now = Ok pl' /\ inv ids pl' /\ weight pl' < weight pl.
Proof.
  intros [] Hne. unfold send_probe_callback. cbn [ready set_sendtimer].
  destruct (ready pl) as [|item rest] eqn:Er; [done|].
  destruct (core_take_ready ids pl item rest v_core0 Er) as [Hc Hl].
  set (pl1 := set_ready (set_sendtimer pl None) rest).
  assert (Hc1 : core ids [item] pl1).
  { eapply core_timers; [exact Hc|]. exists None, (timeout pl), (halted pl). by destruct pl. }
  assert (Hh : halted pl = false).
  { destruct (halted pl); [|done]. by destruct (proj1 v_idle0 eq_refl). }
  assert (Hw : weight pl = weight pl1 + 2 * work item + 2).
  { unfold weight, pl1. cbn [pending ready outstanding set_ready set_sendtimer].
    rewrite Er, list_work_cons. lia. }
  pose proof (work_nonneg _ (proj1 Hl)).
  destruct (send_probe_ok pl1 n item (c_env _ _ _ Hc1) Hl) as (x & item' & E & Hs & Hx).
  rewrite E, bind_Ok. destruct Hx as [(-> & Hl' & Hw' & Ht')|[-> Hb]].
  - change (0 <? 0) with false. cbv iota.
    pose proof (weight_add_outstanding pl1 item').
    assert (Ha : outstanding (add_outstanding pl1 item') <> [] /\ timeout (add_outstanding pl1 item') <> None
              /\ sendtimer (add_outstanding pl1 item') = None /\ halted (add_outstanding pl1 item') = false).
    { unfold add_outstanding. cbn. destruct (outstanding pl); [done|]. split_and!; try done.
      cbn. by rewrite v_loss0. }
    destruct Ha as (Ho & Hto & Hsn & Hha).
    destruct (send_rearm_ok ids (add_outstanding pl1 item') 0 now) as (pl' & E' & Hi & Hww);
      [by apply core_add_outstanding; [eapply core_hand|]|done|done|..];
      try (split; intros ?); try (intros ?); try contradiction.
    exists pl'. split; [exact E'|]. split; [done|lia].
  - change (-1 <? 0) with true. cbv iota. pose proof (finish_weight pl1 item').
    pose proof (core_finish ids item' pl1 (core_hand _ _ _ _ Hc1 Hs) Hb) as Hcf.
    destruct (finish_moved pl1 item').
    destruct (send_rearm_ok ids (snd (finish_item pl1 item')) (-1) now) as (pl' & E' & Hi & Hww);
      try done; try congruence; [by rewrite m_halted0|by rewrite m_timeout0, m_out0| |].
    + intros Hr _. by apply m_ready0.
    + exists pl'. split; [exact E'|]. split; [done|lia].
Qed.

(** ** Probes and the packets that quote them *)

(** What send_probe() puts in a probe. *)
Definition probe_id (item : dest_info_t) : Z := u16 (Z.shiftl (ttl item) 10 + id item).

Lemma probe_id_fields item :
  0 <= id item < 1024 -> 0 <= ttl item < 64 ->
  word (probe_id item) /\ Z.land (probe_id item) 1023 = id item /\
  Z.shiftr (probe_id item) 10 = ttl item.
Proof.
  intros Hi Ht. unfold probe_id, word. rewrite Z.shiftl_mul_pow2 by lia. change (2 ^ 10) with 1024.
  rewrite u16_id by lia. split; [lia|]. change 1023 with (Z.ones 10).
  rewrite Z.land_ones, Z.shiftr_div_pow2 by lia. change (2 ^ 10) with 1024.
  split; Z.div_mod_to_equations; lia.
Qed.

Section Quoted.
Context (pl : probe_list_t) (item : dest_info_t).
Context (Hid : 0 <= id item < count pl) (Hcount : count pl <= 1024) (Httl : 0 <= ttl item < 64).
Context (Hident : word (ident pl)).

Lemma check_index_ok : check_index (probe_id item) (ident pl) (ident pl) (count pl) = probe_id item.
Proof using Hid Hcount Httl.
  destruct (probe_id_fields item) as (_ & E & _); [lia|lia|]. unfold check_index.
  rewrite Z.eqb_refl, E. cbn [negb]. rewrite Z.geb_leb, (proj2 (Z.leb_gt _ _)) by lia. done.
Qed.

(** The bytes of a word in network byte order at offset [i]. *)
Definition word_at (quoted : list Z) (i : nat) (x : Z) : Prop :=
  quoted !! i = Some (u16 x / 256) /\ quoted !! S i = Some (u16 x mod 256).

Lemma rd_quoted pre (quoted : list Z) i x :
  quoted !! i = Some x -> rd (pre ++ quoted) (Z.of_nat (length pre) + Z.of_nat i) = Ok x.
Proof. intros Hx. rewrite rd_app_r by lia. by apply rd_at. Qed.

Lemma rd16_quoted pre quoted i x :
  word_at quoted i x ->
  rd16 (pre ++ quoted) (Z.of_nat (length pre) + Z.of_nat i) = Ok (u16 x / 256 + 256 * (u16 x mod 256)).
Proof.
  intros [H0 H1]. unfold rd16. rewrite (rd_quoted _ _ _ _ H0), bind_Ok, <- Z.add_assoc.
  replace (Z.of_nat i + 1) with (Z.of_nat (S i)) by lia. by rewrite (rd_quoted _ _ _ _ H1).
Qed.

(** An IPv4 error that quotes a packet with our identifiers. *)
Lemma read_quoted_v4 hdr type code ic quoted tl :
  hdr_ok hdr -> length ic = 6%nat -> rd16 hdr 2 = Ok tl ->
  Z.of_nat (length hdr) + 36 <= ntohs tl ->
  quoted !! 0%nat = Some 69 -> quoted !! 9%nat = Some IPPROTO_UDP ->
  word_at quoted 4 (probe_id item) -> word_at quoted 20 (ident pl) ->
  read_response AF_INET ((hdr ++ [type; code] ++ ic) ++ quoted) pl
  = Ok (Some (id item, ttl item, type, code)).
Proof using Hid Hcount Httl Hident.
  intros (b0 & hrest & Hb & Hv & Hi & Hl) Hic Htl Hlen Hq0 Hq9 Hq4 Hq20.
  set (pre := hdr ++ [type; code] ++ ic).
  assert (Hpre : Z.of_nat (length pre) = ip_ihl b0 * 4 + 8).
  { unfold pre. rewrite !length_app, Hic. cbn. lia. }
  assert (Hr : forall i, i < Z.of_nat (length hdr) -> rd (pre ++ quoted) i = rd hdr i).
  { intros i Hlt. unfold pre. rewrite <- app_assoc. by apply rd_app_l. }
  assert (H0 : rd (pre ++ quoted) 0 = Ok b0) by (rewrite Hr by lia; by rewrite Hb).
  assert (H2 : rd16 (pre ++ quoted) 2 = Ok tl) by (unfold rd16 in *; by rewrite !Hr by lia).
  assert (Ht : rd (pre ++ quoted) (ip_ihl b0 * 4) = Ok type).
  { unfold pre. rewrite <- app_assoc, Hl, rd_app_0. done. }
  assert (Hc : rd (pre ++ quoted) (ip_ihl b0 * 4 + 1) = Ok code).
  { unfold pre. rewrite <- app_assoc, Hl, rd_app_r by lia. done. }
  pose proof (rd_quoted pre quoted 9 _ Hq9) as H9. pose proof (rd_quoted pre quoted 0 _ Hq0) as He.
  pose proof (rd16_quoted pre quoted 4 _ Hq4) as H4. pose proof (rd16_quoted pre quoted 20 _ Hq20) as H20.
  rewrite Hpre in H9, He, H4, H20. rewrite Z.add_0_r in He.
  change (Z.of_nat 9) with 9 in H9. change (Z.of_nat 4) with 4 in H4.
  change (Z.of_nat 20) with 20 in H20.
  destruct (probe_id_fields item) as (Hw & Ei & Et); [lia|lia|].
  unfold read_response, get_embedded_packet. change (AF_INET =? AF_INET) with true. cbv iota.
  unfold get_embedded_ipv4_packet. rewrite H0, bind_Ok, Hv, c_assert_true by done.
  rewrite c_assert_true by (apply Z.geb_le; lia). rewrite H2, bind_Ok. unfold ICMPHDR, IPHDR, UDPHDR.
  rewrite (proj2 (Z.ltb_ge _ _)) by lia. cbv zeta. rewrite H9, bind_Ok.
  change (negb (IPPROTO_UDP =? IPPROTO_UDP)) with false. rewrite bind_Ok. cbv iota.
  unfold get_index. change (AF_INET =? AF_INET) with true. cbv iota. rewrite H9, bind_Ok.
  change (negb (IPPROTO_UDP =? IPPROTO_UDP)) with false. cbv iota. rewrite He, bind_Ok, H4, bind_Ok.
  change (ip_ihl 69 * 4) with 20. rewrite H20, bind_Ok, !be16_load, check_index_ok by done.
  rewrite bind_Ok. unfold word in Hw. rewrite (proj2 (Z.ltb_ge _ _)) by lia.
  unfold get_icmp_type, get_icmp_code. change (AF_INET =? AF_INET) with true. cbv iota.
  rewrite H0, !bind_Ok, Ht, !bind_Ok, Hc, !bind_Ok. by rewrite Ei, Et.
Qed.

(** An ICMPv6 error, where the IPv6 header is already stripped. *)
Lemma read_quoted_v6 type code ic quoted :
  length ic = 6%nat -> (type = ICMP6_DST_UNREACH \/ type = ICMP6_TIME_EXCEEDED) ->
  quoted !! 6%nat = Some IPPROTO_UDP ->
  word_at quoted 48 (probe_id item) -> word_at quoted 50 (ident pl) ->
  read_response AF_INET6 (([type; code] ++ ic) ++ quoted) pl
  = Ok (Some (id item, ttl item, type, code)).
Proof using Hid Hcount Httl Hident.
  intros Hic Htype Hq6 Hq48 Hq50. set (pre := [type; code] ++ ic).
  assert (Hpre : Z.of_nat (length pre) = 8) by (unfold pre; rewrite length_app, Hic; done).
  pose proof (rd_quoted pre quoted 6 _ Hq6) as H6.
  pose proof (rd16_quoted pre quoted 48 _ Hq48) as H48.
  pose proof (rd16_quoted pre quoted 50 _ Hq50) as H50. rewrite Hpre in H6, H48, H50.
  assert (Ht : rd (pre ++ quoted) 0 = Ok type) by done.
  assert (Hc : rd (pre ++ quoted) 1 = Ok code) by done.
  destruct (probe_id_fields item) as (Hw & Ei & Et); [lia|lia|].
  unfold read_response, get_embedded_packet. change (AF_INET6 =? AF_INET) with false.
  change (AF_INET6 =? AF_INET6) with true. cbv iota.
  unfold get_embedded_ipv6_packet. rewrite Ht, bind_Ok.
  assert (negb (type =? ICMP6_DST_UNREACH) && negb (type =? ICMP6_TIME_EXCEEDED) = false) as ->
    by (by destruct Htype; subst type).
  rewrite bind_Ok. unfold get_index. change (AF_INET6 =? AF_INET) with false.
  change (AF_INET6 =? AF_INET6) with true. cbv iota.
  change (ICMPHDR + 6) with (8 + Z.of_nat 6). rewrite H6, bind_Ok.
  change (IPPROTO_UDP =? IPPROTO_FRAGMENT) with false. cbv iota zeta. rewrite bind_Ok. cbn [fst snd].
  change (negb (IPPROTO_UDP =? IPPROTO_UDP)) with false. cbv iota.
  change (ICMPHDR + IP6HDR + UDPHDR) with (8 + Z.of_nat 48).
  change (8 + Z.of_nat 48 + 2) with (8 + Z.of_nat 50).
  rewrite H48, bind_Ok, H50, bind_Ok, !be16_load, check_index_ok by done.
  rewrite bind_Ok. unfold word in Hw. rewrite (proj2 (Z.ltb_ge _ _)) by lia.
  unfold get_icmp_type, get_icmp_code. change (AF_INET6 =? AF_INET) with false.
  change (AF_INET6 =? AF_INET6) with true. cbv iota. rewrite Ht, bind_Ok, Hc, bind_Ok. by rewrite Ei, Et.
Qed.
End Quoted.

(** Two packets agree on the bytes at some offsets. *)
Definition agree (offsets : list nat) (a b : list Z) : Prop := Forall (fun i => a !! i = b !! i) offsets.

(** A probe can be matched to its response.  The identifier send_probe() puts
    in a probe is the TTL and the number of the destination; an ICMP error that
    quotes the probe (with whatever time to live, checksum and addresses it had
    by then) is read back as that destination and that TTL, for IPv4 and IPv6,
    as long as there are at most 1024 destinations. *)
Theorem traceroute_probe_roundtrip pl item packet size dscp d probe n :
  0 <= id item < count pl -> count pl <= 1024 -> 0 <= ttl item < 64 -> word (ident pl) ->
  build_ipv4_probe packet size dscp (u16 (Z.shiftl (ttl item) 10 + id item)) (ttl item)
    (ident pl) d = Ok (probe, n) ->
  (forall hdr type code ic quoted tl,
     hdr_ok hdr -> length ic = 6%nat -> rd16 hdr 2 = Ok tl -> Z.of_nat (length hdr) + 36 <= ntohs tl ->
     agree [0; 4; 5; 9; 20; 21]%nat quoted probe ->
     read_response AF_INET ((hdr ++ [type; code] ++ ic) ++ quoted) pl
     = Ok (Some (id item, ttl item, type, code))) /\
  (forall type code ic ip6 udp quoted,
     length ic = 6%nat -> (type = ICMP6_DST_UNREACH \/ type = ICMP6_TIME_EXCEEDED) ->
     length ip6 = 40%nat -> ip6 !! 6%nat = Some IPPROTO_UDP -> length udp = 8%nat ->
     agree [0; 1; 2; 3]%nat quoted (fst (build_ipv6_probe packet size
       (u16 (Z.shiftl (ttl item) 10 + id item)) (ident pl))) ->
     read_response AF_INET6 (([type; code] ++ ic) ++ ip6 ++ udp ++ quoted) pl
     = Ok (Some (id item, ttl item, type, code))).
Proof.
  intros Hid Hcount Httl Hident Hb. fold (probe_id item) in *. split.
  - intros hdr type code ic quoted tl Hh Hic Htl Hlen Ha.
    unfold build_ipv4_probe in Hb. inv_res. destruct (ai_addr d) as [[daddr| |]|]; try discriminate.
    rewrite !htons_be16 in Hb. injection Hb as <- <-. unfold agree in Ha.
    rewrite !Forall_cons in Ha. destruct Ha as (A0 & A4 & A5 & A9 & A20 & A21 & _).
    apply read_quoted_v4 with tl; try done.
  - intros type code ic ip6 udp quoted Hic Htype H40 H6 H8 Ha.
    unfold build_ipv6_probe in Ha. cbn [fst] in Ha. rewrite !htons_be16 in Ha. unfold agree in Ha.
    rewrite !Forall_cons in Ha. destruct Ha as (A0 & A1 & A2 & A3 & _).
    assert (Hat : forall i x, quoted !! i = Some x -> (ip6 ++ udp ++ quoted) !! (48 + i)%nat = Some x).
    { intros i x Hx. rewrite lookup_app_r by lia. rewrite lookup_app_r by lia.
      by replace (48 + i - length ip6 - length udp)%nat with i by lia. }
    apply read_quoted_v6; try done.
    + by apply lookup_app_l_Some.
    + split; [apply (Hat 0%nat)|apply (Hat 1%nat)]; done.
    + split; [apply (Hat 2%nat)|apply (Hat 3%nat)]; done.
Qed.

(** ** The whole test *)

Definition random_ok (r : Z) : Prop := 0 <= r < 2147483648.

Lemma new_item_live d i r : target_ok d -> random_ok r -> live (new_item d i r) /\ work (new_item d i r) <= 423.
Proof.
  intros Hd Hr. unfold random_ok in Hr.
  assert (Ht : 3 <= 3 + 5 * r / 2147483648 <= 7) by (Z.div_mod_to_equations; lia).
  split; [split; [|done]|].
  - unfold new_item, MIN_INITIAL_TTL, MAX_INITIAL_TTL. change (8 - 3) with 5.
    set (t := 3 + 5 * r / 2147483648) in *. clearbody t. split; cbn; try done; try lia.
    + split; cbn; try done; try lia. by apply (Forall_replicate _ 30 new_hop).
    + intros _ k h Hk _. apply (lookup_replicate_1 30) in Hk as [-> _]. done.
  - unfold work, new_item, MIN_INITIAL_TTL, MAX_INITIAL_TTL. cbn [done_forward first_response ttl attempts].
    change (8 - 3) with 5. change (0 =? 0) with true. cbv iota. lia.
Qed.

Lemma add_items_spec dests i w pl :
  Forall (fun d => target_ok (fst d) /\ random_ok (snd d)) dests ->
  exists p r, add_items dests i w pl = set_pending (set_ready pl r) p /\
    (id <$> (p ++ r)) ≡ₚ (id <$> (pending pl ++ ready pl)) ++ seqZ i (Z.of_nat (length dests)) /\
    (Forall live (pending pl ++ ready pl) -> Forall live (p ++ r)) /\
    (ready pl <> [] -> r <> []) /\
    list_work 3 p + list_work 2 r
      <= list_work 3 (pending pl) + list_work 2 (ready pl) + 849 * Z.of_nat (length dests).
Proof.
  revert i w pl. induction dests as [|[d r0] dests IH]; intros i w pl Hd; cbn [add_items length].
  { exists (pending pl), (ready pl). rewrite app_nil_r. split_and!; try done; [by destruct pl|lia]. }
  apply Forall_cons in Hd as [[Hd Hr] Hds]. cbn [fst snd] in Hd, Hr.
  destruct (new_item_live d i r0 Hd Hr) as [Hl Hw].
  rewrite seqZ_cons by lia.
  replace (Z.succ i) with (i + 1) by lia.
  replace (Z.pred (Z.of_nat (S (length dests)))) with (Z.of_nat (length dests)) by lia.
  destruct (negb (w =? 0)).
  - destruct (IH (i + 1) (w - 1) (snd (append_ready_item pl (new_item d i r0))) Hds)
      as (p & r & -> & Hids & Hlive & Hne & Hwork). exists p, r. split; [by destruct pl|].
    cbn in Hids, Hlive, Hne. split_and!.
    + rewrite Hids. rewrite !fmap_app. cbn. solve_Permutation.
    + intros H. apply Hlive. rewrite app_assoc. apply Forall_app. split; [done|by constructor].
    + intros _. apply Hne. by intros [_ ?]%app_nil.
    + cbn [append_ready_item snd pending ready set_ready] in Hwork. rewrite list_work_snoc in Hwork. lia.
  - destruct (IH (i + 1) w (set_pending pl (new_item d i r0 :: pending pl)) Hds)
      as (p & r & -> & Hids & Hlive & Hne & Hwork). exists p, r. split; [by destruct pl|].
    cbn in Hids, Hlive, Hne. split_and!; try done.
    + rewrite Hids. rewrite !fmap_app. cbn. solve_Permutation.
    + intros H. apply Hlive. by constructor.
    + cbn [pending ready set_pending] in Hwork. rewrite list_work_cons in Hwork. lia.
Qed.

Section Start.
Context (s : socket_t) (o : opt_t) (window usec : Z) (dests : list (dest * Z)).
Context (Hdests : dests <> []) (Hwindow : window <> 0).
Context (Hsize : MIN_TRACEROUTE_PROBE_LEN <= packet_size o).
Context (Hsock : 0 < socket s) (Hsock6 : 0 < socket6 s).
Context (Htargets : Forall (fun d => target_ok (fst d) /\ random_ok (snd d)) dests).
Context (Hsmall : Z.of_nat (length dests) < 4294967296).

Lemma start_inv :
  let pl := start_traceroute s o window usec dests in
  inv (seqZ 0 (Z.of_nat (length dests))) pl /\ weight pl <= 849 * Z.of_nat (length dests).
Proof.
  unfold start_traceroute. set (pl0 := {| sockets := s |}).
  destruct dests as [|[d r0] ds] eqn:Ed; [done|]. cbn [add_items].
  assert (E : add_items ((d, r0) :: ds) 0 window pl0
              = add_items ds 1 (window - 1) (snd (append_ready_item pl0 (new_item d 0 r0)))).
  { cbn [add_items]. destruct (Z.eqb_spec window 0); [done|]. done. }
  cbn [add_items] in E. rewrite E. clear E.
  apply Forall_cons in Htargets as [[Hd Hr] Hds]. cbn [fst snd] in Hd, Hr.
  destruct (new_item_live d 0 r0 Hd Hr) as [Hl Hw].
  destruct (add_items_spec ds 1 (window - 1) (snd (append_ready_item pl0 (new_item d 0 r0))) Hds)
    as (p & r & -> & Hids & Hlive & Hne & Hwork).
  cbn in Hids, Hlive, Hne. cbn [append_ready_item snd pending ready set_ready pl0] in Hwork.
  assert (Hr' : r <> []) by (by apply Hne).
  split.
  - split; cbn; try done; try tauto; [split; cbn; try done|split; [done|tauto]].
    + rewrite app_nil_r. rewrite Hids. cbn [length].
      rewrite (seqZ_cons 0) by lia. change (Z.succ 0) with 1.
      by replace (Z.pred (Z.of_nat (S (length ds)))) with (Z.of_nat (length ds)) by lia.
    + apply NoDup_seqZ.
    + rewrite length_seqZ. rewrite Z2Nat.id by lia. cbn [length] in Hsmall. lia.
    + rewrite app_nil_r. apply Hlive. by constructor.
  - unfold weight. cbn [pending ready outstanding set_pending set_ready snd append_ready_item pl0].
    cbn [app] in Hwork. rewrite list_work_cons in Hwork. cbn [length]. unfold list_work in *.
    cbn [foldr] in *. lia.
Qed.
End Start.

(** Reports of completed paths. *)
Lemma report_hops_ok o info n i :
  0 <= i -> (Z.to_nat i + n <= length (hop info))%nat ->
  exists hops, report_hops o info i n = Ok hops /\ length hops = n.
Proof.
  revert i. induction n as [|n IH]; intros i Hi Hn; cbn; [by eexists|].
  destruct (rd_in_bounds (hop info) i) as [h ->]; [lia|]. rewrite bind_Ok.
  destruct (IH (i + 1)) as (hops & -> & Hl); [lia|lia|]. rewrite bind_Ok.
  eexists. split; [done|]. cbn. by rewrite Hl.
Qed.

Lemma report_destination_ok o info :
  item_base info -> exists r, report_destination o info = Ok r /\
    Z.of_nat (length (r_path r)) = path_length info.
Proof.
  intros []. unfold report_destination.
  destruct (report_hops_ok o info (Z.to_nat (path_length info)) 0) as (hops & -> & Hl); [lia|lia|].
  rewrite bind_Ok. eexists. split; [done|]. cbn. lia.
Qed.

Lemma report_results_ok o l :
  Forall item_base l -> exists rs, report_results o (Z.of_nat (length l)) l = Ok rs /\ length rs = length l.
Proof.
  induction 1 as [|info l Hi _ IH]; [by exists []|]. cbn [report_results length].
  rewrite (proj2 (Z.ltb_lt _ _)) by lia.
  destruct (report_destination_ok o info Hi) as (r & -> & _). rewrite bind_Ok.
  replace (Z.of_nat (S (length l)) - 1) with (Z.of_nat (length l)) by lia.
  destruct IH as (rs & -> & Hl). rewrite bind_Ok. eexists. split; [done|]. cbn. by rewrite Hl.
Qed.

(** The events of the loop: a timer that runs, or a packet. *)
Inductive event : Set :=
| ESend (n : net) (now : timeval)
| ETimeout (now : timeval)
| ERecv (received : option (sockaddr * list Z * timeval)) (now : timeval).

Definition handle (pl : probe_list_t) (e : event) : res probe_list_t :=
  match e with
  | ESend n now => send_probe_callback pl n now
  | ETimeout now => probe_timeout_callback pl now
  | ERecv received now => recv_probe_callback pl received now
  end.
Definition enabled (pl : probe_list_t) (e : event) : Prop :=
  halted pl = false /\
  match e with
  | ESend _ _ => sendtimer pl <> None
  | ETimeout _ => timeout pl <> None
  | ERecv received _ => good_packet pl received
  end.
Definition step (pl pl' : probe_list_t) : Prop := exists e, enabled pl e /\ handle pl e = Ok pl'.

Lemma handle_ok ids pl e :
  inv ids pl -> enabled pl e ->
  exists pl', handle pl e = Ok pl' /\ inv ids pl' /\
    (weight pl' < weight pl \/ (pl' = pl /\ exists r now, e = ERecv r now)).
Proof.
  intros Hi [Hh He]. destruct e as [n now|now|r now]; cbn [handle].
  - destruct (send_probe_callback_ok ids pl n now Hi) as (pl' & E & Hi' & Hw).
    { intros Hr. by apply He, (v_send _ _ Hi). }
    exists pl'. auto.
  - destruct (probe_timeout_callback_ok ids pl now Hi) as (pl' & E & Hi' & Hw).
    { intros Hr. by apply He, (v_loss _ _ Hi). }
    exists pl'. auto.
  - destruct (recv_probe_callback_ok ids pl r now Hi Hh He) as (pl' & E & Hi' & [Hw| ->]);
      [by exists pl'; auto|]. exists pl. split; [done|]. split; [done|]. right. split; [done|]. by do 2 eexists.
Qed.

Lemma steps_inv ids pl0 pl :
  inv ids pl0 -> rtc step pl0 pl -> inv ids pl /\ weight pl <= weight pl0.
Proof.
  intros Hi H. revert Hi. induction H as [pl|pl pl1 pl2 (e & He & E) _ IH]; intros Hi; [by split|].
  destruct (handle_ok ids pl e Hi He) as (pl' & E' & Hi' & Hw).
  rewrite E' in E. injection E as ->. destruct (IH Hi') as [Hi2 Hw2]. split; [done|].
  destruct Hw as [?|[-> _]]; lia.
Qed.

Lemma inv_weight ids pl : inv ids pl -> 0 <= weight pl.
Proof.
  intros [[] _ _ _ _]. rewrite !Forall_app in c_live0. destruct c_live0 as (H1 & H2 & H3).
  apply (list_work_nonneg 3) in H1; [|done]. apply (list_work_nonneg 2) in H2; [|done].
  apply (list_work_nonneg 1) in H3; [|done]. unfold weight. lia.
Qed.

(** C4: The traceroute test runs to completion.  From the start, whatever order
    timers fire and good packets arrive in, no callback reads or writes outside
    an object or fails an assert; every probe that is sent, times out or is
    answered uses up some of a bounded amount of work (at most 849 steps for
    each destination), and a packet that does neither changes nothing; while
    the event loop runs, a timer is set; and when it ends, every destination is
    in the done list exactly once and the report has one entry for each. *)
Theorem traceroute_completes s o window usec dests pl :
  dests <> [] -> window <> 0 -> MIN_TRACEROUTE_PROBE_LEN <= packet_size o ->
  0 < socket s -> 0 < socket6 s -> Z.of_nat (length dests) < 4294967296 ->
  Forall (fun d => target_ok (fst d) /\ random_ok (snd d)) dests ->
  rtc step (start_traceroute s o window usec dests) pl ->
  (forall e, enabled pl e -> exists pl', handle pl e = Ok pl' /\
     (weight pl' < weight pl \/ (pl' = pl /\ exists r now, e = ERecv r now))) /\
  0 <= weight pl <= 849 * Z.of_nat (length dests) /\
  (halted pl = false -> sendtimer pl <> None \/ timeout pl <> None) /\
  (halted pl = true ->
     id <$> done_ pl ≡ₚ seqZ 0 (Z.of_nat (length dests)) /\
     exists reports, report_results o (done_count pl) (done_ pl) = Ok reports /\
       length reports = length dests).
Proof.
  intros Hd Hwin Hsz Hs Hs6 Hsm Hts Hrun.
  destruct (start_inv s o window usec dests Hd Hwin Hsz Hs Hs6 Hts Hsm) as [Hi0 Hw0].
  destruct (steps_inv _ _ _ Hi0 Hrun) as [Hi Hw]. pose proof (inv_weight _ _ Hi). split_and!; [|lia|lia| |].
  - intros e He. destruct (handle_ok _ _ _ Hi He) as (pl' & E & _ & Hwe). by exists pl'.
  - destruct Hi. intros Hh. destruct (sendtimer pl) eqn:Es; [by left|].
    right. rewrite v_loss0. intros Ho. assert (halted pl = true) by naive_solver. congruence.
  - destruct Hi as [[] _ _ Hidle Hpend]. intros Hh. destruct (proj1 Hidle Hh) as [Er Eo].
    specialize (Hpend Er Eo). unfold all_items in c_ids0.
    rewrite Er, Eo, Hpend, c_lost0 in c_ids0. cbn in c_ids0. rewrite app_nil_r in c_ids0.
    split; [done|]. rewrite c_count0. destruct (report_results_ok o _ c_done0) as (rs & E & Hl).
    exists rs. split; [done|]. rewrite Hl.
    apply Permutation_length in c_ids0. rewrite length_fmap, length_seqZ in c_ids0. lia.
Qed.

(** ** Responses that defeat it *)

(** A terminal response to the first probe of a path that quotes a TTL one
    higher than the one that was sent writes outside the hop array: the distance
    computed from it is 0, and only negative distances and ones over 30 are
    rejected. *)
Theorem traceroute_bogus_ttl from packet now type code item :
  probing item -> ttl item = first_ttl item ->
  terminal_error (sa_family from) type code <> 0 ->
  get_embedded_ttl (sa_family from) packet = Ok (first_ttl item + 1) ->
  respond from packet now (ttl item) type code item = Fault OutOfBounds.
Proof.
  intros [] Ht Hte He. pose proof (b_first _ p_base0). unfold respond, real_ttl. cbv zeta.
  rewrite (proj2 (Z.eqb_neq _ _) Hte), (proj2 (Z.eqb_eq _ _) Ht). cbn [negb andb].
  rewrite He, bind_Ok. replace (first_ttl item - (first_ttl item + 1) + 1) with 0 by lia.
  change ((0 <? 0) || (0 >? MAX_HOPS_IN_PATH)) with false. cbv iota.
  change (i8 0) with 0. cbn [hop set_ttl first_ttl].
  destruct (rd_in_bounds (hop item) (first_ttl item - 1)) as [h ->];
    [rewrite (b_hops _ p_base0); lia|]. done.
Qed.

(** A path that keeps being probed at the TTL of its first probe. *)
Record stuck (item : dest_info_t) : Prop := {
  s_hops : length (hop item) = 30%nat;
  s_first : 3 <= first_ttl item <= 7;
  s_ttl : ttl item = first_ttl item;
  s_resp : first_response item = first_ttl item + 1;
  s_back : done_forward item = true
}.

(** The part of a response that is the same for the first probe and later ones. *)
Lemma respond_quoting_zero from packet now type code item :
  length (hop item) = 30%nat -> 3 <= first_ttl item <= 7 -> ttl item = first_ttl item ->
  terminal_error (sa_family from) type code = 1 -> unexpected_error (sa_family from) type = false ->
  compare_addresses (ai_addr (addr item)) (Some from) 0 = 0 ->
  get_embedded_ttl (sa_family from) packet = Ok 0 ->
  (first_response item = 0 /\ done_forward item = false) \/
  (first_response item = first_ttl item + 1 /\ done_forward item = true) ->
  exists item', respond from packet now (ttl item) type code item = Ok (Again, item') /\
    stuck item' /\ addr item' = addr item.
Proof.
  intros Hl Hf Ht Hte Hu Hcmp He Hst. unfold respond, real_ttl. cbv zeta. rewrite Hte.
  change (1 =? 0) with false. rewrite (proj2 (Z.eqb_eq _ _) Ht). cbn [negb andb]. rewrite He, bind_Ok.
  replace (first_ttl item - 0 + 1) with (first_ttl item + 1) by lia. unfold MAX_HOPS_IN_PATH.
  rewrite (proj2 (Z.ltb_ge _ 0)), Z.gtb_ltb, (proj2 (Z.ltb_ge 30 _)), i8_id by lia. cbn [orb].
  set (t := first_ttl item + 1). cbn [hop set_ttl first_ttl].
  destruct (rd_in_bounds (hop item) (first_ttl item - 1)) as [h0 ->]; [rewrite Hl; lia|]. rewrite bind_Ok.
  destruct (upd_hop_ok (set_ttl item t) (t - 1) (fun h => set_time_sent h (time_sent h0)))
    as (h1 & _ & ->); [done|lia|]. rewrite !bind_Ok. cbn [hop set_ttl]. cbv iota.
  set (i1 := set_hop (set_ttl item t) _).
  set (i2 := if first_response i1 =? 0 then _ else i1).
  assert (Hi2 : hop i2 = hop i1 /\ addr i2 = addr item /\ ttl i2 = t /\ first_ttl i2 = first_ttl item /\
            done_forward i2 = done_forward item /\ first_response i2 = t).
  { unfold i2. cbn [first_response i1 set_hop set_ttl].
    destruct Hst as [[Hr _]|[Hr _]]; rewrite Hr.
    - change (0 =? 0) with true. cbn. rewrite i8_id by lia. done.
    - rewrite (proj2 (Z.eqb_neq _ _)) by lia. done. }
  clearbody i2. destruct Hi2 as (Ehop & Eaddr & Ettl & Efirst & Edir & Eresp).
  assert (Hl2 : length (hop i2) = 30%nat) by (rewrite Ehop; cbn; by rewrite length_insert).
  destruct (upd_hop_ok i2 (t - 1) (record_delay now) Hl2) as (h2 & _ & ->); [lia|]. rewrite bind_Ok.
  cbn [addr set_hop]. rewrite Eaddr, Hcmp, Hu. change (1 =? 1) with true. cbn [negb andb orb].
  destruct (upd_hop_ok (set_hop i2 (<[Z.to_nat (t - 1) := record_delay now h2]> (hop i2))) (t - 1)
              (fun h => set_hop_addr (set_reply h REPLY_OK) (Some from))) as (h3 & _ & ->);
    [cbn; by rewrite length_insert|lia|]. rewrite bind_Ok.
  unfold respond_hop, respond_end. cbn [done_forward ttl set_hop set_path_length set_ttl first_response
    set_done_forward]. rewrite Edir, Ettl, Eresp.
  rewrite (proj2 (Z.eqb_neq t 1)), andb_false_r by lia. change (negb (1 =? 0)) with true. cbn [orb].
  change (1 =? 1) with true. change (1 =? 2) with false. rewrite andb_true_r, u8_id, i8_id by lia.
  destruct Hst as [[_ Hd]|[_ Hd]]; rewrite Hd in *; cbv iota; cbn [ttl set_ttl]; rewrite ?Ettl, ?i8_id by lia;
    rewrite (proj2 (Z.eqb_neq (t - 1) 0)) by lia; eexists; (split; [done|]);
    (split; [|done]); split; cbn; rewrite ?length_insert; try done; try lia; congruence.
Qed.

(** A destination exactly as far away as the TTL of the first probe, that
    decrements the TTL before it quotes the probe, is probed for ever: the first
    port unreachable leaves the path stuck at that TTL, and each later one
    leaves it there again, ready to be probed. *)
Theorem traceroute_never_ends from packet now type code item :
  terminal_error (sa_family from) type code = 1 -> unexpected_error (sa_family from) type = false ->
  compare_addresses (ai_addr (addr item)) (Some from) 0 = 0 ->
  get_embedded_ttl (sa_family from) packet = Ok 0 ->
  (probing item -> ttl item = first_ttl item -> first_response item = 0 ->
     exists item', respond from packet now (ttl item) type code item = Ok (Again, item') /\
       stuck item' /\ addr item' = addr item) /\
  (stuck item ->
     exists item', respond from packet now (ttl item) type code item = Ok (Again, item') /\
       stuck item' /\ addr item' = addr item).
Proof.
  intros Hte Hu Hcmp He. split.
  - intros [] Ht Hr. destruct p_base0. apply respond_quoting_zero; try done. left. auto.
  - intros []. apply respond_quoting_zero; try done. by right.
Qed.

Lemma free_cleared n i hops h :
  (i < n)%nat -> hops !! i = Some h -> reply h = REPLY_OK ->
  free_hops (clear_hops n hops) = Fault NullDeref.
Proof.
  intros Hi Hh Hr. revert i Hi hops Hh.
  induction n as [|n IH]; intros i Hi hops Hh; [lia|].
  destruct hops as [|h0 hops]; [done|]. destruct i as [|i]; cbn.
  - injection Hh as ->. by rewrite Hr.
  - case_bool_decide; [done|]. cbn. apply (IH i); [lia|done].
Qed.

(** A probe that cannot be sent, on a path where one of the first five hops
    has already answered, makes the clean up after the test dereference NULL:
    the addresses of those hops are cleared but not the note that they have
    one. *)
Theorem failed_send_breaks_cleanup s ident o n item item' h i l :
  length (hop item) = 30%nat -> (i < 5)%nat -> hop item !! i = Some h -> reply h = REPLY_OK ->
  ai_addr (addr item) <> None ->
  (forall sock p, fst (transmit n sock p) = false) -> hops_ok n = true ->
  (ai_family (addr item) = AF_INET \/ ai_family (addr item) = AF_INET6) ->
  send_probe s ident o n item = Ok (-1, item') ->
  free_dest_info (item' :: l) = Fault NullDeref.
Proof.
  intros Hl Hi Hh Hr Haddr Htx Hhops Hfam Hsend. unfold send_probe in Hsend.
  destruct (ai_addr (addr item)); [|done]. set (fam := ai_family (addr item)) in *.
  assert ((negb (fam =? AF_INET) && negb (fam =? AF_INET6)) = false) as E.
  { destruct Hfam as [-> | ->]; done. }
  rewrite E, Hhops in Hsend. cbn [negb] in Hsend. rewrite andb_false_r in Hsend.
  inv_res. destruct (transmit n _ _) as [ok sent] eqn:Etx.
  pose proof (f_equal fst Etx) as Hok. rewrite Htx in Hok. cbn in Hok. subst ok.
  apply res_bind_Ok in Hsend as (info & Hu & Hsend). unfold upd_hop in Hu.
  apply res_bind_Ok in Hu as (h2 & [_ H2]%rd_Ok & Hu).
  apply res_bind_Ok in Hu as (hs & [_ ->]%wr_Ok & Hu).
  apply (f_equal (fun r => match r with Ok i => hop i | _ => [] end)) in Hu. cbn in Hu.
  apply (f_equal (fun r => match r with Ok (_, i) => hop i | _ => [] end)) in Hsend.
  cbn [hop set_hop set_path_length set_done_forward set_probes] in Hsend.
  change (Z.to_nat TRACEROUTE_NO_REPLY_LIMIT) with 5%nat in Hsend.
  rewrite <- Hu in Hsend. cbn [free_dest_info]. rewrite <- Hsend.
  set (hops := <[_ := _]> _).
  assert (Hh' : exists h', hops !! i = Some h' /\ reply h' = REPLY_OK).
  { unfold hops. destruct (decide (Z.to_nat (ttl item - 1) = i)) as [<-|Hne].
    - rewrite list_lookup_insert_eq by (by apply lookup_lt_Some in H2). rewrite Hh in H2.
      injection H2 as <-. by eexists.
    - rewrite list_lookup_insert_ne by done. by exists h. }
  clearbody hops. destruct Hh' as (h' & Hh' & Hr').
  by rewrite (free_cleared 5 i hops h' Hi Hh' Hr').
Qed.

(** ** Sample runs *)

Definition ip4 (a b c d : Z) : sockaddr := SockIn (a + 256 * b + 65536 * c + 16777216 * d).
Definition target : dest := {| ai_family := AF_INET; ai_addr := Some (ip4 10 0 0 9) |}.
Definition sample_opts : opt_t :=
  {| packet_size := 60; inter_packet_delay := 100; dscp := 0; ip := true; as_opt := false |}.
Definition sample_socks : socket_t := {| socket := 5; socket6 := 6 |}.
Definition works (t : timeval) : net := {| hops_ok := true; transmit := fun _ _ => (true, t) |}.
Definition fails (t : timeval) : net := {| hops_ok := true; transmit := fun _ _ => (false, t) |}.
Definition sample_start : probe_list_t :=
  start_traceroute sample_socks sample_opts 50 40000 [(target, 0)].

(** An ICMP error from a router: a 20 byte header, the type and code, and the
    probe it quotes with the TTL it then had. *)
Definition error_packet (type code id ttl ident : Z) : list Z :=
  ([69; 0; 0; 56] ++ replicate 16 0) ++ [type; code; 0; 0; 0; 0; 0; 0]
  ++ [69; 0; 0; 60] ++ be16 id ++ [0; 0; ttl; 17] ++ replicate 10 0
  ++ be16 ident ++ be16 33434 ++ replicate 40 0.

(** Events one after the other; the timer events only while the timer runs. *)
Fixpoint run (evs : list event) (pl : probe_list_t) : res probe_list_t :=
  match evs with
  | [] => Ok pl
  | e :: evs => pl ← handle pl e; run evs pl
  end.
Definition timer_set (pl : probe_list_t) (e : event) : bool :=
  negb (halted pl) &&
  match e with
  | ESend _ _ => bool_decide (is_Some (sendtimer pl))
  | ETimeout _ => bool_decide (is_Some (timeout pl))
  | ERecv _ _ => false
  end.
Fixpoint run_timers (evs : list event) (pl : probe_list_t) : option probe_list_t :=
  match evs with
  | [] => Some pl
  | e :: evs =>
      if timer_set pl e then
        match handle pl e with Ok pl => run_timers evs pl | Fault _ => None end
      else None
  end.

Lemma run_timers_steps evs pl pl' : run_timers evs pl = Some pl' -> rtc step pl pl'.
Proof.
  revert pl. induction evs as [|e evs IH]; intros pl; cbn; [by intros [= ->]|].
  destruct (timer_set pl e) eqn:Ht; [|done]. destruct (handle pl e) as [pl1|] eqn:Eh; [|done].
  intros H. eapply rtc_l; [|by apply IH]. exists e. split; [|done].
  unfold timer_set in Ht. apply andb_true_iff in Ht as [Hh%negb_true_iff Ht]. split; [done|].
  destruct e; cbn in Ht |- *; try discriminate; apply bool_decide_eq_true in Ht as [? ->]; done.
Qed.

(** A target that never answers: three probes with TTL 3 and three with TTL 1. *)
Definition silent : list event :=
  flat_map (fun t => [ESend (works (Tv t 0)) (Tv t 0); ETimeout (Tv (t + 2) 0)])
           [100; 102; 104; 106; 108; 110].

Lemma silent_halts : exists pl, run_timers silent sample_start = Some pl /\ halted pl = true.
Proof.
  assert (H : halted <$> run_timers silent sample_start = Some true) by (vm_compute; reflexivity).
  destruct (run_timers silent sample_start) as [pl|]; [|discriminate].
  exists pl. split; [done|]. by injection H.
Qed.

Lemma traceroute_completes_witness :
  exists pl, halted pl = true /\ id <$> done_ pl ≡ₚ [0] /\
    exists reports, report_results sample_opts (done_count pl) (done_ pl) = Ok reports /\
      length reports = 1%nat.
Proof.
  destruct silent_halts as (pl & E & Hh).
  destruct (traceroute_completes sample_socks sample_opts 50 40000 [(target, 0)] pl)
    as (_ & _ & _ & Hend).
  - done.
  - done.
  - by vm_compute.
  - done.
  - done.
  - done.
  - constructor; [|done]. split; [intros _; right; by eexists|unfold random_ok; cbn; lia].
  - by eapply run_timers_steps.
  - exists pl. split; [done|]. exact (Hend Hh).
Defined.

Definition first_item : dest_info_t := new_item target 0 0.
Lemma first_item_live : live first_item.
Proof. apply new_item_live; [intros _; right; by eexists|unfold random_ok; lia]. Qed.

Lemma traceroute_probe_roundtrip_witness :
  read_response AF_INET (([69; 0; 0; 56] ++ replicate 16 0) ++ [11; 0] ++ replicate 6 0)
    sample_start = Fault OutOfBounds /\
  read_response AF_INET
    ((([69; 0; 0; 56] ++ replicate 16 0) ++ [11; 0] ++ replicate 6 0)
     ++ [69; 0; 0; 60] ++ be16 3072 ++ [0; 0; 1; 17] ++ replicate 10 0 ++ be16 40000)
    sample_start = Ok (Some (0, 3, 11, 0)).
Proof.
  split; [vm_compute; reflexivity|].
  destruct (traceroute_probe_roundtrip sample_start first_item (replicate 60 0) 60 0 target
    ([69; 0] ++ be16 60 ++ be16 3072 ++ [0; 0; 3; 17; 0; 0] ++ [0; 0; 0; 0] ++ [10; 0; 0; 9]
     ++ be16 40000 ++ be16 33434 ++ be16 40 ++ replicate 34 0) 60) as [H4 _].
  - vm_compute. intuition discriminate.
  - vm_compute. discriminate.
  - vm_compute. intuition discriminate.
  - vm_compute. intuition discriminate.
  - vm_compute. reflexivity.
  - refine (H4 ([69; 0; 0; 56] ++ replicate 16 0) 11 0 (replicate 6 0) _ 14336 _ _ _ _ _).
    + exists 69, ([0; 0; 56] ++ replicate 16 0). vm_compute. intuition discriminate.
    + reflexivity.
    + vm_compute. reflexivity.
    + vm_compute. discriminate.
    + unfold agree. rewrite !Forall_cons. vm_compute. split_and!; try reflexivity. constructor.
Defined.

Lemma traceroute_bogus_ttl_witness :
  respond (ip4 10 0 0 9) (error_packet 3 3 3072 4 40000) (Tv 101 0) 3 3 3 first_item
  = Fault OutOfBounds.
Proof.
  apply (traceroute_bogus_ttl (ip4 10 0 0 9) (error_packet 3 3 3072 4 40000) (Tv 101 0) 3 3 first_item).
  - exact (proj1 first_item_live).
  - reflexivity.
  - vm_compute. discriminate.
  - vm_compute. reflexivity.
Defined.

Lemma traceroute_never_ends_witness :
  exists item', respond (ip4 10 0 0 9) (error_packet 3 3 3072 0 40000) (Tv 101 0) 3 3 3 first_item
    = Ok (Again, item') /\ stuck item' /\ addr item' = target.
Proof.
  destruct (traceroute_never_ends (ip4 10 0 0 9) (error_packet 3 3 3072 0 40000) (Tv 101 0) 3 3 first_item)
    as [H _]; [reflexivity|reflexivity|reflexivity|vm_compute; reflexivity|].
  exact (H (proj1 first_item_live) eq_refl eq_refl).
Defined.

(** The destination after its second hop answered. *)
Definition answered_hop : hop_info_t :=
  {| time_sent := Tv 100 0; as_ := 0; delay := 500; reply := REPLY_OK; hop_addr := Some (ip4 10 0 0 1) |}.
Definition answered_item : dest_info_t :=
  set_hop first_item (<[1%nat := answered_hop]> (hop first_item)).

Lemma failed_send_breaks_cleanup_witness :
  exists item', send_probe sample_socks 40000 sample_opts (fails (Tv 102 0)) answered_item = Ok (-1, item') /\
    free_dest_info [item'] = Fault NullDeref.
Proof.
  eexists. split; [vm_compute; reflexivity|].
  eapply (failed_send_breaks_cleanup sample_socks 40000 sample_opts (fails (Tv 102 0)) answered_item
           _ answered_hop 1 []).
  - reflexivity.
  - lia.
  - reflexivity.
  - reflexivity.
  - discriminate.
  - reflexivity.
  - reflexivity.
  - by left.
  - vm_compute. reflexivity.
Defined.

(** What the paths of the done list look like. *)
Definition paths (r : res probe_list_t) : res (list (Z * Z) * bool) :=
  match r with
  | Ok pl => Ok ((fun i => (path_length i, err_type i)) <$> done_ pl, halted pl)
  | Fault f => Fault f
  end.

(** A path of two hops: the first probe reaches the target, then hop 1 answers. *)
Example two_hops :
  paths (run [ESend (works (Tv 100 0)) (Tv 100 0);
              ERecv (Some (ip4 10 0 0 9, error_packet 3 3 3072 2 40000, Tv 100 900)) (Tv 101 0);
              ESend (works (Tv 101 0)) (Tv 101 0);
              ERecv (Some (ip4 10 0 0 1, error_packet 11 0 1024 1 40000, Tv 101 500)) (Tv 102 0)]
             sample_start) = Ok ([(2, 0)], true).
Proof. vm_compute. reflexivity. Qed.

(** An unreachable message that is not from the destination is taken for one that
    is: compare_addresses() is asked to compare no bits at all. *)
Example unreachable_from_router :
  paths (run [ESend (works (Tv 100 0)) (Tv 100 0);
              ERecv (Some (ip4 192 168 0 1, error_packet 3 3 3072 3 40000, Tv 100 900)) (Tv 101 0)]
             sample_start) = Ok ([(1, 0)], true).
Proof. vm_compute. reflexivity. Qed.

(** A reply that arrives after the loss timeout, but before the timer fires, is
    recorded and then the destination is in no list: the test ends without a
    report of it. *)
Example late_reply_loses_target :
  match run [ESend (works (Tv 100 0)) (Tv 100 0);
             ERecv (Some (ip4 10 0 0 1, error_packet 11 0 3072 1 40000, Tv 102 1)) (Tv 102 1)]
            sample_start with
  | Ok pl => Ok (length (pending pl ++ ready pl ++ outstanding pl ++ done_ pl), halted pl)
  | Fault f => Fault f
  end = Ok (0%nat, true).
Proof. vm_compute. reflexivity. Qed.

(** A redirect for every probe of the first hop, probing backward: the path
    length wraps to 255, and probing starts again from the first response. *)
Example redirects_wrap_path_length :
  match run ([ESend (works (Tv 100 0)) (Tv 100 0);
              ERecv (Some (ip4 10 0 0 9, error_packet 3 3 3072 2 40000, Tv 100 900)) (Tv 101 0)]
             ++ flat_map (fun t => [ESend (works (Tv t 0)) (Tv t 0);
                  ERecv (Some (ip4 10 0 0 1, error_packet 5 0 1024 1 40000, Tv t 500)) (Tv t 600)])
                  [102; 103; 104])
            sample_start with
  | Ok pl => Ok ((fun i => (path_length i, ttl i)) <$> ready pl)
  | Fault f => Fault f
  end = Ok [(255, 1)].
Proof. vm_compute. reflexivity. Qed.

(** A hop probed backward that answers "host unreachable" restarts backward
    probing from the hop before the first response: hop 2 of 3 is probed again,
    and again after each such answer. *)
Example unreachable_restarts_backward :
  match run [ESend (works (Tv 100 0)) (Tv 100 0);
             ERecv (Some (ip4 10 0 0 9, error_packet 3 3 3072 1 40000, Tv 100 900)) (Tv 101 0);
             ESend (works (Tv 101 0)) (Tv 101 0)] sample_start with
  | Ok pl =>
      match handle pl (ERecv (Some (ip4 10 0 0 2, error_packet 3 1 2048 1 40000, Tv 101 500)) (Tv 102 0)) with
      | Ok pl' => Ok (ttl <$> outstanding pl, ttl <$> ready pl')
      | Fault f => Fault f
      end
  | Fault f => Fault f
  end = Ok ([2], [2]).
Proof. vm_compute. reflexivity. Qed.
