(* ===== verification/Controlmsg.v ===== *)
(** The control connection (src/common/controlmsg.c): messages framed by their
    length on a byte stream, and the messages the two ends of a test exchange.

    The stream is what select() and the BIO answer, one [io] event after the
    other; a list that has ended is a peer that stays silent, so that select()
    times out.  Buffers are below 2 GiB, as [int] lengths require. *)
From stdpp Require Import countable.
From S2P Require Import Prelude CLib Bytes.
#[local] Open Scope Z_scope.

(** ** The stream *)

(** What one round of a transfer loop meets: select() interrupted, timed out,
    failed or without our descriptor in its set; then the BIO closed, to be
    retried, failed, or [Moved] some bytes. *)
Inductive io (A : Type) : Type :=
| Intr | TimedOut | SelFailed | NotSet | Closed | Retry | Failed | Moved (a : A).
Arguments Intr {A}.
Arguments TimedOut {A}.
Arguments SelFailed {A}.
Arguments NotSet {A}.
Arguments Closed {A}.
Arguments Retry {A}.
Arguments Failed {A}.
Arguments Moved {A} a.

(** do_control_write(): [rest] is the data not yet written, [total_written] what
    was; a [Moved n] event is a BIO that takes up to [n] bytes.  The return
    value, the bytes written, and the events left. *)
Fixpoint write_loop (env : list (io Z)) (rest : list Z) (total_written : Z)
    : Z * list Z * list (io Z) :=
  match env with
  | [] => (-1, [], [])
  | Intr :: env => write_loop env rest total_written
  | TimedOut :: env | SelFailed :: env | Closed :: env | Failed :: env => (-1, [], env)
  | NotSet :: env | Retry :: env =>
      match rest with [] => (total_written, [], env) | _ => write_loop env rest total_written end
  | Moved n :: env =>
      let bytes := Z.min n (Z.of_nat (length rest)) in
      if bytes <=? 0 then (-1, [], env)
      else
        let total_written := total_written + bytes in
        match drop (Z.to_nat bytes) rest with
        | [] => (total_written, take (Z.to_nat bytes) rest, env)
        | rest' =>
            let '(r, out, env) := write_loop env rest' total_written in
            (r, take (Z.to_nat bytes) rest ++ out, env)
        end
  end.
Definition do_control_write (env : list (io Z)) (data : list Z) : Z * list Z * list (io Z) :=
  write_loop env data 0.

(** write_control_packet(): the length in network byte order, then the data. *)
Definition write_control_packet (env : list (io Z)) (data : list Z) : Z * list Z * list (io Z) :=
  let datalen := Z.of_nat (length data) in
  let '(r, out, env) := do_control_write env (le32 (ntohl datalen)) in
  if negb (r =? 4) then (-1, out, env)
  else
    let '(r, out', env) := do_control_write env data in
    if negb (r =? i32 datalen) then (-1, out ++ out', env) else (datalen, out ++ out', env).

(** A chunk of which nothing is left has been read. *)
Definition put_back (chunk : list Z) (env : list (io (list Z))) : list (io (list Z)) :=
  match chunk with [] => env | _ => Moved chunk :: env end.

(** do_control_read(): [got] is what the buffer holds.  A [Moved chunk] event is
    data that has arrived; what BIO_read() does not take stays there. *)
Fixpoint read_loop (env : list (io (list Z))) (got : list Z) (datalen : Z)
    : Z * list Z * list (io (list Z)) :=
  match env with
  | [] => (-1, got, [])
  | Intr :: env => read_loop env got datalen
  | TimedOut :: env | SelFailed :: env | Failed :: env => (-1, got, env)
  | Closed :: env => (0, got, env)
  | NotSet :: env | Retry :: env =>
      if Z.of_nat (length got) <? datalen then read_loop env got datalen
      else (Z.of_nat (length got), got, env)
  | Moved chunk :: env =>
      let bytes := Z.min (Z.of_nat (length chunk)) (datalen - Z.of_nat (length got)) in
      if bytes <=? 0 then (0, got, put_back chunk env)
      else
        let got := got ++ take (Z.to_nat bytes) chunk in
        if Z.of_nat (length got) <? datalen then read_loop env got datalen
        else (Z.of_nat (length got), got, put_back (drop (Z.to_nat bytes) chunk) env)
  end.
Definition do_control_read (env : list (io (list Z))) (datalen : Z)
    : Z * list Z * list (io (list Z)) :=
  read_loop env [] datalen.

Definition MAX_CONTROL_MESSAGE_SIZE : Z := 1024 * 1024 * 10.

(** read_control_packet(): the return value, [*data] and the events left. *)
Definition read_control_packet (env : list (io (list Z))) : Z * list Z * list (io (list Z)) :=
  let '(result, buf, env) := do_control_read env 4 in
  if negb (result =? 4) then (-1, [], env)
  else
    let datalen := ntohl (ld32 buf) in
    if datalen >? MAX_CONTROL_MESSAGE_SIZE then (-1, [], env)
    else
      let '(result, data, env) := do_control_read env datalen in
      if negb (result =? i32 datalen) then (-1, [], env) else (i32 datalen, data, env).

(** ** Framing *)

(** A message as it travels. *)
Definition frame (data : list Z) : list Z := be32 (Z.of_nat (length data)) ++ data.

(** The bytes that arrive before the stream breaks. *)
Fixpoint stream (env : list (io (list Z))) : list Z :=
  match env with
  | Moved [] :: _ => []
  | Moved chunk :: env => chunk ++ stream env
  | Intr :: env | NotSet :: env | Retry :: env => stream env
  | _ => []
  end.

(** The reference decoder: the first message of a byte string. *)
Definition parse_frame (s : list Z) : option (list Z * list Z) :=
  let n := be_val (take 4 s) in
  let body := drop 4 s in
  if bool_decide (length s < 4)%nat || (n >? MAX_CONTROL_MESSAGE_SIZE)
     || (Z.of_nat (length body) <? n)
  then None else Some (take (Z.to_nat n) body, drop (Z.to_nat n) body).

Lemma stream_put_back chunk env : stream (put_back chunk env) = chunk ++ stream env.
Proof. by destruct chunk. Qed.

(** Reading takes the first bytes of the stream when they are there. *)
Lemma read_loop_enough env got datalen :
  Z.of_nat (length got) < datalen <= Z.of_nat (length got + length (stream env)) ->
  exists env', read_loop env got datalen
    = (datalen, got ++ take (Z.to_nat datalen - length got) (stream env), env') /\
    stream env' = drop (Z.to_nat datalen - length got) (stream env).
Proof.
  revert got. induction env as [|e env IH]; intros got Hd; cbn in Hd; [lia|].
  destruct e as [| | | | | | |chunk]; try (cbn in Hd; lia); cbn [read_loop stream] in *.
  1: by apply IH.
  1,2: rewrite (proj2 (Z.ltb_lt _ _)) by lia; by apply IH.
  destruct chunk as [|b chunk]; [cbn in Hd; lia|]. set (c := b :: chunk) in *.
  assert (Hc : (0 < length c)%nat) by (subst c; cbn; lia).
  rewrite (proj2 (Z.leb_gt _ _)) by lia. rewrite length_app in Hd.
  destruct (Z.le_gt_cases (datalen - Z.of_nat (length got)) (Z.of_nat (length c))).
  - rewrite Z.min_r by lia. rewrite length_app, length_take.
    rewrite (proj2 (Z.ltb_ge _ _)) by lia. exists (put_back (drop (Z.to_nat (datalen - Z.of_nat (length got))) c) env).
    rewrite stream_put_back.
    replace (Z.to_nat datalen - length got)%nat with (Z.to_nat (datalen - Z.of_nat (length got))) by lia.
    rewrite take_app_le, drop_app_le by lia. split; [|done]. do 2 f_equal. lia.
  - rewrite Z.min_l, Nat2Z.id, firstn_all by lia. rewrite length_app, (proj2 (Z.ltb_lt _ _)) by lia.
    destruct (IH (got ++ c)) as (env' & -> & Hs); [rewrite length_app; lia|].
    exists env'. rewrite Hs, length_app, <- app_assoc. rewrite take_app_ge, drop_app_ge by lia.
    by rewrite Nat.sub_add_distr.
Qed.

(** It fails when they are not. *)
Lemma read_loop_short env got datalen :
  Z.of_nat (length got + length (stream env)) < datalen ->
  exists r buf env', read_loop env got datalen = (r, buf, env') /\ r <= 0.
Proof.
  revert got. induction env as [|e env IH]; intros got Hd; cbn in Hd; [by eexists _, _, _|].
  destruct e as [| | | | | | |chunk]; cbn [read_loop stream] in *;
    try (eexists _, _, _; split; [done|lia]).
  1: by apply IH.
  1,2: rewrite (proj2 (Z.ltb_lt _ _)) by lia; by apply IH.
  destruct chunk as [|b chunk]; [cbn in Hd; cbn; rewrite (proj2 (Z.leb_le _ _)) by lia; by eexists _, _, _|].
  set (c := b :: chunk) in *. assert (Hc : (0 < length c)%nat) by (subst c; cbn; lia).
  rewrite length_app in Hd. rewrite Z.min_l by lia. rewrite (proj2 (Z.leb_gt _ _)) by lia.
  rewrite Nat2Z.id, firstn_all, length_app, (proj2 (Z.ltb_lt _ _)) by lia.
  apply IH. rewrite length_app. lia.
Qed.

(** An empty message still waits for select(). *)
Lemma read_loop_zero env :
  exists r env', read_loop env [] 0 = (r, [], env') /\ (r = 0 \/ r = -1).
Proof.
  induction env as [|e env IH]; [by eexists _, _; auto|].
  destruct e as [| | | | | | |chunk]; cbn [read_loop];
    try (eexists _, _; split; [done|by auto]); try apply IH.
  rewrite (proj2 (Z.leb_le _ _)) by (cbn; lia). by eexists _, _; auto.
Qed.

Lemma i32_len n : 0 <= n <= MAX_CONTROL_MESSAGE_SIZE -> i32 n = n.
Proof. unfold MAX_CONTROL_MESSAGE_SIZE. intros. apply i32_id. lia. Qed.

Lemma be_val_range l : bytes_ok l -> length l = 4%nat -> 0 <= be_val l.
Proof. intros Hb Hl. rewrite <- ntohl_ld32 by done. apply bswap32_range. Qed.

(** The reader on a whole stream. *)
Lemma read_control_packet_spec env :
  bytes_ok (stream env) ->
  match parse_frame (stream env) with
  | Some ([], _) => exists r env', read_control_packet env = (r, [], env') /\ r <= 0
  | Some (data, rest) =>
      exists env', read_control_packet env = (Z.of_nat (length data), data, env') /\ stream env' = rest
  | None => exists env', read_control_packet env = (-1, [], env')
  end.
Proof.
  intros Hb. unfold parse_frame, read_control_packet, do_control_read.
  destruct (decide (length (stream env) < 4)%nat) as [Hs|Hs].
  { rewrite bool_decide_eq_true_2 by done. cbn [orb].
    destruct (read_loop_short env [] 4) as (r & buf & env' & -> & Hr); [cbn; lia|].
    rewrite (proj2 (Z.eqb_neq r 4)) by lia. by eexists. }
  rewrite bool_decide_eq_false_2 by done. cbn [orb].
  destruct (read_loop_enough env [] 4) as (env1 & -> & Hs1); [cbn; lia|].
  change (Z.to_nat 4 - length [])%nat with 4%nat in *. cbn [app]. change (4 =? 4) with true. cbn [negb].
  assert (H4 : length (take 4 (stream env)) = 4%nat) by (rewrite length_take; lia).
  assert (Hb4 : bytes_ok (take 4 (stream env))) by (by apply Forall_take).
  rewrite ntohl_ld32 by done. pose proof (be_val_range _ Hb4 H4) as Hn.
  set (n := be_val (take 4 (stream env))) in *.
  destruct (Z.gtb_spec n MAX_CONTROL_MESSAGE_SIZE); cbn [orb]; [by eexists|].
  rewrite i32_len by lia.
  rewrite <- Hs1. destruct (Z.ltb_spec (Z.of_nat (length (stream env1))) n) as [Hl|Hl].
  { destruct (read_loop_short env1 [] n) as (r & buf & env' & -> & Hr); [cbn; lia|].
    rewrite (proj2 (Z.eqb_neq r n)) by lia. by eexists. }
  destruct (decide (n = 0)) as [->|Hn0].
  { destruct (read_loop_zero env1) as (r & env' & -> & Hr). cbn.
    destruct Hr as [->| ->]; by eexists _, _. }
  destruct (read_loop_enough env1 [] n) as (env2 & -> & Hs2); [cbn; lia|].
  rewrite Z.eqb_refl. cbn [negb app length] in *. rewrite Nat.sub_0_r in *.
  destruct (take (Z.to_nat n) (stream env1)) as [|d ds] eqn:Ed.
  { apply (f_equal length) in Ed. rewrite length_take in Ed. cbn in Ed. lia. }
  exists env2. rewrite <- Ed, length_take, Nat.min_l by lia. split; [|by rewrite Hs2].
  do 3 f_equal; lia.
Qed.

(** [while ((bytes = read_control_packet(ctrl, &data)) > 0)]: the messages its
    first [n] rounds see, and the reference. *)
Fixpoint read_packets (n : nat) (env : list (io (list Z))) : list (list Z) :=
  match n with
  | O => []
  | S n =>
      let '(bytes, data, env) := read_control_packet env in
      if bytes >? 0 then data :: read_packets n env else []
  end.
Fixpoint parse_frames (n : nat) (s : list Z) : list (list Z) :=
  match n with
  | O => []
  | S n =>
      match parse_frame s with
      | None | Some ([], _) => []
      | Some (data, rest) => data :: parse_frames n rest
      end
  end.

Lemma parse_frame_rest s data rest : parse_frame s = Some (data, rest) -> exists pre, s = pre ++ rest.
Proof.
  unfold parse_frame. case_ifs; [done|]. intros [= _ <-]. rewrite drop_drop. eexists.
  symmetry. apply take_drop.
Qed.

(** *** Reading through TLS *)

(** do_control_read() on a TLS connection.  BIO_read() decrypts a record at a time, and what
    it does not hand out ([held]) is out of sight of select(): a [Moved] event is a record on
    the socket, and as long as something is held BIO_read() gives that and leaves the
    record where it is. *)
Fixpoint tls_loop (env : list (io (list Z))) (held got : list Z) (datalen : Z)
    : Z * list Z * (list Z * list (io (list Z))) :=
  match env with
  | [] => (-1, got, (held, []))
  | Intr :: env => tls_loop env held got datalen
  | TimedOut :: env | SelFailed :: env => (-1, got, (held, env))
  | NotSet :: env =>
      if Z.of_nat (length got) <? datalen then tls_loop env held got datalen
      else (Z.of_nat (length got), got, (held, env))
  | e :: env' =>
      let wanted := datalen - Z.of_nat (length got) in
      if bool_decide (held <> []) && (wanted <=? Z.of_nat (length held)) then
        let got := got ++ take (Z.to_nat wanted) held in
        (if wanted <=? 0 then 0 else Z.of_nat (length got), got, (drop (Z.to_nat wanted) held, env))
      else
        let got := got ++ held in
        let wanted := datalen - Z.of_nat (length got) in
        match e with
        | Moved record =>
            let bytes := Z.min (Z.of_nat (length record)) wanted in
            if bytes <=? 0 then (0, got, (record, env'))
            else
              let got := got ++ take (Z.to_nat bytes) record in
              if Z.of_nat (length got) <? datalen then tls_loop env' [] got datalen
              else (Z.of_nat (length got), got, (drop (Z.to_nat bytes) record, env'))
        | Retry => if Z.of_nat (length got) <? datalen then tls_loop env' [] got datalen
                   else (Z.of_nat (length got), got, ([], env'))
        | Closed => (0, got, ([], env'))
        | _ => (-1, got, ([], env'))
        end
  end.
(** read_control_packet() and the loop around it, on such a connection. *)
Definition tls_control_packet (c : list Z * list (io (list Z))) : Z * list Z * (list Z * list (io (list Z))) :=
  let '(result, buf, c) := tls_loop (snd c) (fst c) [] 4 in
  if negb (result =? 4) then (-1, [], c)
  else
    let datalen := ntohl (ld32 buf) in
    if datalen >? MAX_CONTROL_MESSAGE_SIZE then (-1, [], c)
    else
      let '(result, data, c) := tls_loop (snd c) (fst c) [] datalen in
      if negb (result =? i32 datalen) then (-1, [], c) else (i32 datalen, data, c).
Fixpoint tls_packets (n : nat) (c : list Z * list (io (list Z))) : list (list Z) :=
  match n with
  | O => []
  | S n =>
      let '(bytes, data, c) := tls_control_packet c in
      if bytes >? 0 then data :: tls_packets n c else []
  end.

(** The records that arrive before the stream breaks. *)
Fixpoint records (env : list (io (list Z))) : list (list Z) :=
  match env with
  | Moved [] :: _ => []
  | Moved record :: env => record :: records env
  | Intr :: env | NotSet :: env | Retry :: env => records env
  | _ => []
  end.
(** A message as write_control_packet() puts it on a TLS connection: a record with the
    length, then the data in records of its own. *)
Definition sent_as (data : list Z) (rs : list (list Z)) : Prop :=
  data <> [] /\ Z.of_nat (length data) <= MAX_CONTROL_MESSAGE_SIZE /\
  exists body, rs = be32 (Z.of_nat (length data)) :: body /\ concat body = data /\ Forall (fun r => r <> []) body.

Lemma records_nonempty env l : records env <> [] :: l.
Proof. revert l. induction env as [|[| | | | | | |[|c cs]] env IH]; intros l; try done; apply IH. Qed.
Lemma tls_loop_records env rs rest got datalen :
  records env = rs ++ rest -> rs <> [] -> Z.of_nat (length got + length (concat rs)) = datalen ->
  exists env', tls_loop env [] got datalen = (datalen, got ++ concat rs, ([], env')) /\ records env' = rest.
Proof.
  revert rs got. induction env as [|e env IH]; intros rs got Hr Hne Hd.
  { symmetry in Hr. by apply app_eq_nil in Hr as [-> _]. }
  assert (Hgot : forall r rs', rs = r :: rs' -> records env = rs' ++ rest -> r <> [] ->
    exists env', tls_loop (Moved r :: env) [] got datalen = (datalen, got ++ concat rs, ([], env')) /\ records env' = rest).
  { intros r rs' -> Hr' Hnr. assert (0 < length r)%nat by (destruct r; [done|cbn; lia]).
    cbn [concat] in Hd |- *. rewrite length_app in Hd.
    cbn [tls_loop]. rewrite bool_decide_eq_false_2 by tauto. cbn [andb]. rewrite app_nil_r.
    rewrite Z.min_l by lia. rewrite (proj2 (Z.leb_gt _ _)), Nat2Z.id, firstn_all, length_app by lia.
    destruct rs' as [|r' rs'].
    - cbn [concat length] in Hd |- *. rewrite (proj2 (Z.ltb_ge _ _)), drop_all, app_nil_r by lia. exists env.
      split; [do 2 f_equal; lia|done].
    - destruct (Z.ltb_spec (Z.of_nat (length got + length r)) datalen) as [Hlt|Hge].
      + destruct (IH (r' :: rs') (got ++ r)) as (env' & -> & He); [done|done|rewrite length_app; lia|].
        exists env'. by rewrite <- app_assoc.
      + destruct r' as [|b r']; [|cbn in Hd; lia]. by apply records_nonempty in Hr'. }
  destruct e as [| | | | | | |r]; cbn [records] in Hr; try (symmetry in Hr; by apply app_eq_nil in Hr as [-> _]).
  - cbn [tls_loop]. by apply IH.
  - cbn [tls_loop]. destruct (Z.ltb_spec (Z.of_nat (length got)) datalen); [by apply IH|].
    destruct rs as [|r rs]; [done|]. cbn [concat] in Hd. rewrite length_app in Hd.
    destruct r as [|b r]; [|cbn in Hd; lia]. by apply records_nonempty in Hr.
  - cbn [tls_loop]. rewrite bool_decide_eq_false_2 by tauto. cbn [andb]. rewrite app_nil_r.
    destruct (Z.ltb_spec (Z.of_nat (length got)) datalen); [by apply IH|].
    destruct rs as [|r rs]; [done|]. cbn [concat] in Hd. rewrite length_app in Hd.
    destruct r as [|b r]; [|cbn in Hd; lia]. by apply records_nonempty in Hr.
  - destruct r as [|b r]; [symmetry in Hr; by apply app_eq_nil in Hr as [-> _]|].
    destruct rs as [|r0 rs]; [done|]. cbn [app] in Hr. injection Hr as <- Hr. by eapply Hgot.
Qed.
Lemma tls_loop_end env datalen :
  records env = [] -> 0 < datalen -> exists r buf c, tls_loop env [] [] datalen = (r, buf, c) /\ r <= 0.
Proof.
  intros Hr Hd. induction env as [|e env IH]; [by eexists _, _, _|].
  destruct e as [| | | | | | |[|b r]]; cbn [records] in Hr; try done; cbn [tls_loop length Nat.add];
    rewrite ?(bool_decide_eq_false_2 ([] <> [])) by tauto; cbn [andb app length]; change (Z.of_nat 0) with 0;
    rewrite ?(proj2 (Z.ltb_lt 0 datalen) Hd); try (by apply IH); try (eexists _, _, _; split; [done|lia]).
  rewrite (proj2 (Z.leb_le _ 0)) by lia. by eexists _, _, _.
Qed.

Lemma tls_packet_sent env data rs rest :
  sent_as data rs -> records env = rs ++ rest ->
  exists env', tls_control_packet ([], env) = (Z.of_nat (length data), data, ([], env')) /\ records env' = rest.
Proof.
  intros (Hne & Hmax & body & -> & Hb & _) Hr. unfold tls_control_packet. cbn [fst snd].
  assert (H4 : length (be32 (Z.of_nat (length data))) = 4%nat) by done.
  destruct (tls_loop_records env [be32 (Z.of_nat (length data))] (body ++ rest) [] 4) as (env1 & -> & Hr1); [done|done| |].
  { cbn [concat]. rewrite app_nil_r. by rewrite H4. }
  cbn [concat app]. rewrite app_nil_r. change (4 =? 4) with true. cbn [negb].
  rewrite ntohl_ld32 by (done || apply be32_bytes). rewrite be32_val, u32_id by (unfold MAX_CONTROL_MESSAGE_SIZE in Hmax; lia).
  destruct (Z.gtb_spec (Z.of_nat (length data)) MAX_CONTROL_MESSAGE_SIZE); [lia|]. cbn [fst snd]. rewrite i32_len by lia.
  destruct (tls_loop_records env1 body rest [] (Z.of_nat (length data))) as (env2 & -> & Hr2); [done| |by rewrite Hb|].
  { intros ->. by subst data. }
  rewrite Z.eqb_refl. cbn [negb app]. rewrite Hb. by exists env2.
Qed.
Lemma tls_packets_sent n msgs rss env :
  Forall2 sent_as msgs rss -> records env = concat rss -> tls_packets n ([], env) = take n msgs.
Proof.
  revert msgs rss env. induction n as [|n IH]; intros msgs rss env Hs Hr; [done|]. cbn [tls_packets].
  destruct Hs as [|data rs msgs rss Hd Hs].
  - unfold tls_control_packet. cbn [fst snd]. destruct (tls_loop_end env 4) as (r & buf & c & -> & Hle); [done..|].
    by rewrite (proj2 (Z.eqb_neq r 4)) by lia.
  - cbn [concat] in Hr. destruct (tls_packet_sent env data rs (concat rss) Hd Hr) as (env' & -> & Hr').
    destruct Hd as (Hne & _). destruct (Z.gtb_spec (Z.of_nat (length data)) 0); [|destruct data; cbn in *; [done|lia]].
    cbn [take]. f_equal. by apply (IH _ rss).
Qed.

(** C19: What a server reads from a control connection, until read_control_packet() does not
    return a message.  On a plain connection, however the bytes are cut into chunks and
    whatever signals and retries come between them, it gets the messages that the byte
    string encodes, each with the length its first four bytes give in network order, none
    lost or split, up to the first length that is 0, or over 10 MiB, or more than the stream
    holds: there it stops, whatever follows.  On a TLS connection, where select() does not
    see what has been decrypted already, this holds for a peer that, like
    write_control_packet(), puts the length of each message in a record and its data (which is
    not empty) into further records of its own: the messages are read as they
    were sent, whatever signals and retries come between the records. *)
Theorem read_packets_decodes n env :
  (bytes_ok (stream env) -> read_packets n env = parse_frames n (stream env)) /\
  (forall msgs rss, Forall2 sent_as msgs rss -> records env = concat rss ->
     tls_packets n ([], env) = take n msgs).
Proof.
  split; [|intros msgs rss Hs Hr; by eapply tls_packets_sent].
  revert env. induction n as [|n IH]; intros env Hb; [done|]. cbn [read_packets parse_frames].
  pose proof (read_control_packet_spec env Hb) as Hs.
  destruct (parse_frame (stream env)) as [[[|d data] rest]|] eqn:Ep.
  - destruct Hs as (r & env' & -> & Hr). destruct (Z.gtb_spec r 0); [lia|done].
  - destruct Hs as (env' & -> & Hr). destruct (Z.gtb_spec (Z.of_nat (length (d :: data))) 0); [|cbn in *; lia].
    f_equal. rewrite <- Hr. apply IH. rewrite Hr.
    destruct (parse_frame_rest _ _ _ Ep) as [pre Epre]. rewrite Epre in Hb. by apply Forall_app in Hb as [_ ?].
  - by destruct Hs as (env' & ->).
Qed.

(** Two messages, their bytes cut in odd places. *)
Definition two_messages : list (io (list Z)) :=
  [Moved [0; 0]; Intr; Moved [0; 2; 7]; Retry; Moved [9; 0; 0; 0; 1; 5; 0]; Closed].
(** The same messages as TLS records. *)
Definition two_sent : list (io (list Z)) :=
  [Moved [0; 0; 0; 2]; Intr; Moved [7]; Retry; Moved [9]; Moved [0; 0; 0; 1]; Moved [5]; Closed].
Lemma read_packets_decodes_witness :
  read_packets 5 two_messages = [[7; 9]; [5]] /\ tls_packets 5 ([], two_sent) = [[7; 9]; [5]].
Proof.
  split.
  - rewrite (proj1 (read_packets_decodes 5 two_messages)); [reflexivity|]. repeat constructor; lia.
  - rewrite (proj2 (read_packets_decodes 5 two_sent) [[7; 9]; [5]]
      [[[0; 0; 0; 2]; [7]; [9]]; [[0; 0; 0; 1]; [5]]]); [reflexivity| |reflexivity].
    repeat constructor; try discriminate; [exists [[7]; [9]]|exists [[5]]]; repeat constructor; discriminate.
Defined.

(** A peer that puts a message with its length into one TLS record, and then waits for the
    answer: the data is never read, and the server gives up when select() times out. *)
Example held_bytes_unseen :
  tls_packets 5 ([], [Moved [0; 0; 0; 2; 7; 9]; TimedOut]) = [] /\
  read_packets 5 [Moved [0; 0; 0; 2; 7; 9]; TimedOut] = [[7; 9]].
Proof. split; reflexivity. Qed.

(** The rounds in which the BIO takes at least a byte, before the stream breaks. *)
Fixpoint accepts (env : list (io Z)) : nat :=
  match env with
  | Moved n :: env => if n <=? 0 then O else S (accepts env)
  | Intr :: env | NotSet :: env | Retry :: env => accepts env
  | _ => O
  end.

(** What was written is a prefix of the data, and all of it on success. *)
Lemma write_loop_out env rest total :
  let '(r, out, _) := write_loop env rest total in
  out `prefix_of` rest /\ (r = -1 \/ r = total + Z.of_nat (length rest) /\ out = rest).
Proof.
  revert rest total. induction env as [|e env IH]; intros rest total; cbn [write_loop].
  { split; [apply prefix_nil|by left]. }
  destruct e as [| | | | | | |n]; try (split; [apply prefix_nil|by left]); try apply IH.
  1,2: destruct rest as [|b rest]; [split; [done|right; cbn; auto with lia]|apply IH].
  destruct (Z.leb_spec (Z.min n (Z.of_nat (length rest))) 0); [split; [apply prefix_nil|by left]|].
  set (k := Z.min n (Z.of_nat (length rest))) in *.
  destruct (drop (Z.to_nat k) rest) as [|b rest'] eqn:Er.
  - assert (Z.of_nat (length rest) <= k).
    { apply (f_equal length) in Er. rewrite length_drop in Er. cbn in Er. lia. }
    rewrite take_ge by lia. split; [done|]. right. split; [lia|done].
  - pose proof (take_drop (Z.to_nat k) rest) as Et. rewrite Er in Et.
    specialize (IH (b :: rest') (total + k)).
    destruct (write_loop env (b :: rest') (total + k)) as [[r out] env'].
    destruct IH as [Hp Hr]. split; [rewrite <- Et at 2; by apply prefix_app|].
    destruct Hr as [->|[-> ->]]; [by left|right]. split; [|done].
    apply (f_equal length) in Et. rewrite length_app, length_take in Et. lia.
Qed.

(** Enough rounds write everything. *)
Lemma write_loop_enough env rest total :
  rest <> [] -> (length rest <= accepts env)%nat ->
  let '(r, out, env') := write_loop env rest total in
  r = total + Z.of_nat (length rest) /\ out = rest /\ (accepts env <= accepts env' + length rest)%nat.
Proof.
  revert rest total. induction env as [|e env IH]; intros rest total Hne Ha; cbn in Ha.
  { destruct rest; [done|cbn in Ha; lia]. }
  assert (Hl : (0 < length rest)%nat) by (destruct rest; [done|cbn; lia]).
  destruct e as [| | | | | | |n]; cbn [write_loop accepts] in *; try lia; try (by apply IH).
  1,2: destruct rest as [|b rest]; [done|by apply IH].
  destruct (Z.leb_spec n 0); [lia|]. set (k := Z.min n (Z.of_nat (length rest))) in *.
  rewrite (proj2 (Z.leb_gt k 0)) by lia.
  destruct (drop (Z.to_nat k) rest) as [|b rest'] eqn:Er;
    pose proof (f_equal length Er) as El; rewrite length_drop in El; cbn [length] in El.
  - rewrite take_ge by lia. split_and!; lia || done.
  - specialize (IH (b :: rest') (total + k) ltac:(done)). cbn [length] in IH.
    destruct (write_loop env (b :: rest') (total + k)) as [[r out] env'].
    destruct IH as (-> & -> & Hc); [lia|]. rewrite <- Er, take_drop. split_and!; lia || done.
Qed.

Lemma frame_length data : length (frame data) = (4 + length data)%nat.
Proof. unfold frame. by rewrite length_app. Qed.

Lemma frame_bytes data : bytes_ok data -> bytes_ok (frame data).
Proof. intros H. apply Forall_app. split; [apply be32_bytes|done]. Qed.

(** A frame decodes to its message, with what follows it left. *)
Lemma parse_frame_app data rest :
  Z.of_nat (length data) <= MAX_CONTROL_MESSAGE_SIZE ->
  parse_frame (frame data ++ rest) = Some (data, rest).
Proof.
  intros Hm. unfold parse_frame, frame. rewrite <- app_assoc.
  rewrite take_app_length' by done. rewrite drop_app_length' by done.
  rewrite be32_val, u32_id by (unfold MAX_CONTROL_MESSAGE_SIZE in Hm; lia).
  rewrite bool_decide_eq_false_2 by (rewrite length_app; cbn; lia).
  destruct (Z.gtb_spec (Z.of_nat (length data)) MAX_CONTROL_MESSAGE_SIZE); [lia|].
  rewrite length_app. rewrite (proj2 (Z.ltb_ge _ _)) by lia. cbn [orb].
  by rewrite Nat2Z.id, take_app_length, drop_app_length.
Qed.

Lemma do_control_write_out env data :
  let '(r, out, _) := do_control_write env data in
  out `prefix_of` data /\ (r = -1 \/ r = Z.of_nat (length data) /\ out = data).
Proof. apply write_loop_out. Qed.

(** What write_control_packet() writes. *)
Lemma write_control_packet_out env data :
  Z.of_nat (length data) < 2147483648 ->
  let '(r, out, _) := write_control_packet env data in
  out `prefix_of` frame data /\
  (r = -1 \/ r = Z.of_nat (length data) /\ out = frame data).
Proof.
  intros Hd. unfold write_control_packet, frame. rewrite htonl_be32.
  pose proof (do_control_write_out env (be32 (Z.of_nat (length data)))) as H1.
  destruct (do_control_write env _) as [[r1 out1] env1]. destruct H1 as [Hp1 Hr1].
  destruct (Z.eqb_spec r1 4) as [->|]; cbn [negb]; [|split; [by apply prefix_app_r|by left]].
  destruct Hr1 as [|[_ ->]]; [done|].
  pose proof (do_control_write_out env1 data) as H2.
  destruct (do_control_write env1 data) as [[r2 out2] env2]. destruct H2 as [Hp2 Hr2].
  rewrite i32_id by lia.
  destruct (Z.eqb_spec r2 (Z.of_nat (length data))) as [->|]; cbn [negb].
  - split; [by apply prefix_app|]. destruct Hr2 as [|[_ ->]]; [lia|by right].
  - split; [by apply prefix_app|by left].
Qed.

Lemma write_control_packet_enough env data :
  data <> [] -> Z.of_nat (length data) < 2147483648 -> (4 + length data <= accepts env)%nat ->
  exists env', write_control_packet env data = (Z.of_nat (length data), frame data, env').
Proof.
  intros Hne Hd Ha. unfold write_control_packet, do_control_write, frame. rewrite htonl_be32.
  pose proof (write_loop_enough env (be32 (Z.of_nat (length data))) 0) as H1. cbn [length] in H1.
  destruct (write_loop env _ 0) as [[r1 out1] env1].
  destruct H1 as (-> & -> & Hc); [done|cbn; lia|].
  change (length (be32 _)) with 4%nat in *. change (negb (0 + Z.of_nat 4 =? 4)) with false. cbv iota.
  pose proof (write_loop_enough env1 data 0 Hne) as H2.
  destruct (write_loop env1 data 0) as [[r2 out2] env2]. destruct H2 as (-> & -> & _); [lia|].
  rewrite i32_id by lia. cbn [Z.add]. rewrite Z.eqb_refl. by exists env2.
Qed.

(** ** Messages on the wire

    protobuf-c packs and unpacks the messages; the code relies on a message
    coming back as it was sent. *)
Class Message (M : Type) := { INIT : M; valid : M -> Prop }.
Class Protobuf (M : Type) := { pack : M -> list Z; unpack : list Z -> option M }.
Class ProtobufLaws (M : Type) `{Message M, Protobuf M} : Prop := {
  init_valid : valid INIT;
  pack_init : pack INIT = [];
  pack_bytes m : valid m -> bytes_ok (pack m);
  unpack_pack m : valid m -> unpack (pack m) = Some m
}.

Lemma pack_nonempty `{ProtobufLaws M} m : valid m -> m <> INIT -> pack m <> [].
Proof.
  intros Hv Hm Hp. apply Hm. apply (inj Some).
  rewrite <- (unpack_pack m), <- (unpack_pack INIT), Hp, pack_init by (done || apply init_valid). done.
Qed.

(** A message that is framed next on the stream is read. *)
Lemma packet_framed `{ProtobufLaws M} m renv rest :
  valid m -> m <> INIT -> Z.of_nat (length (pack m)) <= MAX_CONTROL_MESSAGE_SIZE ->
  bytes_ok rest -> stream renv = frame (pack m) ++ rest ->
  exists renv', read_control_packet renv = (Z.of_nat (length (pack m)), pack m, renv') /\
                stream renv' = rest.
Proof.
  intros Hv Hm Hl Hb Hs. pose proof (pack_nonempty m Hv Hm) as Hne.
  assert (Hbs : bytes_ok (stream renv)).
  { rewrite Hs. apply Forall_app. split; [by apply frame_bytes, pack_bytes|done]. }
  pose proof (read_control_packet_spec renv Hbs) as Hd.
  rewrite Hs, parse_frame_app in Hd by done. destruct (pack m); [done|]. exact Hd.
Qed.

(** A message that was sent arrives. *)
Lemma packet_delivered `{ProtobufLaws M} m wenv r out wenv' renv rest :
  valid m -> m <> INIT -> Z.of_nat (length (pack m)) <= MAX_CONTROL_MESSAGE_SIZE ->
  write_control_packet wenv (pack m) = (r, out, wenv') -> 0 <= r ->
  bytes_ok rest -> stream renv = out ++ rest ->
  exists renv', read_control_packet renv = (Z.of_nat (length (pack m)), pack m, renv') /\
                stream renv' = rest.
Proof.
  intros Hv Hm Hl Hw Hr Hb Hs.
  pose proof (write_control_packet_out wenv (pack m)) as Ho. rewrite Hw in Ho.
  destruct Ho as [_ [->|[-> ->]]]; [unfold MAX_CONTROL_MESSAGE_SIZE in Hl; lia|lia|].
  by apply packet_framed.
Qed.

(** *** The messages of controlmsg.proto *)

Definition TYPE_HELLO : Z := 3.
Definition TYPE_READY : Z := 4.
Definition TYPE_RECEIVE : Z := 5.
Definition TYPE_SEND : Z := 6.
Definition TYPE_RESULT : Z := 7.
Definition TYPE_RENEW : Z := 8.

(** An absent optional field is [None], as is a NULL submessage. *)
Record Hello : Set := { hello_test_port : option Z; hello_options : option (list Z) }.
Record Ready : Set := { test_port : option Z }.
Record Receive : Set := { receive_options : option (list Z) }.
Record Send : Set := { send_options : option (list Z) }.
Record Result : Set := { result_data : option (list Z) }.
Record Control : Set := {
  c_test : option Z; c_type : option Z; c_hello : option Hello; c_ready : option Ready;
  c_receive : option Receive; c_send : option Send; c_result : option Result; c_renew : option unit
}.

#[export] Instance Hello_eq_dec : EqDecision Hello.
Proof. solve_decision. Defined.
#[export] Instance Ready_eq_dec : EqDecision Ready.
Proof. solve_decision. Defined.
#[export] Instance Receive_eq_dec : EqDecision Receive.
Proof. solve_decision. Defined.
#[export] Instance Send_eq_dec : EqDecision Send.
Proof. solve_decision. Defined.
#[export] Instance Result_eq_dec : EqDecision Result.
Proof. solve_decision. Defined.
#[export] Instance Control_eq_dec : EqDecision Control.
Proof. solve_decision. Defined.

Definition opt_all {A} (P : A -> Prop) (o : option A) : Prop :=
  match o with Some a => P a | None => True end.
Definition uint (w : Z) (z : Z) : Prop := 0 <= z < 2 ^ w.
#[export] Instance opt_all_dec {A} (P : A -> Prop) `{!forall a, Decision (P a)} o : Decision (opt_all P o).
Proof. destruct o; apply _. Defined.
#[export] Instance uint_dec w z : Decision (uint w z).
Proof. unfold uint. apply _. Defined.
#[export] Instance bytes_ok_dec l : Decision (bytes_ok l).
Proof. unfold bytes_ok. apply _. Defined.

(** The values the fields' types allow. *)
Definition control_valid (m : Control) : Prop :=
  opt_all (uint 64) (c_test m) /\ opt_all (uint 31) (c_type m) /\
  opt_all (fun h => opt_all (uint 32) (hello_test_port h) /\ opt_all bytes_ok (hello_options h)) (c_hello m) /\
  opt_all (fun r => opt_all (uint 32) (test_port r)) (c_ready m) /\
  opt_all (fun r => opt_all bytes_ok (receive_options r)) (c_receive m) /\
  opt_all (fun r => opt_all bytes_ok (send_options r)) (c_send m) /\
  opt_all (fun r => opt_all bytes_ok (result_data r)) (c_result m).

#[export] Instance control_valid_dec m : Decision (control_valid m).
Proof. unfold control_valid. apply _. Defined.

#[export] Instance control_message : Message Control := {
  INIT := {| c_test := None; c_type := None; c_hello := None; c_ready := None; c_receive := None;
             c_send := None; c_result := None; c_renew := None |};
  valid := control_valid
}.

(** A message of a test with its type set and one submessage. *)
Definition hello_msg (test : Z) (o : list Z) : Control :=
  {| c_test := Some test; c_type := Some TYPE_HELLO;
     c_hello := Some {| hello_test_port := None; hello_options := Some o |};
     c_ready := None; c_receive := None; c_send := None; c_result := None; c_renew := None |}.
Definition ready_msg (test port : Z) : Control :=
  {| c_test := Some test; c_type := Some TYPE_READY; c_hello := None;
     c_ready := Some {| test_port := Some port |};
     c_receive := None; c_send := None; c_result := None; c_renew := None |}.
Definition receive_msg (test : Z) (o : option (list Z)) : Control :=
  {| c_test := Some test; c_type := Some TYPE_RECEIVE; c_hello := None; c_ready := None;
     c_receive := Some {| receive_options := o |};
     c_send := None; c_result := None; c_renew := None |}.
Definition send_msg (test : Z) (o : option (list Z)) : Control :=
  {| c_test := Some test; c_type := Some TYPE_SEND; c_hello := None; c_ready := None;
     c_receive := None; c_send := Some {| send_options := o |};
     c_result := None; c_renew := None |}.
Definition result_msg (test : Z) (d : list Z) : Control :=
  {| c_test := Some test; c_type := Some TYPE_RESULT; c_hello := None; c_ready := None;
     c_receive := None; c_send := None; c_result := Some {| result_data := Some d |};
     c_renew := None |}.
Definition renew_msg (test : Z) : Control :=
  {| c_test := Some test; c_type := Some TYPE_RENEW; c_hello := None; c_ready := None;
     c_receive := None; c_send := None; c_result := None; c_renew := Some tt |}.

(** What sending came to: the return value, the bytes written, the events left,
    and whether the caller's options were freed. *)
Record sent : Type := { ret : Z; wire : list Z; left_ : list (io Z); freed : bool }.

Section Sending.
Context `{Protobuf Control}.

Definition send_control (env : list (io Z)) (msg : Control) (freed : bool) : sent :=
  let '(result, out, env) := write_control_packet env (pack msg) in
  {| ret := result; wire := out; left_ := env; freed := freed |}.

Definition send_control_hello (test : Z) (env : list (io Z)) (options : list Z) : sent :=
  send_control env (hello_msg test options) true.
Definition send_control_ready (test : Z) (env : list (io Z)) (port : Z) : sent :=
  send_control env (ready_msg test port) false.
Definition send_control_receive (test : Z) (env : list (io Z)) (options : option (list Z)) : sent :=
  send_control env (receive_msg test options) false.
Definition send_control_send (test : Z) (env : list (io Z)) (options : option (list Z)) : sent :=
  send_control env (send_msg test options) (bool_decide (is_Some options)).
Definition send_control_result (test : Z) (env : list (io Z)) (data : list Z) : sent :=
  send_control env (result_msg test data) false.
Definition send_control_renew (test : Z) (env : list (io Z)) : sent :=
  send_control env (renew_msg test) false.
End Sending.

Section Receiving.
Context `{Protobuf Control} {A : Type}.

(** The checks every parser starts with: a message of the expected type, for the
    expected test. *)
Definition unpack_as (type test : Z) (data : list Z) : option Control :=
  match unpack data with
  | None => None
  | Some msg =>
      if negb (bool_decide (c_type msg = Some type)) then None
      else if negb (bool_decide (c_test msg = Some test)) then None
      else Some msg
  end.

(** [*options = parse_func(...)] where both pointers are given, NULL where only
    [options] is, and nothing otherwise: [None] leaves [*options] alone. *)
Definition store_options (want : bool) (parse_func : option (list Z -> A)) (o : option (list Z))
    : option (option A) :=
  if want then
    match parse_func with Some f => Some (f <$> o) | None => Some None end
  else None.

(** A payload is malformed when its options are needed and absent. *)
Definition lacks_options (parse_func : option (list Z -> A)) (o : option (list Z)) : bool :=
  bool_decide (is_Some parse_func) && negb (bool_decide (is_Some o)).

Definition parse_control_hello (test : Z) (data : list Z) (want : bool)
    (parse_func : option (list Z -> A)) : Z * option (option A) :=
  match unpack_as TYPE_HELLO test data with
  | None => (-1, None)
  | Some msg =>
      match c_hello msg with
      | None => (-1, None)
      | Some h =>
          if lacks_options parse_func (hello_options h) then (-1, None)
          else (0, store_options want parse_func (hello_options h))
      end
  end.

(** The port is an uint16_t, the field 32 bits wide. *)
Definition parse_control_ready (test : Z) (data : list Z) : Z * option Z :=
  match unpack_as TYPE_READY test data with
  | None => (-1, None)
  | Some msg =>
      match c_ready msg with
      | None => (-1, None)
      | Some r => match test_port r with None => (-1, None) | Some p => (0, Some (u16 p)) end
      end
  end.

Definition parse_control_receive (test : Z) (data : list Z) (want : bool)
    (parse_func : option (list Z -> A)) : Z * option (option A) :=
  match unpack_as TYPE_RECEIVE test data with
  | None => (-1, None)
  | Some msg =>
      match c_receive msg with
      | None => (-1, None)
      | Some h =>
          if lacks_options parse_func (receive_options h) then (-1, None)
          else (0, store_options want parse_func (receive_options h))
      end
  end.

Definition parse_control_send (test : Z) (data : list Z) (want : bool)
    (parse_func : option (list Z -> A)) : Z * option (option A) :=
  match unpack_as TYPE_SEND test data with
  | None => (-1, None)
  | Some msg =>
      match c_send msg with
      | None => (-1, None)
      | Some h =>
          if lacks_options parse_func (send_options h) then (-1, None)
          else (0, store_options want parse_func (send_options h))
      end
  end.

Definition parse_control_result (test : Z) (data : list Z) : Z * option (list Z) :=
  match unpack_as TYPE_RESULT test data with
  | None => (-1, None)
  | Some msg =>
      match c_result msg with
      | None => (-1, None)
      | Some r => match result_data r with None => (-1, None) | Some d => (0, Some d) end
      end
  end.

(** Reading a message and parsing it: the return value, what was extracted and
    the events left. *)
Definition read_control_hello (test : Z) (env : list (io (list Z))) (want : bool)
    (parse_func : option (list Z -> A)) : Z * option (option A) * list (io (list Z)) :=
  let '(len, data, env) := read_control_packet env in
  if len <? 0 then (-1, None, env)
  else
    let '(r, o) := parse_control_hello test data want parse_func in
    if r <? 0 then (-1, None, env) else (0, o, env).

Definition read_control_ready (test : Z) (env : list (io (list Z)))
    : Z * option Z * list (io (list Z)) :=
  let '(len, data, env) := read_control_packet env in
  if len <? 0 then (-1, None, env)
  else
    let '(r, port) := parse_control_ready test data in
    if r <? 0 then (-1, None, env) else (0, port, env).

Definition read_control_result (test : Z) (env : list (io (list Z)))
    : Z * option (list Z) * list (io (list Z)) :=
  let '(len, data, env) := read_control_packet env in
  if len <? 0 then (-1, None, env)
  else
    let '(r, d) := parse_control_result test data in
    if r <? 0 then (-1, None, env) else (0, d, env).
End Receiving.

(** ** Messages arrive as they were sent *)

Section RoundTrip.
Context `{Protobuf Control, !ProtobufLaws Control}.

(** The message [s] sent is what [renv] brings next; [rest] follows it. *)
Definition arrives (s : sent) (renv : list (io (list Z))) (rest : list Z) : Prop :=
  0 <= ret s /\ stream renv = wire s ++ rest /\ bytes_ok rest.
Definition small (m : Control) : Prop := Z.of_nat (length (pack m)) <= MAX_CONTROL_MESSAGE_SIZE.

Lemma send_control_arrives m f wenv renv rest :
  valid m -> m <> INIT -> small m -> arrives (send_control wenv m f) renv rest ->
  exists renv', read_control_packet renv = (Z.of_nat (length (pack m)), pack m, renv') /\
                stream renv' = rest.
Proof.
  unfold arrives, send_control. intros Hv Hm Hl.
  destruct (write_control_packet wenv (pack m)) as [[r out] wenv'] eqn:Ew.
  intros (Hr & Hs & Hb). by eapply packet_delivered.
Qed.

Lemma unpack_as_pack m type test type' test' :
  valid m -> c_type m = Some type' -> c_test m = Some test' ->
  unpack_as type test (pack m) =
  if bool_decide (type' = type) && bool_decide (test' = test) then Some m else None.
Proof.
  intros Hv Ht Ht'. unfold unpack_as. rewrite unpack_pack, Ht, Ht' by done.
  repeat case_bool_decide; cbn; by simplify_eq.
Qed.

Lemma typed_not_init (m : Control) t : c_type m = Some t -> m <> INIT.
Proof. intros Ht ->. discriminate Ht. Qed.

Lemma nonneg_length {A} (l : list A) : (Z.of_nat (length l) <? 0) = false.
Proof. apply Z.ltb_ge. lia. Qed.
End RoundTrip.

(** One message read by the parser that expects [type] for [test']. *)
Ltac read_message Ha :=
  let renv := fresh "renv'" in let Hr := fresh "Hr" in let Hs := fresh "Hs" in
  apply send_control_arrives in Ha as (renv & Hr & Hs);
  [exists renv; rewrite Hr, nonneg_length; split; [|exact Hs]
  |assumption|by eapply typed_not_init|assumption].

Lemma pack_positive `{Protobuf Control, !ProtobufLaws Control} m t :
  valid m -> c_type m = Some t -> 0 < Z.of_nat (length (pack m)).
Proof.
  intros Hv Ht. pose proof (pack_nonempty m Hv (typed_not_init m t Ht)) as Hne.
  destruct (pack m); [done|cbn; lia].
Qed.

(** The parser on a message of its own type. *)
Ltac parse_message :=
  erewrite unpack_as_pack by done;
  match goal with |- context [bool_decide (?a = ?a)] => rewrite (bool_decide_eq_true_2 (a = a)) by done end.

(** C39: A HELLO, READY, RECEIVE, SEND or RESULT that was sent whole is read back by
    the other end as it was sent: the options go through the test's own parser,
    the port and the result are those of the sender, and the stream is left at the
    next message.  A reader that expects another test's message refuses it. *)
Theorem control_messages_roundtrip `{Protobuf Control, !ProtobufLaws Control} {A} (f : list Z -> A)
    test test' options port data wenv renv rest :
  valid (hello_msg test options) -> small (hello_msg test options) ->
  valid (ready_msg test port) -> small (ready_msg test port) -> 0 <= port < 65536 ->
  valid (result_msg test data) -> small (result_msg test data) ->
  valid (receive_msg test (Some options)) -> small (receive_msg test (Some options)) ->
  valid (send_msg test (Some options)) -> small (send_msg test (Some options)) ->
  (arrives (send_control_hello test wenv options) renv rest ->
   exists renv', read_control_hello test' renv true (Some f)
     = ((if bool_decide (test = test') then (0, Some (Some (f options))) else (-1, None)), renv') /\
     stream renv' = rest) /\
  (arrives (send_control_ready test wenv port) renv rest ->
   exists renv', read_control_ready test' renv
     = ((if bool_decide (test = test') then (0, Some port) else (-1, None)), renv') /\
     stream renv' = rest) /\
  (arrives (send_control_result test wenv data) renv rest ->
   exists renv', read_control_result test' renv
     = ((if bool_decide (test = test') then (0, Some data) else (-1, None)), renv') /\
     stream renv' = rest) /\
  (arrives (send_control_receive test wenv (Some options)) renv rest ->
   exists renv', let '(len, msg, renv'') := read_control_packet renv in
     (0 < len /\ parse_control_receive test' msg true (Some f)
     = (if bool_decide (test = test') then (0, Some (Some (f options))) else (-1, None)) /\ renv'' = renv') /\
     stream renv' = rest) /\
  (arrives (send_control_send test wenv (Some options)) renv rest ->
   exists renv', let '(len, msg, renv'') := read_control_packet renv in
     (0 < len /\ parse_control_send test' msg true (Some f)
     = (if bool_decide (test = test') then (0, Some (Some (f options))) else (-1, None)) /\ renv'' = renv') /\
     stream renv' = rest).
Proof.
  intros Hv1 Hs1 Hv2 Hs2 Hp Hv3 Hs3 Hv4 Hs4 Hv5 Hs5.
  split_and!; intros Ha.
  - unfold read_control_hello, parse_control_hello. read_message Ha.
    parse_message. by case_bool_decide.
  - unfold read_control_ready, parse_control_ready. read_message Ha.
    parse_message. case_bool_decide; cbn; [by rewrite u16_id|done].
  - unfold read_control_result, parse_control_result. read_message Ha.
    parse_message. by case_bool_decide.
  - apply send_control_arrives in Ha as (renv' & -> & Hs);
      [|assumption|by eapply typed_not_init|assumption].
    exists renv'. split; [|exact Hs]. unfold parse_control_receive. parse_message.
    split; [by eapply pack_positive|]. by case_bool_decide.
  - apply send_control_arrives in Ha as (renv' & -> & Hs);
      [|assumption|by eapply typed_not_init|assumption].
    exists renv'. split; [|exact Hs]. unfold parse_control_send. parse_message.
    split; [by eapply pack_positive|]. by case_bool_decide.
Qed.

(** *** A codec that satisfies the laws *)

Fixpoint pos_bytes (p : positive) : list Z :=
  match p with xH => [1] | xO p => 0 :: pos_bytes p | xI p => 2 :: pos_bytes p end.
Fixpoint bytes_pos (l : list Z) : option positive :=
  match l with
  | [] => None
  | [1] => Some xH
  | 0 :: l => xO <$> bytes_pos l
  | _ :: l => xI <$> bytes_pos l
  end.

Lemma bytes_pos_bytes p : bytes_pos (pos_bytes p) = Some p.
Proof. induction p as [p IH|p IH|]; cbn; by rewrite ?IH. Qed.
Lemma pos_bytes_cons p : exists b l, pos_bytes p = b :: l.
Proof. destruct p; cbn; eauto. Qed.
Lemma pos_bytes_ok p : bytes_ok (pos_bytes p).
Proof. induction p; cbn; constructor; (done || lia || constructor). Qed.

Section Coding.
Context {M : Type} `{Message M, Countable M}.

Definition coding : Protobuf M := {|
  pack m := if decide (m = INIT) then [] else pos_bytes (encode m);
  unpack l := match l with [] => Some INIT | _ => p ← bytes_pos l; decode p end
|}.

Lemma coding_laws : valid INIT -> @ProtobufLaws M _ coding.
Proof.
  intros Hi. split; [done|cbn; by rewrite decide_True| |]; intros m _; cbn; case_decide as Hm.
  - constructor.
  - apply pos_bytes_ok.
  - by subst.
  - destruct (pos_bytes_cons (encode m)) as (b & l & E). rewrite E, <- E, bytes_pos_bytes. cbn.
    apply decode_encode.
Qed.
End Coding.

#[export] Instance Hello_countable : Countable Hello :=
  inj_countable' (fun h => (hello_test_port h, hello_options h)) (fun '(a, b) => Build_Hello a b)
    (fun h => match h with Build_Hello _ _ => eq_refl end).
#[export] Instance Ready_countable : Countable Ready :=
  inj_countable' test_port Build_Ready (fun h => match h with Build_Ready _ => eq_refl end).
#[export] Instance Receive_countable : Countable Receive :=
  inj_countable' receive_options Build_Receive (fun h => match h with Build_Receive _ => eq_refl end).
#[export] Instance Send_countable : Countable Send :=
  inj_countable' send_options Build_Send (fun h => match h with Build_Send _ => eq_refl end).
#[export] Instance Result_countable : Countable Result :=
  inj_countable' result_data Build_Result (fun h => match h with Build_Result _ => eq_refl end).
#[export] Instance Control_countable : Countable Control :=
  inj_countable'
    (fun c => (c_test c, c_type c, c_hello c, c_ready c, c_receive c, c_send c, c_result c, c_renew c))
    (fun '(a, b, c, d, e, f, g, h) => Build_Control a b c d e f g h)
    (fun c => match c with Build_Control _ _ _ _ _ _ _ _ => eq_refl end).

Definition control_coding : Protobuf Control := coding.
Lemma control_coding_laws : @ProtobufLaws Control _ control_coding.
Proof. apply coding_laws. repeat split. Qed.

(** Validity of a concrete message. *)
Ltac control_is_valid :=
  lazymatch goal with |- valid ?m => change (control_valid m) end;
  apply (bool_decide_unpack _); vm_compute; exact I.

Definition slow_writer : list (io Z) := [Moved 3; Intr; Moved 40; Retry; Moved 9; NotSet; Moved 100000].
(** The same bytes, arriving one at a time. *)
Definition bytewise (l : list Z) : list (io (list Z)) := (fun b => Moved [b]) <$> l.

Lemma control_messages_roundtrip_witness :
  let test := 7 in let options := [1; 2; 3] in
  let renv := bytewise (wire (@send_control_hello control_coding test slow_writer options)) in
  @arrives (@send_control_hello control_coding test slow_writer options) renv [] /\
  exists renv', @read_control_hello control_coding (list Z) test renv true (Some (@rev Z))
    = (0, Some (Some [3; 2; 1]), renv') /\ stream renv' = [].
Proof.
  set (P := control_coding).
  assert (L : @ProtobufLaws Control _ P) by apply control_coding_laws.
  assert (Hs : @small P (hello_msg 7 [1; 2; 3]) /\ @small P (ready_msg 7 80) /\ @small P (result_msg 7 [4]) /\
    @small P (receive_msg 7 (Some [1; 2; 3])) /\ @small P (send_msg 7 (Some [1; 2; 3])))
    by (unfold small; vm_compute; repeat split; discriminate).
  destruct Hs as (? & ? & ? & ? & ?).
  destruct (control_messages_roundtrip (H := P) (@rev Z) 7 7 [1; 2; 3] 80 [4] slow_writer
    (bytewise (wire (@send_control_hello P 7 slow_writer [1; 2; 3]))) []) as (Hh & _);
    try assumption; try lia; try control_is_valid.
  assert (Ha : @arrives (@send_control_hello P 7 slow_writer [1; 2; 3])
    (bytewise (wire (@send_control_hello P 7 slow_writer [1; 2; 3]))) []).
  { split; [vm_compute; discriminate|]. split; [vm_compute; reflexivity|constructor]. }
  split; [exact Ha|exact (Hh Ha)].
Defined.

(** The port is cut to 16 bits: a READY with a port over 65535 is not refused. *)
Example ready_port_truncated :
  fst (@read_control_ready control_coding 7
    (bytewise (wire (@send_control_ready control_coding 7 [Moved 4; Moved 100000] 65616)))) = (0, Some 80).
Proof. vm_compute. reflexivity. Qed.

(** A message without a byte cannot be written: BIO_write() of nothing returns 0,
    which is taken for a closed connection. *)
Lemma empty_message_refused : fst (fst (write_control_packet [Moved 100; Moved 100] [])) = -1.
Proof. reflexivity. Qed.
