(* ===== verification/Sockets.v ===== *)
(** Listening and connecting (src/common/serverlib.c, establish_control_socket() of
    src/common/ssl.c).

    The state is the set of open descriptors with the calls made so far; the kernel
    and OpenSSL are a class of answers.  A call that opens a descriptor gets the
    next free number, so that what a function leaves open can be counted. *)
From S2P Require Import Prelude CLib Address Testlib.
#[local] Open Scope Z_scope.

(** ** Calls *)

Inductive call : Set :=
| Socket (fd family : Z) | Close (fd : Z) | Set_ (s : setting) | V6Only (fd : Z)
| BindDevice (fd : Z) | Bind (fd : Z) (a : sockaddr) (port : Z) | Listen (fd backlog : Z)
| Accept (fd newfd : Z) | Connect (fd : Z) (a : sockaddr) (port : Z) | Sleep (seconds : Z).

Record world : Set := { fds : list Z; next_fd : Z; trace : list call }.

(** A function that makes system calls, or faults. *)
Definition sys (A : Type) : Type := world -> res (A * world).
#[export] Instance sys_ret : MRet sys := fun A a w => Ok (a, w).
#[export] Instance sys_bind : MBind sys := fun A B k m w =>
  match m w with Ok (a, w) => k a w | Fault f => Fault f end.
Definition lift {A} (m : res A) : sys A := fun w =>
  match m with Ok a => Ok (a, w) | Fault f => Fault f end.
Definition log (cs : list call) : sys unit := fun w =>
  Ok (tt, {| fds := fds w; next_fd := next_fd w; trace := trace w ++ cs |}).

(** What the kernel answers: whether a socket of a family can be had, errors of
    bind() of a descriptor to an address and port and of listen() on one, whether the n-th connect() on one works. *)
Class Kernel := {
  k_socket : Z -> Z -> bool;
  k_setsockopt : setting -> set_answer;
  k_getsockopt : setting -> option Z;
  k_bind_device : Z -> bool;
  k_bind : Z -> sockaddr -> Z -> option Z;
  k_listen : Z -> option Z;
  k_accept : Z -> bool;
  k_connect : Z -> nat -> bool;
  k_getsockname : Z -> sockaddr;
  k_v6only : Z -> bool
}.
Definition EADDRINUSE : Z := 98.
Definition SOCK_STREAM : Z := 1.

(** A certificate's subject: the bytes of its common name, if it has one. *)
Record x509 : Set := { subject_cn : option cstr }.

(** What OpenSSL answers for a descriptor; [ssl_ctx] is whether keys are configured. *)
Class Openssl := {
  ssl_ctx : bool;
  bio_new_socket : Z -> bool;
  bio_new_ssl : Z -> bool;
  do_handshake : Z -> bool;
  verify_result_ok : Z -> bool;
  peer_certificate : Z -> option x509
}.

(** A fresh descriptor, or -1. *)
Definition open_fd (ok : bool) (c : Z -> call) : sys Z := fun w =>
  if ok then
    Ok (next_fd w, {| fds := next_fd w :: fds w; next_fd := next_fd w + 1;
                      trace := trace w ++ [c (next_fd w)] |})
  else Ok (-1, w).
Definition close (fd : Z) : sys unit := fun w =>
  Ok (tt, {| fds := filter (fun x => x <> fd) (fds w); next_fd := next_fd w;
             trace := trace w ++ [Close fd] |}).
Definition close_open (fd : Z) : sys unit := if fd >=? 0 then close fd else mret tt.

(** The other fields of struct sockopt_t. *)
Record server_opts : Set := {
  so_opts : sockopt_t; device : option cstr; socktype : Z;
  sourcev4 : option sockaddr; sourcev6 : option sockaddr
}.

(** The descriptors of a pair of sockets. *)
Definition owned (s : socket_t) : list Z := filter (fun fd => 0 <= fd) [socket6 s; socket s].
Ltac owned := unfold owned in *; cbn [socket socket6] in *;
  repeat first [ rewrite filter_cons_True by lia | rewrite filter_cons_False by lia
               | rewrite filter_nil | rewrite filter_app ].

Section Serverlib.
Context `{K : Kernel} `{T : Openssl}.

Definition socket_call (family : Z) : sys Z := fun w =>
  open_fd (k_socket (next_fd w) family) (fun fd => Socket fd family) w.

Definition setup (sock family : Z) (o : sockopt_t) : sys unit :=
  cs ← lift (do_socket_setup k_setsockopt k_getsockopt sock family (Some o)); log (Set_ <$> cs).

(** errno after bind_sockets_to_address() failed: that of the last bind() tried. *)
Definition bind_errno (tried : list (Z * sockaddr)) (port : Z) : option Z :=
  match last tried with Some (fd, a) => k_bind fd a port | None => None end.

(** The listen() of one family: whether the function returns, and the sockets. *)
Definition listen_v4 (s : socket_t) : sys (option Z * socket_t) :=
  match k_listen (socket s) with
  | None => _ ← log [Listen (socket s) 1]; mret (None, s)
  | Some error =>
      _ ← close (socket s);
      if error =? EADDRINUSE then
        _ ← close_open (socket6 s); mret (Some EADDRINUSE, {| socket := -1; socket6 := -1 |})
      else mret (None, {| socket := -1; socket6 := socket6 s |})
  end.
Definition listen_v6 (s : socket_t) : sys (option Z * socket_t) :=
  match k_listen (socket6 s) with
  | None => _ ← log [Listen (socket6 s) 1]; mret (None, s)
  | Some error =>
      _ ← close (socket6 s);
      if error =? EADDRINUSE then
        _ ← close_open (socket s); mret (Some EADDRINUSE, {| socket := -1; socket6 := -1 |})
      else mret (None, {| socket := socket s; socket6 := -1 |})
  end.

(** The part of start_listening() after both sockets were bound. *)
Definition listen_bound (o : server_opts) (s : socket_t) : sys (Z * socket_t) :=
  let stream := socktype o =? SOCK_STREAM in
  r4 ← (if (socket s >=? 0) && stream then listen_v4 s else mret (None, s));
  match r4 with
  | (Some e, s) => mret (e, s)
  | (None, s) =>
      r6 ← (if (socket6 s >=? 0) && stream then listen_v6 s else mret (None, s));
      match r6 with
      | (Some e, s) => mret (e, s)
      | (None, s) =>
          if (socket s <? 0) && (socket6 s <? 0) then mret (-1, s) else mret (0, s)
      end
  end.

(** The socket() calls of start_listening(). *)
Definition open_sockets (o : server_opts) : sys socket_t :=
  s4 ← (match sourcev4 o with Some _ => socket_call AF_INET | None => mret (-1) end);
  s6 ← (match sourcev6 o with Some _ => socket_call AF_INET6 | None => mret (-1) end);
  mret {| socket := s4; socket6 := s6 |}.

Definition start_listening (port : Z) (o : server_opts) : sys (Z * socket_t) :=
  s ← open_sockets o;
  if (socket s <? 0) && (socket6 s <? 0) then mret (-1, s)
  else
    _ ← (if socket s >=? 0 then setup (socket s) AF_INET (so_opts o) else mret tt);
    _ ← (if socket6 s >=? 0
         then _ ← setup (socket6 s) AF_INET6 (so_opts o); log [V6Only (socket6 s)] else mret tt);
    dev ← (match device o with
           | None => mret 0
           | Some _ => r ← lift (bind_sockets_to_device s k_bind_device);
                       _ ← log (BindDevice <$> fst r); mret (snd r)
           end);
    if dev <? 0 then mret (-1, s)
    else
      r ← lift (bind_sockets_to_address s (sourcev4 o) (sourcev6 o)
                  (fun fd a => bool_decide (k_bind fd a (u16 port) = None)));
      _ ← log ((fun '(fd, a) => Bind fd a (u16 port)) <$> fst r);
      if snd r <? 0 then
        _ ← close_open (socket s);
        _ ← close_open (socket6 s);
        if bool_decide (bind_errno (fst r) (u16 port) = Some EADDRINUSE) then mret (EADDRINUSE, s)
        else mret (-1, s)
      else listen_bound o s.

(** *** TLS *)

(** get_common_name(): a name with a NUL inside is malformed. *)
Definition get_common_name (cert : x509) : option cstr :=
  match subject_cn cert with
  | Some cn => if bool_decide (zero ∈ cn) then None else Some cn
  | None => None
  end.

Definition matches_common_name (hostname : cstr) (cert : x509) : Z :=
  match get_common_name cert with
  | None => -1
  | Some cn => if strcasecmp_eq hostname cn then 0 else -1
  end.

(** establish_control_socket(): a BIO is known by its descriptor.  Freeing the BIO
    closes it; when no BIO could be made it stays open. *)
Definition establish_control_socket (fd : Z) : sys (option Z) :=
  if negb (bio_new_socket fd) then mret None
  else if ssl_ctx then
    if negb (bio_new_ssl fd) then _ ← close fd; mret None
    else if negb (do_handshake fd) then _ ← close fd; mret None
    else if negb (verify_result_ok fd) then _ ← close fd; mret None
    else mret (Some fd)
  else mret (Some fd).

Definition upgrade_control_server_ssl (sock : Z) (canonname : cstr) : sys (option Z) :=
  ctrl ← establish_control_socket sock;
  match ctrl with
  | None => mret None
  | Some fd =>
      if ssl_ctx then
        match peer_certificate fd with
        | None => _ ← close fd; mret None
        | Some cert =>
            if negb (matches_common_name canonname cert =? 0) then _ ← close fd; mret None
            else mret (Some fd)
        end
      else mret (Some fd)
  end.

(** *** Connecting *)

Definition MAX_CONNECT_ATTEMPTS : nat := 3.
Definition CONTROL_CONNECT_DELAY : Z := 2.

(** The loop of connect_to_server(), with [more] rounds to go. *)
Fixpoint connect_loop (more attempts : nat) (sock : Z) (dest : sockaddr) (port : Z) : sys Z :=
  _ ← log [Connect sock dest port];
  if k_connect sock attempts then mret sock
  else if (MAX_CONNECT_ATTEMPTS <=? S attempts)%nat then mret (-1)
  else
    _ ← log [Sleep CONTROL_CONNECT_DELAY];
    match more with O => mret (-1) | S more => connect_loop more (S attempts) sock dest port end.

(** The bind() calls of connect_to_server(). *)
Definition bind_local (sock : Z) (dest : sockaddr) (o : option server_opts) : sys Z :=
  match o with
  | None => mret 0
  | Some o =>
      dev ← (match device o with
             | None => mret 0
             | Some _ => _ ← log [BindDevice sock]; mret (if k_bind_device sock then 0 else -1)
             end);
      if dev <? 0 then mret (-1)
      else match (match dest with SockIn _ => sourcev4 o | _ => sourcev6 o end) with
           | None => mret 0
           | Some a =>
               _ ← log [Bind sock a 0];
               mret (if bool_decide (k_bind sock a 0 = None) then 0 else -1)
           end
  end.

Definition connect_to_server (dest : sockaddr) (port : Z) (o : option server_opts) : sys Z :=
  match dest with
  | SockOther _ => mret (-1)
  | _ =>
      sock ← socket_call (sa_family dest);
      if sock <? 0 then mret (-1)
      else
        _ ← (match o with Some o => setup sock (sa_family dest) (so_opts o) | None => mret tt end);
        b ← bind_local sock dest o;
        if b <? 0 then mret (-1)
        else connect_loop MAX_CONNECT_ATTEMPTS 0 sock dest port
  end.

Definition connect_control_server (dest : sockaddr) (canonname : cstr) (port : Z)
    (o : option server_opts) : sys (option Z) :=
  sock ← connect_to_server dest port o;
  if sock >? 0 then upgrade_control_server_ssl sock canonname else mret None.

(** *** Waiting for a connection *)

Definition MAXIMUM_SERVER_WAIT_TIME : Z := 60000000.

(** get_socket_address() *)
Definition get_socket_address (sock : Z) : sys sockaddr :=
  _ ← lift (c_assert (sock >? 0)); mret (k_getsockname sock).

(** The loop over the ports; there are [more] ports after this one. *)
Fixpoint listen_ports (more : nat) (port portmax : Z) (o : server_opts) : sys (Z * socket_t) :=
  r ← start_listening port o;
  if (fst r =? EADDRINUSE) && (port <? portmax) then
    match more with O => mret r | S more => listen_ports more (u16 (port + 1)) portmax o end
  else mret r.

Definition accept_call (fd : Z) : sys Z := open_fd (k_accept fd) (fun newfd => Accept fd newfd).
Definition close_positive (fd : Z) : sys unit := if fd >? 0 then close fd else mret tt.

(** The accept() of one family, and the endpoint address that replaces the ones
    asked for. *)
Definition accept_from (family : Z) (s : socket_t) (o : server_opts) : sys (option (Z * server_opts)) :=
  let fd := if family =? AF_INET then socket s else socket6 s in
  if (family =? AF_INET) || (family =? AF_INET6) then
    sock ← accept_call fd;
    a ← get_socket_address sock;
    mret (Some (sock, {| so_opts := so_opts o; device := device o; socktype := socktype o;
      sourcev4 := if family =? AF_INET then Some a else None;
      sourcev6 := if family =? AF_INET then None else Some a |}))
  else mret None.

(** listen_control_server(): [start] and [env] are what wait_for_data() meets.  The
    connection, and the options with the local address. *)
Definition listen_control_server (port portmax : Z) (o : server_opts)
    (start : timeval) (env : list select_result) : sys (option Z * server_opts) :=
  r ← listen_ports (Z.to_nat (portmax - port)) port portmax o;
  let '(res, s) := r in
  if negb (res =? 0) then mret (None, o)
  else
    match snd (wait_for_data s MAXIMUM_SERVER_WAIT_TIME start env) with
    | None => lift (Fault OutOfFuel)
    | Some (family, _) =>
        if family <=? 0 then mret (None, o)
        else
          c ← accept_from family s o;
          match c with
          | None => mret (None, o)
          | Some (control_sock, o) =>
              _ ← close_positive (socket s);
              _ ← close_positive (socket6 s);
              if control_sock <? 0 then mret (None, o)
              else
                ctrl ← establish_control_socket control_sock;
                mret (ctrl, o)
          end
    end.

(** ** What is left open *)

(** The descriptors open in [w] are those of [s] and the ones before. *)
Definition holds (w0 : world) (s : socket_t) (w : world) : Prop :=
  fds w = owned s ++ fds w0 /\ next_fd w0 <= next_fd w /\
  socket s < next_fd w /\ socket6 s < next_fd w /\
  (0 <= socket s -> next_fd w0 <= socket s /\ socket s <> socket6 s) /\
  (0 <= socket6 s -> next_fd w0 <= socket6 s).
(** Descriptors are positive (the standard streams are open) and handed out in order. *)
Definition world_ok (w : world) : Prop := 0 < next_fd w /\ Forall (fun fd => fd < next_fd w) (fds w).

(** *** Total correctness of system calls *)

(** [m] run from [w] returns, and [Q] holds of what it returns. *)
Definition wp {A} (m : sys A) (Q : A -> world -> Prop) (w : world) : Prop :=
  match m w with Ok (a, w') => Q a w' | Fault _ => False end.

Lemma wp_ret {A} (a : A) Q w : Q a w -> wp (mret a) Q w.
Proof. done. Qed.
Lemma wp_bind {A B} (m : sys A) (k : A -> sys B) Q w :
  wp m (fun a => wp (k a) Q) w -> wp (m ≫= k) Q w.
Proof. unfold wp, mbind, sys_bind. by destruct (m w) as [[a w']|]. Qed.
Lemma wp_mono {A} (m : sys A) (P Q : A -> world -> Prop) w :
  wp m P w -> (forall a w', P a w' -> Q a w') -> wp m Q w.
Proof. unfold wp. destruct (m w) as [[a w']|]; eauto. Qed.
Lemma wp_lift {A} (m : res A) Q w a : m = Ok a -> Q a w -> wp (lift m) Q w.
Proof. by intros ->. Qed.

(** Calls that open and close nothing. *)
Definition quiet (w w' : world) : Prop :=
  fds w' = fds w /\ next_fd w' = next_fd w /\ trace w `prefix_of` trace w'.
Lemma quiet_refl w : quiet w w.
Proof. done. Qed.
Lemma quiet_trans w1 w2 w3 : quiet w1 w2 -> quiet w2 w3 -> quiet w1 w3.
Proof. intros (H1 & H2 & H3) (H4 & H5 & H6). split_and!; [congruence..|by etrans]. Qed.
Lemma holds_quiet w0 s w w' : holds w0 s w -> quiet w w' -> holds w0 s w'.
Proof. unfold holds. intros H (-> & -> & _). done. Qed.

Lemma wp_log cs w : wp (log cs) (fun _ w' => quiet w w' /\ trace w' = trace w ++ cs) w.
Proof. split; [|done]. split_and!; [done..|by exists cs]. Qed.

Lemma socket_setup_returns sock family o :
  0 < sock -> exists cs, do_socket_setup k_setsockopt k_getsockopt sock family (Some o) = Ok cs.
Proof.
  intros Hs. unfold do_socket_setup, set_dscp_socket_options. cbn [socket socket6].
  destruct (Z.gtb_spec sock 0); [|lia]. cbn [orb andb Z.gtb]. case_ifs; cbn; eauto.
Qed.

Lemma wp_setup sock family o w :
  0 < sock -> wp (setup sock family o) (fun _ w' => quiet w w') w.
Proof.
  intros Hs. apply wp_bind. destruct (socket_setup_returns sock family o Hs) as [cs E]. eapply wp_lift; [exact E|]. eapply wp_mono; [apply wp_log|]. by intros ? ? [? _].
Qed.

Lemma filter_fresh (l : list Z) n : Forall (fun fd => fd < n) l -> filter (fun x => x <> n) l = l.
Proof.
  induction 1 as [|x l Hx Hl IH]; [done|]. rewrite filter_cons_True by lia. by rewrite IH.
Qed.

Definition none : socket_t := {| socket := -1; socket6 := -1 |}.
Definition without4 (s : socket_t) : socket_t := {| socket := -1; socket6 := socket6 s |}.
Definition without6 (s : socket_t) : socket_t := {| socket := socket s; socket6 := -1 |}.

Lemma holds_closed w0 w : holds w0 none w -> fds w = fds w0 /\ next_fd w0 <= next_fd w.
Proof. intros (-> & ? & _). done. Qed.

Lemma wp_socket_call family w :
  wp (socket_call family) (fun fd w' =>
    fd = -1 /\ w' = w \/
    fd = next_fd w /\ fds w' = fd :: fds w /\ next_fd w' = next_fd w + 1) w.
Proof. unfold wp, socket_call, open_fd. destruct (k_socket (next_fd w) family); [by right|by left]. Qed.

Lemma wp_socket_trace family w :
  wp (socket_call family) (fun fd w' =>
    fd = -1 /\ w' = w \/
    fd = next_fd w /\ fds w' = fd :: fds w /\ next_fd w' = next_fd w + 1 /\
    exists c, trace w' = trace w ++ [c] /\ c = Socket fd family) w.
Proof.
  unfold wp, socket_call, open_fd. destruct (k_socket (next_fd w) family); [right; eauto 10|by left].
Qed.

(** A socket is opened only for a family with a source address. *)
Definition sourced (o : server_opts) (s : socket_t) : Prop :=
  (0 <= socket s -> is_Some (sourcev4 o)) /\ (0 <= socket6 s -> is_Some (sourcev6 o)).

Lemma wp_open_sockets o w0 :
  world_ok w0 -> wp (open_sockets o) (fun s w => holds w0 s w /\ sourced o s) w0.
Proof.
  intros [Hn _]. unfold open_sockets. apply wp_bind.
  apply (wp_mono _ (fun s4 w => (s4 = -1 /\ w = w0 \/ s4 = next_fd w0 /\ fds w = s4 :: fds w0 /\
    next_fd w = next_fd w0 + 1) /\ (0 <= s4 -> is_Some (sourcev4 o)))).
  { destruct (sourcev4 o); [|by apply wp_ret; split; [left|lia]].
    eapply wp_mono; [apply wp_socket_call|]. naive_solver. }
  intros s4 w [H4 Hv4]. apply wp_bind.
  apply (wp_mono _ (fun s6 w' => (s6 = -1 /\ w' = w \/ s6 = next_fd w /\ fds w' = s6 :: fds w /\
    next_fd w' = next_fd w + 1) /\ (0 <= s6 -> is_Some (sourcev6 o)))).
  { destruct (sourcev6 o); [|by apply wp_ret; split; [left|lia]].
    eapply wp_mono; [apply wp_socket_call|]. naive_solver. }
  intros s6 w' [H6 Hv6]. apply wp_ret. split; [|done]. unfold holds.
  destruct H4 as [[-> ->]|(-> & Ef & En)], H6 as [[-> ->]|(-> & Ef' & En')];
    owned; rewrite ?Ef', ?En', ?Ef, ?En; split_and!; (done || lia).
Qed.

Lemma filter_below (l : list Z) n fd :
  Forall (fun x => x < n) l -> n <= fd -> filter (fun x => x <> fd) l = l.
Proof.
  intros Hl Hn. apply filter_fresh. eapply Forall_impl; [exact Hl|]. cbn. lia.
Qed.

Lemma wp_close_v4 w0 s w :
  world_ok w0 -> holds w0 s w ->
  wp (close_open (socket s)) (fun _ w' => holds w0 (without4 s) w' /\ trace w `prefix_of` trace w') w.
Proof.
  intros [Hn Hf] (Ef & Hle & H4 & H6 & Hd4 & Hd6). unfold close_open.
  destruct (Z.geb_spec (socket s) 0) as [Hp|Hp].
  - unfold wp, close. cbn. split; [|by apply prefix_app_r]. unfold holds, without4.
    cbn [fds next_fd socket socket6]. rewrite Ef. destruct (Hd4 Hp) as [Hge Hne].
    destruct (Z.le_gt_cases 0 (socket6 s)) as [Hs6|Hs6]; owned; cbn [app];
      rewrite ?filter_cons_True by lia; rewrite ?filter_cons_False by (intros E; by apply E);
      rewrite (filter_below _ (next_fd w0)) by done; split_and!; (done || lia).
  - apply wp_ret. split; [|done]. unfold holds, without4. rewrite Ef.
    split_and!; cbn [socket socket6]; try lia.
    destruct (Z.le_gt_cases 0 (socket6 s)); owned; done.
Qed.

Lemma wp_close_v6 w0 s w :
  world_ok w0 -> holds w0 s w ->
  wp (close_open (socket6 s)) (fun _ w' => holds w0 (without6 s) w' /\ trace w `prefix_of` trace w') w.
Proof.
  intros [Hn Hf] (Ef & Hle & H4 & H6 & Hd4 & Hd6). unfold close_open.
  destruct (Z.geb_spec (socket6 s) 0) as [Hp|Hp].
  - unfold wp, close. cbn. split; [|by apply prefix_app_r]. unfold holds, without6.
    cbn [fds next_fd socket socket6]. rewrite Ef. specialize (Hd6 Hp).
    destruct (Z.le_gt_cases 0 (socket s)) as [Hs4|Hs4]; owned; cbn [app];
      rewrite ?filter_cons_False by (intros E; by apply E); rewrite ?filter_cons_True by lia;
      rewrite (filter_below _ (next_fd w0)) by done; split_and!; (done || lia).
  - apply wp_ret. split; [|done]. unfold holds, without6. rewrite Ef.
    split_and!; cbn [socket socket6]; try lia.
    destruct (Z.le_gt_cases 0 (socket s)); owned; done.
Qed.

(** The two halves of listen_bound() keep the descriptors accounted for. *)
Definition listened (w0 w : world) (r : option Z * socket_t) (w' : world) : Prop :=
  trace w `prefix_of` trace w' /\
  match r with
  | (Some e, s) => e = EADDRINUSE /\ s = none /\ holds w0 none w'
  | (None, s) => holds w0 s w'
  end.

Lemma close_is_open fd : 0 <= fd -> close_open fd = close fd.
Proof. intros. unfold close_open. by destruct (Z.geb_spec fd 0); [|lia]. Qed.

Lemma wp_listen_v4 w0 s w :
  world_ok w0 -> holds w0 s w -> 0 <= socket s ->
  wp (listen_v4 s) (fun r w' => listened w0 w r w' /\
    match r with (None, s') => socket6 s' = socket6 s /\
      (0 <= socket s' -> socket s' = socket s /\ Listen (socket s') 1 ∈ trace w')
    | _ => k_listen (socket s) = Some EADDRINUSE end) w.
Proof.
  intros Hw Hh Hs. unfold listen_v4. rewrite <- (close_is_open (socket s)) by done.
  destruct (k_listen (socket s)) as [e|] eqn:El.
  - apply wp_bind. eapply wp_mono; [by eapply wp_close_v4|]. intros [] w1 [Hh1 Hp1].
    destruct (Z.eqb_spec e EADDRINUSE).
    + apply wp_bind. eapply wp_mono; [apply (wp_close_v6 w0 (without4 s)); done|].
      intros [] w2 [Hh2 Hp2]. apply wp_ret. split; [|congruence]. split; [by etrans|done].
    + apply wp_ret. split; [done|]. cbn. split; [done|lia].
  - apply wp_bind. eapply wp_mono; [apply wp_log|]. intros [] w1 [Hq Ht]. apply wp_ret.
    split; [split; [apply Hq|by eapply holds_quiet]|]. split; [done|]. intros _. split; [done|].
    rewrite Ht. set_solver.
Qed.

Lemma wp_listen_v6 w0 s w :
  world_ok w0 -> holds w0 s w -> 0 <= socket6 s ->
  wp (listen_v6 s) (fun r w' => listened w0 w r w' /\
    match r with (None, s') => socket s' = socket s /\
      (0 <= socket6 s' -> socket6 s' = socket6 s /\ Listen (socket6 s') 1 ∈ trace w')
    | _ => k_listen (socket6 s) = Some EADDRINUSE end) w.
Proof.
  intros Hw Hh Hs. unfold listen_v6. rewrite <- (close_is_open (socket6 s)) by done.
  destruct (k_listen (socket6 s)) as [e|] eqn:El.
  - apply wp_bind. eapply wp_mono; [by eapply wp_close_v6|]. intros [] w1 [Hh1 Hp1].
    destruct (Z.eqb_spec e EADDRINUSE).
    + apply wp_bind. eapply wp_mono; [apply (wp_close_v4 w0 (without6 s)); done|].
      intros [] w2 [Hh2 Hp2]. apply wp_ret. split; [|congruence]. split; [by etrans|done].
    + apply wp_ret. split; [done|]. cbn. split; [done|lia].
  - apply wp_bind. eapply wp_mono; [apply wp_log|]. intros [] w1 [Hq Ht]. apply wp_ret.
    split; [split; [apply Hq|by eapply holds_quiet]|]. split; [done|]. intros _. split; [done|].
    rewrite Ht. set_solver.
Qed.

(** What start_listening() promises.  A port is in use when the kernel said so to a bind()
    to it, or to a listen() on a socket that was bound to it. *)
Definition in_use (port : Z) (w : world) : Prop :=
  exists fd a, Bind fd a (u16 port) ∈ trace w /\ (k_bind fd a (u16 port) = Some EADDRINUSE \/ k_listen fd = Some EADDRINUSE).
Definition bound (port : Z) (w : world) (s : socket_t) : Prop :=
  forall fd, fd ∈ owned s -> exists a, Bind fd a (u16 port) ∈ trace w.
Definition start_post (port : Z) (o : server_opts) (w0 : world) (r : Z * socket_t) (w : world) : Prop :=
  let '(res, s) := r in
  (res = 0 /\ holds w0 s w /\ (0 <= socket s \/ 0 <= socket6 s) /\ bound port w s /\
   (socktype o = SOCK_STREAM -> forall fd, fd ∈ owned s -> Listen fd 1 ∈ trace w)) \/
  (res = EADDRINUSE /\ fds w = fds w0 /\ next_fd w0 <= next_fd w /\ in_use port w) \/
  (res = -1 /\ (fds w = fds w0 \/ is_Some (device o) /\ holds w0 s w)).

Lemma holds_neg w0 s w : holds w0 s w -> socket s < 0 -> socket6 s < 0 -> fds w = fds w0.
Proof. intros (-> & _) H4 H6. by owned. Qed.

Lemma prefix_elem {A} (x : A) l l' : l `prefix_of` l' -> x ∈ l -> x ∈ l'.
Proof. intros [k ->] H. set_solver. Qed.

Lemma elem_owned fd s : fd ∈ owned s <-> 0 <= fd /\ (fd = socket s \/ fd = socket6 s).
Proof.
  unfold owned. rewrite list_elem_of_filter, !elem_of_cons, elem_of_nil. tauto.
Qed.

(** One half of listen_bound(): the socket of the other family is left alone. *)
Definition half (this other : socket_t -> Z) (o : server_opts) (s : socket_t)
    (r : option Z * socket_t) (w : world) : Prop :=
  match r with
  | (None, s') => other s' = other s /\ (0 <= this s' -> this s' = this s /\
      (socktype o = SOCK_STREAM -> Listen (this s') 1 ∈ trace w))
  | _ => 0 <= this s /\ k_listen (this s) = Some EADDRINUSE
  end.

Lemma wp_half_v4 o w0 s w :
  world_ok w0 -> holds w0 s w ->
  wp (if (socket s >=? 0) && (socktype o =? SOCK_STREAM) then listen_v4 s else mret (None, s))
    (fun r w1 => listened w0 w r w1 /\ half socket socket6 o s r w1) w.
Proof.
  intros Hw Hh. destruct (Z.geb_spec (socket s) 0); cbn [andb]; [|by apply wp_ret; split; [|split; [|lia]]].
  destruct (Z.eqb_spec (socktype o) SOCK_STREAM); [|by apply wp_ret; split; [|split]].
  eapply wp_mono; [by apply (wp_listen_v4 w0)|]. intros [[?|] s1] w1; unfold half; naive_solver.
Qed.
Lemma wp_half_v6 o w0 s w :
  world_ok w0 -> holds w0 s w ->
  wp (if (socket6 s >=? 0) && (socktype o =? SOCK_STREAM) then listen_v6 s else mret (None, s))
    (fun r w1 => listened w0 w r w1 /\ half socket6 socket o s r w1) w.
Proof.
  intros Hw Hh. destruct (Z.geb_spec (socket6 s) 0); cbn [andb]; [|by apply wp_ret; split; [|split; [|lia]]].
  destruct (Z.eqb_spec (socktype o) SOCK_STREAM); [|by apply wp_ret; split; [|split]].
  eapply wp_mono; [by apply (wp_listen_v6 w0)|]. intros [[?|] s1] w1; unfold half; naive_solver.
Qed.

Lemma wp_listen_bound port o w0 s w :
  world_ok w0 -> holds w0 s w -> bound port w s ->
  wp (listen_bound o s) (start_post port o w0) w.
Proof.
  intros Hw Hh Hb. unfold listen_bound. apply wp_bind.
  eapply wp_mono; [by apply (wp_half_v4 o w0)|].
  intros [[e|] s1] w1 [[Hp1 Hh1] Hr1]; [destruct Hh1 as (-> & -> & Hh1)|].
  { apply wp_ret. right; left. destruct (holds_closed _ _ Hh1). split_and!; [done..|]. destruct Hr1 as [H4 Hl].
    destruct (Hb (socket s)) as [a Ha]; [apply elem_owned; auto|]. exists (socket s), a. eauto using prefix_elem. }
  destruct Hr1 as [E6 Hl4]. apply wp_bind.
  eapply wp_mono; [by apply (wp_half_v6 o w0)|].
  intros [[e|] s2] w2 [[Hp2 Hh2] Hr2]; [destruct Hh2 as (-> & -> & Hh2)|].
  { apply wp_ret. right; left. destruct (holds_closed _ _ Hh2). split_and!; [done..|]. destruct Hr2 as [H6 Hl].
    rewrite E6 in H6, Hl. destruct (Hb (socket6 s)) as [a Ha]; [apply elem_owned; auto|].
    exists (socket6 s), a. eauto using prefix_elem. }
  destruct Hr2 as [E4 Hl6].
  assert (Hpre : trace w `prefix_of` trace w2) by (by etrans).
  assert (Hbound : bound port w2 s2).
  { intros fd [Hge Hfd]%elem_owned. destruct (Hb fd) as [a Ha].
    - apply elem_owned. split; [done|].
      destruct Hfd as [->| ->]; [left; rewrite E4 in *; by apply Hl4|right; rewrite <- E6; by apply Hl6].
    - exists a. by eapply prefix_elem. }
  assert (Hlis : socktype o = SOCK_STREAM -> forall fd, fd ∈ owned s2 -> Listen fd 1 ∈ trace w2).
  { intros Ht fd [Hge Hfd]%elem_owned. destruct Hfd as [->| ->]; [|by apply Hl6].
    rewrite E4 in *. eapply prefix_elem; [exact Hp2|]. by apply Hl4. }
  destruct (Z.ltb_spec (socket s2) 0), (Z.ltb_spec (socket6 s2) 0);
    cbn [andb]; apply wp_ret; try (right; right; split; [done|left; by eapply holds_neg]);
    left; auto 10.
Qed.

Lemma bind_address_returns o s port :
  sourced o s -> 0 <= socket s \/ 0 <= socket6 s ->
  exists tried r, bind_sockets_to_address s (sourcev4 o) (sourcev6 o)
    (fun fd a => bool_decide (k_bind fd a port = None)) = Ok (tried, r) /\
    (r = -1 \/ r = 0 /\ forall fd, fd ∈ owned s -> exists a, (fd, a) ∈ tried).
Proof.
  intros [H4 H6] Hs. unfold bind_sockets_to_address.
  destruct (Z.geb_spec (socket s) 0) as [G4|G4], (Z.geb_spec (socket6 s) 0) as [G6|G6]; [| | |lia].
  - destruct (H4 G4) as [a4 ->], (H6 G6) as [a6 ->]. cbn.
    do 2 case_bool_decide; eexists _, _; (split; [done|]); try by left.
    right. split; [done|]. intros fd [_ [->| ->]]%elem_owned; eauto using list_elem_of_here, list_elem_of_further.
  - destruct (H4 G4) as [a4 ->]. cbn. case_bool_decide; eexists _, _; (split; [done|]); try by left.
    right. split; [done|]. intros fd [Hfd [->| ->]]%elem_owned; [eauto using list_elem_of_here, list_elem_of_further|lia].
  - destruct (H6 G6) as [a6 ->]. cbn. case_bool_decide; eexists _, _; (split; [done|]); try by left.
    right. split; [done|]. intros fd [Hfd [->| ->]]%elem_owned; [lia|eauto using list_elem_of_here, list_elem_of_further].
Qed.

Lemma bind_device_returns s bind :
  0 <= socket s \/ 0 <= socket6 s -> exists r, bind_sockets_to_device s bind = Ok r.
Proof.
  intros Hs. unfold bind_sockets_to_device.
  destruct (Z.geb_spec (socket s) 0), (Z.geb_spec (socket6 s) 0); [| | |lia]; cbn;
    case_ifs; eauto.
Qed.

Lemma wp_start_listening port o w0 :
  world_ok w0 -> wp (start_listening port o) (start_post port o w0) w0.
Proof.
  intros Hw. unfold start_listening. apply wp_bind.
  eapply wp_mono; [by apply wp_open_sockets|]. intros s w [Hh Hsrc].
  destruct ((socket s <? 0) && (socket6 s <? 0)) eqn:Eneg.
  { apply wp_ret. right; right. split; [done|left]. apply (holds_neg w0 s); [done|lia..]. }
  assert (Hs : 0 <= socket s \/ 0 <= socket6 s) by lia. clear Eneg.
  assert (Hpos : (0 <= socket s -> 0 < socket s) /\ (0 <= socket6 s -> 0 < socket6 s)).
  { destruct Hh as (_ & _ & _ & _ & H4 & H6), Hw as [Hn _]. split; intros; [destruct H4; lia|lia]. }
  apply wp_bind. apply (wp_mono _ (fun _ w' => holds w0 s w')).
  { destruct (Z.geb_spec (socket s) 0); [|by apply wp_ret].
    eapply wp_mono; [apply wp_setup; naive_solver|]. intros. by eapply holds_quiet. }
  intros [] w1 Hh1. apply wp_bind. apply (wp_mono _ (fun _ w' => holds w0 s w')).
  { destruct (Z.geb_spec (socket6 s) 0); [|by apply wp_ret]. apply wp_bind.
    eapply wp_mono; [apply wp_setup; naive_solver|]. intros [] w' Hq.
    eapply wp_mono; [apply wp_log|]. intros [] w'' [Hq' _].
    eapply holds_quiet; [exact Hh1|by eapply quiet_trans]. }
  intros [] w2 Hh2. apply wp_bind.
  apply (wp_mono _ (fun dev w' => holds w0 s w' /\ (dev < 0 -> is_Some (device o)))).
  { destruct (device o); [|by apply wp_ret; split; [|lia]]. apply wp_bind.
    destruct (bind_device_returns s k_bind_device Hs) as [r Er]. eapply wp_lift; [exact Er|].
    apply wp_bind. eapply wp_mono; [apply wp_log|]. intros [] w' [Hq' _]. apply wp_ret.
    split; [by eapply holds_quiet|done]. }
  intros dev w3 [Hh3 Hdev]. destruct (Z.ltb_spec dev 0) as [Hd|_].
  { apply wp_ret. right; right. auto. }
  apply wp_bind. destruct (bind_address_returns o s (u16 port) Hsrc Hs) as (tried & r & Er & Hr).
  eapply wp_lift; [exact Er|]. apply wp_bind. eapply wp_mono; [apply wp_log|].
  intros [] w4 [Hq4 Ht4]. assert (Hh4 : holds w0 s w4) by (by eapply holds_quiet). cbn [fst snd] in *.
  destruct Hr as [->|[-> Hbnd]].
  - change (-1 <? 0) with true. cbv iota. apply wp_bind.
    eapply wp_mono; [by eapply wp_close_v4|]. intros [] w5 [Hh5 Hp5]. apply wp_bind.
    eapply wp_mono; [apply (wp_close_v6 w0 (without4 s)); done|]. intros [] w6 [Hh6 Hp6].
    pose proof (holds_closed _ _ Hh6) as [? ?]. case_bool_decide as He; apply wp_ret; right; [left|right; auto].
    split_and!; [done..|]. unfold bind_errno in He. destruct (last tried) as [[fd a]|] eqn:El; [|done].
    exists fd, a. split; [|by left]. apply (prefix_elem _ (trace w4)); [by etrans|]. rewrite Ht4. apply elem_of_app. right.
    apply list_elem_of_fmap. exists (fd, a). split; [done|]. by apply last_Some_elem_of.
  - change (0 <? 0) with false. cbv iota. apply wp_listen_bound; [done..|].
    intros fd Hfd. destruct (Hbnd fd Hfd) as [a Ha]. exists a. rewrite Ht4. apply elem_of_app. right.
    apply list_elem_of_fmap. by exists (fd, a).
Qed.

(** *** Trying the ports in turn *)

Lemma holds_rebase w0 w1 s w :
  fds w1 = fds w0 -> next_fd w0 <= next_fd w1 -> holds w1 s w -> holds w0 s w.
Proof. unfold holds. intros -> Hn (-> & ? & ? & ? & ? & ?). split_and!; (done || lia). Qed.

Lemma start_post_rebase port o w0 w1 r w :
  fds w1 = fds w0 -> next_fd w0 <= next_fd w1 -> start_post port o w1 r w -> start_post port o w0 r w.
Proof.
  destruct r as [res s]. cbn. intros Ef Hn Hp. destruct Hp as [(-> & Hh & Hr)|[(-> & E & Hle & Hu)|(-> & Hl)]].
  - left. split; [done|]. split; [by eapply holds_rebase|done].
  - right; left. split_and!; [done|congruence|lia|done].
  - right; right. split; [done|]. destruct Hl as [E|[Hd Hh]]; [left; congruence|right].
    split; [done|by eapply holds_rebase].
Qed.

(** Calls are only ever added to the trace. *)
Definition extends {A} (m : sys A) : Prop := forall w a w', m w = Ok (a, w') -> trace w `prefix_of` trace w'.
Lemma extends_ret {A} (a : A) : extends (mret a).
Proof. by intros w a' w' [= _ <-]. Qed.
Lemma extends_bind {A B} (m : sys A) (k : A -> sys B) : extends m -> (forall a, extends (k a)) -> extends (m ≫= k).
Proof.
  intros Hm Hk w b w'. unfold mbind, sys_bind. destruct (m w) as [[a w1]|] eqn:E; [|done]. intros H.
  etrans; [by eapply Hm|by eapply Hk].
Qed.
Lemma extends_lift {A} (m : res A) : extends (lift m).
Proof. intros w a w'. unfold lift. destruct m; [|done]. by intros [= _ <-]. Qed.
Lemma extends_log cs : extends (log cs).
Proof. intros w a w' [= _ <-]. by exists cs. Qed.
Lemma extends_close fd : extends (close fd).
Proof. intros w a w' [= _ <-]. by eexists. Qed.
Lemma extends_open ok c : extends (open_fd ok c).
Proof. intros w a w'. unfold open_fd. destruct ok; intros [= _ <-]; [by eexists|done]. Qed.
Lemma extends_socket family : extends (socket_call family).
Proof. intros w a w'. apply extends_open. Qed.
Ltac extends := repeat first
  [ match goal with H : forall _, extends _ |- _ => apply H end
  | apply extends_ret | apply extends_bind; [|intros ?] | apply extends_lift | apply extends_log | apply extends_close
  | apply extends_open | apply extends_socket | progress case_match | assumption ].
Lemma extends_listen_bound o s : extends (listen_bound o s).
Proof. unfold listen_bound, listen_v4, listen_v6, close_open. extends. Qed.
Lemma extends_start_listening port o : extends (start_listening port o).
Proof.
  pose proof (extends_listen_bound o). unfold start_listening, open_sockets, setup, close_open. extends.
Qed.

Lemma wp_listen_ports more port portmax o w0 :
  world_ok w0 -> 0 <= port -> portmax < 65536 -> port + Z.of_nat more = portmax ->
  wp (listen_ports more port portmax o) (fun r w => exists p w1,
    port <= p <= portmax /\ trace w0 `prefix_of` trace w1 /\ (forall q, port <= q < p -> in_use q w1) /\
    start_listening p o w1 = Ok (r, w) /\ start_post p o w0 r w /\ (fst r = EADDRINUSE -> p = portmax)) w0.
Proof.
  assert (Hstop : forall port w0 r w1, 0 <= port <= portmax -> start_listening port o w0 = Ok (r, w1) ->
    start_post port o w0 r w1 -> (fst r = EADDRINUSE -> port = portmax) -> exists p w,
    port <= p <= portmax /\ trace w0 `prefix_of` trace w /\ (forall q, port <= q < p -> in_use q w) /\
    start_listening p o w = Ok (r, w1) /\ start_post p o w0 r w1 /\ (fst r = EADDRINUSE -> p = portmax)).
  { intros. exists port0, w1. split_and!; [lia..|done|lia|done|done|done]. }
  revert port w0. induction more as [|more IH]; intros port w0 Hw Hp Hm Hs; cbn [listen_ports];
    apply wp_bind; pose proof (wp_start_listening port o w0 Hw) as Hr; unfold wp at 1;
    unfold wp in Hr; destruct (start_listening port o w0) as [[r w1]|] eqn:E1; try done.
  - rewrite (proj2 (Z.ltb_ge port portmax)), andb_false_r by lia. apply wp_ret. apply (Hstop port w0); [lia|done..|lia].
  - rewrite (proj2 (Z.ltb_lt port portmax)), andb_true_r by lia.
    destruct (Z.eqb_spec (fst r) EADDRINUSE) as [Er|Er]; [|by apply wp_ret, (Hstop port w0); [lia|..]].
    destruct r as [res s]. cbn in Er, Hr. subst res.
    destruct Hr as [(? & _)|[(_ & Ef & Hn & Hu)|(? & _)]]; [done| |done].
    rewrite u16_id by lia. eapply wp_mono; [apply IH; [|lia..]|].
    + destruct Hw as [Hw Hf]. split; [lia|]. rewrite Ef. eapply Forall_impl; [exact Hf|]. cbn. lia.
    + intros r w2 (p & w3 & Hpr & Hpre & Huse & Hst & Hpost & Hlast). exists p, w3. split_and!; [lia..| | |done| |done].
      * etrans; [|exact Hpre]. by eapply extends_start_listening.
      * intros q Hq. destruct (decide (q = port)) as [->|]; [|apply Huse; lia].
        destruct Hu as (fd & a & Hb & Hk). exists fd, a. split; [by eapply prefix_elem|done].
      * by eapply start_post_rebase.
Qed.

(** *** Accepting one connection *)

Lemma wait_ends s maxwait start delay env :
  Exists (fun e => match e with SelIntr _ => False | _ => True end) env ->
  exists f l, snd (wait_loop s maxwait start delay env) = Some (f, l) /\
    (0 < f -> f = AF_INET /\ 0 < socket s \/ f = AF_INET6 /\ 0 < socket6 s).
Proof.
  revert delay. induction env as [|e env IH]; intros delay He; [by inversion He|].
  destruct e as [now|now|readable now]; cbn [wait_loop].
  - inversion He as [|? ? He']; subst; [done|].
    destruct (IH (elapsed now start) He') as (f & l & Hf & Hs).
    destruct (wait_loop s maxwait start (elapsed now start) env) as [ts r]. by exists f, l.
  - by eexists _, _.
  - eexists _, _. split; [done|].
    destruct (Z.gtb_spec (socket s) 0), (Z.gtb_spec (socket6 s) 0); cbn [andb];
      repeat case_bool_decide; cbn; (lia || auto).
Qed.

Definition connected (fd : Z) (w0 w : world) : Prop := fds w = fd :: fds w0 /\ 0 < fd.

(** The descriptors after close_open(). *)
Definition closed (x : Z) (l : list Z) : list Z := if x >=? 0 then filter (fun y => y <> x) l else l.

Lemma wp_close_positive x w :
  (0 <= x -> 0 < x) -> wp (close_positive x) (fun _ w' => fds w' = closed x (fds w)) w.
Proof.
  intros Hx. unfold close_positive, closed.
  destruct (Z.gtb_spec x 0), (Z.geb_spec x 0); try lia; done.
Qed.
Lemma closed_cons fd x l : x <> fd -> closed x (fd :: l) = fd :: closed x l.
Proof. intros. unfold closed. case_ifs; [|done]. by rewrite filter_cons_True by congruence. Qed.

Lemma holds_close_pair w0 s w :
  world_ok w0 -> holds w0 s w -> closed (socket6 s) (closed (socket s) (fds w)) = fds w0.
Proof.
  intros Hw Hh. pose proof (wp_close_v4 w0 s w Hw Hh) as H4. unfold wp, close_open, closed in *.
  destruct (socket s >=? 0); cbn in H4; destruct H4 as [H4 _].
  all: pose proof (wp_close_v6 w0 (without4 s) _ Hw H4) as H6; unfold wp, close_open in H6;
    cbn [socket6 without4] in H6; destruct (socket6 s >=? 0); cbn in H6; destruct H6 as [H6 _];
    by apply holds_closed in H6 as [H6 _].
Qed.

Lemma wp_establish fd w :
  0 <= fd ->
  wp (establish_control_socket fd) (fun r w' =>
    match r with
    | Some fd' => fd' = fd /\ fds w' = fds w /\
        (ssl_ctx = true -> do_handshake fd = true /\ verify_result_ok fd = true)
    | None => fds w' = closed fd (fds w) \/ bio_new_socket fd = false /\ fds w' = fds w
    end) w.
Proof.
  intros Hfd. unfold establish_control_socket, wp, close, closed.
  destruct (Z.geb_spec fd 0); [|lia].
  destruct (bio_new_socket fd); cbn; [|by right]. destruct ssl_ctx; cbn; [|done].
  destruct (bio_new_ssl fd), (do_handshake fd), (verify_result_ok fd);
    unfold mbind, sys_bind, mret, sys_ret; cbn; auto.
Qed.

Definition listener (family : Z) (s : socket_t) : Z := if family =? AF_INET then socket s else socket6 s.
Lemma wp_accept_from family s o w :
  k_accept (listener family s) = true -> 0 < next_fd w -> family = AF_INET \/ family = AF_INET6 ->
  wp (accept_from family s o) (fun r w' => exists o', r = Some (next_fd w, o') /\
    fds w' = next_fd w :: fds w /\ trace w' = trace w ++ [Accept (listener family s) (next_fd w)] /\
    (family = AF_INET /\ sourcev4 o' = Some (k_getsockname (next_fd w)) /\ sourcev6 o' = None \/
     family = AF_INET6 /\ sourcev4 o' = None /\ sourcev6 o' = Some (k_getsockname (next_fd w)))) w.
Proof.
  unfold listener. intros Ha Hn Hf. unfold accept_from, accept_call, open_fd, get_socket_address, wp.
  unfold mbind, sys_bind, mret, sys_ret, lift.
  destruct Hf as [->| ->]; cbn in *; rewrite Ha; cbn; destruct (Z.gtb_spec (next_fd w) 0); try lia; cbn;
    eexists; (split; [done|]); split_and!; auto.
Qed.
(** An accept() that fails is not noticed before the assertion of get_socket_address(). *)
Lemma accept_one_fails family s o w :
  k_accept (listener family s) = false -> family = AF_INET \/ family = AF_INET6 ->
  accept_from family s o w = Fault AssertFail.
Proof.
  unfold listener. intros Ha Hf. unfold accept_from, accept_call, open_fd, get_socket_address.
  destruct Hf as [->| ->]; cbn in *; unfold mbind, sys_bind; by rewrite Ha.
Qed.
Lemma extends_establish fd : extends (establish_control_socket fd).
Proof. unfold establish_control_socket. extends. Qed.
Lemma extends_close_positive fd : extends (close_positive fd).
Proof. unfold close_positive. extends. Qed.

(** With a fault as a further outcome. *)
Definition wp_or {A} (m : sys A) (Q : A -> world -> Prop) (F : fault -> Prop) (w : world) : Prop :=
  match m w with Ok (a, w') => Q a w' | Fault f => F f end.
Lemma wp_or_bind {A B} (m : sys A) (k : A -> sys B) Q F w :
  wp_or m (fun a => wp_or (k a) Q F) F w -> wp_or (m ≫= k) Q F w.
Proof. unfold wp_or, mbind, sys_bind. by destruct (m w) as [[a w']|]. Qed.
Lemma wp_or_wp {A} (m : sys A) (Q : A -> world -> Prop) F w : wp m Q w -> wp_or m Q F w.
Proof. unfold wp, wp_or. by destruct (m w) as [[]|]. Qed.
Lemma wp_extends {A} (m : sys A) Q w : extends m -> wp m Q w -> wp m (fun a w' => Q a w' /\ trace w `prefix_of` trace w') w.
Proof. unfold wp. intros Hm. destruct (m w) as [[a w']|] eqn:E; [|done]. intros HQ. split; [done|by eapply Hm]. Qed.
End Serverlib.


(** Every port in use but the last: the server ends up on it, over IPv4. *)
Definition busy_kernel : Kernel := {|
  k_socket := fun _ _ => true; k_setsockopt := fun _ => SetDone; k_getsockopt := fun _ => None;
  k_bind_device := fun _ => true;
  k_bind := fun _ _ port => if port <? 8002 then Some EADDRINUSE else None;
  k_listen := fun _ => None; k_accept := fun _ => true; k_connect := fun _ _ => true;
  k_getsockname := fun _ => SockIn 16777343; k_v6only := fun _ => true
|}.
Definition trusting : Openssl := {|
  ssl_ctx := true; bio_new_socket := fun _ => true; bio_new_ssl := fun _ => true;
  do_handshake := fun _ => true; verify_result_ok := fun _ => true;
  peer_certificate := fun _ => Some {| subject_cn := Some (str "amp.example.org") |}
|}.
Definition plain_opts : sockopt_t :=
  {| sock_mss := 0; sock_disable_nagle := 0; sock_rcvbuf := 0; sock_sndbuf := 0; reuse_addr := 1; dscp := 0 |}.
Definition both_families : server_opts :=
  {| so_opts := plain_opts; device := None; socktype := SOCK_STREAM;
     sourcev4 := Some (SockIn 0); sourcev6 := Some (SockIn6 [0; 0; 0; 0; 0; 0; 0; 0]) |}.
Definition fresh_world : world := {| fds := [0; 1; 2]; next_fd := 3; trace := [] |}.

Example busy_ports :
  match @listen_control_server busy_kernel trusting 8000 8002 both_families (Tv 100 0)
      [SelIntr (Tv 101 0); SelReady [7] (Tv 102 0)] fresh_world with
  | Ok ((ctrl, o), w) => ctrl = Some 9 /\ fds w = [9; 0; 1; 2] /\
      sourcev4 o = Some (SockIn 16777343) /\ sourcev6 o = None
  | Fault _ => False
  end.
Proof. vm_compute. repeat split. Qed.

(** Nobody connects: the listening sockets stay open. *)
Example listen_timeout_leaks :
  match @listen_control_server busy_kernel trusting 8000 8002 both_families (Tv 100 0)
      [SelReady [] (Tv 160 0)] fresh_world with
  | Ok ((ctrl, _), w) => ctrl = None /\ fds w = [8; 7; 0; 1; 2]
  | Fault _ => False
  end.
Proof. vm_compute. split; reflexivity. Qed.

(** A connection that is aborted before the server accepts it makes accept() fail;
    the server does not report that but stops on the assertion of
    get_socket_address(), which is called before the result is checked. *)
Theorem failed_accept_asserts `{Kernel, Openssl} family s o w :
  family = AF_INET \/ family = AF_INET6 ->
  k_accept (if family =? AF_INET then socket s else socket6 s) = false ->
  accept_from family s o w = Fault AssertFail.
Proof. intros Hf Ha. by apply accept_one_fails. Qed.

(** ** Connecting *)

Fixpoint connects (cs : list call) : nat :=
  match cs with [] => O | Connect _ _ _ :: cs => S (connects cs) | _ :: cs => connects cs end.

Section Connecting.
Context `{Kernel}.

(** What calls on one socket add to the trace. *)
Definition added (w : world) (cs : list call) (w' : world) : Prop :=
  fds w' = fds w /\ next_fd w' = next_fd w /\ trace w' = trace w ++ cs.
Lemma added_nil w : added w [] w.
Proof. unfold added. by rewrite app_nil_r. Qed.
Lemma added_app w1 cs w2 cs' w3 : added w1 cs w2 -> added w2 cs' w3 -> added w1 (cs ++ cs') w3.
Proof. intros (? & ? & E1) (? & ? & E2). split_and!; [congruence..|]. by rewrite E2, E1, app_assoc. Qed.
Lemma wp_log_added cs w : wp (log cs) (fun _ w' => added w cs w') w.
Proof. done. Qed.

Lemma wp_connect_loop more attempts sock dest port w :
  (attempts + more = MAX_CONNECT_ATTEMPTS)%nat -> (0 < more)%nat ->
  wp (connect_loop more attempts sock dest port) (fun r w' => exists cs,
    added w cs w' /\ (connects cs <= more)%nat /\
    (r = sock /\ last cs = Some (Connect sock dest port) \/
     r = -1 /\ connects cs = more)) w.
Proof.
  revert attempts w. induction more as [|more IH]; intros attempts w Ha Hm; [lia|].
  cbn [connect_loop]. apply wp_bind. eapply wp_mono; [apply wp_log_added|]. intros [] w1 H1.
  destruct (k_connect sock attempts).
  { apply wp_ret. exists [Connect sock dest port]. split_and!; [done|cbn; lia|by left]. }
  destruct (Nat.leb_spec MAX_CONNECT_ATTEMPTS (S attempts)).
  { apply wp_ret. exists [Connect sock dest port]. split_and!; [done|cbn; lia|right].
    split; [done|]. cbn. lia. }
  apply wp_bind. eapply wp_mono; [apply wp_log_added|]. intros [] w2 H2.
  eapply wp_mono; [apply IH; lia|]. intros r w3 (cs & H3 & Hc & Hr).
  exists ([Connect sock dest port] ++ [Sleep CONTROL_CONNECT_DELAY] ++ cs).
  split_and!; [by repeat eapply added_app|cbn; lia|].
  destruct Hr as [[-> Hl]|[-> Hl]]; [left|right; cbn; auto].
  split; [done|]. by rewrite !last_app, Hl.
Qed.
End Connecting.

Section ConnectToServer.
Context `{Kernel}.

Lemma connects_app a b : connects (a ++ b) = (connects a + connects b)%nat.
Proof. induction a as [|[] a IH]; cbn; lia. Qed.

Lemma wp_setup_added sock family o w :
  0 < sock -> wp (setup sock family o) (fun _ w' => exists cs, added w cs w' /\ connects cs = O) w.
Proof.
  intros Hs. apply wp_bind.
  destruct (socket_setup_returns sock family o Hs) as [cs E]. eapply wp_lift; [exact E|].
  eapply wp_mono; [apply wp_log_added|]. intros [] w' Ha. exists (Set_ <$> cs). split; [done|].
  clear. by induction cs.
Qed.

Lemma wp_bind_local sock dest o w :
  wp (bind_local sock dest o) (fun _ w' => exists cs, added w cs w' /\ connects cs = O) w.
Proof.
  unfold bind_local. destruct o as [o|]; [|apply wp_ret; exists []; split; [apply added_nil|done]].
  apply wp_bind. apply (wp_mono _ (fun _ w' => exists cs, added w cs w' /\ connects cs = O)).
  { destruct (device o); [|apply wp_ret; exists []; split; [apply added_nil|done]].
    apply wp_bind. eapply wp_mono; [apply wp_log_added|]. intros [] w' Ha. apply wp_ret. eauto. }
  intros dev w1 (cs & Ha & Hc). destruct (dev <? 0); [apply wp_ret; eauto|].
  destruct (match dest with SockIn _ => sourcev4 o | _ => sourcev6 o end); [|apply wp_ret; eauto].
  apply wp_bind. eapply wp_mono; [apply wp_log_added|]. intros [] w' Ha'. apply wp_ret.
  exists (cs ++ [Bind sock s 0]). split; [by eapply added_app|]. by rewrite connects_app, Hc.
Qed.
End ConnectToServer.

(** What connect_to_server() comes to. *)
Definition connect_post `{Kernel} (dest : sockaddr) (port : Z) (w : world) (r : Z) (w' : world) : Prop :=
  exists cs, trace w' = trace w ++ cs /\ (connects cs <= MAX_CONNECT_ATTEMPTS)%nat /\
    (r = next_fd w /\ fds w' = r :: fds w /\ last cs = Some (Connect r dest port) \/
     r = -1 /\ (fds w' = fds w /\ cs = [] \/ fds w' = next_fd w :: fds w)).

Lemma connect_nothing `{Kernel} dest port w : connect_post dest port w (-1) w.
Proof. exists []. rewrite app_nil_r. split_and!; [done|cbn; lia|auto]. Qed.

(** From a socket on. *)
Lemma wp_connect_socket `{Kernel} dest port o w w1 c :
  0 < next_fd w -> fds w1 = next_fd w :: fds w -> trace w1 = trace w ++ [c] -> connects [c] = O ->
  wp (_ ← (match o with Some o => setup (next_fd w) (sa_family dest) (so_opts o) | None => mret tt end);
      b ← bind_local (next_fd w) dest o;
      if b <? 0 then mret (-1) else connect_loop MAX_CONNECT_ATTEMPTS 0 (next_fd w) dest port)
    (connect_post dest port w) w1.
Proof.
  intros Hw Ef Et Hc. apply wp_bind.
  apply (wp_mono _ (fun _ w' => exists cs, added w1 cs w' /\ connects cs = O)).
  { destruct o; [by apply wp_setup_added|apply wp_ret; exists []; split; [apply added_nil|done]]. }
  intros [] w2 (cs2 & H2 & C2). apply wp_bind. eapply wp_mono; [apply wp_bind_local|].
  intros b w3 (cs3 & H3 & C3). pose proof (added_app _ _ _ _ _ H2 H3) as H23.
  assert (C23 : connects ([c] ++ cs2 ++ cs3) = O) by (rewrite !connects_app; lia).
  destruct (b <? 0).
  { apply wp_ret. exists ([c] ++ cs2 ++ cs3). destruct H23 as (E1 & _ & E3).
    split_and!; [by rewrite E3, Et, <- app_assoc|rewrite C23; lia|rewrite E1, Ef; auto]. }
  eapply wp_mono; [apply wp_connect_loop; unfold MAX_CONNECT_ATTEMPTS; lia|]. intros r w4 (cs4 & H4 & C4 & Hr).
  destruct (added_app _ _ _ _ _ H23 H4) as (E1 & _ & E3). exists (([c] ++ cs2 ++ cs3) ++ cs4).
  split_and!; [by rewrite E3, Et, <- !app_assoc|rewrite connects_app; lia|]. rewrite E1, Ef.
  destruct Hr as [[-> Hl]|[-> _]]; [left|auto]. split_and!; [done..|]. by rewrite !last_app, Hl.
Qed.

Lemma connect_to_server_post `{Kernel} dest port o w :
  0 < next_fd w -> wp (connect_to_server dest port o) (connect_post dest port w) w.
Proof.
  intros Hw. unfold connect_to_server. destruct dest as [a|a|f]; [..|apply wp_ret, connect_nothing].
  all: apply wp_bind; eapply wp_mono; [apply wp_socket_trace|]; intros sock w1 Hs;
    destruct Hs as [[-> ->]|(-> & Ef & En & c & Et & ->)]; [apply wp_ret, connect_nothing|];
    rewrite (proj2 (Z.ltb_ge (next_fd w) 0)) by lia; by apply (wp_connect_socket _ _ o w w1 _ Hw Ef Et).
Qed.

(** Connect_to_server() makes at most three attempts and returns either a socket
    that is connected to the server or -1.  A socket is never closed on the way: after
    any failure but that of socket() itself the descriptor is still open, though the
    caller is not told its number. *)
Theorem connect_to_server_attempts `{Kernel} dest port o w :
  0 < next_fd w -> wp (connect_to_server dest port o) (connect_post dest port w) w.
Proof. apply connect_to_server_post. Qed.
Lemma connect_to_server_attempts_witness :
  wp (@connect_to_server busy_kernel (SockIn 16777343) 8869 None)
     (@connect_post busy_kernel (SockIn 16777343) 8869 fresh_world) fresh_world.
Proof. apply (@connect_to_server_attempts busy_kernel). reflexivity. Defined.

(** A server that does not answer: three attempts, and a descriptor lost. *)
Example connect_gives_up :
  match @connect_to_server {| k_socket := fun _ _ => true; k_setsockopt := fun _ => SetDone;
      k_getsockopt := fun _ => None; k_bind_device := fun _ => true; k_bind := fun _ _ _ => None;
      k_listen := fun _ => None; k_accept := fun _ => true; k_connect := fun _ _ => false;
      k_getsockname := fun _ => SockIn 0; k_v6only := fun _ => true |} (SockIn 16777343) 8869 None fresh_world with
  | Ok (r, w) => r = -1 /\ fds w = [3; 0; 1; 2] /\
      trace w = [Socket 3 AF_INET; Connect 3 (SockIn 16777343) 8869; Sleep 2;
                 Connect 3 (SockIn 16777343) 8869; Sleep 2; Connect 3 (SockIn 16777343) 8869]
  | Fault _ => False
  end.
Proof. vm_compute. repeat split. Qed.

(** The checks a server has to pass: a TLS connection can be made, its handshake and the
    verification of its certificate succeed, and the common name of the certificate, which
    holds no NUL, is the name the server is known by, up to case. *)
Definition trusted `{Openssl} (sock : Z) (canonname : cstr) : Prop :=
  bio_new_socket sock = true /\ bio_new_ssl sock = true /\ do_handshake sock = true /\ verify_result_ok sock = true /\
  exists cn, peer_certificate sock = Some {| subject_cn := Some cn |} /\ (zero ∉ cn) /\ map tolower cn = map tolower canonname.

(** The upgrade of a connected socket gives the connection exactly when the checks pass,
    and else closes it if a BIO could be made. *)
Lemma upgrade_checks `{Openssl} sock canonname w :
  0 <= sock -> ssl_ctx = true ->
  wp (upgrade_control_server_ssl sock canonname) (fun r w' =>
    (r = Some sock /\ trusted sock canonname /\ w' = w) \/
    (r = None /\ ~ trusted sock canonname /\ (bio_new_socket sock = true -> fds w' = closed sock (fds w)))) w.
Proof.
  intros Hs Hctx. unfold upgrade_control_server_ssl, establish_control_socket, trusted, wp.
  unfold mbind, sys_bind, mret, sys_ret. rewrite Hctx.
  assert (Hcl : forall w, filter (fun y => y <> sock) (fds w) = closed sock (fds w)).
  { intros. unfold closed. by destruct (Z.geb_spec sock 0); [|lia]. }
  destruct (bio_new_socket sock); cbn; [|right; naive_solver].
  destruct (bio_new_ssl sock); cbn; [|right; naive_solver].
  destruct (do_handshake sock); cbn; [|right; naive_solver].
  destruct (verify_result_ok sock); cbn; [|right; naive_solver].
  destruct (peer_certificate sock) as [[[cn|]]|] eqn:Ec; cbn; [|right; naive_solver..].
  unfold matches_common_name, get_common_name. cbn [subject_cn].
  case_bool_decide as Hz; cbn; [right; naive_solver|]. unfold strcasecmp_eq.
  case_bool_decide as Hn; cbn; [left|right; naive_solver].
  split_and!; try done. exists cn. auto.
Qed.


(** ** The control port of measured (initialise_control_socket() of src/measured/control.c) *)

(** The addresses and the device of amp_control_t. *)
Record amp_control : Set := { ctl_ipv4 : option cstr; ctl_ipv6 : option cstr; ctl_iface : option cstr }.

Section ControlSocket.
Context `{K : Kernel} (get_numeric_address : cstr -> option sockaddr).

Definition reuse (fd : Z) : setting := {| on := fd; option_ := SO_REUSEADDR; value := 1 |}.
Definition reuse_fails (fd : Z) : bool := match k_setsockopt (reuse fd) with SetDone => false | _ => true end.

Definition control_v4 (c : amp_control) : sys Z :=
  match ctl_ipv4 c with
  | None => mret (-1)
  | Some _ =>
      fd ← socket_call AF_INET;
      if fd >? 0 then
        _ ← log [Set_ (reuse fd)];
        if reuse_fails fd then _ ← close fd; mret (-1) else mret fd
      else mret fd
  end.
Definition control_v6 (c : amp_control) : sys Z :=
  match ctl_ipv6 c with
  | None => mret (-1)
  | Some _ =>
      fd ← socket_call AF_INET6;
      if fd >? 0 then
        _ ← log [V6Only fd];
        if negb (k_v6only fd) then _ ← close fd; mret (-1)
        else
          _ ← log [Set_ (reuse fd)];
          if reuse_fails fd then _ ← close fd; mret (-1) else mret fd
      else mret fd
  end.

(** listen() on one socket; the message that reports success prints the address, and
    amp_inet_ntop() asserts that there is one. *)
Definition control_listen (fd : Z) (addr : option sockaddr) : sys Z :=
  if fd >? 0 then
    match k_listen fd with
    | Some _ => _ ← close fd; mret (-1)
    | None =>
        _ ← log [Listen fd 16]; _ ← lift (c_assert (bool_decide (is_Some addr))); mret fd
    end
  else mret fd.

(** The return value and the sockets that got an event. *)
Definition initialise_control_socket (control : option amp_control) : sys (Z * socket_t) :=
  match control with
  | None => mret (-1, none)
  | Some c =>
      let addr4 := ctl_ipv4 c ≫= get_numeric_address in
      s4 ← control_v4 c;
      let addr6 := ctl_ipv6 c ≫= get_numeric_address in
      s6 ← control_v6 c;
      if (s4 <? 0) && (s6 <? 0) then mret (-1, none)
      else
        let s := {| socket := s4; socket6 := s6 |} in
        dev ← (match ctl_iface c with
               | None => mret 0
               | Some _ => r ← lift (bind_sockets_to_device s k_bind_device);
                           _ ← log (BindDevice <$> fst r); mret (snd r)
               end);
        if dev <? 0 then mret (-1, none)
        else
          r ← lift (bind_sockets_to_address s addr4 addr6
                      (fun fd a => bool_decide (k_bind fd a 0 = None)));
          _ ← log ((fun '(fd, a) => Bind fd a 0) <$> fst r);
          if snd r <? 0 then mret (-1, none)
          else
            s4 ← control_listen s4 addr4;
            s6 ← control_listen s6 addr6;
            if (s4 <? 0) && (s6 <? 0) then mret (-1, none)
            else mret (0, {| socket := s4; socket6 := s6 |})
  end.

(** *** Opening the pair *)

Lemma wp_control_v4 c w :
  0 < next_fd w -> Forall (fun fd => fd < next_fd w) (fds w) ->
  wp (control_v4 c) (fun fd w' => next_fd w <= next_fd w' /\
    (fd = -1 /\ fds w' = fds w \/
     fd = next_fd w /\ fds w' = fd :: fds w /\ next_fd w' = fd + 1 /\ is_Some (ctl_ipv4 c))) w.
Proof.
  intros Hn Hf. unfold control_v4. destruct (ctl_ipv4 c); [|apply wp_ret; split; [lia|by left]].
  apply wp_bind. eapply wp_mono; [apply wp_socket_call|]. intros fd w1 [[-> ->]|(-> & Ef & En)].
  { apply wp_ret. split; [lia|by left]. }
  destruct (Z.gtb_spec (next_fd w) 0); [|lia]. apply wp_bind.
  eapply wp_mono; [apply wp_log|]. intros [] w2 [(E1 & E2 & _) _]. destruct (reuse_fails (next_fd w)).
  - unfold wp, close, mbind, sys_bind, mret, sys_ret. cbn. split; [lia|]. left. split; [done|].
    rewrite E1, Ef, filter_cons_False by (intros X; by apply X). by apply filter_fresh.
  - apply wp_ret. split; [lia|]. right. split_and!; [done|congruence|lia|eauto].
Qed.

Lemma wp_control_v6 c w :
  0 < next_fd w -> Forall (fun fd => fd < next_fd w) (fds w) ->
  wp (control_v6 c) (fun fd w' => next_fd w <= next_fd w' /\
    (fd = -1 /\ fds w' = fds w \/
     fd = next_fd w /\ fds w' = fd :: fds w /\ next_fd w' = fd + 1 /\ is_Some (ctl_ipv6 c))) w.
Proof.
  intros Hn Hf. unfold control_v6. destruct (ctl_ipv6 c) as [a|]; [|apply wp_ret; split; [lia|by left]].
  apply wp_bind. eapply wp_mono; [apply wp_socket_call|]. intros fd w1 [[-> ->]|(-> & Ef & En)].
  { apply wp_ret. split; [lia|by left]. }
  destruct (Z.gtb_spec (next_fd w) 0); [|lia].
  assert (Hcl : forall w2, fds w2 = next_fd w :: fds w -> next_fd w2 = next_fd w + 1 ->
    wp (_ ← close (next_fd w); mret (-1)) (fun fd w' => next_fd w <= next_fd w' /\
      (fd = -1 /\ fds w' = fds w \/
       fd = next_fd w /\ fds w' = fd :: fds w /\ next_fd w' = fd + 1 /\ is_Some (Some a))) w2).
  { intros w2 E1 E2. unfold wp, close, mbind, sys_bind, mret, sys_ret. cbn. split; [lia|]. left.
    split; [done|]. rewrite E1, filter_cons_False by (intros X; by apply X). by apply filter_fresh. }
  apply wp_bind. eapply wp_mono; [apply wp_log|]. intros [] w2 [(E1 & E2 & _) _].
  destruct (k_v6only (next_fd w)); cbn [negb]; [|apply Hcl; [congruence|lia]].
  apply wp_bind. eapply wp_mono; [apply wp_log|]. intros [] w3 [(E3 & E4 & _) _].
  destruct (reuse_fails (next_fd w)); [apply Hcl; [congruence|lia]|].
  apply wp_ret. split; [lia|]. right. split_and!; [done|congruence|lia|eauto].
Qed.

Definition control_sourced (c : amp_control) (s : socket_t) : Prop :=
  (0 <= socket s -> is_Some (ctl_ipv4 c)) /\ (0 <= socket6 s -> is_Some (ctl_ipv6 c)).

Lemma wp_control_open c w0 {A} (k : Z -> Z -> sys A) Q :
  world_ok w0 ->
  (forall s4 s6 w, holds w0 {| socket := s4; socket6 := s6 |} w ->
     control_sourced c {| socket := s4; socket6 := s6 |} -> wp (k s4 s6) Q w) ->
  wp (s4 ← control_v4 c; s6 ← control_v6 c; k s4 s6) Q w0.
Proof.
  intros [Hn Hf] Hk. apply wp_bind. eapply wp_mono; [by apply wp_control_v4|].
  intros s4 w1 [Hle1 H4]. apply wp_bind.
  assert (Hf1 : Forall (fun fd => fd < next_fd w1) (fds w1)).
  { destruct H4 as [[_ ->]|(-> & -> & Hnx & _)]; [eapply Forall_impl; [exact Hf|]; cbn; lia|].
    constructor; [lia|]. eapply Forall_impl; [exact Hf|]. cbn. lia. }
  eapply wp_mono; [apply wp_control_v6; [lia|done]|]. intros s6 w2 [Hle2 H6]. apply Hk.
  - unfold holds.
    destruct H4 as [[-> E4]|(-> & E4 & N4 & _)], H6 as [[-> E6]|(-> & E6 & N6 & _)];
      owned; rewrite E6, E4; split_and!; (done || lia).
  - destruct H4 as [[-> E4]|(-> & E4 & N4 & I4)], H6 as [[-> E6]|(-> & E6 & N6 & I6)];
      split; cbn; intros; (done || lia).
Qed.

(** listen() on one of the pair: it stays, or it is closed. *)
Lemma wp_control_listen_v4 w0 s w addr :
  world_ok w0 -> holds w0 s w -> (0 <= socket s -> is_Some addr) ->
  wp (control_listen (socket s) addr) (fun r w' =>
    holds w0 {| socket := r; socket6 := socket6 s |} w' /\ trace w `prefix_of` trace w' /\
    (0 <= r -> r = socket s /\ Listen r 16 ∈ trace w')) w.
Proof.
  intros Hw Hh Ha. unfold control_listen.
  assert (Hpos : 0 <= socket s -> 0 < socket s).
  { destruct Hh as (_ & _ & _ & _ & H4 & _), Hw as [Hn _]. intros. destruct H4; lia. }
  destruct (Z.gtb_spec (socket s) 0).
  - rewrite <- (close_is_open (socket s)) by lia. destruct (k_listen (socket s)).
    + apply wp_bind. eapply wp_mono; [by eapply wp_close_v4|]. intros [] w1 [Hh1 Hp1].
      apply wp_ret. split_and!; [done..|lia].
    + apply wp_bind. eapply wp_mono; [apply wp_log|]. intros [] w1 [Hq Ht].
      rewrite bool_decide_eq_true_2 by (apply Ha; lia). apply wp_bind, (wp_lift _ _ _ tt); [done|].
      apply wp_ret. split_and!; [by destruct s; eapply holds_quiet|apply Hq|].
      intros _. split; [done|]. rewrite Ht. set_solver.
  - apply wp_ret. split_and!; [by destruct s|done|lia].
Qed.
Lemma wp_control_listen_v6 w0 s w addr :
  world_ok w0 -> holds w0 s w -> (0 <= socket6 s -> is_Some addr) ->
  wp (control_listen (socket6 s) addr) (fun r w' =>
    holds w0 {| socket := socket s; socket6 := r |} w' /\ trace w `prefix_of` trace w' /\
    (0 <= r -> r = socket6 s /\ Listen r 16 ∈ trace w')) w.
Proof.
  intros Hw Hh Ha. unfold control_listen.
  assert (Hpos : 0 <= socket6 s -> 0 < socket6 s).
  { destruct Hh as (_ & _ & _ & _ & _ & H6), Hw as [Hn _]. intros. lia. }
  destruct (Z.gtb_spec (socket6 s) 0).
  - rewrite <- (close_is_open (socket6 s)) by lia. destruct (k_listen (socket6 s)).
    + apply wp_bind. eapply wp_mono; [by eapply wp_close_v6|]. intros [] w1 [Hh1 Hp1].
      apply wp_ret. split_and!; [done..|lia].
    + apply wp_bind. eapply wp_mono; [apply wp_log|]. intros [] w1 [Hq Ht].
      rewrite bool_decide_eq_true_2 by (apply Ha; lia). apply wp_bind, (wp_lift _ _ _ tt); [done|].
      apply wp_ret. split_and!; [by destruct s; eapply holds_quiet|apply Hq|].
      intros _. split; [done|]. rewrite Ht. set_solver.
  - apply wp_ret. split_and!; [by destruct s|done|lia].
Qed.

(** What initialise_control_socket() comes to. *)
Definition control_post (w0 : world) (r : Z * socket_t) (w : world) : Prop :=
  let '(res, s) := r in
  (res = 0 /\ holds w0 s w /\ (0 <= socket s \/ 0 <= socket6 s) /\
   forall fd, fd ∈ owned s -> Listen fd 16 ∈ trace w) \/
  (res = -1 /\ s = none /\ fds w0 `suffix_of` fds w).

Lemma wp_control_listen c w0 s w :
  world_ok w0 -> holds w0 s w -> control_sourced c s ->
  (forall a, ctl_ipv4 c = Some a -> is_Some (get_numeric_address a)) ->
  (forall a, ctl_ipv6 c = Some a -> is_Some (get_numeric_address a)) ->
  wp (s4 ← control_listen (socket s) (ctl_ipv4 c ≫= get_numeric_address);
      s6 ← control_listen (socket6 s) (ctl_ipv6 c ≫= get_numeric_address);
      if (s4 <? 0) && (s6 <? 0) then mret (-1, none)
      else mret (0, {| socket := s4; socket6 := s6 |})) (control_post w0) w.
Proof.
  intros Hw Hh [S4 S6] H4 H6. apply wp_bind.
  eapply wp_mono; [apply (wp_control_listen_v4 w0); [done..|]|].
  { intros Hs. destruct (S4 Hs) as [a E]. rewrite E. cbn. by apply H4. }
  intros s4 w1 (Hh1 & Hp1 & L4). apply wp_bind.
  eapply wp_mono; [apply (wp_control_listen_v6 w0 {| socket := s4; socket6 := socket6 s |}); [done..|]|].
  { intros Hs. destruct (S6 Hs) as [a E]. rewrite E. cbn. by apply H6. }
  intros s6 w2 (Hh2 & Hp2 & L6). cbn [socket socket6] in *.
  destruct (Z.ltb_spec s4 0), (Z.ltb_spec s6 0); cbn [andb]; apply wp_ret;
    try (right; split_and!; [done..|]; rewrite (holds_neg _ _ _ Hh2) by done; done).
  all: left; split_and!; [done..|cbn; lia|]; intros fd [Hge [->| ->]]%elem_owned; cbn [socket socket6] in *;
    [eapply prefix_elem; [exact Hp2|]; by apply L4|by apply L6].
Qed.
End ControlSocket.

(** When the configured listen addresses are numeric addresses, opening the control
    port never faults; it succeeds exactly with one or two open listening sockets, no
    other descriptor left behind, and on failure no event is set up. *)
Theorem control_socket_ready `{Kernel} get_numeric_address c w0 :
  world_ok w0 ->
  (forall a, ctl_ipv4 c = Some a -> is_Some (get_numeric_address a)) ->
  (forall a, ctl_ipv6 c = Some a -> is_Some (get_numeric_address a)) ->
  wp (initialise_control_socket get_numeric_address (Some c)) (control_post w0) w0.
Proof.
  intros Hw H4 H6. unfold initialise_control_socket. apply wp_control_open; [done|].
  intros s4 s6 w1 Hh Hs. destruct ((s4 <? 0) && (s6 <? 0)) eqn:Eneg.
  { apply wp_ret. right. split_and!; [done..|]. rewrite (holds_neg _ _ _ Hh) by (cbn; lia). done. }
  set (s := {| socket := s4; socket6 := s6 |}) in *.
  assert (Hor : 0 <= socket s \/ 0 <= socket6 s) by (cbn; lia). clear Eneg.
  assert (Hfail : forall w, holds w0 s w -> control_post w0 (-1, none) w).
  { intros w [E _]. right. split_and!; [done..|]. rewrite E. by eexists. }
  apply wp_bind. apply (wp_mono _ (fun _ w' => holds w0 s w')).
  { destruct (ctl_iface c); [|by apply wp_ret]. apply wp_bind.
    destruct (bind_device_returns s k_bind_device Hor) as [r Er]. eapply wp_lift; [exact Er|].
    apply wp_bind. eapply wp_mono; [apply wp_log|]. intros [] w' [Hq' _]. apply wp_ret.
    by eapply holds_quiet. }
  intros dev w2 Hh2. destruct (dev <? 0); [apply wp_ret; by apply Hfail|].
  set (o := {| so_opts := plain_opts; device := None; socktype := SOCK_STREAM;
    sourcev4 := ctl_ipv4 c ≫= get_numeric_address; sourcev6 := ctl_ipv6 c ≫= get_numeric_address |}).
  assert (Hso : sourced o s).
  { destruct Hs as [S4 S6]. split; intros Hp; [destruct (S4 Hp) as [a E]|destruct (S6 Hp) as [a E]];
      cbn; rewrite E; cbn; auto. }
  apply wp_bind. destruct (bind_address_returns o s 0 Hso Hor) as (tried & r & Er & _).
  eapply wp_lift; [exact Er|]. apply wp_bind. eapply wp_mono; [apply wp_log|].
  intros [] w3 [Hq3 _]. assert (Hh3 : holds w0 s w3) by (by eapply holds_quiet).
  cbn [fst snd]. destruct (r <? 0); [apply wp_ret; by apply Hfail|].
  by apply (wp_control_listen get_numeric_address c w0 s w3).
Qed.

Definition dotted (a : cstr) : option sockaddr :=
  if strcmp_eq a (str "0.0.0.0") then Some (SockIn 0)
  else if strcmp_eq a (str "::") then Some (SockIn6 [0; 0; 0; 0; 0; 0; 0; 0]) else None.
Lemma control_socket_ready_witness :
  wp (@initialise_control_socket busy_kernel dotted
        (Some {| ctl_ipv4 := Some (str "0.0.0.0"); ctl_ipv6 := None; ctl_iface := None |}))
     (control_post {| fds := [0; 1; 2]; next_fd := 7; trace := [] |})
     {| fds := [0; 1; 2]; next_fd := 7; trace := [] |}.
Proof.
  apply (@control_socket_ready busy_kernel).
  - split; [reflexivity|repeat constructor; lia].
  - intros a Ha. injection Ha as <-. vm_compute. eauto.
  - intros a Ha. discriminate Ha.
Defined.

(** A listen address that is not numeric stops the daemon on an assertion. *)
Example bad_control_address_asserts :
  @initialise_control_socket busy_kernel dotted
    (Some {| ctl_ipv4 := Some (str "localhost"); ctl_ipv6 := None; ctl_iface := None |}) fresh_world
  = Fault AssertFail.
Proof. vm_compute. reflexivity. Qed.

(** A port that is in use leaves the socket open. *)
Example busy_control_port_leaks :
  match @initialise_control_socket busy_kernel dotted
      (Some {| ctl_ipv4 := Some (str "0.0.0.0"); ctl_ipv6 := None; ctl_iface := None |}) fresh_world with
  | Ok ((r, _), w) => r = -1 /\ fds w = [3; 0; 1; 2]
  | Fault _ => False
  end.
Proof. vm_compute. split; reflexivity. Qed.
