(* ===== verification/Run.v ===== *)
(** Running a test (src/measured/run.c, with the registry of src/common/modules.c
    and the watchdog of src/measured/watchdog.c).

    run_test() is the list of what it does: timers, queries, the test's own
    callback, reports.  The test callback, the resolver and the interfaces of the
    host are parameters. *)
From stdpp Require Import gmap.
From S2P Require Import Prelude CLib Print Address SchedTime ParamString Nametable Targets Schedule.
#[local] Open Scope Z_scope.

(** ** Registered tests *)

(** The fields of test_t beside those of [Targets.test_t]. *)
Record module : Type := {
  id : Z; def : test_t; max_duration : Z; server_callback : bool; server_params : option (list cstr)
}.

(** The walk over amp_tests: the first with the id, or the name. *)
Fixpoint get_test_by_id (amp_tests : list module) (i : Z) : option module :=
  match amp_tests with
  | [] => None
  | t :: amp_tests => if id t =? i then Some t else get_test_by_id amp_tests i
  end.

(** ** Argument vectors *)

(** [argv[argc++] = a] in an array of MAX_TEST_ARGS pointers. *)
Definition push (a : cstr) (argv : list cstr) : res (list cstr) :=
  if (length argv <? MAX_TEST_ARGS)%nat then Ok (argv ++ [a]) else Fault OutOfBounds.
Fixpoint push_all (l : list cstr) (argv : list cstr) : res (list cstr) :=
  match l with [] => Ok argv | a :: l => argv ← push a argv; push_all l argv end.
(** [argv[argc] = NULL] *)
Definition terminate (argv : list cstr) : res (list cstr) :=
  if (length argv <? MAX_TEST_ARGS)%nat then Ok argv else Fault OutOfBounds.

Lemma push_all_eq l argv :
  push_all l argv = if (length argv + length l <=? MAX_TEST_ARGS)%nat || bool_decide (l = [])
                    then Ok (argv ++ l) else Fault OutOfBounds.
Proof.
  revert argv. induction l as [|a l IH]; intros argv; cbn [push_all].
  { by rewrite bool_decide_eq_true_2, orb_true_r, app_nil_r. }
  rewrite bool_decide_eq_false_2, orb_false_r by done. unfold push. cbn [length].
  destruct (Nat.ltb_spec (length argv) MAX_TEST_ARGS); cbn [mbind res_bind].
  - rewrite IH, length_app. cbn [length]. rewrite <- app_assoc. cbn [app].
    replace (length argv + 1 + length l)%nat with (length argv + S (length l))%nat by lia.
    destruct (Nat.leb_spec (length argv + S (length l)) MAX_TEST_ARGS); cbn [orb]; [done|].
    case_bool_decide; [|done]. subst. cbn in *. lia.
  - destruct (Nat.leb_spec (length argv + S (length l)) MAX_TEST_ARGS); [lia|done].
Qed.

(** Filling the array in two goes. *)
Lemma push_all_app l l' argv : push_all (l ++ l') argv = argv ← push_all l argv; push_all l' argv.
Proof.
  revert argv. induction l as [|a l IH]; intros argv; [done|]. cbn [app push_all].
  destruct (push a argv) as [argv'|]; cbn; [apply IH|done].
Qed.

(** The whole of filling an array from parts and terminating it. *)
Lemma fill_argv {A} l (k : list cstr -> res A) :
  l <> [] ->
  (argv ← push_all l []; argv ← terminate argv; k argv)
  = if (length l <? MAX_TEST_ARGS)%nat then k l else Fault OutOfBounds.
Proof.
  intros Hl. rewrite push_all_eq. cbn [length app Nat.add].
  rewrite (bool_decide_eq_false_2 (l = [])), orb_false_r by done.
  destruct (Nat.leb_spec (length l) MAX_TEST_ARGS), (Nat.ltb_spec (length l) MAX_TEST_ARGS) as [Hn|Hn];
    try lia; [rewrite bind_Ok; unfold terminate..|done].
  - by rewrite (proj2 (Nat.ltb_lt _ _) Hn).
  - by rewrite (proj2 (Nat.ltb_ge _ _) Hn).
Qed.

(** ** Options of a run *)

Record meta_t : Set := {
  iface : option cstr; m_sourcev4 : option cstr; m_sourcev6 : option cstr;
  inter_packet_delay : Z; m_dscp : Z
}.
Definition MIN_INTER_PACKET_DELAY : Z := 100.
Definition DEFAULT_DSCP_VALUE : Z := 0.
Definition DEFAULT_CONTROL_PORT : Z := 8869.

(** asprintf("%u") *)
Definition utoa (z : Z) : cstr := print_dec (u32 z).
Lemma strtol_utoa z : strtol (utoa z) 10 = (u32 z, [], false).
Proof. apply strtol_print_dec. pose proof (u32_range z). unfold LONG_MAX. lia. Qed.

(** The source address option of a family: "any" only forces the family. *)
Definition source_args (flag : string) (source : option cstr) : list cstr :=
  match source with
  | None => []
  | Some s => str flag :: (if strcmp_eq s (str "any") then [] else [s])
  end.

(** The arguments run_test() puts before those of the schedule. *)
Definition global_args (m : module) (meta : meta_t) (control_port : Z) : list cstr :=
  [test_name (def m)]
  ++ (if negb (inter_packet_delay meta =? MIN_INTER_PACKET_DELAY)
      then [str "-Z"; utoa (inter_packet_delay meta)] else [])
  ++ (if server_callback m && negb (control_port =? DEFAULT_CONTROL_PORT)
      then [str "-p"; utoa control_port] else [])
  ++ (if negb (m_dscp meta =? DEFAULT_DSCP_VALUE) then [str "-Q"; utoa (m_dscp meta)] else [])
  ++ (match iface meta with Some i => [str "-I"; i] | None => [] end)
  ++ source_args "-4" (m_sourcev4 meta)
  ++ source_args "-6" (m_sourcev6 meta).

(** Whether an argument forces a family. *)
Definition forces (flag : string) (source : option cstr) (params : list cstr) : bool :=
  bool_decide (is_Some source) || existsb (fun p => strcmp_eq p (str flag)) params.

(** ** Families *)

(** The families that can be used: those forced, else those of the interface
    addresses (name and family of each).  When getifaddrs() fails, both are to be used, but
    the pointer it did not set is looked at and what it points to freed. *)
Definition usable_families (forcev4 forcev6 : bool) (iface : option cstr)
    (ifaddrs : option (list (cstr * option Z))) : res (bool * bool) :=
  if forcev4 && negb forcev6 then Ok (true, false)
  else if forcev6 && negb forcev4 then Ok (false, true)
  else match ifaddrs with
       | None => Fault Uninitialised
       | Some l =>
           let ours (e : cstr * option Z) (f : Z) :=
             bool_decide (snd e = Some f) &&
             match iface with None => true | Some i => strcmp_eq i (fst e) end in
           Ok (existsb (fun e => ours e AF_INET) l, existsb (fun e => ours e AF_INET6) l)
       end.

(** One name of the resolve list: the query to make, if any. *)
Definition limit_family (seen_ipv4 seen_ipv6 : bool) (r : resolve_dest) : option resolve_dest :=
  let with_family f := {| rd_name := rd_name r; rd_count := rd_count r; rd_family := f |} in
  let r1 :=
    if negb seen_ipv4 && negb (rd_family r =? AF_INET6) then
      if rd_family r =? AF_INET then None else Some (with_family AF_INET6)
    else Some r in
  match r1 with
  | None => None
  | Some r =>
      if negb seen_ipv6 && negb (rd_family r =? AF_INET) then
        if rd_family r =? AF_INET6 then None else Some (with_family AF_INET)
      else Some r
  end.

(** ** run_test() *)

Inductive action : Type :=
| Watchdog (seconds : Z)                          (* start_test_watchdog() *)
| Query (names : list resolve_dest)               (* the names sent to the resolver *)
| Callback (argv : list cstr) (dests : list addrinfo)
| SendResult (test_id : Z) (data : list Z)        (* send_measured_result() *)
| SendFailed                                      (* MEASURED_CONTROL_FAILED *)
| Broker (test_id : Z) (data : list Z)            (* report_to_broker() *)
| CloseControl
| StopWatchdog.

Section RunTest.
Context (watchdog_ok : bool) (ifaddrs : option (list (cstr * option Z)))
  (resolver : list resolve_dest -> option (list addrinfo))
  (run_callback : list cstr -> list addrinfo -> option (list Z))
  (control_port : Z).

Definition report (m : module) (ctrl : bool) (result : option (list Z)) : list action :=
  match result with
  | Some data => if ctrl then [SendResult (id m) data] else [Broker (id m) data]
  | None => if ctrl then [SendFailed] else []
  end.

(** The names to resolve and the addresses they resolved to. *)
Definition resolve_targets (meta : meta_t) (t : target_lists) (forcev4 forcev6 : bool)
    : res (list action * list addrinfo) :=
  match resolve t with
  | [] => Ok ([], [])
  | names =>
      seen ← usable_families forcev4 forcev6 (iface meta) ifaddrs;
      let queries := omap (limit_family (fst seen) (snd seen)) names in
      match resolver queries with
      | None => Fault AssertFail
      | Some addrs => Ok ([Query queries], addrs)
      end
  end.

Definition run_test (m : module) (meta : meta_t) (t : target_lists) (params : option (list cstr))
    (ctrl : bool) : res (list action) :=
  _ ← c_assert (total_count t >=? min_targets (def m));
  if negb watchdog_ok then Ok []
  else
    let ps := default [] params in
    argv ← push_all (global_args m meta control_port) [];
    argv ← push_all ps argv;
    argv ← terminate argv;
    r ← resolve_targets meta t (forces "-4" (m_sourcev4 meta) ps) (forces "-6" (m_sourcev6 meta) ps);
    let '(queries, addrs) := r in
    let destinations := dests t ++ addrs in
    let ran :=
      if u32 (dest_count t + Z.of_nat (length addrs)) >=? min_targets (def m)
      then Callback argv destinations :: report m ctrl (run_callback argv destinations)
      else [] in
    Ok ([Watchdog (max_duration m)] ++ queries ++ ran
        ++ (if ctrl then [CloseControl] else []) ++ [StopWatchdog]).

(** The child of fork_test(): the events that are pending (the one that fired is
    not among them) are freed before the test is run.  run_test() reads the
    arguments of the item once it has checked the targets and set the watchdog. *)
Definition test_process (m : module) (meta : meta_t) (h : param_heap) (pending : list event)
    (item : test_item) : res (list action) :=
  hk ← clear_test_schedule true h pending;
  ps ← (match params item with
        | Some p => if watchdog_ok && (total_count (tgts item) >=? min_targets (def m))
                    then ps ← deref (fst hk) p; Ok (Some ps) else Ok None
        | None => Ok None
        end);
  run_test m meta (tgts item) ps false.
End RunTest.

(** ** Scheduled runs *)

(** evutil_timersub(a, b, result) *)
Definition evutil_timersub (a b : timeval) : timeval :=
  if tv_usec a - tv_usec b <? 0 then Tv (tv_sec a - tv_sec b - 1) (tv_usec a - tv_usec b + 1000000)
  else Tv (tv_sec a - tv_sec b) (tv_usec a - tv_usec b).
(** timercmp(a, b, <) *)
Definition timer_lt (a b : timeval) : bool :=
  if tv_sec a =? tv_sec b then tv_usec a <? tv_usec b else tv_sec a <? tv_sec b.

(** fork_test(): whether a test process was started.  [now] is the time of day,
    [fork_ok] whether fork() works. *)
Definition fork_test (now abstime : timeval) (fork_ok : bool) : bool :=
  if timer_lt now abstime then
    let early := evutil_timersub abstime now in
    if negb (tv_sec early =? 0) || (tv_usec early >? SCHEDULE_CLOCK_FUDGE) then false else fork_ok
  else fork_ok.

(** run_scheduled_test(): whether the test was started, the timeout the event is
    added with, and the item with its new time. *)
Definition run_scheduled_test (item : test_item) (now : timeval) (cached : option timeval)
    (fork_ok : bool) : bool * timeval * test_item :=
  let run := fork_test now (abstime item) fork_ok in
  let '(next, abs) := get_next_schedule_time cached now (period item) (start item) (end_ item)
                        (US_FROM_TV (interval item)) run in
  (run, next,
   {| abstime := abs; interval := interval item; start := start item; end_ := end_ item;
      period := period item; test := test item; tgts := tgts item; params := params item |}).

Lemma timersub_us a b : tv_us (evutil_timersub a b) = tv_us a - tv_us b.
Proof. unfold evutil_timersub, tv_us. case_match; cbn; lia. Qed.
Lemma timer_lt_us a b : tv_wf a -> tv_wf b -> timer_lt a b = (tv_us a <? tv_us b).
Proof. unfold timer_lt, tv_us, tv_wf. intros. zbool; lia. Qed.

(** A test is started unless it is more than the tolerance early. *)
Lemma fork_test_eq now abs fork_ok :
  tv_wf now -> tv_wf abs ->
  fork_test now abs fork_ok = (tv_us abs - tv_us now <=? SCHEDULE_CLOCK_FUDGE) && fork_ok.
Proof.
  intros Hn Ha. unfold fork_test. rewrite timer_lt_us by done.
  pose proof (timersub_us abs now) as Hs.
  destruct (Z.ltb_spec (tv_us now) (tv_us abs)).
  - unfold SCHEDULE_CLOCK_FUDGE.
    assert (Hw : tv_wf (evutil_timersub abs now)).
    { unfold evutil_timersub, tv_wf, tv_us in *. zbool; cbn in *; lia. }
    unfold tv_wf, tv_us in *. destruct (Z.eqb_spec (tv_sec (evutil_timersub abs now)) 0); cbn [negb orb];
      zbool; cbn; lia || done.
  - replace (tv_us abs - tv_us now <=? SCHEDULE_CLOCK_FUDGE) with true; [done|].
    symmetry. apply Z.leb_le. unfold SCHEDULE_CLOCK_FUDGE. lia.
Qed.

(** The start of the period of a time is at or after every period start before it. *)
Lemma period_start_after p c now :
  period_valid p -> forall k, 0 <= k ->
  get_period_start p c + k * get_period_max_value p <= now ->
  get_period_start p c + k * get_period_max_value p <= get_period_start p now.
Proof.
  intros Hp k Hk. rewrite !get_period_start_eq. unfold into_period.
  destruct p; try done; cbn [get_period_max_value]; intros; Z.div_mod_to_equations; lia.
Qed.

(** A period that starts later starts at least one period later. *)
Lemma period_start_later p c now :
  period_valid p -> forall k, 0 <= k -> now < get_period_start p c + k * get_period_max_value p ->
  get_period_start p now + get_period_max_value p <= get_period_start p c + k * get_period_max_value p.
Proof.
  intros Hp k Hk. rewrite !get_period_start_eq. unfold into_period.
  destruct p; try done; cbn [get_period_max_value]; intros; Z.div_mod_to_equations; lia.
Qed.

(** The period a slot belongs to, and which of its slots it is. *)
Lemma slot_period p start end_ frequency c t :
  sched_ok p start end_ frequency -> slot p start end_ frequency c t ->
  exists k i, 0 <= k /\ 0 <= i /\ t = start_us p c + k * max_us p + start + i * frequency /\
    t <= start_us p c + k * max_us p + max_us p.
Proof.
  intros [Hp Hs He Hf] [i Hi Hle|].
  - exists 0, i. unfold max_us. nia.
  - exists 1, 0. unfold max_us. lia.
Qed.

Definition frequency_of (item : test_item) : Z := US_FROM_TV (interval item).
Definition item_slot (item : test_item) (seen : timeval) (t : Z) : Prop :=
  slot (period item) (start item) (end_ item) (frequency_of item) seen t.

(** A slot within the tolerance of [now]: the next one is later, unless it is the tolerance
    away to the microsecond, or it is still to come and the first of the next period. *)
Lemma next_slot_later p start end_ f c now t t' :
  sched_ok p start end_ f -> SCHEDULE_CLOCK_FUDGE <= f -> now_ok now ->
  slot p start end_ f c t -> t - SCHEDULE_CLOCK_FUDGE <= tv_us now ->
  (t' = start_us p now + max_us p + start \/ tv_us now + SCHEDULE_CLOCK_FUDGE <= t') ->
  t < t' \/ t = t' /\ (tv_us now + SCHEDULE_CLOCK_FUDGE = t \/
                       tv_us now < t /\ t = start_us p now + max_us p + start).
Proof.
  intros Hok Hf Hn Ht Hnow Ht'. destruct Ht' as [->|Ht']; [|lia].
  destruct (slot_period _ _ _ _ _ _ Hok Ht) as (k & i & Hk & Hi & Ht' & Hhi).
  destruct Hok as [Hp Hs He _]. destruct Hn as [[_ Hu] _].
  pose proof (get_period_start_bounds p (tv_sec now) Hp) as Hb.
  unfold SCHEDULE_CLOCK_FUDGE in *.
  destruct (Z.le_gt_cases (get_period_start p (tv_sec c) + k * get_period_max_value p) (tv_sec now)) as [Hle|Hgt].
  - apply period_start_after in Hle; [|done..]. unfold start_us, max_us, tv_us in *. lia.
  - apply period_start_later in Hgt; [|done..].
    assert (i = 0 \/ 1 <= i) as [->|Hi'] by lia; unfold start_us, max_us, tv_us in *; nia.
Qed.


Definition sample_item : test_item := {|
  abstime := Tv 1614561600 0; interval := Tv 600 0; start := 600000000; end_ := 3600000000;
  period := SCHEDULE_PERIOD_HOURLY; test := {| test_name := str "icmp"; max_targets := 0; min_targets := 1 |};
  tgts := no_targets; params := None
|}.

(** Started 100 ms early to the microsecond, the test is started again for the same slot. *)
Example exactly_early_runs_twice :
  let now := Tv 1614561599 900000 in
  let '(run, next, item') := run_scheduled_test sample_item now (Some now) true in
  run = true /\ next = Tv 0 100000 /\ abstime item' = abstime sample_item.
Proof. vm_compute. repeat split. Qed.

(** ** What a run does *)

(** The families a request stands for. *)
Definition families (f : Z) : list Z := if f =? AF_UNSPEC then [AF_INET; AF_INET6] else [f].
Definition seen (seen_ipv4 seen_ipv6 : bool) (f : Z) : bool :=
  if f =? AF_INET then seen_ipv4 else if f =? AF_INET6 then seen_ipv6 else false.
Definition family_valid (r : resolve_dest) : Prop :=
  rd_family r = AF_UNSPEC \/ rd_family r = AF_INET \/ rd_family r = AF_INET6.

(** A name is asked for in exactly the requested families that can be used. *)
Lemma limit_family_spec s4 s6 r :
  family_valid r ->
  match limit_family s4 s6 r with
  | Some q => rd_name q = rd_name r /\ rd_count q = rd_count r /\
      families (rd_family q) = List.filter (seen s4 s6) (families (rd_family r))
  | None => List.filter (seen s4 s6) (families (rd_family r)) = []
  end.
Proof.
  unfold limit_family, family_valid. intros [E|[E|E]]; rewrite !E; destruct s4, s6; cbn;
    rewrite ?E; cbn; try done; by rewrite ?E.
Qed.

(** The reports in a list of actions. *)
Definition reports (acts : list action) : list action :=
  List.filter (fun a => match a with SendResult _ _ | SendFailed | Broker _ _ => true | _ => false end) acts.
Definition callbacks (acts : list action) : list (list cstr * list addrinfo) :=
  omap (fun a => match a with Callback argv ds => Some (argv, ds) | _ => None end) acts.

Section RunTestFacts.
Context (ifaddrs : option (list (cstr * option Z)))
  (resolver : list resolve_dest -> option (list addrinfo))
  (run_callback : list cstr -> list addrinfo -> option (list Z))
  (control_port : Z).

(** The whole argument vector. *)
Definition full_argv (m : module) (meta : meta_t) (params : option (list cstr)) : list cstr :=
  global_args m meta control_port ++ default [] params.

(** Filling the array fails exactly when the vector and its NULL do not fit. *)
Lemma argv_filled {A} m meta params (k : list cstr -> res A) :
  (argv ← push_all (global_args m meta control_port) [];
   argv ← push_all (default [] params) argv; argv ← terminate argv; k argv)
  = if (length (full_argv m meta params) <? MAX_TEST_ARGS)%nat then k (full_argv m meta params)
    else Fault OutOfBounds.
Proof.
  assert (E : forall B (j : list cstr -> res B),
    (argv ← push_all (global_args m meta control_port) [];
     argv ← push_all (default [] params) argv; j argv)
    = argv ← push_all (full_argv m meta params) []; j argv).
  { intros. unfold full_argv. rewrite push_all_app. by destruct (push_all (global_args _ _ _) []). }
  rewrite E. by apply fill_argv.
Qed.

Lemma global_args_length m meta : (length (global_args m meta control_port) <= 13)%nat.
Proof.
  unfold global_args, source_args. rewrite !length_app.
  repeat match goal with |- context [if ?b then _ else _] => destruct b end;
    destruct (iface meta), (m_sourcev4 meta), (m_sourcev6 meta); cbn;
    repeat match goal with |- context [if ?b then _ else _] => destruct b end; cbn; lia.
Qed.

(** One run, written out. *)
Lemma run_test_eq m meta t params ctrl queries addrs :
  total_count t >= min_targets (def m) ->
  (length (full_argv m meta params) < MAX_TEST_ARGS)%nat ->
  resolve_targets ifaddrs resolver meta t (forces "-4" (m_sourcev4 meta) (default [] params))
    (forces "-6" (m_sourcev6 meta) (default [] params)) = Ok (queries, addrs) ->
  run_test true ifaddrs resolver run_callback control_port m meta t params ctrl
  = Ok ([Watchdog (max_duration m)] ++ queries
        ++ (if u32 (dest_count t + Z.of_nat (length addrs)) >=? min_targets (def m)
            then Callback (full_argv m meta params) (dests t ++ addrs)
                 :: report m ctrl (run_callback (full_argv m meta params) (dests t ++ addrs))
            else [])
        ++ (if ctrl then [CloseControl] else []) ++ [StopWatchdog]).
Proof.
  intros Ht Ha Hr. unfold run_test. rewrite c_assert_true by (rewrite Z.geb_leb; lia). cbn [negb].
  rewrite argv_filled, (proj2 (Nat.ltb_lt _ _)) by done. by rewrite Hr.
Qed.
End RunTestFacts.

(** ** What a run should do *)

(** The options the configuration asks for: a flag, and the value that goes with it.  A
    number is given by what strtol() reads from its text. *)
Inductive wanted (m : module) (meta : meta_t) (control_port : Z) : cstr -> option cstr -> Prop :=
| WantDelay v : inter_packet_delay meta <> MIN_INTER_PACKET_DELAY ->
    strtol v 10 = (u32 (inter_packet_delay meta), [], false) -> wanted m meta control_port (str "-Z") (Some v)
| WantPort v : server_callback m = true -> control_port <> DEFAULT_CONTROL_PORT ->
    strtol v 10 = (u32 control_port, [], false) -> wanted m meta control_port (str "-p") (Some v)
| WantDscp v : m_dscp meta <> DEFAULT_DSCP_VALUE ->
    strtol v 10 = (u32 (m_dscp meta), [], false) -> wanted m meta control_port (str "-Q") (Some v)
| WantIface i : iface meta = Some i -> wanted m meta control_port (str "-I") (Some i)
| WantV4 : m_sourcev4 meta = Some (str "any") -> wanted m meta control_port (str "-4") None
| WantSource4 a : m_sourcev4 meta = Some a -> a <> str "any" -> wanted m meta control_port (str "-4") (Some a)
| WantV6 : m_sourcev6 meta = Some (str "any") -> wanted m meta control_port (str "-6") None
| WantSource6 a : m_sourcev6 meta = Some a -> a <> str "any" -> wanted m meta control_port (str "-6") (Some a).
(** A command line of such options. *)
Definition flatten (opts : list (cstr * option cstr)) : list cstr :=
  concat ((fun o => fst o :: option_list (snd o)) <$> opts).
Definition right_options m meta control_port (opts : list (cstr * option cstr)) : Prop :=
  NoDup (fst <$> opts) /\ Forall (fun o => wanted m meta control_port (fst o) (snd o)) opts /\
  forall flag value, wanted m meta control_port flag value -> flag ∈ (fst <$> opts).

(** The families a test can be run on: the one that is forced, if one is; else those of the
    addresses of the interface it has to use, or of any. *)
Definition forced (flag : cstr) (source : option cstr) (params : list cstr) : Prop := is_Some source \/ flag ∈ params.
Definition usable (forced4 forced6 : Prop) (iface : option cstr) (l : list (cstr * option Z)) (f : Z) : Prop :=
  forced4 /\ ~ forced6 /\ f = AF_INET \/ forced6 /\ ~ forced4 /\ f = AF_INET6 \/
  (forced4 <-> forced6) /\ (f = AF_INET \/ f = AF_INET6) /\
  exists name, (name, Some f) ∈ l /\ forall i, iface = Some i -> name = i.
(** A name is asked for in those of the families it was given with, or not at all. *)
Definition asks (U : Z -> Prop) (r : resolve_dest) (q : option resolve_dest) : Prop :=
  match q with
  | Some q => rd_name q = rd_name r /\ rd_count q = rd_count r /\
      forall f, f ∈ families (rd_family q) <-> f ∈ families (rd_family r) /\ U f
  | None => forall f, f ∈ families (rd_family r) -> ~ U f
  end.

Lemma forces_forced flag source ps : forces flag source ps = true <-> forced (str flag) source ps.
Proof.
  unfold forces, forced. rewrite orb_true_iff, bool_decide_eq_true, existsb_exists. apply or_iff_compat_l. split.
  - intros (x & Hx & ->%bool_decide_eq_true). by apply list_elem_of_In.
  - intros H. exists (str flag). split; [by apply list_elem_of_In|]. by apply bool_decide_eq_true.
Qed.
Lemma existsb_ours (iface : option cstr) (l : list (cstr * option Z)) (f : Z) :
  existsb (fun e => bool_decide (snd e = Some f) && match iface with None => true | Some i => strcmp_eq i (fst e) end) l
    = true <->
  exists name : cstr, (name, Some f) ∈ l /\ forall i, iface = Some i -> name = i.
Proof.
  rewrite existsb_exists. split.
  - intros ([n o] & Hin & H). apply andb_true_iff in H as [Ho%bool_decide_eq_true H]. cbn in Ho, H. subst o.
    exists n. split; [by apply list_elem_of_In|]. intros i ->. by apply bool_decide_eq_true in H.
  - intros (n & Hin & H). exists (n, Some f). split; [by apply list_elem_of_In|]. cbn. rewrite bool_decide_eq_true_2 by done.
    destruct iface as [i|]; [|done]. apply bool_decide_eq_true. by rewrite (H i).
Qed.

Definition one_forced (b4 b6 : bool) : bool := xorb b4 b6.
Lemma usable_families_spec b4 b6 iface ifaddrs (P4 P6 : Prop) :
  (b4 = true <-> P4) -> (b6 = true <-> P6) ->
  match usable_families b4 b6 iface ifaddrs with
  | Ok (s4, s6) => (one_forced b4 b6 = true \/ is_Some ifaddrs) /\
      forall f, seen s4 s6 f = true <-> usable P4 P6 iface (default [] ifaddrs) f
  | Fault f => one_forced b4 b6 = false /\ ifaddrs = None /\ f = Uninitialised
  end.
Proof.
  intros H4 H6. unfold usable_families, usable, seen, one_forced.
  destruct b4, b6; cbn [andb negb xorb].
  2,3: split; [by left|]; intros f; destruct (Z.eqb_spec f AF_INET), (Z.eqb_spec f AF_INET6); subst; naive_solver.
  all: destruct ifaddrs as [l|]; [|done]; (split; [right; eauto|]); intros f; cbn [default from_option id].
  all: destruct (Z.eqb_spec f AF_INET); [|destruct (Z.eqb_spec f AF_INET6)]; subst; rewrite ?existsb_ours; naive_solver.
Qed.

(** The options before those of the schedule, as flags and values. *)
Definition source_opt (flag : string) (source : option cstr) : list (cstr * option cstr) :=
  match source with None => [] | Some s => [(str flag, if strcmp_eq s (str "any") then None else Some s)] end.
Definition option_pairs (m : module) (meta : meta_t) (control_port : Z) : list (cstr * option cstr) :=
  (if inter_packet_delay meta =? MIN_INTER_PACKET_DELAY then [] else [(str "-Z", Some (utoa (inter_packet_delay meta)))])
  ++ (if server_callback m && negb (control_port =? DEFAULT_CONTROL_PORT) then [(str "-p", Some (utoa control_port))] else [])
  ++ (if m_dscp meta =? DEFAULT_DSCP_VALUE then [] else [(str "-Q", Some (utoa (m_dscp meta)))])
  ++ (match iface meta with Some i => [(str "-I", Some i)] | None => [] end)
  ++ source_opt "-4" (m_sourcev4 meta) ++ source_opt "-6" (m_sourcev6 meta).
Lemma flatten_app l l' : flatten (l ++ l') = flatten l ++ flatten l'.
Proof. unfold flatten. by rewrite fmap_app, concat_app. Qed.
Lemma flatten_source flag source : flatten (source_opt flag source) = source_args flag source.
Proof. unfold source_opt, source_args. destruct source as [s|]; [|done]. by destruct (strcmp_eq s _). Qed.
Lemma global_args_flatten m meta control_port :
  global_args m meta control_port = test_name (def m) :: flatten (option_pairs m meta control_port).
Proof.
  unfold global_args, option_pairs. rewrite !flatten_app, !flatten_source. cbn [app]. f_equal.
  repeat f_equal; [by destruct (_ =? MIN_INTER_PACKET_DELAY)|by destruct (_ && _)|by destruct (_ =? DEFAULT_DSCP_VALUE)|].
  by destruct (iface meta).
Qed.

Lemma in_source flag source o :
  o ∈ source_opt flag source <->
  fst o = str flag /\ ((source = Some (str "any") /\ snd o = None) \/
                      exists a, source = Some a /\ a <> str "any" /\ snd o = Some a).
Proof.
  unfold source_opt. destruct source as [s|]; [|set_solver]. rewrite list_elem_of_singleton. unfold strcmp_eq.
  destruct o as [fl v]. cbn [fst snd]. case_bool_decide; naive_solver.
Qed.
Lemma option_pairs_right m meta control_port : right_options m meta control_port (option_pairs m meta control_port).
Proof.
  split_and!.
  - unfold option_pairs. rewrite !fmap_app. unfold source_opt.
    destruct (_ =? MIN_INTER_PACKET_DELAY), (_ && _), (_ =? DEFAULT_DSCP_VALUE), (iface meta), (m_sourcev4 meta), (m_sourcev6 meta);
      apply (bool_decide_unpack _); vm_compute; exact I.
  - apply Forall_forall. intros [fl v]. unfold option_pairs. rewrite !elem_of_app, !in_source. cbn [fst snd].
    intros [H|[H|[H|[H|[H|H]]]]].
    + destruct (Z.eqb_spec (inter_packet_delay meta) MIN_INTER_PACKET_DELAY); [set_solver|].
      apply list_elem_of_singleton in H as [= -> ->]. constructor; [done|apply strtol_utoa].
    + destruct (server_callback m) eqn:?, (Z.eqb_spec control_port DEFAULT_CONTROL_PORT); try set_solver.
      apply list_elem_of_singleton in H as [= -> ->]. constructor; [done..|apply strtol_utoa].
    + destruct (Z.eqb_spec (m_dscp meta) DEFAULT_DSCP_VALUE); [set_solver|].
      apply list_elem_of_singleton in H as [= -> ->]. constructor; [done|apply strtol_utoa].
    + destruct (iface meta) eqn:?; [|set_solver]. apply list_elem_of_singleton in H as [= -> ->]. by constructor.
    + destruct H as [-> [[? ->]|(a & ? & ? & ->)]]; by constructor.
    + destruct H as [-> [[? ->]|(a & ? & ? & ->)]]; by constructor.
  - intros flag value H. unfold option_pairs. rewrite !fmap_app, !elem_of_app.
    destruct H as [v Hv _|v Hs Hv _|v Hv _|i Hi|Ha|a Ha _|Ha|a Ha _].
    + left. rewrite (proj2 (Z.eqb_neq _ _) Hv). by left.
    + right. left. rewrite Hs, (proj2 (Z.eqb_neq _ _) Hv). by left.
    + do 2 right. left. rewrite (proj2 (Z.eqb_neq _ _) Hv). by left.
    + do 3 right. left. rewrite Hi. by left.
    + do 4 right. left. rewrite Ha. by left.
    + do 4 right. left. rewrite Ha. by left.
    + do 5 right. rewrite Ha. by left.
    + do 5 right. rewrite Ha. by left.
Qed.

Lemma limit_family_asks U s4 s6 r :
  family_valid r -> (forall f, seen s4 s6 f = true <-> U f) -> asks U r (limit_family s4 s6 r).
Proof.
  intros Hr HU. pose proof (limit_family_spec s4 s6 r Hr) as H. unfold asks.
  destruct (limit_family s4 s6 r) as [q|].
  - destruct H as (H1 & H2 & H3). split_and!; [done..|]. intros f.
    rewrite H3, <- HU, !list_elem_of_In, filter_In. done.
  - intros f Hf HUf%HU. assert (Hin : In f []) by (rewrite <- H; apply filter_In; by rewrite <- list_elem_of_In). destruct Hin.
Qed.
Lemma queries_ask U s4 s6 l :
  Forall family_valid l -> (forall f, seen s4 s6 f = true <-> U f) ->
  exists choice, Forall2 (asks U) l choice /\ omap (limit_family s4 s6) l = omap (fun q => q) choice.
Proof.
  intros Hl HU. exists (limit_family s4 s6 <$> l). induction Hl as [|r l Hr Hl [IH1 IH2]]; [by split|]. cbn. split.
  - constructor; [by apply limit_family_asks|done].
  - by rewrite IH2.
Qed.

(** C21: What run_test() does for a test with enough targets, the watchdog started.  The
    arguments are the name of the test, the options the configuration asks for (each once:
    the packet delay, control port and DSCP value that are not the defaults, as numbers that
    read back as the configured ones, the interface, and the source addresses or the bare family
    flags), and the arguments of the schedule.  If they do not fit into the 127 entries before
    the NULL, the vector is overrun.  If there are names to resolve and not exactly one
    family is forced, by a source address or a -4 or -6 in the schedule, the interfaces of
    the host are listed, and when that fails a pointer that was not set is used.  Otherwise
    the resolver is asked for each name in exactly those of its families that are forced,
    or that an address of the interface has, and not at all for a name that is left
    with none.  The test is run once on the fixed destinations followed by what the resolver
    answered, if they are enough, and what it returns is reported once: to the client
    that asked for the run, or else to the broker.  The watchdog is started first and
    stopped last. *)
Theorem run_test_correct ifaddrs resolver run_callback control_port m meta t params ctrl :
  let ps := default [] params in
  let forced4 := forced (str "-4") (m_sourcev4 meta) ps in
  let forced6 := forced (str "-6") (m_sourcev6 meta) ps in
  let run := run_test true ifaddrs resolver run_callback control_port m meta t params ctrl in
  total_count t >= min_targets (def m) -> Forall family_valid (resolve t) ->
  exists opts, right_options m meta control_port opts /\
  let argv := test_name (def m) :: flatten opts ++ ps in
  ((MAX_TEST_ARGS <= length argv)%nat -> run = Fault OutOfBounds) /\
  ((length argv < MAX_TEST_ARGS)%nat -> resolve t <> [] -> (forced4 <-> forced6) -> ifaddrs = None ->
   run = Fault Uninitialised) /\
  ((length argv < MAX_TEST_ARGS)%nat -> resolve t = [] \/ ~ (forced4 <-> forced6) \/ is_Some ifaddrs ->
   exists choice, Forall2 (asks (usable forced4 forced6 (iface meta) (default [] ifaddrs))) (resolve t) choice /\
   forall addrs, (if bool_decide (resolve t = []) then Some [] else resolver (omap (fun q => q) choice)) = Some addrs ->
     0 <= dest_count t + Z.of_nat (length addrs) < 4294967296 ->
     let dests' := dests t ++ addrs in
     exists acts, run = Ok acts /\
       head acts = Some (Watchdog (max_duration m)) /\ last acts = Some StopWatchdog /\
       (resolve t <> [] -> Query (omap (fun q => q) choice) ∈ acts) /\
       if min_targets (def m) <=? dest_count t + Z.of_nat (length addrs) then
         callbacks acts = [(argv, dests')] /\
         reports acts = match run_callback argv dests', ctrl with
                        | Some data, true => [SendResult (id m) data]
                        | Some data, false => [Broker (id m) data]
                        | None, true => [SendFailed]
                        | None, false => []
                        end
       else callbacks acts = [] /\ reports acts = []).
Proof.
  cbv zeta. intros Ht Hfam. exists (option_pairs m meta control_port). split; [apply option_pairs_right|].
  rewrite app_comm_cons, <- global_args_flatten. change (global_args m meta control_port ++ default [] params)
    with (full_argv control_port m meta params).
  set (argv := full_argv control_port m meta params). set (ps := default [] params).
  pose proof (usable_families_spec (forces "-4" (m_sourcev4 meta) ps) (forces "-6" (m_sourcev6 meta) ps)
    (iface meta) ifaddrs _ _ (forces_forced _ _ _) (forces_forced _ _ _)) as Hu.
  assert (Hone : one_forced (forces "-4" (m_sourcev4 meta) ps) (forces "-6" (m_sourcev6 meta) ps) = false <->
    (forced (str "-4") (m_sourcev4 meta) ps <-> forced (str "-6") (m_sourcev6 meta) ps)).
  { rewrite <- !forces_forced. unfold one_forced. destruct (forces _ _ _), (forces _ _ _); cbn; naive_solver. }
  split_and!.
  - intros Hn. unfold run_test. rewrite c_assert_true by (rewrite Z.geb_leb; lia). cbn [negb].
    by rewrite argv_filled, (proj2 (Nat.ltb_ge _ _)).
  - intros Hn Hne Hf Hi. unfold run_test. rewrite c_assert_true by (rewrite Z.geb_leb; lia). cbn [negb].
    rewrite argv_filled, (proj2 (Nat.ltb_lt _ _)) by done. unfold resolve_targets. fold ps.
    destruct (resolve t); [done|]. destruct (usable_families _ _ _ _) as [[s4 s6]|f].
    + destruct Hu as [[Hu|Hu] _]; [apply Hone in Hf; congruence|]. rewrite Hi in Hu. by destruct Hu.
    + by destruct Hu as (_ & _ & ->).
  - intros Hn Hok.
    assert (Hfin : exists choice qs,
      Forall2 (asks (usable (forced (str "-4") (m_sourcev4 meta) ps) (forced (str "-6") (m_sourcev6 meta) ps)
                 (iface meta) (default [] ifaddrs))) (resolve t) choice /\
      (resolve t <> [] -> qs = [Query (omap (fun q => q) choice)]) /\ callbacks qs = [] /\ reports qs = [] /\
      forall addrs, (if bool_decide (resolve t = []) then Some [] else resolver (omap (fun q => q) choice)) = Some addrs ->
        resolve_targets ifaddrs resolver meta t (forces "-4" (m_sourcev4 meta) ps) (forces "-6" (m_sourcev6 meta) ps)
        = Ok (qs, addrs)).
    { unfold resolve_targets. destruct (resolve t) as [|r l] eqn:Er.
      { exists [], []. split_and!; [constructor|done..|]. rewrite bool_decide_eq_true_2 by done. by intros addrs [= <-]. }
      destruct (usable_families _ _ _ _) as [[s4 s6]|f].
      - destruct Hu as [_ Hu]. destruct (queries_ask _ s4 s6 (r :: l) Hfam Hu) as (choice & Hc & Hq).
        exists choice, [Query (omap (fun q => q) choice)]. split_and!; [done..|]. rewrite bool_decide_eq_false_2 by done.
        intros addrs Ha. rewrite bind_Ok. cbn [fst snd]. rewrite Hq, Ha. done.
      - destruct Hu as (H1 & H2 & _). apply Hone in H1. rewrite H2 in Hok.
        destruct Hok as [?|[?|[? ?]]]; done. }
    destruct Hfin as (choice & qs & Hc & Hqs & Hcb & Hrp & Hrt). exists choice. split; [done|].
    intros addrs Ha Hrange. erewrite run_test_eq by (done || by apply Hrt). fold argv. eexists. split; [done|].
    rewrite u32_id, Z.geb_leb by lia. split; [done|].
    split; [rewrite !app_assoc; by rewrite last_snoc|].
    split; [intros Hne; rewrite (Hqs Hne); set_solver|].
    set (b := min_targets (def m) <=? _). unfold report, callbacks, reports in *.
    destruct b; [destruct (run_callback _ _)|]; destruct ctrl;
      rewrite !omap_app, !List.filter_app, Hcb, Hrp; by split.
Qed.

Lemma delete_all_lookup ps h p :
  delete_all ps h !! p = if bool_decide (p ∈ ps) then None else h !! p.
Proof.
  induction ps as [|q ps IH]; [done|]. change (delete_all (q :: ps) h) with (delete q (delete_all ps h)).
  destruct (decide (q = p)) as [->|Hne].
  - rewrite lookup_delete_eq, bool_decide_eq_true_2 by set_solver. done.
  - rewrite lookup_delete_ne, IH by done. by repeat case_bool_decide; set_solver.
Qed.

(** C26: The process started for a scheduled test first frees the tests that wait in the
    event base (those a visit of the base meets; the test itself has just been taken out),
    and then reads the arguments of the test.  It runs the test with the arguments it was
    scheduled with exactly when the argument vectors of the waiting tests are distinct and
    allocated and none of them is the test's own.  Otherwise, as for a test that was
    split over its targets and so shares its vector, it frees a vector twice or reads a
    freed one. *)
Theorem test_process_arguments ifaddrs resolver run_callback control_port m meta h pending item p args :
  let ps := omap ev_params pending in
  params item = Some p -> h !! p = Some args ->
  total_count (tgts item) >= min_targets (def m) ->
  test_process true ifaddrs resolver run_callback control_port m meta h pending item
  = if bool_decide (NoDup (p :: ps) /\ Forall (fun q => is_Some (h !! q)) ps)
    then run_test true ifaddrs resolver run_callback control_port m meta (tgts item) (Some args) false
    else Fault UseAfterFree.
Proof.
  cbv zeta. intros Hp Hh Ht. unfold test_process.
  destruct (clear_test_schedule_spec true h pending) as [H1 H2]. cbv zeta in H1, H2.
  case_bool_decide as Hc.
  - destruct Hc as [Hnd Hl]. inversion Hnd as [|? ? Hn Hnd']; subst. rewrite H1 by done. rewrite bind_Ok, Hp.
    rewrite (proj2 (Z.geb_le _ _)) by lia. cbn [andb fst]. unfold deref.
    by rewrite delete_all_lookup, bool_decide_eq_false_2, Hh.
  - destruct (decide (NoDup (omap ev_params pending) /\ Forall (fun q => is_Some (h !! q)) (omap ev_params pending))) as [Hd|Hd].
    + rewrite H1 by done. rewrite bind_Ok, Hp, (proj2 (Z.geb_le _ _)) by lia. cbn [andb fst]. unfold deref.
      rewrite delete_all_lookup, bool_decide_eq_true_2; [done|].
      destruct (decide (p ∈ omap ev_params pending)); [done|]. destruct Hc. split; [constructor; [done|]|]; apply Hd.
    + by rewrite H2.
Qed.

(** The argument vector of a run has 128 entries and nothing checks it: with the
    terminating NULL it overflows exactly when the name, the global options and the
    schedule's arguments are 128 or more.  A schedule may hold 127 arguments, and the
    global options are up to 13. *)
Theorem run_test_argv_bounds ifaddrs resolver run_callback control_port m meta t params ctrl :
  let n := (length (global_args m meta control_port) + length (default [] params))%nat in
  total_count t >= min_targets (def m) -> (resolve t = [] \/ is_Some ifaddrs /\ forall q, is_Some (resolver q)) ->
  (length (global_args m meta control_port) <= 13)%nat /\
  ((n < MAX_TEST_ARGS)%nat ->
    exists acts, run_test true ifaddrs resolver run_callback control_port m meta t params ctrl = Ok acts) /\
  ((MAX_TEST_ARGS <= n)%nat ->
    run_test true ifaddrs resolver run_callback control_port m meta t params ctrl = Fault OutOfBounds).
Proof.
  cbv zeta. rewrite <- length_app. fold (full_argv control_port m meta params). intros Ht Hr.
  split; [apply global_args_length|]. split; intros Hn.
  - assert (Ha : exists qs addrs, resolve_targets ifaddrs resolver meta t
      (forces "-4" (m_sourcev4 meta) (default [] params)) (forces "-6" (m_sourcev6 meta) (default [] params)) = Ok (qs, addrs)).
    { unfold resolve_targets. destruct (resolve t) as [|r l]; [eauto|]. destruct Hr as [|[[l' ->] Hr]]; [done|].
      unfold usable_families. destruct (forces _ _ _), (forces _ _ _); cbn; (edestruct Hr as [? ->]; eauto). }
    destruct Ha as (qs & addrs & Ha). erewrite run_test_eq by done. eauto.
  - unfold run_test. rewrite c_assert_true by (rewrite Z.geb_leb; lia). cbn [negb].
    by rewrite argv_filled, (proj2 (Nat.ltb_ge _ _)).
Qed.

Definition icmp_module : module := {|
  id := 2; def := {| test_name := str "icmp"; max_targets := 0; min_targets := 1 |};
  max_duration := 120; server_callback := false; server_params := None |}.
Definition eth0_meta : meta_t := {|
  iface := Some (str "eth0"); m_sourcev4 := Some (str "any"); m_sourcev6 := None;
  inter_packet_delay := 250; m_dscp := 0 |}.
Definition one_name : target_lists := {|
  dest_count := 0; resolve_count := 1; dests := [];
  resolve := [{| rd_name := str "example.org"; rd_count := 0; rd_family := AF_UNSPEC |}] |}.
Definition sample_addr : addrinfo := {| ai_addr := SockIn 16777343; ai_canonname := Some (str "example.org") |}.

Lemma run_test_correct_witness :
  exists acts, run_test true (Some [(str "eth0", Some AF_INET)]) (fun _ => Some [sample_addr]) (fun _ _ => Some [1; 2]) 8869
      icmp_module eth0_meta one_name (Some [str "-s"; str "84"]) true = Ok acts /\
    last acts = Some StopWatchdog /\
    callbacks acts = [(map str ["icmp"; "-Z"; "250"; "-I"; "eth0"; "-4"; "-s"; "84"]%string, [sample_addr])].
Proof.
  destruct (run_test_correct (Some [(str "eth0", Some AF_INET)]) (fun _ => Some [sample_addr]) (fun _ _ => Some [1; 2]) 8869
    icmp_module eth0_meta one_name (Some [str "-s"; str "84"]) true) as (opts & [Hnd [Hall _]] & _ & _ & H).
  - vm_compute. discriminate.
  - repeat constructor.
  - destruct H as (choice & _ & H).
    + assert (Hlen : (length (flatten opts) <= 2 * length opts)%nat).
      { clear. unfold flatten. induction opts as [|[f [v|]] l IH]; cbn in *; lia. }
      assert (Hfl : (length (fst <$> opts) <= 6)%nat).
      { apply (submseteq_length _ (map str ["-Z"; "-p"; "-Q"; "-I"; "-4"; "-6"]%string)).
        apply NoDup_submseteq; [exact Hnd|]. intros x (o & -> & Ho)%list_elem_of_fmap.
        rewrite Forall_forall in Hall. specialize (Hall o Ho). inversion Hall; cbn; set_solver. }
      rewrite length_fmap in Hfl. cbn [length]. rewrite length_app.
      change (length (default [] (Some [str "-s"; str "84"]))) with 2%nat. change MAX_TEST_ARGS with 128%nat. lia.
    + right. right. eauto.
    + destruct (H [sample_addr]) as (acts & E & _ & Hl & _).
      * reflexivity.
      * vm_compute. split; [discriminate|reflexivity].
      * exists acts. split; [exact E|]. split; [exact Hl|]. vm_compute in E. injection E as <-. reflexivity.
Defined.

(** 127 arguments, which parse_param_string() accepts. *)
Definition many_args : cstr := concat (repeat (str "a ") 126) ++ str "a".
Lemma run_test_argv_bounds_witness :
  exists ps, parse_param_string (Some many_args) = Ok (Some ps) /\ length ps = 127%nat /\
    run_test true (Some []) (fun _ => Some []) (fun _ _ => None) 8869 icmp_module eth0_meta one_name (Some ps) false
    = Fault OutOfBounds.
Proof.
  exists (repeat (str "a") 127). split; [vm_compute; reflexivity|]. split; [vm_compute; reflexivity|].
  destruct (run_test_argv_bounds (Some []) (fun _ => Some []) (fun _ _ => None) 8869 icmp_module eth0_meta
    one_name (Some (repeat (str "a") 127)) false) as (_ & _ & H).
  - vm_compute. discriminate.
  - right. split; [|intros q]; eauto.
  - apply H. apply Nat.leb_le. vm_compute. reflexivity.
Defined.

Lemma test_process_arguments_witness :
  let args := [str "-s"; str "84"] in
  let h : param_heap := <[1 := args]> (<[2 := [str "-4"]]> ∅) in
  let item p := {|
    abstime := Tv 0 0; interval := Tv 600 0; start := 0; end_ := 3600000000;
    period := SCHEDULE_PERIOD_HOURLY; test := def icmp_module; tgts := one_name; params := Some p |} in
  let process pending :=
    test_process true (Some []) (fun _ => Some [sample_addr]) (fun _ _ => Some [1; 2]) 8869 icmp_module
      eth0_meta h pending (item 1) in
  (exists acts, process [RunTest (item 2) (Tv 60 0)] = Ok acts /\ reports acts = [Broker 2 [1; 2]]) /\
  process [RunTest (item 1) (Tv 60 0)] = Fault UseAfterFree.
Proof.
  intros args h item process. split.
  - eexists. split.
    + unfold process. rewrite (test_process_arguments _ _ _ _ _ _ _ _ _ 1 args); try reflexivity.
      vm_compute. discriminate.
    + reflexivity.
  - unfold process. rewrite (test_process_arguments _ _ _ _ _ _ _ _ _ 1 args); try reflexivity.
    vm_compute. discriminate.
Defined.
