(* ===== verification/Control.v ===== *)
(** The control port of measured (src/measured/control.c, the messages of
    src/common/serverlib.c and the client of src/measured/remote-client.c): remote
    amplets ask for test servers and tests, if the access control list lets them. *)
From stdpp Require Import gmap countable.
From S2P Require Import Prelude CLib Address Bytes ParamString Nametable Targets Acl Controlmsg Sockets Run.
#[local] Open Scope Z_scope.

(** ** The messages of measured.proto *)

Definition TYPE_SERVER : Z := 1002.
Definition TYPE_TEST : Z := 1003.
Definition TYPE_RESPONSE : Z := 1005.
Definition TYPE_MRESULT : Z := 1006.

Record Server : Set := { sv_test_type : option Z; sv_params : option cstr }.
Record Test : Set := { mt_test_type : option Z; mt_targets : list cstr; mt_params : option cstr }.
Record Response : Set := { rs_code : option Z; rs_message : option cstr }.
Record MResult : Set := { mr_test_type : option Z; mr_result : option (list Z) }.
Record MControl : Set := {
  m_type : option Z; m_server : option Server; m_test : option Test;
  m_response : option Response; m_result : option MResult
}.

#[export] Instance Server_eq_dec : EqDecision Server.
Proof. solve_decision. Defined.
#[export] Instance Test_eq_dec : EqDecision Test.
Proof. solve_decision. Defined.
#[export] Instance Response_eq_dec : EqDecision Response.
Proof. solve_decision. Defined.
#[export] Instance MResult_eq_dec : EqDecision MResult.
Proof. solve_decision. Defined.
#[export] Instance MControl_eq_dec : EqDecision MControl.
Proof. solve_decision. Defined.

(** A C string has no NUL inside. *)
Definition cstr_ok (s : cstr) : Prop := zero ∉ s.

Definition mcontrol_valid (m : MControl) : Prop :=
  opt_all (uint 31) (m_type m) /\
  opt_all (fun s => opt_all (uint 64) (sv_test_type s) /\ opt_all cstr_ok (sv_params s)) (m_server m) /\
  opt_all (fun t => opt_all (uint 64) (mt_test_type t) /\ Forall cstr_ok (mt_targets t) /\
                    opt_all cstr_ok (mt_params t)) (m_test m) /\
  opt_all (fun r => opt_all (uint 32) (rs_code r) /\ opt_all cstr_ok (rs_message r)) (m_response m) /\
  opt_all (fun r => opt_all (uint 64) (mr_test_type r) /\ opt_all bytes_ok (mr_result r)) (m_result m).

#[export] Instance cstr_ok_dec s : Decision (cstr_ok s).
Proof. unfold cstr_ok. apply _. Defined.
#[export] Instance mcontrol_valid_dec m : Decision (mcontrol_valid m).
Proof. unfold mcontrol_valid. apply _. Defined.

#[export] Instance mcontrol_message : Message MControl := {
  INIT := {| m_type := None; m_server := None; m_test := None; m_response := None; m_result := None |};
  valid := mcontrol_valid
}.

Definition server_msg (type : Z) (params : option cstr) : MControl :=
  {| m_type := Some TYPE_SERVER; m_server := Some {| sv_test_type := Some type; sv_params := params |};
     m_test := None; m_response := None; m_result := None |}.
Definition test_msg (type : Z) (targets : list cstr) (params : option cstr) : MControl :=
  {| m_type := Some TYPE_TEST; m_server := None;
     m_test := Some {| mt_test_type := Some type; mt_targets := targets; mt_params := params |};
     m_response := None; m_result := None |}.
Definition response_msg (code : Z) (message : cstr) : MControl :=
  {| m_type := Some TYPE_RESPONSE; m_server := None; m_test := None;
     m_response := Some {| rs_code := Some code; rs_message := Some message |}; m_result := None |}.
Definition mresult_msg (type : Z) (data : list Z) : MControl :=
  {| m_type := Some TYPE_MRESULT; m_server := None; m_test := None; m_response := None;
     m_result := Some {| mr_test_type := Some type; mr_result := Some data |} |}.

Definition MEASURED_CONTROL_OK : Z := 200.
Definition MEASURED_CONTROL_BADREQUEST : Z := 400.
Definition MEASURED_CONTROL_FORBIDDEN : Z := 403.

Section Measured.
Context `{Protobuf MControl}.

Definition send_measured (env : list (io Z)) (msg : MControl) : Z * list Z * list (io Z) :=
  write_control_packet env (pack msg).

Definition send_server_start (env : list (io Z)) (type : Z) (params : option cstr) :=
  send_measured env (server_msg type params).
Definition start_remote_server (env : list (io Z)) (type : Z) (params : option cstr) : Z :=
  let '(r, _, _) := send_server_start env type params in if r <? 0 then -1 else 0.
Definition send_measured_response (env : list (io Z)) (code : Z) (message : cstr) :=
  send_measured env (response_msg code message).
Definition send_measured_result (env : list (io Z)) (type : Z) (data : list Z) :=
  send_measured env (mresult_msg type data).

(** parse_measured_response(): the return value and the response.  The message is
    copied with strdup(), present or not. *)
Definition parse_measured_response (data : list Z) : res (Z * option (Z * cstr)) :=
  match unpack data with
  | None => Ok (-1, None)
  | Some msg =>
      if negb (bool_decide (m_type msg = Some TYPE_RESPONSE)) then Ok (-1, None)
      else match m_response msg with
           | Some {| rs_code := Some code; rs_message := message |} =>
               match message with
               | Some text => Ok (0, Some (code, text))
               | None => Fault NullDeref
               end
           | _ => Ok (-1, None)
           end
  end.

Definition read_measured_response (env : list (io (list Z)))
    : res (Z * option (Z * cstr) * list (io (list Z))) :=
  let '(len, data, env) := read_control_packet env in
  if len <? 0 then Ok (-1, None, env)
  else
    r ← parse_measured_response data;
    if fst r <? 0 then Ok (-1, None, env) else Ok (0, snd r, env).

(** ** The server *)

(** parse_server_start(): the test and its arguments. *)
Definition parse_server_start (data : list Z) : res (option (Z * option (list cstr))) :=
  match unpack data with
  | None => Ok None
  | Some msg =>
      if negb (bool_decide (m_type msg = Some TYPE_SERVER)) then Ok None
      else match m_server msg with
           | Some {| sv_test_type := Some type; sv_params := params |} =>
               ps ← parse_param_string params; Ok (Some (type, ps))
           | _ => Ok None
           end
  end.

(** The strings of a message as the nodes populate_target_lists() works on. *)
Definition target_document (targets : list cstr) : yaml_document :=
  list_to_map (imap (fun i s => (Z.of_nat i, YScalar s)) targets).
Definition target_array (targets : list cstr) : str_array :=
  ((fun i => Some (Z.of_nat i)) <$> seq 0 (length targets)) ++ [None].

Definition single_meta : meta_t :=
  {| iface := None; m_sourcev4 := None; m_sourcev6 := None;
     inter_packet_delay := MIN_INTER_PACKET_DELAY; m_dscp := 0 |}.

Section Serving.
Context (amp_tests : list module) (name_table : list nametable_t) (acl : acl_root).

(** parse_single_test(): the fields of the schedule item. *)
Definition parse_single_test (data : list Z)
    : res (option (module * target_lists * option (list cstr))) :=
  match unpack data with
  | None => Ok None
  | Some msg =>
      if negb (bool_decide (m_type msg = Some TYPE_TEST)) then Ok None
      else match m_test msg with
           | Some {| mt_test_type := Some type; mt_targets := targets; mt_params := params |} =>
               match get_test_by_id amp_tests type with
               | None => Ok None
               | Some m =>
                   ps ← parse_param_string params;
                   t ← (match targets with
                        | [] => Ok no_targets
                        | _ =>
                            r ← populate_target_lists name_table (def m) (target_document targets)
                                  (Some (target_array targets));
                            Ok (snd (fst r))
                        end);
                   Ok (Some (m, t, ps))
               end
           | _ => Ok None
           end
  end.

(** do_start_server(): the arguments its server callback gets, if it is called.
    [bound_device] is what SO_BINDTODEVICE reports, [local] the family and text of
    the local address. *)
Definition do_start_server (watchdog_ok : bool) (bound_device : option cstr)
    (local : option (Z * cstr)) (data : list Z) : res (option (list cstr)) :=
  start ← parse_server_start data;
  match start with
  | None => Ok None
  | Some (test_type, test_params) =>
      match get_test_by_id amp_tests test_type with
      | None => Ok None
      | Some m =>
          if negb (server_callback m) then Ok None
          else if negb watchdog_ok then Ok None
          else
            argv ← push (test_name (def m)) [];
            argv ← push_all (match bound_device with Some d => [str "-I"; d] | None => [] end) argv;
            argv ← push_all (match local with
                             | Some (family, text) =>
                                 if family =? AF_INET then [str "-4"; text]
                                 else if family =? AF_INET6 then [str "-6"; text] else []
                             | None => []
                             end) argv;
            argv ← push_all (default [] test_params) argv;
            argv ← push_all (default [] (server_params m)) argv;
            argv ← terminate argv;
            Ok (Some argv)
      end
  end.

(** do_single_test(): what is handed to run_test(), which asserts at once that
    there are enough targets. *)
Definition do_single_test (data : list Z)
    : res (option (module * target_lists * option (list cstr))) :=
  r ← parse_single_test data;
  match r with
  | None => Ok None
  | Some (m, t, ps) => _ ← c_assert (total_count t >=? min_targets (def m)); Ok (Some (m, t, ps))
  end.

(** What serving one connection comes to: the responses sent, the server
    callbacks run, the tests handed to run_test() (which end the process). *)
Inductive served : Type :=
| Reply (code : Z) (text : cstr)
| ServerRun (argv : list cstr)
| TestRun (m : module) (t : target_lists) (params : option (list cstr)).

(** The machine's answers to do_start_server(), and what the server callback
    leaves of the stream. *)
Context (watchdog_ok : bool) (bound_device : option cstr) (local : option (Z * cstr))
  (callback : list cstr -> list (io (list Z)) -> list (io (list Z))).

(** One message; the stream is [None] when the process has ended. *)
Definition process_message (common_name : cstr) (msg : MControl) (data : list Z)
    (env : list (io (list Z))) : res (list served * option (list (io (list Z)))) :=
  if bool_decide (m_type msg = Some TYPE_SERVER) then
    if negb (get_acl (Some acl) (Some common_name) ACL_SERVER =? 0) then
      r ← do_start_server watchdog_ok bound_device local data;
      Ok (Reply MEASURED_CONTROL_OK (str "OK")
          :: (match r with Some argv => [ServerRun argv] | None => [] end),
          Some (match r with Some argv => callback argv env | None => env end))
    else Ok ([Reply MEASURED_CONTROL_FORBIDDEN (str "Requires SERVER permissions")], Some env)
  else if bool_decide (m_type msg = Some TYPE_TEST) then
    if negb (get_acl (Some acl) (Some common_name) ACL_TEST =? 0) then
      r ← do_single_test data;
      match r with
      | None => Ok ([Reply MEASURED_CONTROL_OK (str "OK")], Some env)
      | Some (m, t, ps) =>
          Ok ([Reply MEASURED_CONTROL_OK (str "OK"); TestRun m t ps],
              if watchdog_ok then None else Some env)
      end
    else Ok ([Reply MEASURED_CONTROL_FORBIDDEN (str "Requires TEST permissions")], Some env)
  else Ok ([Reply MEASURED_CONTROL_BADREQUEST (str "Bad request")], Some env).

(** process_control_message(), once the connection is established: [n] bounds the
    messages it reads. *)
Fixpoint process_loop (n : nat) (common_name : cstr) (env : list (io (list Z)))
    : res (list served) :=
  match n with
  | O => Fault OutOfFuel
  | S n =>
      let '(bytes, data, env) := read_control_packet env in
      if bytes >? 0 then
        match unpack data with
        | None => Ok []
        | Some msg =>
            if bool_decide (m_type msg = None) then Ok []
            else
              r ← process_message common_name msg data env;
              match snd r with
              | None => Ok (fst r)
              | Some env => rest ← process_loop n common_name env; Ok (fst r ++ rest)
              end
        end
      else Ok []
  end.
(** A message takes at least five bytes of the stream. *)
Definition process_control_message (common_name : cstr) (env : list (io (list Z))) : res (list served) :=
  process_loop (S (length (stream env))) common_name env.

(** The whole of process_control_message(): [fd] is the accepted connection.  The
    process exits when there is no valid certificate with a usable name. *)
Definition serve_connection `{Openssl} (fd : Z) (env : list (io (list Z))) (w : world)
    : res (list served) :=
  _ ← c_assert ssl_ctx;
  r ← establish_control_socket fd w;
  match fst r with
  | None => Ok []
  | Some fd =>
      match peer_certificate fd with
      | None => Ok []
      | Some cert =>
          match get_common_name cert with
          | None => Ok []
          | Some common_name => process_control_message common_name env
          end
      end
  end.
End Serving.

(** ** The client that asks for a single test *)

Inductive client_out : Type :=
| ClientFailed (what : cstr)                 (* printed, exit(EXIT_FAILURE) *)
| Printed (data : list Z)                    (* the test's print callback *)
| StartError (code : Z) (message : cstr)
| RunError (code : Z) (message : cstr)
| Unexpected                                 (* a message that is not understood *)
| Nothing.

(** What follows once a RESULT or RESPONSE has been read. *)
Definition client_result (test_id : Z) (msg : MControl) (buffer : list Z) : res client_out :=
  (* protobuf-c gives an unset enum its first value, SERVER *)
  let type := default TYPE_SERVER (m_type msg) in
  if type =? TYPE_MRESULT then
    match m_result msg with
    | Some {| mr_test_type := Some type; mr_result := Some data |} =>
        if negb (test_id =? type) then Ok Unexpected else Ok (Printed data)
    | _ => Ok Nothing
    end
  else if type =? TYPE_RESPONSE then
    r ← parse_measured_response buffer;
    match r with
    | (0, Some (code, message)) => Ok (RunError code message)
    | _ => Ok Nothing
    end
  else Ok Unexpected.

(** main() of remote-client.c from the request on. *)
Definition remote_client (test_id : Z) (targets : list cstr) (params : option cstr)
    (wenv : list (io Z)) (renv : list (io (list Z))) : res client_out :=
  let '(r, _, _) := send_measured wenv (test_msg test_id targets params) in
  if r <? 0 then Ok (ClientFailed (str "failed to write"))
  else
    rr ← read_measured_response renv;
    let '(r, response, renv) := rr in
    if r <? 0 then Ok (ClientFailed (str "failed to read response"))
    else match response with
         | None => Ok (ClientFailed (str "failed to read response"))
         | Some (code, message) =>
             if negb (code =? MEASURED_CONTROL_OK) then Ok (StartError code message)
             else
               let '(bytes, buffer, _) := read_control_packet renv in
               if bytes <? 0 then Ok (ClientFailed (str "failed to read"))
               else match unpack buffer with
                    | None => Fault NullDeref
                    | Some msg => client_result test_id msg buffer
                    end
         end.
End Measured.

(** ** Only what the access control list allows is run *)

Section Authorised.
Context `{Protobuf MControl} (amp_tests : list module) (name_table : list nametable_t)
  (acl : acl_root) (watchdog_ok : bool) (bound_device : option cstr) (local : option (Z * cstr))
  (callback : list cstr -> list (io (list Z)) -> list (io (list Z))).

(** The permission an action needs. *)
Definition needs (a : served) : option Z :=
  match a with Reply _ _ => None | ServerRun _ => Some ACL_SERVER | TestRun _ _ _ => Some ACL_TEST end.
Definition allowed (common_name : cstr) (a : served) : Prop :=
  opt_all (fun p => get_acl (Some acl) (Some common_name) p <> 0) (needs a).

Lemma process_message_allowed cn msg data env log env' :
  process_message amp_tests name_table acl watchdog_ok bound_device local callback cn msg data env
    = Ok (log, env') -> Forall (allowed cn) log.
Proof.
  unfold process_message. case_bool_decide.
  - destruct (Z.eqb_spec (get_acl (Some acl) (Some cn) ACL_SERVER) 0) as [|Hp]; cbn [negb];
      intros E; inv_res; [simplify_eq; by repeat constructor|].
    case_match; simplify_eq; by repeat constructor.
  - case_bool_decide; [|intros E; inv_res; simplify_eq; by repeat constructor].
    destruct (Z.eqb_spec (get_acl (Some acl) (Some cn) ACL_TEST) 0) as [|Hp]; cbn [negb];
      intros E; inv_res; [simplify_eq; by repeat constructor|].
    destruct x as [[[m t] ps]|]; inv_res; simplify_eq; by repeat constructor.
Qed.

Lemma process_loop_allowed n cn env log :
  process_loop amp_tests name_table acl watchdog_ok bound_device local callback n cn env = Ok log ->
  Forall (allowed cn) log.
Proof.
  revert env log. induction n as [|n IH]; intros env log; [done|]. cbn [process_loop].
  destruct (read_control_packet env) as [[bytes data] env1].
  destruct (bytes >? 0); [|intros [= <-]; constructor].
  destruct (unpack data) as [msg|]; [|intros [= <-]; constructor].
  case_bool_decide; [intros [= <-]; constructor|]. intros E. inv_res.
  destruct x as [l [env2|]]; cbn [fst snd] in *; inv_res; subst.
  - apply Forall_app. split; [by eapply process_message_allowed|by eapply IH].
  - by eapply process_message_allowed.
Qed.
End Authorised.

(** What a connection that is served was allowed. *)
Lemma serve_connection_allowed `{Protobuf MControl, Openssl} amp_tests name_table calls
    watchdog_ok bound_device local callback fd env w log a property :
  0 <= fd ->
  serve_connection amp_tests name_table (foldl do_call initialise_acl calls) watchdog_ok
    bound_device local callback fd env w = Ok log ->
  a ∈ log -> needs a = Some property ->
  do_handshake fd = true /\ verify_result_ok fd = true /\
  exists cn, peer_certificate fd = Some {| subject_cn := Some cn |} /\ cstr_ok cn /\
    get_acl (Some (foldl do_call initialise_acl calls)) (Some cn) property <> 0 /\
    ((length calls <= 255)%nat -> spec_get (foldl (spec_call property) spec_init calls) cn <> 0).
Proof.
  intros Hfd Hs Ha Hp. unfold serve_connection in Hs.
  destruct ssl_ctx eqn:Hctx; [|done]. rewrite c_assert_true in Hs by done.
  pose proof (wp_establish fd w Hfd) as He. unfold wp in He.
  destruct (establish_control_socket fd w) as [[[fd'|] w']|]; [| |done];
    rewrite bind_Ok in Hs; cbn [fst] in Hs; [|injection Hs as <-; by apply elem_of_nil in Ha].
  destruct He as (-> & _ & Hv). destruct (Hv Hctx) as [Hh Hok]. split_and!; [done..|].
  unfold get_common_name in Hs. destruct (peer_certificate fd) as [[[cn|]]|]; cbn [subject_cn] in Hs;
    try (injection Hs as <-; by apply elem_of_nil in Ha).
  case_bool_decide as Hz;
    [injection Hs as <-; by apply elem_of_nil in Ha|].
  exists cn. split; [done|]. split; [done|]. apply process_loop_allowed in Hs.
  rewrite Forall_forall in Hs. specialize (Hs a Ha). unfold allowed in Hs. rewrite Hp in Hs. cbn [opt_all] in Hs.
  split; [done|]. intros Hlen. rewrite get_acl_rules in Hs by done. rewrite bool_decide_eq_true_2 in Hs; [done|].
  destruct a; cbn in Hp; simplify_eq; set_solver.
Qed.

(** C14: A test server or a test is started for a control connection only when the TLS
    handshake and the verification of the client's certificate succeeded, the
    certificate has a common name without a NUL in it, and the access control list that was
    built from the configuration grants SERVER or TEST permission respectively to this name.
    When the configuration has at most 255 rules, this is the answer of the most specific
    rule that covers the name (with more, the list can lose rules). *)
Theorem control_runs_only_what_is_allowed `{Protobuf MControl, Openssl} amp_tests name_table calls
    watchdog_ok bound_device local callback fd env w log a property :
  0 <= fd ->
  serve_connection amp_tests name_table (foldl do_call initialise_acl calls) watchdog_ok
    bound_device local callback fd env w = Ok log ->
  a ∈ log -> needs a = Some property ->
  do_handshake fd = true /\ verify_result_ok fd = true /\
  exists cn, peer_certificate fd = Some {| subject_cn := Some cn |} /\ cstr_ok cn /\
    get_acl (Some (foldl do_call initialise_acl calls)) (Some cn) property <> 0 /\
    ((length calls <= 255)%nat -> spec_get (foldl (spec_call property) spec_init calls) cn <> 0).
Proof. apply serve_connection_allowed. Qed.

(** ** The loop over the messages ends *)

Lemma parse_frame_length s d rest :
  parse_frame s = Some (d, rest) -> (length s = 4 + length d + length rest)%nat.
Proof.
  unfold parse_frame. destruct (bool_decide _) eqn:E4; [done|].
  apply bool_decide_eq_false in E4. cbn [orb].
  destruct (_ >? _); [done|]. cbn [orb].
  destruct (Z.ltb_spec (Z.of_nat (length (drop 4 s))) (be_val (take 4 s))); [done|].
  intros [= <- <-]. rewrite length_take, !length_drop in *. lia.
Qed.

Lemma parse_loop_in_fuel s state token result : in_fuel (parse_loop s state token result).
Proof.
  remember (length s) as n eqn:Hn. assert (Hl : (length s <= n)%nat) by lia. clear Hn.
  revert s state token result Hl.
  induction n as [|n IH]; intros [|c s] state token result Hl; cbn [length] in Hl; try done; try lia.
  assert (Hs : forall st tk rs, in_fuel (parse_loop s st tk rs)) by (intros; apply IH; lia).
  assert (Hs' : forall c' s' st tk rs, s = c' :: s' -> in_fuel (parse_loop s' st tk rs))
    by (intros; subst; cbn in Hl; apply IH; lia).
  cbn [parse_loop]. unfold put_char, save_token.
  destruct state; in_fuel; try (by apply Hs); by eapply Hs'.
Qed.
Lemma parse_param_string_in_fuel p : in_fuel (parse_param_string p).
Proof.
  unfold parse_param_string. destruct p as [[|c s]|]; try done.
  apply in_fuel_bind; [apply parse_loop_in_fuel|]. intros r _. unfold save_token. in_fuel.
Qed.

Lemma find_name_in_fuel name table : in_fuel (find_name name table).
Proof. induction table as [|e table IH]; cbn; in_fuel. Qed.

Lemma populate_loop_in_fuel nt max doc t targets : in_fuel (populate_loop nt max doc t targets).
Proof.
  revert doc t. induction targets as [|[node|] targets IH]; intros doc t; cbn [populate_loop]; try done.
  unfold name_to_address. in_fuel; try apply find_name_in_fuel; apply IH.
Qed.

Lemma push_all_in_fuel l argv : in_fuel (push_all l argv).
Proof. revert argv. induction l as [|a l IH]; intros argv; cbn [push_all]; unfold push; in_fuel. Qed.

Section Ends.
Context `{Protobuf MControl} (amp_tests : list module) (name_table : list nametable_t)
  (acl : acl_root) (watchdog_ok : bool) (bound_device : option cstr) (local : option (Z * cstr))
  (callback : list cstr -> list (io (list Z)) -> list (io (list Z))).
(** A server reads from the connection and adds nothing to it. *)
Context (callback_reads : forall argv env, stream (callback argv env) `suffix_of` stream env).

Lemma parse_server_start_in_fuel data : in_fuel (parse_server_start data).
Proof. unfold parse_server_start. in_fuel. apply parse_param_string_in_fuel. Qed.
Lemma parse_single_test_in_fuel data : in_fuel (parse_single_test amp_tests name_table data).
Proof.
  unfold parse_single_test, populate_target_lists. in_fuel;
    first [apply parse_param_string_in_fuel|apply populate_loop_in_fuel].
Qed.
Lemma do_start_server_in_fuel data :
  in_fuel (do_start_server amp_tests watchdog_ok bound_device local data).
Proof.
  unfold do_start_server, terminate. in_fuel;
    first [apply parse_server_start_in_fuel|apply push_all_in_fuel].
Qed.

Lemma process_message_in_fuel cn msg data env :
  in_fuel (process_message amp_tests name_table acl watchdog_ok bound_device local callback cn msg data env).
Proof.
  unfold process_message, do_single_test. in_fuel;
    first [apply do_start_server_in_fuel|apply parse_single_test_in_fuel].
Qed.

Lemma process_message_stream cn msg data env log env' :
  process_message amp_tests name_table acl watchdog_ok bound_device local callback cn msg data env
    = Ok (log, Some env') -> stream env' `suffix_of` stream env.
Proof.
  unfold process_message. intros E.
  repeat match goal with
  | H : (if ?b then _ else _) = Ok _ |- _ => destruct b
  end; inv_res; simplify_eq; try done.
  - case_match; simplify_eq; [apply callback_reads|done].
  - destruct x as [[[m t] ps]|]; inv_res; simplify_eq; [|done]. destruct watchdog_ok; by simplify_eq.
Qed.

Lemma process_loop_in_fuel n cn env :
  bytes_ok (stream env) -> (length (stream env) < n)%nat ->
  in_fuel (process_loop amp_tests name_table acl watchdog_ok bound_device local callback n cn env).
Proof.
  revert env. induction n as [|n IH]; intros env Hb Hn; [lia|]. cbn [process_loop].
  pose proof (read_control_packet_spec env Hb) as Hs.
  destruct (parse_frame (stream env)) as [[[|d data] rest]|] eqn:Ep.
  - destruct Hs as (r & env' & -> & Hr). destruct (Z.gtb_spec r 0); [lia|done].
  - destruct Hs as (env' & -> & Hr). pose proof (parse_frame_length _ _ _ Ep) as Hl.
    destruct (parse_frame_rest _ _ _ Ep) as [pre Epre].
    assert (Hb' : bytes_ok rest) by (rewrite Epre in Hb; by apply Forall_app in Hb as [_ ?]).
    in_fuel; [apply process_message_in_fuel|]. destruct a as [log env2]. cbn in *. subst.
    match goal with H : process_message _ _ _ _ _ _ _ _ _ _ _ = _ |- _ =>
      apply process_message_stream in H as [k Hk] end.
    apply IH; rewrite Hk in *; [by apply Forall_app in Hb' as [_ ?]|].
    rewrite length_app in *. cbn in *. lia.
  - by destruct Hs as (env' & ->).
Qed.
End Ends.

(** ** A client without permissions *)

(** The answer to a message of a client with neither permission. *)
Definition refusal (msg : MControl) : served :=
  if bool_decide (m_type msg = Some TYPE_SERVER)
  then Reply MEASURED_CONTROL_FORBIDDEN (str "Requires SERVER permissions")
  else if bool_decide (m_type msg = Some TYPE_TEST)
  then Reply MEASURED_CONTROL_FORBIDDEN (str "Requires TEST permissions")
  else Reply MEASURED_CONTROL_BADREQUEST (str "Bad request").

(** The messages of a connection, up to the first that has no type. *)
Fixpoint requests `{Protobuf MControl} (packets : list (list Z)) : list MControl :=
  match packets with
  | [] => []
  | d :: packets =>
      match unpack d with
      | Some msg => if bool_decide (m_type msg = None) then [] else msg :: requests packets
      | None => []
      end
  end.

Lemma process_loop_refuses `{Protobuf MControl} amp_tests name_table acl watchdog_ok bound_device local
    callback n cn env :
  get_acl (Some acl) (Some cn) ACL_SERVER = 0 -> get_acl (Some acl) (Some cn) ACL_TEST = 0 ->
  bytes_ok (stream env) -> (length (stream env) < n)%nat ->
  process_loop amp_tests name_table acl watchdog_ok bound_device local callback n cn env
  = Ok (refusal <$> requests (parse_frames n (stream env))).
Proof.
  intros Hsv Ht. revert env. induction n as [|n IH]; intros env Hb Hn; [lia|].
  cbn [process_loop parse_frames]. pose proof (read_control_packet_spec env Hb) as Hs.
  destruct (parse_frame (stream env)) as [[[|d data] rest]|] eqn:Ep.
  - destruct Hs as (r & env' & -> & Hr). destruct (Z.gtb_spec r 0); [lia|done].
  - destruct Hs as (env' & -> & Hr). pose proof (parse_frame_length _ _ _ Ep) as Hl.
    destruct (parse_frame_rest _ _ _ Ep) as [pre Epre].
    destruct (Z.gtb_spec (Z.of_nat (length (d :: data))) 0); [|cbn in *; lia].
    cbn [requests]. destruct (unpack (d :: data)) as [msg|]; [|done].
    case_bool_decide; [done|]. unfold process_message, refusal at 1. rewrite Hsv, Ht. cbn [negb Z.eqb].
    rewrite <- Hr. assert (Hb' : bytes_ok (stream env')).
    { rewrite Hr. rewrite Epre in Hb. by apply Forall_app in Hb as [_ ?]. }
    specialize (IH env' Hb' ltac:(cbn in Hl; rewrite Hr; lia)).
    unfold refusal. cbn [fmap list_fmap].
    repeat case_bool_decide; rewrite bind_Ok; cbn [fst snd]; rewrite IH, bind_Ok; done.
  - by destruct Hs as (env' & ->).
Qed.

(** A client to which the access control list gives neither permission gets, for each
    message it sends and in order, one refusal (403 for a server or a test, 400 for
    anything else), nothing is started, and the server reads on until the connection
    ends or a message has no type. *)
Theorem control_refuses_strangers `{Protobuf MControl} amp_tests name_table calls watchdog_ok bound_device
    local callback cn env :
  (length calls <= 255)%nat -> bytes_ok (stream env) ->
  spec_get (foldl (spec_call ACL_SERVER) spec_init calls) cn = 0 ->
  spec_get (foldl (spec_call ACL_TEST) spec_init calls) cn = 0 ->
  process_control_message amp_tests name_table (foldl do_call initialise_acl calls) watchdog_ok
    bound_device local callback cn env
  = Ok (refusal <$> requests (parse_frames (S (length (stream env))) (stream env))).
Proof.
  intros Hl Hb Hs Ht. apply process_loop_refuses; [..|done|lia].
  - by rewrite get_acl_rules.
  - by rewrite get_acl_rules.
Qed.

(** The loop that serves a control connection ends for every byte stream, every list
    of tests and names and every access control list, whatever the requests in it,
    provided a test server only reads from the connection. *)
Theorem control_connection_ends `{Protobuf MControl} amp_tests name_table acl watchdog_ok bound_device
    local callback cn env :
  (forall argv env, stream (callback argv env) `suffix_of` stream env) -> bytes_ok (stream env) ->
  in_fuel (process_control_message amp_tests name_table acl watchdog_ok bound_device local callback cn env).
Proof. intros Hc Hb. apply process_loop_in_fuel; [done..|lia]. Qed.

(** ** Client and server *)

Lemma mtyped_not_init (m : MControl) t : m_type m = Some t -> m <> INIT.
Proof. intros Ht ->. discriminate Ht. Qed.

Section Exchange.
Context `{Protobuf MControl, !ProtobufLaws MControl}.

Definition msmall (m : MControl) : Prop := Z.of_nat (length (pack m)) <= MAX_CONTROL_MESSAGE_SIZE.
(** What was written arrives, followed by [rest]. *)
Definition delivered (s : Z * list Z * list (io Z)) (renv : list (io (list Z))) (rest : list Z) : Prop :=
  let '(r, out, _) := s in 0 <= r /\ bytes_ok rest /\ stream renv = out ++ rest.

Lemma measured_arrives m t wenv renv rest :
  valid m -> m_type m = Some t -> msmall m -> delivered (send_measured wenv m) renv rest ->
  exists renv', read_control_packet renv = (Z.of_nat (length (pack m)), pack m, renv') /\
                stream renv' = rest.
Proof.
  unfold delivered, send_measured. intros Hv Ht Hs.
  destruct (write_control_packet wenv (pack m)) as [[r out] wenv'] eqn:Ew. intros (Hr & Hb & He).
  eapply packet_delivered; eauto using mtyped_not_init.
Qed.

Lemma read_response_arrives code text wenv renv rest :
  valid (response_msg code text) -> msmall (response_msg code text) ->
  delivered (send_measured_response wenv code text) renv rest ->
  exists renv', read_measured_response renv = Ok (0, Some (code, text), renv') /\ stream renv' = rest.
Proof.
  intros Hv Hs Hd. eapply measured_arrives in Hd as (renv' & Hr & Hst); [|done..].
  exists renv'. split; [|done]. unfold read_measured_response, parse_measured_response.
  rewrite Hr, (proj2 (Z.ltb_ge _ _)) by lia. by rewrite unpack_pack.
Qed.
End Exchange.

(** A SERVER request that was sent whole reaches the server with the test and the
    parameter string of the client; the server it starts gets the name of the test,
    the device and local address of the connection, the client's arguments and the
    configured ones, in this order, and it is started exactly when the test is
    registered and has a server, the watchdog can be set, and all of it fits into
    the 127 entries before the NULL. *)
Theorem server_request_roundtrip `{Protobuf MControl, !ProtobufLaws MControl} amp_tests wenv renv rest
    type params ps m device local :
  valid (server_msg type (Some params)) -> msmall (server_msg type (Some params)) ->
  delivered (send_server_start wenv type (Some params)) renv rest ->
  parse_param_string (Some params) = Ok ps ->
  get_test_by_id amp_tests type = Some m -> server_callback m = true ->
  let argv := [test_name (def m)]
    ++ (match device with Some d => [str "-I"; d] | None => [] end)
    ++ (match local with
        | Some (f, text) => if f =? AF_INET then [str "-4"; text]
                            else if f =? AF_INET6 then [str "-6"; text] else []
        | None => []
        end)
    ++ default [] ps ++ default [] (server_params m) in
  exists data renv', read_control_packet renv = (Z.of_nat (length data), data, renv') /\
    stream renv' = rest /\
    do_start_server amp_tests true device local data =
      (if (length argv <? MAX_TEST_ARGS)%nat then Ok (Some argv) else Fault OutOfBounds).
Proof.
  intros Hv Hs Hd Hp Hm Hc argv. eapply measured_arrives in Hd as (renv' & Hr & Hst); [|done..].
  exists (pack (server_msg type (Some params))), renv'. split_and!; [done..|].
  unfold do_start_server, parse_server_start. rewrite unpack_pack by done. cbn [m_type server_msg m_server].
  rewrite bool_decide_eq_true_2 by done. cbn [negb]. rewrite Hp, !bind_Ok, Hm, Hc. cbn [negb].
  rewrite <- (fill_argv argv (fun argv => Ok (Some argv))) by done. unfold argv.
  rewrite push_all_app. change (push_all [test_name (def m)] []) with (argv ← push (test_name (def m)) []; Ok argv).
  destruct (push (test_name (def m)) []); [|done]. rewrite !bind_Ok.
  repeat (try rewrite push_all_app; match goal with
    |- push_all ?x ?b ≫= _ = _ => destruct (push_all x b); [rewrite !bind_Ok|done] end).
  done.
Qed.

(** The client that asks for a single test prints the result the server measured when
    the server accepted the request and ran the test, and reports the code and text of
    the server when it refused to start the test or the test failed, however the
    connection cuts the messages up. *)
Theorem remote_client_reports `{Protobuf MControl, !ProtobufLaws MControl} test_id targets params wenv
    code text renv reply rest :
  0 <= fst (fst (send_measured wenv (test_msg test_id targets params))) ->
  valid (response_msg code text) -> msmall (response_msg code text) ->
  valid reply -> msmall reply -> bytes_ok rest ->
  stream renv = frame (pack (response_msg code text)) ++ frame (pack reply) ++ rest ->
  (code <> MEASURED_CONTROL_OK ->
   remote_client test_id targets params wenv renv = Ok (StartError code text)) /\
  (code = MEASURED_CONTROL_OK -> forall data, reply = mresult_msg test_id data ->
   remote_client test_id targets params wenv renv = Ok (Printed data)) /\
  (code = MEASURED_CONTROL_OK -> forall c t, reply = response_msg c t ->
   remote_client test_id targets params wenv renv = Ok (RunError c t)).
Proof.
  intros Hw Hv Hs Hv' Hs' Hb Hst. unfold remote_client.
  destruct (send_measured wenv _) as [[r out] wenv']. cbn in Hw. rewrite (proj2 (Z.ltb_ge r 0)) by lia.
  destruct (packet_framed (response_msg code text) renv (frame (pack reply) ++ rest))
    as (renv1 & Hr1 & Hst1); [done|by eapply mtyped_not_init|done| |done|].
  { apply Forall_app. split; [by apply frame_bytes, pack_bytes|done]. }
  assert (Hrd : read_measured_response renv = Ok (0, Some (code, text), renv1)).
  { unfold read_measured_response, parse_measured_response.
    rewrite Hr1, (proj2 (Z.ltb_ge _ _)) by lia. by rewrite unpack_pack. }
  rewrite Hrd, bind_Ok. change (0 <? 0) with false. cbv iota.
  assert (Hnext : forall t, m_type reply = Some t -> exists renv2,
    read_control_packet renv1 = (Z.of_nat (length (pack reply)), pack reply, renv2)).
  { intros t Ht. destruct (packet_framed reply renv1 rest) as (renv2 & -> & _); eauto using mtyped_not_init. }
  split_and!.
  - intros Hc. by rewrite (proj2 (Z.eqb_neq _ _) Hc).
  - intros -> data ->. destruct (Hnext _ eq_refl) as [renv2 ->]. cbn [Z.eqb negb].
    rewrite Z.eqb_refl, (proj2 (Z.ltb_ge _ _)), unpack_pack by (done || lia). cbn [negb].
    unfold client_result. cbn. by rewrite Z.eqb_refl.
  - intros -> c t ->. destruct (Hnext _ eq_refl) as [renv2 ->].
    rewrite Z.eqb_refl, (proj2 (Z.ltb_ge _ _)), unpack_pack by (done || lia). cbn [negb].
    unfold client_result, parse_measured_response. cbn. by rewrite unpack_pack.
Qed.

(** *** A codec for these messages *)

#[export] Instance Server_countable : Countable Server :=
  inj_countable' (fun h => (sv_test_type h, sv_params h)) (fun '(a, b) => Build_Server a b)
    (fun h => match h with Build_Server _ _ => eq_refl end).
#[export] Instance Test_countable : Countable Test :=
  inj_countable' (fun h => (mt_test_type h, mt_targets h, mt_params h)) (fun '(a, b, c) => Build_Test a b c)
    (fun h => match h with Build_Test _ _ _ => eq_refl end).
#[export] Instance Response_countable : Countable Response :=
  inj_countable' (fun h => (rs_code h, rs_message h)) (fun '(a, b) => Build_Response a b)
    (fun h => match h with Build_Response _ _ => eq_refl end).
#[export] Instance MResult_countable : Countable MResult :=
  inj_countable' (fun h => (mr_test_type h, mr_result h)) (fun '(a, b) => Build_MResult a b)
    (fun h => match h with Build_MResult _ _ => eq_refl end).
#[export] Instance MControl_countable : Countable MControl :=
  inj_countable' (fun c => (m_type c, m_server c, m_test c, m_response c, m_result c))
    (fun '(a, b, c, d, e) => Build_MControl a b c d e)
    (fun c => match c with Build_MControl _ _ _ _ _ => eq_refl end).

Definition measured_coding : Protobuf MControl := coding.
Lemma measured_coding_laws : @ProtobufLaws MControl _ measured_coding.
Proof. apply coding_laws. repeat split. Qed.

(** *** Examples *)

Definition throughput_module : module := {|
  id := 6; def := {| test_name := str "throughput"; max_targets := 1; min_targets := 1 |};
  max_duration := 120; server_callback := true; server_params := Some [str "-w"] |}.
Definition our_tests : list module := [icmp_module; throughput_module].
Definition one_rule : list acl_call :=
  [ {| ac_fqdn := str ".example.org"; ac_property := ACL_SERVER; ac_value := 1 |} ].
(** The requests of a client, byte by byte. *)
Definition sends (ms : list MControl) : list (io (list Z)) :=
  bytewise (concat ((fun m => frame (@pack _ measured_coding m)) <$> ms)).
Definition keep (argv : list cstr) (env : list (io (list Z))) : list (io (list Z)) := env.
Definition local_v4 : option (Z * cstr) := Some (AF_INET, str "192.0.2.1").

Definition two_requests : list (io (list Z)) :=
  sends [server_msg 6 (Some (str "-p 80")); test_msg 2 [] None].
Definition served_log : list served :=
  [ Reply MEASURED_CONTROL_OK (str "OK");
    ServerRun (map str ["throughput"; "-4"; "192.0.2.1"; "-p"; "80"; "-w"]%string);
    Reply MEASURED_CONTROL_FORBIDDEN (str "Requires TEST permissions") ].

Lemma control_runs_only_what_is_allowed_witness :
  @serve_connection measured_coding our_tests [] (foldl do_call initialise_acl one_rule) true None local_v4
    keep trusting 3 two_requests fresh_world = Ok served_log /\
  exists cn, @peer_certificate trusting 3 = Some {| subject_cn := Some cn |} /\ cstr_ok cn /\
    spec_get (foldl (spec_call ACL_SERVER) spec_init one_rule) cn <> 0.
Proof.
  assert (E : @serve_connection measured_coding our_tests [] (foldl do_call initialise_acl one_rule) true None
    local_v4 keep trusting 3 two_requests fresh_world = Ok served_log) by (vm_compute; reflexivity).
  split; [exact E|].
  destruct (@control_runs_only_what_is_allowed measured_coding trusting our_tests [] one_rule true None
    local_v4 keep 3 two_requests fresh_world served_log
    (ServerRun (map str ["throughput"; "-4"; "192.0.2.1"; "-p"; "80"; "-w"]%string)) ACL_SERVER)
    as (_ & _ & cn & Hc & Hn & _ & Hcn).
  - lia.
  - exact E.
  - apply list_elem_of_further, list_elem_of_here.
  - reflexivity.
  - exists cn. split; [exact Hc|]. split; [exact Hn|]. apply Hcn. vm_compute. lia.
Defined.

Lemma control_refuses_strangers_witness :
  @process_control_message measured_coding our_tests [] (foldl do_call initialise_acl one_rule) true None
    local_v4 keep (str "stranger.net") two_requests
  = Ok [ Reply MEASURED_CONTROL_FORBIDDEN (str "Requires SERVER permissions");
         Reply MEASURED_CONTROL_FORBIDDEN (str "Requires TEST permissions") ].
Proof.
  rewrite (@control_refuses_strangers measured_coding our_tests [] one_rule).
  - vm_compute. reflexivity.
  - vm_compute. lia.
  - apply bytes_ok_decide. vm_compute. reflexivity.
  - vm_compute. reflexivity.
  - vm_compute. reflexivity.
Defined.

Lemma control_connection_ends_witness :
  in_fuel (@process_control_message measured_coding our_tests [] initialise_acl true None local_v4 keep
    (str "amp.example.org") two_requests).
Proof.
  apply (@control_connection_ends measured_coding).
  - intros argv env. by exists [].  
  - apply bytes_ok_decide. vm_compute. reflexivity.
Defined.

Lemma server_request_roundtrip_witness :
  let renv := sends [server_msg 6 (Some (str "-p 80"))] in
  exists data renv', read_control_packet renv = (Z.of_nat (length data), data, renv') /\ stream renv' = [] /\
    @do_start_server measured_coding our_tests true (Some (str "eth0")) local_v4 data
    = Ok (Some (map str ["throughput"; "-I"; "eth0"; "-4"; "192.0.2.1"; "-p"; "80"; "-w"]%string)).
Proof.
  set (P := measured_coding). assert (L : @ProtobufLaws MControl _ P) by apply measured_coding_laws.
  apply (@server_request_roundtrip P L our_tests [Moved 4; Moved 100000]
    (sends [server_msg 6 (Some (str "-p 80"))]) [] 6 (str "-p 80") (Some [str "-p"; str "80"]) throughput_module).
  - apply (bool_decide_unpack (mcontrol_valid _)). vm_compute. exact I.
  - unfold msmall. vm_compute. discriminate.
  - vm_compute. split; [discriminate|]. split; [constructor|reflexivity].
  - vm_compute. reflexivity.
  - reflexivity.
  - reflexivity.
Defined.

Lemma remote_client_reports_witness :
  @remote_client measured_coding 2 [str "example.org"] None [Moved 4; Moved 100000]
    (sends [response_msg 200 (str "OK"); mresult_msg 2 [5; 6; 7]]) = Ok (Printed [5; 6; 7]).
Proof.
  set (P := measured_coding). assert (L : @ProtobufLaws MControl _ P) by apply measured_coding_laws.
  destruct (@remote_client_reports P L 2 [str "example.org"] None [Moved 4; Moved 100000] 200 (str "OK")
    (sends [response_msg 200 (str "OK"); mresult_msg 2 [5; 6; 7]]) (mresult_msg 2 [5; 6; 7]) [])
    as (_ & H & _).
  - vm_compute. discriminate.
  - apply (bool_decide_unpack (mcontrol_valid _)). vm_compute. exact I.
  - unfold msmall. vm_compute. discriminate.
  - apply (bool_decide_unpack (mcontrol_valid _)). vm_compute. exact I.
  - unfold msmall. vm_compute. discriminate.
  - constructor.
  - vm_compute. reflexivity.
  - apply (H eq_refl [5; 6; 7] eq_refl).
Defined.

(** *** What the peer can break *)

(** A RESPONSE without its text makes the client copy a NULL string. *)
Lemma response_without_text_faults `{Protobuf MControl, !ProtobufLaws MControl} code :
  0 <= code < 4294967296 ->
  parse_measured_response (pack
    {| m_type := Some TYPE_RESPONSE; m_server := None; m_test := None;
       m_response := Some {| rs_code := Some code; rs_message := None |}; m_result := None |})
  = Fault NullDeref.
Proof.
  intros Hc. unfold parse_measured_response. rewrite unpack_pack; [done|].
  repeat split; cbn; unfold TYPE_RESPONSE; lia.
Qed.

(** A client with SERVER permission and 124 arguments overflows the argument vector. *)
Example server_arguments_overflow :
  @do_start_server measured_coding our_tests true None local_v4
    (@pack _ measured_coding (server_msg 6 (Some (concat (repeat (str "a ") 123) ++ str "a"))))
  = Fault OutOfBounds.
Proof. vm_compute. reflexivity. Qed.

(** A client with TEST permission that names no target stops the process on an
    assertion, after it was told that all is well. *)
Example test_without_targets_asserts :
  @process_control_message measured_coding our_tests []
    (foldl do_call initialise_acl [ {| ac_fqdn := str "all"; ac_property := ACL_TEST; ac_value := 1 |} ])
    true None local_v4 keep (str "amp.example.org") (sends [test_msg 2 [] None])
  = Fault AssertFail.
Proof. vm_compute. reflexivity. Qed.

(** A result that does not unpack is dereferenced all the same. *)
Example undecodable_result_faults :
  @remote_client measured_coding 2 [] None [Moved 4; Moved 100000]
    (bytewise (frame (@pack _ measured_coding (response_msg 200 (str "OK"))) ++ frame [0; 0]))
  = Fault NullDeref.
Proof. vm_compute. reflexivity. Qed.
