(* ===== verification/Files.v ===== *)
(** The disk, the network and the clock as the processes of the client see them, and
    functions that use them.

    A [machine] has files and directories, the errors of the calls to come (a call
    takes the first; when there are none left calls work), the transfers that the
    servers will give to libcurl, and a log of what was done.  A function that asks
    for a transfer when none is left waits for ever: the fault [OutOfFuel]. *)
From stdpp Require Import gmap.
From S2P Require Import Prelude CLib Testlib.
#[local] Open Scope Z_scope.

(** ** State *)

Record file : Set := { bytes : list Z; mtime : Z; mode : Z }.
(** The options of a curl handle that matter here: [since] is CURLOPT_TIMEVALUE with
    CURL_TIMECOND_IFMODSINCE, [verify] both CURLOPT_SSL_VERIFYPEER and VERIFYHOST. *)
Record request : Set := {
  url : cstr; since : option Z; cainfo : option cstr; client_cert : option (cstr * cstr);
  verify : bool; post_data : option (list Z)
}.
(** What became of a request: whether curl_easy_perform() is CURLE_OK, and what
    curl_easy_getinfo() says.  The length is -1 when the server did not give one. *)
Record transfer : Set := {
  t_ok : bool; t_code : Z; t_length : Z; t_unmet : bool; t_body : list Z
}.
Inductive action : Set :=
| Requested (r : request) | Slept (seconds : Z) | Reload | Armed (seconds signal : Z) | Disarmed | Timer (seconds : Z)
| FlushFailed (path : list ascii).
Record machine : Set := {
  files : gmap (list ascii) file; dirs : gset (list ascii); clock : Z; mask : Z;
  errors : list (option Z); net : list transfer; log : list action
}.
Definition with_files (w : machine) (f : gmap (list ascii) file) : machine :=
  {| files := f; dirs := dirs w; clock := clock w; mask := mask w; errors := errors w; net := net w; log := log w |}.
Definition with_dirs (w : machine) (d : gset (list ascii)) : machine :=
  {| files := files w; dirs := d; clock := clock w; mask := mask w; errors := errors w; net := net w; log := log w |}.
Definition with_mask (w : machine) (m : Z) : machine :=
  {| files := files w; dirs := dirs w; clock := clock w; mask := m; errors := errors w; net := net w; log := log w |}.
Definition with_errors (w : machine) (e : list (option Z)) : machine :=
  {| files := files w; dirs := dirs w; clock := clock w; mask := mask w; errors := e; net := net w; log := log w |}.
Definition with_net (w : machine) (n : list transfer) : machine :=
  {| files := files w; dirs := dirs w; clock := clock w; mask := mask w; errors := errors w; net := n; log := log w |}.
Definition with_log (w : machine) (l : list action) : machine :=
  {| files := files w; dirs := dirs w; clock := clock w; mask := mask w; errors := errors w; net := net w; log := l |}.

(** ** Calls *)

Definition io (A : Type) : Type := machine -> res (A * machine).
#[export] Instance io_ret : MRet io := fun A a w => Ok (a, w).
#[export] Instance io_bind : MBind io := fun A B k m w =>
  match m w with Ok (a, w) => k a w | Fault f => Fault f end.
Definition lift {A} (m : res A) : io A := fun w =>
  match m with Ok a => Ok (a, w) | Fault f => Fault f end.
Definition state {A} (f : machine -> A * machine) : io A := fun w => Ok (f w).
Definition note (e : action) : io unit := state (fun w => (tt, with_log w (log w ++ [e]))).

(** The error of the next call, if it has one. *)
Definition call : io (option Z) :=
  state (fun w => match errors w with [] => (None, w) | e :: es => (e, with_errors w es) end).
(** A call of which only success matters. *)
Definition works : io bool := e ← call; mret (bool_decide (e = None)).

Definition ENOENT : Z := 2.
Definition EACCES : Z := 13.
(** The times of directories are not kept: they count as just changed. *)
Inductive stat_t : Set := Failed (errno : Z) | Directory (mtime : Z) | File (f : file).
(** What is not there is known from the files: no other call error says so. *)
Definition stat (path : list ascii) : io stat_t :=
  e ← call;
  match e with
  | Some errno => mret (Failed (if errno =? ENOENT then EACCES else errno))
  | None =>
      state (fun w => (match files w !! path with
                       | Some f => File f
                       | None => if bool_decide (path ∈ dirs w) then Directory (clock w) else Failed ENOENT
                       end, w))
  end.
Definition mkdir (path : list ascii) : io bool :=
  ok ← works;
  if ok : bool then state (fun w => (true, with_dirs w ({[path]} ∪ dirs w))) else mret false.
(** fopen() for writing: the file is there and empty; a new one has the permissions
    that the umask leaves. *)
Definition opened (w : machine) (path : list ascii) : machine :=
  let mode := match files w !! path with Some f => mode f | None => Z.land 438 (Z.lnot (mask w)) end in
  with_files w (<[path := {| bytes := []; mtime := clock w; mode := mode |}]> (files w)).
Definition fopen_w (path : list ascii) : io bool :=
  ok ← works;
  if ok : bool then state (fun w => if bool_decide (path ∈ dirs w) then (false, w) else (true, opened w path))
  else mret false.
(** Writing to the file that was opened.  What stdio has not put on the disk yet counts as
    written: the loss of it shows when the file is closed.  A write that fails before
    that is an error of the function that writes (a call that fails, or a transfer that
    does). *)
Definition written (w : machine) (path : list ascii) (b : list Z) : machine :=
  with_files w (alter (fun f => {| bytes := bytes f ++ b; mtime := clock w; mode := mode f |}) path (files w)).
Definition fwrite (path : list ascii) (b : list Z) : io unit := state (fun w => (tt, written w path b)).
(** fclose() of a file that was written.  When the last of it cannot be flushed the call
    fails, and only the first bytes (as many as the error says) are in the file. *)
Definition cut (w : machine) (path : list ascii) (n : nat) : machine :=
  with_files w (alter (fun f => {| bytes := take n (bytes f); mtime := mtime f; mode := mode f |}) path (files w)).
Definition fclose (path : list ascii) : io unit :=
  e ← call;
  match e with
  | None => mret tt
  | Some n => state (fun w => (tt, with_log (cut w path (Z.to_nat n)) (log w ++ [FlushFailed path])))
  end.
(** The content of a file opened for reading. *)
Definition fopen_r (path : list ascii) : io (option (list Z)) :=
  ok ← works; if ok : bool then state (fun w => (bytes <$> files w !! path, w)) else mret None.
Definition unlink (path : list ascii) : io bool :=
  ok ← works;
  if ok : bool then state (fun w => (true, with_files w (delete path (files w)))) else mret false.
Definition rename (old new : list ascii) : io bool :=
  ok ← works;
  if ok : bool then
    state (fun w => match files w !! old with
                    | Some f => if bool_decide (new ∈ dirs w) then (false, w)
                                else (true, with_files w (<[new := f]> (delete old (files w))))
                    | None => (false, w)
                    end)
  else mret false.
Definition umask (m : Z) : io Z := state (fun w => (mask w, with_mask w m)).
Definition sleep (seconds : Z) : io unit := note (Slept seconds).

(** curl_easy_perform(), with what arrives written to a file. *)
Definition next_transfer : io transfer := fun w =>
  match net w with [] => Fault OutOfFuel | t :: ts => Ok (t, with_net w ts) end.
Definition perform (r : request) (dest : option (list ascii)) : io transfer :=
  _ ← note (Requested r);
  t ← next_transfer;
  _ ← (match dest with Some path => fwrite path (t_body t) | None => mret tt end);
  mret t.

(** check_exists() of src/common/testlib.c on the disk. *)
Definition exists_ (path : list ascii) (strict : bool) : io Z :=
  s ← stat path;
  mret (check_exists (match s with
                      | Failed e => if e =? ENOENT then StatMissing else StatError
                      | Directory _ => StatFile false false 4096
                      | File f => StatFile true false (Z.of_nat (length (bytes f)))
                      end) strict).

(** A directory that is there, or can be made. *)
Definition ensure_dir (dir : list ascii) : io bool :=
  s ← stat dir;
  match s with
  | Failed e => if e =? ENOENT then mkdir dir else mret false
  | _ => mret true
  end.

(** ** Reasoning *)

(** [post waits m w Q]: run from [w], [m] does nothing undefined, [Q] holds if it returns,
    and it does return unless [waits]. *)
Definition post {A} (waits : Prop) (m : io A) (w : machine) (Q : A -> machine -> Prop) : Prop :=
  match m w with Ok (a, w') => Q a w' | Fault f => f = OutOfFuel /\ waits end.

Section Post.
Context {waits : Prop}.
#[local] Abbreviation post := (post waits).

Lemma post_bind {A B} (m : io A) (k : A -> io B) w Q :
  post m w (fun a w => post (k a) w Q) -> post (m ≫= k) w Q.
Proof. unfold post, mbind, io_bind. by destruct (m w) as [[a w']|]. Qed.
Lemma post_ret {A} (a : A) w (Q : A -> machine -> Prop) : Q a w -> post (mret a) w Q.
Proof. done. Qed.
Lemma post_mono {A} (m : io A) w (P Q : A -> machine -> Prop) :
  (forall a w, P a w -> Q a w) -> post m w P -> post m w Q.
Proof. unfold post. destruct (m w) as [[a w']|]; auto. Qed.
Lemma post_Ok {A} (m : io A) w Q a w' : post m w Q -> m w = Ok (a, w') -> Q a w'.
Proof. intros H E. unfold post in H. by rewrite E in H. Qed.

Lemma post_returns {A} (m : io A) w (Q : A -> machine -> Prop) :
  post m w Q -> ~ waits -> exists a w', m w = Ok (a, w') /\ Q a w'.
Proof. unfold post. destruct (m w) as [[a w']|]; [eauto|tauto]. Qed.
End Post.

(** What holds between the machines before and after, whatever happens in between. *)
Definition keeps {A} (R : machine -> machine -> Prop) (m : io A) : Prop :=
  forall w, post True m w (fun _ w' => R w w').

Section Keeps.
Context (R : machine -> machine -> Prop) `{!PreOrder R}.

Lemma keeps_ret {A} (a : A) : keeps R (mret a).
Proof. intros w. by apply post_ret. Qed.
Lemma keeps_bind {A B} (m : io A) (k : A -> io B) :
  keeps R m -> (forall a, keeps R (k a)) -> keeps R (m ≫= k).
Proof.
  intros Hm Hk w. apply post_bind. eapply post_mono; [|apply Hm]. intros a w1 H1.
  eapply post_mono; [|apply Hk]. intros b w2 H2. by transitivity w1.
Qed.
Lemma keeps_if {A} (b : bool) (m n : io A) : keeps R m -> keeps R n -> keeps R (if b then m else n).
Proof. by destruct b. Qed.
End Keeps.

(** What each call can do.  The errors that are left stay open. *)
Section Calls.
Context {waits : Prop}.
#[local] Abbreviation post := (post waits).
Lemma with_errors_same w : with_errors w (errors w) = w.
Proof. by destruct w. Qed.
Lemma post_state {A} (f : machine -> A * machine) w (Q : A -> machine -> Prop) :
  Q (fst (f w)) (snd (f w)) -> post (state f) w Q.
Proof. unfold post, state. by destruct (f w). Qed.
Lemma post_call w (Q : option Z -> machine -> Prop) : (forall e es, Q e (with_errors w es)) -> post call w Q.
Proof.
  intros H. apply post_state. destruct (errors w) as [|e es] eqn:E; cbn; [|apply H].
  rewrite <- (with_errors_same w). apply H.
Qed.
Lemma post_works w (Q : bool -> machine -> Prop) : (forall ok es, Q ok (with_errors w es)) -> post works w Q.
Proof. intros H. apply post_bind, post_call. intros e es. apply post_ret, H. Qed.
Lemma post_stat path w (Q : stat_t -> machine -> Prop) :
  (forall e es, e <> ENOENT -> Q (Failed e) (with_errors w es)) ->
  (forall es, files w !! path = None -> path ∉ dirs w -> Q (Failed ENOENT) (with_errors w es)) ->
  (forall f es, files w !! path = Some f -> Q (File f) (with_errors w es)) ->
  (forall es, files w !! path = None -> path ∈ dirs w -> Q (Directory (clock w)) (with_errors w es)) ->
  post (stat path) w Q.
Proof.
  intros H1 H0 H2 H3. apply post_bind, post_call. intros [e|] es.
  { apply post_ret, H1. destruct (Z.eqb_spec e ENOENT); done. }
  apply post_state. cbn. destruct (files w !! path) eqn:E; [by apply H2|].
  case_bool_decide; [by apply H3|by apply H0].
Qed.
Lemma post_mkdir path w (Q : bool -> machine -> Prop) :
  (forall es, Q false (with_errors w es)) ->
  (forall es, Q true (with_dirs (with_errors w es) ({[path]} ∪ dirs w))) -> post (mkdir path) w Q.
Proof. intros H1 H2. apply post_bind, post_works. intros [] es; [apply post_state, H2|apply post_ret, H1]. Qed.
Lemma post_fopen_w path w (Q : bool -> machine -> Prop) :
  (forall es, Q false (with_errors w es)) -> (forall es, Q true (opened (with_errors w es) path)) ->
  post (fopen_w path) w Q.
Proof.
  intros H1 H2. apply post_bind, post_works. intros [] es; [|apply post_ret, H1]. apply post_state.
  case_bool_decide; [apply H1|apply H2].
Qed.
Lemma post_fclose path w (Q : unit -> machine -> Prop) :
  (forall es, Q tt (with_errors w es)) ->
  (forall n es, Q tt (with_log (cut (with_errors w es) path n) (log w ++ [FlushFailed path]))) -> post (fclose path) w Q.
Proof.
  intros H1 H2. apply post_bind, post_call. intros [n|] es; [apply post_state, H2|apply post_ret, H1].
Qed.
Lemma post_fopen_r path w (Q : option (list Z) -> machine -> Prop) :
  (forall es, Q None (with_errors w es)) -> (forall es, Q (bytes <$> files w !! path) (with_errors w es)) ->
  post (fopen_r path) w Q.
Proof. intros H1 H2. apply post_bind, post_works. intros [] es; [apply post_state, H2|apply post_ret, H1]. Qed.
Lemma post_unlink path w (Q : bool -> machine -> Prop) :
  (forall es, Q false (with_errors w es)) ->
  (forall es, Q true (with_files (with_errors w es) (delete path (files w)))) -> post (unlink path) w Q.
Proof. intros H1 H2. apply post_bind, post_works. intros [] es; [apply post_state, H2|apply post_ret, H1]. Qed.
Lemma post_rename old new w (Q : bool -> machine -> Prop) :
  (forall es, Q false (with_errors w es)) ->
  (forall f es, files w !! old = Some f ->
     Q true (with_files (with_errors w es) (<[new := f]> (delete old (files w))))) -> post (rename old new) w Q.
Proof.
  intros H1 H2. apply post_bind, post_works. intros [] es; [|apply post_ret, H1]. apply post_state.
  cbn. destruct (files w !! old) eqn:E; [|apply H1]. case_bool_decide; [apply H1|by apply H2].
Qed.
Lemma post_perform r dest w (Q : transfer -> machine -> Prop) :
  (net w = [] -> waits) ->
  (forall t ts, net w = t :: ts ->
     let w := with_net (with_log w (log w ++ [Requested r])) ts in
     Q t (match dest with Some path => written w path (t_body t) | None => w end)) -> post (perform r dest) w Q.
Proof.
  intros Hw H. apply post_bind, post_state, post_bind. unfold Files.post, next_transfer. cbn.
  destruct (net w) as [|t ts] eqn:E; [by auto|]. specialize (H t ts eq_refl). by destruct dest.
Qed.
End Calls.

(** ** When no call fails *)

Lemma bind_run {A B} (m : io A) (k : A -> io B) w a w' : m w = Ok (a, w') -> (m ≫= k) w = k a w'.
Proof. unfold mbind, io_bind. by intros ->. Qed.
Lemma works_run w : errors w = [] -> works w = Ok (true, w).
Proof. intros He. unfold works. erewrite bind_run; [|unfold call, state; by rewrite He]. done. Qed.
Lemma stat_run path w :
  errors w = [] ->
  stat path w = Ok (match files w !! path with
                    | Some f => File f
                    | None => if bool_decide (path ∈ dirs w) then Directory (clock w) else Failed ENOENT
                    end, w).
Proof. intros He. unfold stat. erewrite bind_run; [|unfold call, state; by rewrite He]. done. Qed.
Lemma mkdir_run path w : errors w = [] -> mkdir path w = Ok (true, with_dirs w ({[path]} ∪ dirs w)).
Proof. intros He. unfold mkdir. by erewrite bind_run by by apply works_run. Qed.
Lemma fopen_w_run path w : errors w = [] -> path ∉ dirs w -> fopen_w path w = Ok (true, opened w path).
Proof.
  intros He Hd. unfold fopen_w. erewrite bind_run by by apply works_run. unfold state.
  by rewrite bool_decide_eq_false_2.
Qed.
Lemma fclose_run path w : errors w = [] -> fclose path w = Ok (tt, w).
Proof. intros He. unfold fclose. erewrite bind_run; [|unfold call, state; by rewrite He]. done. Qed.
Lemma fopen_r_run path w : errors w = [] -> fopen_r path w = Ok (bytes <$> files w !! path, w).
Proof. intros He. unfold fopen_r. by erewrite bind_run by by apply works_run. Qed.
Lemma unlink_run path w : errors w = [] -> unlink path w = Ok (true, with_files w (delete path (files w))).
Proof. intros He. unfold unlink. by erewrite bind_run by by apply works_run. Qed.
Lemma rename_run old new f w :
  errors w = [] -> files w !! old = Some f -> new ∉ dirs w ->
  rename old new w = Ok (true, with_files w (<[new := f]> (delete old (files w)))).
Proof.
  intros He Hf Hd. unfold rename. erewrite bind_run by by apply works_run. unfold state.
  by rewrite Hf, bool_decide_eq_false_2.
Qed.
Lemma perform_run r dest w t ts :
  net w = t :: ts ->
  perform r dest w =
    let w := with_net (with_log w (log w ++ [Requested r])) ts in
    Ok (t, match dest with Some path => written w path (t_body t) | None => w end).
Proof.
  intros Hn. unfold perform. erewrite bind_run by done. erewrite bind_run; [|unfold next_transfer; cbn; by rewrite Hn].
  by destruct dest.
Qed.
(** One call further. *)
Ltac run H := erewrite bind_run by (apply H; done); cbn beta iota.

(** ** Frames *)

(** A relation that no call breaks, as long as only files in [allowed] are changed. *)
Class Frame (R : machine -> machine -> Prop) (allowed : list ascii -> Prop) : Prop := {
  frame_preorder :: PreOrder R;
  frame_errors w es : R w (with_errors w es);
  frame_dirs w ds : R w (with_dirs w ds);
  frame_mask w m : R w (with_mask w m);
  frame_net w ts : R w (with_net w ts);
  frame_request w r : R w (with_log w (log w ++ [Requested r]));
  frame_flush w p : R w (with_log w (log w ++ [FlushFailed p]));
  frame_files w p fs : allowed p -> (forall q, q <> p -> fs !! q = files w !! q) -> R w (with_files w fs)
}.

Section Framed.
Context {R : machine -> machine -> Prop} {allowed : list ascii -> Prop} `{!Frame R allowed}.

Lemma keeps_state {A} (f : machine -> A * machine) : (forall w, R w (snd (f w))) -> keeps R (state f).
Proof. intros H w. apply post_state, H. Qed.
Lemma keeps_call : keeps R call.
Proof. intros w. apply post_call. intros. apply frame_errors. Qed.
Lemma keeps_works : keeps R works.
Proof. apply keeps_bind; [apply _|apply keeps_call|intros; apply keeps_ret; apply _]. Qed.
Lemma keeps_after {A B} (m : io A) (k : A -> io B) :
  keeps R m -> (forall a, keeps R (k a)) -> keeps R (m ≫= k).
Proof. by apply keeps_bind, _. Qed.
Lemma keeps_done {A} (a : A) : keeps R (mret a).
Proof. apply keeps_ret, _. Qed.
Lemma keeps_stat p : keeps R (stat p).
Proof.
  apply keeps_after; [apply keeps_call|]. intros [e|]; [apply keeps_done|]. by apply keeps_state.
Qed.
Lemma keeps_mkdir p : keeps R (mkdir p).
Proof.
  apply keeps_after; [apply keeps_works|]. intros []; [|apply keeps_done]. apply keeps_state. intros. apply frame_dirs.
Qed.
Lemma keeps_fopen_r p : keeps R (fopen_r p).
Proof. apply keeps_after; [apply keeps_works|]. intros []; [by apply keeps_state|apply keeps_done]. Qed.
Lemma opened_frame w p : allowed p -> R w (opened w p).
Proof. intros Hp. apply frame_files with p; [done|]. intros q Hq. by rewrite lookup_insert_ne. Qed.
Lemma written_frame w p b : allowed p -> R w (written w p b).
Proof. intros Hp. apply frame_files with p; [done|]. intros q Hq. by rewrite lookup_alter_ne. Qed.
Lemma keeps_fopen_w p : allowed p -> keeps R (fopen_w p).
Proof.
  intros Hp. apply keeps_after; [apply keeps_works|]. intros []; [|apply keeps_done]. apply keeps_state.
  intros w. case_bool_decide; [done|by apply opened_frame].
Qed.
Lemma keeps_fwrite p b : allowed p -> keeps R (fwrite p b).
Proof. intros Hp. apply keeps_state. intros w. by apply written_frame. Qed.
Lemma keeps_fclose p : allowed p -> keeps R (fclose p).
Proof.
  intros Hp. apply keeps_after; [apply keeps_call|]. intros [n|]; [|apply keeps_done]. apply keeps_state. intros w.
  cbn [snd]. transitivity (cut w p (Z.to_nat n)); [|apply (frame_flush (cut w p (Z.to_nat n)))].
  apply frame_files with p; [done|]. intros q Hq. by rewrite lookup_alter_ne.
Qed.
Lemma keeps_unlink p : allowed p -> keeps R (unlink p).
Proof.
  intros Hp. apply keeps_after; [apply keeps_works|]. intros []; [|apply keeps_done]. apply keeps_state. intros w.
  apply frame_files with p; [done|]. intros q Hq. by rewrite lookup_delete_ne.
Qed.
Lemma keeps_umask m : keeps R (umask m).
Proof. apply keeps_state. intros. apply frame_mask. Qed.
Lemma keeps_perform r dest : (forall p, dest = Some p -> allowed p) -> keeps R (perform r dest).
Proof.
  intros Hp. apply keeps_after; [apply keeps_state; intros; apply frame_request|]. intros _. apply keeps_after.
  - intros w. unfold post, next_transfer. destruct (net w); [done|apply frame_net].
  - intros t. apply keeps_after; [|intros; apply keeps_done]. destruct dest; [apply keeps_fwrite; auto|apply keeps_done].
Qed.
Lemma keeps_exists p strict : keeps R (exists_ p strict).
Proof. apply keeps_after; [apply keeps_stat|]. intros. apply keeps_done. Qed.
Lemma keeps_ensure_dir p : keeps R (ensure_dir p).
Proof.
  apply keeps_after; [apply keeps_stat|]. intros [e| |]; [|apply keeps_done..].
  apply keeps_if; [apply keeps_mkdir|apply keeps_done].
Qed.
End Framed.
(** One function after the other. *)
Ltac keeps :=
  repeat first
    [ apply keeps_done | apply keeps_works | apply keeps_call | apply keeps_exists | apply keeps_stat | apply keeps_ensure_dir
    | apply keeps_fopen_r | apply keeps_umask | apply keeps_fopen_w; done | apply keeps_fwrite; done | apply keeps_fclose; done | apply keeps_if | apply keeps_after; [|intros ?]
    | case_match ].
