(* ===== verification/Fetch.v ===== *)
(** Fetching the schedule (update_remote_schedule() to
    enable_remote_schedule_fetch(), and read_schedule_dir(), of
    src/measured/schedule.c), with the watchdog of src/measured/watchdog.c. *)
From stdpp Require Import gmap.
From S2P Require Import Prelude CLib Nametable Targets Schedule Testlib Files.
#[local] Open Scope Z_scope.

(** ** Watchdogs *)

(** timer_create() and timer_settime(). *)
Definition start_watchdog (duration signal : Z) : io Z :=
  created ← works;
  if negb created then mret (-1)
  else
    set ← works;
    if negb set then mret (-1) else _ ← note (Armed duration signal); mret 0.
Definition stop_watchdog : io Z :=
  deleted ← works; if negb deleted then mret (-1) else _ ← note Disarmed; mret 0.
Definition SIGKILL : Z := 9.
Definition start_test_watchdog (max_duration : Z) : io Z := start_watchdog max_duration SIGKILL.

(** child_reaper(): what waitid() says, and the children that were collected. *)
Inductive waited : Set := WaitError | NoChild | Child (pid : Z).
Fixpoint child_reaper (answers : list waited) : list Z :=
  match answers with
  | Child pid :: answers => pid :: child_reaper answers
  | _ => []
  end.

(** ** Fetching *)

Definition MAX_PATH_LENGTH : nat := Z.to_nat 10000.
Definition REMOTE_SCHEDULE_FILE : cstr := str "/fetched.sched".
Definition TMP_REMOTE_SCHEDULE_FILE : cstr := str "/.fetched.sched.tmp".
Definition SCHEDULE_FETCH_TIMEOUT : Z := 30.

Record fetch_schedule_item : Set := {
  schedule_dir : cstr; schedule_url : option cstr; cacert : option cstr;
  cert : option cstr; key : option cstr; frequency : Z
}.
(** snprintf() of a file name into a buffer. *)
Definition path_in (dir name : cstr) : cstr := take (MAX_PATH_LENGTH - 2) (dir ++ str "/" ++ name).
Definition sched_file (f : fetch_schedule_item) : cstr := path_in (schedule_dir f) REMOTE_SCHEDULE_FILE.
Definition tmp_sched_file (f : fetch_schedule_item) : cstr := path_in (schedule_dir f) TMP_REMOTE_SCHEDULE_FILE.

(** The options of the request; those for TLS only when the URL asks for it. *)
Definition schedule_request (f : fetch_schedule_item) (u : cstr) (since : option Z) : request :=
  let https := strncasecmp_eq u (str "https") 5 in
  {| url := u; since := since; cainfo := if https then cacert f else None;
     client_cert := if https then
                      match cert f, key f with Some c, Some k => Some (c, k) | _, _ => None end
                    else None;
     verify := https; post_data := None |}.

(** A transfer that is a new schedule. *)
Definition is_new (clobber : bool) (t : transfer) : bool :=
  (t_code t =? 200) && (clobber || negb (t_unmet t)) && (t_length t >? 0).

(** When the file on disk is to be replaced only by a newer one: its time.  [None] is a
    path that cannot be used. *)
Definition condition (clobber : bool) (s : stat_t) : option (option Z) :=
  match s with
  | Failed e => if e =? ENOENT then Some None else None
  | File f => Some (if clobber then None else Some (mtime f))
  | Directory t => Some (if clobber then None else Some t)
  end.

(** The GET, and what is done with what it gave. *)
Definition fetch_since (f : fetch_schedule_item) (clobber : bool) (u : cstr) (since : option Z) : io Z :=
  t ← perform (schedule_request f u since) (Some (tmp_sched_file f));
  _ ← fclose (tmp_sched_file f);
  if negb (t_ok t) then mret (-1)
  else if is_new clobber t then
    moved ← rename (tmp_sched_file f) (sched_file f); mret (if moved : bool then 1 else -1)
  else mret 0.
(** The part after the temporary file was opened. *)
Definition fetch_into (f : fetch_schedule_item) (clobber : bool) : io Z :=
  u ← lift (match schedule_url f with Some u => Ok u | None => Fault NullDeref end);
  s ← stat (sched_file f);
  match condition clobber s with
  | None => _ ← fclose (tmp_sched_file f); mret (-1)
  | Some since => fetch_since f clobber u since
  end.
Definition update_remote_schedule (f : fetch_schedule_item) (clobber : bool) : io Z :=
  curl ← works;
  if negb curl then mret (-1)
  else
    dir ← ensure_dir (schedule_dir f);
    if negb dir then mret (-1)
    else
      opened ← fopen_w (tmp_sched_file f);
      if negb opened then mret (-1) else fetch_into f clobber.

(** fork_and_fetch(): the child runs at once here; the parent does not wait for it, but
    does not use the files either.  unblock_signals() may fail too. *)
Definition fetch_child (f : fetch_schedule_item) (clobber : bool) : io unit :=
  unblocked ← works;
  if negb unblocked then mret tt
  else
    armed ← start_watchdog SCHEDULE_FETCH_TIMEOUT SIGKILL;
    if armed <? 0 then mret tt
    else
      r ← update_remote_schedule f clobber;
      _ ← (if r >? 0 then note Reload else mret tt);
      _ ← stop_watchdog;
      mret tt.
Definition fork_and_fetch (f : fetch_schedule_item) (clobber : bool) : io unit :=
  forked ← works; if negb forked then mret tt else fetch_child f clobber.

Definition signal_fetch_callback (f : fetch_schedule_item) : io unit := fork_and_fetch f true.
(** The event that calls timer_fetch_callback(); event_add() may fail. *)
Definition add_timer (f : fetch_schedule_item) : io Z :=
  added ← works; if negb added then mret (-1) else _ ← note (Timer (frequency f)); mret 0.
Definition timer_fetch_callback (f : fetch_schedule_item) : io unit :=
  _ ← fork_and_fetch f false;
  _ ← add_timer f;
  mret tt.
Definition enable_remote_schedule_fetch (fetch : option fetch_schedule_item) : io Z :=
  match fetch with
  | None => mret 0
  | Some f =>
      match schedule_url f with
      | None => mret 0
      | Some _ => _ ← update_remote_schedule f true; add_timer f
      end
  end.

(** ** Reading what was fetched *)

Section Read.
Context (cached : option timeval) (gettimeofday : timeval) (event_add : list event -> event -> list event)
  (amp_tests : list test_t) (name_table : list nametable_t).

(** read_schedule_dir(): the files that glob() finds. *)
Fixpoint read_files (h : param_heap) (evs : list event) (loaded : list (option yaml_document))
    : res (param_heap * list event) :=
  match loaded with
  | [] => Ok (h, evs)
  | l :: loaded =>
      r ← read_schedule_file cached gettimeofday event_add amp_tests name_table h evs l;
      read_files (fst r) (snd r) loaded
  end.
Definition read_schedule_dir (directory : cstr) (h : param_heap) (evs : list event)
    (loaded : list (option yaml_document)) : res (param_heap * list event) :=
  _ ← c_assert (length directory <? MAX_PATH_LENGTH - 8)%nat;
  read_files h evs loaded.
End Read.

(** ** What a fetch does to the files *)

(** The two files are different as long as their names fit. *)
Lemma paths_differ f : Z.of_nat (length (schedule_dir f)) <= 9000 -> sched_file f <> tmp_sched_file f.
Proof.
  intros Hl. unfold sched_file, tmp_sched_file, path_in, MAX_PATH_LENGTH.
  assert (length (str "/" ++ REMOTE_SCHEDULE_FILE) = 15%nat) as E1 by reflexivity.
  assert (length (str "/" ++ TMP_REMOTE_SCHEDULE_FILE) = 20%nat) as E2 by reflexivity.
  rewrite !take_ge by (rewrite length_app, ?E1, ?E2; lia).
  intros E%app_inv_head. discriminate.
Qed.

(** Only the two files of the schedule may change. *)
Definition others_kept (f : fetch_schedule_item) (w w' : machine) : Prop :=
  forall p, p <> sched_file f -> p <> tmp_sched_file f -> files w' !! p = files w !! p.
(** What a fetch that returned [r] has done. *)
Definition fetched (f : fetch_schedule_item) (clobber : bool) (w : machine) (r : Z) (w' : machine) : Prop :=
  (r = -1 \/ r = 0 \/ r = 1) /\ others_kept f w w' /\
  (r <> 1 -> files w' !! sched_file f = files w !! sched_file f) /\
  (r = 1 -> exists t ts n, net w = t :: ts /\ t_ok t = true /\ is_new clobber t = true /\
     bytes <$> files w' !! sched_file f = Some (take n (t_body t)) /\
     (take n (t_body t) = t_body t \/ FlushFailed (tmp_sched_file f) ∈ log w')).

Lemma fetched_not f clobber w r w' :
  r = -1 \/ r = 0 -> others_kept f w w' -> files w' !! sched_file f = files w !! sched_file f ->
  fetched f clobber w r w'.
Proof. intros [-> | ->] H1 H2; unfold fetched; (split_and!; [lia|done|done|lia]). Qed.

(** The temporary file was just opened, the rest is as it was. *)
Definition ready (f : fetch_schedule_item) (w0 w : machine) : Prop :=
  net w = net w0 /\ others_kept f w0 w /\ files w !! sched_file f = files w0 !! sched_file f /\
  bytes <$> files w !! tmp_sched_file f = Some [].

Lemma fetch_since_post f clobber u since w0 w :
  sched_file f <> tmp_sched_file f -> ready f w0 w ->
  post (net w0 = []) (fetch_since f clobber u since) w (fetched f clobber w0).
Proof.
  intros Hne (Hnet & Ho & Hs & Ht). apply post_bind, post_perform; [by rewrite Hnet|]. cbn zeta. intros t ts Hts.
  set (w1 := written _ _ _).
  assert (Hw : forall p, p <> tmp_sched_file f -> files w1 !! p = files w !! p).
  { intros p Hp. by apply lookup_alter_ne. }
  assert (Hk : others_kept f w0 w1) by (intros p H1 H2; rewrite Hw by done; by apply Ho).
  assert (Hs1 : files w1 !! sched_file f = files w0 !! sched_file f) by (by rewrite Hw).
  assert (Hb : bytes <$> files w1 !! tmp_sched_file f = Some (t_body t)).
  { unfold w1, written. cbn. rewrite lookup_alter_eq.
    destruct (files w !! tmp_sched_file f) as [old|]; [|done]. cbn in *. injection Ht as Ht. by rewrite Ht. }
  assert (Hrest : forall w2 n, others_kept f w0 w2 -> files w2 !! sched_file f = files w0 !! sched_file f ->
    bytes <$> files w2 !! tmp_sched_file f = Some (take n (t_body t)) ->
    (take n (t_body t) = t_body t \/ FlushFailed (tmp_sched_file f) ∈ log w2) ->
    post (net w0 = []) (if negb (t_ok t) then mret (-1)
      else if is_new clobber t then
        moved ← rename (tmp_sched_file f) (sched_file f); mret (if moved : bool then 1 else -1)
      else mret 0) w2 (fetched f clobber w0)).
  { intros w2 n Hk2 Hs2 Hb2 Hn2. destruct (t_ok t) eqn:Eok; cbn [negb]; [|apply post_ret, fetched_not; auto].
    destruct (is_new clobber t) eqn:En; [|apply post_ret, fetched_not; auto].
    apply post_bind, post_rename; [intros es; apply post_ret, fetched_not; auto|].
    intros f' es Hf'. apply post_ret. split_and!; [lia| |lia|].
    - intros p H1 H2. cbn. rewrite lookup_insert_ne, lookup_delete_ne by done. by apply Hk2.
    - intros _. exists t, ts, n. rewrite <- Hnet. split_and!; [done..| |done]. cbn. rewrite lookup_insert_eq.
      by rewrite Hf' in Hb2. }
  apply post_bind, post_fclose; intros; cbn beta iota.
  - apply (Hrest _ (length (t_body t))); [done..|by rewrite firstn_all|left; by rewrite firstn_all].
  - apply (Hrest _ n); [| | |right; cbn; set_solver].
    + intros p H1 H2. cbn -[w1]. rewrite lookup_alter_ne by done. by apply Hk.
    + cbn -[w1]. by rewrite lookup_alter_ne.
    + cbn -[w1]. rewrite lookup_alter_eq. destruct (files w1 !! tmp_sched_file f); [|done]. cbn in *. congruence.
Qed.

Lemma fetch_into_post f clobber u w0 w :
  sched_file f <> tmp_sched_file f -> schedule_url f = Some u -> ready f w0 w ->
  post (net w0 = []) (fetch_into f clobber) w (fetched f clobber w0).
Proof.
  intros Hne Hu Hr. unfold fetch_into. rewrite Hu. apply post_bind. unfold post at 1. cbn [lift].
  assert (Hgo : forall s es, post (net w0 = [])
    (match condition clobber s with None => _ ← fclose (tmp_sched_file f); mret (-1) | Some since => fetch_since f clobber u since end)
    (with_errors w es) (fetched f clobber w0)).
  { intros s es. destruct (condition clobber s) as [since|]; [by apply fetch_since_post|].
    destruct Hr as (_ & Ho & Hs & _). apply post_bind, post_fclose; intros; apply post_ret, fetched_not; auto.
    - intros p H1 H2. cbn. rewrite lookup_alter_ne by done. by apply Ho.
    - cbn. by rewrite lookup_alter_ne. }
  apply post_bind, post_stat; intros; apply Hgo.
Qed.

Lemma update_remote_schedule_post f clobber u w :
  sched_file f <> tmp_sched_file f -> schedule_url f = Some u ->
  post (net w = []) (update_remote_schedule f clobber) w (fetched f clobber w).
Proof.
  intros Hne Hu.
  assert (Herr : forall w', files w' = files w -> post (net w = []) (mret (-1)) w' (fetched f clobber w)).
  { intros w' E. apply post_ret, fetched_not; [auto|intros p _ _|]; by rewrite E. }
  assert (Hgo : forall ok w', files w' = files w -> net w' = net w -> post (net w = [])
    (if negb ok then mret (-1)
     else opened ← fopen_w (tmp_sched_file f); if negb opened then mret (-1) else fetch_into f clobber)
    w' (fetched f clobber w)).
  { intros [] w' Ef En; cbn [negb]; [|by apply Herr]. apply post_bind, post_fopen_w; [intros es; by apply Herr|].
    intros es. cbn [negb]. eapply fetch_into_post; [done..|]. unfold ready, opened. cbn. rewrite lookup_insert_eq.
    split_and!; [done| |rewrite lookup_insert_ne by done; by rewrite Ef|done].
    intros p H1 H2. cbn. rewrite lookup_insert_ne by done. by rewrite Ef. }
  apply post_bind, post_works. intros [] es; cbn [negb]; [|by apply Herr].
  apply post_bind, post_bind, post_stat.
  - intros e es' He. rewrite (proj2 (Z.eqb_neq _ _)) by done. by apply post_ret, Hgo.
  - intros es' _ _. apply post_mkdir; intros es''; by apply Hgo.
  - intros f' es' _. by apply post_ret, Hgo.
  - intros es' _ _. by apply post_ret, Hgo.
Qed.

(** C29: a fetch replaces the schedule on disk only by a download.  For a directory name
    of at most 9000 characters and a server that answers at all, whatever call fails, the
    function returns.  It returns 1 only if the transfer succeeded and gave, with status 200, a document
    of known length (a newer one, unless the old one may be overwritten); the schedule file is
    then this document, except that when fclose() fails to write the last of it to the
    disk, which is not checked, it is only the first part of it.  In every other case the schedule
    file is as it was.  No other file but the temporary one changes. *)
Theorem update_remote_schedule_safe f clobber u w :
  Z.of_nat (length (schedule_dir f)) <= 9000 -> schedule_url f = Some u -> net w <> [] ->
  exists r w', update_remote_schedule f clobber w = Ok (r, w') /\
    (forall p, p <> sched_file f -> p <> tmp_sched_file f -> files w' !! p = files w !! p) /\
    ((r = -1 \/ r = 0) /\ files w' !! sched_file f = files w !! sched_file f \/
     r = 1 /\ exists t ts n, net w = t :: ts /\ t_ok t = true /\ is_new clobber t = true /\
       bytes <$> files w' !! sched_file f = Some (take n (t_body t)) /\
       (take n (t_body t) = t_body t \/ FlushFailed (tmp_sched_file f) ∈ log w')).
Proof.
  intros Hd Hu Hn.
  destruct (post_returns _ _ _ (update_remote_schedule_post f clobber u w (paths_differ f Hd) Hu) Hn)
    as (r & w' & E & Hr & Ho & Hk & H1).
  exists r, w'. split_and!; [done|done|]. destruct (decide (r = 1)) as [->|Hr1]; [right; auto|left]. split; [lia|auto].
Qed.

(** ** A fetch on which no call fails *)

(** The schedule can be stored: its directory is there, and nothing in the way. *)
Definition dir_ready (f : fetch_schedule_item) (w : machine) : Prop :=
  errors w = [] /\ files w !! schedule_dir f = None /\ schedule_dir f ∈ dirs w /\
  (sched_file f ∉ dirs w) /\ (tmp_sched_file f ∉ dirs w).
(** The schedule and the log after such a fetch. *)
Definition stored (f : fetch_schedule_item) (u : cstr) (clobber : bool) (t : transfer) (ts : list transfer)
    (w w' : machine) : Prop :=
  errors w' = [] /\ net w' = ts /\
  log w' = log w ++ [Requested (schedule_request f u (if clobber then None else mtime <$> files w !! sched_file f))] /\
  (bytes <$> files w' !! sched_file f) =
    (if t_ok t && is_new clobber t then Some (t_body t) else bytes <$> files w !! sched_file f).

Lemma update_run f u clobber w t ts :
  dir_ready f w -> sched_file f <> tmp_sched_file f -> schedule_url f = Some u -> net w = t :: ts ->
  exists w', update_remote_schedule f clobber w =
      Ok (if negb (t_ok t) then -1 else if is_new clobber t then 1 else 0, w') /\
    stored f u clobber t ts w w'.
Proof.
  intros (He & Hd1 & Hd2 & Hs & Ht) Hne Hu Hn.
  unfold update_remote_schedule. run works_run. cbn [negb].
  assert (Hdir : ensure_dir (schedule_dir f) w = Ok (true, w)).
  { unfold ensure_dir. run stat_run. by rewrite Hd1, bool_decide_eq_true_2. }
  erewrite bind_run by exact Hdir. cbn [negb]. erewrite bind_run by (by apply fopen_w_run). cbn [negb].
  unfold fetch_into. rewrite Hu. erewrite bind_run by done. erewrite bind_run by (by apply stat_run).
  set (w1 := opened w (tmp_sched_file f)). set (since := if clobber then None else mtime <$> files w !! sched_file f).
  assert (Hs1 : files w1 !! sched_file f = files w !! sched_file f).
  { unfold w1, opened. cbn. by rewrite lookup_insert_ne. }
  set (s := match files w1 !! sched_file f with Some _ => _ | None => _ end).
  assert (condition clobber s = Some since) as ->.
  { unfold s, since. rewrite Hs1. destruct (files w !! sched_file f) as [old|]; [by destruct clobber|].
    rewrite bool_decide_eq_false_2 by done. cbn. by destruct clobber. }
  unfold fetch_since. erewrite bind_run by (by apply perform_run). cbn zeta.
  set (w2 := written _ _ _).
  assert (Hs2 : files w2 !! sched_file f = files w !! sched_file f).
  { rewrite <- Hs1. unfold w2, written. cbn -[w1]. by rewrite lookup_alter_ne. }
  assert (Ht2 : exists new, files w2 !! tmp_sched_file f = Some new /\ bytes new = t_body t).
  { unfold w2, written, w1, opened. cbn. rewrite lookup_alter_eq, lookup_insert_eq. cbn. eauto. }
  destruct Ht2 as (new & Ht2 & Hb). unfold stored.
  erewrite bind_run by (by apply fclose_run). cbn beta iota.
  destruct (t_ok t); cbn [negb andb]; [|exists w2; by rewrite Hs2].
  destruct (is_new clobber t); [|exists w2; by rewrite Hs2].
  erewrite bind_run by (by apply rename_run). eexists. split; [reflexivity|]. cbn -[w2].
  by rewrite lookup_insert_eq, <- Hb.
Qed.

Lemma start_run duration signal w :
  errors w = [] -> start_watchdog duration signal w = Ok (0, with_log w (log w ++ [Armed duration signal])).
Proof. intros He. unfold start_watchdog. run works_run. cbn [negb]. by run works_run. Qed.
Lemma stop_run w : errors w = [] -> stop_watchdog w = Ok (0, with_log w (log w ++ [Disarmed])).
Proof. intros He. unfold stop_watchdog. by run works_run. Qed.

Lemma add_timer_run f w : errors w = [] -> add_timer f w = Ok (0, with_log w (log w ++ [Timer (frequency f)])).
Proof. intros He. unfold add_timer. by run works_run. Qed.

(** The timer for remote schedules asks the server for a schedule newer than the one
    on disk, under a watchdog of 30 seconds, stores it and has the schedule reloaded if
    there is one, leaves the old one if not, and is set again. *)
Theorem timer_fetch_polls f u w t ts :
  dir_ready f w -> Z.of_nat (length (schedule_dir f)) <= 9000 -> schedule_url f = Some u -> net w = t :: ts ->
  let fresh := t_ok t && is_new false t in
  exists w', timer_fetch_callback f w = Ok (tt, w') /\ net w' = ts /\
    log w' = log w ++ [Armed SCHEDULE_FETCH_TIMEOUT SIGKILL;
                       Requested (schedule_request f u (mtime <$> files w !! sched_file f))]
             ++ (if fresh then [Reload] else []) ++ [Disarmed; Timer (frequency f)] /\
    (bytes <$> files w' !! sched_file f) =
      (if fresh then Some (t_body t) else bytes <$> files w !! sched_file f).
Proof.
  intros Hr Hl Hu Hn fresh. pose proof (paths_differ f Hl) as Hne. pose proof (proj1 Hr) as He.
  set (w1 := with_log w (log w ++ [Armed SCHEDULE_FETCH_TIMEOUT SIGKILL])).
  destruct (update_run f u false w1 t ts) as (w2 & E & He2 & Hn2 & Hlog & Hb); [done..|].
  assert (Hc : fork_and_fetch f false w = Ok (tt,
    with_log w2 (log w2 ++ (if fresh then [Reload] else []) ++ [Disarmed]))).
  { unfold fork_and_fetch. run works_run. cbn [negb]. unfold fetch_child. run works_run. cbn [negb].
    run start_run. fold w1. change (0 <? 0) with false. cbn iota. erewrite bind_run by exact E. unfold fresh.
    destruct (t_ok t); cbn [negb andb]; [destruct (is_new false t)|]; erewrite bind_run by reflexivity;
      run stop_run; cbn; by rewrite <- ?app_assoc. }
  eexists. split; [|].
  - unfold timer_fetch_callback. erewrite bind_run by exact Hc. by run add_timer_run.
  - cbn. rewrite Hlog. unfold w1. cbn. rewrite <- !app_assoc. done.
Qed.

(** ** Reading the schedule directory *)

(** Every file that is read keeps the schedule sound. *)
Lemma read_schedule_dir_sound cached gettimeofday event_add amp_tests name_table directory h evs loaded h' evs' :
  (forall evs ev, event_add evs ev ≡ₚ ev :: evs) ->
  (forall t, t ∈ amp_tests -> 0 <= max_targets t < 65536) ->
  events_ok amp_tests evs ->
  read_schedule_dir cached gettimeofday event_add amp_tests name_table directory h evs loaded = Ok (h', evs') ->
  events_ok amp_tests evs'.
Proof.
  intros Hperm Hmax Hevs H. unfold read_schedule_dir in H. inv_res. clear -Hperm Hmax Hevs H.
  revert h evs Hevs H. induction loaded as [|l loaded IH]; intros h evs Hevs H; cbn [read_files] in H.
  - by simplify_eq.
  - apply res_bind_Ok in H as ([h1 evs1] & E & H). eapply IH; [|exact H]. by eapply read_schedule_file_ok.
Qed.
(** The events that are not tests stay. *)
Lemma read_schedule_dir_others cached gettimeofday event_add amp_tests name_table directory h evs loaded h' evs' :
  (forall evs ev, event_add evs ev ≡ₚ ev :: evs) ->
  read_schedule_dir cached gettimeofday event_add amp_tests name_table directory h evs loaded = Ok (h', evs') ->
  filter (stays false) evs' ≡ₚ filter (stays false) evs.
Proof.
  intros Hperm H. unfold read_schedule_dir in H. inv_res. clear -Hperm H.
  revert h evs H. induction loaded as [|l loaded IH]; intros h evs H; cbn [read_files] in H.
  - by simplify_eq.
  - apply res_bind_Ok in H as ([h1 evs1] & E & H). apply IH in H. cbn [fst snd] in H. rewrite H.
    by eapply read_schedule_file_others.
Qed.
(** A file that does not load is passed over. *)
Lemma read_files_skip cached gettimeofday event_add amp_tests name_table h evs loaded :
  read_files cached gettimeofday event_add amp_tests name_table h evs (None :: loaded) =
  read_files cached gettimeofday event_add amp_tests name_table h evs loaded.
Proof. done. Qed.

(** ** A concrete fetch *)

Definition sample_fetch : fetch_schedule_item := {|
  schedule_dir := str "/etc/amplet2/schedules"; schedule_url := Some (str "HTTPS://amp.example.org/sched");
  cacert := None; cert := None; key := None; frequency := 3600 |}.
Definition document (length : Z) : transfer :=
  {| t_ok := true; t_code := 200; t_length := length; t_unmet := false; t_body := [1; 2; 3] |}.
Definition old_schedule : file := {| bytes := [9]; mtime := 100; mode := 420 |}.
Definition sample_machine (t : transfer) : machine := {|
  files := {[ sched_file sample_fetch := old_schedule ]}; dirs := {[ str "/etc/amplet2/schedules" ]};
  clock := 1000; mask := 18; errors := []; net := [t]; log := [] |}.

Lemma update_remote_schedule_safe_witness :
  exists r w', update_remote_schedule sample_fetch true (sample_machine (document 3)) = Ok (r, w') /\
    (forall p, p <> sched_file sample_fetch -> p <> tmp_sched_file sample_fetch ->
       files w' !! p = files (sample_machine (document 3)) !! p) /\
    ((r = -1 \/ r = 0) /\
       files w' !! sched_file sample_fetch = files (sample_machine (document 3)) !! sched_file sample_fetch \/
     r = 1 /\ exists t ts n, net (sample_machine (document 3)) = t :: ts /\ t_ok t = true /\ is_new true t = true /\
       bytes <$> files w' !! sched_file sample_fetch = Some (take n (t_body t)) /\
       (take n (t_body t) = t_body t \/ FlushFailed (tmp_sched_file sample_fetch) ∈ log w')).
Proof.
  apply (update_remote_schedule_safe sample_fetch true (str "HTTPS://amp.example.org/sched") (sample_machine (document 3))).
  - vm_compute. discriminate.
  - reflexivity.
  - discriminate.
Defined.
Lemma timer_fetch_polls_witness :
  exists w', timer_fetch_callback sample_fetch (sample_machine (document 3)) = Ok (tt, w') /\ net w' = [] /\
    log w' = [Armed 30 9;
      Requested (schedule_request sample_fetch (str "HTTPS://amp.example.org/sched") (Some 100));
      Reload; Disarmed; Timer 3600] /\
    (bytes <$> files w' !! sched_file sample_fetch) = Some [1; 2; 3].
Proof.
  apply (timer_fetch_polls sample_fetch (str "HTTPS://amp.example.org/sched") (sample_machine (document 3))
    (document 3) []).
  - split; [reflexivity|]. split; [vm_compute; reflexivity|]. split; [apply (bool_decide_unpack _); vm_compute; exact I|].
    split; apply (bool_decide_unpack _); vm_compute; exact I.
  - vm_compute. discriminate.
  - reflexivity.
  - reflexivity.
Defined.
(** The request is verified although the scheme is in upper case, and asks only for what
    changed since. *)
Example sample_request :
  schedule_request sample_fetch (str "HTTPS://amp.example.org/sched") (Some 100) =
  {| url := str "HTTPS://amp.example.org/sched"; since := Some 100; cainfo := None; client_cert := None;
     verify := true; post_data := None |}.
Proof. vm_compute. reflexivity. Qed.
(** A server that does not give the length of the document, as in a chunked answer, is
    never believed to have a new one. *)
Example unknown_length_ignored :
  match timer_fetch_callback sample_fetch (sample_machine (document (-1))) with
  | Ok (_, w) => bytes <$> files w !! sched_file sample_fetch = Some [9] /\
      log w = [Armed 30 9; Requested (schedule_request sample_fetch (str "HTTPS://amp.example.org/sched") (Some 100));
               Disarmed; Timer 3600]
  | Fault _ => False
  end.
Proof. vm_compute. done. Qed.
(** The disk is full when the file is closed: the first byte becomes the schedule. *)
Example truncated_schedule_installed :
  match update_remote_schedule sample_fetch true
    (with_errors (sample_machine (document 3)) [None; None; None; None; Some 1]) with
  | Ok (r, w) => r = 1 /\ bytes <$> files w !! sched_file sample_fetch = Some [1]
  | Fault _ => False
  end.
Proof. vm_compute. done. Qed.
(** Nothing is fetched without a watchdog, and then nothing is stopped. *)
Example no_watchdog_no_fetch :
  fork_and_fetch sample_fetch true (with_errors (sample_machine (document 3)) [None; None; None; Some 11]) =
  Ok (tt, sample_machine (document 3)).
Proof. vm_compute. reflexivity. Qed.
