(* ===== verification/Certs.v ===== *)
(** Keys and certificates (src/measured/certs.c and the locations of keys of
    src/common/ssl.c).

    Keys, requests and digests are those of OpenSSL, a class of operations; every
    call of it may fail.  What is written to disk and asked of the server is on the
    [machine] of Files.v. *)
From stdpp Require Import gmap.
From S2P Require Import Prelude CLib Testlib Files.
#[local] Open Scope Z_scope.

(** ** OpenSSL *)

(** X509_REQ with the fields that are set. *)
Record csr (rsa : Set) : Set := { csr_key : rsa; csr_cn : cstr; csr_o : cstr }.
Arguments csr_key {rsa}. Arguments csr_cn {rsa}. Arguments csr_o {rsa}.
Class Crypto := {
  rsa : Set;
  new_key : rsa;                         (* RSA_generate_key_ex() *)
  pem_rsa : rsa -> list Z;               (* PEM_write_RSAPrivateKey() *)
  read_rsa : list Z -> option rsa;       (* PEM_read_RSAPrivateKey() *)
  pem_csr : csr rsa -> list Z;           (* PEM_write_X509_REQ() *)
  md5 : list Z -> list Z;
  sha256 : list Z -> list Z;
  rsa_sign : rsa -> list Z -> list Z;
  base64 : list Z -> cstr
}.
(** What the code relies on: a key that was written can be read, digests have their
    size, and there is always something to sign and send. *)
Class CryptoLaws `(C : Crypto) : Prop := {
  read_pem k : read_rsa (pem_rsa k) = Some k;
  pem_rsa_some k : pem_rsa k <> [];
  md5_length l : length (md5 l) = 16%nat;
  sha256_length l : length (sha256 l) = 32%nat;
  rsa_sign_some k l : rsa_sign k l <> []
}.

(** ** Locations of keys *)

Record ssl_opt : Set := { o_cacert : option cstr; o_key : option cstr; o_cert : option cstr; o_keys_dir : cstr }.
Definition AMP_CONFIG_DIR : cstr := str "/etc/amplet2".
Definition AMP_KEYS_DIR : cstr := AMP_CONFIG_DIR ++ str "/keys".

(** A location that was given has to exist; a default is made up, if asprintf() works. *)
Definition location (given : option cstr) (default : cstr) : io (option cstr) :=
  match given with
  | None => ok ← works; mret (if ok : bool then Some default else None)
  | Some p => r ← exists_ p true; mret (if r <? 0 then None else Some p)
  end.
(** check_key_locations(): what is set so far stays set on an error. *)
Definition check_key_locations (o : ssl_opt) (collector : cstr) : io (Z * ssl_opt) :=
  cert ← location (o_cert o) (o_keys_dir o ++ str "/" ++ collector ++ str ".cert");
  match cert with
  | None => mret (-1, o)
  | Some _ =>
      let o := {| o_cacert := o_cacert o; o_key := o_key o; o_cert := cert; o_keys_dir := o_keys_dir o |} in
      key ← location (o_key o) (o_keys_dir o ++ str "/key.pem");
      match key with
      | None => mret (-1, o)
      | Some _ =>
          let o := {| o_cacert := o_cacert o; o_key := key; o_cert := cert; o_keys_dir := o_keys_dir o |} in
          ok ← (match o_cacert o with None => works | Some _ => mret true end);
          if negb ok then mret (-1, o)
          else
            let ca := default (AMP_KEYS_DIR ++ str "/" ++ collector ++ str ".pem") (o_cacert o) in
            let o := {| o_cacert := Some ca; o_key := key; o_cert := cert; o_keys_dir := o_keys_dir o |} in
            r ← exists_ ca true;
            mret (if r <? 0 then -1 else 0, o)
      end
  end.
(** initialise_ssl(): RAND_status() may fail. *)
Definition initialise_ssl (o : ssl_opt) (collector : option cstr) : io (Z * ssl_opt) :=
  seeded ← works;
  if negb seeded then mret (-1, o)
  else match collector with None => mret (0, o) | Some c => check_key_locations o c end.

(** ** Certificates *)

Section Certs.
Context `{C : Crypto}.

Record amp_ssl_opt : Set := { cacert : cstr; key : cstr; cert : cstr; keys_dir : cstr }.

(** Calls of OpenSSL up to the first that fails. *)
Fixpoint all_work (n : nat) : io bool :=
  match n with
  | O => mret true
  | S n => ok ← works; if negb ok then mret false else all_work n
  end.

(** EVP_MD_CTX_create(), EVP_DigestInit_ex(), EVP_DigestUpdate(), EVP_DigestFinal_ex(). *)
Definition hash (digest : list Z -> list Z) (s : list Z) : io (option (list Z)) :=
  ok ← all_work 4; mret (if ok : bool then Some (digest s) else None).

Definition load_existing_key_file (filename : list ascii) : io (option rsa) :=
  f ← fopen_r filename; mret (f ≫= read_rsa).
Definition create_new_key_file (filename : list ascii) : io (option rsa) :=
  generated ← works;
  if negb generated then mret None
  else
    oldmask ← umask 23;
    opened ← fopen_w filename;
    _ ← umask oldmask;
    if negb opened then mret None
    else
      e ← call;                            (* PEM_write_RSAPrivateKey(), or the part it wrote *)
      match e with
      | Some n => _ ← fwrite filename (take (Z.to_nat n) (pem_rsa new_key)); _ ← fclose filename; mret None
      | None => _ ← fwrite filename (pem_rsa new_key); _ ← fclose filename; mret (Some new_key)
      end.
Definition get_key_file (filename : list ascii) : io (option rsa) :=
  r ← exists_ filename false;
  if r =? 0 then load_existing_key_file filename
  else if r =? 1 then create_new_key_file filename
  else mret None.

(** X509_REQ_new(), EVP_PKEY_new(), EVP_PKEY_set1_RSA(), X509_REQ_set_pubkey(), the two
    X509_NAME_add_entry_by_txt(), X509_REQ_sign(). *)
Definition create_new_csr (k : rsa) (ampname : cstr) : io (option (csr rsa)) :=
  ok ← all_work 7;
  mret (if ok : bool then Some {| csr_key := k; csr_cn := ampname; csr_o := str "client" |} else None).
(** open_memstream() and PEM_write_X509_REQ(). *)
Definition get_csr_string (r : csr rsa) : io (option (list Z)) :=
  ok ← all_work 2; mret (if ok : bool then Some (pem_csr r) else None).

Definition AMP_PKI_SSL_PORT : cstr := str "7655".
Definition pki_url (collector path : cstr) : cstr :=
  str "https://" ++ collector ++ str ":" ++ AMP_PKI_SSL_PORT ++ str "/" ++ path.
(** set_curl_ssl_opts(): the server is verified against the CA certificate. *)
Definition set_curl_ssl_opts (u : cstr) (ca : cstr) (data : option (list Z)) : request :=
  {| url := u; since := None; cainfo := Some ca; client_cert := None; verify := true; post_data := data |}.
(** The fingerprint of a digest in 33 bytes: two digits for each byte, then a NUL. *)
Definition fingerprint_fits (digest : list Z) : bool := (2 * length digest + 1 <=? 33)%nat.

Definition send_csr (r : csr rsa) (collector ca : cstr) : io Z :=
  csrstr ← get_csr_string r;
  match csrstr with
  | None => mret (-1)
  | Some csrstr =>
      ok ← works;
      if negb ok then mret (-1)
      else
        h ← hash md5 csrstr;
        match h with
        | None | Some [] => mret (-1)
        | Some digest =>
            _ ← lift (if fingerprint_fits digest then Ok tt else Fault OutOfBounds);
            opened ← works;
            if negb opened then mret (-1)
            else
              t ← perform (set_curl_ssl_opts (pki_url collector (str "sign")) ca (Some csrstr)) None;
              mret (if negb (t_ok t) then 1 else if negb (t_code t =? 202) then 1 else 0)
        end
  end.

(** fopen(), PEM_read_RSAPrivateKey(), calloc(), RSA_sign(). *)
Definition sign (keyname : list ascii) (digest : list Z) : io (option (list Z)) :=
  k ← load_existing_key_file keyname;
  match k with
  | None => mret None
  | Some k => ok ← all_work 2; mret (if ok : bool then Some (rsa_sign k digest) else None)
  end.

(** The alphabet of base64 for URLs. *)
Definition url_safe (c : ascii) : ascii :=
  if ascii_dec c "+" then "-"%char else if ascii_dec c "/" then "_"%char else c.

(** What fetch_certificate() does once it has its URL. *)
Definition download (o : amp_ssl_opt) (u : cstr) : io Z :=
  opened ← fopen_w (cert o);
  if negb opened then mret (-1)
  else
    t ← perform (set_curl_ssl_opts u (cacert o) None) (Some (cert o));
    _ ← fclose (cert o);
    if negb (t_ok t) then _ ← unlink (cert o); mret 2
    else if negb (t_code t =? 200) || (Z.of_nat (length (t_body t)) <=? 0) then
      _ ← unlink (cert o); mret (if t_code t =? 403 then 1 else 2)
    else mret 0.
Definition fetch_certificate (o : amp_ssl_opt) (ampname collector : cstr) : io Z :=
  h ← hash sha256 (ch <$> ampname);
  match h with
  | None | Some [] => mret (-1)
  | Some digest =>
      s ← sign (key o) digest;
      match s with
      | None | Some [] => mret (-1)
      | Some signature =>
          flushed ← works;
          if negb flushed then mret (-1)
          else
            built ← works;
            if negb built then mret (-1)
            else download o (pki_url collector (str "cert/" ++ ampname ++ str "/" ++ (url_safe <$> base64 signature)))
      end
  end.

Definition check_key_directories (keydir : list ascii) : io Z :=
  top ← ensure_dir AMP_KEYS_DIR;
  if negb top then mret (-1)
  else ok ← ensure_dir keydir; mret (if ok : bool then 0 else -1).

Definition AMP_MIN_PKI_QUERY_INTERVAL : Z := 30.
Definition AMP_MAX_PKI_QUERY_INTERVAL : Z := Z.shiftl 30 7.
Definition get_next_timeout (timeout : Z) : Z :=
  if timeout <? AMP_MIN_PKI_QUERY_INTERVAL then AMP_MIN_PKI_QUERY_INTERVAL
  else if timeout >=? AMP_MAX_PKI_QUERY_INTERVAL then AMP_MAX_PKI_QUERY_INTERVAL
  else Z.shiftl timeout 1.

(** The two loops of get_certificate(): [act] until it no longer asks to be tried again. *)
Fixpoint retry (n : nat) (act : io Z) (waitforcert : bool) (timeout : Z) : io Z :=
  match n with
  | O => lift (Fault OutOfFuel)
  | S n =>
      res ← act;
      if (res >? 0) && waitforcert then
        _ ← sleep timeout;
        retry n act waitforcert (get_next_timeout timeout)
      else mret res
  end.
(** A round that goes on has used up a transfer. *)
Definition retry_all (act : io Z) (waitforcert : bool) : io Z := fun w =>
  retry (S (length (net w))) act waitforcert AMP_MIN_PKI_QUERY_INTERVAL w.

(** The part of get_certificate() that has the key: a certificate may be there already,
    if not a request is sent until it is accepted, and then the certificate fetched. *)
Definition obtain (o : amp_ssl_opt) (ampname collector : cstr) (waitforcert : bool) (k : rsa) : io Z :=
  r ← fetch_certificate o ampname collector;
  if r =? 0 then mret 0
  else
    q ← create_new_csr k ampname;
    match q with
    | None => mret (-1)
    | Some q =>
        sent ← retry_all (send_csr q collector (cacert o)) waitforcert;
        if negb (sent =? 0) then mret (-1)
        else retry_all (fetch_certificate o ampname collector) waitforcert
    end.
Definition get_certificate (o : amp_ssl_opt) (ampname collector : cstr) (waitforcert : bool) : io Z :=
  k ← exists_ (key o) false;
  c ← (if k =? 0 then exists_ (cert o) false else mret 1);
  if c =? 0 then mret 0
  else
    d ← check_key_directories (keys_dir o);
    if d <? 0 then mret (-1)
    else
      k ← get_key_file (key o);
      match k with
      | None => mret (-1)
      | Some k => obtain o ampname collector waitforcert k
      end.
End Certs.

(** ** Waiting *)

(** The seconds before the next try but [i]: doubled seven times, then the same. *)
Definition interval (i : nat) : Z := Z.shiftl 30 (Z.of_nat (Nat.min i 7)).
Lemma interval_range i : AMP_MIN_PKI_QUERY_INTERVAL <= interval i <= AMP_MAX_PKI_QUERY_INTERVAL.
Proof.
  unfold interval. assert (Hi : (Nat.min i 7 <= 7)%nat) by lia. revert Hi. generalize (Nat.min i 7). intros n Hn.
  do 8 (destruct n as [|n]; [by vm_compute|]). lia.
Qed.
Lemma next_interval i : get_next_timeout (interval i) = interval (S i).
Proof.
  do 7 (destruct i as [|i]; [reflexivity|]). unfold interval.
  rewrite !Nat.min_r by lia. reflexivity.
Qed.

(** ** What the functions leave alone *)

Section Frames.
Context `{C : Crypto}.
Context (R : machine -> machine -> Prop) (allowed : list ascii -> Prop) `{!Frame R allowed}.

Lemma keeps_all_work n : keeps R (all_work n).
Proof. induction n as [|n IH]; cbn [all_work]; keeps; done. Qed.
Lemma post_all_work waits n w (Q : bool -> machine -> Prop) :
  (forall ok es, Q ok (with_errors w es)) -> post waits (all_work n) w Q.
Proof.
  revert w. induction n as [|n IH]; intros w HQ; cbn [all_work].
  - apply post_ret. rewrite <- (with_errors_same w). apply HQ.
  - apply post_bind, post_works. intros [] es; cbn [negb]; [|apply post_ret, HQ]. apply IH. intros ok es'. apply HQ.
Qed.
(** The digest is the one asked for, if any. *)
Lemma keeps_hash {A} digest s (k : option (list Z) -> io A) :
  keeps R (k None) -> keeps R (k (Some (digest s))) -> keeps R (hash digest s ≫= k).
Proof.
  intros H1 H2 w. apply post_bind, post_bind, post_all_work. intros ok es. apply post_ret.
  eapply post_mono; [|destruct ok; [apply H2|apply H1]]. cbn. intros _ w' Hw.
  transitivity (with_errors w es); [apply frame_errors|done].
Qed.
Lemma keeps_load p : keeps R (load_existing_key_file p).
Proof. unfold load_existing_key_file. keeps. Qed.
Lemma keeps_sign p digest : keeps R (sign p digest).
Proof.
  apply keeps_after; [apply keeps_load|]. intros [k|]; [|apply keeps_done].
  apply keeps_after; [apply keeps_all_work|]. intros. apply keeps_done.
Qed.
Lemma keeps_create_csr k name : keeps R (create_new_csr k name).
Proof. apply keeps_after; [apply keeps_all_work|]. intros. apply keeps_done. Qed.
Lemma keeps_directories d : keeps R (check_key_directories d).
Proof. unfold check_key_directories. keeps. Qed.
Lemma keeps_download o u : allowed (cert o) -> keeps R (download o u).
Proof.
  intros Hc. unfold download. apply keeps_after; [by apply keeps_fopen_w|]. intros []; cbn [negb]; [|apply keeps_done].
  apply keeps_after; [apply keeps_perform; by intros p [= <-]|]. intros t.
  apply keeps_after; [by apply keeps_fclose|]. intros _.
  apply keeps_if; [|apply keeps_if]; [..|apply keeps_done];
    (apply keeps_after; [by apply keeps_unlink|intros; apply keeps_done]).
Qed.
Lemma keeps_fetch_certificate o name collector : allowed (cert o) -> keeps R (fetch_certificate o name collector).
Proof.
  intros Hc. apply keeps_hash; [apply keeps_done|]. destruct (sha256 _) as [|x l]; [apply keeps_done|].
  apply keeps_after; [apply keeps_sign|]. intros [[|y s]|]; [apply keeps_done| |apply keeps_done].
  apply keeps_after; [apply keeps_works|]. intros []; cbn [negb]; [|apply keeps_done].
  apply keeps_after; [apply keeps_works|]. intros []; cbn [negb]; [by apply keeps_download|apply keeps_done].
Qed.
Lemma keeps_send_csr `{!CryptoLaws C} q collector ca : keeps R (send_csr q collector ca).
Proof.
  apply keeps_after; [apply keeps_after; [apply keeps_all_work|intros; apply keeps_done]|].
  intros [s|]; [|apply keeps_done]. apply keeps_after; [apply keeps_works|]. intros []; cbn [negb]; [|apply keeps_done].
  apply keeps_hash; [apply keeps_done|]. destruct (md5 s) as [|x l] eqn:E; [apply keeps_done|].
  assert (fingerprint_fits (x :: l) = true) as ->.
  { unfold fingerprint_fits. by rewrite <- E, md5_length. }
  apply keeps_after; [apply keeps_done|]. intros _. apply keeps_after; [apply keeps_works|].
  intros []; cbn [negb]; [|apply keeps_done]. apply keeps_after; [by apply keeps_perform|]. intros. apply keeps_done.
Qed.

(** The sleeps of a retry are those of [interval]. *)
Lemma keeps_retry act waitforcert :
  keeps R act -> (forall w i, R w (with_log w (log w ++ [Slept (interval i)]))) ->
  keeps R (retry_all act waitforcert).
Proof.
  intros Ha Hs.
  assert (Hr : forall n i, keeps R (retry n act waitforcert (interval i))).
  { induction n as [|n IH]; intros i; cbn [retry]; [by intros w|].
    apply keeps_after; [done|]. intros r. apply keeps_if; [|apply keeps_done].
    apply keeps_after; [apply keeps_state; intros; apply Hs|]. intros _. rewrite next_interval. apply IH. }
  intros w. apply (Hr _ O).
Qed.
End Frames.

(** ** Results *)

Lemma post_and {A} waits (m : io A) w (P Q : A -> machine -> Prop) :
  post waits m w P -> post waits m w Q -> post waits m w (fun a w => P a w /\ Q a w).
Proof. unfold post. destruct (m w) as [[a w']|]; auto. Qed.
(** What a function establishes wherever it starts. *)
Definition yields {A} (m : io A) (Q : A -> machine -> Prop) : Prop := forall w, post True m w Q.

#[export] Instance true_frame : Frame (fun _ _ => True) (fun _ => True).
Proof. split; try done. Qed.
(** After a function whose result does not matter. *)
Lemma post_skip {A B} (m : io A) (k : A -> io B) w Q :
  keeps (fun _ _ => True) m -> (forall a w, post True (k a) w Q) -> post True (m ≫= k) w Q.
Proof. intros Hm Hk. apply post_bind. eapply post_mono; [|exact (Hm w)]. intros a w1 _. apply Hk. Qed.

(** A file with something in it, or one that was lost when it was closed. *)
Definition present (p : list ascii) (w : machine) : Prop :=
  exists f, files w !! p = Some f /\ (bytes f <> [] \/ FlushFailed p ∈ log w).

Lemma exists_yields p strict : yields (exists_ p strict) (fun r w => r = 0 -> present p w).
Proof.
  intros w. apply post_bind, post_stat.
  - intros e es He. apply post_ret. rewrite (proj2 (Z.eqb_neq _ _)) by done. done.
  - intros es _ _. apply post_ret. by destruct strict.
  - intros f es Hf. apply post_ret. cbn. intros H. exists f. split; [done|]. left. intros E. rewrite E in H.
    by destruct strict.
  - intros es _ _. by apply post_ret.
Qed.

Section Results.
Context `{C : Crypto} `{!CryptoLaws C}.

Lemma download_yields o u : yields (download o u) (fun r w => r = 0 -> present (cert o) w).
Proof.
  intros w. apply post_bind, post_fopen_w; [by intros; apply post_ret|]. intros es. cbn [negb].
  apply post_bind, post_perform; [done|]. cbn zeta. intros t ts Hts. set (w1 := written _ _ _).
  assert (H1 : files w1 !! cert o = Some {| bytes := t_body t; mtime := clock w1;
    mode := default 0 (mode <$> files w1 !! cert o) |}).
  { unfold w1, written, opened. cbn. by rewrite lookup_alter_eq, lookup_insert_eq. }
  assert (Hrest : forall w2, (0 < Z.of_nat (length (t_body t)) -> present (cert o) w2) ->
    post True (if negb (t_ok t) then _ ← unlink (cert o); mret 2
      else if negb (t_code t =? 200) || (Z.of_nat (length (t_body t)) <=? 0) then
        _ ← unlink (cert o); mret (if t_code t =? 403 then 1 else 2)
      else mret 0) w2 (fun r w => r = 0 -> present (cert o) w)).
  { intros w2 Hp. destruct (t_ok t); cbn [negb]; [|by apply post_bind, post_unlink; intros; apply post_ret].
    destruct (_ || _) eqn:E.
    - apply post_bind, post_unlink; intros; apply post_ret; by destruct (_ =? 403).
    - apply post_ret. intros _. apply orb_false_iff in E as [_ E%Z.leb_gt]. by apply Hp. }
  apply post_bind, post_fclose; intros; cbn beta iota; apply Hrest; intros Hl; unfold present.
  - eexists. split; [exact H1|]. left. cbn. intros En. rewrite En in Hl. cbn in Hl. lia.
  - cbn -[w1]. rewrite lookup_alter_eq, H1. eexists. split; [done|]. right. set_solver.
Qed.
Lemma fetch_yields o name collector :
  yields (fetch_certificate o name collector) (fun r w => r = 0 -> present (cert o) w).
Proof.
  intros w. apply post_bind, post_bind, post_all_work. intros ok es. apply post_ret. destruct ok; [|by apply post_ret].
  destruct (sha256 _) as [|x l]; [by apply post_ret|]. 
  apply post_skip; [apply (keeps_sign _ (fun _ => True))|]. intros [[|y s]|] w1; [by apply post_ret| |by apply post_ret].
  apply post_bind, post_works. intros [] es1; cbn [negb]; [|by apply post_ret].
  apply post_bind, post_works. intros [] es2; cbn [negb]; [apply download_yields|by apply post_ret].
Qed.
Lemma retry_yields act waitforcert Q : yields act Q -> yields (retry_all act waitforcert) Q.
Proof.
  intros Ha.
  assert (Hr : forall n s, yields (retry n act waitforcert s) Q).
  { induction n as [|n IH]; intros s w; cbn [retry]; [done|]. apply post_bind. eapply post_mono; [|apply Ha].
    intros r w1 HQ. destruct (_ && _); [|by apply post_ret]. apply post_bind, post_state, IH. }
  intros w. apply Hr.
Qed.

(** ** The private key *)

(** Nobody but the owner and the group can use the file. *)
Definition private (p : list ascii) (w : machine) : Prop :=
  match files w !! p with Some f => Z.land (mode f) 7 = 0 | None => True end.
Definition key_kept (p : list ascii) (w w' : machine) : Prop :=
  (forall f, files w !! p = Some f -> bytes f <> [] -> files w' !! p = Some f) /\ (private p w -> private p w') /\
  (is_Some (files w !! p) -> is_Some (files w' !! p)) /\ log w `prefix_of` log w'.
#[export] Instance key_kept_frame p : Frame (key_kept p) (fun q => q <> p).
Proof.
  split; try done.
  - split; [by intros w|]. intros w1 w2 w3 (A1 & B1 & C1 & D1) (A2 & B2 & C2 & D2).
    split_and!; [intros f Hf Hb; apply A2; auto|auto|auto|by etrans].
  - intros w r. split_and!; [done..|]. by eexists.
  - intros w r. split_and!; [done..|]. by eexists.
  - intros w q fs Hq Hfs. unfold key_kept, private. cbn. by rewrite Hfs.
Qed.

(** Writing and closing the new key: its mode stays, and it is there. *)
Lemma write_key_post {A} p w f b (r : A) :
  files w !! p = Some f ->
  post True (_ ← fwrite p b; _ ← fclose p; mret r : io A) w (fun r' w' => r' = r /\
    exists f', files w' !! p = Some f' /\ mode f' = mode f /\ log w `prefix_of` log w' /\
      (bytes f' = bytes f ++ b \/ FlushFailed p ∈ log w')).
Proof.
  intros Hf. apply post_bind, post_state, post_bind, post_fclose; intros; apply post_ret; (split; [done|]); cbn.
  - rewrite lookup_alter_eq, Hf. eexists. split; [done|]. cbn. auto.
  - rewrite !lookup_alter_eq, Hf. eexists. split; [done|]. cbn. split_and!; [done|by eexists|right; set_solver].
Qed.
Lemma create_post p w :
  post True (create_new_key_file p) w
    (fun r w' => (private p w -> private p w') /\ (is_Some r -> present p w') /\
       (is_Some (files w !! p) -> is_Some (files w' !! p)) /\ log w `prefix_of` log w').
Proof.
  apply post_bind, post_works. intros [] es; cbn [negb]; [|apply post_ret; split_and!; try done; by intros []].
  apply post_bind, post_state, post_bind, post_fopen_w.
  { intros es1. apply post_bind, post_state, post_ret. split_and!; try done; by intros []. }
  intros es1. apply post_bind, post_state. cbn [negb].
  assert (Hf : forall es2, exists f, files (with_errors (snd (mask (opened (with_errors (snd (mask (with_errors w es),
    with_mask (with_errors w es) 23)) es1) p), with_mask (opened (with_errors (snd (mask (with_errors w es),
    with_mask (with_errors w es) 23)) es1) p) (fst (mask (with_errors w es), with_mask (with_errors w es) 23)))) es2) !! p
    = Some f /\ (private p w -> Z.land (mode f) 7 = 0) /\ bytes f = []).
  { intros es2. cbn. rewrite lookup_insert_eq. eexists. split; [done|]. split; [|done]. cbn. unfold private.
    by destruct (files w !! p). }
  apply post_bind, post_call. intros e es2. destruct (Hf es2) as (f & Ef & Hm & Hb).
  destruct e as [n|]; (eapply post_mono; [|by eapply write_key_post]); cbn beta;
    intros r w' (-> & f' & Ef' & Em & Hl & Hbytes); unfold private; rewrite Ef', Em; (split; [done|]); (split; [|split; [by eauto|done]]).
  - by intros [].
  - intros _. exists f'. split; [done|]. destruct Hbytes as [E|E]; [left|by right]. rewrite E, Hb. apply pem_rsa_some.
Qed.
Lemma get_key_file_post p w :
  post True (get_key_file p) w (fun r w' => key_kept p w w' /\ (is_Some r -> present p w')).
Proof.
  assert (Hcreate : forall es, (forall f, files w !! p = Some f -> bytes f = []) ->
    post True (create_new_key_file p) (with_errors w es)
      (fun r w' => key_kept p w w' /\ (is_Some r -> present p w'))).
  { intros es Hf. eapply post_mono; [|apply create_post]. intros r w' (H1 & H2 & H3 & H4). split; [|done].
    split_and!; [|done..]. intros f E Hb. by destruct Hb; apply Hf. }
  unfold get_key_file, exists_. apply post_bind, post_bind, post_stat.
  - intros e es He. apply post_ret. rewrite (proj2 (Z.eqb_neq e ENOENT) He). cbn. split; [apply frame_errors|by intros []].
  - intros es Hn _. apply post_ret, Hcreate. intros f. by rewrite Hn.
  - intros f es Hf. apply post_ret. cbn. destruct (bytes f) as [|b l] eqn:Eb.
    + apply Hcreate. intros f'. rewrite Hf. by intros [= <-].
    + apply post_bind, post_fopen_r; intros es'; apply post_ret; (split; [exact (frame_errors w es')|]); [by intros []|].
      intros _. exists f. split; [done|]. left. by rewrite Eb.
  - intros es _ _. apply post_ret. split; [apply frame_errors|by intros []].
Qed.
End Results.

(** ** Getting a certificate *)

Section Get.
Context `{C : Crypto} `{!CryptoLaws C}.

(** Every sleep of [w'] that [w] does not have is within the limits. *)
Definition sleeps_ok (w w' : machine) : Prop :=
  exists acts, log w' = log w ++ acts /\
    forall s, Slept s ∈ acts -> AMP_MIN_PKI_QUERY_INTERVAL <= s <= AMP_MAX_PKI_QUERY_INTERVAL.
#[export] Instance sleeps_ok_frame : Frame sleeps_ok (fun _ => True).
Proof.
  assert (Hn : forall w w', log w' = log w -> sleeps_ok w w').
  { intros w w' E. exists []. rewrite app_nil_r. split; [done|]. by intros s ?%elem_of_nil. }
  split; try (intros; by apply Hn).
  - split; [intros w; by apply Hn|]. intros w1 w2 w3 (l1 & E1 & H1) (l2 & E2 & H2). exists (l1 ++ l2).
    rewrite E2, E1, <- app_assoc. split; [done|]. intros s [?|?]%elem_of_app; auto.
  - intros w r. exists [Requested r]. split; [done|]. by intros s ?%list_elem_of_singleton.
  - intros w p. exists [FlushFailed p]. split; [done|]. by intros s ?%list_elem_of_singleton.
Qed.
Lemma sleeps_ok_interval w i : sleeps_ok w (with_log w (log w ++ [Slept (interval i)])).
Proof. exists [Slept (interval i)]. split; [done|]. intros s [= ->]%list_elem_of_singleton. apply interval_range. Qed.

Section Frames2.
Context (R : machine -> machine -> Prop) (allowed : list ascii -> Prop) `{!Frame R allowed}.
Context (sleeps : forall w i, R w (with_log w (log w ++ [Slept (interval i)]))).

Lemma keeps_obtain o ampname collector waitforcert k :
  allowed (cert o) -> keeps R (obtain o ampname collector waitforcert k).
Proof using All.
  intros Hc. pose proof (fun name c => keeps_fetch_certificate R allowed o name c Hc) as Hf.
  apply keeps_after; [apply Hf|]. intros r. apply keeps_if; [apply keeps_done|].
  apply keeps_after; [apply (keeps_create_csr _ allowed)|]. intros [q|]; [|apply keeps_done].
  apply keeps_after; [apply (keeps_retry _ allowed); [apply (keeps_send_csr _ allowed)|done]|]. intros sent.
  apply keeps_if; [apply keeps_done|]. apply (keeps_retry _ allowed); [apply Hf|done].
Qed.
Lemma keeps_get_certificate o ampname collector waitforcert :
  allowed (cert o) -> keeps R (get_key_file (key o)) -> keeps R (get_certificate o ampname collector waitforcert).
Proof using All.
  intros Hc Hk. apply keeps_after; [apply keeps_exists|]. intros k.
  apply keeps_after; [apply keeps_if; [apply keeps_exists|apply keeps_done]|]. intros c.
  apply keeps_if; [apply keeps_done|]. apply keeps_after; [apply (keeps_directories _ allowed)|]. intros d.
  apply keeps_if; [apply keeps_done|]. apply keeps_after; [apply Hk|]. intros [k'|]; [by apply keeps_obtain|apply keeps_done].
Qed.
End Frames2.

Lemma present_kept p w w' : key_kept p w w' -> present p w -> present p w'.
Proof.
  intros (H1 & _ & H3 & [l Hl]) (f & Hf & [Hb|Hb]).
  - exists f. split; [by apply H1|by left].
  - destruct (H3 ltac:(eauto)) as [f' Hf']. exists f'. split; [done|]. right. rewrite Hl. set_solver.
Qed.
Lemma key_kept_slept p w i : key_kept p w (with_log w (log w ++ [Slept (interval i)])).
Proof. split_and!; [done..|]. by eexists. Qed.
Lemma get_key_file_kept p : keeps (key_kept p) (get_key_file p).
Proof. intros w. eapply post_mono; [|apply get_key_file_post]. by intros r w' [H _]. Qed.
Lemma obtain_yields o ampname collector waitforcert k :
  yields (obtain o ampname collector waitforcert k) (fun r w => r = 0 -> present (cert o) w).
Proof.
  pose proof (keeps_send_csr (fun _ _ => True) (fun _ => True)) as Hsend.
  intros w. apply post_bind. eapply post_mono; [|apply fetch_yields]. intros r w1 H1.
  destruct (Z.eqb_spec r 0) as [Hr|_]; [by apply post_ret; intros _; apply H1|].
  apply post_skip; [apply (keeps_create_csr _ (fun _ => True))|]. intros [q|] w2; [|by apply post_ret].
  apply post_skip; [by apply (keeps_retry _ (fun _ => True)); [apply Hsend|]|]. intros sent w3.
  destruct (negb _); [by apply post_ret|]. apply retry_yields, fetch_yields.
Qed.
Lemma get_certificate_yields o ampname collector waitforcert :
  key o <> cert o ->
  yields (get_certificate o ampname collector waitforcert)
    (fun r w => r = 0 -> present (key o) w /\ present (cert o) w).
Proof.
  intros Hne w.
  assert (Hrest : forall w2, post True
    (d ← check_key_directories (keys_dir o);
     if d <? 0 then mret (-1)
     else k ← get_key_file (key o);
          match k with None => mret (-1) | Some k => obtain o ampname collector waitforcert k end) w2
    (fun r w => r = 0 -> present (key o) w /\ present (cert o) w)).
  { intros w2. apply post_skip; [apply (keeps_directories _ (fun _ => True))|]. intros d w3.
    destruct (d <? 0); [by apply post_ret|]. apply post_bind. eapply post_mono; [|apply get_key_file_post].
    intros [k|] w4 [_ H4]; [|by apply post_ret].
    eapply post_mono; [|apply post_and; [apply (keeps_obtain (key_kept (key o)) (fun q => q <> key o))|apply obtain_yields]].
    - intros r w5 [K5 H5] Hr. split; [by eapply present_kept; eauto|by apply H5].
    - apply key_kept_slept.
    - intros Hq. by apply Hne. }
  apply post_bind. eapply post_mono; [|apply exists_yields]. intros k w1 H1. cbn beta.
  apply post_bind. destruct (Z.eqb_spec k 0) as [Hk|_]; [|apply post_ret, Hrest].
  eapply post_mono; [|apply post_and; [apply (keeps_exists (R := key_kept (key o)))|apply exists_yields]].
  intros c w2 [K2 H2]. destruct (Z.eqb_spec c 0) as [Hc|_]; [|apply Hrest].
  apply post_ret. intros _. split; [by eapply present_kept; eauto|by apply H2].
Qed.

(** C30: getting a certificate never harms the private key.  For a key and a certificate
    in different files, whatever fails on the way, a key file that is not empty stays as it
    is, and a key that is made where there was no file can be used by its owner and group
    only (an empty file that is already there is filled without a change to its
    mode); all waits between two tries are of 30 to 3840 seconds; the digest is not written
    past its buffer; and the function returns 0 only when there are files for the key and the
    certificate, neither of them empty unless an fclose() that failed, which is not
    checked, lost the content.  The only other outcome is to wait for a server that
    does not answer. *)
Theorem get_certificate_safe o ampname collector waitforcert w :
  key o <> cert o ->
  match get_certificate o ampname collector waitforcert w with
  | Ok (r, w') =>
      (forall f, files w !! key o = Some f -> bytes f <> [] -> files w' !! key o = Some f) /\
      (private (key o) w -> private (key o) w') /\ (files w !! key o = None -> private (key o) w') /\ sleeps_ok w w' /\
      (r = 0 -> present (key o) w' /\ present (cert o) w')
  | Fault f => f = OutOfFuel
  end.
Proof.
  intros Hne.
  assert (Hk : keeps (key_kept (key o)) (get_certificate o ampname collector waitforcert)).
  { apply (keeps_get_certificate _ (fun q => q <> key o)); [apply key_kept_slept| |apply get_key_file_kept]. intros E. by apply Hne. }
  assert (Hs : keeps sleeps_ok (get_certificate o ampname collector waitforcert)).
  { apply (keeps_get_certificate _ (fun _ => True)); [apply sleeps_ok_interval|done|].
    unfold get_key_file, load_existing_key_file, create_new_key_file. keeps. }
  pose proof (post_and _ _ _ _ _ (Hk w) (post_and _ _ _ _ _ (Hs w) (get_certificate_yields o ampname collector waitforcert Hne w)))
    as H. unfold post in H. destruct (get_certificate _ _ _ _ w) as [[r w']|f]; [|apply H].
  destruct H as ((K1 & K2 & _) & H2 & H3). split_and!; try done. intros Hn. apply K2. unfold private. by rewrite Hn.
Qed.
End Get.

(** ** When nothing but the server says no *)

Section Progress.
Context `{C : Crypto} `{!CryptoLaws C}.

Definition slept (l : list action) : list Z := omap (fun a => match a with Slept s => Some s | _ => None end) l.
Lemma slept_app l l' : slept (l ++ l') = slept l ++ slept l'.
Proof. unfold slept. apply omap_app. Qed.

Lemma all_work_run n w : errors w = [] -> all_work n w = Ok (true, w).
Proof. intros He. induction n as [|n IH]; cbn [all_work]; [done|]. by run works_run. Qed.
Lemma hash_run digest s w : errors w = [] -> hash digest s w = Ok (Some (digest s), w).
Proof. intros He. unfold hash. by run all_work_run. Qed.

Lemma csr_string_run q w : errors w = [] -> get_csr_string q w = Ok (Some (pem_csr q), w).
Proof. intros He. unfold get_csr_string. by run all_work_run. Qed.

Definition accepted (t : transfer) : bool := t_ok t && (t_code t =? 202).
Definition signed (t : transfer) : bool :=
  t_ok t && (t_code t =? 200) && negb (bool_decide (t_body t = [])).
Definition fetch_result (t : transfer) : Z :=
  if signed t then 0 else if t_ok t && (t_code t =? 403) then 1 else 2.

(** A machine where the calls work and the key of [k] is in place. *)
Definition usable (o : amp_ssl_opt) (k : rsa) (w : machine) : Prop :=
  errors w = [] /\ (cert o ∉ dirs w) /\ bytes <$> files w !! key o = Some (pem_rsa k).
Definition asked (w w' : machine) : Prop := exists r, log w' = log w ++ [Requested r].

Lemma send_csr_run o k q collector ca w t ts :
  usable o k w -> net w = t :: ts ->
  exists w', send_csr q collector ca w = Ok (if accepted t then 0 else 1, w') /\
    usable o k w' /\ net w' = ts /\ asked w w'.
Proof.
  intros (He & Hd & Hk) Hn. unfold send_csr. run csr_string_run. run works_run. cbn [negb]. run hash_run.
  pose proof (md5_length (pem_csr q)) as Hl. destruct (md5 (pem_csr q)) as [|x l] eqn:E; [done|].
  assert (fingerprint_fits (x :: l) = true) as -> by (unfold fingerprint_fits; by rewrite Hl).
  erewrite bind_run by done. run works_run. cbn [negb]. erewrite bind_run by (by apply perform_run).
  eexists. split; [by unfold accepted; destruct (t_ok t), (t_code t =? 202)|]. cbn. split_and!; [done..|]. by eexists.
Qed.

Lemma sign_run o k digest w : usable o k w -> sign (key o) digest w = Ok (Some (rsa_sign k digest), w).
Proof.
  intros (He & _ & Hk). unfold sign.
  assert (E : load_existing_key_file (key o) w = Ok (Some k, w)).
  { unfold load_existing_key_file. run fopen_r_run. rewrite Hk. cbn. by rewrite read_pem. }
  erewrite bind_run by exact E. cbn beta iota. by run all_work_run.
Qed.
Lemma download_run o u k w t ts :
  key o <> cert o -> usable o k w -> net w = t :: ts ->
  exists w', download o u w = Ok (fetch_result t, w') /\ usable o k w' /\ net w' = ts /\ asked w w' /\
    (signed t = true -> bytes <$> files w' !! cert o = Some (t_body t)).
Proof.
  intros Hne (He & Hd & Hk) Hn. unfold download. erewrite bind_run by (by apply fopen_w_run). cbn [negb].
  erewrite bind_run by (by apply perform_run). cbn zeta. set (w1 := written _ _ _).
  erewrite bind_run by (by apply fclose_run). cbn beta iota.
  assert (H1 : errors w1 = [] /\ net w1 = ts /\ asked w w1 /\ dirs w1 = dirs w) by (split_and!; try done; by eexists).
  assert (Hk1 : forall fs, (forall p, p <> cert o -> fs !! p = files w !! p) ->
    usable o k (with_files w1 fs)).
  { intros fs Hfs. destruct H1 as (E1 & _ & _ & E4). split_and!; [done|by rewrite <- E4 in Hd|]. cbn. by rewrite Hfs. }
  assert (Hw1 : forall p, p <> cert o -> files w1 !! p = files w !! p).
  { intros p Hp. unfold w1, written, opened. cbn. by rewrite lookup_alter_ne, lookup_insert_ne. }
  assert (Hdel : exists w', unlink (cert o) w1 = Ok (true, w') /\ usable o k w' /\ net w' = ts /\ asked w w').
  { destruct H1 as (E1 & E2 & E3 & E4). eexists. split; [by apply unlink_run|]. split; [|by split].
    apply Hk1. intros p Hp. rewrite lookup_delete_ne by done. by apply Hw1. }
  destruct Hdel as (w2 & E2 & U2 & N2 & A2). destruct H1 as (E1 & N1 & A1 & _). unfold fetch_result, signed.
  destruct (t_ok t); cbn [negb andb]; [|exists w2; by erewrite bind_run by exact E2].
  destruct (Z.eqb_spec (t_code t) 200) as [Hc|Hc]; cbn [negb orb andb].
  - destruct (t_body t) as [|b l] eqn:Eb; cbn [length].
    + change (Z.of_nat 0 <=? 0) with true. cbn iota. rewrite bool_decide_eq_true_2 by done. exists w2. erewrite bind_run by exact E2. by rewrite Hc.
    + rewrite bool_decide_eq_false_2 by done. cbn. exists w1. split_and!; [done| |done|done|].
      * replace w1 with (with_files w1 (files w1)) by done. by apply Hk1.
      * intros _. unfold w1, written, opened. cbn. by rewrite lookup_alter_eq, lookup_insert_eq.
  - exists w2. erewrite bind_run by exact E2. by destruct (t_code t =? 403).
Qed.
Lemma fetch_run o ampname collector k w t ts :
  key o <> cert o -> usable o k w -> net w = t :: ts ->
  exists w', fetch_certificate o ampname collector w = Ok (fetch_result t, w') /\ usable o k w' /\ net w' = ts /\
    asked w w' /\ (signed t = true -> bytes <$> files w' !! cert o = Some (t_body t)).
Proof.
  intros Hne U Hn. pose proof (proj1 U) as He. unfold fetch_certificate. run hash_run.
  pose proof (sha256_length (ch <$> ampname)) as Hl. destruct (sha256 _) as [|x l]; [done|].
  erewrite bind_run by (by eapply sign_run). cbn beta iota.
  pose proof (rsa_sign_some k (x :: l)) as Hs. destruct (rsa_sign k (x :: l)) as [|y s]; [done|].
  run works_run. cbn [negb]. run works_run. cbn [negb]. by apply download_run.
Qed.
End Progress.

Section Success.
Context `{C : Crypto} `{!CryptoLaws C}.

(** What [retry_all] does with an action that asks the server once. *)
Lemma retry_run (I : machine -> Prop) (P : transfer -> machine -> Prop) act (result : transfer -> Z) n i l t ts w :
  (forall w t ts, I w -> net w = t :: ts ->
     exists w', act w = Ok (result t, w') /\ I w' /\ net w' = ts /\ asked w w' /\ P t w') ->
  (forall w a, I w -> I (with_log w a)) ->
  I w -> net w = l ++ t :: ts -> Forall (fun t => 0 < result t) l -> result t <= 0 -> (length l < n)%nat ->
  exists w', retry n act true (interval i) w = Ok (result t, w') /\ I w' /\ net w' = ts /\ P t w' /\
    slept (log w') = slept (log w) ++ (interval <$> seq i (length l)).
Proof.
  intros Hact Hlog. revert i n w. induction l as [|u l IH]; intros i n w Hi Hn Hl Ht Hf;
    (destruct n as [|n]; [cbn in Hf; lia|]); cbn [retry app] in *.
  - destruct (Hact w t ts Hi Hn) as (w' & E & I' & N' & [r A'] & P'). erewrite bind_run by exact E.
    destruct (Z.gtb_spec (result t) 0); [lia|]. cbn. exists w'. split_and!; [done..|].
    rewrite A', slept_app. cbn. by rewrite app_nil_r.
  - inversion Hl as [|? ? Hu Hl']; subst. destruct (Hact w u _ Hi Hn) as (w1 & E & I1 & N1 & [r A1] & _).
    erewrite bind_run by exact E. destruct (Z.gtb_spec (result u) 0); [|lia]. cbn [andb].
    erewrite bind_run by reflexivity. rewrite next_interval.
    destruct (IH (S i) n (with_log w1 (log w1 ++ [Slept (interval i)]))) as (w' & E' & I' & N' & P' & S');
      [by apply Hlog|done|done|done|cbn in Hf; lia|].
    exists w'. split_and!; [done..|]. rewrite S'. cbn. rewrite slept_app, A1, slept_app. cbn.
    by rewrite app_nil_r, <- app_assoc.
Qed.

(** What a machine needs for a new key: places for it and for the certificate. *)
Definition fresh (o : amp_ssl_opt) (w : machine) : Prop :=
  errors w = [] /\ (key o ∉ dirs w) /\ (cert o ∉ dirs w) /\ files w !! key o = None /\
  (AMP_KEYS_DIR ∈ dirs w) /\ files w !! AMP_KEYS_DIR = None /\ (keys_dir o ∈ dirs w) /\ files w !! keys_dir o = None.
Lemma ensure_run d w : errors w = [] -> d ∈ dirs w -> files w !! d = None -> ensure_dir d w = Ok (true, w).
Proof. intros He Hd Hf. unfold ensure_dir. run stat_run. by rewrite Hf, bool_decide_eq_true_2. Qed.
Lemma exists_run_missing p w : errors w = [] -> files w !! p = None -> p ∉ dirs w -> exists_ p false w = Ok (1, w).
Proof. intros He Hf Hd. unfold exists_. run stat_run. by rewrite Hf, bool_decide_eq_false_2. Qed.
Lemma new_key_run o w :
  fresh o w -> key o <> cert o ->
  exists w', get_key_file (key o) w = Ok (Some new_key, w') /\ usable o new_key w' /\ net w' = net w /\ log w' = log w.
Proof.
  intros (He & Hk & Hc & Hf & _) Hne. unfold get_key_file. erewrite bind_run by (by apply exists_run_missing).
  change (1 =? 0) with false. change (1 =? 1) with true. cbn iota. unfold create_new_key_file. run works_run. cbn [negb]. erewrite bind_run by reflexivity.
  erewrite bind_run by (by apply fopen_w_run). erewrite bind_run by reflexivity. cbn [negb]. erewrite bind_run; [|unfold call, state; cbn; by rewrite He].
  cbn beta iota. erewrite bind_run by reflexivity. erewrite bind_run by (by apply fclose_run).
  eexists. split; [reflexivity|]. split; [|done]. split_and!; [exact He|exact Hc|].
  cbn. by rewrite lookup_alter_eq, lookup_insert_eq.
Qed.

Lemma create_csr_run k ampname w :
  errors w = [] ->
  create_new_csr k ampname w = Ok (Some {| csr_key := k; csr_cn := ampname; csr_o := str "client" |}, w).
Proof. intros He. unfold create_new_csr. by run all_work_run. Qed.
Lemma retries_left {X} (l : list X) t ts : (length l < S (length (l ++ t :: ts)))%nat.
Proof. rewrite length_app. cbn. lia. Qed.

Lemma obtain_run o ampname collector k w t0 refused yes pending good rest :
  usable o k w -> key o <> cert o ->
  net w = t0 :: refused ++ yes :: pending ++ good :: rest ->
  signed t0 = false -> Forall (fun t => accepted t = false) refused -> accepted yes = true ->
  Forall (fun t => signed t = false) pending -> signed good = true ->
  exists w', obtain o ampname collector true k w = Ok (0, w') /\ usable o k w' /\ net w' = rest /\
    bytes <$> files w' !! cert o = Some (t_body good) /\
    slept (log w') = slept (log w) ++ (interval <$> seq 0 (length refused)) ++ (interval <$> seq 0 (length pending)).
Proof.
  intros U1 Hne Hn H0 Href Hyes Hpend Hgood. unfold obtain, retry_all.
  destruct (fetch_run o ampname collector k w t0 _ Hne U1 Hn) as (w2 & E2 & U2 & N2 & [r2 A2] & _).
  assert (Hres : forall t, signed t = false -> 0 < fetch_result t).
  { intros t Ht. unfold fetch_result. rewrite Ht. destruct (_ && _); lia. }
  erewrite bind_run by exact E2. rewrite (proj2 (Z.eqb_neq _ _)) by (specialize (Hres t0 H0); lia).
  erewrite bind_run by (apply create_csr_run, U2). cbn beta iota. set (q := {| csr_key := _ |}).
  destruct (retry_run (usable o k) (fun _ _ => True) (send_csr q collector (cacert o))
    (fun t => if accepted t then 0 else 1) (S (length (net w2))) 0 refused yes (pending ++ good :: rest) w2)
    as (w3 & E3 & U3 & N3 & _ & S3); [|done|done|done| |by rewrite Hyes|rewrite N2; apply retries_left|].
  { intros w' t ts U N. destruct (send_csr_run o k q collector (cacert o) w' t ts U N) as (w'' & Ec & Uc & Nc & Ac).
    by exists w''. }
  { eapply Forall_impl; [exact Href|]. cbn. intros t ->. lia. }
  erewrite bind_run by exact E3. rewrite Hyes. cbn [negb Z.eqb].
  destruct (retry_run (usable o k) (fun t w => signed t = true -> bytes <$> files w !! cert o = Some (t_body t))
    (fetch_certificate o ampname collector) fetch_result (S (length (net w3))) 0 pending good rest w3)
    as (w4 & E4 & U4 & N4 & P4 & S4); [|done|done|done| | |rewrite N3; apply retries_left|].
  { intros w' t ts U N. by apply fetch_run. }
  { eapply Forall_impl; [exact Hpend|]. cbn. apply Hres. }
  { unfold fetch_result. by rewrite Hgood. }
  exists w4. split; [etransitivity; [exact E4|]; unfold fetch_result; by rewrite Hgood|].
  split_and!; [done|done|by apply P4|]. rewrite S4, S3, A2, slept_app. cbn. by rewrite app_nil_r, <- app_assoc.
Qed.

(** C32: a client that is told to wait for its certificate gets it.  Let no call fail, the
    directories for keys exist, with no key in them and nothing in the way of the two
    files, which are different.  The client makes a key, asks for a certificate
    and gets it as soon as the server accepts the request and signs it: with a first
    query that finds nothing, any number of refused requests and any number of queries before
    the certificate is signed, the function returns 0 with the certificate of the server
    and the new key on disk, and has slept 30, 60, 120, ... up to 3840 seconds between
    its tries. *)
Theorem certificate_obtained o ampname collector w t0 refused yes pending good rest :
  fresh o w -> key o <> cert o ->
  net w = t0 :: refused ++ yes :: pending ++ good :: rest ->
  signed t0 = false -> Forall (fun t => accepted t = false) refused -> accepted yes = true ->
  Forall (fun t => signed t = false) pending -> signed good = true ->
  exists w', get_certificate o ampname collector true w = Ok (0, w') /\ net w' = rest /\
    bytes <$> files w' !! cert o = Some (t_body good) /\
    bytes <$> files w' !! key o = Some (pem_rsa new_key) /\
    slept (log w') = slept (log w) ++ (interval <$> seq 0 (length refused)) ++ (interval <$> seq 0 (length pending)).
Proof.
  intros Hfresh Hne Hn H0 Href Hyes Hpend Hgood. unfold get_certificate.
  destruct (new_key_run o w Hfresh Hne) as (w1 & E1 & U1 & N1 & L1).
  destruct Hfresh as (He & Hk & Hc & Hf & Ha & Haf & Hd & Hdf).
  erewrite bind_run by (by apply exists_run_missing). change (1 =? 0) with false. cbn iota.
  erewrite bind_run by reflexivity. change (1 =? 0) with false. cbn iota.
  assert (Edir : check_key_directories (keys_dir o) w = Ok (0, w)).
  { unfold check_key_directories. run ensure_run. cbn [negb]. by run ensure_run. }
  erewrite bind_run by exact Edir. change (0 <? 0) with false. cbn iota.
  erewrite bind_run by exact E1. cbn beta iota.
  destruct (obtain_run o ampname collector new_key w1 t0 refused yes pending good rest) as (w2 & E2 & U2 & N2 & P2 & S2);
    [done|done|by rewrite N1|done..|].
  exists w2. split_and!; [done|done|done|apply U2|]. by rewrite S2, L1.
Qed.
End Success.

(** ** Locations *)

Lemma exists_strict_yields p : yields (exists_ p true) (fun r w => ~ r < 0 -> present p w).
Proof.
  intros w. apply post_bind, post_stat.
  - intros e es He. apply post_ret. rewrite (proj2 (Z.eqb_neq _ _)) by done. cbn. lia.
  - intros es _ _. apply post_ret. cbn. lia.
  - intros f es Hf. apply post_ret. cbn. intros H. exists f. split; [done|]. left. intros E. rewrite E in H. by apply H.
  - intros es _ _. apply post_ret. cbn. lia.
Qed.
Lemma location_yields given default :
  yields (location given default) (fun r _ => forall p, r = Some p -> p = from_option id default given).
Proof.
  intros w. destruct given as [q|]; cbn [location].
  - apply post_bind. eapply post_mono; [|apply (exists_strict_yields q)]. intros r w1 _. apply post_ret.
    intros p. destruct (r <? 0); [done|]. by intros [= <-].
  - apply post_bind, post_works. intros [] es; apply post_ret; [by intros p [= <-]|done].
Qed.
(** The locations are those that were given, or the default ones, and the certificate
    of the collector exists. *)
Lemma check_key_locations_set o collector :
  yields (check_key_locations o collector) (fun ro w => fst ro = 0 ->
    exists ca, snd ro = {| o_cacert := Some ca;
      o_key := Some (from_option id (o_keys_dir o ++ str "/key.pem") (o_key o));
      o_cert := Some (from_option id (o_keys_dir o ++ str "/" ++ collector ++ str ".cert") (o_cert o));
      o_keys_dir := o_keys_dir o |} /\
      ca = from_option id (AMP_KEYS_DIR ++ str "/" ++ collector ++ str ".pem") (o_cacert o) /\ present ca w).
Proof.
  intros w. apply post_bind. eapply post_mono; [|apply location_yields]. intros [c|] w1 Hc; [|by apply post_ret].
  rewrite (Hc c eq_refl). apply post_bind. cbn [o_key o_keys_dir o_cacert].
  eapply post_mono; [|apply location_yields]. intros [k|] w2 Hk; [|by apply post_ret]. rewrite (Hk k eq_refl).
  apply post_bind. cbn [o_cacert]. eapply post_mono with (P := fun _ _ => True).
  - intros ok w3 _. destruct ok; cbn [negb]; [|by apply post_ret]. apply post_bind.
    eapply post_mono; [|apply exists_strict_yields]. intros r w4 H4. apply post_ret. cbn [fst snd].
    destruct (Z.ltb_spec r 0) as [Hr|Hr]; [done|]. intros _. eexists. split; [done|].
    split; [by destruct (o_cacert o)|]. apply H4. lia.
  - destruct (o_cacert o); [done|]. by apply post_works.
Qed.

(** ** URLs *)

(** The inverse, as the server decodes it. *)
Definition url_back (c : ascii) : ascii :=
  if ascii_dec c "-" then "+"%char else if ascii_dec c "_" then "/"%char else c.
Lemma url_safe_char c :
  "-"%char <> c -> "_"%char <> c -> url_back (url_safe c) = c /\ "/"%char <> url_safe c.
Proof. intros H1 H2. unfold url_safe, url_back. repeat destruct (ascii_dec _ _); split; congruence. Qed.
Lemma url_safe_roundtrip (s : cstr) :
  "-"%char ∉ s -> "_"%char ∉ s -> url_back <$> (url_safe <$> s) = s /\ "/"%char ∉ url_safe <$> s.
Proof.
  induction s as [|c s IH]; [intros; split; [done|apply not_elem_of_nil]|].
  intros [H1 H2]%not_elem_of_cons [H3 H4]%not_elem_of_cons. destruct (IH H2 H4) as [E N].
  destruct (url_safe_char c H1 H3) as [Ec Nc]. split; [|by apply not_elem_of_cons].
  etransitivity; [|apply (f_equal2 cons Ec E)]. done.
Qed.

(** ** A concrete run *)

#[local] Instance toy : Crypto := {|
  rsa := Z; new_key := 7; pem_rsa k := [k]; read_rsa l := match l with [k] => Some k | _ => None end;
  pem_csr _ := [1; 2; 3]; md5 _ := replicate 16 0; sha256 _ := replicate 32 0; rsa_sign k _ := [k];
  base64 _ := str "A+/=" |}.
#[local] Instance toy_laws : CryptoLaws toy.
Proof. split; done. Qed.

Definition sample_opts : amp_ssl_opt := {|
  cacert := str "/etc/amplet2/keys/amp.pem"; key := str "/etc/amplet2/keys/one/key.pem";
  cert := str "/etc/amplet2/keys/one/amp.cert"; keys_dir := str "/etc/amplet2/keys/one" |}.
Definition answer (code : Z) (body : list Z) : transfer :=
  {| t_ok := true; t_code := code; t_length := Z.of_nat (length body); t_unmet := false; t_body := body |}.
Definition new_client (ts : list transfer) : machine := {|
  files := ∅; dirs := {[ str "/etc/amplet2/keys" ]} ∪ {[ str "/etc/amplet2/keys/one" ]};
  clock := 0; mask := 18; errors := []; net := ts; log := [] |}.
Definition server_side : list transfer :=
  [answer 403 []; answer 500 []; answer 500 []; answer 202 []; answer 403 []; answer 200 [5; 5]].

Lemma certificate_obtained_witness :
  exists w', get_certificate sample_opts (str "one") (str "amp") true (new_client server_side) = Ok (0, w') /\
    net w' = [] /\ bytes <$> files w' !! cert sample_opts = Some [5; 5] /\
    bytes <$> files w' !! key sample_opts = Some [7] /\ slept (log w') = [30; 60; 30].
Proof.
  destruct (certificate_obtained sample_opts (str "one") (str "amp") (new_client server_side)
    (answer 403 []) [answer 500 []; answer 500 []] (answer 202 []) [answer 403 []] (answer 200 [5; 5]) [])
    as (w' & H1 & H2 & H3 & H4 & H5).
  - unfold fresh. split; [reflexivity|]. split; [apply (bool_decide_unpack _); vm_compute; exact I|].
    split; [apply (bool_decide_unpack _); vm_compute; exact I|]. split; [reflexivity|].
    split; [apply (bool_decide_unpack _); vm_compute; exact I|]. split; [reflexivity|].
    split; [apply (bool_decide_unpack _); vm_compute; exact I|]. reflexivity.
  - discriminate.
  - reflexivity.
  - reflexivity.
  - repeat constructor.
  - reflexivity.
  - repeat constructor.
  - reflexivity.
  - exists w'. split; [exact H1|]. split; [exact H2|]. split; [exact H3|]. split; [exact H4|exact H5].
Defined.
Lemma get_certificate_safe_witness :
  match get_certificate sample_opts (str "one") (str "amp") false (new_client server_side) with
  | Ok (r, w') =>
      (forall f, files (new_client server_side) !! key sample_opts = Some f -> bytes f <> [] ->
         files w' !! key sample_opts = Some f) /\
      (private (key sample_opts) (new_client server_side) -> private (key sample_opts) w') /\
      (files (new_client server_side) !! key sample_opts = None -> private (key sample_opts) w') /\
      sleeps_ok (new_client server_side) w' /\
      (r = 0 -> present (key sample_opts) w' /\ present (cert sample_opts) w')
  | Fault f => f = OutOfFuel
  end.
Proof. apply (get_certificate_safe sample_opts (str "one") (str "amp") false (new_client server_side)). discriminate. Defined.
(** The key of that run has mode 0640. *)
Example new_key_mode :
  match get_certificate sample_opts (str "one") (str "amp") false (new_client server_side) with
  | Ok (r, w) => r = -1 /\ mode <$> files w !! key sample_opts = Some 416 /\ mask w = 18
  | Fault _ => False
  end.
Proof. vm_compute. done. Qed.
(** An empty file counts as missing, but keeps its mode: everybody can read the key that is
    written to it. *)
Example empty_key_file_stays_readable :
  match get_certificate sample_opts (str "one") (str "amp") false
    (with_files (new_client server_side) {[ key sample_opts := {| bytes := []; mtime := 0; mode := 420 |} ]}) with
  | Ok (_, w) => files w !! key sample_opts = Some {| bytes := [7]; mtime := 0; mode := 420 |}
  | Fault _ => False
  end.
Proof. vm_compute. done. Qed.
