(* ===== verification/LocalSock.v ===== *)
(** Stream sockets between the processes of the client (the local sockets of the
    AS number cache and the name resolver), and addresses in memory.

    A socket that is read is a queue of chunks: recv() takes from the first
    chunk at most what it has room for, and the end of the queue, or an empty
    chunk, is a connection that was closed or failed.  A socket that is written
    is the list of what was sent. *)
From S2P Require Import Prelude CLib Address Bytes.
#[local] Open Scope Z_scope.

(** ** Receiving and sending *)

(** recv() with room for [room] elements. *)
Definition recv {A} (room : nat) (q : list (list A)) : option (list A * list (list A)) :=
  match q with
  | [] => None
  | c :: q =>
      match take room c with
      | [] => None
      | got => Some (got, match drop room c with [] => q | more => more :: q end)
      end
  end.

Lemma recv_Some {A} room (q q' : list (list A)) got :
  recv room q = Some (got, q') ->
  concat q = got ++ concat q' /\ got <> [] /\ (length got <= room)%nat /\
  (Forall (fun c => c <> []) q -> Forall (fun c => c <> []) q').
Proof.
  destruct q as [|c q]; [done|]. cbn [recv concat]. pose proof (take_drop room c) as Htd.
  assert (Hl : (length (take room c) <= room)%nat) by (rewrite length_take; lia).
  destruct (take room c) as [|x l] eqn:Et; [done|]. intros [= <- <-]. split_and!; [|done|done|].
  - rewrite <- Htd at 1. rewrite <- app_assoc. f_equal. by destruct (drop room c).
  - intros Hf. inversion Hf; subst. destruct (drop room c); [done|]. by constructor.
Qed.
Lemma recv_None {A} room (q : list (list A)) :
  recv room q = None -> Forall (fun c => c <> []) q -> q = [] \/ room = O.
Proof.
  destruct q as [|c q]; [by left|]. cbn [recv]. intros Hr Hf. inversion Hf; subst. right.
  destruct c as [|x c]; [done|]. by destruct room.
Qed.

(** The sending side of a connection: what was sent, and how many more calls of
    send() work. *)
Record conn : Set := { out : list (list Z); good : nat }.
Definition send (data : list Z) (c : conn) : bool * conn :=
  match good c with
  | O => (false, c)
  | S n => (true, {| out := out c ++ [data]; good := n |})
  end.
(** A sequence of send() calls that stops at the first that fails. *)
Fixpoint send_all (datas : list (list Z)) (c : conn) : Z * conn :=
  match datas with
  | [] => (0, c)
  | d :: datas => let '(ok, c) := send d c in if ok then send_all datas c else (-1, c)
  end.

(** struct in_addr or in6_addr in memory, and the whole sockaddr; the port and the
    padding, which no reader uses, are zero here. *)
Definition addr_bytes (a : sockaddr) : list Z :=
  match a with
  | SockIn x => le_bytes 4 x
  | SockIn6 ws => concat (le_bytes 2 <$> ws)
  | SockOther _ => []
  end.
Definition sockaddr_bytes (a : sockaddr) : list Z :=
  le_bytes 2 (sa_family a) ++
  match a with
  | SockIn _ => [0; 0] ++ addr_bytes a ++ replicate 8 0
  | SockIn6 _ => [0; 0] ++ replicate 4 0 ++ addr_bytes a ++ replicate 4 0
  | SockOther _ => []
  end.
(** Reading them back, [n] 16-bit words from an offset. *)
Fixpoint words (n : nat) (l : list Z) : list Z :=
  match n with O => [] | S n => le_val (take 2 l) :: words n (drop 2 l) end.
Definition load_addr (family : Z) (l : list Z) : sockaddr :=
  if family =? AF_INET then SockIn (le_val (take 4 l)) else SockIn6 (words 8 l).
(** A whole sockaddr of which [l] was received. *)
Definition load_sockaddr (l : list Z) : res sockaddr :=
  let family := le_val (take 2 l) in
  if family =? AF_INET then Ok (load_addr family (drop 4 l))
  else if family =? AF_INET6 then
    if (length l <? 24)%nat then Fault Uninitialised else Ok (load_addr family (drop 8 l))
  else Ok (SockOther family).

(** recv() into a variable of [n] bytes: one that is filled only in part is not
    usable. *)
Definition read_field (n : nat) (q : list (list Z)) : res (option (list Z * list (list Z))) :=
  match recv n q with
  | None => Ok None
  | Some (b, q) => if (length b =? n)%nat then Ok (Some (b, q)) else Fault Uninitialised
  end.

(** ** What arrives of what was sent *)

(** The bytes of [sends] arrive in order, a send() never in pieces. *)
Definition aligned (q sends : list (list Z)) : Prop :=
  exists groups, q = @concat Z <$> groups /\ concat groups = sends /\ Forall (fun g => g <> []) groups /\
    Forall (fun s => s <> []) sends.

Lemma recv_aligned q s sends :
  aligned q (s :: sends) -> exists q', recv (length s) q = Some (s, q') /\ aligned q' sends.
Proof.
  intros (groups & -> & E & Hg & Hs). destruct Hg as [|g groups Hne Hg]; [done|].
  destruct g as [|s' g]; [done|]. cbn in E. injection E as -> E. inversion Hs as [|? ? Hs1 Hs2]; subst.
  cbn [recv fmap list_fmap concat]. rewrite take_app_length, drop_app_length.
  destruct s as [|b s]; [done|]. eexists. split; [done|]. destruct g as [|s' g].
  - by exists groups.
  - exists ((s' :: g) :: groups). split_and!; [|done|by constructor|done].
    inversion Hs2; subst. cbn. by destruct s'.
Qed.
Lemma aligned_nil q n : aligned q [] -> recv n q = None.
Proof.
  intros (groups & -> & E & Hg & _). destruct Hg as [|g groups Hne Hg]; [done|]. by destruct g.
Qed.
Lemma aligned_length q sends : aligned q sends -> length (concat q) = length (concat sends).
Proof.
  intros (groups & -> & <- & _). induction groups as [|g groups IH]; cbn; [done|].
  by rewrite concat_app, !length_app, IH.
Qed.
Lemma read_aligned n q s sends :
  aligned q (s :: sends) -> length s = n ->
  exists q', read_field n q = Ok (Some (s, q')) /\ aligned q' sends.
Proof.
  intros Ha <-. apply recv_aligned in Ha as (q' & Hr & Ha). exists q'. split; [|done].
  unfold read_field. by rewrite Hr, Nat.eqb_refl.
Qed.

Lemma words_concat ws rest :
  Forall (fun w => 0 <= w < 65536) ws -> words (length ws) (concat (le_bytes 2 <$> ws) ++ rest) = ws.
Proof.
  intros Hw. induction Hw as [|w ws Hw Hws IH]; [done|].
  cbn [length words fmap list_fmap concat]. rewrite <- app_assoc.
  change 2%nat with (length (le_bytes 2 w)). rewrite take_app_length, drop_app_length.
  rewrite le_val_small by (cbn; lia). by f_equal.
Qed.
Lemma load_addr_bytes a rest : addr_wf a -> load_addr (sa_family a) (addr_bytes a ++ rest) = a.
Proof.
  destruct a as [x|ws|f]; cbn [addr_wf]; intros Hw; [| |done]; unfold load_addr; cbn -[words le_bytes].
  - change 4%nat with (length (le_bytes 4 x)). rewrite take_app_length.
    by rewrite le_val_small by (cbn; lia).
  - destruct Hw as [Hl Hw]. by rewrite <- Hl, words_concat.
Qed.
Lemma addr_bytes_length a : addr_wf a -> length (addr_bytes a) = if sa_family a =? AF_INET then 4%nat else 16%nat.
Proof.
  destruct a as [x|ws|f]; cbn [addr_wf]; [done| |done]. intros [Hl _].
  destruct ws as [|w0 [|w1 [|w2 [|w3 [|w4 [|w5 [|w6 [|w7 [|]]]]]]]]]; done.
Qed.
Lemma family_small a : addr_wf a -> 0 <= sa_family a < 65536.
Proof. destruct a; cbn; unfold AF_INET, AF_INET6; [lia..|done]. Qed.
Lemma load_sockaddr_bytes a : addr_wf a -> load_sockaddr (sockaddr_bytes a) = Ok a.
Proof.
  intros Hw. pose proof (addr_bytes_length a Hw) as Hl. unfold load_sockaddr, sockaddr_bytes.
  change 2%nat with (length (le_bytes 2 (sa_family a))) at 1. rewrite take_app_length.
  rewrite le_val_small by (by apply family_small). destruct a as [x|ws|f]; [| |done].
  - cbn [sa_family]. change (AF_INET =? AF_INET) with true. cbn iota.
    f_equal. apply (load_addr_bytes (SockIn x) (replicate 8 0)). done.
  - cbn [sa_family]. change (AF_INET6 =? AF_INET) with false. change (AF_INET6 =? AF_INET6) with true.
    cbn iota. rewrite (proj2 (Nat.ltb_ge _ _)) by (rewrite !length_app, Hl; cbn; lia).
    f_equal. apply (load_addr_bytes (SockIn6 ws) (replicate 4 0)). done.
Qed.
Lemma sockaddr_bytes_length a :
  addr_wf a -> length (sockaddr_bytes a) = if sa_family a =? AF_INET then 16%nat else 28%nat.
Proof.
  intros Hw. pose proof (addr_bytes_length a Hw) as Hl. unfold sockaddr_bytes.
  destruct a as [x|ws|f]; [done| |done]. rewrite !length_app, Hl. done.
Qed.
Lemma known_family a : addr_wf a -> (sa_family a =? AF_INET) || (sa_family a =? AF_INET6) = true.
Proof. by destruct a. Qed.
Lemma send_all_ok datas c :
  (length datas <= good c)%nat ->
  send_all datas c = (0, {| out := out c ++ datas; good := good c - length datas |}).
Proof.
  revert c. induction datas as [|d datas IH]; intros c Hc; cbn [send_all].
  - destruct c. cbn. by rewrite app_nil_r, Nat.sub_0_r.
  - unfold send. destruct (good c) as [|n] eqn:E; [cbn in Hc; lia|].
    rewrite IH by (cbn in *; lia). cbn. by rewrite <- app_assoc.
Qed.
Lemma aligned_fuel q sends : aligned q sends -> (length sends <= length (concat q))%nat.
Proof.
  intros Ha. rewrite (aligned_length _ _ Ha). destruct Ha as (_ & _ & _ & _ & Hs).
  induction Hs as [|s sends Hne Hs IH]; cbn; [lia|]. rewrite length_app. destruct s; [done|]. cbn. lia.
Qed.
