(* ===== verification/Resolver.v ===== *)
(** Name resolution: the callbacks that collect addresses (src/common/ampresolv.c)
    and the protocol between a test and the resolver thread (ampresolv.c and
    src/measured/nssock.c).

    The unbound library is a parameter: what it answers to each query, and the
    order in which it calls back.  The block a name's queries share is in a map
    from identities to live blocks, so using a freed one is a fault.  A callback is two
    parts, one under the lock of the list and one after it: [amp_resolve_callback] is
    both in a row, as when a single thread runs the callbacks, and the steps of [tick] are
    those of callbacks that overlap. *)
From stdpp Require Import gmap.
From S2P Require Import Prelude CLib Address Bytes Targets LocalSock.
#[local] Open Scope Z_scope.

(** ** Addresses of a name *)

(** struct addrinfo as the resolver fills it: no address for a name that has none. *)
Record item : Set := {
  i_flags : Z; i_family : Z; i_socktype : Z; i_protocol : Z; i_addr : option sockaddr; i_name : cstr
}.
Definition TYPE_A : Z := 1.
Definition TYPE_AAAA : Z := 28.

(** memcpy() of an address into a zeroed sockaddr, after [4] or [8] bytes of its 16 or
    28. *)
Definition pad (n : nat) (l : list Z) : list Z := take n (l ++ replicate n 0).
Definition build_addrinfo (qtype : Z) (qname : cstr) (data : option (list Z)) : res item :=
  let make f a :=
    {| i_flags := 0; i_family := f; i_socktype := 0; i_protocol := 0; i_addr := a; i_name := qname |} in
  if qtype =? TYPE_A then
    match data with
    | None => Ok (make AF_INET None)
    | Some l => if (length l <=? 12)%nat then Ok (make AF_INET (Some (load_addr AF_INET (pad 4 l))))
                else Fault OutOfBounds
    end
  else if qtype =? TYPE_AAAA then
    match data with
    | None => Ok (make AF_INET6 None)
    | Some l => if (length l <=? 20)%nat then Ok (make AF_INET6 (Some (load_addr AF_INET6 (pad 16 l))))
                else Fault OutOfBounds
    end
  else Ok (make AF_UNSPEC None).

(** ** Callbacks *)

(** struct amp_resolve_data, without its pointers. *)
Record resolve_data : Set := { max : Z; qcount : Z; status_ok : bool; family : Z }.
(** struct ub_result, and the error of the callback. *)
Record ub_answer : Set := { err : bool; havedata : bool; data : list (list Z) }.

(** The loop over the results: what is added, last first, and the new maximum. *)
Fixpoint take_results (qtype : Z) (qname : cstr) (l : list (list Z)) (max : Z) (added : list item)
    : res (list item * Z) :=
  match l with
  | [] => Ok (added, max)
  | d :: l =>
      if (max =? -1) || (max >? 0) then
        i ← build_addrinfo qtype qname (Some d);
        take_results qtype qname l (if max >? 0 then max - 1 else max) (i :: added)
      else Ok (added, max)
  end.

(** The entries of a name without any result. *)
Definition dummies (qname : cstr) (family : Z) : res (list item) :=
  l4 ← (if (family =? AF_INET) || (family =? AF_UNSPEC)
        then i ← build_addrinfo TYPE_A qname None; Ok [i] else Ok []);
  l6 ← (if (family =? AF_INET6) || (family =? AF_UNSPEC)
        then i ← build_addrinfo TYPE_AAAA qname None; Ok [i] else Ok []);
  Ok (l6 ++ l4).

(** amp_resolve_callback() while it holds the lock: what goes in front of the list, and the
    block. *)
Definition callback_locked (d : resolve_data) (qname : cstr) (qtype : Z) (a : ub_answer)
    : res (list item * resolve_data) :=
  _ ← c_assert (qcount d >? 0);
  r ← (if err a || negb (havedata a) then Ok (([] : list item), max d, status_ok d)
       else t ← take_results qtype qname (data a) (max d) []; Ok (fst t, snd t, true));
  let '(added, m, ok) := (r : list item * Z * bool) in
  Ok (added, {| max := m; qcount := qcount d - 1; status_ok := ok; family := family d |}).
(** And after it has released it, when no query is left: the dummy entries that it still
    puts in front of the list before the block is freed. *)
Definition callback_unlocked (d : resolve_data) (qname : cstr) : res (list item) :=
  if status_ok d then Ok [] else dummies qname (family d).
(** Both parts: what goes in front of the list, and the block, unless it was freed. *)
Definition block_step (d : resolve_data) (qname : cstr) (qtype : Z) (a : ub_answer)
    : res (list item * option resolve_data) :=
  r ← callback_locked d qname qtype a;
  if qcount (snd r) <=? 0 then dummy ← callback_unlocked (snd r) qname; Ok (dummy ++ fst r, None)
  else Ok (fst r, Some (snd r)).

Record resolver : Set := { addrlist : list item; blocks : gmap Z resolve_data; next_id : Z }.
Definition amp_resolve_callback (id : Z) (qname : cstr) (qtype : Z) (a : ub_answer) (st : resolver)
    : res resolver :=
  match blocks st !! id with
  | None => Fault UseAfterFree
  | Some d =>
      r ← block_step d qname qtype a;
      Ok {| addrlist := fst r ++ addrlist st;
            blocks := match snd r with Some d => <[id := d]> (blocks st) | None => delete id (blocks st) end;
            next_id := next_id st |}
  end.

(** *** Callbacks that overlap *)

(** The callbacks of several threads, a step at a time.  [finishing] has, for each block
    whose callback is past the lock, the entries it has yet to add, and the head of the list
    that was stored in the ai_next of the first of them. *)
Record racing : Set := { rs : resolver; finishing : gmap Z (list item * option (list item)) }.
Inductive tick : Set :=
| Locked (id : Z) (qname : cstr) (qtype : Z)     (* the part with the lock *)
| SetNext (id : Z)                               (* item->ai_next = *data->addrlist *)
| SetHead (id : Z)                               (* *data->addrlist = item *)
| Free (id : Z).                                 (* free(data) *)
Definition with_list (st : resolver) (l : list item) : resolver :=
  {| addrlist := l; blocks := blocks st; next_id := next_id st |}.
Definition with_blocks (st : resolver) (m : gmap Z resolve_data) : resolver :=
  {| addrlist := addrlist st; blocks := m; next_id := next_id st |}.
Definition tick_step (ub : cstr -> Z -> ub_answer) (t : tick) (s : racing) : res racing :=
  match t with
  | Locked id qname qtype =>
      match blocks (rs s) !! id with
      | None => Fault UseAfterFree
      | Some d =>
          r ← callback_locked d qname qtype (ub qname qtype);
          let st := with_blocks (with_list (rs s) (fst r ++ addrlist (rs s))) (<[id := snd r]> (blocks (rs s))) in
          if qcount (snd r) <=? 0 then
            dummy ← callback_unlocked (snd r) qname;
            Ok {| rs := st; finishing := <[id := (rev dummy, None)]> (finishing s) |}
          else Ok {| rs := st; finishing := finishing s |}
      end
  | SetNext id =>
      match finishing s !! id with
      | Some (i :: l, None) =>
          Ok {| rs := rs s; finishing := <[id := (i :: l, Some (addrlist (rs s)))]> (finishing s) |}
      | _ => Ok s
      end
  | SetHead id =>
      match finishing s !! id with
      | Some (i :: l, Some next) =>
          Ok {| rs := with_list (rs s) (i :: next); finishing := <[id := (l, None)]> (finishing s) |}
      | _ => Ok s
      end
  | Free id =>
      match finishing s !! id with
      | Some ([], None) =>
          Ok {| rs := with_blocks (rs s) (delete id (blocks (rs s))); finishing := delete id (finishing s) |}
      | _ => Ok s
      end
  end.
Fixpoint ticks (ub : cstr -> Z -> ub_answer) (l : list tick) (s : racing) : res racing :=
  match l with [] => Ok s | t :: l => s ← tick_step ub t s; ticks ub l s end.
(** A callback that no other overlaps: at most two entries are added after the lock. *)
Definition alone (id : Z) (qname : cstr) (qtype : Z) : list tick :=
  [Locked id qname qtype; SetNext id; SetHead id; SetNext id; SetHead id; Free id].

(** ** Queries *)

(** A query given to ub_resolve_async(). *)
Record query : Set := { q_block : Z; q_name : cstr; q_type : Z }.
Definition query_types (family : Z) : list Z :=
  (if (family =? AF_UNSPEC) || (family =? AF_INET) then [TYPE_A] else [])
  ++ (if (family =? AF_UNSPEC) || (family =? AF_INET6) then [TYPE_AAAA] else []).

Section Add.
(** get_numeric_address(), with the name it was asked for. *)
Context (get_numeric_address : cstr -> option item).

Definition amp_resolve_add (name : cstr) (family max : Z) (st : resolver) : resolver * list query :=
  match get_numeric_address name with
  | Some keeper => ({| addrlist := keeper :: addrlist st; blocks := blocks st; next_id := next_id st |}, [])
  | None =>
      let d := {| max := if max >? 0 then max else -1; qcount := if family =? AF_UNSPEC then 2 else 1;
                  status_ok := false; family := family |} in
      ({| addrlist := addrlist st; blocks := <[next_id st := d]> (blocks st); next_id := next_id st + 1 |},
       (fun t => {| q_block := next_id st; q_name := name; q_type := t |}) <$> query_types family)
  end.
Fixpoint add_names (names : list resolve_dest) (st : resolver) : resolver * list query :=
  match names with
  | [] => (st, [])
  | n :: names =>
      let '(st, qs) := amp_resolve_add (rd_name n) (rd_family n) (rd_count n) st in
      let '(st, qs') := add_names names st in (st, qs ++ qs')
  end.
End Add.

(** ub_wait(): every query is answered, in some order. *)
Section Wait.
Context (ub : cstr -> Z -> ub_answer).
Fixpoint ub_wait (order : list query) (st : resolver) : res resolver :=
  match order with
  | [] => Ok st
  | q :: order =>
      st ← amp_resolve_callback (q_block q) (q_name q) (q_type q) (ub (q_name q) (q_type q)) st;
      ub_wait order st
  end.
End Wait.

(** ** The local protocol *)

Definition MAX_DNS_NAME_LEN : nat := 256.
Definition bytes_of (s : cstr) : list Z := ch <$> s.
(** A C string in the first bytes of a buffer; past them it is not set. *)
Fixpoint name_of (l : list Z) : res cstr :=
  match l with
  | [] => Fault Uninitialised
  | b :: l => if b =? 0 then Ok [] else n ← name_of l; Ok (ascii_of_N (Z.to_N b) :: n)
  end.
Definition c_bytes (s : cstr) : list Z := bytes_of s ++ [0].

Definition amp_resolve_add_new (r : resolve_dest) (c : conn) : Z * conn :=
  let namelen := u8 (Z.of_nat (length (rd_name r)) + 1) in
  send_all [[namelen; u8 (rd_count r); u8 (rd_family r)];
            take (Z.to_nat namelen) (c_bytes (rd_name r))] c.
Definition amp_resolve_flag_done (c : conn) : Z * conn := send_all [[0; 0; 0]] c.

(** The first part of amp_resolver_worker_thread(): the names that were read. *)
Fixpoint read_names (n : nat) (q : list (list Z)) : res (list resolve_dest) :=
  match n with
  | O => Fault OutOfFuel
  | S n =>
      i ← read_field 3 q;
      match i with
      | Some ([namelen; count; family], q) =>
          if namelen =? 0 then Ok []
          else
            b ← read_field (Z.to_nat namelen) q;
            match b with
            | None => Ok []
            | Some (b, q) =>
                name ← name_of b;
                names ← read_names n q;
                Ok ({| rd_name := name; rd_count := count; rd_family := family |} :: names)
            end
      | _ => Ok []
      end
  end.

(** The second part: an address on its way.  The pointers in the struct are not used. *)
Definition addrlen (i : item) : Z :=
  match i_addr i with None => 0 | Some a => if sa_family a =? AF_INET then 16 else 28 end.
Definition item_bytes (i : item) : list Z :=
  le_bytes 4 (i_flags i) ++ le_bytes 4 (i_family i) ++ le_bytes 4 (i_socktype i) ++ le_bytes 4 (i_protocol i)
  ++ le_bytes 4 (addrlen i) ++ replicate 28 0.
Definition item_sends (i : item) (more : bool) : list (list Z) :=
  [item_bytes i] ++ (match i_addr i with Some a => [sockaddr_bytes a] | None => [] end)
  ++ [[u8 (Z.of_nat (length (i_name i)) + 1)];
      take (Z.to_nat (u8 (Z.of_nat (length (i_name i)) + 1))) (c_bytes (i_name i));
      [if more then 1 else 0]].
Fixpoint send_items (l : list item) (c : conn) : res (Z * conn) :=
  match l with
  | [] => Ok (0, c)
  | i :: l =>
      _ ← c_assert (u8 (Z.of_nat (length (i_name i)) + 1) >? 1);
      let '(r, c) := send_all (item_sends i (match l with [] => false | _ => true end)) c in
      if r <? 0 then Ok (-1, c) else send_items l c
  end.

(** amp_resolve_get_list(): [got] is the list so far. *)
Fixpoint get_items (n : nat) (q : list (list Z)) (got : list item) : res (list item) :=
  match n with
  | O => Fault OutOfFuel
  | S n =>
      i ← read_field 48 q;
      match i with
      | None => Ok got
      | Some (b, q) =>
          let field k := le_val (take 4 (drop (4 * k) b)) in
          a ← (if field 4%nat >? 0 then
                 d ← read_field (Z.to_nat (field 4%nat)) q;
                 match d with
                 | None => Ok None
                 | Some (d, q) => a ← load_sockaddr d; Ok (Some (Some a, q))
                 end
               else Ok (Some (None, q)));
          match a with
          | None => Ok got
          | Some (a, q) =>
              l ← read_field 1 q;
              match l with
              | Some ([namelen], q) =>
                  _ ← c_assert (namelen >? 1);
                  s ← read_field (Z.to_nat namelen) q;
                  match s with
                  | None => Ok got
                  | Some (s, q) =>
                      name ← name_of s;
                      m ← read_field 1 q;
                      match m with
                      | Some ([more], q) =>
                          let got := {| i_flags := i32 (field 0%nat); i_family := i32 (field 1%nat);
                                        i_socktype := i32 (field 2%nat); i_protocol := i32 (field 3%nat);
                                        i_addr := a; i_name := name |} :: got in
                          if more =? 0 then Ok got else get_items n q got
                      | _ => Ok got
                      end
                  end
              | _ => Ok got
              end
          end
      end
  end.
Definition amp_resolve_get_list (q : list (list Z)) : res (list item) :=
  get_items (S (length (concat q))) q [].

(** amp_resolver_worker_thread(): what is sent back, and the blocks that are still there.
    [order] is the order of the callbacks, which run one after the other. *)
Definition amp_resolver_worker_thread (get_numeric_address : cstr -> option item)
    (ub : cstr -> Z -> ub_answer) (order : list query -> list query) (q : list (list Z)) (c : conn)
    : res (Z * conn * gmap Z resolve_data) :=
  names ← read_names (S (length (concat q))) q;
  let '(st, qs) := add_names get_numeric_address names {| addrlist := []; blocks := ∅; next_id := 0 |} in
  st ← ub_wait ub (order qs) st;
  r ← send_items (addrlist st) c;
  Ok (r, blocks st).

(** ** What a name resolves to *)

Section Served.
Context (ub : cstr -> Z -> ub_answer).

Definition has (name : cstr) (t : Z) : bool := negb (err (ub name t)) && havedata (ub name t).
(** The address a record stands for, and all those of a query. *)
Definition made (name : cstr) (t : Z) (d : list Z) : item :=
  let f := if t =? TYPE_A then AF_INET else AF_INET6 in
  {| i_flags := 0; i_family := f; i_socktype := 0; i_protocol := 0;
     i_addr := Some (load_addr f (pad (if t =? TYPE_A then 4 else 16) d)); i_name := name |}.
Definition results (name : cstr) (t : Z) : list item :=
  if has name t then made name t <$> data (ub name t) else [].
Definition dummy (name : cstr) (f : Z) : item :=
  {| i_flags := 0; i_family := f; i_socktype := 0; i_protocol := 0; i_addr := None; i_name := name |}.
Definition dummy_items (name : cstr) (f : Z) : list item :=
  (if (f =? AF_INET6) || (f =? AF_UNSPEC) then [dummy name AF_INET6] else [])
  ++ (if (f =? AF_INET) || (f =? AF_UNSPEC) then [dummy name AF_INET] else []).
(** A count of zero is no limit. *)
Definition limit {X} (count : Z) (l : list X) : list X := if count >? 0 then take (Z.to_nat count) l else l.

(** Records of the length of their type. *)
Definition ub_ok : Prop := forall name t d, t = TYPE_A \/ t = TYPE_AAAA -> d ∈ data (ub name t) ->
  length d = if t =? TYPE_A then 4%nat else 16%nat.

Lemma build_addrinfo_some name t d :
  t = TYPE_A \/ t = TYPE_AAAA -> length d = (if t =? TYPE_A then 4%nat else 16%nat) ->
  build_addrinfo t name (Some d) = Ok (made name t d).
Proof. intros [-> | ->] Hl; unfold build_addrinfo; cbn in *; by rewrite Hl. Qed.

(** [max] as the loop sees it: -1 for no limit. *)
Definition lim {X} (max : Z) (l : list X) : list X := if max =? -1 then l else take (Z.to_nat max) l.
Definition left_over {X} (max : Z) (l : list X) : Z :=
  if max =? -1 then -1 else Z.max 0 (max - Z.of_nat (length l)).

Lemma lim_nil {X} max : @lim X max [] = [].
Proof. unfold lim. rewrite take_nil. by destruct (_ =? _). Qed.
Lemma left_over_nil {X} max : -1 <= max -> @left_over X max [] = max.
Proof. unfold left_over. intros. destruct (Z.eqb_spec max (-1)); cbn; lia. Qed.

Lemma take_results_spec name t l max added :
  t = TYPE_A \/ t = TYPE_AAAA ->
  (forall d, d ∈ l -> length d = if t =? TYPE_A then 4%nat else 16%nat) -> -1 <= max ->
  take_results t name l max added = Ok (rev (lim max (made name t <$> l)) ++ added, left_over max l).
Proof.
  intros Ht. revert max added. induction l as [|d l IH]; intros max added Hl Hm; cbn [take_results].
  { rewrite left_over_nil by done. cbn [fmap list_fmap]. by rewrite lim_nil. }
  destruct (Z.eqb_spec max (-1)) as [->|Hne].
  - cbn [orb]. change (-1 >? 0) with false. rewrite build_addrinfo_some by (done || apply Hl; left).
    rewrite bind_Ok, IH by (lia || intros; apply Hl; by right).
    unfold lim, left_over. cbn. by rewrite <- app_assoc.
  - cbn [orb]. rewrite Z.gtb_ltb. destruct (Z.ltb_spec 0 max).
    + rewrite build_addrinfo_some by (done || apply Hl; left).
      rewrite bind_Ok, IH by (lia || intros; apply Hl; by right).
      unfold lim, left_over. rewrite !(proj2 (Z.eqb_neq _ _)) by lia.
      replace (Z.to_nat max) with (S (Z.to_nat (max - 1))) by lia. cbn [fmap list_fmap take rev length].
      rewrite <- app_assoc. do 2 f_equal. lia.
    + unfold lim, left_over. rewrite (proj2 (Z.eqb_neq _ _)) by lia.
      replace (Z.to_nat max) with O by lia. cbn. do 2 f_equal. lia.
Qed.

Lemma lim_app {X} max (l l' : list X) :
  -1 <= max -> lim max (l ++ l') = lim max l ++ lim (left_over max l) l'.
Proof.
  intros Hm. unfold lim, left_over. destruct (Z.eqb_spec max (-1)); [done|].
  rewrite (proj2 (Z.eqb_neq _ _)) by lia. rewrite take_app. do 2 f_equal. lia.
Qed.
Lemma left_over_range {X} max (l : list X) : -1 <= max -> -1 <= left_over max l.
Proof. unfold left_over. intros. destruct (_ =? _); lia. Qed.

(** The callbacks of one name, in some order. *)
Fixpoint run_block (d : resolve_data) (name : cstr) (ts : list Z) : res (list item * option resolve_data) :=
  match ts with
  | [] => Ok ([], Some d)
  | t :: ts =>
      r ← block_step d name t (ub name t);
      match snd r with
      | None => match ts with [] => Ok (fst r, None) | _ => Fault UseAfterFree end
      | Some d => r' ← run_block d name ts; Ok (fst r' ++ fst r, snd r')
      end
  end.

Lemma dummies_spec name f : dummies name f = Ok (dummy_items name f).
Proof.
  unfold dummies, dummy_items.
  destruct ((f =? AF_INET) || (f =? AF_UNSPEC)), ((f =? AF_INET6) || (f =? AF_UNSPEC)); done.
Qed.

Lemma run_block_spec d name ts :
  ub_ok -> Forall (fun t => t = TYPE_A \/ t = TYPE_AAAA) ts -> ts <> [] -> qcount d = Z.of_nat (length ts) ->
  -1 <= max d ->
  run_block d name ts =
    Ok ((if status_ok d || existsb (has name) ts then [] else dummy_items name (family d))
        ++ rev (lim (max d) (concat (results name <$> ts))), None).
Proof.
  intros Hub Hts. revert d. induction Hts as [|t ts Ht Hts IH]; intros d Hne Hq Hm; [done|].
  cbn [run_block]. unfold block_step, callback_locked, callback_unlocked. rewrite c_assert_true by (cbn in Hq; lia).
  set (r := if err (ub name t) || negb (havedata (ub name t)) then _ else _).
  assert (Hr : r = Ok (rev (lim (max d) (results name t)), left_over (max d) (results name t),
                       status_ok d || has name t)).
  { unfold r, results, has. destruct (err (ub name t)); cbn [orb negb andb].
    - by rewrite orb_false_r, lim_nil, left_over_nil.
    - destruct (havedata (ub name t)); cbn [negb].
      + rewrite take_results_spec by (done || (intros; by eapply Hub)). rewrite bind_Ok, app_nil_r, orb_true_r.
        unfold left_over. by rewrite length_fmap.
      + by rewrite orb_false_r, lim_nil, left_over_nil. }
  rewrite Hr, !bind_Ok. clear r Hr. cbn [existsb fmap list_fmap concat fst snd qcount status_ok family]. rewrite orb_assoc.
  rewrite lim_app, rev_app_distr by done. destruct ts as [|t' ts].
  - rewrite (proj2 (Z.leb_le _ _)) by (cbn in Hq; lia). cbn [existsb fmap list_fmap concat].
    rewrite orb_false_r, lim_nil. cbn [rev app].
    destruct (status_ok d || has name t); [|rewrite dummies_spec]; rewrite bind_Ok; done.
  - rewrite (proj2 (Z.leb_gt _ _)) by (cbn in Hq; lia). rewrite bind_Ok. cbn [snd fst].
    rewrite IH; [|done|cbn [qcount]; cbn in Hq |- *; lia|by apply left_over_range]. rewrite bind_Ok.
    cbn [fst snd status_ok max family]. by rewrite <- app_assoc.
Qed.
End Served.

(** ** Callbacks of several names, in any order *)

Section Order.
Context (ub : cstr -> Z -> ub_answer).

(** The types of the queries of a block, in the order of their callbacks. *)
Definition calls_of (i : Z) (order : list query) : list Z := q_type <$> filter (fun q => q_block q = i) order.
(** [parts] of all live blocks. *)
Definition all_parts (parts : Z -> list item) (m : gmap Z resolve_data) : list item :=
  concat ((fun kv => parts (fst kv)) <$> map_to_list m).

Lemma all_parts_delete parts m i d :
  m !! i = Some d -> all_parts parts m ≡ₚ parts i ++ all_parts parts (delete i m).
Proof.
  intros Hi. unfold all_parts. by rewrite <- (map_to_list_delete m i d Hi).
Qed.
Lemma all_parts_ext parts parts' m :
  (forall i, is_Some (m !! i) -> parts i = parts' i) -> all_parts parts m = all_parts parts' m.
Proof.
  intros H. unfold all_parts. f_equal. apply list_fmap_ext. intros k [i d] Hk%list_elem_of_lookup_2.
  apply H. exists d. by apply elem_of_map_to_list.
Qed.

Lemma run_block_cons d name t ts part :
  run_block ub d name (t :: ts) = Ok (part, None) ->
  exists its od rest, block_step d name t (ub name t) = Ok (its, od) /\ part = rest ++ its /\
    (od = None -> ts = [] /\ rest = []) /\
    forall d', od = Some d' -> run_block ub d' name ts = Ok (rest, None).
Proof.
  cbn [run_block]. destruct (block_step d name t (ub name t)) as [[its od]|]; [|done].
  rewrite bind_Ok. cbn [fst snd]. destruct od as [d'|].
  - destruct (run_block ub d' name ts) as [[r' od']|] eqn:Er; [|done]. intros [= <- ->].
    exists its, (Some d'), r'. split_and!; [done|done|done|]. by intros ? [= <-].
  - destruct ts; [|done]. intros [= <-]. by exists its, None, [].
Qed.

(** The blocks after a callback of block [i]. *)
Definition stepped (i : Z) (od : option resolve_data) (m : gmap Z resolve_data) : gmap Z resolve_data :=
  match od with Some d => <[i := d]> m | None => delete i m end.
Lemma stepped_ne i j od m : j <> i -> stepped i od m !! j = m !! j.
Proof. intros Hj. destruct od; cbn; [by rewrite lookup_insert_ne|by rewrite lookup_delete_ne]. Qed.
Lemma stepped_parts parts rest i od m :
  (od = None -> rest = []) ->
  all_parts (fun j => if decide (j = i) then rest else parts j) (stepped i od m)
  ≡ₚ rest ++ all_parts parts (delete i m).
Proof.
  intros Hn.
  assert (Hext : all_parts (fun j => if decide (j = i) then rest else parts j) (delete i m) =
                 all_parts parts (delete i m)).
  { apply all_parts_ext. intros j [x Hj]. rewrite decide_False; [done|].
    intros ->. by rewrite lookup_delete_eq in Hj. }
  destruct od as [d'|]; cbn [stepped].
  - rewrite (all_parts_delete _ _ i d') by apply lookup_insert_eq.
    by rewrite delete_insert_eq, Hext, decide_True.
  - by rewrite Hext, (Hn eq_refl).
Qed.

(** Each block only sees its own callbacks, so the callbacks of several names give
    what each name gives by itself. *)
Lemma ub_wait_project order st parts names :
  (forall q, q ∈ order -> is_Some (blocks st !! q_block q) /\ names (q_block q) = q_name q) ->
  (forall i d, blocks st !! i = Some d -> run_block ub d (names i) (calls_of i order) = Ok (parts i, None)) ->
  exists st', ub_wait ub order st = Ok st' /\ blocks st' = ∅ /\
    addrlist st' ≡ₚ all_parts parts (blocks st) ++ addrlist st.
Proof.
  revert st parts. induction order as [|q order IH]; intros st parts Hin Hrun.
  { exists st. assert (E : blocks st = ∅).
    { apply map_empty. intros i. destruct (blocks st !! i) as [d|] eqn:Ei; [|done]. by specialize (Hrun i d Ei). }
    split_and!; [done|done|]. unfold all_parts. by rewrite E, map_to_list_empty. }
  cbn [ub_wait]. destruct (Hin q ltac:(left)) as [[d Hd] Hn]. unfold amp_resolve_callback. rewrite Hd.
  pose proof (Hrun _ d Hd) as Hq. unfold calls_of in Hq. rewrite filter_cons_True in Hq by done.
  cbn [fmap list_fmap] in Hq. rewrite Hn in Hq. fold (calls_of (q_block q) order) in Hq.
  apply run_block_cons in Hq as (its & od & rest & -> & Hparts & Hnone & Hsome). rewrite !bind_Ok. cbn [fst snd].
  fold (stepped (q_block q) od (blocks st)).
  destruct (IH {| addrlist := its ++ addrlist st; blocks := stepped (q_block q) od (blocks st);
    next_id := next_id st |} (fun i => if decide (i = q_block q) then rest else parts i)) as (st' & E & Hb & Hp).
  - intros q' Hq'. destruct (Hin q' ltac:(by right)) as [Hs Hn']. split; [|done]. cbn [blocks].
    destruct (decide (q_block q' = q_block q)) as [He|He]; [|by rewrite stepped_ne].
    rewrite He. destruct od as [d'|]; cbn [stepped]; [rewrite lookup_insert_eq; by eexists|]. exfalso.
    destruct (Hnone eq_refl) as [Hc _]. unfold calls_of in Hc. apply fmap_nil_inv in Hc.
    exact (filter_nil_not_elem_of (fun q0 => q_block q0 = q_block q) order q' Hc He Hq').
  - intros i d0 Hi. cbn [blocks] in Hi. case_decide as He.
    + subst i. rewrite Hn. destruct od as [d'|]; cbn [stepped] in Hi; [|by rewrite lookup_delete_eq in Hi].
      rewrite lookup_insert_eq in Hi. injection Hi as <-. by apply Hsome.
    + rewrite stepped_ne in Hi by done. rewrite <- (Hrun i d0 Hi). unfold calls_of.
      by rewrite filter_cons_False.
  - exists st'. split_and!; [done|done|]. rewrite Hp. cbn [blocks addrlist].
    rewrite (all_parts_delete parts _ _ _ Hd), Hparts, <- !app_assoc, stepped_parts by (intros; by apply Hnone).
    rewrite <- app_assoc. apply Permutation_app_head, Permutation_app_swap_app.
Qed.
End Order.

(** ** What the names of a test resolve to *)

Section Names.
Context (numeric : cstr -> option item) (ub : cstr -> Z -> ub_answer).

(** What the queries [ts] of a name give: the records, in front those answered last, as
    many as asked for; without any answer, an entry without an address per family. *)
Definition part_of (n : resolve_dest) (ts : list Z) : list item :=
  if existsb (has ub (rd_name n)) ts
  then rev (limit (rd_count n) (concat (results ub (rd_name n) <$> ts)))
  else dummy_items (rd_name n) (rd_family n).
(** The specification of one name, whose queries may be answered in any order. *)
Definition served (n : resolve_dest) (part : list item) : Prop :=
  match numeric (rd_name n) with
  | Some keeper => part = [keeper]
  | None => exists ts, ts ≡ₚ query_types (rd_family n) /\ part = part_of n ts
  end.
Definition family_ok (f : Z) : Prop := f = AF_UNSPEC \/ f = AF_INET \/ f = AF_INET6.

(** The blocks that [names] get, from identity [k], and the numeric addresses. *)
Fixpoint plan (k : Z) (names : list resolve_dest) : list (Z * resolve_dest) :=
  match names with
  | [] => []
  | n :: names =>
      match numeric (rd_name n) with Some _ => plan k names | None => (k, n) :: plan (k + 1) names end
  end.
Definition kept (names : list resolve_dest) : list item := rev (omap (fun n => numeric (rd_name n)) names).
Definition block_of (n : resolve_dest) : resolve_data :=
  {| max := if rd_count n >? 0 then rd_count n else -1; qcount := if rd_family n =? AF_UNSPEC then 2 else 1;
     status_ok := false; family := rd_family n |}.
Definition queries_of (kn : Z * resolve_dest) : list query :=
  (fun t => {| q_block := fst kn; q_name := rd_name (snd kn); q_type := t |}) <$> query_types (rd_family (snd kn)).

Lemma plan_ge k names i n : (i, n) ∈ plan k names -> k <= i /\ n ∈ names.
Proof.
  revert k. induction names as [|m names IH]; intros k; cbn [plan]; [by intros ?%elem_of_nil|].
  destruct (numeric (rd_name m)); [intros [? ?]%IH; set_solver|].
  intros [[= -> ->]|[? ?]%IH]%elem_of_cons; split; [lia|set_solver|lia|set_solver].
Qed.
Lemma plan_NoDup k names : NoDup (plan k names).*1.
Proof.
  revert k. induction names as [|m names IH]; intros k; cbn [plan]; [constructor|].
  destruct (numeric (rd_name m)); [done|]. cbn [fmap list_fmap fst]. constructor; [|done].
  intros ([i n] & -> & [Hi _]%plan_ge)%list_elem_of_fmap. cbn in Hi. lia.
Qed.

Lemma add_names_eq names st :
  add_names numeric names st =
    ({| addrlist := kept names ++ addrlist st;
        blocks := list_to_map (prod_map id block_of <$> plan (next_id st) names) ∪ blocks st;
        next_id := next_id st + Z.of_nat (length (plan (next_id st) names)) |},
     concat (queries_of <$> plan (next_id st) names)).
Proof.
  revert st. induction names as [|n names IH]; intros st; cbn [add_names plan].
  { destruct st. cbn. by rewrite map_empty_union, Z.add_0_r. }
  unfold amp_resolve_add, kept. cbn [omap list_omap]. destruct (numeric (rd_name n)) as [keeper|]; rewrite IH.
  - cbn [addrlist blocks next_id rev app]. by rewrite <- app_assoc.
  - cbn [addrlist blocks next_id fmap list_fmap length list_to_map foldr concat prod_map fst snd].
    f_equal. rewrite Nat2Z.inj_succ, <- Z.add_1_l, Z.add_assoc. f_equal.
    rewrite <- insert_union_r, insert_union_l; [done|].
    apply not_elem_of_list_to_map_1. rewrite <- list_fmap_compose.
    intros ([i m] & Hk & [Hi _]%plan_ge)%list_elem_of_fmap. cbn in Hk. lia.
Qed.

Lemma calls_of_app i l l' : calls_of i (l ++ l') = calls_of i l ++ calls_of i l'.
Proof. unfold calls_of. by rewrite filter_app, fmap_app. Qed.
Lemma calls_of_one i j n :
  calls_of i (queries_of (j, n)) = if decide (j = i) then query_types (rd_family n) else [].
Proof.
  unfold calls_of, queries_of. cbn [fst snd].
  induction (query_types (rd_family n)) as [|t ts IH]; cbn [fmap list_fmap]; [by case_decide|].
  case_decide; [rewrite filter_cons_True by done|by rewrite filter_cons_False].
  cbn [fmap list_fmap q_type]. by rewrite IH.
Qed.
Lemma calls_of_none i (l : list (Z * resolve_dest)) : i ∉ l.*1 -> calls_of i (concat (queries_of <$> l)) = [].
Proof.
  induction l as [|[j m] l IH]; [done|]. cbn [fmap list_fmap concat fst]. intros [Hne Hl]%not_elem_of_cons.
  by rewrite calls_of_app, calls_of_one, decide_False, IH.
Qed.
Lemma calls_of_queries i n (l : list (Z * resolve_dest)) :
  NoDup l.*1 -> (i, n) ∈ l -> calls_of i (concat (queries_of <$> l)) = query_types (rd_family n).
Proof.
  induction l as [|[j m] l IH]; intros Hd Hin; [by apply elem_of_nil in Hin|].
  cbn [fmap list_fmap concat fst] in *. apply NoDup_cons in Hd as [Hj Hd]. rewrite calls_of_app, calls_of_one.
  apply elem_of_cons in Hin as [[= -> ->]|Hin].
  - by rewrite decide_True, calls_of_none, app_nil_r.
  - rewrite decide_False; [by apply IH|]. intros ->. apply Hj, list_elem_of_fmap. by exists (i, n).
Qed.

Lemma lim_limit {X} count (l : list X) : lim (if count >? 0 then count else -1) l = limit count l.
Proof.
  unfold lim, limit. destruct (Z.gtb_spec count 0); [|done]. by rewrite (proj2 (Z.eqb_neq _ _)) by lia.
Qed.
Lemma query_types_ok f :
  family_ok f -> Forall (fun t => t = TYPE_A \/ t = TYPE_AAAA) (query_types f) /\ query_types f <> [] /\
    Z.of_nat (length (query_types f)) = if f =? AF_UNSPEC then 2 else 1.
Proof. intros [-> | [-> | ->]]; split_and!; done || by apply (bool_decide_unpack _). Qed.

Lemma run_block_of n ts :
  ub_ok ub -> family_ok (rd_family n) -> ts ≡ₚ query_types (rd_family n) ->
  run_block ub (block_of n) (rd_name n) ts = Ok (part_of n ts, None).
Proof.
  intros Hub Hf Hts. destruct (query_types_ok _ Hf) as (Ht & Hne & Hl). rewrite run_block_spec; [|done|..].
  - unfold part_of. cbn [block_of status_ok max family orb]. rewrite lim_limit.
    destruct (existsb (has ub (rd_name n)) ts) eqn:E; [done|]. do 2 f_equal.
    assert (Hc : concat (results ub (rd_name n) <$> ts) = []).
    { clear -E. induction ts as [|t ts IH]; [done|]. cbn [existsb] in E. apply orb_false_iff in E as [E1 E2].
      cbn [fmap list_fmap concat]. unfold results at 1. by rewrite E1, IH. }
    unfold limit. rewrite Hc, take_nil. destruct (rd_count n >? 0); cbn; by rewrite app_nil_r.
  - by rewrite Hts.
  - intros ->. by apply Permutation_nil_l in Hts.
  - by rewrite Hts.
  - cbn. destruct (Z.gtb_spec (rd_count n) 0); lia.
Qed.

Lemma plan_served (calls : Z -> list Z) k names :
  (forall i n, (i, n) ∈ plan k names -> calls i ≡ₚ query_types (rd_family n)) ->
  exists parts, Forall2 served names parts /\
    concat ((fun kn => part_of (snd kn) (calls (fst kn))) <$> plan k names) ++ kept names ≡ₚ concat parts.
Proof.
  revert k. induction names as [|n names IH]; intros k Hc; [by exists []|].
  unfold kept in *. cbn [plan omap list_omap] in *. destruct (numeric (rd_name n)) as [keeper|] eqn:En.
  - destruct (IH _ Hc) as (parts & Hs & Hp). exists ([keeper] :: parts). split.
    + constructor; [|done]. unfold served. by rewrite En.
    + cbn [rev concat app]. rewrite <- Hp, app_assoc. symmetry. apply Permutation_cons_append.
  - destruct (IH (k + 1)) as (parts & Hs & Hp); [intros; by apply Hc; right|].
    exists (part_of n (calls k) :: parts). split.
    + constructor; [|done]. unfold served. rewrite En. exists (calls k). split; [apply Hc; left|done].
    + cbn [fmap list_fmap concat fst snd]. by rewrite <- app_assoc, Hp.
Qed.

(** What the thread holds when every query was answered. *)
Lemma names_served names order st qs :
  ub_ok ub -> Forall (fun n => family_ok (rd_family n)) names ->
  add_names numeric names {| addrlist := []; blocks := ∅; next_id := 0 |} = (st, qs) -> order ≡ₚ qs ->
  exists st' parts, ub_wait ub order st = Ok st' /\ blocks st' = ∅ /\ Forall2 served names parts /\
    addrlist st' ≡ₚ concat parts.
Proof.
  intros Hub Hf. rewrite add_names_eq. cbn [next_id blocks addrlist]. rewrite map_union_empty, app_nil_r.
  intros [= <- <-] Ho. pose proof (plan_NoDup 0 names) as Hd.
  pose proof (fun i n Hi => proj2 (plan_ge 0 names i n Hi)) as Hin. set (l := plan 0 names) in *.
  set (m := list_to_map l : gmap Z resolve_dest).
  assert (Hm : forall i n, m !! i = Some n <-> (i, n) ∈ l).
  { intros i n. unfold m. split; [apply elem_of_list_to_map_2|by apply elem_of_list_to_map_1]. }
  assert (Hb : list_to_map (prod_map id block_of <$> l) = block_of <$> m) by apply list_to_map_fmap.
  assert (Hc : forall i n, (i, n) ∈ l -> calls_of i order ≡ₚ query_types (rd_family n)).
  { intros i n Hi. rewrite <- (calls_of_queries i n l Hd Hi). unfold calls_of. by rewrite Ho. }
  set (parts i := match m !! i with Some n => part_of n (calls_of i order) | None => [] end).
  destruct (ub_wait_project ub order {| addrlist := kept names; blocks := block_of <$> m;
    next_id := 0 + Z.of_nat (length l) |} parts (fun i => from_option rd_name [] (m !! i)))
    as (st' & E & Hbl & Hp).
  - intros q Hq. rewrite Ho in Hq. apply list_elem_of_In, in_concat in Hq as (qs & Hqs & Hq).
    apply list_elem_of_In, list_elem_of_fmap in Hqs as ([i n] & -> & Hl).
    apply list_elem_of_In, list_elem_of_fmap in Hq as (t & -> & Ht). cbn [q_block q_name fst snd blocks].
    rewrite lookup_fmap, (proj2 (Hm i n) Hl). split; [by eexists|done].
  - intros i d. cbn [blocks]. rewrite lookup_fmap. unfold parts.
    destruct (m !! i) as [n|] eqn:Ei; [|done]. intros [= <-]. apply Hm in Ei. cbn [from_option].
    apply run_block_of; [done| |by apply Hc]. rewrite Forall_forall in Hf. apply Hf. by eapply Hin.
  - destruct (plan_served (fun i => calls_of i order) 0 names Hc) as (ps & Hs & Hps).
    exists st', ps. rewrite Hb. split_and!; [done|done|done|]. rewrite Hp, <- Hps. cbn [addrlist blocks].
    apply Permutation_app_tail. unfold all_parts, m. rewrite map_to_list_fmap, <- list_fmap_compose.
    rewrite (map_to_list_to_map l Hd). apply reflexive_eq. f_equal. apply list_fmap_ext.
    intros k [i n] Hi%list_elem_of_lookup_2. cbn. unfold parts. by rewrite (proj2 (Hm i n) Hi).
Qed.
End Names.

(** ** Names and addresses over the socket *)

(** What run_test() sends for its names; errors are not looked at. *)
Definition send_names (names : list resolve_dest) (c : conn) : conn :=
  snd (amp_resolve_flag_done (foldl (fun c r => snd (amp_resolve_add_new r c)) c names)).

Definition name_ok (s : cstr) : Prop := (1 <= length s <= 254)%nat /\ zero ∉ s.
Definition dest_ok (r : resolve_dest) : Prop :=
  name_ok (rd_name r) /\ 0 <= rd_count r < 256 /\ family_ok (rd_family r).
Definition int_ok (z : Z) : Prop := -2147483648 <= z < 2147483648.
Definition item_ok (i : item) : Prop :=
  int_ok (i_flags i) /\ int_ok (i_family i) /\ int_ok (i_socktype i) /\ int_ok (i_protocol i) /\
  from_option addr_wf True (i_addr i) /\ name_ok (i_name i).

Lemma ch_range c : 0 <= ch c < 256.
Proof. unfold ch. pose proof (N_ascii_bounded c). lia. Qed.
Lemma name_of_c_bytes s : zero ∉ s -> name_of (c_bytes s) = Ok s.
Proof.
  unfold c_bytes. induction s as [|c s IH]; [done|]. intros [Hc Hs]%not_elem_of_cons.
  cbn [bytes_of fmap list_fmap app name_of]. rewrite (proj2 (Z.eqb_neq _ _)).
  - fold (bytes_of s). rewrite IH by done. rewrite bind_Ok. unfold ch. by rewrite N2Z.id, ascii_N_embedding.
  - intros H0. apply Hc. unfold ch in H0. rewrite <- (ascii_N_embedding c).
    assert (N_of_ascii c = 0%N) as -> by lia. done.
Qed.
Lemma c_bytes_length s : length (c_bytes s) = S (length s).
Proof. unfold c_bytes, bytes_of. rewrite length_app, length_fmap. cbn. lia. Qed.
(** The length byte of a name that fits, and the bytes it announces. *)
Lemma namelen_ok s : name_ok s ->
  u8 (Z.of_nat (length s) + 1) = Z.of_nat (length s) + 1 /\
  take (Z.to_nat (u8 (Z.of_nat (length s) + 1))) (c_bytes s) = c_bytes s.
Proof.
  intros [[H1 H2] _]. rewrite u8_id by lia. split; [done|]. apply take_ge. rewrite c_bytes_length. lia.
Qed.

Definition dest_sends (r : resolve_dest) : list (list Z) :=
  [[Z.of_nat (length (rd_name r)) + 1; rd_count r; rd_family r]; c_bytes (rd_name r)].
Lemma family_byte f : family_ok f -> u8 f = f.
Proof. by intros [-> | [-> | ->]]. Qed.
Lemma send_names_ok names c :
  Forall dest_ok names -> (2 * length names < good c)%nat ->
  exists n, send_names names c = {| out := out c ++ concat (dest_sends <$> names) ++ [[0; 0; 0]]; good := n |}.
Proof.
  intros Hn. unfold send_names. revert c. induction Hn as [|r names Hr Hn IH]; intros c Hc; cbn [foldl].
  - unfold amp_resolve_flag_done. rewrite send_all_ok by (cbn in *; lia). by eexists.
  - cbn [length] in Hc. destruct Hr as (Hr & Hcount & Hf). destruct (namelen_ok _ Hr) as [El Et].
    unfold amp_resolve_add_new at 2. rewrite Et, El, (u8_id (rd_count r)), family_byte, send_all_ok by (done || cbn; lia).
    destruct (IH {| out := out c ++ dest_sends r; good := good c - 2 |}) as [n E]; [cbn; lia|].
    exists n. cbn [snd length]. etransitivity; [exact E|]. cbn [out fmap list_fmap concat].
    by rewrite <- !app_assoc.
Qed.

Lemma read_names_aligned n q names :
  Forall dest_ok names -> (length names < n)%nat -> aligned q (concat (dest_sends <$> names) ++ [[0; 0; 0]]) ->
  read_names n q = Ok names.
Proof.
  intros Hn. revert n q. induction Hn as [|r names Hr Hn IH]; intros [|n] q Hl Ha; cbn [length] in Hl;
    [lia| |lia|]; cbn [read_names].
  - apply (read_aligned 3) in Ha as (q' & -> & _); done.
  - destruct Hr as ([Hlen Hz] & Hc & Hf). cbn [fmap list_fmap concat app dest_sends] in Ha.
    apply (read_aligned 3) in Ha as (q1 & -> & Ha); [|done]. rewrite bind_Ok.
    rewrite (proj2 (Z.eqb_neq _ _)) by lia.
    apply (read_aligned (Z.to_nat (Z.of_nat (length (rd_name r)) + 1))) in Ha as (q2 & -> & Ha);
      [|rewrite c_bytes_length; lia].
    rewrite bind_Ok, name_of_c_bytes, bind_Ok, (IH n q2), bind_Ok by (done || lia). by destruct r.
Qed.

(** What is sent for a list of addresses. *)
Definition more_of (l : list item) : bool := match l with [] => false | _ => true end.
Fixpoint items_sends (l : list item) : list (list Z) :=
  match l with [] => [] | i :: l => item_sends i (more_of l) ++ items_sends l end.

Lemma send_items_ok l c :
  Forall item_ok l -> (5 * length l <= good c)%nat ->
  exists n, send_items l c = Ok (0, {| out := out c ++ items_sends l; good := n |}).
Proof.
  intros Hi. revert c. induction Hi as [|i l Hi Hl IH]; intros c Hc; cbn [send_items items_sends].
  - exists (good c). destruct c. by rewrite app_nil_r.
  - destruct Hi as (_ & _ & _ & _ & _ & Hname). destruct (namelen_ok _ Hname) as [El _].
    destruct Hname as [Hlen _]. rewrite El, c_assert_true by lia. fold (more_of l).
    cbn [length] in Hc.
    assert (Hs : (length (item_sends i (more_of l)) <= 5)%nat) by (unfold item_sends; destruct (i_addr i); cbn; lia).
    rewrite send_all_ok by lia. cbn [Z.ltb]. change (0 <? 0) with false. cbn iota.
    destruct (IH {| out := out c ++ item_sends i (more_of l); good := good c - length (item_sends i (more_of l)) |})
      as [n E]; [cbn [good]; lia|].
    exists n. rewrite E. cbn [out]. by rewrite <- app_assoc.
Qed.

Lemma int_field x : int_ok x -> i32 (le_val (le_bytes 4 x)) = x.
Proof.
  unfold int_ok. intros Hx. rewrite le_val_bytes. unfold i32. change (256 ^ Z.of_nat 4) with 4294967296.
  rewrite Zplus_mod_idemp_l, Z.mod_small; lia.
Qed.
Lemma addrlen_field i : le_val (le_bytes 4 (addrlen i)) = addrlen i.
Proof. apply le_val_small. unfold addrlen. destruct (i_addr i) as [a|]; [destruct (_ =? _)|]; cbn; lia. Qed.

Lemma get_items_aligned n q l got :
  Forall item_ok l -> l <> [] -> (length l <= n)%nat -> aligned q (items_sends l) ->
  get_items n q got = Ok (rev l ++ got).
Proof.
  intros Hi. revert n q got. induction Hi as [|i l (H1 & H2 & H3 & H4 & Ha & Hn) Hl IH]; intros n q got Hne Hlen Hq;
    [done|]. destruct n as [|n]; [cbn in Hlen; lia|]. cbn [get_items items_sends] in *.
  destruct (namelen_ok _ Hn) as [El Et]. destruct Hn as [[Hn1 Hn2] Hz]. unfold item_sends in Hq. rewrite Et, El in Hq.
  cbn [app] in Hq. apply (read_aligned 48) in Hq as (q1 & -> & Hq); [|done]. rewrite bind_Ok.
  change (le_val (take 4 (drop (4 * 4) (item_bytes i)))) with (le_val (le_bytes 4 (addrlen i))).
  change (le_val (take 4 (drop (4 * 0) (item_bytes i)))) with (le_val (le_bytes 4 (i_flags i))).
  change (le_val (take 4 (drop (4 * 1) (item_bytes i)))) with (le_val (le_bytes 4 (i_family i))).
  change (le_val (take 4 (drop (4 * 2) (item_bytes i)))) with (le_val (le_bytes 4 (i_socktype i))).
  change (le_val (take 4 (drop (4 * 3) (item_bytes i)))) with (le_val (le_bytes 4 (i_protocol i))).
  rewrite addrlen_field, !int_field by done. set (a := if addrlen i >? 0 then _ else _).
  assert (exists q2, a = Ok (Some (i_addr i, q2)) /\
    aligned q2 ([Z.of_nat (length (i_name i)) + 1] :: c_bytes (i_name i) :: [if more_of l then 1 else 0] :: items_sends l))
    as (q2 & -> & Hq2).
  { unfold a, addrlen in *. destruct (i_addr i) as [x|]; [|by exists q1]. cbn [app from_option] in *.
    set (k := if sa_family x =? AF_INET then 16 else 28).
    assert ((k >? 0) = true) as -> by (unfold k; destruct (_ =? _); done).
    apply (read_aligned (Z.to_nat k)) in Hq as (q2 & -> & Hq);
      [|rewrite sockaddr_bytes_length by done; unfold k; by destruct (_ =? _)].
    rewrite bind_Ok, load_sockaddr_bytes by done. by exists q2. }
  rewrite bind_Ok. clear Hq.
  apply (read_aligned 1) in Hq2 as (q3 & -> & Hq); [|done]. rewrite bind_Ok, c_assert_true by lia.
  apply (read_aligned (Z.to_nat (Z.of_nat (length (i_name i)) + 1))) in Hq as (q4 & -> & Hq);
    [|rewrite c_bytes_length; lia].
  rewrite bind_Ok, name_of_c_bytes, bind_Ok by done.
  apply (read_aligned 1) in Hq as (q5 & -> & Hq); [|done]. rewrite bind_Ok. cbn [rev]. rewrite <- app_assoc.
  assert (forall d, {| i_flags := i_flags i; i_family := i_family i; i_socktype := i_socktype i;
    i_protocol := i_protocol i; i_addr := i_addr i; i_name := i_name i |} :: d = i :: d) as -> by (by destruct i).
  destruct l as [|i' l]; [done|]. cbn [more_of]. change (1 =? 0) with false. cbn iota.
  apply IH; [done|cbn in *; lia|done].
Qed.
Lemma get_list_aligned q l :
  Forall item_ok l -> aligned q (items_sends l) -> amp_resolve_get_list q = Ok (rev l).
Proof.
  intros Hi Hq. unfold amp_resolve_get_list. destruct l as [|i l].
  - cbn [items_sends] in Hq. cbn [get_items]. unfold read_field. by rewrite aligned_nil.
  - rewrite (get_items_aligned _ q (i :: l)), app_nil_r; [done..| |done].
    apply aligned_fuel in Hq. clear -Hq. cbn [length] in *.
    assert (Hs : forall l, (length l <= length (items_sends l))%nat).
    { intros l0. induction l0 as [|j l0 IH]; cbn [items_sends length]; [lia|]. rewrite length_app. cbn. lia. }
    specialize (Hs (i :: l)). cbn [length] in *. lia.
Qed.

(** ** From a test to the resolver and back *)

Section Whole.
Context (numeric : cstr -> option item) (ub : cstr -> Z -> ub_answer).

Definition ub_bytes : Prop := forall name t d, d ∈ data (ub name t) -> Forall (fun b => 0 <= b < 256) d.
(** getaddrinfo() of a numeric address; amp_resolve_add() stores the name itself. *)
Definition numeric_ok : Prop := forall name k, numeric name = Some k -> name_ok name -> item_ok k.

Lemma le_val_range l : Forall (fun b => 0 <= b < 256) l -> 0 <= le_val l < 256 ^ Z.of_nat (length l).
Proof.
  induction 1 as [|b l Hb Hl IH]; cbn [le_val length]; [cbn; lia|].
  rewrite Nat2Z.inj_succ, Z.pow_succ_r by lia. lia.
Qed.
Lemma words_range n l :
  Forall (fun b => 0 <= b < 256) l -> (2 * n <= length l)%nat ->
  length (words n l) = n /\ Forall (fun w => 0 <= w < 65536) (words n l).
Proof.
  revert l. induction n as [|n IH]; intros l Hl Hn; cbn [words length]; [done|].
  destruct (IH (drop 2 l)) as [E F]; [by apply Forall_drop|rewrite length_drop; lia|].
  split; [by rewrite E|]. constructor; [|done].
  pose proof (le_val_range (take 2 l) (Forall_take _ _ _ Hl)) as Hr. rewrite length_take, Nat.min_l in Hr by lia. done.
Qed.
Lemma made_ok name t d :
  name_ok name -> Forall (fun b => 0 <= b < 256) d -> item_ok (made name t d).
Proof.
  intros Hn Hd.
  assert (Hp : forall n, Forall (fun b => 0 <= b < 256) (pad n d) /\ length (pad n d) = n).
  { intros n. unfold pad. split; [|rewrite length_take, length_app, length_replicate; lia].
    apply Forall_take, Forall_app. split; [done|]. apply Forall_replicate. lia. }
  unfold item_ok, int_ok, made. cbn. destruct (t =? TYPE_A); unfold AF_INET, AF_INET6; (split_and!; try lia; [|done..]).
  - unfold load_addr. cbn [addr_wf Z.eqb]. destruct (Hp 4%nat) as [H1 H2].
    pose proof (le_val_range _ H1) as Hr. rewrite H2 in Hr. rewrite take_ge by lia. done.
  - unfold load_addr. destruct (Hp 16%nat) as [H1 H2]. apply words_range; [done|lia].
Qed.
Lemma dummy_ok name f : name_ok name -> int_ok f -> item_ok (dummy name f).
Proof. intros Hn Hf. unfold item_ok, int_ok, dummy in *. cbn. split_and!; try lia; done. Qed.

Lemma served_ok n part : numeric_ok -> ub_bytes -> dest_ok n -> served numeric ub n part -> Forall item_ok part.
Proof.
  intros Hk Hb (Hn & _ & _). unfold served. destruct (numeric (rd_name n)) as [k|] eqn:E.
  - intros ->. constructor; [by eapply Hk|constructor].
  - intros (ts & _ & ->). unfold part_of. destruct (existsb _ ts).
    + apply Forall_rev. unfold limit.
      assert (Hc : Forall item_ok (concat (results ub (rd_name n) <$> ts))).
      { apply Forall_concat, Forall_fmap, Forall_true. intros t. cbn. unfold results.
        destruct (has ub (rd_name n) t); [|constructor]. apply Forall_fmap, Forall_forall.
        intros d Hd. apply made_ok; [done|by eapply Hb]. }
      destruct (rd_count n >? 0); [by apply Forall_take|done].
    + unfold dummy_items. apply Forall_app. split; destruct (_ || _); apply Forall_nil_2 || (apply Forall_singleton, dummy_ok; done).
Qed.
Lemma parts_ok names parts :
  numeric_ok -> ub_bytes -> Forall dest_ok names -> Forall2 (served numeric ub) names parts ->
  Forall (Forall item_ok) parts.
Proof.
  intros Hk Hb Hn Hs. induction Hs; inversion Hn; subst; constructor; [by eapply served_ok|auto].
Qed.
End Whole.

Lemma protocol_ok names items c c' :
  Forall dest_ok names -> (2 * length names < good c)%nat -> out c = [] ->
  Forall item_ok items -> (5 * length items <= good c')%nat -> out c' = [] ->
  (forall q, aligned q (out (send_names names c)) -> read_names (S (length (concat q))) q = Ok names) /\
  exists c2, send_items items c' = Ok (0, c2) /\
    forall q, aligned q (out c2) -> amp_resolve_get_list q = Ok (rev items).
Proof.
  intros Hn Hc Ho Hi Hc' Ho'. split.
  - intros q. destruct (send_names_ok names c Hn Hc) as [n ->]. rewrite Ho. cbn [out app]. intros Ha.
    apply read_names_aligned; [done| |done]. apply aligned_fuel in Ha. rewrite length_app in Ha. cbn in Ha.
    assert (length names <= length (concat (dest_sends <$> names)))%nat; [|lia].
    clear. induction names; cbn; lia.
  - destruct (send_items_ok items c' Hi Hc') as [n E]. eexists. split; [exact E|].
    rewrite Ho'. intros q. by apply get_list_aligned.
Qed.

(** The protocol between a test and the resolver loses nothing: the names a test
    sends (of 1 to 254 characters, without a NUL) are the names the resolver thread
    reads, with their counts and families, and the addresses the thread sends back are
    those amp_resolve_get_list() returns, in reverse. *)
Theorem resolver_protocol_roundtrip names items c c' :
  Forall dest_ok names -> (2 * length names < good c)%nat -> out c = [] ->
  Forall item_ok items -> (5 * length items <= good c')%nat -> out c' = [] ->
  (forall q, aligned q (out (send_names names c)) -> read_names (S (length (concat q))) q = Ok names) /\
  exists c2, send_items items c' = Ok (0, c2) /\
    forall q, aligned q (out c2) -> amp_resolve_get_list q = Ok (rev items).
Proof. apply protocol_ok. Qed.

(** C28: a test that asks the resolver for its names gets, in some order, what each of
    them stands for: the numeric address itself, or the addresses of its records, no
    more than its count and both families sharing it, or one entry without an address
    per family when no query had an answer.  This is for names of 1 to 254 characters without a
    NUL, counts of a byte, and records of the length of their type; for sockets on which the
    sends work and each recv() of a field gets all of it; and for callbacks that run one
    after the other, in whatever order the answers come in.  No block of a query is used after it was freed, and
    when the thread ends none is left. *)
Theorem name_resolution_end_to_end numeric ub order names c c' q :
  ub_ok ub -> ub_bytes ub -> numeric_ok numeric -> Forall dest_ok names -> (forall qs, order qs ≡ₚ qs) ->
  (2 * length names < good c)%nat -> out c = [] -> out c' = [] -> aligned q (out (send_names names c)) ->
  exists parts, Forall2 (served numeric ub) names parts /\
    ((5 * length (concat parts) <= good c')%nat ->
     exists c2, amp_resolver_worker_thread numeric ub order q c' = Ok (0, c2, ∅) /\
       forall q', aligned q' (out c2) ->
       exists l, amp_resolve_get_list q' = Ok l /\ l ≡ₚ concat parts).
Proof.
  intros Hub Hbytes Hnum Hn Hord Hc Ho Ho' Ha.
  destruct (protocol_ok names [] c c' Hn Hc Ho ltac:(constructor) ltac:(cbn; lia) Ho') as [Hread _].
  destruct (add_names numeric names {| addrlist := []; blocks := ∅; next_id := 0 |}) as [st qs] eqn:Eadd.
  destruct (names_served numeric ub names (order qs) st qs) as (st' & parts & Ew & Hbl & Hs & Hp);
    [done| |done|apply Hord|].
  { eapply Forall_impl; [exact Hn|]. by intros n (_ & _ & Hf). }
  exists parts. split; [done|]. intros Hg.
  assert (Hok : Forall item_ok (addrlist st')).
  { rewrite Hp. apply Forall_concat. by eapply parts_ok. }
  destruct (protocol_ok [] (addrlist st') {| out := []; good := 1 |} c') as (_ & c2 & E2 & Hget);
    [constructor|cbn; lia|done|done|by rewrite Hp|done|].
  exists c2. unfold amp_resolver_worker_thread. rewrite (Hread q Ha), bind_Ok, Eadd, Ew, bind_Ok, E2, bind_Ok, Hbl. split; [done|].
  intros q' Hq'. exists (rev (addrlist st')). split; [by apply Hget|]. rewrite <- Hp. symmetry. apply Permutation_rev.
Qed.

(** ** A concrete run *)

(** One name with two A records and one AAAA record; nothing else has a record. *)
Definition some_records (name : cstr) (t : Z) : ub_answer :=
  {| err := false; havedata := bool_decide (name = str "www.example.org");
     data := if bool_decide (name = str "www.example.org") then
               if t =? TYPE_A then [[192; 0; 2; 1]; [192; 0; 2; 2]]
               else if t =? TYPE_AAAA then [[32; 1; 13; 184; 0; 0; 0; 0; 0; 0; 0; 0; 0; 0; 0; 1]] else []
             else [] |}.
Definition one_numeric (name : cstr) : option item :=
  if bool_decide (name = str "10.0.0.1") then
    Some {| i_flags := 0; i_family := AF_INET; i_socktype := 0; i_protocol := 0;
            i_addr := Some (SockIn 16777226); i_name := name |}
  else None.
Definition three_names : list resolve_dest :=
  [{| rd_name := str "www.example.org"; rd_count := 2; rd_family := AF_UNSPEC |};
   {| rd_name := str "10.0.0.1"; rd_count := 0; rd_family := AF_UNSPEC |};
   {| rd_name := str "none.example.org"; rd_count := 0; rd_family := AF_INET6 |}].

Lemma some_records_ok : ub_ok some_records /\ ub_bytes some_records.
Proof.
  split; [intros name t d Ht|intros name t d]; unfold some_records; cbn [data];
    destruct (bool_decide _); try (by intros ?%elem_of_nil).
  - destruct Ht as [-> | ->]; cbn; intros Hd; repeat (apply elem_of_cons in Hd as [->|Hd]; [done|]);
      by apply elem_of_nil in Hd.
  - destruct (t =? TYPE_A), (t =? TYPE_AAAA); intros Hd;
      repeat (apply elem_of_cons in Hd as [->|Hd]; [repeat constructor; lia|]); by apply elem_of_nil in Hd.
Qed.
Lemma one_numeric_ok : numeric_ok one_numeric.
Proof.
  intros name k. unfold one_numeric. destruct (bool_decide _); [|done]. intros [= <-] Hn.
  unfold item_ok, int_ok. cbn. split_and!; try lia; done.
Qed.
Lemma three_names_ok : Forall dest_ok three_names.
Proof.
  repeat (apply Forall_cons_2;
    [unfold dest_ok, name_ok, family_ok; apply (bool_decide_unpack _); vm_compute; exact I|]).
  apply Forall_nil_2.
Qed.
Lemma aligned_self (sends : list (list Z)) : Forall (fun s => s <> []) sends -> aligned sends sends.
Proof.
  intros Hs. exists ((fun s => [s]) <$> sends). split_and!; [| | |done].
  - rewrite <- list_fmap_compose. clear. induction sends as [|s sends IH]; [done|]. cbn. by rewrite app_nil_r, <- IH.
  - clear. induction sends as [|s sends IH]; [done|]. cbn. by rewrite IH.
  - apply Forall_fmap, Forall_true. done.
Qed.

Definition asked : conn := send_names three_names {| out := []; good := 100 |}.
Lemma name_resolution_end_to_end_witness :
  exists parts, Forall2 (served one_numeric some_records) three_names parts /\
    ((5 * length (concat parts) <= 100)%nat ->
     exists c2, amp_resolver_worker_thread one_numeric some_records (@rev query) (out asked)
       {| out := []; good := 100 |} = Ok (0, c2, ∅) /\
       forall q', aligned q' (out c2) ->
       exists l, amp_resolve_get_list q' = Ok l /\ l ≡ₚ concat parts).
Proof.
  apply (name_resolution_end_to_end one_numeric some_records (@rev query) three_names
    {| out := []; good := 100 |} {| out := []; good := 100 |} (out asked)).
  - apply some_records_ok.
  - apply some_records_ok.
  - exact one_numeric_ok.
  - exact three_names_ok.
  - intros qs. symmetry. apply Permutation_rev.
  - apply Nat.ltb_lt. reflexivity.
  - reflexivity.
  - reflexivity.
  - apply aligned_self. apply (bool_decide_unpack _). vm_compute. exact I.
Defined.
(** In that run: both families share the count of two, here used up by the AAAA record,
    which is answered first, and one A record. *)
Example resolution_ex :
  match
    r ← amp_resolver_worker_thread one_numeric some_records (@rev query) (out asked) {| out := []; good := 100 |};
    amp_resolve_get_list (out (snd (fst r)))
  with
  | Ok l => (fun i => (i_name i, i_family i, i_addr i)) <$> l =
      [(str "10.0.0.1", AF_INET, Some (SockIn 16777226));
       (str "none.example.org", AF_INET6, None);
       (str "www.example.org", AF_INET6, Some (SockIn6 [288; 47117; 0; 0; 0; 0; 0; 256]));
       (str "www.example.org", AF_INET, Some (SockIn 16908480))]
  | Fault _ => False
  end.
Proof. vm_compute. reflexivity. Qed.

Lemma resolver_protocol_roundtrip_witness :
  (forall q, aligned q (out asked) -> read_names (S (length (concat q))) q = Ok three_names) /\
  exists c2, send_items (dummy_items (str "none.example.org") AF_UNSPEC) {| out := []; good := 10 |} = Ok (0, c2) /\
    forall q, aligned q (out c2) ->
    amp_resolve_get_list q = Ok (rev (dummy_items (str "none.example.org") AF_UNSPEC)).
Proof.
  apply (resolver_protocol_roundtrip three_names _ {| out := []; good := 100 |}).
  - exact three_names_ok.
  - apply Nat.ltb_lt. reflexivity.
  - reflexivity.
  - repeat constructor; cbn; try lia; by apply (bool_decide_unpack _).
  - apply Nat.leb_le. reflexivity.
  - reflexivity.
Defined.

(** *** Overlapping callbacks *)

Lemma ticks_cons ub t l s : ticks ub (t :: l) s = (s' ← tick_step ub t s; ticks ub l s').
Proof. done. Qed.
Lemma ticks_finished ub id l s :
  finishing s !! id = None -> Forall (fun t => match t with Locked _ _ _ => False | SetNext i | SetHead i | Free i => i = id end) l ->
  ticks ub l s = Ok s.
Proof.
  intros Hf Hl. induction Hl as [|t l Ht Hl IH]; [done|]. rewrite ticks_cons.
  destruct t; [done|..]; subst; unfold tick_step; rewrite Hf, bind_Ok; exact IH.
Qed.
Ltac tick := rewrite ticks_cons; unfold tick_step at 1; cbn [finishing rs];
  rewrite lookup_insert_eq, bind_Ok, ?insert_insert_eq; cbn [with_list addrlist].
(** The steps of a callback that runs alone are the callback. *)
Lemma alone_is_callback ub id qname qtype s :
  finishing s !! id = None ->
  ticks ub (alone id qname qtype) s =
    st ← amp_resolve_callback id qname qtype (ub qname qtype) (rs s);
    Ok {| rs := st; finishing := finishing s |}.
Proof.
  intros Hf. unfold alone, amp_resolve_callback, block_step. rewrite ticks_cons. unfold tick_step at 1.
  destruct s as [[l b n] fin]. cbn [rs finishing blocks addrlist] in *. destruct (b !! id) as [d|] eqn:Eb; [|done].
  destruct (callback_locked d qname qtype (ub qname qtype)) as [[added d']|]; [|done]. rewrite !bind_Ok. cbn [fst snd].
  destruct (qcount d' <=? 0); rewrite ?bind_Ok; [|by apply (ticks_finished _ id); [|repeat constructor]].
  unfold callback_unlocked. destruct (status_ok d').
  - rewrite !bind_Ok. cbn [rev app]. do 5 tick. cbn [ticks].
    rewrite delete_insert_id by done. unfold with_blocks. cbn. by rewrite delete_insert_eq.
  - rewrite dummies_spec, !bind_Ok. unfold dummy_items.
    destruct (_ || _), (_ || _); cbn [app rev]; do 5 tick; cbn [ticks];
      rewrite delete_insert_id by done; unfold with_blocks; cbn; by rewrite delete_insert_eq.
Qed.

(** Two threads answer for two names without a record.  Both store the head of the list before
    either replaces it, and the entry of the first name is lost. *)
Example overlapping_callbacks_lose_entry :
  let nothing := fun (_ : cstr) (_ : Z) => {| err := false; havedata := false; data := [] |} in
  let '(st, _) := add_names (fun _ => None)
    [{| rd_name := str "a"; rd_count := 0; rd_family := AF_INET |};
     {| rd_name := str "b"; rd_count := 0; rd_family := AF_INET |}] {| addrlist := []; blocks := ∅; next_id := 0 |} in
  match ticks nothing [Locked 0 (str "a") TYPE_A; Locked 1 (str "b") TYPE_A; SetNext 0; SetNext 1; SetHead 0; SetHead 1;
                       Free 0; Free 1] {| rs := st; finishing := ∅ |} with
  | Ok s => i_name <$> addrlist (rs s) = [str "b"]
  | Fault _ => False
  end.
Proof. vm_compute. reflexivity. Qed.

(** *** Names and records that do not fit *)

(** A name of 255 characters has a length byte of zero: it is read as the end of the
    list, and the names after it are lost. *)
Definition long_dest : resolve_dest :=
  {| rd_name := replicate 255 (ascii_of_N 97); rd_count := 0; rd_family := AF_INET |}.
Example long_name_ends_list :
  let q := filter (fun s => s <> []) (out (send_names (long_dest :: three_names) {| out := []; good := 100 |})) in
  read_names 1000 q = Ok [].
Proof. vm_compute. reflexivity. Qed.
(** A record longer than its type is copied past the end of the address. *)
Example long_record_overflows :
  build_addrinfo TYPE_A (str "www.example.org") (Some (replicate 13 1)) = Fault OutOfBounds.
Proof. reflexivity. Qed.
