(* ===== verification/Asn.v ===== *)
(** AS numbers of addresses: the text protocol of the whois server and the
    binary protocol of the local cache (src/common/asn.c), and the thread that
    answers queries from the cache or the server (src/measured/asnsock.c).

    The sockets are those of LocalSock.v.  The text buffer is the list of the
    [*offset] characters it holds; strtok_r() writes NULs into it.  inet_pton()
    and inet_ntop() are a class. *)
From stdpp Require Import pretty countable.
From S2P Require Import Prelude CLib Address IpTrie Bytes LocalSock.
#[local] Open Scope Z_scope.

(** ** Addresses as text *)

(** Conversion of addresses; ports are not part of a [sockaddr]. *)
Class Inet := { inet_pton : Z -> cstr -> option sockaddr; inet_ntop : sockaddr -> cstr }.
Class InetLaws `{Inet} : Prop := {
  pton_family f s a : inet_pton f s = Some a -> addr_wf a /\ sa_family a = f;
  pton_ntop a : addr_wf a -> inet_pton (sa_family a) (inet_ntop a) = Some a;
  pton_other a : addr_wf a -> sa_family a = AF_INET6 -> inet_pton AF_INET (inet_ntop a) = None;
  ntop_text a : addr_wf a -> inet_ntop a <> [] /\
    Forall (fun c => isspace c = false /\ c <> "|"%char /\ c <> zero) (inet_ntop a)
}.

(** ** Tokens *)

(** strtok_r(): the delimiters that were skipped, the token, and what follows the
    delimiter after it, if there is one. *)
Fixpoint skip_delims (ds s : cstr) : cstr * cstr :=
  match s with
  | x :: s' =>
      if bool_decide (x ∈ ds) then let '(p, r) := skip_delims ds s' in (x :: p, r) else ([], s)
  | [] => ([], [])
  end.
Fixpoint take_token (ds s : cstr) : cstr * option cstr :=
  match s with
  | x :: s' =>
      if bool_decide (x ∈ ds) then ([], Some s') else let '(t, r) := take_token ds s' in (x :: t, r)
  | [] => ([], None)
  end.
Definition strtok_r (ds s : cstr) : option (cstr * cstr * option cstr) :=
  let '(p, s) := skip_delims ds s in
  match s with [] => None | _ => let '(t, r) := take_token ds s in Some (p, t, r) end.
(** The memory of the string after the call. *)
Definition cut (p t : cstr) (r : option cstr) : cstr :=
  p ++ t ++ match r with Some r => zero :: r | None => [] end.
(** A C string ends at its first NUL. *)
Fixpoint until_nul (s : list ascii) : cstr :=
  match s with
  | [] => []
  | x :: s' => if bool_decide (x = zero) then [] else x :: until_nul s'
  end.

Definition nl : ascii := ascii_of_nat 10.

(** ** Answers of the whois server *)

(** The tries a caller of process_buffer() gives it, and its count of answers
    that are expected. *)
Record asn_state : Set := { result : iptrie; cache : option iptrie; outstanding : option Z }.

Definition whois_prefix (a : sockaddr) : Z := if sa_family a =? AF_INET then 24 else 64.

Section Text.
Context `{Inet}.

(** The three strtok_r() calls of add_parsed_line(): the update, and the memory of
    the line.  strtok_r(NULL, " ", &addrptr) dereferences addrptr, which is NULL. *)
Definition parse_line (line : cstr) : res (entry * cstr) :=
  match strtok_r (str "|") line with
  | None => Fault NullDeref
  | Some (p1, t1, r1) =>
      match r1 ≫= strtok_r (str "|") with
      | None => Fault NullDeref
      | Some (p2, t2, r2) =>
          match strtok_r (str " ") t2 with
          | None => Fault NullDeref
          | Some (p3, t3, r3) =>
              let line' := cut p1 t1 (Some (cut p2 (cut p3 t3 r3) r2)) in
              match inet_pton AF_INET t3, inet_pton AF_INET6 t3 with
              | Some a, _ => Ok ({| e_addr := a; e_prefix := 24; e_as := i64 (u64 (atoi t1)) |}, line')
              | None, Some a => Ok ({| e_addr := a; e_prefix := 64; e_as := i64 (u64 (atoi t1)) |}, line')
              | None, None => Fault AssertFail
              end
          end
      end
  end.

Definition add_entry_to (e : entry) (t : iptrie) : iptrie := iptrie_add t (e_addr e) (e_prefix e) (e_as e).
Definition add_parsed_line (line : cstr) (st : asn_state) : res (cstr * asn_state) :=
  r ← parse_line line;
  let '(e, line') := r in
  Ok (line', {| result := add_entry_to e (result st); cache := add_entry_to e <$> cache st;
                outstanding := outstanding st |}).

Definition is_header (line : cstr) : bool :=
  strncmp_eq line (str "Bulk") 4 || strncmp_eq line (str "Error") 5.
Definition answered (st : asn_state) : asn_state :=
  {| result := result st; cache := cache st; outstanding := (fun n => n - 1) <$> outstanding st |}.

(** process_buffer(): each round moves what follows the line to the front. *)
Fixpoint buffer_loop (n : nat) (buf : list ascii) (st : asn_state) : res (list ascii * asn_state) :=
  let s := until_nul buf in
  if bool_decide (nl ∈ s) then
    match n with
    | O => Fault OutOfFuel
    | S n =>
        match strtok_r [nl] s with
        | None => Fault NullDeref
        | Some (p, line, r) =>
            let moved line' := drop (S (length line)) (cut p line' r ++ drop (length s) buf) in
            if is_header line then buffer_loop n (moved line) st
            else
              a ← add_parsed_line line st;
              buffer_loop n (moved (fst a)) (answered (snd a))
        end
    end
  else Ok (buf, st).
(** A line has at least two characters. *)
Definition process_buffer (buf : list ascii) (st : asn_state) : res (list ascii * asn_state) :=
  buffer_loop (length buf) buf st.

Definition buflen : nat := 1024.

(** amp_asn_fetch_results_direct(): at most one round per character received. *)
Fixpoint fetch_loop (n : nat) (q : list (list ascii)) (buf : list ascii) (st : asn_state) : res asn_state :=
  match recv (buflen - length buf - 1) q with
  | None => Ok st
  | Some (got, q) =>
      match n with
      | O => Fault OutOfFuel
      | S n => b ← process_buffer (buf ++ got) st; fetch_loop n q (fst b) (snd b)
      end
  end.
Definition amp_asn_fetch_results_direct (q : list (list ascii)) (results : iptrie) : res iptrie :=
  st ← fetch_loop (length (concat q)) q [] {| result := results; cache := None; outstanding := None |};
  Ok (result st).
End Text.

(** ** Lines *)

(** The complete lines of a text, and what follows the last of them. *)
Fixpoint split_lines (cur s : list ascii) : list (list ascii) * list ascii :=
  match s with
  | [] => ([], cur)
  | x :: s =>
      if bool_decide (x = nl) then let '(ls, part) := split_lines [] s in (cur :: ls, part)
      else split_lines (cur ++ [x]) s
  end.
Definition text (ls : list (list ascii)) : list ascii := concat ((fun l => l ++ [nl]) <$> ls).

Lemma split_lines_spec cur s ls part :
  nl ∉ cur -> split_lines cur s = (ls, part) ->
  cur ++ s = text ls ++ part /\ Forall (fun l => nl ∉ l) ls /\ nl ∉ part.
Proof.
  revert cur ls part. induction s as [|x s IH]; intros cur ls part Hc; cbn [split_lines].
  { intros [= <- <-]. by rewrite app_nil_r. }
  case_bool_decide as Hx.
  - destruct (split_lines [] s) as [ls' part'] eqn:E. intros [= <- <-]. subst x.
    destruct (IH [] ls' part') as (Ht & Hf & Hp); [set_solver|done|]. cbn in Ht. rewrite Ht.
    split_and!; [|by constructor|done]. unfold text. cbn. by rewrite <- !app_assoc.
  - intros E. apply IH in E as (Ht & Hf & Hp); [|set_solver]. by rewrite <- app_assoc in Ht.
Qed.

Lemma split_lines_word cur w s : nl ∉ w -> split_lines cur (w ++ s) = split_lines (cur ++ w) s.
Proof.
  revert cur. induction w as [|x w IH]; intros cur Hw; cbn [app split_lines]; [by rewrite app_nil_r|].
  rewrite bool_decide_eq_false_2 by set_solver. rewrite IH by set_solver. by rewrite <- app_assoc.
Qed.
Lemma split_lines_text ls part :
  Forall (fun l => nl ∉ l) ls -> nl ∉ part -> split_lines [] (text ls ++ part) = (ls, part).
Proof.
  intros Hl Hp. induction Hl as [|l ls Hx Hl IH]; unfold text in *; cbn.
  - by rewrite <- (app_nil_r part) at 1; rewrite split_lines_word.
  - rewrite <- !app_assoc, split_lines_word by done. cbn. by rewrite IH.
Qed.
Lemma text_app ls ls' : text (ls ++ ls') = text ls ++ text ls'.
Proof. unfold text. by rewrite fmap_app, concat_app. Qed.

(** ** Tokens of a line *)

Lemma skip_delims_spec ds s p r : skip_delims ds s = (p, r) -> s = p ++ r.
Proof.
  revert p. induction s as [|x s IH]; cbn; intros p; [by intros [= <- <-]|].
  case_bool_decide; [|by intros [= <- <-]]. destruct (skip_delims ds s) as [p' r'].
  intros [= <- <-]. cbn. f_equal. by apply IH.
Qed.
Lemma take_token_length ds s t r : take_token ds s = (t, r) -> length (cut [] t r) = length s.
Proof.
  revert t. induction s as [|x s IH]; cbn; intros t; [by intros [= <- <-]|].
  case_bool_decide; [by intros [= <- <-]|]. destruct (take_token ds s) as [t' r'].
  intros [= <- <-]. cbn. f_equal. by apply IH.
Qed.
(** The memory of a string keeps its size. *)
Lemma strtok_r_length ds s p t r : strtok_r ds s = Some (p, t, r) -> length (cut p t r) = length s.
Proof.
  unfold strtok_r. destruct (skip_delims ds s) as [p' s'] eqn:Es. apply skip_delims_spec in Es.
  destruct s' as [|x s']; [done|]. destruct (take_token ds (x :: s')) as [t' r'] eqn:Et.
  intros [= <- <- <-]. apply take_token_length in Et. rewrite Es, length_app, <- Et.
  unfold cut. by rewrite length_app.
Qed.
Lemma take_token_word ds w d s :
  Forall (fun c => c ∉ ds) w -> d ∈ ds -> take_token ds (w ++ d :: s) = (w, Some s).
Proof.
  intros Hw Hd. induction Hw as [|x w Hx Hw IH]; cbn; [by rewrite bool_decide_eq_true_2|].
  by rewrite bool_decide_eq_false_2, IH.
Qed.
Lemma take_token_all ds w : Forall (fun c => c ∉ ds) w -> take_token ds w = (w, None).
Proof.
  intros Hw. induction Hw as [|x w Hx Hw IH]; cbn; [done|]. by rewrite bool_decide_eq_false_2, IH.
Qed.
Lemma skip_delims_word ds d w s :
  Forall (fun c => c ∈ ds) d -> w <> [] -> Forall (fun c => c ∉ ds) w ->
  skip_delims ds (d ++ w ++ s) = (d, w ++ s).
Proof.
  intros Hd Hne Hw. induction Hd as [|x d Hx Hd IH]; cbn.
  - destruct Hw as [|y w Hy Hw]; [done|]. cbn. by rewrite bool_decide_eq_false_2.
  - by rewrite bool_decide_eq_true_2, IH.
Qed.
Lemma strtok_r_word ds p w d s :
  Forall (fun c => c ∈ ds) p -> w <> [] -> Forall (fun c => c ∉ ds) w -> d ∈ ds ->
  strtok_r ds (p ++ w ++ d :: s) = Some (p, w, Some s).
Proof.
  intros Hp Hne Hw Hd. unfold strtok_r. rewrite skip_delims_word by done.
  rewrite take_token_word by done. by destruct w.
Qed.
Lemma strtok_r_last ds p w :
  Forall (fun c => c ∈ ds) p -> w <> [] -> Forall (fun c => c ∉ ds) w ->
  strtok_r ds (p ++ w) = Some (p, w, None).
Proof.
  intros Hp Hne Hw. unfold strtok_r. rewrite <- (app_nil_r w), skip_delims_word by done.
  rewrite app_nil_r, take_token_all by done. by destruct w.
Qed.

(** ** The text protocol, line by line *)

Section Answers.
Context `{Inet}.

(** The updates of the answers among some lines, and what they do to a state. *)
Definition reply (line : cstr) : option entry :=
  if is_header line then None else match parse_line line with Ok (e, _) => Some e | Fault _ => None end.
Definition replies (ls : list cstr) : list entry := omap reply ls.
Definition apply_lines (ls : list cstr) (st : asn_state) : asn_state :=
  {| result := add_all (replies ls) (result st); cache := add_all (replies ls) <$> cache st;
     outstanding := (fun n => n - Z.of_nat (length (replies ls))) <$> outstanding st |}.
(** A line that the code can handle: it fits and has an AS number and an address, or
    is one of the lines that are ignored. *)
Definition line_ok (line : cstr) : Prop :=
  line <> [] /\ (zero ∉ line) /\ (length line <= 1022)%nat /\
  (is_header line = true \/ exists e line', parse_line line = Ok (e, line')).

Lemma apply_lines_nil st : apply_lines [] st = st.
Proof. destruct st as [r [c|] [n|]]; unfold apply_lines; cbn; by rewrite ?Z.sub_0_r. Qed.
Lemma apply_lines_app ls ls' st : apply_lines (ls ++ ls') st = apply_lines ls' (apply_lines ls st).
Proof.
  unfold apply_lines, replies, add_all. cbn. rewrite omap_app, length_app, fold_left_app.
  f_equal; [destruct (cache st)|destruct (outstanding st)]; cbn; f_equal.
  - apply fold_left_app.
  - lia.
Qed.

Lemma parse_line_length line e line' : parse_line line = Ok (e, line') -> length line' = length line.
Proof.
  unfold parse_line. destruct (strtok_r (str "|") line) as [[[p1 t1] r1]|] eqn:E1; [|done].
  destruct r1 as [r1|]; [cbn [mbind option_bind]|done]. destruct (strtok_r (str "|") r1) as [[[p2 t2] r2]|] eqn:E2; [|done].
  destruct (strtok_r (str " ") t2) as [[[p3 t3] r3]|] eqn:E3; [|done].
  apply strtok_r_length in E1, E2, E3. intros E.
  enough (length (cut p1 t1 (Some (cut p2 (cut p3 t3 r3) r2))) = length line) as <-
    by (repeat case_match; simplify_eq; done).
  rewrite <- E1. unfold cut at 1 4. rewrite !length_app. cbn. do 3 f_equal.
  rewrite <- E2. unfold cut at 1 3. rewrite !length_app. by rewrite E3.
Qed.

Lemma until_nul_app a b : zero ∉ a -> until_nul (a ++ b) = a ++ until_nul b.
Proof.
  intros Ha. induction a as [|x a IH]; cbn; [done|].
  rewrite bool_decide_eq_false_2, IH by set_solver. done.
Qed.
Lemma until_nul_no_nl s : nl ∉ s -> nl ∉ until_nul s.
Proof.
  induction s as [|x s IH]; cbn; [done|]. intros Hn. case_bool_decide; set_solver.
Qed.
Lemma until_nul_prefix s : until_nul s ++ drop (length (until_nul s)) s = s.
Proof. induction s as [|x s IH]; cbn; [done|]. case_bool_decide; cbn; [done|]. by rewrite IH. Qed.
Lemma text_no_nul ls : Forall line_ok ls -> zero ∉ text ls.
Proof.
  intros Hl. induction Hl as [|l ls (_ & Hz & _) Hl IH]; unfold text in *; cbn; [set_solver|].
  rewrite !elem_of_app, list_elem_of_singleton. intros [[?|Hn]|?]; [done| |done]. discriminate Hn.
Qed.

Lemma drop_past {A} (l l' : list A) x rest :
  length l' = length l -> drop (S (length l)) (l' ++ x :: rest) = rest.
Proof.
  intros <-. rewrite drop_app_ge by lia. by replace (S (length l') - length l')%nat with 1%nat by lia.
Qed.

(** One line of the buffer. *)
Lemma buffer_loop_line n l s buf st :
  nl ∉ l -> line_ok l -> until_nul buf = l ++ nl :: s ->
  buffer_loop (S n) buf st = buffer_loop n (drop (S (length l)) buf) (apply_lines [l] st).
Proof.
  intros Hn (Hne & Hz & Hl & Hok) Hs. cbn [buffer_loop]. rewrite Hs, bool_decide_eq_true_2 by set_solver.
  assert (Ht : strtok_r [nl] (l ++ nl :: s) = Some ([], l, Some s)).
  { apply (strtok_r_word [nl] [] l nl s); [constructor|done| |set_solver].
    apply Forall_forall. set_solver. }
  rewrite Ht.
  assert (Hm : forall l', length l' = length l ->
    drop (S (length l)) (cut [] l' (Some s) ++ drop (length (l ++ nl :: s)) buf) = drop (S (length l)) buf).
  { intros l' Hl'. transitivity (drop (S (length l)) (until_nul buf ++ drop (length (until_nul buf)) buf)).
    - rewrite Hs. unfold cut. cbn [app]. rewrite <- !app_assoc. cbn [app]. by rewrite !drop_past.
    - by rewrite until_nul_prefix. }
  destruct (is_header l) eqn:Eh.
  - rewrite Hm by done. f_equal. transitivity (apply_lines [] st); [by rewrite apply_lines_nil|].
    unfold apply_lines, replies, reply. cbn [omap list_omap]. by rewrite Eh.
  - destruct Hok as [|(e & l' & Hp)]; [congruence|]. unfold add_parsed_line. rewrite Hp, !bind_Ok.
    cbn [fst snd]. rewrite Hm by (by eapply parse_line_length). f_equal.
    unfold apply_lines, replies, reply, answered. cbn [omap list_omap]. rewrite Eh, Hp. done.
Qed.

Lemma buffer_loop_lines n ls part st :
  Forall line_ok ls -> Forall (fun l => nl ∉ l) ls -> nl ∉ part -> (length ls <= n)%nat ->
  buffer_loop n (text ls ++ part) st = Ok (part, apply_lines ls st).
Proof.
  intros Hok Hn Hp. revert n st. induction Hok as [|l ls Hl Hok IH]; intros n st Hle.
  - destruct n; cbn [buffer_loop text app]; rewrite bool_decide_eq_false_2 by (by apply until_nul_no_nl);
      by rewrite apply_lines_nil.
  - inversion Hn as [|? ? Hnl Hns]; subst. destruct n as [|n]; [cbn in Hle; lia|].
    assert (E : text (l :: ls) ++ part = l ++ nl :: text ls ++ part).
    { unfold text. cbn. by rewrite <- !app_assoc. }
    rewrite E, (buffer_loop_line n l (until_nul (text ls ++ part))); [|done|done|].
    + rewrite drop_past by done. rewrite IH by (done || cbn in Hle; lia). f_equal. f_equal. symmetry. apply (apply_lines_app [l]).
    + rewrite until_nul_app by apply Hl. cbn. by rewrite bool_decide_eq_false_2.
Qed.

Lemma text_length ls : (length ls <= length (text ls))%nat.
Proof.
  induction ls as [|l ls IH]; unfold text in *; cbn; [lia|]. rewrite !length_app. cbn. lia.
Qed.
(** process_buffer() takes exactly the complete lines out of the buffer. *)
Lemma process_buffer_spec buf st ls part :
  split_lines [] buf = (ls, part) -> Forall line_ok ls ->
  process_buffer buf st = Ok (part, apply_lines ls st).
Proof.
  intros Hs Hok. apply split_lines_spec in Hs as (E & Hn & Hp); [|set_solver]. cbn in E. rewrite E.
  apply buffer_loop_lines; [done..|]. rewrite length_app. pose proof (text_length ls). lia.
Qed.

Lemma split_app ls part s ls' part' :
  Forall (fun l => nl ∉ l) ls -> split_lines [] (part ++ s) = (ls', part') -> nl ∉ part ->
  split_lines [] (text ls ++ part ++ s) = (ls ++ ls', part').
Proof.
  intros Hl Hs Hp. apply split_lines_spec in Hs as (E & Hn & Hp'); [|set_solver]. cbn in E.
  rewrite E, app_assoc, <- text_app. apply split_lines_text; [by apply Forall_app|done].
Qed.
Lemma split_first part s l ls part' :
  nl ∉ part -> split_lines [] (part ++ s) = (l :: ls, part') -> (length part <= length l)%nat.
Proof.
  rewrite <- (app_nil_l part) at 1. intros Hp. rewrite split_lines_word by done. cbn [app].
  revert part Hp. induction s as [|x s IH]; intros part Hp; cbn [split_lines]; [done|].
  case_bool_decide.
  - destruct (split_lines [] s). intros [= <- <- <-]. done.
  - intros E. apply IH in E; [|set_solver]. rewrite length_app in E. lia.
Qed.
Lemma split_no_nl s : nl ∉ s -> split_lines [] s = ([], s).
Proof. intros Hs. by apply (split_lines_text []). Qed.

(** Reading on: what is in the buffer and what is still to come make up lines. *)
Lemma split_read buf got s ls part :
  nl ∉ buf -> split_lines [] (buf ++ got ++ s) = (ls, part) ->
  exists ls1 part1 ls2, split_lines [] (buf ++ got) = (ls1, part1) /\
    split_lines [] (part1 ++ s) = (ls2, part) /\ ls = ls1 ++ ls2 /\ nl ∉ part1.
Proof.
  intros Hb Hs. destruct (split_lines [] (buf ++ got)) as [ls1 part1] eqn:E1.
  destruct (split_lines [] (part1 ++ s)) as [ls2 part2] eqn:E2.
  pose proof E1 as E1'. apply split_lines_spec in E1' as (Et & Hn & Hp); [|set_solver]. cbn in Et.
  rewrite app_assoc, Et, <- app_assoc in Hs.
  rewrite (split_app _ _ _ _ _ Hn E2 Hp) in Hs. simplify_eq. by exists ls1, part1, ls2.
Qed.

Lemma fetch_loop_spec n q buf st ls part :
  Forall (fun c => c <> []) q -> nl ∉ buf -> split_lines [] (buf ++ concat q) = (ls, part) ->
  Forall line_ok ls -> (length (concat q) <= n)%nat ->
  fetch_loop n q buf st = Ok (apply_lines ls st).
Proof.
  revert q buf st ls. induction n as [|n IH]; intros q buf st ls Hq Hb Hs Hok Hn; cbn [fetch_loop];
    destruct (recv _ q) as [[got q']|] eqn:Er.
  2,4: destruct ls as [|l ls]; [by rewrite apply_lines_nil|];
    apply recv_None in Er as [->|Hr]; [by rewrite app_nil_r, split_no_nl in Hs| |done];
    apply split_first in Hs; [|done]; inversion Hok as [|? ? (_ & _ & Hl & _) _]; unfold buflen in Hr; lia.
  - apply recv_Some in Er as (E & Hne & _). rewrite E, length_app in Hn. destruct got; [done|]. cbn in Hn. lia.
  - apply recv_Some in Er as (E & Hne & _ & Hf). rewrite E in Hs, Hn. rewrite length_app in Hn.
    destruct (split_read _ _ _ _ _ Hb Hs) as (ls1 & part1 & ls2 & E1 & E2 & -> & Hp1).
    apply Forall_app in Hok as [Hok1 Hok2]. rewrite (process_buffer_spec _ _ _ _ E1 Hok1), bind_Ok.
    cbn [fst snd]. rewrite apply_lines_app. apply IH; [by apply Hf|done..|].
    destruct got; [done|]. cbn in Hn. lia.
Qed.
End Answers.

(** However the answers of the whois server are cut into pieces on their way, the
    trie gets exactly the updates of reading them line by line, in order: for each
    complete line that is not a banner or an error, its AS number under the /24 or
    /64 of its address.  The lines have to fit into the buffer and be well formed. *)
Theorem fetch_results_direct_lines `{Inet} q results ls part :
  Forall (fun c => c <> []) q -> split_lines [] (concat q) = (ls, part) -> Forall line_ok ls ->
  amp_asn_fetch_results_direct q results = Ok (add_all (replies ls) results).
Proof.
  intros Hq Hs Hok. unfold amp_asn_fetch_results_direct.
  by rewrite (fetch_loop_spec _ q [] _ ls part) by (done || set_solver).
Qed.

(** ** The local protocol *)

Definition amp_asn_flag_done_local (c : conn) : Z * conn := send_all [le_bytes 2 AF_UNSPEC] c.
Definition amp_asn_add_query_local (address : sockaddr) (c : conn) : Z * conn :=
  if (sa_family address =? AF_INET) || (sa_family address =? AF_INET6)
  then send_all [le_bytes 2 (sa_family address); addr_bytes address] c
  else (-1, c).

(** amp_asn_fetch_results_local(): at most one round per byte. *)
Fixpoint local_loop (n : nat) (q : list (list Z)) (result : iptrie) : res iptrie :=
  match n with
  | O => Fault OutOfFuel
  | S n =>
      a ← read_field 8 q;
      match a with
      | None => Ok result
      | Some (asn, q) =>
          p ← read_field 1 q;
          match p with
          | None => Ok result
          | Some (prefix, q) =>
              f ← read_field 2 q;
              match f with
              | None => Ok result
              | Some (family, q) =>
                  let family := le_val family in
                  if (family =? AF_INET) || (family =? AF_INET6) then
                    d ← read_field (if family =? AF_INET then 16 else 28) q;
                    match d with
                    | None => Ok result
                    | Some (addr, q) =>
                        a ← load_sockaddr addr;
                        local_loop n q (iptrie_add result a (le_val prefix) (i64 (le_val asn)))
                    end
                  else Ok result
              end
          end
      end
  end.
Definition amp_asn_fetch_results_local (q : list (list Z)) (result : iptrie) : res iptrie :=
  local_loop (S (length (concat q))) q result.

(** The cache's end: fill_request_trie() and return_asn_list().  The end of the queue
    is also a timeout. *)
Fixpoint fill_loop (n : nat) (q : list (list Z)) (requests : iptrie) : res (Z * iptrie) :=
  match n with
  | O => Fault OutOfFuel
  | S n =>
      f ← read_field 2 q;
      match f with
      | None => Ok (-1, requests)
      | Some (family, q) =>
          let family := le_val family in
          if (family =? AF_INET) || (family =? AF_INET6) then
            let '(size, prefix) := if family =? AF_INET then (4%nat, 24) else (16%nat, 64) in
            d ← read_field size q;
            match d with
            | None => Ok (-1, requests)
            | Some (addr, q) => fill_loop n q (iptrie_add requests (load_addr family addr) prefix 0)
            end
          else Ok (0, requests)
      end
  end.
Definition fill_request_trie (q : list (list Z)) (requests : iptrie) : res (Z * iptrie) :=
  fill_loop (S (length (concat q))) q requests.

Definition return_asn_list (node : iptrie_node) (c : conn) : Z * conn :=
  match node with
  | Null => (-1, c)
  | Node as_ prefix address _ _ =>
      if (sa_family address =? AF_INET) || (sa_family address =? AF_INET6)
      then send_all [le_bytes 8 as_; le_bytes 1 prefix; le_bytes 2 (sa_family address);
                     sockaddr_bytes address] c
      else (-1, c)
  end.

(** ** Both ends of the local protocol *)

(** The request for an address, and what is sent for a query and a result. *)
Definition request (a : sockaddr) : entry :=
  {| e_addr := a; e_prefix := whois_prefix a; e_as := 0 |}.
Definition query_sends (a : sockaddr) : list (list Z) := [le_bytes 2 (sa_family a); addr_bytes a].
Definition entry_sends (e : entry) : list (list Z) :=
  [le_bytes 8 (e_as e); le_bytes 1 (e_prefix e); le_bytes 2 (sa_family (e_addr e)); sockaddr_bytes (e_addr e)].

Lemma fill_loop_spec n q as_ t :
  Forall addr_wf as_ -> aligned q (concat (query_sends <$> as_) ++ [le_bytes 2 AF_UNSPEC]) ->
  (length as_ < n)%nat ->
  fill_loop n q t = Ok (0, add_all (request <$> as_) t).
Proof.
  intros Hw. revert n q t. induction Hw as [|a as_ Ha Hw IH]; intros n q t Hq Hn;
    (destruct n as [|n]; [cbn in Hn; lia|]); cbn [fill_loop].
  - destruct (read_aligned 2 _ _ _ Hq eq_refl) as (q1 & -> & _). done.
  - cbn [fmap list_fmap concat query_sends app] in Hq.
    destruct (read_aligned 2 _ _ _ Hq eq_refl) as (q1 & -> & Hq1). rewrite bind_Ok.
    rewrite le_val_small by (by apply family_small). rewrite known_family by done.
    destruct (read_aligned _ _ _ _ Hq1 (addr_bytes_length a Ha)) as (q2 & Hr & Hq2).
    pose proof (load_addr_bytes a [] Ha) as Hl. rewrite app_nil_r in Hl.
    unfold add_all, request, whois_prefix. cbn [fmap list_fmap fold_left e_addr e_prefix e_as].
    destruct (sa_family a =? AF_INET); rewrite Hr, bind_Ok, Hl; apply IH; (done || cbn in Hn; lia).
Qed.

Definition entry_sendable (e : entry) : Prop :=
  any_wf e /\ -9223372036854775808 <= e_as e < 9223372036854775808.
Lemma le8_signed x : -9223372036854775808 <= x < 9223372036854775808 -> i64 (le_val (le_bytes 8 x)) = x.
Proof.
  intros Hx. rewrite le_val_bytes. change (256 ^ Z.of_nat 8) with 18446744073709551616.
  unfold i64. Z.div_mod_to_equations. lia.
Qed.
Lemma local_loop_spec n q es t :
  Forall entry_sendable es -> aligned q (concat (entry_sends <$> es)) -> (length es < n)%nat ->
  local_loop n q t = Ok (add_all es t).
Proof.
  intros Hw. revert n q t. induction Hw as [|e es [[Ha Hp] Has] Hw IH]; intros n q t Hq Hn;
    (destruct n as [|n]; [cbn in Hn; lia|]); cbn [local_loop].
  - unfold read_field. by rewrite (aligned_nil q 8 Hq).
  - cbn [fmap list_fmap concat entry_sends app] in Hq.
    destruct (read_aligned 8 _ _ _ Hq eq_refl) as (q1 & -> & Hq1). rewrite bind_Ok.
    destruct (read_aligned 1 _ _ _ Hq1 eq_refl) as (q2 & -> & Hq2). rewrite bind_Ok.
    destruct (read_aligned 2 _ _ _ Hq2 eq_refl) as (q3 & -> & Hq3). rewrite bind_Ok.
    rewrite (le_val_small 2) by (by apply family_small). rewrite known_family by done.
    destruct (read_aligned _ _ _ _ Hq3 (sockaddr_bytes_length _ Ha)) as (q4 & -> & Hq4). rewrite bind_Ok.
    rewrite load_sockaddr_bytes, bind_Ok, le8_signed by done.
    assert (Hw8 : width (e_addr e) <= 128) by (by destruct (e_addr e)).
    rewrite le_val_small by (cbn; lia). apply IH; (done || cbn in Hn; lia).
Qed.

(** ** The client's side: local cache or whois server *)

Definition AF_UNIX : Z := 1.
Definition INET6_ADDRSTRLEN : nat := 46.
Definition WHOIS_UNAVAILABLE : Z := -2.
Definition bytes_of (s : cstr) : list Z := ch <$> s.
Definition char_of (b : Z) : ascii := ascii_of_N (Z.to_N b).

Section Client.
Context `{Inet}.

Definition amp_asn_flag_done_direct (c : conn) : Z * conn :=
  send_all [bytes_of (str "end" ++ [nl])] c.
(** The newline and a new terminator are written into addrstr[]. *)
Definition amp_asn_add_query_direct (address : sockaddr) (c : conn) : res (Z * conn) :=
  if (sa_family address =? AF_INET) || (sa_family address =? AF_INET6) then
    let addrstr := inet_ntop address in
    if (S (length addrstr) <? INET6_ADDRSTRLEN)%nat
    then Ok (send_all [bytes_of (addrstr ++ [nl])] c)
    else Fault OutOfBounds
  else Ok (-1, c).

(** The functions the tests call; [sockname] is the family getsockname() gives. *)
Context (fd : Z) (sockname : option Z).

Definition amp_asn_add_query (root : iptrie_node) (c : res conn) : Z * res conn :=
  match root, c with
  | Node _ _ address _ _, Ok c =>
      if fd <? 0 then (-1, Ok c)
      else match sockname with
           | None => (-1, Ok c)
           | Some f =>
               if f =? AF_UNIX then let '(r, c) := amp_asn_add_query_local address c in (r, Ok c)
               else match amp_asn_add_query_direct address c with
                    | Ok (r, c) => (r, Ok c)
                    | Fault f => (-1, Fault f)
                    end
           end
  | _, c => (-1, c)
  end.
Definition amp_asn_flag_done (c : conn) : Z * conn :=
  if fd <? 0 then (-1, c)
  else match sockname with
       | None => (-1, c)
       | Some f => if f =? AF_UNIX then amp_asn_flag_done_local c else amp_asn_flag_done_direct c
       end.
Definition amp_asn_fetch_results (q : list (list Z)) (results : iptrie) : res iptrie :=
  match sockname with
  | None => Ok results
  | Some f =>
      if f =? AF_UNIX then amp_asn_fetch_results_local q results
      else amp_asn_fetch_results_direct (map (map char_of) q) results
  end.
End Client.

(** What the system answers when the whois server is connected to: [w_connect] is
    [None] for a connection, or an error and what select() then returns. *)
Record whois_env : Set := {
  w_getaddrinfo : bool; w_socket : Z; w_sndtimeo : bool;
  w_connect : option (bool * Z);       (* whether it is EINPROGRESS, select() *)
  w_getfl : bool; w_setfl : bool; w_sends : nat
}.
Definition whois_header : list (list Z) :=
  bytes_of <$> [str "begin" ++ [nl]; str "noheader" ++ [nl]; str "noasname" ++ [nl]].
(** connect_to_whois_server(): the descriptor, what is left open and what was sent. *)
Definition connect_to_whois_server (e : whois_env) : Z * list Z * conn :=
  let c := {| out := []; good := w_sends e |} in
  if negb (w_getaddrinfo e) then (WHOIS_UNAVAILABLE, [], c)
  else if w_socket e <? 0 then (WHOIS_UNAVAILABLE, [], c)
  else if negb (w_sndtimeo e) then (WHOIS_UNAVAILABLE, [w_socket e], c)
  else
    let connected :=
      match w_connect e with
      | None => true
      | Some (inprogress, ready) => inprogress && (ready >? 0)
      end in
    if negb connected then (WHOIS_UNAVAILABLE, [], c)
    else if negb (w_getfl e && w_setfl e) then (WHOIS_UNAVAILABLE, [], c)
    else
      let '(r, c) := send_all whois_header c in
      if r <? 0 then (WHOIS_UNAVAILABLE, [], c) else (w_socket e, [w_socket e], c).

(** ** The thread of the cache *)

Section Worker.
Context `{Inet}.

(** write_asn_request(): [sends] is what each send() returns.  The return value and
    the text that went out. *)
Fixpoint write_loop (sends : list Z) (left_ sent : cstr) : Z * cstr :=
  match left_ with
  | [] => (0, sent)
  | _ =>
      match sends with
      | [] => (-1, sent)
      | b :: sends =>
          if b <? 0 then (-1, sent)
          else write_loop sends (drop (Z.to_nat b) left_) (sent ++ take (Z.to_nat b) left_)
      end
  end.
Definition write_asn_request (address : sockaddr) (sends : list Z) : Z * cstr :=
  if (sa_family address =? AF_INET) || (sa_family address =? AF_INET6)
  then write_loop sends (inet_ntop address ++ [nl]) [] else (-1, []).

(** check_refresh_cache() at time [now]: the cache and its next refresh. *)
Definition MIN_ASN_CACHE_REFRESH : Z := 86400.
Definition MAX_ASN_CACHE_REFRESH_OFFSET : Z := 3600.
Definition check_refresh_cache (now rand refresh : Z) (trie : iptrie) : Z * iptrie :=
  if now >? refresh
  then (now + MIN_ASN_CACHE_REFRESH + Z.rem rand MAX_ASN_CACHE_REFRESH_OFFSET, iptrie_clear trie)
  else (refresh, trie).

(** initialise_asn_info(): the first refresh and an empty cache. *)
Definition initialise_asn_info (now rand : Z) : Z * iptrie :=
  (now + MIN_ASN_CACHE_REFRESH + Z.rem rand MAX_ASN_CACHE_REFRESH_OFFSET, iptrie_empty).

(** check_asn_cache(): the result trie with the answer, when there is one.  The AS
    number is kept in an int. *)
Definition cached (trie : iptrie) (address : sockaddr) : option entry :=
  let asn := i32 (iptrie_lookup_as trie address) in
  if asn <? 0 then None
  else Some {| e_addr := address; e_prefix := whois_prefix address; e_as := asn |}.
Definition check_asn_cache (trie result : iptrie) (address : sockaddr) : option iptrie :=
  (fun e => add_entry_to e result) <$> cached trie address.

(** The state of amp_asn_worker_thread(); [asked] are the addresses whose query was
    written whole. *)
Record worker : Set := {
  list_ : list sockaddr; trie : iptrie; found : iptrie; left_ : Z;
  whois_fd : Z; buffer : list ascii; stream : list (list ascii); asked : list sockaddr
}.
Inductive event : Set :=
| Interrupted                                  (* select() failed with EINTR *)
| SelectFailed                                 (* any other error, or a timeout *)
| Ready (readable writable : bool) (sends : list Z).

(** Close the connection and go on with the cache. *)
Definition whois_failed (w : worker) : worker :=
  {| list_ := tail (list_ w); trie := trie w; found := found w; left_ := 0;
     whois_fd := WHOIS_UNAVAILABLE; buffer := buffer w; stream := stream w; asked := asked w |}.

(** check_whois_connection(): connect at the first address that needs it; [whois] is
    what connect_to_whois_server() returns. *)
Definition check_whois_connection (whois fd : Z) : Z := if fd =? -1 then whois else fd.

(** The start of the loop body: the addresses that are in the cache, or can only be
    looked for there. *)
Fixpoint next_request (whois : Z) (trie : iptrie) (l : list sockaddr) (found : iptrie) (fd : Z)
    : list sockaddr * iptrie * Z :=
  match l with
  | [] => ([], found, fd)
  | a :: l' =>
      match check_asn_cache trie found a with
      | Some found => next_request whois trie l' found fd
      | None =>
          let fd := check_whois_connection whois fd in
          if fd <? 0 then next_request whois trie l' found fd else (l, found, fd)
      end
  end.
Definition next_step (whois : Z) (w : worker) : worker :=
  let '(l, f, fd) := next_request whois (trie w) (list_ w) (found w) (whois_fd w) in
  {| list_ := l; trie := trie w; found := f; left_ := left_ w; whois_fd := fd; buffer := buffer w;
     stream := stream w; asked := asked w |}.

(** The rest of the loop body once select() has returned: [inl] for a connection that
    failed. *)
Definition write_step (w : worker) (sends : list Z) : worker + worker :=
  match list_ w with
  | a :: l =>
      if fst (write_asn_request a sends) <? 0 then inl (whois_failed w)
      else inr {| list_ := l; trie := trie w; found := found w; left_ := left_ w + 1;
                  whois_fd := whois_fd w; buffer := buffer w; stream := stream w;
                  asked := asked w ++ [a] |}
  | [] => inr w
  end.
(** read_asn_request(): the buffer with what was received. *)
Definition read_asn_request (buf : list ascii) (q : list (list ascii))
    : option (list ascii * list (list ascii)) :=
  match recv (buflen - length buf - 1) q with Some (got, q) => Some (buf ++ got, q) | None => None end.
Definition read_step (w : worker) : res worker :=
  match read_asn_request (buffer w) (stream w) with
  | None => Ok (whois_failed w)
  | Some (buf, q) =>
      b ← process_buffer buf
            {| result := found w; cache := Some (trie w); outstanding := Some (left_ w) |};
      let st := snd b in
      Ok {| list_ := list_ w; trie := default (trie w) (cache st); found := result st;
            left_ := default (left_ w) (outstanding st); whois_fd := whois_fd w;
            buffer := fst b; stream := q; asked := asked w |}
  end.
Definition ready_step (readable writable : bool) (sends : list Z) (w : worker) : res worker :=
  let reads := readable && (left_ w >? 0) in
  match (if writable then write_step w sends else inr w) with
  | inl w => Ok w
  | inr w => if reads then read_step w else Ok w
  end.

(** The loop; when [env] ends select() only times out.  FD_SET() is given the
    descriptor, which must not be negative. *)
Fixpoint worker_loop (whois : Z) (env : list event) (w : worker) : res worker :=
  let w := next_step whois w in
  if bool_decide (list_ w = []) && (left_ w <=? 0) then Ok w
  else if whois_fd w <? 0 then Fault OutOfBounds
  else match env with
       | [] => Ok (next_step whois (whois_failed w))
       | Interrupted :: env => worker_loop whois env w
       | SelectFailed :: env => worker_loop whois env (whois_failed w)
       | Ready r wr sends :: env => w ← ready_step r wr sends w; worker_loop whois env w
       end.

(** amp_asn_worker_thread(): what was sent back to the test, and the cache. *)
Definition node_address (n : iptrie_node) : list sockaddr :=
  match n with Node _ _ a _ _ => [a] | Null => [] end.
Definition amp_asn_worker_thread (now rand refresh whois : Z) (cache0 : iptrie) (q : list (list Z))
    (text_ : list (list ascii)) (env : list event) (c : conn) : res (conn * Z * iptrie) :=
  let '(refresh, cache0) := check_refresh_cache now rand refresh cache0 in
  r ← fill_request_trie q iptrie_empty;
  let '(ok, requests) := r in
  if ok <? 0 then Ok (c, refresh, cache0)
  else
    let l := concat (node_address <$> iptrie_to_list requests) in
    w ← worker_loop whois env
          {| list_ := l; trie := cache0; found := iptrie_empty; left_ := 0; whois_fd := -1;
             buffer := []; stream := text_; asked := [] |};
    Ok (snd (iptrie_on_all_leaves return_asn_list (found w) c), refresh, trie w).
End Worker.

(** ** What the thread finds *)

Lemma add_all_app es es' t : add_all (es ++ es') t = add_all es' (add_all es t).
Proof. apply fold_left_app. Qed.

Section Found.
Context `{Inet} (whois : Z) (whois_ok : whois = WHOIS_UNAVAILABLE \/ 0 <= whois).

Lemma next_request_spec t l f fd :
  fd = -1 \/ fd = WHOIS_UNAVAILABLE \/ 0 <= fd ->
  exists l' es hits lost fd',
    next_request whois t l f fd = (l', add_all es f, fd') /\ l ≡ₚ lost ++ hits ++ l' /\
    Forall2 (fun a e => cached t a = Some e) hits es /\ (fd' <> WHOIS_UNAVAILABLE -> lost = []) /\
    (fd' = fd \/ fd = -1 /\ fd' = whois) /\ (fd' < 0 -> l' = []).
Proof.
  unfold WHOIS_UNAVAILABLE in *. revert f fd. induction l as [|a l IH]; intros f fd Hfd; cbn [next_request].
  { exists [], [], [], [], fd. split_and!; auto. }
  unfold check_asn_cache. destruct (cached t a) as [e|] eqn:Ec; cbn [fmap option_fmap option_map].
  - destruct (IH (add_entry_to e f) fd Hfd) as (l' & es & hits & lost & fd' & -> & Hp & H2 & Hr).
    exists l', (e :: es), (a :: hits), lost, fd'. split_and!; [done| |by constructor|apply Hr..].
    rewrite Hp. cbn [app]. apply Permutation_middle.
  - unfold check_whois_connection. set (fd1 := if fd =? -1 then whois else fd).
    assert (Hfd1 : fd1 = fd \/ fd = -1 /\ fd1 = whois).
    { subst fd1. destruct (Z.eqb_spec fd (-1)); auto. }
    assert (Hr1 : fd1 = -2 \/ 0 <= fd1) by (subst fd1; destruct (Z.eqb_spec fd (-1)); lia).
    destruct (Z.ltb_spec fd1 0).
    + destruct (IH f fd1) as (l' & es & hits & lost & fd' & -> & Hp & H2 & Hl & Hf & Hn); [lia|].
      exists l', es, hits, (a :: lost), fd'. split_and!; [done| |done| |lia|done].
      * rewrite Hp. done.
      * intros Hne. exfalso. lia.
    + exists (a :: l), [], [], [], fd1. split_and!; [done|done|constructor|done|done|lia].
Qed.

Context (cache0 : iptrie) (l0 : list sockaddr) (all : list cstr).

(** An update of the result comes from the server, or from the cache as it was at
    some time. *)
Definition from (ls : list cstr) (hits : list sockaddr) (e : entry) : Prop :=
  e ∈ replies ls \/
  exists a ls', a ∈ hits /\ ls' `prefix_of` ls /\ cached (add_all (replies ls') cache0) a = Some e.

Record inv (w : worker) (ls : list cstr) (hits lost : list sockaddr) (es : list entry) : Prop := {
  i_stream : Forall (fun c => c <> []) (stream w);
  i_buffer : nl ∉ buffer w;
  i_text : exists rest part, split_lines [] (buffer w ++ concat (stream w)) = (rest, part) /\
             Forall line_ok rest /\ ls ++ rest = all;
  i_trie : trie w = add_all (replies ls) cache0;
  i_found : found w = add_all es iptrie_empty;
  i_from : Forall (from ls hits) es;
  i_all : replies ls `sublist_of` es;
  i_hits : Forall (fun a => exists e, e ∈ es /\ e_addr e = a) hits;
  i_fd : whois_fd w = -1 \/ whois_fd w = WHOIS_UNAVAILABLE \/ 0 <= whois_fd w;
  i_left : whois_fd w <> WHOIS_UNAVAILABLE ->
             left_ w = Z.of_nat (length (asked w)) - Z.of_nat (length (replies ls));
  i_none : whois_fd w < 0 -> left_ w = 0;
  i_cover : l0 ≡ₚ lost ++ hits ++ asked w ++ list_ w;
  i_lost : whois_fd w <> WHOIS_UNAVAILABLE -> lost = []
}.

Lemma from_hits ls hits hits' e : from ls hits e -> hits ⊆ hits' -> from ls hits' e.
Proof. intros [?|(a & ls' & Ha & Hp & Hc)] Hs; [by left|]. right. exists a, ls'. auto. Qed.
Lemma from_lines ls ls' hits e : from ls hits e -> from (ls ++ ls') hits e.
Proof.
  intros [He|(a & l & Ha & Hp & Hc)]; [left|right].
  - unfold replies. rewrite omap_app. by apply elem_of_app; left.
  - exists a, l. split_and!; [done| |done]. by apply prefix_app_r.
Qed.


Lemma next_step_inv w ls hits lost es :
  inv w ls hits lost es ->
  exists hits' lost' es', inv (next_step whois w) ls hits' lost' es' /\
    (whois_fd (next_step whois w) < 0 -> list_ (next_step whois w) = []).
Proof.
  intros [Hs Hb Ht Htr Hf Hfr Hal Hhi Hfd Hle Hno Hco Hlo].
  destruct (next_request_spec (trie w) (list_ w) (found w) (whois_fd w) Hfd)
    as (l' & es2 & hits2 & lost2 & fd' & E & Hp & H2 & Hl2 & Hfd' & Hn).
  unfold next_step. rewrite E.
  exists (hits ++ hits2), (lost ++ lost2), (es ++ es2). split; [|done].
  split; cbn; unfold WHOIS_UNAVAILABLE in *; try done.
  - rewrite Hf. by rewrite add_all_app.
  - apply Forall_app. split; [eapply Forall_impl; [exact Hfr|]; intros; eapply from_hits; [done|set_solver]|].
    apply Forall_forall. intros e (i & Hi)%list_elem_of_lookup. right.
    destruct (Forall2_lookup_r _ _ _ _ _ H2 Hi) as (a & Ha & Hc). exists a, ls.
    split_and!; [|done|by rewrite <- Htr]. apply elem_of_app. right. by eapply list_elem_of_lookup_2.
  - by apply sublist_inserts_r.
  - apply Forall_app. split; [eapply Forall_impl; [exact Hhi|]; intros a (e & He & Ha); exists e; set_solver|].
    apply Forall_forall. intros a (i & Hi)%list_elem_of_lookup.
    destruct (Forall2_lookup_l _ _ _ _ _ H2 Hi) as (e & He & Hc). exists e.
    split; [apply elem_of_app; right; by eapply list_elem_of_lookup_2|].
    unfold cached in Hc. by destruct (_ <? 0); simplify_eq.
  - lia.
  - intros Hne. apply Hle. lia.
  - intros Hlt. apply Hno. lia.
  - rewrite Hco, Hp. rewrite <- !app_assoc.
    apply Permutation_app_head. rewrite (Permutation_app_swap_app lost2 hits).
    apply Permutation_app_head. by rewrite (Permutation_app_swap_app (asked w) lost2),
      (Permutation_app_swap_app (asked w) hits2).
  - intros Hne. rewrite Hl2, Hlo by lia. done.
Qed.

Lemma whois_failed_inv w ls hits lost es :
  inv w ls hits lost es -> exists lost', inv (whois_failed w) ls hits lost' es.
Proof.
  intros [Hs Hb Ht Htr Hf Hfr Hal Hhi Hfd Hle Hno Hco Hlo].
  exists (lost ++ take 1 (list_ w)). split; cbn; unfold WHOIS_UNAVAILABLE in *; try done || lia.
  rewrite Hco. destruct (list_ w) as [|a l]; cbn; rewrite <- !app_assoc; [done|]. cbn [app].
  apply Permutation_app_head. rewrite app_assoc, <- Permutation_middle. by rewrite <- app_assoc.
Qed.

Lemma write_step_inv w ls hits lost es sends :
  inv w ls hits lost es -> 0 <= whois_fd w ->
  exists lost' w', (write_step w sends = inl w' \/ write_step w sends = inr w' /\ 0 <= whois_fd w') /\
    inv w' ls hits lost' es.
Proof.
  intros Hi Hfd0. unfold write_step. destruct (list_ w) as [|a l] eqn:El.
  { exists lost, w. split; [by right|done]. }
  destruct (_ <? 0).
  - apply whois_failed_inv in Hi as [lost' Hi]. exists lost', (whois_failed w). split; [by left|done].
  - eexists lost, _. split; [by right|].
    destruct Hi as [Hs Hb Ht Htr Hf Hfr Hal Hhi Hfd Hle Hno Hco Hlo].
    split; cbn; unfold WHOIS_UNAVAILABLE in *; try done || lia.
    + intros Hne. rewrite Hle, length_app by done. cbn. lia.
    + by rewrite Hco, El, <- app_assoc.
Qed.

Lemma read_step_inv w ls hits lost es :
  inv w ls hits lost es -> 0 <= whois_fd w ->
  exists w' ls' lost' es', read_step w = Ok w' /\ inv w' ls' hits lost' es'.
Proof.
  intros Hi Hfd0. unfold read_step, read_asn_request. destruct (recv _ _) as [[got q]|] eqn:Er.
  2:{ apply whois_failed_inv in Hi as [lost' Hi]. by eexists _, ls, lost', es. }
  destruct Hi as [Hs Hb (rest & part & Hsp & Hok & Hall) Htr Hf Hfr Hal Hhi Hfd Hle Hno Hco Hlo].
  apply recv_Some in Er as (E & _ & _ & Hne). rewrite E in Hsp.
  destruct (split_read _ _ _ _ _ Hb Hsp) as (ls1 & part1 & ls2 & E1 & E2 & -> & Hp1).
  apply Forall_app in Hok as [Hok1 Hok2]. rewrite (process_buffer_spec _ _ _ _ E1 Hok1), bind_Ok.
  eexists _, (ls ++ ls1), lost, (es ++ replies ls1). split; [done|].
  assert (Hr : replies (ls ++ ls1) = replies ls ++ replies ls1) by (unfold replies; by rewrite omap_app).
  split; cbn; try done; rewrite ?Hr.
  - by apply Hne.
  - exists ls2, part. by rewrite <- app_assoc.
  - by rewrite Htr, add_all_app.
  - by rewrite Hf, add_all_app.
  - apply Forall_app. split; [eapply Forall_impl; [exact Hfr|]; intros; by apply from_lines|].
    apply Forall_forall. intros e He. left. rewrite Hr. set_solver.
  - by apply sublist_app.
  - eapply Forall_impl; [exact Hhi|]. intros a (e & He & Ha). exists e. set_solver.
  - intros Hn. rewrite Hle, length_app by done. lia.
  - lia.
Qed.

Lemma next_step_left w : left_ (next_step whois w) = left_ w.
Proof. unfold next_step. by destruct (next_request _ _ _ _ _) as [[? ?] ?]. Qed.

Lemma worker_loop_inv env w ls hits lost es :
  inv w ls hits lost es ->
  exists w' ls' hits' lost' es', worker_loop whois env w = Ok w' /\ inv w' ls' hits' lost' es' /\
    list_ w' = [] /\ left_ w' <= 0.
Proof.
  revert w ls hits lost es. induction env as [|ev env IH]; intros w ls hits lost es Hi; cbn [worker_loop];
    apply next_step_inv in Hi as (hits1 & lost1 & es1 & Hi & Hemp); set (w1 := next_step whois w) in *;
    (destruct (bool_decide (list_ w1 = []) && (left_ w1 <=? 0)) eqn:Ed;
     [apply andb_true_iff in Ed as [Hl%bool_decide_eq_true Hle%Z.leb_le]; by eexists _, _, _, _, _|]);
    (assert (Hfd : 0 <= whois_fd w1);
     [destruct (Z.le_gt_cases 0 (whois_fd w1)) as [|Hlt]; [done|];
      rewrite (Hemp Hlt), (i_none _ _ _ _ _ Hi Hlt) in Ed; discriminate Ed|]);
    rewrite (proj2 (Z.ltb_ge _ _)) by done.
  - apply whois_failed_inv in Hi as [lost2 Hi]. apply next_step_inv in Hi as (hits3 & lost3 & es3 & Hi & Hemp3).
    eexists _, _, _, _, _. split; [done|]. split; [exact Hi|].
    split; [|by rewrite next_step_left]. apply Hemp3.
    unfold next_step, whois_failed. cbn [trie list_ found whois_fd].
    destruct (next_request_spec (trie w1) (tail (list_ w1)) (found w1) WHOIS_UNAVAILABLE)
      as (l' & es' & hs & lo & fd' & -> & _ & _ & _ & Hd & _); [by right; left|].
    cbn. unfold WHOIS_UNAVAILABLE in *. lia.
  - destruct ev as [| |r wr sends]; [by eapply IH| |].
    + apply whois_failed_inv in Hi as [lost2 Hi]. by eapply IH.
    + unfold ready_step.
      assert (Hw : exists lost2 w2, ((if wr then write_step w1 sends else inr w1) = inl w2 \/
        (if wr then write_step w1 sends else inr w1) = inr w2 /\ 0 <= whois_fd w2) /\
        inv w2 ls hits1 lost2 es1).
      { destruct wr; [by eapply write_step_inv|]. exists lost1, w1. split; [by right|done]. }
      destruct Hw as (lost2 & w2 & [-> |[-> Hfd2]] & Hi2); [by eapply IH|].
      destruct (r && _); [|by eapply IH].
      destruct (read_step_inv _ _ _ _ _ Hi2 Hfd2) as (w3 & ls3 & lost3 & es3 & -> & Hi3). by eapply IH.
Qed.
End Found.

(** What holds when the thread is done, for every sequence of events. *)
Lemma worker_found `{Inet} whois env cache0 l q ls part :
  whois = WHOIS_UNAVAILABLE \/ 0 <= whois ->
  Forall (fun c => c <> []) q -> split_lines [] (concat q) = (ls, part) -> Forall line_ok ls ->
  exists w got hits es,
    worker_loop whois env
      {| list_ := l; trie := cache0; found := iptrie_empty; left_ := 0; whois_fd := -1; buffer := [];
         stream := q; asked := [] |} = Ok w /\
    list_ w = [] /\ got `prefix_of` ls /\
    trie w = add_all (replies got) cache0 /\ found w = add_all es iptrie_empty /\
    Forall (from cache0 got hits) es /\ replies got `sublist_of` es /\
    Forall (fun a => exists e, e ∈ es /\ e_addr e = a) hits /\ hits ++ asked w ⊆+ l /\
    (whois_fd w <> WHOIS_UNAVAILABLE ->
     l ≡ₚ hits ++ asked w /\ (length (asked w) <= length (replies got))%nat).
Proof.
  intros Hwh Hq Hs Hok.
  assert (Hi : inv cache0 l ls {| list_ := l; trie := cache0; found := iptrie_empty; left_ := 0;
    whois_fd := -1; buffer := []; stream := q; asked := [] |} [] [] [] []).
  { split; cbn; try done; try lia; [set_solver|by exists ls, part]. }
  destruct (worker_loop_inv whois Hwh cache0 l ls env _ _ _ _ _ Hi)
    as (w & got & hits & lost & es & E & [Hs' Hb (rest & p & _ & _ & Ha) Htr Hf Hfr Hal Hhi Hfd Hle Hno Hco Hlo]
        & Hl & Hleft).
  exists w, got, hits, es. rewrite Hl, app_nil_r in Hco. split_and!; try done.
  - by exists rest.
  - rewrite Hco. by apply submseteq_inserts_l.
  - intros Hne. rewrite (Hlo Hne) in Hco. split; [done|]. rewrite (Hle Hne) in Hleft. lia.
Qed.

(** ** An honest whois server *)

Section Honest.
Context `{InetLaws} (asn : sockaddr -> Z).

(** The text of an answer: a number, and the address between spaces. *)
Definition answers (line : cstr) : Prop :=
  exists a t pad pad', addr_wf a /\ line = t ++ "|"%char :: pad ++ inet_ntop a ++ pad' /\
    is_header line = false /\ t <> [] /\ ("|"%char ∉ t) /\ atoi t = asn a /\
    Forall (fun c => c = " "%char) pad /\ Forall (fun c => c = " "%char) pad'.

(** Addresses of one /24 or /64 have the same AS number, which fits an int. *)
Definition asn_blocks : Prop :=
  (forall a, 0 <= asn a < 2147483648) /\
  forall a b, addr_wf a -> addr_wf b -> sa_family a = sa_family b -> agree a b (asn_prefix a) -> asn a = asn b.
Definition consistent (es : list entry) : Prop :=
  Forall (fun e => asn_entry e /\ e_as e = asn (e_addr e)) es.

Lemma whois_prefix_asn a : addr_wf a -> whois_prefix a = asn_prefix a.
Proof. by destruct a. Qed.

Lemma answer_parsed line :
  asn_blocks -> answers line ->
  exists a line', parse_line line = Ok ({| e_addr := a; e_prefix := asn_prefix a; e_as := asn a |}, line') /\
    addr_wf a.
Proof.
  intros [Hr _] (a & t & pad & pad' & Ha & -> & _ & Hne & Ht & Has & Hp & Hp').
  destruct (ntop_text a Ha) as [Hn Hc]. rewrite Forall_forall in Hp, Hp', Hc.
  assert (E1 : strtok_r (str "|") (t ++ "|"%char :: pad ++ inet_ntop a ++ pad')
    = Some ([], t, Some (pad ++ inet_ntop a ++ pad'))).
  { apply (strtok_r_word (str "|") []); [constructor|done| |left].
    apply Forall_forall. intros c Hc' ->%list_elem_of_singleton. done. }
  assert (E2 : strtok_r (str "|") (pad ++ inet_ntop a ++ pad') = Some ([], pad ++ inet_ntop a ++ pad', None)).
  { apply (strtok_r_last (str "|") []); [constructor| |].
    - intros [_ [? _]%app_nil]%app_nil. done.
    - apply Forall_forall. intros c Hin Hbar%list_elem_of_singleton. subst c.
      apply elem_of_app in Hin as [Hin|[Hin|Hin]%elem_of_app]; [by apply Hp in Hin| |by apply Hp' in Hin].
      by destruct (Hc _ Hin) as (_ & ? & _). }
  assert (Hsp : forall c, c ∈ str " " <-> c = " "%char) by (intros; apply list_elem_of_singleton).
  assert (Hw : Forall (fun c => c ∉ str " ") (inet_ntop a)).
  { apply Forall_forall. intros c Hin ->%Hsp. by destruct (Hc _ Hin) as (? & _). }
  assert (E3 : exists r, strtok_r (str " ") (pad ++ inet_ntop a ++ pad') = Some (pad, inet_ntop a, r)).
  { assert (Hpad : Forall (fun c => c ∈ str " ") pad) by (apply Forall_forall; intros; by apply Hsp, Hp).
    destruct pad' as [|c pad'].
    - rewrite app_nil_r. eexists. by apply strtok_r_last.
    - eexists. apply strtok_r_word; [done..|]. apply Hsp, Hp'. left. }
  destruct E3 as [r E3]. unfold parse_line. rewrite E1. cbn [mbind option_bind]. rewrite E2, E3.
  assert (Hv : i64 (u64 (atoi t)) = asn a) by (rewrite Has; specialize (Hr a); by rewrite u64_id, i64_id by lia).
  rewrite Hv. pose proof (pton_ntop a Ha) as Hpt. destruct a as [x|ws|f]; [| |done]; cbn [sa_family] in Hpt.
  - rewrite Hpt. by exists (SockIn x); eexists.
  - rewrite (pton_other (SockIn6 ws)), Hpt by done. by exists (SockIn6 ws); eexists.
Qed.

Lemma replies_consistent ls :
  asn_blocks -> Forall (fun l => is_header l = true \/ answers l) ls -> consistent (replies ls).
Proof.
  intros Hb Hl. induction Hl as [|l ls Hl Hls IH]; [constructor|]. unfold replies, reply. cbn.
  destruct (is_header l) eqn:Eh; [exact IH|]. destruct Hl as [|Hl]; [done|].
  destruct (answer_parsed l Hb Hl) as (a & l' & -> & Ha). by constructor.
Qed.

(** Lookups in a trie of consistent updates. *)
Lemma consistent_lookup es z :
  asn_blocks -> consistent es -> addr_wf z ->
  iptrie_lookup_as (add_all es iptrie_empty) z =
  if existsb (fun e => covers e z) es then asn z else -1.
Proof.
  intros [_ Hb] Hc Hz. destruct (asn_compatible es) as [Hw Hcm].
  { eapply Forall_impl; [exact Hc|]. by intros e []. }
  rewrite add_all_lookup by done. apply spec_lookup_unique.
  - intros e He Hcov. rewrite <- Permutation_rev in He.
    rewrite (proj2 (existsb_exists _ _)) by (exists e; split; [by apply list_elem_of_In|done]).
    unfold consistent in Hc. rewrite Forall_forall in Hc. destruct (Hc e He) as [[Wa Hp] ->].
    destruct (decide (sa_family (e_addr e) = sa_family z)) as [Hf|Hf].
    + symmetry. apply Hb; [done..|]. rewrite Forall_forall in Hw. destruct (Hw e He) as [_ Hpr].
      rewrite <- Hp. by apply (covers_agree (sa_family z)) in Hcov.
    + apply (compare_addresses_family _ _ (e_prefix e)) in Hf. unfold covers in Hcov. lia.
  - intros Hno. destruct (existsb _ es) eqn:E; [|done]. apply existsb_exists in E as (e & He & Hcv).
    rewrite Hno in Hcv; [done|]. rewrite <- Permutation_rev. by apply list_elem_of_In.
Qed.

Lemma consistent_covered es a :
  asn_blocks -> consistent es -> addr_wf a -> (exists e, e ∈ es /\ e_addr e = a) ->
  iptrie_lookup_as (add_all es iptrie_empty) a = asn a.
Proof.
  intros Hb Hc Ha (e & He & <-). rewrite consistent_lookup by done.
  rewrite (proj2 (existsb_exists _ _)); [done|]. exists e. split; [by apply list_elem_of_In|].
  unfold consistent in Hc. rewrite Forall_forall in Hc. destruct (Hc e He) as [[Hw Hp] _].
  apply (covers_agree (sa_family (e_addr e))); [|done|done|apply agree_refl].
  split_and!; [done|done|..]; rewrite Hp; destruct (e_addr e); cbn in *; lia.
Qed.

(** What the thread puts into its result. *)
Lemma from_consistent es0 got hits es :
  asn_blocks -> consistent es0 -> consistent (replies got) -> Forall addr_wf hits ->
  (forall got', got' `prefix_of` got -> consistent (replies got')) ->
  Forall (from (add_all es0 iptrie_empty) got hits) es -> consistent es.
Proof.
  intros Hb Hes0 Hg Hh Hpre Hf. unfold consistent in *. rewrite Forall_forall in Hh. rewrite Forall_forall in Hg.
  eapply Forall_impl; [exact Hf|]. intros e [He|(a & ls' & Ha & Hp & Hc)]; [by apply Hg|].
  unfold cached in Hc. destruct (Z.ltb_spec (i32 (iptrie_lookup_as (add_all (replies ls')
    (add_all es0 iptrie_empty)) a)) 0) as [|Hge]; [done|]. injection Hc as <-. cbn [e_addr e_as e_prefix].
  split; [split; [by apply Hh|cbn; apply whois_prefix_asn; by apply Hh]|].
  rewrite <- add_all_app, consistent_lookup in *; try done; try (by apply Hh);
    try (apply Forall_app; split; [done|by apply Hpre]).
  destruct Hb as [Hr _]. specialize (Hr a). destruct (existsb _ _); [|done]. by rewrite i32_id by lia.
Qed.

(** A line that fits the buffer and strtok_r(). *)
Definition line_fits (line : cstr) : Prop := line <> [] /\ (zero ∉ line) /\ (length line <= 1022)%nat.
Lemma truthful_lines_ok ls :
  asn_blocks -> Forall line_fits ls -> Forall (fun l => is_header l = true \/ answers l) ls -> Forall line_ok ls.
Proof.
  intros Hb Hf Ha. rewrite Forall_forall in Hf, Ha |- *. intros line Hl. destruct (Hf line Hl) as (H1 & H2 & H3).
  split_and!; [done..|]. destruct (Ha line Hl) as [|Hans]; [by left|right].
  destruct (answer_parsed line Hb Hans) as (a & line' & E & _). by eexists _, _.
Qed.
End Honest.

(** C31: The thread that looks up AS numbers ends without a fault for every list of
    addresses, every sequence of select() results, short sends and pieces in which the
    answers arrive, when the whois server is a truthful one: each line it sends is a header or
    error line, or a number, '|' and the text of an address between spaces with the AS number of
    that address; no line is empty, has a NUL or is longer than 1022 characters; and AS numbers are below 2^31 and the
    same for all addresses of a /24 or /64.  Then, if the cache was right, the
    result and the updated cache never hold a wrong AS number; the cache has got
    exactly the answers that were read; and if the connection did not fail and every
    query written got its answer, each address asked for has its AS number in the
    result. *)
Theorem asn_worker_answers `{InetLaws} asn whois env es0 l q ls part :
  whois = WHOIS_UNAVAILABLE \/ 0 <= whois ->
  Forall (fun c => c <> []) q -> split_lines [] (concat q) = (ls, part) -> Forall line_fits ls ->
  asn_blocks asn -> consistent asn es0 -> Forall addr_wf l ->
  Forall (fun l => is_header l = true \/ answers asn l) ls ->
  exists w got,
    worker_loop whois env
      {| list_ := l; trie := add_all es0 iptrie_empty; found := iptrie_empty; left_ := 0; whois_fd := -1;
         buffer := []; stream := q; asked := [] |} = Ok w /\
    list_ w = [] /\ got `prefix_of` ls /\ trie w = add_all (es0 ++ replies got) iptrie_empty /\
    (forall z, addr_wf z -> iptrie_lookup_as (found w) z ∈ [asn z; -1] /\
                            iptrie_lookup_as (trie w) z ∈ [asn z; -1]) /\
    (whois_fd w <> WHOIS_UNAVAILABLE -> asked w ⊆ e_addr <$> replies got ->
     forall a, a ∈ l -> iptrie_lookup_as (found w) a = asn a).
Proof.
  intros Hwh Hq Hs Hfit Hb Hes0 Hl Hans.
  assert (Hok : Forall line_ok ls) by (by apply (truthful_lines_ok asn)).
  destruct (worker_found whois env (add_all es0 iptrie_empty) l q ls part Hwh Hq Hs Hok)
    as (w & got & hits & es & E & Hnil & Hpre & Htr & Hf & Hfr & Hsub & Hhit & Hinc & Hall).
  assert (Hpc : forall got', got' `prefix_of` got -> consistent asn (replies got')).
  { intros got' Hp. apply replies_consistent; [done|]. destruct Hpre as [k ->], Hp as [k' ->].
    rewrite <- app_assoc, !Forall_app in Hans. by destruct Hans. }
  assert (Hg : consistent asn (replies got)) by (by apply Hpc).
  assert (Hh : Forall addr_wf hits).
  { rewrite Forall_forall in Hl |- *. intros a Ha. apply Hl. eapply elem_of_submseteq; [|exact Hinc]. set_solver. }
  assert (Hes : consistent asn es) by (by apply (from_consistent asn es0 got hits)).
  assert (Hc : consistent asn (es0 ++ replies got)) by (by apply Forall_app).
  exists w, got. rewrite <- add_all_app in Htr. split_and!; try done.
  - intros z Hz. rewrite Hf, Htr, !(consistent_lookup asn) by done.
    split; destruct (existsb _ _); set_solver.
  - intros Hne Hask a Ha. destruct (Hall Hne) as [Hp _]. rewrite Hf. apply consistent_covered; [done..| |].
    + rewrite Forall_forall in Hl. by apply Hl.
    + rewrite Hp in Ha. apply elem_of_app in Ha as [Ha|Ha]; [rewrite Forall_forall in Hhit; by apply Hhit|].
      apply Hask, list_elem_of_fmap in Ha as (e & -> & He). exists e. split; [|done].
      eapply elem_of_submseteq; [exact He|by apply sublist_submseteq].
Qed.

(** ** A test and the cache *)

(** A walk whose function sends [k] times for each node. *)
Lemma run_sends {D} (func : iptrie_node -> D -> Z * D) (wrap : conn -> D) (s : iptrie_node -> list (list Z))
    (k : nat) ns c :
  (forall n c, n ∈ ns -> (k <= good c)%nat ->
     func n (wrap c) = (0, wrap {| out := out c ++ s n; good := good c - k |})) ->
  (k * length ns <= good c)%nat ->
  run_until func ns (wrap c)
  = (0, wrap {| out := out c ++ concat (s <$> ns); good := good c - k * length ns |}).
Proof.
  revert c. induction ns as [|n ns IH]; intros c Hf Hc; cbn [run_until].
  - rewrite Nat.mul_0_r, Nat.sub_0_r. cbn. rewrite app_nil_r. by destruct c.
  - cbn [length] in Hc. rewrite Hf by (set_solver || lia). cbn [Z.ltb Z.compare].
    rewrite IH; [|intros; apply Hf; set_solver|cbn; lia]. cbn. rewrite <- app_assoc. do 3 f_equal. lia.
Qed.

Definition node_entry (n : iptrie_node) : entry :=
  match n with
  | Node a p x _ _ => {| e_addr := x; e_prefix := p; e_as := a |}
  | Null => {| e_addr := SockOther 0; e_prefix := 0; e_as := 0 |}
  end.
Lemma leaf_entries t : leaves t = node_entry <$> leaf_nodes t.
Proof.
  induction t as [|a p x l IHl r IHr]; cbn; [done|]. destruct (is_null l && is_null r); [done|].
  by rewrite fmap_app, IHl, IHr.
Qed.
Definition all_nodes (root : iptrie) : list iptrie_node := leaf_nodes (ipv4 root) ++ leaf_nodes (ipv6 root).
Lemma all_entries root : all_leaves root = node_entry <$> all_nodes root.
Proof. unfold all_leaves, all_nodes. by rewrite fmap_app, !leaf_entries. Qed.
Lemma node_is_node n : addr_wf (e_addr (node_entry n)) -> exists a p x l r, n = Node a p x l r.
Proof. destruct n; [done|]. by eexists _, _, _, _, _. Qed.
Lemma all_leaves_wf root : root_ok root -> Forall any_wf (all_leaves root).
Proof.
  intros [H4 H6]. apply trie_ok_leaves in H4, H6. apply Forall_app.
  split; (eapply Forall_impl; [eassumption|]); by intros e (? & _ & ?).
Qed.

Lemma fill_request_trie_spec q as_ t :
  Forall addr_wf as_ -> aligned q (concat (query_sends <$> as_) ++ [le_bytes 2 AF_UNSPEC]) ->
  fill_request_trie q t = Ok (0, add_all (request <$> as_) t).
Proof.
  intros Hw Ha. apply fill_loop_spec; [done..|]. pose proof (aligned_fuel _ _ Ha) as Hl.
  enough (length as_ <= length (concat (query_sends <$> as_)))%nat by (rewrite length_app in Hl; lia).
  clear. induction as_ as [|a as_ IH]; cbn; lia.
Qed.
Lemma fetch_results_local_spec q es t :
  Forall entry_sendable es -> aligned q (concat (entry_sends <$> es)) ->
  amp_asn_fetch_results_local q t = Ok (add_all es t).
Proof.
  intros Hw Ha. apply local_loop_spec; [done..|]. pose proof (aligned_fuel _ _ Ha) as Hl.
  enough (length es <= length (concat (entry_sends <$> es)))%nat by lia.
  clear. induction es as [|e es IH]; cbn; lia.
Qed.

(** The two ends of the local protocol agree.  The queries a test sends for the
    leaves of its trie, ended by the flag, are read back by the cache as requests for
    exactly these addresses under their /24 or /64, and the result trie the cache
    sends back is read by the test as the same updates: a trie that gets them answers
    every lookup as the one of the cache does. *)
Theorem asn_local_roundtrip `{Inet} fd requests results c c' :
  0 <= fd -> root_ok requests -> root_ok results ->
  Forall (fun e => -9223372036854775808 <= e_as e < 9223372036854775808) (all_leaves results) ->
  out c = [] -> (2 * length (all_leaves requests) < good c)%nat ->
  out c' = [] -> (4 * length (all_leaves results) <= good c')%nat ->
  exists c1 c2 c3,
    iptrie_on_all_leaves (amp_asn_add_query fd (Some AF_UNIX)) requests (Ok c) = (0, Ok c1) /\
    amp_asn_flag_done fd (Some AF_UNIX) c1 = (0, c2) /\
    iptrie_on_all_leaves return_asn_list results c' = (0, c3) /\
    (forall q t, aligned q (out c2) ->
       fill_request_trie q t = Ok (0, add_all ((fun e => request (e_addr e)) <$> all_leaves requests) t)) /\
    (forall q t, aligned q (out c3) ->
       amp_asn_fetch_results (Some AF_UNIX) q t = Ok (add_all (all_leaves results) t)) /\
    forall z, addr_wf z ->
      iptrie_lookup_as (add_all (all_leaves results) iptrie_empty) z = iptrie_lookup_as results z.
Proof.
  intros Hfd Hrq Hrs Has Hc Hg Hc' Hg'. pose proof (all_leaves_wf _ Hrq) as Wq. pose proof (all_leaves_wf _ Hrs) as Ws.
  rewrite !iptrie_on_all_leaves_correct. fold (all_nodes requests) (all_nodes results).
  rewrite (run_sends (amp_asn_add_query fd (Some AF_UNIX)) Ok
    (fun n => query_sends (e_addr (node_entry n))) 2).
  2:{ intros n c0 Hn Hg0. rewrite all_entries in Wq. rewrite Forall_fmap, Forall_forall in Wq.
      destruct (Wq n Hn) as [Hw _]. destruct (node_is_node n Hw) as (a & p & x & l & r & ->). cbn in Hw.
      unfold amp_asn_add_query, amp_asn_add_query_local. rewrite (proj2 (Z.ltb_ge fd 0)) by lia.
      change (AF_UNIX =? AF_UNIX) with true. cbn iota. rewrite known_family by done.
      by rewrite send_all_ok. }
  2:{ rewrite all_entries, length_fmap in Hg. lia. }
  rewrite (run_sends return_asn_list id (fun n => entry_sends (node_entry n)) 4 _ c').
  2:{ intros n c0 Hn Hg0. rewrite all_entries in Ws. rewrite Forall_fmap, Forall_forall in Ws.
      destruct (Ws n Hn) as [Hw _]. destruct (node_is_node n Hw) as (a & p & x & l & r & ->). cbn in Hw.
      unfold id, return_asn_list. rewrite known_family by done. by rewrite send_all_ok. }
  2:{ rewrite all_entries, length_fmap in Hg'. lia. }
  eexists _, _, _. split; [done|]. unfold amp_asn_flag_done. rewrite (proj2 (Z.ltb_ge fd 0)) by lia.
  change (AF_UNIX =? AF_UNIX) with true. cbn iota. unfold amp_asn_flag_done_local.
  rewrite send_all_ok by (cbn; rewrite all_entries, length_fmap in Hg; lia).
  split; [done|]. split; [done|]. cbn [out]. unfold id in *. rewrite Hc, Hc'. cbn [app out].
  split_and!; [| |by intros z; apply copy_lookup].
  - intros q t Ha. rewrite (list_fmap_compose e_addr request). apply fill_request_trie_spec.
    + apply Forall_fmap. eapply Forall_impl; [exact Wq|]. by intros e [].
    + by rewrite all_entries, <- !list_fmap_compose.
  - intros q t Ha. apply fetch_results_local_spec.
    + rewrite Forall_forall in Ws, Has |- *. intros e He. split; [by apply Ws|by apply Has].
    + by rewrite all_entries, <- list_fmap_compose.
Qed.

(** ** Concrete exchanges *)

(** [line_ok] decided. *)
Definition line_okb `{Inet} (l : cstr) : bool :=
  bool_decide (l <> []) && bool_decide (zero ∉ l) && (length l <=? 1022)%nat &&
  (is_header l || match parse_line l with Ok _ => true | Fault _ => false end).
Lemma lines_okb `{Inet} ls : forallb line_okb ls = true -> Forall line_ok ls.
Proof.
  rewrite forallb_forall. intros Hl0. apply List.Forall_forall. intros l Hl. specialize (Hl0 l Hl).
  unfold line_okb in Hl0. rewrite !andb_true_iff, !bool_decide_eq_true, orb_true_iff in Hl0.
  destruct Hl0 as [[[H1 H2] H3] H4]. split_and!; [done..|by apply Nat.leb_le|].
  destruct H4 as [|H4]; [by left|right]. destruct (parse_line l) as [[e l']|]; [by eexists _, _|done].
Qed.

(** Dotted quads, as inet_pton(AF_INET) and inet_ntop(AF_INET) have them. *)
Definition quad (l : list Z) : option sockaddr :=
  match l with
  | [a; b; c; d] =>
      if forallb (fun x => (0 <=? x) && (x <? 256)) l then Some (ip4 a b c d) else None
  | _ => None
  end.
#[local] Instance dotted : Inet := {|
  inet_pton f s :=
    if (f =? AF_INET) && forallb (fun c => bool_decide (is_Some (digit_val c)) || bool_decide (c = "."%char)) s
    then quad (atoi <$> strtok_all (str ".") s) else None;
  inet_ntop a :=
    match a with
    | SockIn x => str (pretty (Z.to_N (x mod 256)) +:+ "." +:+ pretty (Z.to_N (x / 256 mod 256)) +:+ "." +:+
                       pretty (Z.to_N (x / 65536 mod 256)) +:+ "." +:+ pretty (Z.to_N (x / 16777216)))
    | _ => []
    end
|}.

Definition host1 : sockaddr := ip4 216 90 108 31.
Definition host2 : sockaddr := ip4 192 0 2 7.
Definition answer_text : list cstr :=
  [str "Bulk mode; whois.cymru.com [2021-03-01 01:00:00 +0000]"; str "23028   | 216.90.108.31    ";
   str "64496 | 192.0.2.7"].
(** The answers in pieces that end within a line. *)
Definition pieces : list (list ascii) :=
  let t := text answer_text in [take 60 t; take 1 (drop 60 t); drop 61 t].

Lemma fetch_results_direct_lines_witness :
  amp_asn_fetch_results_direct pieces iptrie_empty = Ok (add_all (replies answer_text) iptrie_empty) /\
  replies answer_text = [{| e_addr := host1; e_prefix := 24; e_as := 23028 |};
                         {| e_addr := host2; e_prefix := 24; e_as := 64496 |}].
Proof.
  split; [|vm_compute; reflexivity].
  apply (fetch_results_direct_lines pieces iptrie_empty answer_text []).
  - repeat constructor; vm_compute; discriminate.
  - vm_compute. reflexivity.
  - apply lines_okb. vm_compute. reflexivity.
Defined.

(** One address is in the cache, the other is asked for while the first answers come
    in with a short send and an interrupted select(). *)
Definition warm_cache : iptrie := add_all [{| e_addr := host1; e_prefix := 24; e_as := 23028 |}] iptrie_empty.
Definition two_hosts : list sockaddr := [ip4 216 90 108 1; host2].
Definition answer2 : list cstr := [str "64496 | 192.0.2.7"].
Definition events : list event := [Interrupted; Ready false true [4; 100]; Ready true false []; Ready true false []].
Definition start : worker :=
  {| list_ := two_hosts; trie := warm_cache; found := iptrie_empty; left_ := 0; whois_fd := -1;
     buffer := []; stream := [take 9 (text answer2); drop 9 (text answer2)]; asked := [] |}.

Example worker_ex :
  match worker_loop 7 events start with
  | Ok w => whois_fd w = 7 /\ asked w = [host2] /\
            map (iptrie_lookup_as (found w)) two_hosts = [23028; 64496] /\
            iptrie_lookup_as (trie w) host2 = 64496
  | Fault _ => False
  end.
Proof. vm_compute. done. Qed.

(** *** Addresses as text that satisfies the laws *)

Fixpoint bits (p : positive) : cstr :=
  match p with xH => [] | xO p => "0"%char :: bits p | xI p => "1"%char :: bits p end.
Fixpoint bits_pos (s : cstr) : option positive :=
  match s with
  | [] => Some xH
  | c :: s => p ← bits_pos s;
              if bool_decide (c = "0"%char) then Some (xO p)
              else if bool_decide (c = "1"%char) then Some (xI p) else None
  end.
Lemma bits_pos_bits p : bits_pos (bits p) = Some p.
Proof. induction p as [p IH|p IH|]; cbn; [by rewrite IH..|done]. Qed.
Lemma bits_chars p : Forall (fun c => c = "0"%char \/ c = "1"%char) (bits p).
Proof. induction p; cbn; auto. Qed.

#[local] Instance addr_wf_dec a : Decision (addr_wf a).
Proof. destruct a; cbn; apply _. Defined.
Definition checked (f : Z) (a : sockaddr) : option sockaddr :=
  if decide (addr_wf a /\ sa_family a = f) then Some a else None.
Definition coded : Inet := {|
  inet_pton f s :=
    match s with
    | c :: s =>
        p ← bits_pos s;
        a ← (if bool_decide (c = "4"%char) then SockIn <$> (decode p : option Z)
             else SockIn6 <$> (decode p : option (list Z)));
        checked f a
    | [] => None
    end;
  inet_ntop a :=
    match a with
    | SockIn x => "4"%char :: bits (encode x)
    | SockIn6 ws => "6"%char :: bits (encode ws)
    | SockOther _ => []
    end
|}.
Lemma coded_laws : @InetLaws coded.
Proof.
  assert (Hok : forall a, addr_wf a -> checked (sa_family a) a = Some a).
  { intros a Ha. unfold checked. by rewrite decide_True. }
  split; cbn -[checked].
  - intros f [|c s] a; [done|]. destruct (bits_pos s) as [p|]; [cbn -[checked]|done].
    destruct (if bool_decide (c = "4"%char) then _ else _) as [a'|]; [cbn -[checked]|done].
    unfold checked. case_decide; [|done]. by intros [= <-].
  - intros [x|ws|f] Ha; [| |done]; rewrite bits_pos_bits; cbn -[checked]; rewrite decode_encode; by apply Hok.
  - intros [x|ws|f] Ha Hf; [done| |done]. rewrite bits_pos_bits. cbn -[checked]. rewrite decode_encode.
    change (checked AF_INET (SockIn6 ws) = None). unfold checked. by rewrite decide_False by (by intros [_ ?]).
  - intros a Ha.
    assert (Hb : forall c p, c ∈ ["4"%char; "6"%char] ->
      Forall (fun c => isspace c = false /\ c <> "|"%char /\ c <> zero) (c :: bits p)).
    { intros c p Hc. constructor; [set_unfold; by destruct Hc as [-> |[-> |[]]]|].
      eapply Forall_impl; [apply bits_chars|]. by intros ? [-> | ->]. }
    destruct a; [| |done]; (split; [done|apply Hb; set_solver]).
Qed.

(** Everything in 192.0.2.0/24 is AS 64496, the rest AS 23028. *)
Definition two_as (a : sockaddr) : Z :=
  if compare_addresses (Some host2) (Some a) 24 =? 0 then 64496 else 23028.
Lemma two_as_blocks : asn_blocks two_as.
Proof.
  unfold two_as. split; [intros a; destruct (_ =? 0); lia|]. intros a b Ha Hb Hf Hag.
  assert (H2 : addr_wf host2) by (cbn; lia).
  destruct (decide (sa_family a = AF_INET)) as [H4|H4].
  - destruct a as [x|ws|f]; [|done..]. cbn in Hag, H4, Hf.
    assert (E : compare_addresses (Some host2) (Some (SockIn x)) 24 = 0 <->
                compare_addresses (Some host2) (Some b) 24 = 0).
    { rewrite !(node_compare AF_INET) by (done || cbn; lia).
      split; intros H; (eapply agree_trans; [exact H|]); [done|by apply agree_sym]. }
    destruct (Z.eqb_spec (compare_addresses (Some host2) (Some (SockIn x)) 24) 0),
      (Z.eqb_spec (compare_addresses (Some host2) (Some b) 24) 0); tauto.
  - rewrite !(proj2 (Z.eqb_neq _ _)); [done|..]; apply compare_addresses_family; cbn; congruence.
Qed.
Definition honest_line : cstr := str "64496 | " ++ @inet_ntop coded host2 ++ str "  ".
Definition honest_start : worker :=
  {| list_ := two_hosts; trie := warm_cache; found := iptrie_empty; left_ := 0; whois_fd := -1;
     buffer := []; stream := [take 9 (text [honest_line]); drop 9 (text [honest_line])]; asked := [] |}.

Lemma asn_worker_answers_witness :
  exists w got, @worker_loop coded 7 events honest_start = Ok w /\ list_ w = [] /\
    got `prefix_of` [honest_line] /\
    (whois_fd w <> WHOIS_UNAVAILABLE -> asked w ⊆ e_addr <$> @replies coded got ->
     forall a, a ∈ two_hosts -> iptrie_lookup_as (found w) a = two_as a).
Proof.
  destruct (@asn_worker_answers coded coded_laws two_as 7 events
    [{| e_addr := host1; e_prefix := 24; e_as := 23028 |}] two_hosts
    [take 9 (text [honest_line]); drop 9 (text [honest_line])] [honest_line] [])
    as (w & got & E & Hl & Hp & _ & _ & Ha).
  - right. lia.
  - repeat constructor; vm_compute; discriminate.
  - vm_compute. reflexivity.
  - constructor; [|constructor]. unfold line_fits. split; [discriminate|].
    split; [apply (bool_decide_unpack _); vm_compute; exact I|apply Nat.leb_le; vm_compute; reflexivity].
  - exact two_as_blocks.
  - repeat constructor; cbn; lia.
  - repeat constructor; cbn; lia.
  - constructor; [|constructor]. right. exists host2, (str "64496 "), (str " "), (str "  ").
    split; [cbn; lia|]. split; [reflexivity|]. split; [vm_compute; reflexivity|].
    split; [discriminate|]. split; [apply (bool_decide_unpack _); vm_compute; exact I|].
    split; [vm_compute; reflexivity|]. repeat constructor.
  - exists w, got. split; [exact E|]. split; [exact Hl|]. split; [exact Hp|exact Ha].
Defined.
(** There the connection does hold and the query is answered. *)
Example honest_ex :
  match @worker_loop coded 7 events honest_start with
  | Ok w => whois_fd w = 7 /\ asked w = [host2] /\ e_addr <$> @replies coded [honest_line] = [host2] /\
            map (iptrie_lookup_as (found w)) two_hosts = [23028; 64496]
  | Fault _ => False
  end.
Proof. vm_compute. done. Qed.

Definition two_answers : list entry :=
  [{| e_addr := host1; e_prefix := 24; e_as := 23028 |}; {| e_addr := host2; e_prefix := 24; e_as := 64496 |}].
Lemma asn_local_roundtrip_witness :
  let requests := add_all (request <$> two_hosts) iptrie_empty in
  let results := add_all two_answers iptrie_empty in
  exists c1 c2 c3,
    iptrie_on_all_leaves (amp_asn_add_query 5 (Some AF_UNIX)) requests (Ok {| out := []; good := 100 |})
      = (0, Ok c1) /\
    amp_asn_flag_done 5 (Some AF_UNIX) c1 = (0, c2) /\
    iptrie_on_all_leaves return_asn_list results {| out := []; good := 100 |} = (0, c3) /\
    (forall q t, aligned q (out c2) ->
       fill_request_trie q t = Ok (0, add_all ((fun e => request (e_addr e)) <$> all_leaves requests) t)) /\
    (forall q t, aligned q (out c3) ->
       amp_asn_fetch_results (Some AF_UNIX) q t = Ok (add_all (all_leaves results) t)).
Proof.
  cbv zeta.
  destruct (asn_local_roundtrip 5 (add_all (request <$> two_hosts) iptrie_empty)
    (add_all two_answers iptrie_empty) {| out := []; good := 100 |} {| out := []; good := 100 |})
    as (c1 & c2 & c3 & H1 & H2 & H3 & Hq & Hr & _).
  - lia.
  - apply add_all_ok; apply asn_compatible; repeat constructor; cbn; lia.
  - apply add_all_ok; apply asn_compatible; repeat constructor; cbn; lia.
  - repeat constructor; cbn; lia.
  - reflexivity.
  - apply Nat.ltb_lt. vm_compute. reflexivity.
  - reflexivity.
  - apply Nat.leb_le. vm_compute. reflexivity.
  - exists c1, c2, c3. split; [exact H1|]. split; [exact H2|]. split; [exact H3|].
    split; [exact Hq|exact Hr].
Defined.

(** The thread as a whole: a test asks for two addresses and gets both AS numbers. *)
Example thread_ex :
  match
    '(_, c1) ← (match iptrie_on_all_leaves (amp_asn_add_query 5 (Some AF_UNIX))
                        (add_all (request <$> two_hosts) iptrie_empty) (Ok {| out := []; good := 100 |}) with
                | (r, Ok c) => Ok (amp_asn_flag_done 5 (Some AF_UNIX) c)
                | (_, Fault f) => Fault f
                end);
    a ← amp_asn_worker_thread 1000 5 2000 7 warm_cache (out c1)
          [take 9 (text answer2); drop 9 (text answer2)] events {| out := []; good := 100 |};
    let '(c, refresh, _) := a in
    t ← amp_asn_fetch_results (Some AF_UNIX) (out c) iptrie_empty;
    Ok (refresh, map (iptrie_lookup_as t) two_hosts)
  with
  | Ok r => r = (2000, [23028; 64496])
  | Fault _ => False
  end.
Proof. vm_compute. reflexivity. Qed.

(** *** Answers that break the reader *)

Definition fresh : asn_state := {| result := iptrie_empty; cache := None; outstanding := Some 2 |}.
(** A blank line hides every line after it: strtok_r() skips it, its length is not
    counted, and a NUL stays at the front of the buffer. *)
Example blank_line_hides :
  match process_buffer ([nl] ++ text [str "1 | 10.0.0.1"; str "2 | 10.0.1.1"]) fresh with
  | Ok (buf, st) => head buf = Some zero /\ outstanding st = Some 1 /\
      process_buffer (buf ++ text [str "3 | 10.0.2.1"]) st = Ok (buf ++ text [str "3 | 10.0.2.1"], st)
  | Fault _ => False
  end.
Proof. vm_compute. done. Qed.
(** One on its own is a NULL pointer. *)
Example newline_faults : process_buffer [nl] fresh = Fault NullDeref.
Proof. reflexivity. Qed.
(** An error is no answer, so the thread goes on waiting for the one it asked for. *)
Example error_not_counted :
  process_buffer (text [str "Error: no ASN or IP match on line 3."]) fresh = Ok ([], fresh).
Proof. vm_compute. reflexivity. Qed.
(** AS numbers from 2^31 on do not fit the int of atoi(): they are stored negative, and
    the cache never finds them. *)
Example large_asn_not_cached :
  match process_buffer (text [str "4200000000 | 192.0.2.7"]) fresh with
  | Ok (_, st) => iptrie_lookup_as (result st) host2 = -94967296 /\ cached (result st) host2 = None
  | Fault _ => False
  end.
Proof. vm_compute. done. Qed.
(** When the connection is lost after a query was written in the same round, the next
    address is passed over without a look into the cache. *)
Example lost_connection_skips :
  match worker_loop 7 [Ready false true [100]; Ready true true [100]]
          {| list_ := [ip4 10 0 0 1; ip4 10 0 1 1; host1]; trie := warm_cache; found := iptrie_empty;
             left_ := 0; whois_fd := -1; buffer := []; stream := []; asked := [] |} with
  | Ok w => iptrie_lookup_as (trie w) host1 = 23028 /\ iptrie_lookup_as (found w) host1 = -1
  | Fault _ => False
  end.
Proof. vm_compute. done. Qed.
(** A send timeout that cannot be set leaves the socket open. *)
Example whois_socket_leaks :
  connect_to_whois_server {| w_getaddrinfo := true; w_socket := 7; w_sndtimeo := false; w_connect := None;
    w_getfl := true; w_setfl := true; w_sends := 3 |} = (WHOIS_UNAVAILABLE, [7], {| out := []; good := 3 |}).
Proof. reflexivity. Qed.
