(* ===== verification/Config.v ===== *)
(** The configuration of measured (src/measured/parseconfig.c).

    libconfuse reads the file; what it stores for each option is the record [cfg_t],
    with the values of an option table before the file is read as [measured_opts].
    cfg_parse(), gethostname() and getaddrinfo() are parameters.  A section is [None]
    when cfg_getsec() returns NULL, a string when cfg_getstr() does; truth values are
    numbers because -1 stands for one that was not set. *)
From S2P Require Import Prelude CLib Dscp Acl ParamString Testlib Targets Schedule Run Controlmsg Sockets Control Files Fetch Certs.
#[local] Open Scope Z_scope.

(** ** Options *)

(** opt_ssl, also the deprecated options of the collector section. *)
Record opt_ssl : Set := {
  s_cacert : option cstr; s_key : option cstr; s_cert : option cstr; s_waitforcert : Z
}.
Record opt_collector : Set := {
  vialocal : Z; local : cstr; configrabbit : Z; address : option cstr; port : Z; vhost : cstr;
  exchange : cstr; routingkey : cstr; ssl : Z; prefetch : Z; deprecated : opt_ssl
}.
Record opt_remotesched : Set := {
  r_fetch : Z; r_url : option cstr; r_cacert : option cstr; r_key : option cstr;
  r_cert : option cstr; r_frequency : Z; identify : Z
}.
Record opt_acl : Set := { acl_title : cstr; allow : list cstr; deny : list cstr }.
Record opt_control : Set := {
  enabled : Z; c_port : cstr; c_interface : option cstr; c_ipv4 : option cstr;
  c_ipv6 : option cstr; c_acl : list opt_acl
}.
Record opt_defaults : Set := { d_title : cstr; d_client : option cstr; d_server : option cstr }.
Record cfg_t : Set := {
  o_ampname : option cstr; o_interface : option cstr; o_ipv4 : option cstr; o_ipv6 : option cstr;
  o_packetdelay : Z; o_loglevel : Z; o_dscp : Z; o_nameservers : list cstr; o_waitforclocksync : Z;
  sec_ssl : option opt_ssl; sec_collector : option opt_collector;
  sec_remotesched : option opt_remotesched; sec_control : option opt_control;
  sec_defaults : list opt_defaults
}.

Definition cfg_true : Z := 1.
Definition cfg_false : Z := 0.
Definition AMQP_PORT : Z := 5672.
Definition LOG_INFO : Z := 6.
Definition SCHEDULE_DIR : cstr := AMP_CONFIG_DIR ++ str "/schedules".

Definition no_ssl : opt_ssl := {| s_cacert := None; s_key := None; s_cert := None; s_waitforcert := -1 |}.
(** The tables that are given to cfg_init(): the defaults of every option. *)
Definition measured_opts (default_vialocal : Z) : cfg_t := {|
  o_ampname := None; o_interface := None; o_ipv4 := None; o_ipv6 := None;
  o_packetdelay := MIN_INTER_PACKET_DELAY; o_loglevel := LOG_INFO; o_dscp := DEFAULT_DSCP_VALUE;
  o_nameservers := []; o_waitforclocksync := cfg_false;
  sec_ssl := Some no_ssl;
  sec_collector := Some {|
    vialocal := default_vialocal; local := str "localhost"; configrabbit := cfg_true; address := None;
    port := AMQP_PORT; vhost := str "/"; exchange := str "amp_exchange"; routingkey := str "test";
    ssl := -1; prefetch := 1; deprecated := no_ssl |};
  sec_remotesched := Some {|
    r_fetch := cfg_false; r_url := None; r_cacert := None; r_key := None; r_cert := None;
    r_frequency := 3600; identify := cfg_true |};
  sec_control := Some {|
    enabled := cfg_false; c_port := str "8869"; c_interface := None; c_ipv4 := None; c_ipv6 := None;
    c_acl := [] |};
  sec_defaults := [] |}.

(** ** Callbacks of libconfuse *)

(** Stores through result as a pointer to int and to uint8_t; it points to the long of
    libconfuse, whose other bytes keep what they held. *)
Definition store_int (result v : Z) : Z := i64 (result - u32 result + u32 v).
Definition store_u8 (result v : Z) : Z := i64 (result - u8 result + u8 v).

Definition LOG_LEVELS : list (string * Z) :=
  [("debug", 7); ("info", 6); ("notice", 5); ("warn", 4); ("err", 3); ("crit", 2); ("alert", 1); ("emerg", 0)]%string.
(** The chain of strncasecmp() calls, in order. *)
Fixpoint loglevel_of (levels : list (string * Z)) (value : cstr) : option Z :=
  match levels with
  | [] => None
  | (name, level) :: levels => if named value name then Some level else loglevel_of levels value
  end.
Definition callback_verify_loglevel (value : cstr) (result : Z) : Z * Z :=
  match loglevel_of LOG_LEVELS value with
  | Some level => (0, store_int result level)
  | None => (-1, result)
  end.
Definition callback_verify_packet_delay (v : Z) : Z :=
  let value := i32 v in
  if (value <? 0) || (value >? 1000000) then -1 else 0.
Definition callback_verify_dscp (value : cstr) (result : Z) : Z * Z :=
  let '(r, v) := parse_dscp_value value in
  if r <? 0 then (-1, result) else (0, store_u8 result v).

(** ** The name of the client *)

Definition HOST_NAME_MAX : nat := 64.
(** What is left in a cleared buffer of one byte more: gethostname() cuts a name that
    is too long. *)
Definition guess_ampname (gethostname : option cstr) (getaddrinfo : cstr -> Z * list (option cstr))
    : res (option cstr) :=
  match take HOST_NAME_MAX <$> gethostname with
  | None | Some [] => Ok None
  | Some hostname =>
      let '(ret, addrinfo) := getaddrinfo hostname in
      if ret <? 0 then Ok (Some hostname)
      else if ret >? 0 then Fault Uninitialised
      else
        Ok (Some (default hostname
          (find (fun name => bool_decide (name <> [])) (omap (fun canonname => canonname) addrinfo))))
  end.

(** ** Single options *)

Definition get_loglevel_config (cfg : cfg_t) : Z := i32 (o_loglevel cfg).
Definition should_wait_for_clock_sync (cfg : cfg_t) : bool := negb (o_waitforclocksync cfg =? 0).
Definition should_config_rabbit (cfg : cfg_t) : bool :=
  match sec_collector cfg with
  | Some s => negb (vialocal s =? 0) && negb (configrabbit s =? 0)
  | None => false
  end.
Definition should_wait_for_cert (cfg : cfg_t) : Z :=
  let collector :=
    match sec_collector cfg with
    | Some s => if negb (s_waitforcert (deprecated s) =? -1) then s_waitforcert (deprecated s) else cfg_true
    | None => cfg_true
    end in
  match sec_ssl cfg with
  | Some s => if negb (s_waitforcert s =? -1) then s_waitforcert s else collector
  | None => collector
  end.

(** ** Keys and certificates *)

Definition is_set {A} (o : option A) : bool := bool_decide (is_Some o).
Definition with_waitforcert (s : opt_ssl) (v : Z) : opt_ssl :=
  {| s_cacert := s_cacert s; s_key := s_key s; s_cert := s_cert s; s_waitforcert := v |}.
(** get_ssl_config(): whether anything was set, the locations, and the section, where
    waitforcert may have been given a value. *)
Definition get_ssl_config (s : opt_ssl) (amqp_ssl : ssl_opt) : bool * ssl_opt * opt_ssl :=
  let amqp_ssl := {| o_cacert := s_cacert s; o_key := s_key s; o_cert := s_cert s;
                     o_keys_dir := o_keys_dir amqp_ssl |} in
  let set := is_set (s_cacert s) || is_set (s_key s) || is_set (s_cert s) in
  if set && (s_waitforcert s =? -1) then (set, amqp_ssl, with_waitforcert s cfg_true)
  else if negb set && negb (s_waitforcert s =? -1) then (true, amqp_ssl, s)
  else (set, amqp_ssl, s).

(** ** The whole file *)

(** struct amp_global_t, as far as the configuration sets it. *)
Record amp_global : Set := {
  g_ampname : cstr; g_collector : cstr; g_port : Z; g_vialocal : Z; g_local : cstr; g_vhost : cstr;
  g_exchange : cstr; g_routingkey : cstr; g_prefetch : Z; g_ssl : Z; g_amqp_ssl : ssl_opt
}.
(** vars.amqp_ssl before it is set. *)
Definition zero_ssl : ssl_opt := {| o_cacert := None; o_key := None; o_cert := None; o_keys_dir := [] |}.

Definition with_keys_dir (o : ssl_opt) (dir : cstr) : ssl_opt :=
  {| o_cacert := o_cacert o; o_key := o_key o; o_cert := o_cert o; o_keys_dir := dir |}.
Definition with_sec_ssl (cfg : cfg_t) (s : opt_ssl) : cfg_t := {|
  o_ampname := o_ampname cfg; o_interface := o_interface cfg; o_ipv4 := o_ipv4 cfg; o_ipv6 := o_ipv6 cfg;
  o_packetdelay := o_packetdelay cfg; o_loglevel := o_loglevel cfg; o_dscp := o_dscp cfg;
  o_nameservers := o_nameservers cfg; o_waitforclocksync := o_waitforclocksync cfg;
  sec_ssl := Some s; sec_collector := sec_collector cfg; sec_remotesched := sec_remotesched cfg;
  sec_control := sec_control cfg; sec_defaults := sec_defaults cfg |}.
Definition with_collector (cfg : cfg_t) (s : opt_collector) : cfg_t := {|
  o_ampname := o_ampname cfg; o_interface := o_interface cfg; o_ipv4 := o_ipv4 cfg; o_ipv6 := o_ipv6 cfg;
  o_packetdelay := o_packetdelay cfg; o_loglevel := o_loglevel cfg; o_dscp := o_dscp cfg;
  o_nameservers := o_nameservers cfg; o_waitforclocksync := o_waitforclocksync cfg;
  sec_ssl := sec_ssl cfg; sec_collector := Some s; sec_remotesched := sec_remotesched cfg;
  sec_control := sec_control cfg; sec_defaults := sec_defaults cfg |}.
Definition with_deprecated (s : opt_collector) (d : opt_ssl) : opt_collector := {|
  vialocal := vialocal s; local := local s; configrabbit := configrabbit s; address := address s;
  port := port s; vhost := vhost s; exchange := exchange s; routingkey := routingkey s; ssl := ssl s;
  prefetch := prefetch s; deprecated := d |}.

(** TLS to the collector: as it was set, or for every port but the default one. *)
Definition use_ssl (s : opt_collector) : Z :=
  if ssl s =? -1 then if u16 (port s) =? AMQP_PORT then cfg_false else cfg_true else ssl s.

Inductive parsed : Set := CFG_FILE_ERROR | CFG_PARSE_ERROR | CFG_SUCCESS (cfg : cfg_t).

Section ParseConfig.
Context (rabbitmqctl : stat_result) (cfg_parse : cfg_t -> cstr -> parsed)
  (gethostname : option cstr) (getaddrinfo : cstr -> Z * list (option cstr)).

(** The collector section. *)
Definition parse_collector (cfg : cfg_t) (ampname : cstr) (set_ssl : bool) (amqp_ssl : ssl_opt)
    : option (cfg_t * amp_global) :=
  s ← sec_collector cfg;
  a ← address s;
  let vars := fun amqp_ssl => {|
    g_ampname := ampname; g_collector := a; g_port := u16 (port s); g_vialocal := vialocal s;
    g_local := local s; g_vhost := vhost s; g_exchange := exchange s; g_routingkey := routingkey s;
    g_prefetch := i32 (prefetch s); g_ssl := use_ssl s; g_amqp_ssl := amqp_ssl |} in
  Some (if set_ssl then (cfg, vars amqp_ssl)
        else let '(_, amqp_ssl, d) := get_ssl_config (deprecated s) amqp_ssl in
             (with_collector cfg (with_deprecated s d), vars amqp_ssl)).

(** parse_config(): the configuration and vars, or NULL. *)
Definition parse_config (filename : cstr) : res (option (cfg_t * amp_global)) :=
  let default_vialocal := if check_exists rabbitmqctl false =? 0 then cfg_true else cfg_false in
  match cfg_parse (measured_opts default_vialocal) filename with
  | CFG_FILE_ERROR | CFG_PARSE_ERROR => Ok None
  | CFG_SUCCESS cfg =>
      name ← (match o_ampname cfg with
              | Some name => Ok (Some name)
              | None => guess_ampname gethostname getaddrinfo
              end);
      match name with
      | None => Ok None
      | Some ampname =>
          let '(set_ssl, amqp_ssl, cfg) :=
            match sec_ssl cfg with
            | Some s => let '(set, amqp_ssl, s) := get_ssl_config s zero_ssl in (set, amqp_ssl, with_sec_ssl cfg s)
            | None => (false, zero_ssl, cfg)
            end in
          Ok (parse_collector cfg ampname set_ssl amqp_ssl)
      end
  end.
End ParseConfig.

(** ** The control port *)

Record control_t : Type := { ctl_enabled : Z; ctl_port : cstr; ctl : amp_control; ctl_acl : acl_root }.

(** An address that was given, "any" as the wildcard address of the family. *)
Definition or_any (wildcard : string) (a : option cstr) : option cstr :=
  (fun a => if strcmp_eq a (str "any") then str wildcard else a) <$> a.

Definition property_of (title : cstr) : option Z :=
  if strcmp_eq title (str "server") then Some ACL_SERVER
  else if strcmp_eq title (str "test") then Some ACL_TEST
  else if strcmp_eq title (str "schedule") then Some ACL_SCHEDULE
  else None.
(** The rules of one acl section, the allow rules first. *)
Fixpoint add_rules (root : acl_root) (names : list cstr) (property value : Z) : acl_root :=
  match names with
  | [] => root
  | n :: names => add_rules (snd (add_acl root n property value)) names property value
  end.
Definition add_acl_section (root : acl_root) (s : opt_acl) : acl_root :=
  match property_of (acl_title s) with
  | None => root
  | Some p => add_rules (add_rules root (allow s) p 1) (deny s) p 0
  end.

(** The addresses to listen on. *)
Definition control_addresses (s : opt_control) (meta : meta_t) : option cstr * option cstr :=
  let ipv4 := or_any "0.0.0.0" (c_ipv4 s) in
  let ipv6 := or_any "::" (c_ipv6 s) in
  match ipv4, ipv6 with
  | None, None =>
      match or_any "0.0.0.0" (m_sourcev4 meta), or_any "::" (m_sourcev6 meta) with
      | None, None => (Some (str "0.0.0.0"), Some (str "::"))
      | a4, a6 => (a4, a6)
      end
  | a4, a6 => (a4, a6)
  end.
Definition get_control_config (cfg : cfg_t) (meta : meta_t) : option control_t :=
  s ← sec_control cfg;
  let '(a4, a6) := control_addresses s meta in
  Some {|
    ctl_enabled := enabled s; ctl_port := c_port s;
    ctl := {| ctl_ipv4 := a4; ctl_ipv6 := a6;
              ctl_iface := match c_interface s with Some i => Some i | None => iface meta end |};
    ctl_acl := foldl add_acl_section initialise_acl (c_acl s)
  |}.

(** ** Remote schedules *)

Definition get_remote_schedule_config (cfg : cfg_t) (ampname : cstr) : io (option fetch_schedule_item) :=
  match sec_remotesched cfg with
  | None => mret None
  | Some s =>
      if r_fetch s =? 0 then mret None
      else
        match r_url s with
        | None =>
            mret (Some {| schedule_dir := []; schedule_url := None; Fetch.cacert := None; Fetch.cert := None;
                          Fetch.key := None; frequency := 0 |})
        | Some u =>
            dir ← works;
            if negb dir then mret None
            else
              named_ ← (if negb (identify s =? 0) then works else mret true);
              if negb named_ then mret None
              else
                mret (Some {|
                  schedule_dir := SCHEDULE_DIR ++ str "/" ++ ampname;
                  schedule_url := Some (if negb (identify s =? 0) then u ++ ampname else u);
                  Fetch.cacert := r_cacert s; Fetch.cert := r_cert s; Fetch.key := r_key s;
                  frequency := i32 (r_frequency s) |})
        end
  end.

(** ** Interfaces *)

Definition get_interface_config (cfg : cfg_t) (meta : meta_t) : meta_t := {|
  iface := match iface meta with Some i => Some i | None => o_interface cfg end;
  m_sourcev4 := match m_sourcev4 meta with Some a => Some a | None => o_ipv4 cfg end;
  m_sourcev6 := match m_sourcev6 meta with Some a => Some a | None => o_ipv6 cfg end;
  inter_packet_delay := if inter_packet_delay meta =? MIN_INTER_PACKET_DELAY then u32 (o_packetdelay cfg)
                        else inter_packet_delay meta;
  m_dscp := if m_dscp meta =? DEFAULT_DSCP_VALUE then u8 (o_dscp cfg) else m_dscp meta
|}.

(** ** The resolver *)

(** What a context of libunbound was given. *)
Record ub_ctx : Set := { resolvconf : bool; fwds : list cstr; outgoing_interfaces : list cstr }.

Section Unbound.
(** Whether ub_ctx_create() and ub_ctx_async() work, and ub_ctx_set_fwd() accepts an
    address. *)
Context (create async : bool) (set_fwd : cstr -> bool).
Definition amp_resolver_context_init (servers : list cstr) (sourcev4 sourcev6 : option cstr) : option ub_ctx :=
  if negb create then None
  else if negb async then None
  else Some {|
    resolvconf := bool_decide (servers = []);
    fwds := filter (fun s => set_fwd s = true) servers;
    outgoing_interfaces := option_list sourcev4 ++ option_list sourcev6 |}.
Definition get_dns_context_config (cfg : cfg_t) (meta : meta_t) : option ub_ctx :=
  amp_resolver_context_init (o_nameservers cfg) (m_sourcev4 meta) (m_sourcev6 meta).
End Unbound.

(** ** Default arguments *)

(** A registered test and its client_params. *)
Record registered : Type := { reg : module; client_params : option (list cstr) }.

Definition apply_defaults (s : opt_defaults) (t : registered) : res registered :=
  sp ← (if server_callback (reg t) then parse_param_string (d_server s) else Ok (server_params (reg t)));
  cp ← parse_param_string (d_client s);
  Ok {| reg := {| id := id (reg t); def := def (reg t); max_duration := max_duration (reg t);
                  server_callback := server_callback (reg t); server_params := sp |};
        client_params := cp |}.
(** One section, for the first test of that name. *)
Fixpoint default_args (s : opt_defaults) (amp_tests : list registered) : res (list registered) :=
  match amp_tests with
  | [] => Ok []
  | t :: amp_tests =>
      if strcmp_eq (test_name (def (reg t))) (d_title s) then
        t ← apply_defaults s t; Ok (t :: amp_tests)
      else l ← default_args s amp_tests; Ok (t :: l)
  end.
Fixpoint default_sections (l : list opt_defaults) (amp_tests : list registered) : res (list registered) :=
  match l with
  | [] => Ok amp_tests
  | s :: l => amp_tests ← default_args s amp_tests; default_sections l amp_tests
  end.
Definition get_default_test_args (cfg : cfg_t) (amp_tests : list registered) : res (list registered) :=
  default_sections (sec_defaults cfg) amp_tests.

(** ** Precedence of the ssl section *)

(** Whether a section says anything. *)
Definition says (s : opt_ssl) : bool :=
  is_set (s_cacert s) || is_set (s_key s) || is_set (s_cert s) || negb (s_waitforcert s =? -1).
(** The section that counts: the ssl section when it says anything, and else the
    deprecated options. *)
Definition effective (cfg : cfg_t) : option opt_ssl :=
  match sec_ssl cfg with
  | Some s => if says s then Some s else deprecated <$> sec_collector cfg
  | None => deprecated <$> sec_collector cfg
  end.
Definition locations (s : opt_ssl) (keys_dir : cstr) : ssl_opt :=
  {| o_cacert := s_cacert s; o_key := s_key s; o_cert := s_cert s; o_keys_dir := keys_dir |}.
Definition waits (s : opt_ssl) : Z := if s_waitforcert s =? -1 then cfg_true else s_waitforcert s.

Lemma get_ssl_config_eq s o :
  get_ssl_config s o = (says s, locations s (o_keys_dir o), if says s then with_waitforcert s (waits s) else s).
Proof.
  unfold get_ssl_config, says, waits, locations. destruct s as [ca k c w]. cbn.
  destruct (is_set ca || is_set k || is_set c), (Z.eqb_spec w (-1)) as [->|]; cbn; try done; by rewrite ?orb_true_r.
Qed.

Lemma waits_set s : (waits s =? -1) = false.
Proof. unfold waits. destruct (Z.eqb_spec (s_waitforcert s) (-1)); [done|]. by apply Z.eqb_neq. Qed.
Lemma silent_unset s : says s = false -> s_waitforcert s = -1.
Proof. unfold says. destruct (Z.eqb_spec (s_waitforcert s) (-1)); [done|]. cbn. by rewrite orb_true_r. Qed.

(** parse_collector() and should_wait_for_cert() agree with the section that counts. *)
Lemma parse_collector_ssl cfg ampname cfg' vars :
  (let '(set_ssl, amqp_ssl, cfg) :=
     match sec_ssl cfg with
     | Some s => let '(set, amqp_ssl, s) := get_ssl_config s zero_ssl in (set, amqp_ssl, with_sec_ssl cfg s)
     | None => (false, zero_ssl, cfg)
     end in parse_collector cfg ampname set_ssl amqp_ssl) = Some (cfg', vars) ->
  exists s, effective cfg = Some s /\ g_amqp_ssl vars = locations s [] /\ should_wait_for_cert cfg' = waits s.
Proof.
  intros H. unfold effective. destruct (sec_ssl cfg) as [s|] eqn:Es.
  - rewrite get_ssl_config_eq in H. cbn [o_keys_dir zero_ssl] in H. unfold parse_collector in H.
    cbn [with_sec_ssl sec_collector] in H. destruct (sec_collector cfg) as [c|] eqn:Ec; [|done].
    cbn [mbind option_bind] in H. destruct (address c) as [a|]; [|done]. cbn [mbind option_bind] in H.
    destruct (says s) eqn:Hs.
    + injection H as <- <-. exists s. split_and!; [done..|]. unfold should_wait_for_cert.
      cbn [sec_ssl with_sec_ssl with_waitforcert s_waitforcert]. by rewrite waits_set.
    + rewrite get_ssl_config_eq in H. injection H as <- <-. exists (deprecated c). split_and!; [done..|].
      unfold should_wait_for_cert. cbn. rewrite (silent_unset s Hs). cbn.
      destruct (says (deprecated c)) eqn:Hd; cbn [s_waitforcert with_waitforcert]; [by rewrite waits_set|].
      unfold waits. by rewrite (silent_unset _ Hd).
  - unfold parse_collector in H. destruct (sec_collector cfg) as [c|] eqn:Ec; [|done].
    cbn [mbind option_bind] in H. destruct (address c) as [a|]; [|done]. cbn [mbind option_bind] in H.
    rewrite get_ssl_config_eq in H. injection H as <- <-. exists (deprecated c). split_and!; [done..|].
    unfold should_wait_for_cert. cbn. rewrite Es.
    destruct (says (deprecated c)) eqn:Hd; cbn [s_waitforcert with_waitforcert]; [by rewrite waits_set|].
    unfold waits. by rewrite (silent_unset _ Hd).
Qed.

(** ** The whole configuration *)

(** The name that is used: as configured, else the first canonical name of the host that
    is not empty, else its host name. *)
Definition client_name (gethostname : option cstr) (getaddrinfo : cstr -> Z * list (option cstr))
    (cfg : cfg_t) (name : cstr) : Prop :=
  match o_ampname cfg with
  | Some n => name = n
  | None =>
      exists host, gethostname = Some host /\ take HOST_NAME_MAX host <> [] /\
      let '(ret, l) := getaddrinfo (take HOST_NAME_MAX host) in
      (name = take HOST_NAME_MAX host /\ (ret < 0 \/ forall n, Some n ∈ l -> n = [])) \/
      (ret = 0 /\ name <> [] /\ exists pre post, l = pre ++ Some name :: post /\ forall n, Some n ∈ pre -> n = [])
  end.

Lemma find_canonname l :
  match find (fun name : cstr => bool_decide (name <> [])) (omap (fun canonname => canonname) l) with
  | Some name => name <> [] /\ exists pre post, l = pre ++ Some name :: post /\ forall n, Some n ∈ pre -> n = []
  | None => forall n, Some n ∈ l -> n = []
  end.
Proof.
  induction l as [|[x|] l IH]; cbn [omap list_omap find].
  - intros n Hn. inversion Hn.
  - case_bool_decide as Hx; cbn [find].
    + split; [done|]. exists [], l. split; [done|]. intros n Hn. inversion Hn.
    + subst x.
      destruct (find _ _) as [name|].
      * destruct IH as (Hne & pre & post & -> & Hpre). split; [done|]. exists (Some [] :: pre), post.
        split; [done|]. intros n [Hn|Hn]%elem_of_cons; [congruence|by apply Hpre].
      * intros n [Hn|Hn]%elem_of_cons; [congruence|by apply IH].
  - destruct (find _ _) as [name|].
    + destruct IH as (Hne & pre & post & -> & Hpre). split; [done|]. exists (None :: pre), post.
      split; [done|]. intros n [Hn|Hn]%elem_of_cons; [congruence|by apply Hpre].
    + intros n [Hn|Hn]%elem_of_cons; [congruence|by apply IH].
Qed.

Lemma guess_ampname_spec gethostname getaddrinfo :
  (forall h, fst (getaddrinfo h) <= 0) ->
  match guess_ampname gethostname getaddrinfo with
  | Ok None => forall host, gethostname = Some host -> take HOST_NAME_MAX host = []
  | Ok (Some name) => forall cfg, o_ampname cfg = None -> client_name gethostname getaddrinfo cfg name
  | Fault _ => False
  end.
Proof.
  intros Hg. unfold guess_ampname. destruct gethostname as [host|]; [|done]. cbn [fmap option_fmap option_map].
  destruct (take HOST_NAME_MAX host) as [|x h] eqn:Eh; [by intros ? [= <-]|]. specialize (Hg (x :: h)).
  destruct (getaddrinfo (x :: h)) as [ret l] eqn:Eg. cbn [fst] in Hg.
  assert (Hn : forall name, (name = x :: h /\ (ret < 0 \/ forall n, Some n ∈ l -> n = [])) \/
    (ret = 0 /\ name <> [] /\ exists pre post, l = pre ++ Some name :: post /\ forall n, Some n ∈ pre -> n = []) ->
    forall cfg, o_ampname cfg = None -> client_name (Some host) getaddrinfo cfg name).
  { intros name H cfg Hc. unfold client_name. rewrite Hc. exists host. rewrite Eh, Eg. done. }
  destruct (Z.ltb_spec ret 0); [apply Hn; left; split; [done|by left]|].
  assert (ret = 0) as -> by lia. cbn. apply Hn. pose proof (find_canonname l) as Hf.
  destruct (find _ _) as [name|]; cbn; [right|left]; naive_solver.
Qed.

(** C17: Reading the configuration (parse_config()) always returns; it fails exactly when
    the file cannot be read or parsed, no name for the client can be found, or no
    collector address is given.  When it succeeds the name is the configured one or
    comes from the host, the collector gets TLS unless that was turned off or its port is
    the plain one, and the locations of key and certificates and whether to wait for the
    certificate all come from one section: the ssl section if it sets any of them, and
    else the deprecated options of the collector section. *)
Theorem parse_config_correct rabbitmqctl cfg_parse gethostname getaddrinfo filename :
  (forall h, fst (getaddrinfo h) <= 0) ->
  exists r, parse_config rabbitmqctl cfg_parse gethostname getaddrinfo filename = Ok r /\
  let vialocal := if check_exists rabbitmqctl false =? 0 then cfg_true else cfg_false in
  match r, cfg_parse (measured_opts vialocal) filename with
  | None, CFG_SUCCESS cfg =>
      (o_ampname cfg = None /\ forall host, gethostname = Some host -> take HOST_NAME_MAX host = []) \/
      sec_collector cfg ≫= address = None
  | None, _ => True
  | Some (cfg', vars), CFG_SUCCESS cfg =>
      client_name gethostname getaddrinfo cfg (g_ampname vars) /\
      sec_collector cfg ≫= address = Some (g_collector vars) /\
      (exists s, sec_collector cfg = Some s /\ g_port vars = u16 (port s) /\
         (g_ssl vars = 0 <-> ssl s = 0 \/ ssl s = -1 /\ g_port vars = AMQP_PORT)) /\
      exists s, effective cfg = Some s /\ g_amqp_ssl vars = locations s [] /\ should_wait_for_cert cfg' = waits s
  | Some _, _ => False
  end.
Proof.
  intros Hg. unfold parse_config. cbv zeta. set (d := measured_opts _).
  destruct (cfg_parse d filename) as [| |cfg] eqn:Ep; [by exists None..|].
  assert (Hname : exists name, (match o_ampname cfg with
              | Some name => Ok (Some name)
              | None => guess_ampname gethostname getaddrinfo
              end) = Ok name /\
     match name with
     | Some n => client_name gethostname getaddrinfo cfg n
     | None => o_ampname cfg = None /\ forall host, gethostname = Some host -> take HOST_NAME_MAX host = []
     end).
  { destruct (o_ampname cfg) as [n|] eqn:En; [exists (Some n); split; [done|]; unfold client_name; by rewrite En|].
    pose proof (guess_ampname_spec gethostname getaddrinfo Hg) as H.
    destruct (guess_ampname gethostname getaddrinfo) as [[n|]|]; [..|done]; eexists; split; try done; by apply H. }
  destruct Hname as (name & -> & Hn). rewrite bind_Ok. destruct name as [name|]; [|exists None; naive_solver].
  destruct (let '(set_ssl, amqp_ssl, cfg) := _ in Ok (parse_collector cfg name set_ssl amqp_ssl))
    as [r|] eqn:E; revert E; (destruct (match sec_ssl cfg with Some _ => _ | None => _ end)
    as [[set o] c1] eqn:Es); intros [= E].
  exists r. split; [done|].
  assert (Hc : sec_collector c1 = sec_collector cfg).
  { destruct (sec_ssl cfg); [destruct (get_ssl_config _ _) as [[] ]|]; by injection Es as <- <- <-. }
  pose proof (parse_collector_ssl cfg name) as Hp. rewrite Es, E in Hp.
  unfold parse_collector in E. rewrite Hc in E. destruct (sec_collector cfg) as [s|] eqn:Ec; cbn in E; [|subst r; by right].
  cbn [mbind option_bind]. destruct (address s) as [a|] eqn:Ea; cbn in E; [|subst r; by right].
  destruct r as [[cfg' vars]|]; [|destruct set; [done|]; by destruct (get_ssl_config _ _) as [[] ]].
  specialize (Hp _ _ eq_refl). split; [|split; [|split; [exists s|done]]];
    (destruct set; [|destruct (get_ssl_config _ _) as [[? ?] ?]]; injection E as <- <-); cbn; try done.
  all: split_and!; [done..|]; unfold use_ssl; destruct (Z.eqb_spec (ssl s) (-1)) as [->|]; cbn [cfg_true cfg_false].
  all: try (destruct (Z.eqb_spec (u16 (port s)) AMQP_PORT)); cbn; naive_solver lia.
Qed.

(** ** Rules of the control port *)

(** The calls of add_acl() that the acl sections make. *)
Definition section_calls (s : opt_acl) : list acl_call :=
  match property_of (acl_title s) with
  | None => []
  | Some p => ((fun n => {| ac_fqdn := n; ac_property := p; ac_value := 1 |}) <$> allow s)
           ++ ((fun n => {| ac_fqdn := n; ac_property := p; ac_value := 0 |}) <$> deny s)
  end.
Definition config_calls (l : list opt_acl) : list acl_call := l ≫= section_calls.

Lemma add_rules_calls root names p v :
  add_rules root names p v
  = foldl do_call root ((fun n => {| ac_fqdn := n; ac_property := p; ac_value := v |}) <$> names).
Proof. revert root. induction names as [|n names IH]; intros root; cbn; [done|]. by rewrite IH. Qed.
Lemma acl_sections_calls root l :
  foldl add_acl_section root l = foldl do_call root (config_calls l).
Proof.
  revert root. induction l as [|s l IH]; intros root; [done|]. cbn [foldl config_calls mbind list_bind].
  rewrite IH, foldl_app. unfold add_acl_section, section_calls. destruct (property_of _); [|done].
  by rewrite !add_rules_calls, foldl_app.
Qed.

(** A rule for a name, for the names below it, or for all. *)
Definition covers (rule name : cstr) : Prop := rule = str "all" \/ labels rule `prefix_of` labels name.

(** A name has a permission only through a rule that gives it. *)
Lemma spec_get_granted p calls name :
  spec_get (foldl (spec_call p) spec_init calls) name <> 0 ->
  exists c, c ∈ calls /\ ac_property c = p /\ ac_value c <> 0 /\ covers (ac_fqdn c) name.
Proof.
  assert (H : (sp_all (foldl (spec_call p) spec_init calls) <> 0 ->
     exists c, c ∈ calls /\ ac_property c = p /\ ac_value c <> 0 /\ ac_fqdn c = str "all") /\
    (forall path v, sp_rules (foldl (spec_call p) spec_init calls) path = Some v -> v <> 0 ->
     exists c, c ∈ calls /\ ac_property c = p /\ ac_value c <> 0 /\ labels (ac_fqdn c) = path)).
  { induction calls as [|c calls [IH1 IH2]] using rev_ind; [done|]. rewrite foldl_snoc.
    set (s := foldl _ _ _) in *. unfold spec_call, spec_add, strcmp_eq.
    assert (Hw : forall Q, (exists c, c ∈ calls /\ Q c) -> exists c', c' ∈ calls ++ [c] /\ Q c').
    { intros Q (c' & Hc & HQ). exists c'. split; [|done]. apply elem_of_app. by left. }
    assert (Hc : c ∈ calls ++ [c]) by (apply elem_of_app; right; by apply list_elem_of_singleton).
    destruct (Z.eqb_spec (ac_property c) p); [|split; eauto].
    case_bool_decide; cbn [sp_all sp_rules]; (split; [|intros path v]); eauto.
    - unfold set_rule. case_bool_decide as Hp; [|eauto]. intros [= Hc0] Hv. exists c. subst. by split_and!. }
  destruct H as [Hall Hrules]. intros Hne. unfold spec_get in Hne.
  destruct (last _) as [v|] eqn:El; cbn in Hne.
  - apply last_Some_elem_of in El. apply list_elem_of_omap in El as (path & Hpath & Hv).
    destruct (Hrules _ _ Hv Hne) as (c & ? & ? & ? & Hl). exists c. split_and!; [done..|]. right. rewrite Hl.
    apply list_elem_of_fmap in Hpath as (n & -> & _). apply prefix_take.
  - destruct (Hall Hne) as (c & ? & ? & ? & ?). exists c. split_and!; [done..|]. by left.
Qed.

(** A control connection can start a test server or a test only when the configuration
    file allows it: among the acl sections of the control section one for that permission
    has an allow rule that is "all", the common name of the verified client certificate, or
    a suffix of it at a dot.  With no acl section nothing is ever run. *)
Lemma served_as_configured `{Protobuf MControl, Openssl} cfg meta s c amp_tests name_table
    watchdog_ok bound_device local callback fd env w log a property :
  0 <= fd -> sec_control cfg = Some s -> (length (config_calls (c_acl s)) <= 255)%nat ->
  get_control_config cfg meta = Some c ->
  serve_connection amp_tests name_table (ctl_acl c) watchdog_ok bound_device local callback fd env w = Ok log ->
  a ∈ log -> needs a = Some property ->
  do_handshake fd = true /\ verify_result_ok fd = true /\
  exists cn sec rule, peer_certificate fd = Some {| subject_cn := Some cn |} /\
    sec ∈ c_acl s /\ property_of (acl_title sec) = Some property /\ rule ∈ allow sec /\ covers rule cn.
Proof.
  intros Hfd Hs Hlen Hc Hserve Ha Hp.
  assert (Hacl : ctl_acl c = foldl do_call initialise_acl (config_calls (c_acl s))).
  { unfold get_control_config in Hc. rewrite Hs in Hc. cbn in Hc.
    destruct (control_addresses s meta). injection Hc as <-. cbn. apply acl_sections_calls. }
  rewrite Hacl in Hserve.
  destruct (serve_connection_allowed amp_tests name_table _ watchdog_ok bound_device local callback fd env w
    log a property Hfd Hserve Ha Hp) as (Hh & Hv & cn & Hcn & _ & _ & Hg).
  split_and!; [done..|]. specialize (Hg Hlen). apply spec_get_granted in Hg as (call & Hin & Hprop & Hval & Hcov).
  apply list_elem_of_bind in Hin as (sec & Hcall & Hsec). unfold section_calls in Hcall.
  destruct (property_of (acl_title sec)) as [p|] eqn:Ep; [|by apply elem_of_nil in Hcall].
  apply elem_of_app in Hcall as [Hcall|Hcall]; apply list_elem_of_fmap in Hcall as (rule & -> & Hr); [|done].
  exists cn, sec, rule. cbn in Hprop, Hcov. split_and!; try done. congruence.
Qed.

(** ** Values that callbacks checked *)

Lemma store_int_read r v : -2147483648 <= v < 2147483648 -> i32 (store_int r v) = v.
Proof. unfold store_int, i32, i64, u32. intros. Z.div_mod_to_equations. lia. Qed.
Lemma store_u8_read r v : u8 (store_u8 r v) = u8 v.
Proof. unfold store_u8, i64, u8. Z.div_mod_to_equations. lia. Qed.

Lemma loglevel_range value level : loglevel_of LOG_LEVELS value = Some level -> 0 <= level <= 7.
Proof.
  assert (H : Forall (fun p => 0 <= snd p <= 7) LOG_LEVELS) by (repeat constructor; cbn; lia).
  induction H as [|[n l] ls Hl Hls IH]; cbn [loglevel_of]; [done|]. case_match; [|done]. by intros [= <-].
Qed.

Lemma accepted_dscp value v : parse_dscp_value value = (0, v) -> 0 <= v < 256.
Proof.
  unfold parse_dscp_value. intros H.
  repeat match type of H with (if ?b then _ else _) = _ => destruct b; [injection H as <-; lia|] end.
  cbv zeta in H. destruct (bad_conversion (strtol value 2)); [destruct (bad_conversion (strtol value 0)); [done|]|];
    injection H as <-; apply u8_range.
Qed.

(** What the callbacks have let through, or the defaults; [r] is what
    libconfuse's variable held before. *)
Definition checked (cfg : cfg_t) (level dscp : Z) : Prop :=
  (o_loglevel cfg = LOG_INFO /\ level = LOG_INFO \/
   exists value r, callback_verify_loglevel value r = (0, o_loglevel cfg) /\ loglevel_of LOG_LEVELS value = Some level) /\
  (o_dscp cfg = DEFAULT_DSCP_VALUE /\ dscp = DEFAULT_DSCP_VALUE \/
   exists value r, callback_verify_dscp value r = (0, o_dscp cfg) /\ parse_dscp_value value = (0, dscp)) /\
  callback_verify_packet_delay (o_packetdelay cfg) = 0.

(** C27: The callbacks store an int or a single byte into a long of libconfuse that they do
    not clear.  For a configuration whose values the callbacks accepted, whatever that long
    held, the log level that is used is the one named in the file, and a client without
    options on its command line uses the code point of the file.  The gap between packets
    that it uses is 0 to 1000000 microseconds, and the configured one if that fits an int;
    of a larger number the callback checks, and the client uses, only the low 32 bits. *)
Theorem checked_options_used cfg meta level dscp :
  checked cfg level dscp ->
  inter_packet_delay meta = MIN_INTER_PACKET_DELAY -> m_dscp meta = DEFAULT_DSCP_VALUE ->
  get_loglevel_config cfg = level /\ 0 <= level <= 7 /\
  m_dscp (get_interface_config cfg meta) = dscp /\ 0 <= dscp < 256 /\
  inter_packet_delay (get_interface_config cfg meta) = i32 (o_packetdelay cfg) /\
  0 <= i32 (o_packetdelay cfg) <= 1000000 /\
  (-2147483648 <= o_packetdelay cfg < 2147483648 ->
   inter_packet_delay (get_interface_config cfg meta) = o_packetdelay cfg).
Proof.
  intros (Hl & Hd & Hp) Hi Hm. unfold get_loglevel_config, get_interface_config. cbn. rewrite Hi, Hm. cbn.
  assert (HL : i32 (o_loglevel cfg) = level /\ 0 <= level <= 7).
  { destruct Hl as [[-> ->]|(value & r & E & Hv)]; [done|]. apply loglevel_range in Hv as Hr.
    unfold callback_verify_loglevel in E. rewrite Hv in E. injection E as <-. rewrite store_int_read; lia. }
  assert (HD : u8 (o_dscp cfg) = dscp /\ 0 <= dscp < 256).
  { destruct Hd as [[-> ->]|(value & r & E & Hv)]; [done|]. apply accepted_dscp in Hv as Hr.
    unfold callback_verify_dscp in E. rewrite Hv in E. injection E as <-. rewrite store_u8_read, u8_id; lia. }
  destruct HL, HD. unfold callback_verify_packet_delay in Hp. destruct (_ || _) eqn:E; [done|].
  clear Hl Hd. split_and!; try done; try (intros Hrange; rewrite i32_id in E by done); unfold i32, u32 in *.
  all: Z.div_mod_to_equations; lia.
Qed.

(** ** Where the control port listens *)

(** The addresses of the control section, else those of the tests, else all. *)
Lemma control_addresses_spec s meta a4 a6 :
  control_addresses s meta = (a4, a6) ->
  (is_Some a4 \/ is_Some a6) /\ a4 <> Some (str "any") /\ a6 <> Some (str "any") /\
  (is_Some (c_ipv4 s) \/ is_Some (c_ipv6 s) -> (is_Some a4 <-> is_Some (c_ipv4 s)) /\ (is_Some a6 <-> is_Some (c_ipv6 s))).
Proof.
  assert (Hany : forall w a, w <> "any"%string -> or_any w a <> Some (str "any")).
  { intros w [a|] Hw; cbn; [|done]. unfold strcmp_eq. case_bool_decide as Ha; [|congruence].
    intros [= E]. apply (f_equal String.string_of_list_ascii) in E. unfold str in E.
    rewrite !String.string_of_list_ascii_of_string in E. done. }
  assert (Hs : forall w a, is_Some (or_any w a) <-> is_Some a).
  { intros w [a|]; cbn; split; intros [? ?]; eauto; done. }
  unfold control_addresses.
  pose proof (Hany "0.0.0.0"%string (c_ipv4 s)). pose proof (Hany "::"%string (c_ipv6 s)).
  pose proof (Hany "0.0.0.0"%string (m_sourcev4 meta)). pose proof (Hany "::"%string (m_sourcev6 meta)).
  rewrite <- (Hs "0.0.0.0"%string (c_ipv4 s)), <- (Hs "::"%string (c_ipv6 s)).
  destruct (or_any _ (c_ipv4 s)), (or_any _ (c_ipv6 s)), (or_any _ (m_sourcev4 meta)), (or_any _ (m_sourcev6 meta));
    intros [= <- <-]; split_and!; try done; try (left; by eexists); try (right; by eexists); naive_solver.
Qed.

(** ** Fetching as it was configured *)

(** With remote schedules turned on and a URL, the client asks that URL, with its own
    name appended unless told not to, at start; it stores what it gets below its own
    schedule directory, presents the configured client certificate, and asks again with
    the configured frequency. *)
Theorem remote_schedule_as_configured cfg ampname s u w t ts :
  sec_remotesched cfg = Some s -> r_fetch s <> 0 -> r_url s = Some u ->
  Z.of_nat (length ampname) <= 8000 -> errors w = [] -> net w = t :: ts ->
  exists f, get_remote_schedule_config cfg ampname w = Ok (Some f, w) /\
    schedule_dir f = SCHEDULE_DIR ++ str "/" ++ ampname /\
    (dir_ready f w ->
     let url := if identify s =? 0 then u else u ++ ampname in
     exists w', enable_remote_schedule_fetch (Some f) w = Ok (0, w') /\
       log w' = log w ++ [Requested (schedule_request f url None); Timer (i32 (r_frequency s))] /\
       (strncasecmp_eq url (str "https") 5 = true ->
        cainfo (schedule_request f url None) = r_cacert s /\
        client_cert (schedule_request f url None) =
          (c ← r_cert s; k ← r_key s; Some (c, k))) /\
       (t_ok t && is_new true t = true -> (bytes <$> files w' !! sched_file f) = Some (t_body t))).
Proof.
  intros Hs Hf Hu Hlen He Hn. unfold get_remote_schedule_config. rewrite Hs, Hu, (proj2 (Z.eqb_neq _ _) Hf).
  set (url := if identify s =? 0 then u else u ++ ampname).
  set (f := {| schedule_dir := SCHEDULE_DIR ++ str "/" ++ ampname; schedule_url := Some url;
               Fetch.cacert := r_cacert s; Fetch.cert := r_cert s; Fetch.key := r_key s;
               frequency := i32 (r_frequency s) |}).
  exists f. split; [|split; [done|]].
  { run works_run. cbn [negb]. unfold f, url. destruct (identify s =? 0); cbn [negb].
    - by erewrite bind_run by done.
    - by run works_run. }
  intros Hr. assert (Hne : sched_file f <> tmp_sched_file f).
  { apply paths_differ. unfold f. cbn [schedule_dir]. rewrite !length_app.
    replace (length SCHEDULE_DIR) with 22%nat by reflexivity. cbn. lia. }
  destruct (update_run f url true w t ts Hr Hne eq_refl Hn) as (w1 & E & He1 & _ & Hlog & Hb).
  eexists. split_and!.
  - unfold enable_remote_schedule_fetch. cbn [schedule_url f]. erewrite bind_run by exact E. by apply add_timer_run.
  - cbn. by rewrite Hlog, <- app_assoc.
  - intros Hh. unfold schedule_request. rewrite Hh. split; [done|]. cbn. by destruct (r_cert s), (r_key s).
  - intros Hnew. cbn. by rewrite Hb, Hnew.
Qed.

(** ** Default arguments *)

(** The section whose arguments a test ends up with: the last of its name. *)
Definition section_for (l : list opt_defaults) (name : cstr) : option opt_defaults :=
  last (filter (fun s => d_title s = name) l).
Definition reg_name (t : registered) : cstr := test_name (def (reg t)).

(** A test as its section leaves it. *)
Definition defaulted (s : option opt_defaults) (t t' : registered) : Prop :=
  match s with
  | None => t' = t
  | Some s =>
      def (reg t') = def (reg t) /\ id (reg t') = id (reg t) /\ server_callback (reg t') = server_callback (reg t) /\
      max_duration (reg t') = max_duration (reg t) /\ parse_param_string (d_client s) = Ok (client_params t') /\
      if server_callback (reg t) then parse_param_string (d_server s) = Ok (server_params (reg t'))
      else server_params (reg t') = server_params (reg t)
  end.
Lemma defaulted_trans s s' t t1 t2 :
  defaulted s t t1 -> defaulted s' t1 t2 -> defaulted (match s' with Some _ => s' | None => s end) t t2.
Proof.
  destruct s as [s|], s' as [s'|]; cbn; try naive_solver.
  intros (E1 & E2 & E3 & E4 & _ & Hs) (F1 & F2 & F3 & F4 & Fc & Ft).
  rewrite E3 in *. split_and!; try congruence. destruct (server_callback (reg t)); congruence.
Qed.
Lemma defaulted_name s t t' : defaulted s t t' -> reg_name t' = reg_name t.
Proof. unfold reg_name. destruct s; [|by intros ->]. by intros (-> & _). Qed.

Definition strings_short (s : opt_defaults) : Prop :=
  forall v, d_client s = Some v \/ d_server s = Some v -> (length v <= 253)%nat.

Lemma param_string_short v : (forall s, v = Some s -> (length s <= 253)%nat) -> exists r, parse_param_string v = Ok r.
Proof. destruct v as [s|]; [|by eexists]. intros H. apply parse_param_string_returns. auto. Qed.

Lemma default_args_spec s amp_tests :
  NoDup (reg_name <$> amp_tests) -> strings_short s ->
  exists amp_tests', default_args s amp_tests = Ok amp_tests' /\
    Forall2 (fun t t' => defaulted (if decide (d_title s = reg_name t) then Some s else None) t t') amp_tests amp_tests'.
Proof.
  intros Hnd Hs. induction amp_tests as [|t l IH]; [by exists []|]. cbn in Hnd. apply NoDup_cons in Hnd as [Hni Hnd].
  cbn [default_args]. unfold strcmp_eq. fold (reg_name t). case_bool_decide as Ht.
  - destruct (param_string_short (d_server s)) as [sp Hsp]; [intros; apply Hs; auto|].
    destruct (param_string_short (d_client s)) as [cp Hcp]; [intros; apply Hs; auto|].
    unfold apply_defaults. rewrite Hsp, Hcp.
    exists ({| reg := {| id := id (reg t); def := def (reg t); max_duration := max_duration (reg t);
               server_callback := server_callback (reg t);
               server_params := if server_callback (reg t) then sp else server_params (reg t) |};
               client_params := cp |} :: l).
    split; [by destruct (server_callback (reg t))|]. constructor.
    + rewrite decide_True by done. cbn. split_and!; try done. by destruct (server_callback (reg t)).
    + apply Forall2_same_length_lookup_2; [done|]. intros i x y Hx Hy. rewrite decide_False; [cbn; congruence|].
      intros E. apply Hni. apply list_elem_of_fmap. exists x. split; [congruence|]. by eapply list_elem_of_lookup_2.
  - destruct (IH Hnd) as (l' & -> & Hl). exists (t :: l'). split; [done|]. constructor; [|done].
    rewrite decide_False by congruence. done.
Qed.

Lemma default_sections_spec l amp_tests :
  NoDup (reg_name <$> amp_tests) -> Forall strings_short l ->
  exists amp_tests', default_sections l amp_tests = Ok amp_tests' /\
    Forall2 (fun t t' => defaulted (section_for l (reg_name t)) t t') amp_tests amp_tests'.
Proof.
  intros Hnd Hl. revert amp_tests Hnd. induction Hl as [|s l Hs Hl IH]; intros tests Hnd; cbn [default_sections].
  { exists tests. split; [done|]. apply Forall2_same_length_lookup_2; [done|]. cbn. congruence. }
  destruct (default_args_spec s tests Hnd Hs) as (t1 & -> & H1). rewrite bind_Ok.
  assert (Hn : reg_name <$> t1 = reg_name <$> tests).
  { clear -H1. induction H1 as [|t t' l l' Ht Hl IH]; [done|]. cbn. f_equal; [by eapply defaulted_name|done]. }
  destruct (IH t1) as (t2 & -> & H2); [by rewrite Hn|]. exists t2. split; [done|]. clear -H1 H2.
  apply Forall2_same_length_lookup_2; [etrans; eapply Forall2_length; done|]. intros i a c Ha Hc.
  destruct (Forall2_lookup_l _ _ _ _ _ H1 Ha) as (b & Hb & Hab).
  pose proof (Forall2_lookup_lr _ _ _ _ _ _ H2 Hb Hc) as Hbc. cbn beta in Hbc.
  rewrite (defaulted_name _ _ _ Hab) in Hbc. pose proof (defaulted_trans _ _ _ _ _ Hab Hbc) as H.
  unfold section_for in *. rewrite filter_cons.
  assert (Hlast : forall (x : opt_defaults) l, last (x :: l) = match last l with Some y => Some y | None => Some x end).
  { intros x l'. rewrite last_cons. by destruct (last l'). }
  case_decide; [rewrite Hlast|]; by destruct (last _).
Qed.

(** Starting with registered tests of different names and argument strings of at most
    253 characters, reading the default arguments always succeeds and gives each test the
    arguments of the last section of its name: those for its server if it has one, those
    for its client in any case.  Tests without a section, and everything else, stay as
    they are. *)
Theorem default_arguments_applied cfg amp_tests :
  NoDup (reg_name <$> amp_tests) -> Forall strings_short (sec_defaults cfg) ->
  exists amp_tests', get_default_test_args cfg amp_tests = Ok amp_tests' /\
    Forall2 (fun t t' => defaulted (section_for (sec_defaults cfg) (reg_name t)) t t') amp_tests amp_tests'.
Proof. apply default_sections_spec. Qed.

(** ** Examples *)

Definition sample_cfg : cfg_t := {|
  o_ampname := None; o_interface := Some (str "eth0"); o_ipv4 := None; o_ipv6 := None;
  o_packetdelay := 1000; o_loglevel := store_int 123456789012 7; o_dscp := store_u8 77777 46; o_nameservers := [];
  o_waitforclocksync := cfg_false;
  sec_ssl := Some no_ssl;
  sec_collector := Some {|
    vialocal := 0; local := str "localhost"; configrabbit := cfg_true; address := Some (str "amp.example.org");
    port := 5671; vhost := str "/"; exchange := str "amp_exchange"; routingkey := str "test";
    ssl := -1; prefetch := 1;
    deprecated := {| s_cacert := Some (str "/ca.pem"); s_key := None; s_cert := None; s_waitforcert := 0 |} |};
  sec_remotesched := Some {|
    r_fetch := cfg_true; r_url := Some (str "https://amp.example.org/"); r_cacert := None; r_key := None;
    r_cert := None; r_frequency := 600; identify := cfg_true |};
  sec_control := Some {|
    enabled := cfg_true; c_port := str "8869"; c_interface := None; c_ipv4 := Some (str "any"); c_ipv6 := None;
    c_acl := [{| acl_title := str "server"; allow := [str ".example.org"]; deny := [str "bad.example.org"] |}] |};
  sec_defaults := [{| d_title := str "throughput"; d_client := None; d_server := Some (str "-w") |}] |}.

Definition no_names (h : cstr) : Z * list (option cstr) := (-2, []).
Definition cli_meta : meta_t :=
  {| iface := None; m_sourcev4 := None; m_sourcev6 := None; inter_packet_delay := 100; m_dscp := 0 |}.

Lemma parse_config_correct_witness :
  exists cfg' vars,
    parse_config StatMissing (fun _ _ => CFG_SUCCESS sample_cfg) (Some (str "probe")) no_names (str "default.conf")
    = Ok (Some (cfg', vars)) /\ g_ampname vars = str "probe" /\
    exists s, effective sample_cfg = Some s /\ g_amqp_ssl vars = locations s [] /\ should_wait_for_cert cfg' = waits s.
Proof.
  destruct (parse_config_correct StatMissing (fun _ _ => CFG_SUCCESS sample_cfg) (Some (str "probe")) no_names
    (str "default.conf")) as (r & E & H); [intros h; cbn; lia|].
  destruct r as [[cfg' vars]|]; [|exfalso; vm_compute in E; discriminate E].
  exists cfg', vars. split; [exact E|]. split; [vm_compute in E; injection E as _ <-; reflexivity|].
  apply H.
Defined.

Definition sample_control : control_t := {|
  ctl_enabled := 1; ctl_port := str "8869";
  ctl := {| ctl_ipv4 := Some (str "0.0.0.0"); ctl_ipv6 := None; ctl_iface := None |};
  ctl_acl := foldl do_call initialise_acl
    [{| ac_fqdn := str ".example.org"; ac_property := ACL_SERVER; ac_value := 1 |};
     {| ac_fqdn := str "bad.example.org"; ac_property := ACL_SERVER; ac_value := 0 |}] |}.
Lemma checked_options_used_witness :
  get_loglevel_config sample_cfg = 7 /\ m_dscp (get_interface_config sample_cfg cli_meta) = 46 /\
  inter_packet_delay (get_interface_config sample_cfg cli_meta) = 1000.
Proof.
  destruct (checked_options_used sample_cfg cli_meta 7 46) as (Hl & _ & Hd & _ & _ & _ & Hp).
  - split_and!.
    + right. exists (str "debug"), 123456789012. split; reflexivity.
    + right. exists (str "EF"), 77777. split; reflexivity.
    + reflexivity.
  - reflexivity.
  - reflexivity.
  - split; [exact Hl|]. split; [exact Hd|]. apply Hp. vm_compute. split; [discriminate|reflexivity].
Defined.

(** A delay of 2^32 microseconds is accepted, and packets are sent without a gap. *)
Example packet_delay_truncated :
  callback_verify_packet_delay 4294967296 = 0 /\ i32 4294967296 = 0.
Proof. split; reflexivity. Qed.

Definition start_machine : machine := {|
  files := ∅; dirs := {[ SCHEDULE_DIR ++ str "/probe" ]}; clock := 1000; mask := 18; errors := []; net := [document 3];
  log := [] |}.
Lemma remote_schedule_as_configured_witness :
  exists f w', get_remote_schedule_config sample_cfg (str "probe") start_machine = Ok (Some f, start_machine) /\
    enable_remote_schedule_fetch (Some f) start_machine = Ok (0, w') /\
    log w' = [Requested (schedule_request f (str "https://amp.example.org/probe") None); Timer 600].
Proof.
  destruct (remote_schedule_as_configured sample_cfg (str "probe") {|
    r_fetch := cfg_true; r_url := Some (str "https://amp.example.org/"); r_cacert := None; r_key := None;
    r_cert := None; r_frequency := 600; identify := cfg_true |} (str "https://amp.example.org/") start_machine
    (document 3) []) as (f & Hf & Hd & H).
  - reflexivity.
  - discriminate.
  - reflexivity.
  - vm_compute. discriminate.
  - reflexivity.
  - reflexivity.
  - destruct H as (w' & Hw & Hlog & _).
    + split; [reflexivity|]. split; [reflexivity|]. unfold sched_file, tmp_sched_file. rewrite Hd.
      split; [apply (bool_decide_unpack _); vm_compute; exact I|].
      split; apply (bool_decide_unpack _); vm_compute; exact I.
    + exists f, w'. split; [exact Hf|]. split; [exact Hw|exact Hlog].
Defined.

Definition our_registered : list registered := (fun m => {| reg := m; client_params := None |}) <$> our_tests.
Lemma default_arguments_applied_witness :
  exists tests', get_default_test_args sample_cfg our_registered = Ok tests' /\
    ((fun t => server_params (reg t)) <$> tests') = [None; Some [str "-w"]].
Proof.
  destruct (default_arguments_applied sample_cfg our_registered) as (tests' & E & _).
  - apply (bool_decide_unpack _). vm_compute. exact I.
  - apply Forall_singleton. intros x [H|H]; [discriminate|]. injection H as <-. cbn. lia.
  - exists tests'. split; [exact E|]. vm_compute in E. injection E as <-. reflexivity.
Defined.
