(* ===== verification/Boot.v ===== *)
(** What measured does before it runs tests (src/measured/measured.c, users.c, clock.c,
    rabbitcfg.c and localsock.c): its command line, the pidfile, dropping privileges,
    waiting for the clock, configuring the local broker and opening its local sockets.

    The credentials of a process and record locks on files follow credentials(7),
    capabilities(7) and lockf(3); what other calls answer is given. *)
From stdpp Require Import pretty gmap.
From S2P Require Import Prelude CLib Testlib Run Sockets.
#[local] Open Scope Z_scope.

(** ** The command line *)

(** What getopt_long() returned, with optarg and the next word of argv, argv[optind]. *)
Record getopt_t : Set := { opt : ascii; optarg : option cstr; next_word : option cstr }.

(** What parse_optional_argument() of src/common/testlib.c makes of them. *)
Definition address_string (o : getopt_t) : option cstr :=
  match parse_optional_argument (optarg o) [next_word o] 0 with Ok (a, _) => a | Fault _ => None end.

Record options : Set := {
  config_file : option cstr; pidfile : option cstr; fetch_remote : bool; log_level_override : bool;
  backgrounded : bool; meta : meta_t
}.
Definition initial_options : options := {|
  config_file := None; pidfile := None; fetch_remote := true; log_level_override := false;
  backgrounded := false;
  meta := {| iface := None; m_sourcev4 := None; m_sourcev6 := None;
             inter_packet_delay := MIN_INTER_PACKET_DELAY; m_dscp := 0 |} |}.
Definition EXIT_SUCCESS : Z := 0.
Definition EXIT_FAILURE : Z := 1.

Definition with_meta (o : options) (m : meta_t) : options := {|
  config_file := config_file o; pidfile := pidfile o; fetch_remote := fetch_remote o;
  log_level_override := log_level_override o; backgrounded := backgrounded o; meta := m |}.

(** One option: the options so far with it, or the status to exit with.  getopt_long()
    gives an argument to the options that need one. *)
Definition one_option (daemon_ok : bool) (g : getopt_t) (o : options) : options + Z :=
  let m := meta o in
  match opt g with
  | "d" =>
      if daemon_ok then inl {|
        config_file := config_file o; pidfile := pidfile o; fetch_remote := fetch_remote o;
        log_level_override := log_level_override o; backgrounded := true; meta := m |}
      else inr EXIT_FAILURE
  | "v" => inr EXIT_SUCCESS
  | "x" => inl {|
      config_file := config_file o; pidfile := pidfile o; fetch_remote := fetch_remote o;
      log_level_override := true; backgrounded := backgrounded o; meta := m |}
  | "c" => inl {|
      config_file := optarg g; pidfile := pidfile o; fetch_remote := fetch_remote o;
      log_level_override := log_level_override o; backgrounded := backgrounded o; meta := m |}
  | "p" => inl {|
      config_file := config_file o; pidfile := optarg g; fetch_remote := fetch_remote o;
      log_level_override := log_level_override o; backgrounded := backgrounded o; meta := m |}
  | "r" => inl {|
      config_file := config_file o; pidfile := pidfile o; fetch_remote := false;
      log_level_override := log_level_override o; backgrounded := backgrounded o; meta := m |}
  | "I" => inl (with_meta o {|
      iface := optarg g; m_sourcev4 := m_sourcev4 m; m_sourcev6 := m_sourcev6 m;
      inter_packet_delay := inter_packet_delay m; m_dscp := m_dscp m |})
  | "Z" => inl (with_meta o {|
      iface := iface m; m_sourcev4 := m_sourcev4 m; m_sourcev6 := m_sourcev6 m;
      inter_packet_delay := u32 (atoi (default [] (optarg g))); m_dscp := m_dscp m |})
  | "4" => inl (with_meta o {|
      iface := iface m;
      m_sourcev4 := match address_string g with Some _ => optarg g | None => Some (str "any") end;
      m_sourcev6 := m_sourcev6 m; inter_packet_delay := inter_packet_delay m; m_dscp := m_dscp m |})
  | "6" => inl (with_meta o {|
      iface := iface m; m_sourcev4 := m_sourcev4 m;
      m_sourcev6 := match address_string g with Some _ => optarg g | None => Some (str "any") end;
      inter_packet_delay := inter_packet_delay m; m_dscp := m_dscp m |})
  | "h" => inr EXIT_SUCCESS
  | _ => inr EXIT_FAILURE
  end%char.
Fixpoint parse_options (daemon_ok : bool) (l : list getopt_t) (o : options) : options + Z :=
  match l with
  | [] => inl o
  | g :: l =>
      match one_option daemon_ok g o with
      | inl o => parse_options daemon_ok l o
      | inr status => inr status
      end
  end.

(** ** The pidfile *)

(** The file, and the process that holds a lock on it. *)
Record pid_state : Set := { content : option cstr; locked_by : option Z }.
Record pid_calls : Set := { open_ok : bool; lock_error : bool; truncate_ok : bool; write_ok : bool }.

(** close(): a process that closes any descriptor of a file loses its locks on it. *)
Definition close_pidfile (pid : Z) (s : pid_state) : pid_state :=
  {| content := content s;
     locked_by := if bool_decide (locked_by s = Some pid) then None else locked_by s |}.
Definition dtoa (z : Z) : cstr := str (pretty z).

(** create_pidfile() in the process [pid]. *)
Definition create_pidfile (a : pid_calls) (pid : Z) (s : pid_state) : Z * pid_state :=
  if negb (open_ok a) then (-1, s)
  else
    let s := {| content := Some (default [] (content s)); locked_by := locked_by s |} in
    if lock_error a || match locked_by s with Some p => negb (p =? pid) | None => false end then (-1, close_pidfile pid s)
    else
      let s := {| content := content s; locked_by := Some pid |} in
      if negb (truncate_ok a) then (-1, close_pidfile pid s)
      else
        let s := {| content := Some []; locked_by := locked_by s |} in
        if negb (write_ok a) then (-1, close_pidfile pid s)
        else
          (0, close_pidfile pid {| content := Some (take 126 (dtoa pid ++ ["010"%char])); locked_by := locked_by s |}).

(** ** Dropping privileges *)

Record creds : Set := {
  ruid : Z; euid : Z; suid : Z; gid : Z; groups : list Z; permitted : gset Z; effective : gset Z; keepcaps : bool
}.
Definition CAP_SETGID : Z := 6.
Definition CAP_SETUID : Z := 7.
Definition CAP_NET_BIND_SERVICE : Z := 10.
Definition CAP_NET_ADMIN : Z := 12.
Definition CAP_NET_RAW : Z := 13.

(** The change of the user ids and what it does to the capabilities. *)
Definition set_uids (c : creds) (r e s : Z) : creds :=
  let leaves_root := ((ruid c =? 0) || (euid c =? 0) || (suid c =? 0))
                     && negb ((r =? 0) || (e =? 0) || (s =? 0)) in
  {| ruid := r; euid := e; suid := s; gid := gid c; groups := groups c;
     permitted := if leaves_root && negb (keepcaps c) then ∅ else permitted c;
     effective := if leaves_root || ((euid c =? 0) && negb (e =? 0)) then ∅
                  else if negb (euid c =? 0) && (e =? 0) then permitted c else effective c;
     keepcaps := keepcaps c |}.
Definition setuid (u : Z) (c : creds) : option creds :=
  if bool_decide (CAP_SETUID ∈ effective c) then Some (set_uids c u u u)
  else if (u =? ruid c) || (u =? suid c) then Some (set_uids c (ruid c) u (suid c))
  else None.
Definition seteuid (u : Z) (c : creds) : option creds :=
  if bool_decide (CAP_SETUID ∈ effective c) || (u =? ruid c) || (u =? suid c)
  then Some (set_uids c (ruid c) u (suid c)) else None.
Definition setgroups (l : list Z) (c : creds) : option creds :=
  if bool_decide (CAP_SETGID ∈ effective c) then Some {|
    ruid := ruid c; euid := euid c; suid := suid c; gid := gid c; groups := l; permitted := permitted c;
    effective := effective c; keepcaps := keepcaps c |} else None.
Definition setgid (g : Z) (c : creds) : option creds :=
  if bool_decide (CAP_SETGID ∈ effective c) || (g =? gid c) then Some {|
    ruid := ruid c; euid := euid c; suid := suid c; gid := g; groups := groups c; permitted := permitted c;
    effective := effective c; keepcaps := keepcaps c |} else None.
Definition set_keepcaps (c : creds) : creds := {|
  ruid := ruid c; euid := euid c; suid := suid c; gid := gid c; groups := groups c; permitted := permitted c;
  effective := effective c; keepcaps := true |}.
(** cap_set_proc(): only permitted capabilities can be effective. *)
Definition cap_set_effective (l : gset Z) (c : creds) : option creds :=
  if bool_decide (l ⊆ permitted c) then Some {|
    ruid := ruid c; euid := euid c; suid := suid c; gid := gid c; groups := groups c; permitted := permitted c;
    effective := l; keepcaps := keepcaps c |} else None.

Record passwd : Set := { pw_uid : Z; pw_gid : Z }.
(** Whether the other calls work: the capabilities are supported, prctl(), chdir(),
    cap_get_proc(), cap_set_flag() and cap_free(). *)
Record user_calls : Set := {
  caps_supported : bool; prctl_ok : bool; chdir_ok : bool; cap_get_ok : bool; cap_flag_ok : bool; cap_free_ok : bool
}.
Definition cap_list : gset Z := {[CAP_NET_RAW; CAP_NET_ADMIN; CAP_NET_BIND_SERVICE]}.

(** change_user(), with the answer of getpwnam(); the credentials are those at its return. *)
Definition change_user (a : user_calls) (pwd : option passwd) (c : creds) : Z * creds :=
  match pwd with
  | None => (-1, c)
  | Some pwd =>
      if negb (caps_supported a) then (-1, c)
      else if negb (prctl_ok a) then (-1, c)
      else
        let c := set_keepcaps c in
        match setgroups [] c with
        | None => (-1, c)
        | Some c =>
            match setgid (pw_gid pwd) c with
            | None => (-1, c)
            | Some c =>
                match setuid (pw_uid pwd) c with
                | None => (-1, c)
                | Some c =>
                    if negb (chdir_ok a) then (-1, c)
                    else
                      match setuid 0 c with
                      | Some c => (-1, c)
                      | None =>
                          match seteuid 0 c with
                          | Some c => (-1, c)
                          | None =>
                              if negb (cap_get_ok a) then (-1, c)
                              else if negb (cap_flag_ok a) then (-1, c)
                              else
                                match cap_set_effective (effective c ∪ cap_list) c with
                                | None => (-1, c)
                                | Some c => (if cap_free_ok a then 0 else -1, c)
                                end
                          end
                      end
                end
            end
        end
  end.

(** ** The clock *)

Definition TIME_ERROR : Z := 5.
(** wait_for_clock_sync() over the answers of adjtimex(): the number of sleeps of 30
    seconds, or [None] when it exits. *)
Fixpoint wait_for_clock_sync (adjtimex : list Z) : res (option nat) :=
  match adjtimex with
  | [] => Fault OutOfFuel
  | r :: adjtimex =>
      if r <? 0 then Ok None
      else if negb (r =? TIME_ERROR) then Ok (Some O)
      else n ← wait_for_clock_sync adjtimex; Ok (option_map S n)
  end.

(** ** The local broker *)

(** How a command ended: fork() failed, it exited, or a signal killed it. *)
Inductive child : Set := ForkFailed | Exited (status : Z) | Killed.

Section Rabbit.
Context (execute : list cstr -> child).

Definition run_rabbitmqctl (args : list cstr) : Z :=
  match execute args with
  | ForkFailed | Killed => -1
  | Exited status => if status =? 1 then -1 else if status =? 255 then -1 else status
  end.
Definition RABBITMQCTL : cstr := str "/usr/sbin/rabbitmqctl".
Definition create_rabbitmq_vhost (username : cstr) : Z :=
  run_rabbitmqctl [RABBITMQCTL; str "add_vhost"; username].
Definition create_rabbitmq_user (username : cstr) : Z :=
  run_rabbitmqctl [RABBITMQCTL; str "add_user"; username; username].
Definition grant_rabbitmq_permissions (username : cstr) : Z :=
  run_rabbitmqctl [RABBITMQCTL; str "set_permissions"; str "-p"; username; username; str ".*"; str ".*"; str ".*"].
Definition setup_rabbitmq_user (username : cstr) : Z :=
  if create_rabbitmq_vhost username <? 0 then -1
  else if create_rabbitmq_user username <? 0 then -1
  else if grant_rabbitmq_permissions username <? 0 then -1
  else 0.

(** The seconds between two tries of the shovel: 60 + 120 * (random() / (RAND_MAX + 1.0)),
    which a double holds exactly. *)
Definition retry (random : Z) : Z := 60 + 120 * random / 2147483648.
Definition q : cstr := [ascii_of_nat 34].
Definition shovel (ampname local collector : cstr) (port : Z) (cacert cert key exchange routingkey : cstr)
    (prefetch random : Z) : cstr :=
  str "{" ++ q ++ str "src-uri" ++ q ++ str ":" ++ q ++ str "amqp://" ++ ampname ++ str ":" ++ ampname
    ++ str "@" ++ local ++ str "/" ++ ampname ++ q ++ str ", "
  ++ q ++ str "src-queue" ++ q ++ str ":" ++ q ++ str "report" ++ q ++ str ", "
  ++ q ++ str "dest-uri" ++ q ++ str ":" ++ q ++ str "amqps://" ++ collector ++ str ":" ++ dtoa port
    ++ str "?cacertfile=" ++ cacert ++ str "&certfile=" ++ cert ++ str "&keyfile=" ++ key
    ++ str "&verify=verify_peer" ++ str "&server_name_indication=" ++ collector
    ++ str "&fail_if_no_peer_cert=true" ++ str "&auth_mechanism=external" ++ q ++ str ", "
  ++ q ++ str "reconnect-delay" ++ q ++ str ":" ++ dtoa (retry random) ++ str ","
  ++ q ++ str "prefetch-count" ++ q ++ str ":" ++ dtoa prefetch ++ str ","
  ++ q ++ str "dest-exchange" ++ q ++ str ":" ++ q ++ exchange ++ q ++ str ", "
  ++ q ++ str "dest-exchange-key" ++ q ++ str ":" ++ q ++ routingkey ++ q ++ str "}".
(** setup_rabbitmq_shovel(); the locations may be NULL. *)
Definition setup_rabbitmq_shovel (ampname local collector : cstr) (port : Z) (cacert cert key : option cstr)
    (exchange routingkey : cstr) (prefetch random : Z) : res Z :=
  _ ← c_assert (0 <? port);
  match cacert, cert, key with
  | Some cacert, Some cert, Some key =>
      Ok (run_rabbitmqctl [RABBITMQCTL; str "set_parameter"; str "shovel"; ampname;
            shovel ampname local collector port cacert cert key exchange routingkey prefetch random])
  | _, _, _ => Fault AssertFail
  end.
End Rabbit.

(** ** Local sockets *)

Definition AF_UNIX : Z := 1.
Definition MEASURED_MAX_SOCKET_BACKLOG : Z := 16.
(** initialise_local_socket(): [there] is access(), and the other calls work or not. *)
Definition initialise_local_socket `{Kernel} (there unlink_ok : bool) (bind_ok : Z -> bool) : sys Z :=
  if there && negb unlink_ok then mret (-1)
  else
    sock ← socket_call AF_UNIX;
    if sock <? 0 then mret (-1)
    else if negb (bind_ok sock) then mret (-1)
    else
      match k_listen sock with
      | Some _ => mret (-1)
      | None => _ ← log [Listen sock MEASURED_MAX_SOCKET_BACKLOG]; mret sock
      end.

(** ** The pidfile does not keep a second client away *)

(** The lock on the pidfile goes when create_pidfile() closes it: after a success the
    file holds the process id, but no process holds a lock, so the same call in any other
    process succeeds too and overwrites it.  Only a process that is inside the call is
    kept out, and then nothing is changed. *)
Theorem pidfile_lock_is_released a pid s :
  locked_by s <> Some pid ->
  let '(r, s') := create_pidfile a pid s in
  locked_by s' = (if decide (r = 0) then None else locked_by s) /\
  (r = 0 -> content s' = Some (take 126 (dtoa pid ++ ["010"%char])) /\
     forall pid', create_pidfile {| open_ok := true; lock_error := false; truncate_ok := true; write_ok := true |} pid' s'
       = (0, {| content := Some (take 126 (dtoa pid' ++ ["010"%char])); locked_by := None |})) /\
  (is_Some (locked_by s) -> r = -1 /\ (is_Some (content s) -> s' = s)).
Proof.
  intros Hp. unfold create_pidfile, close_pidfile. destruct s as [c l]. cbn in Hp. cbn [content locked_by].
  destruct (open_ok a); cbn [negb]; [|split_and!; try done; by destruct l].
  assert (Hl : (if bool_decide (l = Some pid) then None else l) = l) by (by rewrite bool_decide_eq_false_2).
  destruct (lock_error a || _) eqn:Elock; cbn.
  { rewrite Hl. split_and!; [by destruct l|done|]. intros _. split; [done|]. by intros [x ->]. }
  apply orb_false_iff in Elock as [_ Elock].
  assert (l = None) as -> by (destruct l as [p|]; [|done]; apply negb_false_iff, Z.eqb_eq in Elock; congruence).
  rewrite !(bool_decide_eq_true_2 (Some pid = Some pid)) by done.
  destruct (truncate_ok a), (write_ok a); cbn; split_and!; try done; try (by intros [? ?]).
  intros _. split; [done|]. intros pid'. by rewrite bool_decide_eq_true_2.
Qed.
Lemma pidfile_lock_is_released_witness :
  let first := snd (create_pidfile {| open_ok := true; lock_error := false; truncate_ok := true; write_ok := true |}
    100 {| content := None; locked_by := None |}) in
  locked_by first = None /\ fst (create_pidfile
    {| open_ok := true; lock_error := false; truncate_ok := true; write_ok := true |} 200 first) = 0.
Proof.
  pose proof (pidfile_lock_is_released
    {| open_ok := true; lock_error := false; truncate_ok := true; write_ok := true |} 100
    {| content := None; locked_by := None |}) as H.
  assert (Hn : locked_by {| content := None; locked_by := None |} <> Some 100) by discriminate.
  specialize (H Hn). destruct (create_pidfile _ _ _) as [r s'] eqn:E.
  assert (r = 0) as -> by (vm_compute in E; injection E as <- _; reflexivity).
  destruct H as (Hl & Hc & _). destruct (Hc eq_refl) as [_ H2]. split; [exact Hl|]. cbn [snd]. rewrite H2. reflexivity.
Defined.

(** ** Privileges *)

(** A process of root with all it may have. *)
Definition is_root (c : creds) : Prop :=
  ruid c = 0 /\ euid c = 0 /\ suid c = 0 /\ CAP_SETUID ∈ effective c /\ CAP_SETGID ∈ effective c /\
  effective c = permitted c /\ cap_list ⊆ permitted c.
Definition all_work : user_calls :=
  {| caps_supported := true; prctl_ok := true; chdir_ok := true; cap_get_ok := true; cap_flag_ok := true; cap_free_ok := true |}.

(** The state after the three changes of ids. *)
Lemma change_user_eq a pwd c :
  is_root c -> pw_uid pwd <> 0 ->
  change_user a (Some pwd) c =
  if caps_supported a && prctl_ok a then
    let c' e := {| ruid := pw_uid pwd; euid := pw_uid pwd; suid := pw_uid pwd; gid := pw_gid pwd; groups := [];
                   permitted := permitted c; effective := e; keepcaps := true |} in
    if chdir_ok a && cap_get_ok a && cap_flag_ok a then (if cap_free_ok a then 0 else -1, c' cap_list)
    else (-1, c' ∅)
  else (-1, c).
Proof.
  intros (Hr & He & Hs & Hu & Hg & Hep & Hcap) Hpw. unfold change_user.
  destruct (caps_supported a); cbn [negb andb]; [|done]. destruct (prctl_ok a); cbn [negb andb]; [|done].
  unfold set_keepcaps, setgroups. cbn [effective]. rewrite bool_decide_eq_true_2 by done.
  unfold setgid. cbn [effective]. rewrite bool_decide_eq_true_2 by done. cbn [orb].
  unfold setuid at 1. cbn [effective]. rewrite bool_decide_eq_true_2 by done.
  unfold set_uids. cbn [ruid euid suid keepcaps permitted effective groups gid].
  rewrite Hr, He, Hs, (proj2 (Z.eqb_neq _ _) Hpw). cbn [Z.eqb orb andb negb].
  destruct (chdir_ok a); cbn [negb andb]; [|done].
  assert (Hne : (0 =? pw_uid pwd) = false) by (apply Z.eqb_neq; congruence).
  unfold setuid. cbn [effective ruid suid]. rewrite bool_decide_eq_false_2 by set_solver. rewrite Hne. cbn [orb].
  unfold seteuid. cbn [effective ruid suid]. rewrite bool_decide_eq_false_2 by set_solver. rewrite Hne. cbn [orb].
  destruct (cap_get_ok a); cbn [negb andb]; [|done]. destruct (cap_flag_ok a); cbn [negb andb]; [|done].
  unfold cap_set_effective. cbn [effective permitted]. rewrite (left_id_L ∅ (∪)).
  by rewrite bool_decide_eq_true_2.
Qed.

(** What is left of root. *)
Lemma change_user_root a pwd c :
  is_root c ->
  let '(r, c') := change_user a pwd c in
  (r = 0 <-> exists p, pwd = Some p /\ pw_uid p <> 0 /\ a = all_work) /\
  (r = 0 -> forall p, pwd = Some p ->
     ruid c' = pw_uid p /\ euid c' = pw_uid p /\ suid c' = pw_uid p /\ gid c' = pw_gid p /\ groups c' = [] /\
     effective c' = cap_list /\ setuid 0 c' = None /\ seteuid 0 c' = None /\
     permitted c' = permitted c /\
     exists c'', (cap_set_effective {[CAP_SETUID]} c' ≫= setuid 0) = Some c'' /\ euid c'' = 0 /\
       effective c'' = permitted c).
Proof.
  intros Hroot. destruct pwd as [p|]; [|split; [split; [done|by intros (? & ? & _)]|done]].
  destruct (decide (pw_uid p = 0)) as [Hz|Hz].
  - destruct Hroot as (Hr & He & Hs & Hu & Hg & Hep & Hcap). unfold change_user.
    assert (Hno : (-1 = 0 <-> exists p0, Some p = Some p0 /\ pw_uid p0 <> 0 /\ a = all_work)).
    { split; [done|]. intros (? & [= <-] & ? & _). done. }
    destruct (caps_supported a); cbn [negb]; [|done]. destruct (prctl_ok a); cbn [negb]; [|done].
    unfold set_keepcaps, setgroups. cbn [effective]. rewrite bool_decide_eq_true_2 by done.
    unfold setgid. cbn [effective]. rewrite bool_decide_eq_true_2 by done. cbn [orb].
    unfold setuid at 1. cbn [effective]. rewrite bool_decide_eq_true_2 by done. rewrite Hz.
    destruct (chdir_ok a); cbn [negb]; [|done].
    unfold setuid, set_uids. cbn [ruid euid suid keepcaps permitted effective groups gid].
    rewrite Hr, He, Hs. cbn [Z.eqb orb andb negb]. rewrite bool_decide_eq_true_2 by done. done.
  - rewrite change_user_eq by done. destruct Hroot as (Hr & He & Hs & Hu & Hg & Hep & Hcap).
    destruct a as [[] [] [] [] [] []]; cbn; (split; [split; [|intros (? & [= <-] & _ & [=])]|]); try done; eauto.
    intros _ p' [= <-].
    assert (Hne : (0 =? pw_uid p) = false) by (apply Z.eqb_neq; congruence).
    assert (Hnc : CAP_SETUID ∉ cap_list) by (unfold cap_list; set_solver).
    unfold setuid, seteuid. cbn [effective ruid suid]. rewrite !bool_decide_eq_false_2 by done. rewrite Hne. cbn [orb].
    split_and!; try done. unfold cap_set_effective. cbn [permitted].
    rewrite bool_decide_eq_true_2 by (rewrite <- Hep; set_solver). cbn. rewrite bool_decide_eq_true_2 by set_solver.
    eexists. split; [reflexivity|]. unfold set_uids. cbn. rewrite (proj2 (Z.eqb_neq _ _) Hz). done.
Qed.

(** C24: Dropping privileges.  For a process that is root, change_user() succeeds exactly
    when the user exists, is not root and every call works; then the real, effective and
    saved user ids and the group are those of the user, there are no supplementary groups
    at all, root cannot be regained by setuid() or seteuid(), and exactly the three
    network capabilities are effective.  But every capability that root had stays
    permitted: the process can make CAP_SETUID effective again and then be root. *)
Theorem change_user_drops_root a pwd c :
  is_root c ->
  let '(r, c') := change_user a pwd c in
  (r = 0 <-> exists p, pwd = Some p /\ pw_uid p <> 0 /\ a = all_work) /\
  (r = 0 -> forall p, pwd = Some p ->
     ruid c' = pw_uid p /\ euid c' = pw_uid p /\ suid c' = pw_uid p /\ gid c' = pw_gid p /\ groups c' = [] /\
     effective c' = cap_list /\ setuid 0 c' = None /\ seteuid 0 c' = None /\
     permitted c' = permitted c /\
     exists c'', (cap_set_effective {[CAP_SETUID]} c' ≫= setuid 0) = Some c'' /\ euid c'' = 0 /\
       effective c'' = permitted c).
Proof. apply change_user_root. Qed.
Definition root : creds := {|
  ruid := 0; euid := 0; suid := 0; gid := 0; groups := [0]; permitted := {[CAP_SETUID; CAP_SETGID]} ∪ cap_list;
  effective := {[CAP_SETUID; CAP_SETGID]} ∪ cap_list; keepcaps := false |}.
Lemma is_root_root : is_root root.
Proof. split_and!; try done; apply (bool_decide_unpack _); by vm_compute. Qed.
Lemma change_user_drops_root_witness :
  exists c', change_user all_work (Some {| pw_uid := 999; pw_gid := 998 |}) root = (0, c') /\ euid c' = 999 /\
    effective c' = cap_list /\ permitted c' = permitted root.
Proof.
  pose proof (change_user_drops_root all_work (Some {| pw_uid := 999; pw_gid := 998 |}) root is_root_root) as H.
  destruct (change_user _ _ _) as [r c'].
  destruct H as [[_ Hr] H]. assert (r = 0) as ->.
  { apply Hr. eexists. split; [reflexivity|]. split; [discriminate|reflexivity]. }
  destruct (H eq_refl _ eq_refl) as (_ & He & _ & _ & _ & Hc & _ & _ & Hp & _).
  exists c'. split; [reflexivity|]. split; [exact He|]. split; [exact Hc|exact Hp].
Defined.

(** ** The other steps *)

(** The source address of -4 is used when it is part of the same word; as the next word
    it is taken for the argument of the option, and lost. *)
Theorem separate_source_address_lost daemon_ok g o a :
  opt g = "4"%char -> address_string g = Some a ->
  exists o', one_option daemon_ok g o = inl o' /\
    m_sourcev4 (meta o') = (if decide (is_Some (optarg g)) then Some a else None).
Proof.
  intros Ho Ha. unfold one_option. rewrite Ho, Ha. eexists. split; [reflexivity|]. cbn.
  unfold address_string, parse_optional_argument in Ha. destruct (optarg g) as [x|]; case_decide as Hd; try done.
  exfalso. apply Hd. by eexists.
Qed.
Example source_address_lost :
  match one_option true {| opt := "4"; optarg := None; next_word := Some (str "192.0.2.1") |} initial_options with
  | inl o => m_sourcev4 (meta o) = None
  | inr _ => False
  end.
Proof. reflexivity. Qed.

(** Waiting for the clock ends with the first answer that is not an error of the clock. *)
Lemma wait_for_clock_sync_returns n r rest :
  r <> TIME_ERROR -> wait_for_clock_sync (replicate n TIME_ERROR ++ r :: rest) =
    Ok (if r <? 0 then None else Some n).
Proof.
  intros Hr. induction n as [|n IH]; cbn -[TIME_ERROR].
  - rewrite (proj2 (Z.eqb_neq _ _) Hr). by destruct (r <? 0).
  - rewrite IH. cbn. by destruct (r <? 0).
Qed.

Lemma retry_range random : 0 <= random < 2147483648 -> 60 <= retry random < 180.
Proof. unfold retry. intros. Z.div_mod_to_equations. lia. Qed.

(** A local socket that is returned is open and listening, and nothing else was opened;
    after a failure of bind() or listen() it is left open. *)
Theorem local_socket_opened `{Kernel} there unlink_ok bind_ok w :
  world_ok w ->
  exists r w', initialise_local_socket there unlink_ok bind_ok w = Ok (r, w') /\
    (0 <= r -> r = next_fd w /\ fds w' = r :: fds w /\ trace w' = trace w ++ [Socket r AF_UNIX; Listen r 16]) /\
    (r < 0 -> r = -1 /\ (fds w' = fds w \/ fds w' = next_fd w :: fds w)) /\
    (there && negb unlink_ok = false -> k_socket (next_fd w) AF_UNIX = true -> bind_ok (next_fd w) = false ->
     r = -1 /\ fds w' = next_fd w :: fds w).
Proof.
  intros [Hn _]. unfold initialise_local_socket. destruct (there && negb unlink_ok).
  { eexists _, _. split; [reflexivity|]. split_and!; [lia|auto|done]. }
  unfold mbind, sys_bind, socket_call, open_fd. destruct (k_socket (next_fd w) AF_UNIX).
  - rewrite (proj2 (Z.ltb_ge _ _)) by lia. destruct (bind_ok (next_fd w)); cbn [negb].
    + destruct (k_listen (next_fd w)); cbn; eexists _, _; (split; [reflexivity|]); cbn; split_and!; try lia; auto.
      by rewrite <- app_assoc.
    + eexists _, _. split; [reflexivity|]. cbn. split_and!; [lia|auto|done].
  - eexists _, _. split; [reflexivity|]. split_and!; [lia|auto|done].
Qed.
