(* ===== verification/Daemon.v ===== *)
(** measured as a whole (src/measured/measured.c, with src/common/modules.c and the
    directories of src/measured/nametable.c): starting, loading tests and schedules,
    reloading them on signals, and shutting down.

    The components keep their own state: the disk and the servers ([Files.machine]), the
    open descriptors ([Sockets.world]), the credentials and the pidfile (Boot.v), the
    event base (Schedule.v).  [main] threads them all, and a list of what was done. *)
From stdpp Require Import gmap.
From S2P Require Import Prelude CLib Address SchedTime ParamString Nametable Targets Schedule Testlib Run Controlmsg Sockets Control Files Fetch Certs Config Boot.
#[local] Open Scope Z_scope.

(** ** Test modules (src/common/modules.c) *)

(** What became of one shared object: it does not load, has no register_test(), that
    returned NULL, or the test it describes. *)
Inductive candidate : Type := NoLibrary | NoSymbol | NullInfo | TestInfo (m : module).

(** register_one_test(): parameters are cleared whatever the module put there. *)
Definition register_one_test (c : candidate) : option registered :=
  match c with
  | TestInfo m => Some {|
      reg := {| id := id m; def := def m; max_duration := max_duration m; server_callback := server_callback m;
                server_params := None |};
      client_params := None |}
  | _ => None
  end.
(** register_tests(): the candidates are what glob() found in [location]. *)
Definition register_tests (location : option cstr) (found : list candidate) : Z * list registered :=
  match location with
  | None => (-1, [])
  | Some l => if (MAX_PATH_LENGTH - 6 <=? length l)%nat then (-1, []) else (0, omap register_one_test found)
  end.

(** ** Loading and reloading *)

(** What a load finds: test modules, the global schedules and those of this client. *)
Record load_env : Type := {
  found : list candidate; global_schedules : list (option yaml_document);
  client_schedules : list (option yaml_document)
}.
(** What measured runs from: the tests, the argument vectors and the event base.  [events]
    are the events a visit of the base meets: timers that wait, and the other events.  A
    timer that has expired is in [active] until its callback runs, where a visit does
    not meet it; with it is whether the test_t that it points to is still allocated. *)
Record daemon : Type := {
  tests : list registered; vectors : param_heap; events : list event; active : list (event * bool)
}.
(** unregister_tests() frees the test_t that the tests in the active queue point to. *)
Definition unregistered (x : event * bool) : event * bool :=
  (fst x, match fst x with RunTest _ _ => false | _ => snd x end).
Definition definitions (l : list registered) : list test_t := (fun t => def (reg t)) <$> l.

Definition PATH_MAX : nat := Z.to_nat 4096.
Definition client_dir (dir ampname : cstr) : cstr := take (PATH_MAX - 1) (dir ++ str "/" ++ ampname).

Section Reload.
Context (cached : option timeval) (gettimeofday : timeval) (event_add : list event -> event -> list event)
  (name_table : list nametable_t) (test_dir ampname : cstr).

(** The part after old tests are gone; [None] is exit(EXIT_FAILURE). *)
Definition load_all (env : load_env) (h : param_heap) (evs : list event) (act : list (event * bool))
    : res (option daemon) :=
  let '(r, amp_tests) := register_tests (Some test_dir) (found env) in
  if r =? -1 then Ok None
  else
    r ← read_schedule_dir cached gettimeofday event_add (definitions amp_tests) name_table SCHEDULE_DIR h evs
          (global_schedules env);
    r ← read_schedule_dir cached gettimeofday event_add (definitions amp_tests) name_table
          (client_dir SCHEDULE_DIR ampname) (fst r) (snd r) (client_schedules env);
    Ok (Some {| tests := amp_tests; vectors := fst r; events := snd r; active := act |}).
(** reload(): a signal, or 0 for the first time. *)
Definition reload (signal : Z) (env : load_env) (d : daemon) : res (option daemon) :=
  if signal >? 0 then
    r ← clear_test_schedule false (vectors d) (events d);
    load_all env (fst r) (snd r) (unregistered <$> active d)
  else load_all env (vectors d) (events d) (active d).
Definition load_tests_and_schedules (env : load_env) (d : daemon) : res (option daemon) := reload 0 env d.

End Reload.

(** What happens in the event loop: a timer expires, the callback of an active timer runs
    at a time, or a signal arrives that reloads what is found then. *)
Inductive happening : Type :=
| Expires (i : nat)
| Runs (i : nat) (now : timeval) (cached : option timeval) (fork_ok : bool)
| Signal (signal : Z) (env : load_env) (now : timeval) (cached : option timeval).
Section Loop.
Context (event_add : list event -> event -> list event) (name_table : list nametable_t) (test_dir ampname : cstr).

Definition happen (x : happening) (d : daemon) : res (option daemon) :=
  match x with
  | Expires i =>
      match events d !! i with
      | None | Some OtherEvent => Ok (Some d)
      | Some ev => Ok (Some {| tests := tests d; vectors := vectors d; events := delete i (events d);
                               active := active d ++ [(ev, true)] |})
      end
  | Runs i now cached fork_ok =>
      match (active d !! i : option (event * bool)) with
      | None | Some (OtherEvent, _) => Ok (Some d)
      | Some (RunTest item _, there) =>
          (* run_scheduled_test() reads the name of the test, and adds the event again *)
          if there then
            let '(_, next, item') := run_scheduled_test item now cached fork_ok in
            Ok (Some {| tests := tests d; vectors := vectors d; events := event_add (events d) (RunTest item' next);
                        active := delete i (active d) |})
          else Fault UseAfterFree
      | Some (FetchSchedule url, _) =>
          (* timer_fetch_callback() *)
          Ok (Some {| tests := tests d; vectors := vectors d; events := event_add (events d) (FetchSchedule url);
                      active := delete i (active d) |})
      end
  | Signal signal env now cached => reload cached now event_add name_table test_dir ampname signal env d
  end.
(** A reload that fails exits. *)
Fixpoint happens (l : list happening) (d : daemon) : res (option daemon) :=
  match l with
  | [] => Ok (Some d)
  | x :: l =>
      r ← happen x d;
      match r with None => Ok None | Some d => happens l d end
  end.
End Loop.

(** ** Reloading is sound *)

(** The active tests that can still be run. *)
Definition live (l : list (event * bool)) : list event :=
  omap (fun x : event * bool => if snd x then Some (fst x) else None) l.
Definition sound (d : daemon) : Prop := events_ok (definitions (tests d)) (Daemon.events d ++ live (active d)).
Definition others (d : daemon) : list event := filter (stays false) (Daemon.events d ++ (fst <$> active d)).
(** Modules declare a maximum of at most 16 bits. *)
Definition modules_ok (env : load_env) : Prop :=
  forall m, TestInfo m ∈ found env -> 0 <= max_targets (def m) < 65536.

Lemma registered_def (t : registered) (l : list candidate) :
  t ∈ omap register_one_test l -> exists m, TestInfo m ∈ l /\ def (reg t) = def m /\
    server_params (reg t) = None /\ client_params t = None.
Proof.
  intros (c & Hc & E)%list_elem_of_omap. destruct c as [| | |m]; try done. injection E as <-. by exists m.
Qed.

Section ReloadSound.
Context (cached : option timeval) (gettimeofday : timeval) (event_add : list event -> event -> list event)
  (name_table : list nametable_t) (test_dir ampname : cstr).
Context (event_add_perm : forall evs ev, event_add evs ev ≡ₚ ev :: evs).
#[local] Abbreviation load_all := (load_all cached gettimeofday event_add name_table test_dir ampname).
#[local] Abbreviation reload := (reload cached gettimeofday event_add name_table test_dir ampname).

(** No test is scheduled, so none is of a module that is gone. *)
Definition no_tests (evs : list event) : Prop := forall i next, RunTest i next ∉ evs.
Lemma no_tests_ok amp_tests evs : no_tests evs -> events_ok amp_tests evs.
Proof. intros H i next Hin. by apply H in Hin. Qed.
Lemma events_ok_app ts l l' : events_ok ts (l ++ l') <-> events_ok ts l /\ events_ok ts l'.
Proof. unfold events_ok. setoid_rewrite elem_of_app. naive_solver. Qed.
Lemma events_ok_perm ts l l' : l ≡ₚ l' -> events_ok ts l -> events_ok ts l'.
Proof. intros Hl H i next Hin. apply (H i next). by rewrite Hl. Qed.
Lemma no_tests_unregistered act : no_tests (live (unregistered <$> act)).
Proof.
  intros i next (x & Hx & E)%list_elem_of_omap. apply list_elem_of_fmap in Hx as (y & -> & _).
  unfold unregistered in E. destruct (fst y) eqn:Ey; cbn in E; [done| |]; destruct (snd y); by rewrite ?Ey in E.
Qed.
Lemma no_tests_stays all evs : no_tests (filter (stays all) evs).
Proof. intros i next [H _]%list_elem_of_filter. exact H. Qed.

Lemma load_all_sound env h evs act d :
  modules_ok env -> no_tests evs -> no_tests (live act) -> load_all env h evs act = Ok (Some d) ->
  sound d /\ others d ≡ₚ filter (stays false) (evs ++ (fst <$> act)) /\
  tests d = omap register_one_test (found env) /\ active d = act.
Proof using event_add_perm.
  intros Hm Hn Hact H. unfold Daemon.load_all in H. destruct (register_tests _ _) as [r amp_tests] eqn:Er.
  unfold register_tests in Er. destruct (MAX_PATH_LENGTH - 6 <=? length test_dir)%nat; injection Er as <- <-; [done|].
  cbn [Z.eqb] in H. apply res_bind_Ok in H as ([h1 e1] & E1 & H). apply res_bind_Ok in H as ([h2 e2] & E2 & H).
  cbn [fst snd] in *. injection H as <-. unfold sound, others. cbn [Daemon.events tests active].
  assert (Hmax : forall t, t ∈ definitions (omap register_one_test (found env)) -> 0 <= max_targets t < 65536).
  { intros t (x & -> & Hx)%list_elem_of_fmap. apply registered_def in Hx as (m & Hf & -> & _). by apply Hm. }
  split; [|split; [rewrite !filter_app; apply Permutation_app_tail; etrans; eapply read_schedule_dir_others; eauto|done]].
  apply events_ok_app. split; [|by apply no_tests_ok].
  eapply read_schedule_dir_sound; [done|done| |exact E2].
  eapply read_schedule_dir_sound; [done|done| |exact E1]. by apply no_tests_ok.
Qed.

Lemma reload_sound signal env d d' :
  0 < signal -> modules_ok env -> reload signal env d = Ok (Some d') ->
  sound d' /\ others d' ≡ₚ others d /\ tests d' = omap register_one_test (found env) /\
  active d' = unregistered <$> active d.
Proof using event_add_perm.
  intros Hs Hm H. unfold Daemon.reload in H. rewrite Z.gtb_ltb, (proj2 (Z.ltb_lt _ _) Hs) in H.
  apply res_bind_Ok in H as ([h e] & E & H). cbn [fst snd] in H.
  assert (e = filter (stays false) (Daemon.events d)) as ->.
  { destruct (clear_schedule_cases false (vectors d) (Daemon.events d)) as [E'|E']; rewrite E' in E; by simplify_eq. }
  apply load_all_sound in H as (H1 & H2 & H3 & H4); [|done|apply no_tests_stays|apply no_tests_unregistered].
  split_and!; [done| |done|done]. rewrite H2. unfold others. rewrite !filter_app.
  rewrite list_filter_filter, (list_filter_iff _ (stays false)) by naive_solver.
  by rewrite <- list_fmap_compose.
Qed.
End ReloadSound.

Definition is_signal (x : happening) : Prop := match x with Signal _ _ _ _ => True | _ => False end.
Definition happening_ok (x : happening) : Prop :=
  match x with Signal s env _ _ => 0 < s /\ modules_ok env | _ => True end.

Section LoopSound.
Context (event_add : list event -> event -> list event) (name_table : list nametable_t) (test_dir ampname : cstr).
Context (event_add_perm : forall evs ev, event_add evs ev ≡ₚ ev :: evs).
#[local] Abbreviation happen := (happen event_add name_table test_dir ampname).
#[local] Abbreviation happens := (happens event_add name_table test_dir ampname).

Lemma live_delete (l : list (event * bool)) k ev (there : bool) :
  l !! k = Some (ev, there) -> live l ≡ₚ (if there then [ev] else []) ++ live (delete k l).
Proof.
  intros Hk. unfold live. rewrite (delete_Permutation l k _ Hk) at 1. by destruct there.
Qed.
Lemma active_delete (l : list (event * bool)) k ev there :
  l !! k = Some (ev, there) -> fst <$> l ≡ₚ ev :: (fst <$> delete k l).
Proof. intros Hk. by rewrite (delete_Permutation l k _ Hk) at 1. Qed.
Lemma rescheduled_ok ts item now cached fork_ok run next item' :
  run_scheduled_test item now cached fork_ok = (run, next, item') -> item_ok ts item -> item_ok ts item'.
Proof.
  unfold run_scheduled_test. destruct (get_next_schedule_time _ _ _ _ _ _ _) as [n a]. intros E H.
  by injection E as <- <- <-.
Qed.

Lemma happen_sound x d d' :
  sound d -> happening_ok x -> happen x d = Ok (Some d') -> sound d' /\ others d' ≡ₚ others d.
Proof using event_add_perm.
  intros Hs Hx H. destruct x as [k|k now cached fork_ok|s env now cached]; cbn [Daemon.happen] in H.
  - destruct (Daemon.events d !! k) as [ev|] eqn:Ek; [|by simplify_eq].
    assert (Hp : Daemon.events d ≡ₚ ev :: delete k (Daemon.events d)) by (by apply delete_Permutation).
    assert (Hd : d' = d \/ d' = {| tests := tests d; vectors := vectors d; events := delete k (Daemon.events d);
                                  active := active d ++ [(ev, true)] |}) by (destruct ev; simplify_eq; auto).
    destruct Hd as [-> | ->]; [done|]. unfold sound, others, live in *. cbn [Daemon.events active tests] in *.
    rewrite omap_app, fmap_app. cbn [omap list_omap fmap list_fmap fst snd]. split.
    + eapply events_ok_perm; [|exact Hs]. rewrite Hp at 1. cbn. solve_Permutation.
    + apply filter_Permutation. rewrite Hp at 2. solve_Permutation.
  - destruct (active d !! k) as [[ev there]|] eqn:Ek; [|by simplify_eq].
    pose proof (live_delete _ _ _ _ Ek) as Hl. pose proof (active_delete _ _ _ _ Ek) as Ha. unfold sound, others in *.
    destruct ev as [item next|url|]; [|simplify_eq|by simplify_eq].
    + destruct there; [|done]. destruct (run_scheduled_test item now cached fork_ok) as [[run n] item'] eqn:Er. simplify_eq.
      cbn [Daemon.events active tests].
      split; [|rewrite !filter_app, event_add_perm, Ha, !filter_cons_False by tauto; done].
      assert (Hi : item_ok (definitions (tests d)) item) by (apply (Hs item next); rewrite Hl; set_solver).
      intros i nx Hin. rewrite event_add_perm in Hin. cbn in Hin.
      apply elem_of_cons in Hin as [Hin|Hin]; [simplify_eq; by eapply rescheduled_ok|].
      apply (Hs i nx). rewrite Hl. set_solver.
    + cbn [Daemon.events active tests].
      split; [|apply filter_Permutation; rewrite event_add_perm, Ha; solve_Permutation].
      intros i nx Hin. rewrite event_add_perm in Hin. apply elem_of_app in Hin as [[Hin|Hin]%elem_of_cons|Hin];
        [done|apply (Hs i nx); set_solver|apply (Hs i nx); rewrite Hl; destruct there; set_solver].
  - destruct Hx as [Hpos Hm]. by apply reload_sound in H as (H1 & H2 & _); [|done..].
Qed.
Lemma happens_sound l d0 d :
  sound d0 -> Forall happening_ok l -> happens l d0 = Ok (Some d) -> sound d /\ others d ≡ₚ others d0.
Proof using event_add_perm.
  intros Hs Hl. revert d0 Hs. induction Hl as [|x l Hx Hl IH]; intros d0 Hs H; cbn [Daemon.happens] in H; [by simplify_eq|].
  apply res_bind_Ok in H as ([d1|] & E & H); [|done]. apply happen_sound in E as [H1 H2]; [|done..].
  apply IH in H as [H3 H4]; [|done]. by rewrite H4.
Qed.

Lemma happens_snoc l x d :
  happens (l ++ [x]) d = r ← happens l d; match r with None => Ok None | Some d => happen x d end.
Proof.
  revert d. induction l as [|y l IH]; intros d; cbn [Daemon.happens app].
  - rewrite bind_Ok. by destruct (happen x d) as [[|]|].
  - destruct (happen y d) as [[d'|]|]; [|done..]. rewrite !bind_Ok. apply IH.
Qed.
(** An active test whose module is gone was active at the last reload. *)
Lemma stale_was_active l d0 d i next :
  active d0 = [] -> Forall happening_ok l -> happens l d0 = Ok (Some d) -> (RunTest i next, false) ∈ active d ->
  exists l1 s env now cached l2 d1, l = l1 ++ Signal s env now cached :: l2 /\ Forall (fun x => ~ is_signal x) l2 /\
    happens l1 d0 = Ok (Some d1) /\ RunTest i next ∈ fst <$> active d1.
Proof using event_add_perm.
  intros H0. revert d. induction l as [|x l IH] using rev_ind; intros d Hl H Hin.
  { cbn in H. simplify_eq. rewrite H0 in Hin. by apply elem_of_nil in Hin. }
  apply Forall_app in Hl as [Hl Hx]. apply Forall_cons in Hx as [Hx _]. rewrite happens_snoc in H.
  apply res_bind_Ok in H as ([d1|] & E & H); [|done].
  assert (Hback : (RunTest i next, false) ∈ active d1 -> ~ is_signal x ->
    exists l1 s env now cached l2 d1, l ++ [x] = l1 ++ Signal s env now cached :: l2 /\ Forall (fun x => ~ is_signal x) l2 /\
      happens l1 d0 = Ok (Some d1) /\ RunTest i next ∈ fst <$> active d1).
  { intros Hin1 Hnx. destruct (IH d1 Hl E Hin1) as (l1 & s & env & now & c & l2 & d2 & -> & Hl2 & E2 & Hin2).
    exists l1, s, env, now, c, (l2 ++ [x]), d2. rewrite <- app_assoc. split_and!; [done| |done|done].
    apply Forall_app. split; [done|]. by constructor. }
  destruct x as [k|k now cached fork_ok|s env now cached]; cbn [Daemon.happen] in H.
  - apply Hback; [|tauto]. destruct (Daemon.events d1 !! k) as [ev|]; [|by simplify_eq].
    destruct ev; simplify_eq; cbn [active] in Hin; try done; set_solver.
  - apply Hback; [|tauto]. destruct (active d1 !! k) as [[ev there]|]; [|by simplify_eq].
    destruct ev; [destruct there; [|done]; destruct (run_scheduled_test _ _ _ _) as [[? ?] ?]| |];
      simplify_eq; cbn [active] in Hin; try done;
      (eapply elem_of_submseteq; [exact Hin|apply submseteq_delete]).
  - destruct Hx as [Hpos Hm]. apply reload_sound in H as (_ & _ & _ & Ha); [|done..]. rewrite Ha in Hin.
    apply list_elem_of_fmap in Hin as (y & Ey & Hy). exists l, s, env, now, cached, [], d1.
    split_and!; [done|constructor|done|]. apply list_elem_of_fmap. exists y. split; [|done].
    unfold unregistered in Ey. by injection Ey as -> _.
Qed.
End LoopSound.


(** The default arguments of the configuration file are applied once, at start: after a
    reload no test has any. *)
Theorem reload_forgets_default_arguments cached gettimeofday event_add name_table test_dir ampname signal env d d' :
  (forall evs ev, event_add evs ev ≡ₚ ev :: evs) -> 0 < signal -> modules_ok env ->
  reload cached gettimeofday event_add name_table test_dir ampname signal env d = Ok (Some d') ->
  forall t, t ∈ tests d' -> server_params (reg t) = None /\ client_params t = None.
Proof.
  intros Hperm Hs Hm H t Ht. apply reload_sound in H as (_ & _ & Hd & _); [|done..]. rewrite Hd in Ht.
  apply registered_def in Ht as (m & _ & _ & H1 & H2). done.
Qed.

(** ** Names *)

(** read_nametable_dir(): for each file that glob() finds, whether libunbound took it, and
    its content. *)
Fixpoint read_nametable_files (getaddrinfo : cstr -> option (list addrinfo)) (name_table : list nametable_t)
    (l : list (bool * option cstr)) : res (list nametable_t) :=
  match l with
  | [] => Ok name_table
  | (true, _) :: l => read_nametable_files getaddrinfo name_table l
  | (false, contents) :: l =>
      t ← read_nametable_file getaddrinfo name_table contents; read_nametable_files getaddrinfo t l
  end.
Definition read_nametable_dir (getaddrinfo : cstr -> option (list addrinfo)) (name_table : list nametable_t)
    (directory : cstr) (l : list (bool * option cstr)) : res (list nametable_t) :=
  _ ← c_assert (length directory <? MAX_PATH_LENGTH - 6)%nat;
  read_nametable_files getaddrinfo name_table l.
Definition NAMETABLE_DIR : cstr := AMP_CONFIG_DIR ++ str "/nametables".

(** ** Starting *)

(** What happened, as far as the order matters. *)
Inductive milestone : Set :=
| ConfigRead | PidfileCreated | CertificateReady | BrokerConfigured | PrivilegesDropped
| RemoteSchedules | LocalSocket (path : cstr) | ControlPort | TestsLoaded.

Record state_t : Set := {
  b_machine : machine; b_world : world; b_creds : creds; b_pid : pid_state; b_done : list milestone
}.
(** A step of main(): it goes on with a result, or exits with a status. *)
Definition boot (A : Type) : Type := state_t -> res ((A + Z) * state_t).
#[export] Instance boot_ret : MRet boot := fun A a s => Ok (inl a, s).
#[export] Instance boot_bind : MBind boot := fun A B k m s =>
  match m s with
  | Ok (inl a, s) => k a s
  | Ok (inr status, s) => Ok (inr status, s)
  | Fault f => Fault f
  end.
Definition exit {A} (status : Z) : boot A := fun s => Ok (inr status, s).
(** exit(EXIT_FAILURE) unless a condition holds. *)
Definition need (ok : bool) : boot unit := if ok then mret tt else exit EXIT_FAILURE.
Definition milestone_ (m : milestone) : boot unit := fun s =>
  Ok (inl tt, {| b_machine := b_machine s; b_world := b_world s; b_creds := b_creds s; b_pid := b_pid s;
                 b_done := b_done s ++ [m] |}).
Definition on_disk {A} (m : io A) : boot A := fun s =>
  match m (b_machine s) with
  | Ok (a, w) => Ok (inl a, {| b_machine := w; b_world := b_world s; b_creds := b_creds s; b_pid := b_pid s;
                               b_done := b_done s |})
  | Fault f => Fault f
  end.
Definition on_sockets {A} (m : sys A) : boot A := fun s =>
  match m (b_world s) with
  | Ok (a, w) => Ok (inl a, {| b_machine := b_machine s; b_world := w; b_creds := b_creds s; b_pid := b_pid s;
                               b_done := b_done s |})
  | Fault f => Fault f
  end.
Definition on_creds (f : creds -> Z * creds) : boot Z := fun s =>
  let '(r, c) := f (b_creds s) in
  Ok (inl r, {| b_machine := b_machine s; b_world := b_world s; b_creds := c; b_pid := b_pid s; b_done := b_done s |}).
Definition on_pidfile (f : pid_state -> Z * pid_state) : boot Z := fun s =>
  let '(r, p) := f (b_pid s) in
  Ok (inl r, {| b_machine := b_machine s; b_world := b_world s; b_creds := b_creds s; b_pid := p; b_done := b_done s |}).
Definition pure {A} (m : res A) : boot A := fun s => match m with Ok a => Ok (inl a, s) | Fault f => Fault f end.

(** What the host and the libraries answer. *)
Class Host := {
  h_daemon : bool;
  h_rabbitmqctl : stat_result; h_cfg_parse : cfg_t -> cstr -> parsed;
  h_gethostname : option cstr; h_canonical : cstr -> Z * list (option cstr);
  h_pid : Z; h_pid_calls : pid_calls;
  h_ub_create : bool; h_ub_async : bool; h_ub_fwd : cstr -> bool;
  h_ssl_context : bool;
  h_adjtimex : list Z;
  h_execute : list cstr -> child; h_random : Z;
  h_user_calls : user_calls; h_getpwnam : cstr -> option passwd;
  h_setenv : bool; h_event_base : bool;
  h_there : cstr -> bool; h_unlink : cstr -> bool; h_unix_bind : Z -> bool;
  h_numeric : cstr -> option sockaddr; h_names : cstr -> option (list addrinfo);
  h_nametables : cstr -> list (bool * option cstr);
  h_time : timeval; h_event_add : list event -> event -> list event; h_test_dir : cstr; h_run_dir : cstr
}.

(** What main() has when it gives control to libevent. *)
Record running : Type := {
  r_cfg : cfg_t; r_vars : amp_global; r_meta : meta_t; r_ssl : ssl_opt; r_control : control_t; r_control_port : Z;
  r_nssock : Z; r_asnsock : Z; r_remote : option fetch_schedule_item; r_names : list nametable_t; r_daemon : daemon
}.

Section Main.
Context `{C : Crypto} `{K : Kernel} `{H : Host}.

Definition read_options (args : list getopt_t) : boot options :=
  match parse_options h_daemon args initial_options with inl o => mret o | inr status => exit status end.

Definition AMP_CLIENT_CONFIG_DIR : cstr := AMP_CONFIG_DIR ++ str "/clients".
Definition read_config (o : options) : boot (cfg_t * amp_global) :=
  r ← pure (parse_config h_rabbitmqctl h_cfg_parse h_gethostname h_canonical
              (default (AMP_CLIENT_CONFIG_DIR ++ str "/default.conf") (config_file o)));
  match r with
  | None => exit EXIT_FAILURE
  | Some r => _ ← milestone_ ConfigRead; mret r
  end.

Definition claim_pidfile (o : options) : boot unit :=
  match pidfile o with
  | None => mret tt
  | Some _ =>
      r ← on_pidfile (create_pidfile h_pid_calls h_pid);
      _ ← need (negb (r <? 0));
      milestone_ PidfileCreated
  end.

Definition synchronise (cfg : cfg_t) : boot unit :=
  if should_wait_for_clock_sync cfg then
    r ← pure (wait_for_clock_sync h_adjtimex);
    match r with
    | None => exit EXIT_FAILURE
    | Some n => on_disk (fun w => Ok (tt, with_log w (log w ++ replicate n (Slept 30))))
    end
  else mret tt.

(** From the locations of the keys to the SSL context. *)
Definition certify (cfg : cfg_t) (vars : amp_global) : boot ssl_opt :=
  ok ← on_disk works;
  _ ← need ok;
  r ← on_disk (initialise_ssl (with_keys_dir (g_amqp_ssl vars) (AMP_KEYS_DIR ++ str "/" ++ g_ampname vars))
                 (Some (g_collector vars)));
  let '(ret, o) := r in
  _ ← need (negb (ret <? 0));
  _ ← synchronise cfg;
  match o_cacert o, o_key o, o_cert o with
  | Some ca, Some k, Some c =>
      r ← on_disk (get_certificate {| Certs.cacert := ca; Certs.key := k; Certs.cert := c; keys_dir := o_keys_dir o |}
                     (g_ampname vars) (g_collector vars) (negb (should_wait_for_cert cfg =? 0)));
      _ ← need (r =? 0);
      _ ← need h_ssl_context;
      _ ← milestone_ CertificateReady;
      mret o
  | _, _, _ => pure (Fault NullDeref)
  end.

Definition configure_broker (cfg : cfg_t) (vars : amp_global) (o : ssl_opt) : boot unit :=
  if should_config_rabbit cfg then
    _ ← need (negb (setup_rabbitmq_user h_execute (g_ampname vars) <? 0));
    r ← pure (setup_rabbitmq_shovel h_execute (g_ampname vars) (g_local vars) (g_collector vars) (g_port vars)
                (o_cacert o) (o_cert o) (o_key o) (g_exchange vars) (g_routingkey vars) (g_prefetch vars) h_random);
    _ ← need (negb (r <? 0));
    milestone_ BrokerConfigured
  else mret tt.

Definition drop_privileges : boot unit :=
  r ← on_creds (change_user h_user_calls (h_getpwnam (str "amplet")));
  _ ← need (negb (r <? 0));
  milestone_ PrivilegesDropped.

Definition fetch_schedules (o : options) (cfg : cfg_t) (vars : amp_global) : boot (option fetch_schedule_item) :=
  if fetch_remote o then
    f ← on_disk (get_remote_schedule_config cfg (g_ampname vars));
    match f with
    | None => mret None
    | Some f =>
        r ← on_disk (enable_remote_schedule_fetch (Some f));
        _ ← need (negb (r <? 0));
        _ ← milestone_ RemoteSchedules;
        mret (Some f)
    end
  else mret None.

Definition open_local_socket (path : cstr) : boot Z :=
  r ← on_sockets (initialise_local_socket (h_there path) (h_unlink path) h_unix_bind);
  _ ← need (negb (r <? 0));
  _ ← milestone_ (LocalSocket path);
  mret r.

(** get_control_config() and the control socket; a failure to open it is only logged. *)
Definition open_control (cfg : cfg_t) (meta : meta_t) : boot control_t :=
  match get_control_config cfg meta with
  | None => pure (Fault NullDeref)
  | Some c =>
      if negb (ctl_enabled c =? 0) then
        r ← on_sockets (initialise_control_socket h_numeric (Some (ctl c)));
        if fst r <? 0 then mret c else _ ← milestone_ ControlPort; mret c
      else mret c
  end.

(** The event base after start: the timer of the remote schedules, the signals and the
    local sockets. *)
Definition first_events (f : option fetch_schedule_item) : list event :=
  (match f ≫= schedule_url with Some u => [FetchSchedule u] | None => [] end) ++ replicate 6 OtherEvent.

Definition load_first (cfg : cfg_t) (vars : amp_global) (f : option fetch_schedule_item) (names : list nametable_t)
    (env : load_env) : boot daemon :=
  r ← pure (load_tests_and_schedules None h_time h_event_add names h_test_dir (g_ampname vars) env
              {| tests := []; vectors := ∅; events := first_events f; active := [] |});
  match r with
  | None => exit EXIT_FAILURE
  | Some d =>
      _ ← milestone_ TestsLoaded;
      ts ← pure (get_default_test_args cfg (tests d));
      mret {| tests := ts; vectors := vectors d; events := Daemon.events d; active := active d |}
  end.

(** main() up to event_base_dispatch(). *)
Definition start (args : list getopt_t) (env : load_env) : boot (options * running) :=
  o ← read_options args;
  cv ← read_config o;
  let '(cfg, vars) := cv in
  _ ← claim_pidfile o;
  let meta := get_interface_config cfg (Boot.meta o) in
  _ ← need (bool_decide (is_Some (get_dns_context_config h_ub_create h_ub_async h_ub_fwd cfg meta)));
  ssl ← certify cfg vars;
  _ ← configure_broker cfg vars ssl;
  _ ← drop_privileges;
  _ ← need h_setenv;
  _ ← pure (c_assert h_event_base);
  ok ← on_disk works; _ ← need ok;
  ok ← on_disk works; _ ← need ok;
  f ← fetch_schedules o cfg vars;
  ns ← open_local_socket (h_run_dir ++ str "/" ++ g_ampname vars ++ str ".sock");
  asn ← open_local_socket (h_run_dir ++ str "/" ++ g_ampname vars ++ str ".asn");
  control ← open_control cfg meta;
  names ← pure (read_nametable_dir h_names [] NAMETABLE_DIR (h_nametables NAMETABLE_DIR));
  let mine := client_dir NAMETABLE_DIR (g_ampname vars) in
  names ← pure (read_nametable_dir h_names names mine (h_nametables mine));
  d ← load_first cfg vars f names env;
  mret (o, {| r_cfg := cfg; r_vars := vars; r_meta := meta; r_ssl := ssl; r_control := control;
              r_control_port := atoi (ctl_port control); r_nssock := ns; r_asnsock := asn; r_remote := f;
              r_names := names; r_daemon := d |}).
End Main.

(** ** Running and shutting down *)

(** free() of a string that may point into argv or to a literal. *)
Definition free_string (from_command_line : bool) (s : option cstr) : res unit :=
  match s with
  | None => Ok tt
  | Some _ => if from_command_line then Fault BadFree else Ok tt
  end.
(** free_local_meta_vars(): what the command line has set was not copied. *)
Definition free_local_meta_vars (command_line meta : meta_t) : res unit :=
  _ ← free_string (is_set (iface command_line)) (iface meta);
  _ ← free_string (is_set (m_sourcev4 command_line)) (m_sourcev4 meta);
  free_string (is_set (m_sourcev6 command_line)) (m_sourcev6 meta).

(** After event_base_dispatch(); unlink() of the pidfile may fail, which is only logged. *)
Definition shutdown (unlink_ok : bool) (o : options) (r : running) (d : daemon) : boot Z :=
  _ ← pure (clear_test_schedule true (vectors d) (Daemon.events d));
  _ ← pure (free_local_meta_vars (Boot.meta o) (r_meta r));
  _ ← on_sockets (close (r_asnsock r));
  _ ← on_sockets (close (r_nssock r));
  _ ← (match pidfile o with
       | None => mret 0
       | Some _ => on_pidfile (fun p => (0, {| content := if unlink_ok then None else content p; locked_by := locked_by p |}))
       end);
  mret EXIT_SUCCESS.

Section WholeMain.
Context `{C : Crypto} `{K : Kernel} `{H : Host}.
(** main(): what happens in the event loop comes in between; the processes of the tests are
    those of Run.v. *)
Definition main (args : list getopt_t) (env : load_env) (l : list happening) (unlink_ok : bool) : boot Z :=
  started ← start args env;
  let '(o, r) := started in
  d ← pure (happens h_event_add (r_names r) h_test_dir (g_ampname (r_vars r)) l (r_daemon r));
  match d with
  | None => exit EXIT_FAILURE
  | Some d => shutdown unlink_ok o r d
  end.
End WholeMain.

(** ** The order of starting *)

(** Whatever a step does, until it faults: results and exits. *)
Definition bpost {A} (m : boot A) (s : state_t) (Q : A -> state_t -> Prop) (E : state_t -> Prop) : Prop :=
  match m s with Ok (inl a, s') => Q a s' | Ok (inr _, s') => E s' | Fault _ => True end.

Lemma bpost_bind {A B} (m : boot A) (k : A -> boot B) s Q E :
  bpost m s (fun a s => bpost (k a) s Q E) E -> bpost (m ≫= k) s Q E.
Proof. unfold bpost, mbind, boot_bind. by destruct (m s) as [[[a|st] s']|]. Qed.
Lemma bpost_ret {A} (a : A) s (Q : A -> state_t -> Prop) E : Q a s -> bpost (mret a) s Q E.
Proof. done. Qed.
Lemma bpost_exit {A} st s (Q : A -> state_t -> Prop) (E : state_t -> Prop) : E s -> bpost (exit st) s Q E.
Proof. done. Qed.
Lemma bpost_need b s (Q : unit -> state_t -> Prop) (E : state_t -> Prop) :
  (b = true -> Q tt s) -> E s -> bpost (need b) s Q E.
Proof. destruct b; cbn; auto. Qed.
Lemma bpost_mono {A} (m : boot A) s (P Q : A -> state_t -> Prop) (D E : state_t -> Prop) :
  bpost m s P D -> (forall a s, P a s -> Q a s) -> (forall s, D s -> E s) -> bpost m s Q E.
Proof. unfold bpost. destruct (m s) as [[[a|st] s']|]; auto. Qed.
Lemma bpost_pure {A} (m : res A) s (Q : A -> state_t -> Prop) E : (forall a, m = Ok a -> Q a s) -> bpost (pure m) s Q E.
Proof. unfold bpost, pure. destruct m; auto. Qed.
(** Steps on the components leave the list of what was done alone. *)
Definition same_done (s s' : state_t) : Prop := b_done s' = b_done s /\ b_creds s' = b_creds s.
Lemma bpost_disk {A} (m : io A) s (Q : A -> state_t -> Prop) E :
  (forall a s', same_done s s' -> m (b_machine s) = Ok (a, b_machine s') -> Q a s') -> bpost (on_disk m) s Q E.
Proof. unfold bpost, on_disk. destruct (m (b_machine s)) as [[a w]|]; [|done]. intros HQ. by apply HQ. Qed.
Lemma bpost_sockets {A} (m : sys A) s (Q : A -> state_t -> Prop) E :
  (forall a s', same_done s s' -> m (b_world s) = Ok (a, b_world s') -> Q a s') -> bpost (on_sockets m) s Q E.
Proof. unfold bpost, on_sockets. destruct (m (b_world s)) as [[a w]|]; [|done]. intros HQ. by apply HQ. Qed.
Lemma bpost_pidfile f s (Q : Z -> state_t -> Prop) E :
  (forall a s', same_done s s' -> Q a s') -> bpost (on_pidfile f) s Q E.
Proof. unfold bpost, on_pidfile. destruct (f (b_pid s)). intros HQ. by apply HQ. Qed.
Lemma bpost_creds f s (Q : Z -> state_t -> Prop) E :
  (forall s', b_done s' = b_done s -> b_creds s' = snd (f (b_creds s)) -> Q (fst (f (b_creds s))) s') ->
  bpost (on_creds f) s Q E.
Proof. unfold bpost, on_creds. destruct (f (b_creds s)). intros HQ. by apply HQ. Qed.
Lemma bpost_milestone m s (Q : unit -> state_t -> Prop) E :
  (forall s', b_done s' = b_done s ++ [m] -> b_creds s' = b_creds s -> Q tt s') -> bpost (milestone_ m) s Q E.
Proof. intros HQ. by apply HQ. Qed.

Definition early (m : milestone) : Prop := m = ConfigRead \/ m = PidfileCreated.
Definition late (m : milestone) : Prop :=
  match m with RemoteSchedules | LocalSocket _ | ControlPort | TestsLoaded => True | _ => False end.
Definition broker_part (b : list milestone) : Prop := b = [] \/ b = [BrokerConfigured].

(** The lists of milestones before the certificate, before and after dropping privileges. *)
Definition phase1 (l : list milestone) : Prop := Forall early l.
Definition phase2 (l : list milestone) : Prop := exists a b, l = a ++ CertificateReady :: b /\ phase1 a /\ broker_part b.
Definition phase3 (l : list milestone) : Prop :=
  exists a b c, l = a ++ CertificateReady :: b ++ PrivilegesDropped :: c /\ phase1 a /\ broker_part b /\ Forall late c.
Definition in_order (l : list milestone) : Prop := phase1 l \/ phase2 l \/ phase3 l.

Lemma phase1_snoc l m : phase1 l -> early m -> phase1 (l ++ [m]).
Proof. intros. apply Forall_app. by split; [|constructor]. Qed.
Lemma phase3_snoc l m : phase3 l -> late m -> phase3 (l ++ [m]).
Proof.
  intros (a & b & c & -> & Ha & Hb & Hc) Hm. exists a, b, (c ++ [m]). split_and!; [|done..|].
  - by rewrite <- !app_assoc; cbn; rewrite <- app_assoc.
  - apply Forall_app. by split; [|constructor].
Qed.
Lemma phase3_elem l m : phase3 l -> late m -> m ∈ l ->
  exists pre post, l = pre ++ m :: post /\ CertificateReady ∈ pre /\ PrivilegesDropped ∈ pre.
Proof.
  intros (a & b & c & -> & Ha & Hb & Hc) Hm Hin.
  assert (Hcin : m ∈ c).
  { rewrite !elem_of_app, !elem_of_cons, elem_of_app, elem_of_cons in Hin.
    destruct Hin as [Hin|[->|[Hin|[->|Hin]]]]; try done.
    - eapply Forall_forall in Ha; [|exact Hin]. by destruct Ha as [-> | ->].
    - destruct Hb as [-> | ->]; [by apply elem_of_nil in Hin|]. apply list_elem_of_singleton in Hin as ->. done. }
  apply list_elem_of_split in Hcin as (c1 & c2 & ->).
  exists (a ++ CertificateReady :: b ++ PrivilegesDropped :: c1), c2. split_and!.
  - by rewrite <- !app_assoc; cbn; rewrite <- app_assoc.
  - set_solver.
  - set_solver.
Qed.

Section Order.
Context `{C : Crypto} `{K : Kernel} `{H : Host}.
#[local] Abbreviation E := (fun s => in_order (b_done s)).

(** A step that runs in a phase and stays in it. *)
Ltac bstep :=
  match goal with
  | |- bpost (_ ≫= _) _ _ _ => apply bpost_bind
  | |- bpost (mret _) _ _ _ => apply bpost_ret
  | |- bpost (exit _) _ _ _ => apply bpost_exit
  | |- bpost (need _) _ _ _ => apply bpost_need; [intros ?|]
  | |- bpost (pure _) _ _ _ => apply bpost_pure; intros ? ?
  | |- bpost (on_disk _) _ _ _ => apply bpost_disk; intros ? ? [? ?] ?
  | |- bpost (on_sockets _) _ _ _ => apply bpost_sockets; intros ? ? [? ?] ?
  | |- bpost (on_pidfile _) _ _ _ => apply bpost_pidfile; intros ? ? [? ?]
  | |- bpost (milestone_ _) _ _ _ => apply bpost_milestone; intros ? ? ?
  | |- bpost (if ?b then _ else _) _ _ _ => destruct b eqn:?
  | |- bpost (match ?x with _ => _ end) _ _ _ => destruct x eqn:?
  end; cbn beta.

Lemma certify_phase cfg vars s c :
  phase1 (b_done s) -> b_creds s = c ->
  bpost (certify cfg vars) s
    (fun _ s => (exists a, b_done s = a ++ [CertificateReady] /\ phase1 a) /\ b_creds s = c) E.
Proof.
  intros Hp Hc.
  assert (Hx : forall s', b_done s' = b_done s -> in_order (b_done s')) by (intros s' ->; by left).
  unfold certify, synchronise. repeat bstep; try (apply Hx; congruence); try done.
  all: split; [|congruence]; exists (b_done s); split; [congruence|done].
Qed.

Lemma broker_phase cfg vars o s c a :
  b_done s = a ++ [CertificateReady] -> phase1 a -> b_creds s = c ->
  bpost (configure_broker cfg vars o) s (fun _ s => phase2 (b_done s) /\ b_creds s = c) E.
Proof.
  intros Hd Ha Hc. assert (Hx : phase2 (b_done s)) by (exists a, []; split_and!; [done..|by left]).
  unfold configure_broker. repeat bstep; try done; try (by right; left).
  split; [|congruence]. exists a, [BrokerConfigured]. split_and!; [|done|by right].
  match goal with He : b_done _ = _ ++ [BrokerConfigured] |- _ => rewrite He, Hd end. by rewrite <- app_assoc.
Qed.

(** The credentials after change_user() worked. *)
Definition dropped_from (c c' : creds) : Prop :=
  exists r, change_user h_user_calls (h_getpwnam (str "amplet")) c = (r, c') /\ 0 <= r.
Lemma drop_phase s c :
  phase2 (b_done s) -> b_creds s = c ->
  bpost drop_privileges s (fun _ s => phase3 (b_done s) /\ dropped_from c (b_creds s)) E.
Proof.
  intros Hp Hc. unfold drop_privileges. apply bpost_bind, bpost_creds. intros s1 Hd Hc1. apply bpost_bind.
  apply bpost_need; [|cbn; rewrite Hd; by right; left]. intros Hr. apply bpost_milestone. intros s2 Hd2 Hc2.
  split.
  - destruct Hp as (a & b & Hl & Ha & Hb). exists a, b, []. rewrite Hd2, Hd, Hl. split_and!; try done.
    by rewrite <- app_assoc.
  - exists (fst (change_user h_user_calls (h_getpwnam (str "amplet")) c)). rewrite Hc2, Hc1, Hc.
    split; [apply surjective_pairing|]. rewrite Hc in Hr. apply negb_true_iff, Z.ltb_ge in Hr. done.
Qed.

(** The steps after that. *)
Ltac late_step Hp :=
  repeat bstep; try done; try (by right; right; congruence); try (split; congruence);
  try (split; [|congruence]); repeat match goal with He : b_done _ = _ |- _ => rewrite He end;
  try (by right; right); try (by apply phase3_snoc).

Section Late.
Context (s : state_t) (c : creds) (Hp : phase3 (b_done s)) (Hc : b_creds s = c).
#[local] Abbreviation stays_late m := (bpost m s (fun _ s => phase3 (b_done s) /\ b_creds s = c) E).
Lemma fetch_phase o cfg vars : stays_late (fetch_schedules o cfg vars).
Proof using Hp Hc. unfold fetch_schedules. late_step Hp. Qed.
Lemma local_phase path : stays_late (open_local_socket path).
Proof using Hp Hc. unfold open_local_socket. late_step Hp. Qed.
Lemma control_phase cfg meta : stays_late (open_control cfg meta).
Proof using Hp Hc. unfold open_control. late_step Hp. Qed.
Lemma load_phase cfg vars f names env :
  bpost (load_first cfg vars f names env) s
    (fun _ s => phase3 (b_done s) /\ b_creds s = c /\ TestsLoaded ∈ b_done s) E.
Proof using Hp Hc.
  unfold load_first. late_step Hp. split; [by apply phase3_snoc|]. split; [congruence|]. set_solver.
Qed.
End Late.

Lemma start_phases args env s :
  phase1 (b_done s) ->
  bpost (start args env) s
    (fun _ s' => phase3 (b_done s') /\ dropped_from (b_creds s) (b_creds s') /\ TestsLoaded ∈ b_done s') E.
Proof.
  intros Hp. unfold start. remember (b_creds s) as c eqn:Hc0.
  assert (HE : forall s', phase1 (b_done s') -> in_order (b_done s')) by (by left).
  apply bpost_bind. unfold read_options. destruct (parse_options _ _ _) as [o|]; [|apply bpost_exit; auto].
  apply bpost_bind. apply (bpost_mono _ _ (fun _ s' => phase1 (b_done s') /\ b_creds s' = c) _ E E); [|clear s Hp Hc0|done].
  { unfold read_config. repeat bstep; auto.
    match goal with He : b_done _ = _ |- _ => rewrite He end. split; [|congruence].
    apply phase1_snoc; [done|by left]. }
  intros [cfg vars] s [Hp Hc]. apply bpost_bind.
  apply (bpost_mono _ _ (fun _ s' => phase1 (b_done s') /\ b_creds s' = c) _ E E); [|clear s Hp Hc|done].
  { unfold claim_pidfile. repeat bstep; auto.
    - match goal with He : b_done ?x = _ ++ _ |- _ => rewrite He end. split; [|congruence].
      apply phase1_snoc; [congruence|by right].
    - apply HE. congruence. }
  intros _ s [Hp Hc]. cbn zeta. apply bpost_bind, bpost_need; [intros _|by apply HE].
  apply bpost_bind. eapply bpost_mono; [by apply certify_phase| |done]. clear s Hp Hc. intros ssl s [(a & Ha & Hp) Hc].
  apply bpost_bind. eapply bpost_mono; [by eapply broker_phase| |done]. clear s a Ha Hp Hc. intros _ s [Hp Hc].
  apply bpost_bind. eapply bpost_mono; [by apply drop_phase| |done]. clear s Hp Hc. intros _ s [Hp Hc].
  assert (HE3 : forall s', b_done s' = b_done s -> in_order (b_done s')) by (intros s' ->; by right; right).
  apply bpost_bind, bpost_need; [intros _|by apply HE3]. apply bpost_bind, bpost_pure. intros _ _.
  apply bpost_bind, bpost_disk. intros ok1 s1 [D1 C1] _. apply bpost_bind, bpost_need; [intros _|by apply HE3].
  apply bpost_bind, bpost_disk. intros ok2 s2 [D2 C2] _. apply bpost_bind, bpost_need; [intros _|apply HE3; congruence].
  assert (Hp2 : phase3 (b_done s2)) by congruence. assert (Hc2 : dropped_from c (b_creds s2)) by congruence.
  clear s s1 Hp Hc HE3 D1 C1 D2 C2. revert s2 Hp2 Hc2.
  assert (Hseq : forall A B (m : boot A) (k : A -> boot B) Q s,
    bpost m s (fun _ s' => phase3 (b_done s') /\ b_creds s' = b_creds s) E -> dropped_from c (b_creds s) ->
    (forall a s', phase3 (b_done s') -> dropped_from c (b_creds s') -> bpost (k a) s' Q E) ->
    bpost (m ≫= k) s Q E).
  { intros A B m k Q s Hm Hd Hk. apply bpost_bind. eapply bpost_mono; [exact Hm| |done].
    intros a s' [Hp Hc]. apply Hk; [done|by rewrite Hc]. }
  intros s Hp Hc. eapply Hseq; [by apply fetch_phase|done|]. clear s Hp Hc. intros f s Hp Hc.
  eapply Hseq; [by apply local_phase|done|]. clear s Hp Hc. intros ns s Hp Hc.
  eapply Hseq; [by apply local_phase|done|]. clear s Hp Hc. intros asn s Hp Hc.
  eapply Hseq; [by apply control_phase|done|]. clear s Hp Hc. intros ctl s Hp Hc.
  apply bpost_bind, bpost_pure. intros n1 _. apply bpost_bind, bpost_pure. intros n2 _.
  apply bpost_bind. eapply bpost_mono; [by apply load_phase| |done]. intros d s' (Hp' & Hc' & Ht).
  apply bpost_ret. rewrite Hc'. done.
Qed.
End Order.


(** The certificate that main() waits for is on disk with its key. *)
Theorem certified_has_key `{Crypto, !CryptoLaws H, Host} cfg vars s o s' :
  certify cfg vars s = Ok (inl o, s') ->
  exists k c, o_key o = Some k /\ o_cert o = Some c /\
    (k <> c -> present k (b_machine s') /\ present c (b_machine s')).
Proof.
  intros Hs.
  assert (Hb : bpost (certify cfg vars) s (fun o s' => exists k c, o_key o = Some k /\ o_cert o = Some c /\
    (k <> c -> present k (b_machine s') /\ present c (b_machine s'))) (fun _ => True)).
  { unfold certify. apply bpost_bind, bpost_disk. intros ok s1 _ _. apply bpost_bind, bpost_need; [intros _|done].
    apply bpost_bind, bpost_disk. intros [ret o1] s2 _ _. apply bpost_bind, bpost_need; [intros _|done].
    apply bpost_bind. eapply (bpost_mono _ _ (fun _ _ => True) _ (fun _ => True)); [|clear s2|done].
    { unfold bpost. by destruct (synchronise cfg s2) as [[[] ]|]. }
    intros _ s3 _. destruct (o_cacert o1) as [ca|], (o_key o1) as [k|] eqn:Ek, (o_cert o1) as [c|] eqn:Ec; try done.
    apply bpost_bind, bpost_disk. intros r s4 _ E. apply bpost_bind, bpost_need; [intros Hr|done].
    apply bpost_bind, bpost_need; [intros _|done]. apply bpost_bind. intros. cbn. exists k, c. split_and!; [done..|].
    intros Hne. apply Z.eqb_eq in Hr. subst r.
    pose proof (get_certificate_yields {| Certs.cacert := ca; Certs.key := k; Certs.cert := c; keys_dir := o_keys_dir o1 |}
      (g_ampname vars) (g_collector vars) (negb (should_wait_for_cert cfg =? 0)) Hne (b_machine s3)) as Hy.
    by apply (post_Ok _ _ _ _ _ Hy E). }
  unfold bpost in Hb. by rewrite Hs in Hb.
Qed.

(** Shutting down.  When the scheduled tests own their argument vectors, shutdown()
    clears the schedule without freeing anything twice, closes exactly the two local
    sockets and removes the pidfile; but only when no interface or source address was
    given on the command line: those point into argv (or to a literal), and free() of
    them is undefined. *)
Theorem shutdown_frees o r d s :
  r_meta r = get_interface_config (r_cfg r) (Boot.meta o) ->
  let ps := omap ev_params (Daemon.events d) in
  NoDup ps -> Forall (fun p => is_Some (vectors d !! p)) ps ->
  let m := Boot.meta o in
  if is_set (iface m) || is_set (m_sourcev4 m) || is_set (m_sourcev6 m)
  then shutdown true o r d s = Fault BadFree
  else exists s', shutdown true o r d s = Ok (inl EXIT_SUCCESS, s') /\
    fds (b_world s') = filter (fun x => x <> r_nssock r) (filter (fun x => x <> r_asnsock r) (fds (b_world s))) /\
    (is_Some (pidfile o) -> content (b_pid s') = None).
Proof.
  intros Hm ps Hnd Hall m. unfold shutdown.
  assert (Hc : clear_test_schedule true (vectors d) (Daemon.events d)
    = Ok (delete_all ps (vectors d), filter (stays true) (Daemon.events d))) by (by apply clear_test_schedule_spec).
  unfold mbind, boot_bind, pure at 1. rewrite Hc. unfold free_local_meta_vars. rewrite Hm. subst m.
  unfold get_interface_config. cbn [iface m_sourcev4 m_sourcev6].
  destruct (iface (Boot.meta o)) as [i|]; [done|]. cbn [is_set]. cbn [bool_decide].
  destruct (m_sourcev4 (Boot.meta o)) as [a4|]; [by destruct (o_interface (r_cfg r))|].
  destruct (m_sourcev6 (Boot.meta o)) as [a6|];
    [by destruct (o_interface (r_cfg r)), (o_ipv4 (r_cfg r))|].
  cbn. assert (Hf : forall x : option cstr, free_string false x = Ok tt) by (by intros []).
  rewrite !Hf. cbn.
  destruct (pidfile o); eexists; (split; [reflexivity|]); cbn; (split; [done|]); [done|by intros [? ?]].
Qed.

(** ** Examples *)

Definition plain_module (i : Z) (t : test_t) : module :=
  {| id := i; def := t; max_duration := 60; server_callback := false; server_params := None |}.
(** The schedule without arguments: tests that were split share theirs, and a reload frees
    them twice. *)
Definition plain_schedule : yaml_document := <[5 := YMapping [(10, 16); (12, 17)]]> sample_schedule.
Definition sample_env : load_env := {|
  found := [NoSymbol; TestInfo (plain_module 1 t_icmp); TestInfo (plain_module 2 t_throughput)];
  global_schedules := [Some plain_schedule]; client_schedules := [None] |}.
Definition fewer_env : load_env := {|
  found := [TestInfo (plain_module 1 t_icmp)]; global_schedules := [Some plain_schedule]; client_schedules := [] |}.
Lemma sample_env_ok : modules_ok sample_env /\ modules_ok fewer_env.
Proof.
  split; intros m Hm; unfold found, sample_env, fewer_env in Hm; repeat (apply elem_of_cons in Hm as [Hm|Hm];
    [try discriminate Hm; injection Hm as ->; cbn; lia|]); by apply elem_of_nil in Hm.
Qed.

Definition load_sample : res (option daemon) :=
  load_tests_and_schedules None noon add_front [] (str "/usr/lib/amplet2") (str "probe") sample_env
    {| tests := []; vectors := ∅; events := [FetchSchedule (str "http://amp"); OtherEvent];
       active := [] |}.
(** The schedule is fetched, a throughput test is due, and while it is in the active queue a
    reload finds its module gone. *)
Definition a_day : list happening :=
  [Expires 3; Runs 0 noon None true; Expires 1; Signal 10 fewer_env noon None; Signal 1 sample_env noon None].
Definition after_day : res (option daemon) :=
  d ← load_sample;
  match d with
  | None => Ok None
  | Some d => happens add_front [] (str "/usr/lib/amplet2") (str "probe") a_day d
  end.
(** The throughput test is still there, and reads a test that was freed when it runs. *)
Example stale_test_faults :
  match after_day with
  | Ok (Some d) =>
      (fun x : event * bool => (match fst x with RunTest i _ => test_name (test i) | _ => [] end, snd x)) <$> active d
        = [(str "throughput", false)] /\
      happen add_front [] (str "/usr/lib/amplet2") (str "probe") (Runs 0 noon None true) d = Fault UseAfterFree
  | _ => False
  end.
Proof. vm_compute. done. Qed.
Definition sample_host : Host := {|
  h_daemon := true; h_rabbitmqctl := StatMissing; h_cfg_parse := fun _ _ => CFG_SUCCESS sample_cfg;
  h_gethostname := Some (str "probe"); h_canonical := no_names; h_pid := 100;
  h_pid_calls := {| open_ok := true; lock_error := false; truncate_ok := true; write_ok := true |};
  h_ub_create := true; h_ub_async := true; h_ub_fwd := fun _ => true; h_ssl_context := true; h_adjtimex := [0];
  h_execute := fun _ => Exited 0; h_random := 0; h_user_calls := Boot.all_work;
  h_getpwnam := fun _ => Some {| pw_uid := 999; pw_gid := 998 |}; h_setenv := true; h_event_base := true;
  h_there := fun _ => true; h_unlink := fun _ => true; h_unix_bind := fun _ => true;
  h_numeric := fun _ => Some (SockIn 0); h_names := fun _ => None; h_nametables := fun _ => [];
  h_time := noon; h_event_add := add_front; h_test_dir := str "/usr/lib/amplet2"; h_run_dir := str "/var/run" |}.
Definition easy_kernel : Kernel := {|
  k_socket := fun _ _ => true; k_setsockopt := fun _ => SetDone; k_getsockopt := fun s => Some (value s);
  k_bind_device := fun _ => true; k_bind := fun _ _ _ => None; k_listen := fun _ => None; k_accept := fun _ => true;
  k_connect := fun _ _ => true; k_getsockname := fun _ => SockIn 0; k_v6only := fun _ => true |}.
Definition a_file : file := {| bytes := [1]; mtime := 1; mode := 384 |}.
Definition installed : state_t := {|
  b_machine := {| files := {[ str "/ca.pem" := a_file; AMP_KEYS_DIR ++ str "/probe/key.pem" := a_file;
                              AMP_KEYS_DIR ++ str "/probe/amp.example.org.cert" := a_file ]};
                  dirs := {[ SCHEDULE_DIR ++ str "/probe" ]}; clock := 1000; mask := 18; errors := [];
                  net := [document 3]; log := [] |};
  b_world := fresh_world; b_creds := root; b_pid := {| content := None; locked_by := None |}; b_done := [] |}.
Definition pid_arg : getopt_t := {| opt := "p"; optarg := Some (str "/run/amplet2.pid"); next_word := None |}.
Definition sample_start := @start toy easy_kernel sample_host [pid_arg] sample_env installed.

(** A client started with -I faults when it is told to stop. *)
Definition quiet : daemon := {| tests := []; vectors := ∅; events := [OtherEvent]; active := [] |}.
Definition with_interface : options := {|
  config_file := None; pidfile := None; fetch_remote := true; log_level_override := false; backgrounded := false;
  meta := {| iface := Some (str "eth0"); m_sourcev4 := None; m_sourcev6 := None; inter_packet_delay := 100; m_dscp := 0 |} |}.
Definition running_with (o : options) : running := {|
  r_cfg := sample_cfg;
  r_vars := {| g_ampname := str "probe"; g_collector := str "amp.example.org"; g_port := 5671; g_vialocal := 0;
               g_local := str "localhost"; g_vhost := str "/"; g_exchange := str "amp_exchange"; g_routingkey := str "test";
               g_prefetch := 1; g_ssl := 1; g_amqp_ssl := zero_ssl |};
  r_meta := get_interface_config sample_cfg (Boot.meta o); r_ssl := zero_ssl; r_control := sample_control;
  r_control_port := 8869; r_nssock := 3; r_asnsock := 4; r_remote := None; r_names := []; r_daemon := quiet |}.
Lemma shutdown_frees_witness :
  shutdown true with_interface (running_with with_interface) quiet installed = Fault BadFree /\
  exists s', shutdown true initial_options (running_with initial_options) quiet installed
    = Ok (inl EXIT_SUCCESS, s').
Proof.
  split.
  - apply (@shutdown_frees with_interface (running_with with_interface) quiet installed).
    + reflexivity.
    + constructor.
    + constructor.
  - destruct (@shutdown_frees initial_options (running_with initial_options) quiet installed)
      as (s' & Hs & _).
    + reflexivity.
    + constructor.
    + constructor.
    + exists s'. exact Hs.
Defined.
