(* ===== verification/Report.v ===== *)
(** Reporting results to a message broker (src/measured/messaging.c).

    The calls of the rabbitmq client library are logged, and whether each works is given:
    [answers] has one for every call that can fail; when there are none left calls work. *)
From S2P Require Import Prelude CLib Testlib Targets Run Certs Config Boot.
#[local] Open Scope Z_scope.

(** ** Calls *)

Inductive sasl : Set := EXTERNAL (user : cstr) | PLAIN (user password : cstr).
Record message : Set := {
  exchange_name : cstr; routing_key : cstr; test_type : cstr; timestamp : Z; user_id : cstr; body : list Z
}.
Inductive amqp_call : Set :=
| NewConnection
| SslSocketNew | TcpSocketNew
| SetCacert (f : option cstr) | SetKey (cert key : option cstr) | SetVerify
| SocketOpen (host : cstr) (port : Z)
| Login (vhost : cstr) (s : sasl)
| ChannelOpen (channel : Z) | Publish (channel : Z) (m : message) | ChannelClose (channel : Z)
| ConnectionClose | DestroyConnection.
Record broker : Set := { answers : list bool; calls : list amqp_call }.

Definition amqp (A : Type) : Type := broker -> A * broker.
#[export] Instance amqp_ret : MRet amqp := fun A a b => (a, b).
#[export] Instance amqp_bind : MBind amqp := fun A B k m b => let '(a, b) := m b in k a b.
(** A call whose result is not looked at. *)
Definition do_call (c : amqp_call) : amqp unit := fun b =>
  (tt, {| answers := answers b; calls := calls b ++ [c] |}).
(** A call that may fail. *)
Definition try (c : amqp_call) : amqp bool := fun b =>
  match answers b with
  | [] => (true, {| answers := []; calls := calls b ++ [c] |})
  | a :: l => (a, {| answers := l; calls := calls b ++ [c] |})
  end.

(** ** Functions *)

Definition AMQP_LOCAL_EXCHANGE : cstr := [].
Definition AMQP_LOCAL_ROUTING_KEY : cstr := str "report".

Section Report.
Context (vars : amp_global).

Definition via_local : bool := negb (g_vialocal vars =? 0).
Definition broker_host : cstr := if via_local then g_local vars else g_collector vars.
Definition broker_port : Z := if via_local then AMQP_PORT else g_port vars.
Definition broker_vhost : cstr := if via_local then g_ampname vars else g_vhost vars.

(** connect_to_broker(): [false] is NULL. *)
Definition connect_to_broker : amqp bool :=
  _ ← do_call NewConnection;
  if negb via_local && negb (g_ssl vars =? 0) then
    ok ← try SslSocketNew;
    if negb ok then mret false
    else
      ok ← try (SetCacert (o_cacert (g_amqp_ssl vars)));
      if negb ok then mret false
      else
        ok ← try (SetKey (o_cert (g_amqp_ssl vars)) (o_key (g_amqp_ssl vars)));
        if negb ok then mret false
        else
          _ ← do_call SetVerify;
          ok ← try (SocketOpen broker_host broker_port);
          if negb ok then mret false else try (Login broker_vhost (EXTERNAL (g_ampname vars)))
  else
    ok ← try TcpSocketNew;
    if negb ok then mret false
    else
      ok ← try (SocketOpen broker_host broker_port);
      if negb ok then mret false else try (Login broker_vhost (PLAIN (g_ampname vars) (g_ampname vars))).

Definition close_broker_connection : amqp unit :=
  _ ← do_call ConnectionClose; do_call DestroyConnection.

(** The message of a result. *)
Definition message_for (test : module) (time : Z) (data : list Z) : message := {|
  exchange_name := if via_local then AMQP_LOCAL_EXCHANGE else g_exchange vars;
  routing_key := if via_local then AMQP_LOCAL_ROUTING_KEY else g_routingkey vars;
  test_type := test_name (def test); timestamp := time; user_id := g_ampname vars; body := data |}.

(** report_to_broker() in the process [pid]; channels have 16 bits. *)
Definition report_to_broker (pid : Z) (test : module) (time : Z) (data : list Z) : amqp Z :=
  let channel := u16 pid in
  conn ← connect_to_broker;
  if negb conn then mret (-1)
  else
    ok ← try (ChannelOpen channel);
    if negb ok then _ ← close_broker_connection; mret (-1)
    else
      ok ← try (Publish channel (message_for test time data));
      _ ← do_call (ChannelClose channel);
      _ ← close_broker_connection;
      mret (if ok : bool then 0 else -1).
End Report.

(** ** What is done, call by call *)

(** The calls of a connection that works. *)
Definition connecting (vars : amp_global) : list amqp_call :=
  NewConnection ::
  (if negb (via_local vars) && negb (g_ssl vars =? 0)
   then [SslSocketNew; SetCacert (o_cacert (g_amqp_ssl vars));
         SetKey (o_cert (g_amqp_ssl vars)) (o_key (g_amqp_ssl vars)); SetVerify;
         SocketOpen (broker_host vars) (broker_port vars);
         Login (broker_vhost vars) (EXTERNAL (g_ampname vars))]
   else [TcpSocketNew; SocketOpen (broker_host vars) (broker_port vars);
         Login (broker_vhost vars) (PLAIN (g_ampname vars) (g_ampname vars))]).

Lemma do_call_eq c b : do_call c b = (tt, {| answers := answers b; calls := calls b ++ [c] |}).
Proof. done. Qed.
Lemma try_eq c b : exists ok l, try c b = (ok, {| answers := l; calls := calls b ++ [c] |}) /\
  (answers b = [] -> ok = true /\ l = []).
Proof. unfold try. destruct (answers b) as [|a l]; eexists _, _; split; try done. Qed.

(** Evaluate the calls one by one. *)
Ltac calls :=
  repeat first
    [ rewrite do_call_eq; cbn [calls answers]
    | match goal with |- context [try ?c ?b] =>
        let ok := fresh "ok" in let l := fresh "l" in let E := fresh "E" in let Hl := fresh "Hl" in
        destruct (try_eq c b) as (ok & l & E & Hl); rewrite E; clear E; cbn [calls answers] in *;
        destruct ok; cbn [negb] end
    | progress (unfold mret, amqp_ret; cbn beta iota) ].

Lemma connect_calls vars b :
  let '(ok, b') := connect_to_broker vars b in
  exists done, calls b' = calls b ++ done /\ done `prefix_of` connecting vars /\
    (ok = true -> done = connecting vars) /\ (answers b = [] -> ok = true /\ answers b' = []).
Proof.
  unfold connect_to_broker, connecting, mbind, amqp_bind. destruct (negb (via_local vars) && _); calls.
  all: eexists; split; [rewrite <- ?app_assoc; reflexivity|]; cbn [app]; split; [|split].
  all: try (by intros); try (first [exists []; reflexivity | eexists; reflexivity]).
  all: cbn [answers]; intros; intuition (subst; done).
Qed.

(** A result is published once or not at all.  report_to_broker() returns 0 only after
    it logged in and published one message, to the exchange and routing key for the broker
    it uses, that names the test and the client as its authenticated user; it never
    publishes before the login worked, over a remote connection with TLS only after the
    certificates were set, peer verification was turned on and with EXTERNAL
    authentication; after a login that worked the connection is closed and destroyed in
    every case.  When no call fails the result is published. *)
Theorem results_published_once vars pid test time data b :
  let '(r, b') := report_to_broker vars pid test time data b in
  let channel := u16 pid in
  let closing := [ConnectionClose; DestroyConnection] in
  exists trace, calls b' = calls b ++ trace /\
    ((r = 0 /\ trace = connecting vars ++ [ChannelOpen channel; Publish channel (message_for vars test time data);
                                           ChannelClose channel] ++ closing) \/
     (r = -1 /\ (trace `prefix_of` connecting vars \/
                 trace = connecting vars ++ [ChannelOpen channel] ++ closing \/
                 trace = connecting vars ++ [ChannelOpen channel; Publish channel (message_for vars test time data);
                                             ChannelClose channel] ++ closing))) /\
    (answers b = [] -> r = 0).
Proof.
  unfold report_to_broker, mbind, amqp_bind. pose proof (connect_calls vars b) as Hc.
  destruct (connect_to_broker vars b) as [ok b1]. destruct Hc as (d & Hd & Hpre & Hok & Ha). cbv beta zeta.
  destruct ok; cbn [negb].
  - rewrite (Hok eq_refl) in Hd. unfold close_broker_connection, mbind, amqp_bind. calls; rewrite Hd.
    all: eexists; split; [rewrite <- !app_assoc; reflexivity|]; cbn [app]; split; [|intuition (subst; done)].
    + left. done.
    + right. auto.
    + right. auto.
  - unfold mret, amqp_ret. exists d. split; [done|]. split; [right; auto|]. intros H. by destruct (Ha H).
Qed.

(** A remote broker with TLS is never sent a password, and is verified before it is
    talked to. *)
Lemma remote_tls_verified vars :
  via_local vars = false -> g_ssl vars <> 0 ->
  (forall vhost u p, Login vhost (PLAIN u p) ∉ connecting vars) /\
  exists pre post, connecting vars = pre ++ SocketOpen (g_collector vars) (g_port vars) :: post /\
    SetVerify ∈ pre /\ SetCacert (o_cacert (g_amqp_ssl vars)) ∈ pre /\
    SetKey (o_cert (g_amqp_ssl vars)) (o_key (g_amqp_ssl vars)) ∈ pre.
Proof.
  intros Hv Hs. unfold connecting, broker_host, broker_port. rewrite Hv, (proj2 (Z.eqb_neq _ _) Hs). cbn [negb andb].
  split; [intros vhost u p Hin; rewrite !elem_of_cons, elem_of_nil in Hin; naive_solver|].
  exists [NewConnection; SslSocketNew; SetCacert (o_cacert (g_amqp_ssl vars));
    SetKey (o_cert (g_amqp_ssl vars)) (o_key (g_amqp_ssl vars)); SetVerify]. eexists. split; [reflexivity|]. set_solver.
Qed.

(** A process whose id is a multiple of 65536 uses channel 0, which AMQP keeps for the
    connection itself. *)
Example channel_zero : u16 131072 = 0.
Proof. reflexivity. Qed.
(** A connection that cannot be opened is never destroyed. *)
Example failed_open_leaks vars :
  via_local vars = true ->
  calls (snd (report_to_broker vars 5 icmp_module 0 [] {| answers := [true; false]; calls := [] |}))
  = [NewConnection; TcpSocketNew; SocketOpen (g_local vars) AMQP_PORT].
Proof.
  intros Hv. unfold report_to_broker, connect_to_broker, mbind, amqp_bind, broker_host, broker_port. rewrite Hv.
  reflexivity.
Qed.
