(* ===== verification/Mos.v ===== *)
(** Quality of voice calls (src/common/mos.c): the ICPIF and Cisco's mean opinion score,
    and the E-model of ITU-T G.107.

    A double is the real number it stands for: rounding is not modelled.  Losses are
    percentages, delays are in microseconds. *)
From Stdlib Require Import QArith Reals Lra Psatz.
From S2P Require Import Prelude.
#[local] Open Scope Z_scope.

(** ** Tables *)

Definition delay_impairment (delay : Z) : Z :=
  if delay <? 50000 then 0 else if delay <? 100000 then 1 else if delay <? 150000 then 2
  else if delay <? 200000 then 4 else 7.
Definition Qltb (a b : Q) : bool := negb (Qle_bool b a).
Definition equipment_impairment (loss : Q) : Z :=
  if Qltb loss 2 then 0 else if Qltb loss 4 then 12 else if Qltb loss 6 then 22
  else if Qltb loss 8 then 28 else 32.
Definition calculate_icpif (delay : Z) (loss : Q) : Z := delay_impairment delay + equipment_impairment loss.
Definition calculate_cisco_mos (icpif : Z) : Z :=
  if icpif <=? 3 then 5 else if icpif <=? 13 then 4 else if icpif <=? 23 then 3 else if icpif <=? 33 then 2 else 1.

Lemma Qltb_lt a b : Qltb a b = true <-> (a < b)%Q.
Proof.
  unfold Qltb. rewrite negb_true_iff. destruct (Qle_bool b a) eqn:E.
  - apply Qle_bool_iff in E. split; [done|]. intros H. exfalso. by apply (Qlt_not_le a b).
  - split; [intros _|done]. apply Qnot_le_lt. intros H. apply Qle_bool_iff in H. congruence.
Qed.

Lemma equipment_mono l l' : (l <= l')%Q -> equipment_impairment l <= equipment_impairment l'.
Proof.
  intros H.
  assert (Hb : forall b, Qltb l' b = true -> Qltb l b = true).
  { intros b Hl. rewrite Qltb_lt in *. by eapply Qle_lt_trans. }
  unfold equipment_impairment. pose proof (Hb 2%Q). pose proof (Hb 4%Q). pose proof (Hb 6%Q). pose proof (Hb 8%Q).
  destruct (Qltb l' 2), (Qltb l' 4), (Qltb l' 6), (Qltb l' 8), (Qltb l 2), (Qltb l 4), (Qltb l 6), (Qltb l 8); naive_solver lia.
Qed.
Lemma delay_mono d d' : d <= d' -> delay_impairment d <= delay_impairment d'.
Proof.
  unfold delay_impairment. intros.
  destruct (Z.ltb_spec d 50000), (Z.ltb_spec d 100000), (Z.ltb_spec d 150000), (Z.ltb_spec d 200000),
    (Z.ltb_spec d' 50000), (Z.ltb_spec d' 100000), (Z.ltb_spec d' 150000), (Z.ltb_spec d' 200000); lia.
Qed.
Lemma cisco_antitone i i' : i <= i' -> calculate_cisco_mos i' <= calculate_cisco_mos i.
Proof.
  unfold calculate_cisco_mos. intros.
  destruct (Z.leb_spec i 3), (Z.leb_spec i 13), (Z.leb_spec i 23), (Z.leb_spec i 33),
    (Z.leb_spec i' 3), (Z.leb_spec i' 13), (Z.leb_spec i' 23), (Z.leb_spec i' 33); lia.
Qed.

(** The score is one of 1 to 5, and more delay or loss never improves it. *)
Theorem cisco_mos_antitone d d' l l' :
  d <= d' -> (l <= l')%Q ->
  1 <= calculate_cisco_mos (calculate_icpif d' l') /\
  calculate_cisco_mos (calculate_icpif d' l') <= calculate_cisco_mos (calculate_icpif d l) /\
  calculate_cisco_mos (calculate_icpif d l) <= 5.
Proof.
  intros Hd Hl. split; [unfold calculate_cisco_mos; case_ifs; lia|]. split; [|unfold calculate_cisco_mos; case_ifs; lia].
  apply cisco_antitone. unfold calculate_icpif. pose proof (delay_mono _ _ Hd). pose proof (equipment_mono _ _ Hl). lia.
Qed.

(** ** The E-model *)
#[local] Open Scope R_scope.

Definition DEFAULT_R_VALUE : R := 93.2.
Definition MINIMUM_PERCEIVABLE_DELAY : R := 100.
Definition DELAY_SENSITIVITY : R := 1.
Definition LOSS_ROBUSTNESS_G711 : R := 4.3.
Definition EQUIPMENT_IMPAIRMENT_G711 : R := 0.

(** pow() of a positive number. *)
Definition pow (x y : R) : R := Rpower x y.
Definition Rltb (a b : R) : bool := if Rlt_dec a b then true else false.

Definition loss_impact (loss avg_loss_length : R) : R :=
  let Ie := EQUIPMENT_IMPAIRMENT_G711 in
  let Bpl := LOSS_ROBUSTNESS_G711 in
  let BurstR := if Rltb 0 avg_loss_length then avg_loss_length else 1 in
  Ie + (95 - Ie) * (loss / ((loss / BurstR) + Bpl)).
Definition delay_impact (delay : Z) : R :=
  let mT := MINIMUM_PERCEIVABLE_DELAY in
  let sT := DELAY_SENSITIVITY in
  let Ta := IZR delay / 1000 in
  if Rltb mT Ta then
    let x := ln (Ta / mT) / ln 2 in
    let part1 := pow (1 + pow x (6 - sT)) (1 / (6 - sT)) in
    let part2 := 3 * pow (1 + pow (x / 3) (6 - sT)) (1 / (6 - sT)) in
    25 * (part1 - part2 + 2)
  else 0.
Definition calculate_itu_rating (delay : Z) (loss avg_loss_length : R) : R :=
  DEFAULT_R_VALUE - delay_impact delay - loss_impact loss avg_loss_length.

Definition calculate_itu_mos (rating : R) : R :=
  if Rltb rating 0 then 1
  else if Rltb 100 rating then 4.5
  else 1 + (0.035 * rating) + (rating * (rating - 60) * (100 - rating) * 7 * 0.000001).

(** *** Fifth powers and roots *)

Lemma Rltb_true a b : Rltb a b = true <-> a < b.
Proof. unfold Rltb. destruct (Rlt_dec a b); naive_solver. Qed.
Lemma Rltb_false a b : Rltb a b = false <-> b <= a.
Proof. unfold Rltb. destruct (Rlt_dec a b); split; intros; try done; lra. Qed.

Lemma pow_five x : 0 < x -> pow x (6 - DELAY_SENSITIVITY) = x ^ 5.
Proof.
  intros Hx. unfold pow, DELAY_SENSITIVITY. replace (6 - 1) with (INR 5) by (simpl; lra). by apply Rpower_pow.
Qed.
Lemma root_five y : 0 < y -> 0 < pow y (1 / (6 - DELAY_SENSITIVITY)) /\ pow y (1 / (6 - DELAY_SENSITIVITY)) ^ 5 = y.
Proof.
  intros Hy. unfold pow, DELAY_SENSITIVITY. assert (Hp : 0 < Rpower y (1 / (6 - 1))) by apply exp_pos.
  split; [done|]. rewrite <- Rpower_pow by done. rewrite Rpower_mult.
  replace (1 / (6 - 1) * INR 5) with 1 by (simpl; lra). by apply Rpower_1.
Qed.

Lemma five_lt a b : 0 <= a -> a < b -> a ^ 5 < b ^ 5.
Proof.
  intros Ha Hab. assert (H2 : a ^ 2 < b ^ 2) by nra. assert (H4 : a ^ 4 < b ^ 4).
  { replace (a ^ 4) with (a ^ 2 * a ^ 2) by ring. replace (b ^ 4) with (b ^ 2 * b ^ 2) by ring.
    assert (0 <= a ^ 2) by nra. nra. }
  replace (a ^ 5) with (a * a ^ 4) by ring. replace (b ^ 5) with (b * b ^ 4) by ring.
  assert (0 <= a ^ 4) by (replace (a ^ 4) with (a ^ 2 * a ^ 2) by ring; nra). nra.
Qed.
Lemma five_le a b : 0 < a -> 0 < b -> a ^ 5 <= b ^ 5 -> a <= b.
Proof. intros Ha Hb H. destruct (Rle_or_lt a b); [done|]. pose proof (five_lt b a). lra. Qed.

(** The step of a fifth power gets larger with its start. *)
Lemma five_step a b d : 0 <= a -> a <= b -> 0 <= d -> (a + d) ^ 5 - a ^ 5 <= (b + d) ^ 5 - b ^ 5.
Proof.
  intros Ha Hab Hd.
  assert (E : forall y, (y + d) ^ 5 - y ^ 5
    = 5 * d * y ^ 4 + 10 * d ^ 2 * y ^ 3 + 10 * d ^ 3 * y ^ 2 + 5 * d ^ 4 * y + d ^ 5) by (intros; ring).
  rewrite !E. assert (P : forall n, a ^ n <= b ^ n) by (intros; apply pow_incr; lra).
  assert (D : forall n, 0 <= d ^ n) by (intros; by apply pow_le).
  pose proof (P 4%nat). pose proof (P 3%nat). pose proof (P 2%nat). pose proof (D 2%nat). pose proof (D 3%nat).
  pose proof (D 4%nat).
  assert (5 * d * a ^ 4 <= 5 * d * b ^ 4) by (apply Rmult_le_compat_l; lra).
  assert (10 * d ^ 2 * a ^ 3 <= 10 * d ^ 2 * b ^ 3) by (apply Rmult_le_compat_l; lra).
  assert (10 * d ^ 3 * a ^ 2 <= 10 * d ^ 3 * b ^ 2) by (apply Rmult_le_compat_l; lra).
  assert (5 * d ^ 4 * a <= 5 * d ^ 4 * b) by (apply Rmult_le_compat_l; lra). lra.
Qed.
(** Two numbers whose fifth powers differ by a constant get closer as they grow. *)
Lemma five_gap a A b B c :
  0 < a -> 0 < A -> 0 < B -> a <= b -> 0 < c -> A ^ 5 = a ^ 5 + c -> B ^ 5 = b ^ 5 + c -> B - b <= A - a.
Proof.
  intros Ha HA HB Hab Hc EA EB. destruct (Rle_or_lt (B - b) (A - a)); [done|].
  assert (a <= A) by (apply five_le; lra).
  pose proof (five_step a b (A - a) ltac:(lra) Hab ltac:(lra)) as Hs.
  replace (a + (A - a)) with A in Hs by lra.
  pose proof (five_lt (b + (A - a)) B ltac:(lra) ltac:(lra)). lra.
Qed.

(** *** Impacts *)

(** The two parts of formula 7-27 for a positive [x]. *)
Lemma parts_spec x :
  0 < x -> exists a A, 0 < a /\ 0 < A /\ a ^ 5 = 1 + x ^ 5 /\ A ^ 5 = a ^ 5 + 242 /\
    pow (1 + pow x (6 - DELAY_SENSITIVITY)) (1 / (6 - DELAY_SENSITIVITY)) = a /\
    3 * pow (1 + pow (x / 3) (6 - DELAY_SENSITIVITY)) (1 / (6 - DELAY_SENSITIVITY)) = A.
Proof.
  intros Hx. rewrite !pow_five by lra. pose proof (pow_lt x 5 Hx). pose proof (pow_lt (x / 3) 5 ltac:(lra)).
  destruct (root_five (1 + x ^ 5)) as [P1 E1]; [lra|]. destruct (root_five (1 + (x / 3) ^ 5)) as [P2 E2]; [lra|].
  eexists _, _. split_and!; [exact P1| |exact E1| |reflexivity|reflexivity]; [lra|].
  rewrite E1, Rpow_mult_distr, E2. field.
Qed.

Lemma log2_mono t t' : 1 < t -> t <= t' -> 0 < ln t / ln 2 <= ln t' / ln 2.
Proof.
  intros H1 Hle. assert (0 < ln 2) by (rewrite <- ln_1; apply ln_increasing; lra).
  assert (0 < ln t) by (rewrite <- ln_1; apply ln_increasing; lra).
  assert (ln t <= ln t') by (destruct (Rle_lt_or_eq _ _ Hle) as [| ->]; [apply Rlt_le, ln_increasing; lra|lra]).
  assert (0 < / ln 2) by (by apply Rinv_0_lt_compat). unfold Rdiv. split; [nra|apply Rmult_le_compat_r; lra].
Qed.

Lemma delay_impact_mono d d' : (d <= d')%Z -> 0 <= delay_impact d /\ delay_impact d <= delay_impact d'.
Proof.
  intros Hd. apply IZR_le in Hd.
  assert (Hpos : forall e, 0 <= delay_impact e).
  { intros e. unfold delay_impact. destruct (Rltb _ _) eqn:E; [|lra]. apply Rltb_true in E.
    unfold MINIMUM_PERCEIVABLE_DELAY in *.
    destruct (log2_mono (IZR e / 1000 / 100) (IZR e / 1000 / 100)) as [Hx _]; [lra..|].
    destruct (parts_spec _ Hx) as (a & A & Ha & HA & Ea & EA & -> & ->).
    assert (1 <= a) by (apply five_le; [lra..|]; rewrite Ea; pose proof (pow_lt _ 5 Hx); lra).
    pose proof (five_gap 1 3 a A 242 ltac:(lra) ltac:(lra) HA ltac:(lra) ltac:(lra) ltac:(lra) EA). lra. }
  split; [done|]. pose proof (Hpos d') as Hp'. revert Hp'. unfold delay_impact.
  destruct (Rltb _ (IZR d / 1000)) eqn:E; [|done]. apply Rltb_true in E. intros _.
  unfold MINIMUM_PERCEIVABLE_DELAY in *. rewrite (proj2 (Rltb_true _ _)) by lra.
  destruct (log2_mono (IZR d / 1000 / 100) (IZR d' / 1000 / 100)) as [Hx Hxy]; [lra..|].
  assert (Hy : 0 < ln (IZR d' / 1000 / 100) / ln 2) by lra.
  destruct (parts_spec _ Hx) as (a & A & Ha & HA & Ea & EA & -> & ->).
  destruct (parts_spec _ Hy) as (b & B & Hb & HB & Eb & EB & -> & ->).
  assert (a <= b) by (apply five_le; [lra..|]; rewrite Ea, Eb; apply Rplus_le_compat_l, pow_incr; lra).
  pose proof (five_gap a A b B 242 Ha HA HB ltac:(lra) ltac:(lra) EA EB). lra.
Qed.

Lemma loss_impact_mono l l' b b' :
  0 <= l -> l <= l' -> 0 < b -> b <= b' -> 0 <= loss_impact l b /\ loss_impact l b <= loss_impact l' b'.
Proof.
  intros Hl Hll Hb Hbb. unfold loss_impact, EQUIPMENT_IMPAIRMENT_G711, LOSS_ROBUSTNESS_G711.
  rewrite !(proj2 (Rltb_true _ _)) by lra.
  assert (H : forall l b, 0 <= l -> 0 < b -> l / (l / b + 4.3) = l * b / (l + 4.3 * b)).
  { intros x y Hx Hy. field. split; nra. }
  rewrite !H by lra.
  assert (Hden : forall x y, 0 <= x -> 0 < y -> 0 < / (x + 4.3 * y)) by (intros; apply Rinv_0_lt_compat; lra).
  split.
  - assert (0 <= l * b / (l + 4.3 * b)) by (unfold Rdiv; pose proof (Hden l b ltac:(lra) ltac:(lra)); assert (0 <= l * b) by nra; nra).
    lra.
  - assert (l * b / (l + 4.3 * b) <= l' * b' / (l' + 4.3 * b')); [|lra].
    apply Rmult_le_reg_r with ((l + 4.3 * b) * (l' + 4.3 * b')); [apply Rmult_lt_0_compat; lra|].
    replace (l * b / (l + 4.3 * b) * ((l + 4.3 * b) * (l' + 4.3 * b'))) with (l * b * (l' + 4.3 * b')) by (field; lra).
    replace (l' * b' / (l' + 4.3 * b') * ((l + 4.3 * b) * (l' + 4.3 * b'))) with (l' * b' * (l + 4.3 * b)) by (field; lra).
    assert (0 <= l * l' * (b' - b)) by (repeat apply Rmult_le_pos; lra).
    assert (0 <= b * b' * (l' - l)) by (repeat apply Rmult_le_pos; lra). lra.
Qed.

(** The rating of the E-model (over the reals) never exceeds its default, and more
    delay, more loss or longer bursts of loss never raise it. *)
Theorem itu_rating_antitone d d' l l' b b' :
  (d <= d')%Z -> 0 <= l -> l <= l' -> 0 < b -> b <= b' ->
  calculate_itu_rating d' l' b' <= calculate_itu_rating d l b /\ calculate_itu_rating d l b <= DEFAULT_R_VALUE.
Proof.
  intros Hd Hl Hll Hb Hbb. unfold calculate_itu_rating.
  pose proof (delay_impact_mono d d' Hd). pose proof (loss_impact_mono l l' b b' Hl Hll Hb Hbb). lra.
Qed.
Lemma itu_rating_antitone_witness : calculate_itu_rating 250000 5 2 <= calculate_itu_rating 20000 0 1.
Proof. apply (itu_rating_antitone 20000 250000 0 5 1 2); [lia|lra|lra|lra|lra]. Defined.

(** The rating of a perfect call. *)
Lemma itu_rating_perfect d b : (d <= 100000)%Z -> calculate_itu_rating d 0 b = 93.2.
Proof.
  intros Hd. apply IZR_le in Hd. unfold calculate_itu_rating, delay_impact, MINIMUM_PERCEIVABLE_DELAY.
  rewrite (proj2 (Rltb_false _ _)) by lra. unfold loss_impact, DEFAULT_R_VALUE, EQUIPMENT_IMPAIRMENT_G711. lra.
Qed.

(** The mean opinion score of a rating is at most 4.5 and grows with the rating from
    80 minus the root of 5400 (about 6.5) on; below that, down to 0, the formula gives
    scores under 1, so a call with a rating of 0 or less, which scores 1, beats them. *)
Theorem itu_mos_shape r r' :
  let low := 80 - sqrt 5400 in
  calculate_itu_mos r <= 4.5 /\ (calculate_itu_mos r < 1 <-> 0 < r < low) /\
  (low <= r -> r <= r' -> calculate_itu_mos r <= calculate_itu_mos r').
Proof.
  set (S := sqrt 5400). assert (HS : S * S = 5400) by (apply sqrt_sqrt; lra).
  assert (HS0 : 0 <= S) by apply sqrt_pos. assert (Hb : 73 < S < 74) by nra. intros low.
  set (f x := 1 + 35 / 1000 * x + x * (x - 60) * (100 - x) * 7 * (1 / 1000000)).
  assert (Hin : forall x, 0 <= x <= 100 -> calculate_itu_mos x = f x).
  { intros x Hx. unfold calculate_itu_mos. rewrite !(proj2 (Rltb_false _ _)) by lra. unfold f.
    replace 0.000001 with (1 / 1000000) by lra. replace 0.035 with (35 / 1000) by lra. done. }
  assert (Hneg : forall x, x < 0 -> calculate_itu_mos x = 1).
  { intros x Hx. unfold calculate_itu_mos. by rewrite (proj2 (Rltb_true _ _)). }
  assert (Hbig : forall x, 100 < x -> calculate_itu_mos x = 4.5).
  { intros x Hx. unfold calculate_itu_mos. by rewrite (proj2 (Rltb_false _ _)), (proj2 (Rltb_true _ _)) by lra. }
  assert (Hgrow : forall x y, 6 <= x -> x <= y -> y <= 100 -> f x <= f y).
  { intros x y Hx Hxy Hy.
    assert (Hg : 0 <= 160 * (x + y) - (x * x + x * y + y * y) - 1000).
    { assert (x * x <= 106 * x - 600) by nra. assert (y * y <= 106 * y - 600) by nra.
      assert (2 * (x * y) <= x * x + y * y) by nra. lra. }
    replace (f y) with (f x + (y - x) * ((160 * (x + y) - (x * x + x * y + y * y) - 1000) * 7 * (1 / 1000000)))
      by (unfold f; field). assert (0 <= (y - x) * ((160 * (x + y) - (x * x + x * y + y * y) - 1000) * 7 * (1 / 1000000)))
      by (apply Rmult_le_pos; lra). lra. }
  assert (Hsign : forall x, f x - 1 = x * ((5400 - (x - 80) * (x - 80)) * 7 * (1 / 1000000))) by (intros; unfold f; field).
  assert (Htop : forall x, 0 <= x <= 100 -> f x <= 4.5).
  { intros x Hx. destruct (Rle_or_lt 6 x) as [Hl|Hl].
    - replace 4.5 with (f 100) by (unfold f; lra). apply Hgrow; lra.
    - pose proof (Hsign x) as E. nra. }
  split; [|split].
  - destruct (Rlt_or_le r 0); [rewrite Hneg by done; lra|].
    destruct (Rlt_or_le 100 r); [rewrite Hbig by done; lra|]. rewrite Hin by lra. by apply Htop.
  - destruct (Rlt_or_le r 0); [rewrite Hneg by done; split; lra|].
    destruct (Rlt_or_le 100 r); [rewrite Hbig by done; unfold low; split; lra|]. rewrite Hin by lra. unfold low.
    pose proof (Hsign r) as E. split.
    + intros Hf. assert (0 < r) by (destruct (Req_dec r 0) as [->|]; [lra|lra]). split; [done|].
      destruct (Rlt_or_le r (80 - S)); [done|]. assert ((r - 80) * (r - 80) <= 5400) by nra. nra.
    + intros [Hr1 Hr2]. assert (5400 < (r - 80) * (r - 80)) by nra. nra.
  - intros Hr Hrr. unfold low in Hr. destruct (Rlt_or_le 100 r').
    + rewrite (Hbig r') by done. destruct (Rlt_or_le 100 r); [rewrite Hbig by done; lra|].
      rewrite Hin by lra. apply Htop. lra.
    + rewrite !Hin by lra. apply Hgrow; lra.
Qed.
