(* ===== verification/Packets.v ===== *)
(** Packets and their times (src/common/testlib.c): transmit timestamps from the error
    queue of a socket, receiving a packet from one of two sockets, the options that turn
    timestamps on, default signal handlers and the name of a process.

    recvmsg(), sendto() and the other calls are what they answered, as in Testlib.v. *)
From S2P Require Import Prelude CLib Address Testlib.
#[local] Open Scope Z_scope.

(** ** Transmit timestamps *)

(** A control message on the error queue: SO_TIMESTAMPING, an extended error (whether it is
    ENOMSG from timestamping, and its ee_data), or another. *)
Inductive err_cmsg : Set :=
| TxTime (c : cmsg)
| TxId (timestamping : bool) (ee_data : Z)
| TxOther.
(** What recvmsg() with MSG_ERRQUEUE gave: a message, with whether its flags are just
    MSG_ERRQUEUE, EAGAIN, or another error. *)
Inductive err_answer : Set := ErrMsg (plain : bool) (cmsgs : list err_cmsg) | Again | ErrFail.

(** The loop over the control messages of one message: [Some] when our packet was found,
    with its time if the message holds one. *)
Fixpoint scan (cmsgs : list err_cmsg) (tsmsg : option cmsg) (serr : option Z) (packet_id : Z)
    : option (option timeval) :=
  match cmsgs with
  | [] => None
  | c :: cmsgs =>
      let '(tsmsg, serr) :=
        match c with
        | TxTime t => (Some t, serr)
        | TxId ok d => (tsmsg, if ok then Some d else None)
        | TxOther => (tsmsg, serr)
        end in
      match serr, tsmsg with
      | Some d, Some t => if d =? packet_id then Some (retrieve_timestamping t) else scan cmsgs tsmsg serr packet_id
      | _, _ => scan cmsgs tsmsg serr packet_id
      end
  end.

(** The loop over the queue: at most [n] more calls.  An empty list of answers is a queue
    that stays empty.  The result is the time to use and what is left in the queue. *)
Fixpoint tx_loop (n : nat) (queue : list err_answer) (packet_id : Z) (sent : option timeval)
    : option timeval * list err_answer :=
  match n with
  | O => (sent, queue)
  | S n =>
      match queue with
      | [] => tx_loop n [] packet_id sent
      | Again :: queue => tx_loop n queue packet_id sent
      | ErrFail :: queue => (sent, queue)
      | ErrMsg plain cmsgs :: queue =>
          match sent with
          | None => tx_loop n queue packet_id sent
          | Some estimate =>
              if negb plain then (sent, queue)
              else match scan cmsgs None None packet_id with
                   | Some found => (Some (default estimate found), queue)
                   | None => tx_loop n queue packet_id sent
                   end
          end
      end
  end.
Definition get_tx_timestamping (queue : list err_answer) (packet_id : Z) (sent : option timeval)
    : option timeval * list err_answer := tx_loop 101 queue packet_id sent.

(** *** Sending with timestamps *)

Definition MAX_TX_TIMESTAMP_FD : Z := 64.
(** The static variables of delay_send_packet(). *)
Record send_state : Set := { last_sent : timeval; packet_ids : list Z }.
Definition send_init : send_state := {| last_sent := Tv 0 0; packet_ids := replicate 64 0 |}.

(** delay_send_packet() with the transmit timestamps: [sent] is whether the caller wants the
    time, [accepted] what sendto() did.  The result is that of [Testlib.delay_send_packet],
    the id that was looked for and the time that is stored. *)
Definition timed_send (st : send_state) (sock : Z) (now : timeval) (ipd : Z) (accepted : bool)
    (queue : list err_answer) (sent : bool) : res (send_state * send_result * option Z * option timeval) :=
  _ ← c_assert (sock >? 0);
  let '(last, r) := delay_send_packet (last_sent st) now ipd accepted in
  match r with
  | Wait _ => Ok ({| last_sent := last; packet_ids := packet_ids st |}, r, None, None)
  | _ =>
      let estimate := if sent then Some now else None in
      if sock <? MAX_TX_TIMESTAMP_FD then
        id ← rd (packet_ids st) sock;
        ids ← wr (packet_ids st) sock (u32 (id + 1));
        Ok ({| last_sent := last; packet_ids := ids |}, r, Some id, fst (get_tx_timestamping queue id estimate))
      else Ok ({| last_sent := last; packet_ids := packet_ids st |}, r, None, estimate)
  end.

(** ** Receiving *)

(** What get_packet() came to: it returned (the bytes, from which address family, and the
    time), or exited because recvmsg() failed. *)
Inductive received : Set := Packet (bytes : list Z) (family : Z) (now : option timeval) | Nothing | Exit.

(** get_packet(): [recvmsg] is what it gives on a socket, the whole datagram, its control
    messages and the ioctl; [None] while it is still waiting. *)
Definition get_packet (sockets : socket_t) (buflen timeout : Z) (start_time : timeval) (env : list select_result)
    (recvmsg : Z -> option (list Z * list cmsg * option timeval)) (want_time : bool) (gettimeofday : timeval)
    : res (option (received * Z)) :=
  _ ← c_assert (negb (socket sockets =? 0) || negb (socket6 sockets =? 0));
  match snd (wait_for_data sockets timeout start_time env) with
  | None => Ok None
  | Some (family, remaining) =>
      if family <=? 0 then Ok (Some (Nothing, remaining))
      else
        let sock := if family =? AF_INET then socket sockets else socket6 sockets in
        if negb (family =? AF_INET) && negb (family =? AF_INET6) then Ok (Some (Nothing, remaining))
        else
          match recvmsg sock with
          | None => Ok (Some (Exit, remaining))
          | Some (data, cmsgs, stamp) =>
              Ok (Some (Packet (take (Z.to_nat buflen) data) family
                          (if want_time then Some (get_timestamp cmsgs stamp gettimeofday) else None), remaining))
          end
  end.

(** ** Options of test sockets *)

Inductive stamp_option : Set := SO_TIMESTAMPING | SO_TIMESTAMP.
(** set_timestamp_socket_option(): the option that is on afterwards. *)
Definition set_timestamp_socket_option (setsockopt : Z -> stamp_option -> bool) (sock : Z) : res (option stamp_option) :=
  _ ← c_assert (sock >=? 0);
  Ok (if setsockopt sock SO_TIMESTAMPING then Some SO_TIMESTAMPING
      else if setsockopt sock SO_TIMESTAMP then Some SO_TIMESTAMP else None).
Definition set_default_socket_options (setsockopt : Z -> stamp_option -> bool) (sockets : socket_t)
    : res (list (Z * option stamp_option)) :=
  _ ← c_assert ((socket sockets >=? 0) || (socket6 sockets >=? 0));
  l4 ← (if socket sockets >=? 0
        then o ← set_timestamp_socket_option setsockopt (socket sockets); Ok [(socket sockets, o)] else Ok []);
  l6 ← (if socket6 sockets >=? 0
        then o ← set_timestamp_socket_option setsockopt (socket6 sockets); Ok [(socket6 sockets, o)] else Ok []);
  Ok (l4 ++ l6).

(** get_numeric_address(): getaddrinfo() with AI_NUMERICHOST. *)
Definition get_numeric_address (getaddrinfo : cstr -> Z * list sockaddr) (address : cstr) : option (list sockaddr) :=
  let '(r, l) := getaddrinfo address in if r =? 0 then Some l else None.
(** bind_socket_to_address() *)
Definition bind_socket_to_address (bind : Z -> sockaddr -> bool) (sock : Z) (address : option sockaddr) : res Z :=
  match address with
  | None => Fault AssertFail
  | Some a => _ ← c_assert (sock >=? 0); Ok (if bind sock a then 0 else -1)
  end.

(** ** Signals *)

Definition signals : list Z := [2; 15; 17; 10; 12; 1; 64].
(** The signals with handlers, and those that are blocked. *)
Record sig_state : Set := { handled : list Z; blocked : list Z }.
Fixpoint default_handlers (sigaction : Z -> bool) (l : list Z) (s : sig_state) : bool * sig_state :=
  match l with
  | [] => (true, s)
  | x :: l =>
      if sigaction x then
        default_handlers sigaction l {| handled := filter (fun y => y <> x) (handled s); blocked := blocked s |}
      else (false, s)
  end.
Definition unblock_signals (sigaction : Z -> bool) (sigprocmask : bool) (s : sig_state) : Z * sig_state :=
  let '(ok, s) := default_handlers sigaction signals s in
  if negb ok then (-1, s)
  else if negb sigprocmask then (-1, s) else (0, {| handled := handled s; blocked := [] |}).

(** ** The name of a process *)

(** Strings in memory: where they start, and how long they are. *)
Abbreviation placed := (Z * Z)%type.
(** The end of the space used by arguments that follow each other, and whether all do. *)
Fixpoint args_end (stop : Z) (l : list placed) : Z * bool :=
  match l with
  | [] => (stop, true)
  | (a, n) :: l => if stop + 1 =? a then args_end (a + n) l else (stop, false)
  end.
Fixpoint environ_end (stop : Z) (l : list placed) : Z :=
  match l with
  | [] => stop
  | (a, n) :: l => environ_end (if stop + 1 =? a then a + n else stop) l
  end.
Definition name_space (argv0 : placed) (args environ : list placed) : Z :=
  let '(stop, all) := args_end (fst argv0 + snd argv0) args in
  (if all then environ_end stop environ else stop) - fst argv0.
(** The bytes set_proc_name() writes, as offsets from argv[0]: by snprintf() with a size of
    [buflen - 1], and by memset(); sizes are unsigned. *)
Definition name_writes (buflen namelen argv0len : Z) : list (Z * Z) :=
  let size := u64 (buflen - 1) in
  let strlen := if size =? 0 then argv0len else Z.min namelen (size - 1) in
  [(0, if size =? 0 then 0 else strlen + 1); (strlen + 1, strlen + 1 + u64 (buflen - strlen - 1))].

(** ** Transmit timestamps are those of the packet *)

Lemma scan_ours cmsgs ts serr id found :
  scan cmsgs ts serr id = Some found ->
  (serr = Some id \/ TxId true id ∈ cmsgs) /\
  exists c, found = retrieve_timestamping c /\ (ts = Some c \/ TxTime c ∈ cmsgs).
Proof.
  revert ts serr. induction cmsgs as [|c cmsgs IH]; intros ts serr H; [done|]. cbn [scan] in H.
  set (p := match c with TxTime t => (Some t, serr) | TxId ok d => (ts, if ok then Some d else None) | TxOther => (ts, serr) end) in H.
  destruct p as [ts' serr'] eqn:Ep.
  assert (Hs : serr' = Some id -> serr = Some id \/ TxId true id ∈ c :: cmsgs).
  { subst p. destruct c as [t|[] d|]; simplify_eq; intros E; simplify_eq; auto. right. left. }
  assert (Ht : forall t, ts' = Some t -> ts = Some t \/ TxTime t ∈ c :: cmsgs).
  { subst p. intros t E. destruct c as [t'|ok d|]; simplify_eq; auto. right. left. }
  assert (Hrec : scan cmsgs ts' serr' id = Some found ->
    (serr = Some id \/ TxId true id ∈ c :: cmsgs) /\
    exists x, found = retrieve_timestamping x /\ (ts = Some x \/ TxTime x ∈ c :: cmsgs)).
  { intros E. destruct (IH _ _ E) as [H1 (x & Hx & H2)]. split.
    - destruct H1 as [H1|H1]; [by apply Hs|right; by right].
    - exists x. split; [done|]. destruct H2 as [H2|H2]; [by apply Ht|right; by right]. }
  destruct serr' as [d|]; [|by apply Hrec]. destruct ts' as [t|]; [|by apply Hrec].
  destruct (Z.eqb_spec d id) as [->|]; [|by apply Hrec]. injection H as <-.
  split; [by apply Hs|]. exists t. split; [done|by apply Ht].
Qed.

(** The time that is stored is the estimate, or one that the kernel gave for this id. *)
Lemma tx_loop_ours n queue id e t rest :
  tx_loop n queue id (Some e) = (Some t, rest) ->
  t = e \/ exists cmsgs c, ErrMsg true cmsgs ∈ queue /\ TxId true id ∈ cmsgs /\ TxTime c ∈ cmsgs /\
    retrieve_timestamping c = Some t.
Proof.
  revert queue. induction n as [|n IH]; intros queue H; cbn [tx_loop] in H; [left; congruence|].
  assert (Hw : forall a q, (t = e \/ exists cmsgs c, ErrMsg true cmsgs ∈ q /\ TxId true id ∈ cmsgs /\ TxTime c ∈ cmsgs /\
    retrieve_timestamping c = Some t) -> t = e \/ exists cmsgs c, ErrMsg true cmsgs ∈ a :: q /\ TxId true id ∈ cmsgs /\
    TxTime c ∈ cmsgs /\ retrieve_timestamping c = Some t).
  { intros a q [->|(cm & c & Hq & Hc)]; [by left|]. right. exists cm, c. split; [by right|done]. }
  destruct queue as [|[plain cmsgs| |] queue]; [by apply IH in H|..|left; congruence]; [|by apply Hw, IH].
  destruct plain; cbn [negb] in H; [|left; congruence].
  destruct (scan cmsgs None None id) as [found|] eqn:Es; [|by apply Hw, IH].
  injection H as <- _. apply scan_ours in Es as [[?|Hid] (c & -> & [?|Hc])]; try done.
  destruct (retrieve_timestamping c) as [t|] eqn:Ec; [|by left]. right. exists cmsgs, c. split_and!; [left|done..].
Qed.

(** A message for this packet behind messages for others is found. *)
Lemma tx_loop_finds n pre c cmsgs post id e t0 :
  (length pre < n)%nat ->
  Forall (fun a => a = Again \/ exists cm, a = ErrMsg true cm /\ TxId true id ∉ cm) pre ->
  cmsgs = [TxTime c; TxId true id] \/ cmsgs = [TxId true id; TxTime c] -> retrieve_timestamping c = Some t0 ->
  tx_loop n (pre ++ ErrMsg true cmsgs :: post) id (Some e) = (Some t0, post).
Proof.
  intros Hn Hpre Hcm Hc. revert n Hn.
  induction Hpre as [|a pre Ha Hpre IH]; intros [|n] Hn; cbn [length] in Hn; try lia; cbn [app tx_loop].
  - cbn [negb]. replace (scan cmsgs None None id) with (Some (Some t0)); [done|].
    destruct Hcm as [-> | ->]; cbn; by rewrite Z.eqb_refl, Hc.
  - destruct Ha as [->|(cm & -> & Hcm')]; [by apply IH; lia|]. cbn [negb].
    destruct (scan cm None None id) as [f|] eqn:Es; [|by apply IH; lia].
    apply scan_ours in Es as [[?|?] _]; done.
Qed.

(** The transmit time that is stored for a packet is the time of day before it was
    sent, or a time that the kernel put on the error queue together with the id of this very
    packet; when that message is among the first 101 answers, behind only messages for other
    packets, it is found. *)
Theorem tx_timestamp_is_ours queue id e t rest pre c cmsgs post :
  get_tx_timestamping queue id (Some e) = (Some t, rest) ->
  (t = e \/ exists cmsgs c, ErrMsg true cmsgs ∈ queue /\ TxId true id ∈ cmsgs /\ TxTime c ∈ cmsgs /\
     retrieve_timestamping c = Some t) /\
  (queue = pre ++ ErrMsg true cmsgs :: post -> (length pre <= 100)%nat ->
   Forall (fun a => a = Again \/ exists cm, a = ErrMsg true cm /\ TxId true id ∉ cm) pre ->
   cmsgs = [TxTime c; TxId true id] \/ cmsgs = [TxId true id; TxTime c] ->
   forall t0, retrieve_timestamping c = Some t0 -> t = t0 /\ rest = post).
Proof.
  unfold get_tx_timestamping. generalize 101%nat, (Nat.lt_succ_diag_r 100). intros n Hn H.
  split; [exact (tx_loop_ours _ _ _ _ _ _ H)|]. intros -> Hlen Hpre Hcm t0 Hc.
  rewrite (tx_loop_finds n pre c cmsgs post id e t0) in H; [by simplify_eq|lia|done..].
Qed.
Lemma tx_timestamp_is_ours_witness :
  let q := [Again; ErrMsg true [TxTime (Timestamping 1 true 0 0 5 7000); TxId true 3];
            ErrMsg true [TxTime (Timestamping 1 true 0 0 9 8000); TxId true 4]] in
  get_tx_timestamping q 4 (Some (Tv 9 1)) = (Some (Tv 9 8), []) /\ Tv 9 8 = Tv 9 8.
Proof.
  intros q. assert (E : get_tx_timestamping q 4 (Some (Tv 9 1)) = (Some (Tv 9 8), [])) by reflexivity.
  split; [exact E|].
  destruct (tx_timestamp_is_ours q 4 (Tv 9 1) (Tv 9 8) []
    [Again; ErrMsg true [TxTime (Timestamping 1 true 0 0 5 7000); TxId true 3]] (Timestamping 1 true 0 0 9 8000)
    [TxTime (Timestamping 1 true 0 0 9 8000); TxId true 4] []) as [_ H].
  - exact E.
  - apply H.
    + reflexivity.
    + cbn. lia.
    + constructor; [left; reflexivity|]. constructor; [|constructor]. right. eexists. split; [reflexivity|].
      rewrite !elem_of_cons, elem_of_nil. intros [Hx|[Hx|Hx]]; [discriminate|discriminate|exact Hx].
    + left. reflexivity.
    + reflexivity.
Defined.

(** *** Ids *)

(** The packets that go to sendto() on one socket, and for each that it accepted: the id
    that was looked for and the id of the kernel, which counts the packets it accepted. *)
Fixpoint looked_for (st : send_state) (sock kernel : Z) (calls : list (timeval * bool)) : res (list (Z * Z)) :=
  match calls with
  | [] => Ok []
  | (now, accepted) :: calls =>
      r ← timed_send st sock now 0 accepted [] true;
      let '(st, _, id, _) := r in
      l ← looked_for st sock (if accepted then u32 (kernel + 1) else kernel) calls;
      Ok (match id with Some id => if accepted then (id, kernel) :: l else l | None => l end)
  end.

Lemma no_gap last now ok : exists last', delay_send_packet last now 0 ok = (last', if ok then Sent now else SendFailed).
Proof.
  unfold delay_send_packet. set (d := i32 (DIFF_TV_US now last)).
  destruct (negb (tv_sec last =? 0)); cbn [andb]; [|by eexists].
  change (i32 0) with 0. assert (((if d <? 0 then 0 else d) <? 0) = false) as ->; [|by eexists].
  apply Z.ltb_ge. destruct (Z.ltb_spec d 0); lia.
Qed.
Lemma timed_send_id st sock now ok id :
  0 < sock < MAX_TX_TIMESTAMP_FD -> length (packet_ids st) = 64%nat -> rd (packet_ids st) sock = Ok id ->
  exists st' t, timed_send st sock now 0 ok [] true = Ok (st', if ok then Sent now else SendFailed, Some id, t) /\
    length (packet_ids st') = 64%nat /\ rd (packet_ids st') sock = Ok (u32 (id + 1)).
Proof.
  intros Hs Hl Hid. unfold timed_send. rewrite c_assert_true by lia.
  destruct (no_gap (last_sent st) now ok) as [last' ->]. unfold MAX_TX_TIMESTAMP_FD in *.
  assert (Hlen : length (<[Z.to_nat sock := u32 (id + 1)]> (packet_ids st)) = 64%nat) by (by rewrite length_insert).
  destruct ok; rewrite (proj2 (Z.ltb_lt sock 64)), Hid, bind_Ok, wr_in, bind_Ok by lia;
    eexists _, _; (split; [reflexivity|]); cbn [packet_ids]; (split; [done|]);
    apply rd_Ok; (split; [lia|]); apply list_lookup_insert_eq; lia.
Qed.

(** The id whose transmit time is looked for is that of the packet exactly as long as
    no sendto() failed: after [f] failed packets it is [f] ahead of the id that the kernel
    gives the packet, for every packet from then on, so its time is not found any more. *)
Theorem tx_ids_shift st sock id kernel calls l :
  0 < sock < MAX_TX_TIMESTAMP_FD -> length (packet_ids st) = 64%nat -> rd (packet_ids st) sock = Ok id ->
  looked_for st sock kernel calls = Ok l ->
  forall i looked real, l !! i = Some (looked, real) ->
  exists n f, f = Z.of_nat (length (filter (fun c => snd c = false) (take n calls))) /\
    (n < length calls)%nat /\ (looked - real) mod 4294967296 = (id - kernel + f) mod 4294967296.
Proof.
  intros Hs. revert st id kernel l. induction calls as [|[now ok] calls IH]; intros st id kernel l Hl Hid H i lk rl Hi;
    cbn [looked_for] in H; [by simplify_eq|].
  destruct (timed_send_id st sock now ok id Hs Hl Hid) as (st' & t & E & Hl' & Hid'). rewrite E, bind_Ok in H.
  apply res_bind_Ok in H as (l' & Hl2 & H). injection H as <-.
  assert (Hrec : forall j, l' !! j = Some (lk, rl) ->
    exists n f, f = Z.of_nat (length (filter (fun c => snd c = false) (take n ((now, ok) :: calls)))) /\
    (n < length ((now, ok) :: calls))%nat /\ (lk - rl) mod 4294967296 = (id - kernel + f) mod 4294967296).
  { intros j Hj. destruct (IH _ _ _ _ Hl' Hid' Hl2 _ _ _ Hj) as (n & f & Hf & Hn & Hm).
    eexists (S n), _. split; [reflexivity|]. split; [cbn; lia|]. rewrite Hm. cbn [take]. rewrite filter_cons.
    destruct ok; cbn [snd]; [rewrite decide_False by done|rewrite decide_True by done; cbn [length]];
      rewrite <- ?Hf; unfold u32; Z.div_mod_to_equations; lia. }
  destruct ok; [|by eapply Hrec]. destruct i as [|i]; [|by eapply Hrec]. cbn in Hi. injection Hi as <- <-.
  exists 0%nat, 0. split; [done|]. split; [cbn; lia|]. by rewrite Z.add_0_r.
Qed.
Definition one_failed : list (timeval * bool) := [(Tv 1 0, true); (Tv 2 0, false); (Tv 3 0, true)].
Lemma tx_ids_shift_witness :
  looked_for send_init 4 0 one_failed = Ok [(0, 0); (2, 1)] /\
  exists f, (2 - 1) mod 4294967296 = (0 - 0 + f) mod 4294967296.
Proof.
  assert (E : looked_for send_init 4 0 one_failed = Ok [(0, 0); (2, 1)]) by reflexivity. split; [exact E|].
  destruct (tx_ids_shift send_init 4 0 0 one_failed [(0, 0); (2, 1)]) with (i := 1%nat) (looked := 2) (real := 1)
    as (n & f & _ & _ & Hf).
  - vm_compute. split; reflexivity.
  - reflexivity.
  - reflexivity.
  - exact E.
  - reflexivity.
  - exists f. exact Hf.
Defined.

(** ** Receiving *)

(** A packet that get_packet() returns was read from the socket of the family that
    select() reported, is no longer than the buffer, and carries its time if that was asked
    for; the time that is left is less than what was given by as long as the call took; it
    faults only when both descriptors are 0, and waits only as long as select() is
    interrupted. *)
Theorem get_packet_correct sockets buflen timeout start_time env recvmsg want_time now :
  0 <= timeout -> socket sockets <> 0 \/ socket6 sockets <> 0 ->
  exists r, get_packet sockets buflen timeout start_time env recvmsg want_time now = Ok r /\
  (r = None <-> Forall (fun s => match s with SelIntr _ => True | _ => False end) env) /\
  forall data family t remaining, r = Some (Packet data family t, remaining) ->
    0 <= remaining <= timeout /\ Z.of_nat (length data) <= Z.max 0 buflen /\
    (family = AF_INET /\ 0 < socket sockets \/ family = AF_INET6 /\ 0 < socket6 sockets) /\
    exists whole cmsgs stamp,
      recvmsg (if family =? AF_INET then socket sockets else socket6 sockets) = Some (whole, cmsgs, stamp) /\
      data `prefix_of` whole /\ (is_Some t <-> want_time = true).
Proof.
  intros Ht Hs. unfold get_packet. rewrite c_assert_true by lia.
  assert (Hw : forall d, match snd (wait_loop sockets timeout start_time d env) with
    | None => Forall (fun s => match s with SelIntr _ => True | _ => False end) env
    | Some (f, l) => ~ Forall (fun s => match s with SelIntr _ => True | _ => False end) env /\ 0 <= l <= timeout /\
        (f = -1 \/ f = AF_INET /\ 0 < socket sockets \/ f = AF_INET6 /\ 0 < socket6 sockets)
    end).
  { induction env as [|s env IH]; intros d; cbn [wait_loop]; [constructor|].
    assert (Hl : forall now, 0 <= (if timeout - elapsed now start_time <? 0 then 0 else timeout - elapsed now start_time) <= timeout).
    { intros n. unfold elapsed. case_ifs; lia. }
    destruct s as [n|n|rs n].
    - specialize (IH (elapsed n start_time)). destruct (wait_loop _ _ _ _ _) as [ts [[f l]|]]; cbn in *; [|by constructor].
      destruct IH as (H1 & H2 & H3). split_and!; [|lia..|done]. inversion 1. tauto.
    - cbn. split_and!; [by inversion 1|apply Hl..|by left].
    - cbn. split; [by inversion 1|]. split; [apply Hl|].
      destruct (Z.gtb_spec (socket sockets) 0); cbn [andb]; [case_bool_decide; [by right; left|]|];
        (destruct (Z.gtb_spec (socket6 sockets) 0); cbn [andb]; [case_bool_decide; [by right; right|by left]|by left]). }
  specialize (Hw 0). unfold wait_for_data. destruct (wait_loop _ _ _ _ _) as [ts [[f l]|]]; cbn [snd] in *.
  2:{ exists None. split; [done|]. split; [|done]. tauto. }
  destruct Hw as (Hn & Hl & Hf).
  assert (Hnone : forall (x : received * Z), Some x = None <-> Forall (fun s => match s with SelIntr _ => True | _ => False end) env)
    by (intros; split; [done|]; tauto).
  destruct Hf as [->|Hf]; [eexists; split; [reflexivity|]; split; [apply Hnone|done]|].
  assert (Hpos : (f <=? 0) = false /\ negb (f =? AF_INET) && negb (f =? AF_INET6) = false).
  { destruct Hf as [[-> _]|[-> _]]; done. }
  destruct Hpos as [-> ->]. destruct (recvmsg _) as [[[data cmsgs] stamp]|] eqn:Er.
  - eexists. split; [reflexivity|]. split; [apply Hnone|]. intros d fam t rem [= <- <- <- <-].
    split; [done|]. split; [rewrite length_take; lia|]. split; [done|]. exists data, cmsgs, stamp.
    split; [done|]. split; [apply prefix_take|]. destruct want_time; split; try done; by intros [? ?].
  - eexists. split; [reflexivity|]. split; [apply Hnone|done].
Qed.
Lemma get_packet_correct_witness :
  exists r, get_packet {| socket := 3; socket6 := -1 |} 2 1000 (Tv 10 0) [SelIntr (Tv 10 100); SelReady [3] (Tv 10 300)]
      (fun _ => Some ([1; 2; 3], [], None)) true (Tv 10 400) = Ok r /\
    r = Some (Packet [1; 2] AF_INET (Some (Tv 10 400)), 700).
Proof.
  destruct (get_packet_correct {| socket := 3; socket6 := -1 |} 2 1000 (Tv 10 0)
    [SelIntr (Tv 10 100); SelReady [3] (Tv 10 300)] (fun _ => Some ([1; 2; 3], [], None)) true (Tv 10 400))
    as (r & E & _).
  - lia.
  - left. discriminate.
  - exists r. split; [exact E|]. vm_compute in E. injection E as <-. reflexivity.
Defined.

(** ** Options, signals and names *)

(** One kind of timestamp at most is turned on, so the one that get_timestamp() finds
    first is the only one. *)
Lemma one_kind_of_stamp setsockopt sockets l :
  set_default_socket_options setsockopt sockets = Ok l ->
  forall sock o, (sock, Some o) ∈ l -> setsockopt sock o = true /\
    (o = SO_TIMESTAMP -> setsockopt sock SO_TIMESTAMPING = false).
Proof.
  unfold set_default_socket_options, set_timestamp_socket_option. intros H. apply res_bind_Ok in H as (_ & _ & H).
  assert (Hone : forall x r sock o,
    (if x >=? 0 then o ← (_ ← c_assert (x >=? 0); Ok (if setsockopt x SO_TIMESTAMPING then Some SO_TIMESTAMPING
      else if setsockopt x SO_TIMESTAMP then Some SO_TIMESTAMP else None)); Ok [(x, o)] else Ok []) = Ok r ->
    (sock, Some o) ∈ r -> setsockopt sock o = true /\ (o = SO_TIMESTAMP -> setsockopt sock SO_TIMESTAMPING = false)).
  { intros x r sock o Hr Hin. destruct (x >=? 0); cbn in Hr; simplify_eq; [|by apply elem_of_nil in Hin].
    apply list_elem_of_singleton in Hin. destruct (setsockopt x SO_TIMESTAMPING) eqn:E1; [by simplify_eq|].
    destruct (setsockopt x SO_TIMESTAMP) eqn:E2; by simplify_eq. }
  apply res_bind_Ok in H as (l4 & H4 & H). apply res_bind_Ok in H as (l6 & H6 & H). injection H as <-.
  intros sock o [Hin|Hin]%elem_of_app; [exact (Hone _ _ _ _ H4 Hin)|exact (Hone _ _ _ _ H6 Hin)].
Qed.

(** After unblock_signals() returned 0 no signal of measured has a handler left, and none
    is blocked. *)
Lemma unblock_signals_resets sigaction sigprocmask s s' :
  unblock_signals sigaction sigprocmask s = (0, s') -> blocked s' = [] /\ forall x, x ∈ signals -> x ∉ handled s'.
Proof.
  unfold unblock_signals.
  assert (H : forall l s ok s', default_handlers sigaction l s = (ok, s') ->
    (forall y, y ∉ handled s -> y ∉ handled s') /\ (ok = true -> forall x, x ∈ l -> x ∉ handled s')).
  { clear. induction l as [|x l IH]; intros s ok s' H; cbn [default_handlers] in H.
    - simplify_eq. split; [done|]. intros _ x Hx. by apply elem_of_nil in Hx.
    - destruct (sigaction x); [|by simplify_eq]. apply IH in H as [H1 H2]. cbn [handled] in H1. split.
      + intros y Hy. apply H1. rewrite list_elem_of_filter. tauto.
      + intros Hok y [->|Hy]%elem_of_cons; [|by apply H2]. apply H1. rewrite list_elem_of_filter. tauto. }
  destruct (default_handlers sigaction signals s) as [ok s1] eqn:E. apply H in E as [_ E].
  destruct ok; cbn [negb]; [|done]. destruct sigprocmask; cbn [negb]; [|done]. intros [= <-]. cbn. auto.
Qed.

(** With two bytes or more of space the new name stays in the space of the arguments and
    the environment, the terminating NUL of the last string included; with a single byte
    and nothing behind it memset() is given a negative length. *)
Theorem proc_name_in_bounds buflen namelen argv0len a b :
  2 <= buflen < 2147483648 -> 0 <= namelen ->
  (a, b) ∈ name_writes buflen namelen argv0len -> 0 <= a /\ a <= b <= buflen + 1.
Proof.
  intros Hb Hn. unfold name_writes. rewrite u64_id by lia. rewrite (proj2 (Z.eqb_neq (buflen - 1) 0)) by lia.
  rewrite u64_id by lia. rewrite !elem_of_cons, elem_of_nil. intros [[= -> ->]|[[= -> ->]|[]]]; lia.
Qed.
Example short_name_overflows : name_writes 1 20 1 = [(0, 0); (2, 18446744073709551617)].
Proof. reflexivity. Qed.
