(* ===== verification/Double.v ===== *)
(** Arithmetic of C doubles: IEEE 754 binary64, round to nearest, ties to even.

    A finite double is the rational number it stands for, and an operation is the exact
    result rounded by [rnd].  Overflow is not modelled: nothing in the development comes
    near 2^1024.  The means of Udpstream.v are computed with it. *)
From Stdlib Require Import QArith Qabs SpecFloat.
From S2P Require Import Prelude.
#[local] Open Scope Z_scope.

(** The whole number next to a fraction, the even one of two. *)
Definition half_even (num den : Z) : Z :=
  let q := num / den in
  let r := num mod den in
  if 2 * r <? den then q else if den <? 2 * r then q + 1 else if Z.even q then q else q + 1.
(** The exponent of the largest power of two that is no larger than a fraction. *)
Definition exponent (n d : Z) : Z :=
  let k := Z.log2 n - Z.log2 d in
  if n * 2 ^ Z.max 0 (- k) <? d * 2 ^ Z.max 0 k then k - 1 else k.
(** 53 significant bits, fewer below 2^-1022. *)
Definition rnd (x : Q) : Q :=
  let n := Z.abs (Qnum x) in
  let d := QDen x in
  if n =? 0 then 0%Q
  else
    let e := Z.max (exponent n d - 52) (-1074) in
    let m := half_even (n * 2 ^ Z.max 0 (- e)) (d * 2 ^ Z.max 0 e) in
    Qred ((Z.sgn (Qnum x) * m * 2 ^ Z.max 0 e) # Z.to_pos (2 ^ Z.max 0 (- e))).

Definition dadd (x y : Q) : Q := rnd (x + y).
Definition dsub (x y : Q) : Q := rnd (x - y).
Definition dmul (x y : Q) : Q := rnd (x * y).
Definition ddiv (x y : Q) : Q := rnd (x / y).

(** ** How far rounding goes *)

Lemma half_even_error num den : 0 < den -> 2 * Z.abs (half_even num den * den - num) <= den.
Proof.
  intros Hd. unfold half_even. cbv zeta. pose proof (Z.div_mod num den ltac:(lia)) as E. pose proof (Z.mod_pos_bound num den Hd).
  set (q := num / den) in *. set (r := num mod den) in *.
  assert (E0 : q * den - num = - r) by (rewrite E; ring).
  assert (E1 : (q + 1) * den - num = den - r) by (rewrite E; ring).
  destruct (Z.ltb_spec (2 * r) den); [rewrite E0; lia|]. destruct (Z.ltb_spec den (2 * r)); [rewrite E1; lia|].
  destruct (Z.even q); [rewrite E0|rewrite E1]; lia.
Qed.
Lemma pow2_split k : 2 ^ Z.max 0 k * 2 ^ Z.max 0 (- (k - 1)) = 2 * (2 ^ Z.max 0 (k - 1) * 2 ^ Z.max 0 (- k)).
Proof.
  rewrite <- !Z.pow_add_r, <- Z.pow_succ_r by lia. f_equal. lia.
Qed.
Lemma pow2_pos k : 0 < 2 ^ Z.max 0 k.
Proof. apply Z.pow_pos_nonneg; lia. Qed.
Lemma pow2_diff a b : 0 <= a -> 0 <= b -> 2 ^ a * 2 ^ Z.max 0 (- (a - b)) = 2 ^ b * 2 ^ Z.max 0 (a - b).
Proof.
  intros Ha Hb. rewrite <- !Z.pow_add_r by lia. f_equal. lia.
Qed.
(** The exponent is right from below. *)
Lemma exponent_le n d : 0 < n -> 0 < d ->
  let e := exponent n d in d * 2 ^ Z.max 0 e <= n * 2 ^ Z.max 0 (- e).
Proof.
  intros Hn Hd. unfold exponent. set (k := Z.log2 n - Z.log2 d).
  destruct (Z.ltb_spec (n * 2 ^ Z.max 0 (- k)) (d * 2 ^ Z.max 0 k)) as [Hlt|Hge]; [|exact Hge]. cbn zeta.
  destruct (Z.log2_spec n Hn) as [Hn1 _]. destruct (Z.log2_spec d Hd) as [_ Hd2].
  rewrite Z.pow_succ_r in Hd2 by apply Z.log2_nonneg.
  pose proof (pow2_diff (Z.log2 n) (Z.log2 d) (Z.log2_nonneg n) (Z.log2_nonneg d)) as E. fold k in E.
  pose proof (pow2_split k) as Es. pose proof (pow2_pos (k - 1)). pose proof (pow2_pos (- k)).
  pose proof (pow2_pos k). pose proof (pow2_pos (- (k - 1))).
  set (A := 2 ^ Z.max 0 k) in *. set (B := 2 ^ Z.max 0 (- k)) in *. set (A' := 2 ^ Z.max 0 (k - 1)) in *.
  set (B' := 2 ^ Z.max 0 (- (k - 1))) in *. set (N := 2 ^ Z.log2 n) in *. set (D := 2 ^ Z.log2 d) in *.
  assert (0 < N) by (apply Z.pow_pos_nonneg; [lia|apply Z.log2_nonneg]).
  apply (Z.mul_le_mono_pos_r _ _ (2 * B)); [lia|].
  transitivity (2 * D * (A * B')).
  - replace (d * A' * (2 * B)) with (d * (A * B')) by (rewrite Es; ring). apply Z.mul_le_mono_nonneg_r; nia.
  - replace (2 * D * (A * B')) with (2 * (N * B) * B') by (rewrite E; ring).
    replace (n * B' * (2 * B)) with (2 * (n * B) * B') by ring.
    apply Z.mul_le_mono_nonneg_r; [lia|]. apply Z.mul_le_mono_nonneg_l; [lia|]. apply Z.mul_le_mono_nonneg_r; lia.
Qed.
Lemma exponent_bound n d k : 0 < n -> 0 < d -> 0 <= k -> n <= d * 2 ^ k -> exponent n d <= k.
Proof.
  intros Hn Hd Hk Hle. pose proof (exponent_le n d Hn Hd) as He. cbn zeta in He. set (e := exponent n d) in *.
  destruct (Z.le_gt_cases e k); [done|]. rewrite (Z.max_r 0 e), (Z.max_l 0 (- e)) in He by lia.
  assert (2 ^ k < 2 ^ e) by (apply Z.pow_lt_mono_r; lia). nia.
Qed.

(** Rounding a number of at most 2^k changes it by at most 2^(k - 53). *)
Lemma rnd_error x k : 0 <= k <= 52 -> (Qabs x <= inject_Z (2 ^ k))%Q ->
  (Qabs (rnd x - x) <= 1 # Z.to_pos (2 ^ (53 - k)))%Q.
Proof.
  intros Hk Hx. unfold rnd. destruct x as [a d]. cbn [Qnum Qden]. destruct (Z.eqb_spec (Z.abs a) 0) as [Ha|Ha].
  { replace a with 0 by lia. unfold Qabs, Qminus, Qplus, Qle. cbn. lia. }
  unfold Qle, Qabs, inject_Z in Hx. cbn in Hx. rewrite Z.mul_1_r in Hx.
  assert (Hexp : exponent (Z.abs a) (Z.pos d) <= k) by (apply exponent_bound; lia).
  set (e := Z.max (exponent (Z.abs a) (Z.pos d) - 52) (-1074)).
  assert (He : -1074 <= e <= k - 52) by lia. rewrite (Z.max_r 0 (- e)), (Z.max_l 0 e) by lia. rewrite !Z.mul_1_r.
  set (P := 2 ^ (- e)). assert (HP : 2 ^ (52 - k) <= P) by (apply Z.pow_le_mono_r; lia).
  assert (HP0 : 0 < 2 ^ (52 - k)) by (apply Z.pow_pos_nonneg; lia).
  assert (HT : 2 ^ (53 - k) = 2 * 2 ^ (52 - k)) by (rewrite <- Z.pow_succ_r by lia; f_equal; lia). rewrite HT.
  set (T := 2 ^ (52 - k)) in *. clearbody P T. clear HT Hexp He e Hx Hk.
  pose proof (half_even_error (Z.abs a * P) (Z.pos d) ltac:(lia)) as Hm. set (m := half_even _ _) in *. clearbody m.
  rewrite Qred_correct. unfold Qle, Qabs, Qminus, Qplus, Qopp. cbn [Qnum Qden].
  rewrite !Pos2Z.inj_mul, !Z2Pos.id by lia. rewrite Z.mul_1_l.
  assert (Hs : Z.abs (Z.sgn a * m * Z.pos d + - a * P) = Z.abs (m * Z.pos d - Z.abs a * P)) by (destruct a; cbn in *; lia).
  rewrite Hs. nia.
Qed.

(** ** Agreement with the Standard Library *)

(** The rational number of a binary floating-point number of SpecFloat. *)
Definition of_spec (f : spec_float) : Q :=
  match f with
  | S754_finite s m e =>
      Qred (((if s then -1 else 1) * Z.pos m * 2 ^ Z.max 0 e) # Z.to_pos (2 ^ Z.max 0 (- e)))
  | _ => 0%Q
  end.
Definition to_spec (z : Z) : spec_float := binary_normalize 53 1024 z 0 false.
(** A tie, a result with a carry, and results with all 53 bits, of both signs. *)
Example agrees_with_spec :
  of_spec (SFdiv 53 1024 (to_spec 1) (to_spec 3)) = ddiv 1 3 /\
  of_spec (SFdiv 53 1024 (to_spec (-2)) (to_spec 7)) = ddiv (-2) 7 /\
  of_spec (SFadd 53 1024 (SFdiv 53 1024 (to_spec 1) (to_spec 10)) (SFdiv 53 1024 (to_spec 1) (to_spec 5)))
    = dadd (ddiv 1 10) (ddiv 1 5) /\
  of_spec (SFadd 53 1024 (to_spec 9007199254740992) (to_spec 1)) = dadd 9007199254740992 1 /\
  of_spec (SFadd 53 1024 (to_spec 9007199254740991) (SFdiv 53 1024 (to_spec 1) (to_spec 2)))
    = dadd 9007199254740991 (1 # 2) /\
  of_spec (SFmul 53 1024 (SFdiv 53 1024 (to_spec 1) (to_spec 3)) (to_spec 100)) = dmul (ddiv 1 3) 100 /\
  of_spec (SFsub 53 1024 (to_spec 20073) (SFdiv 53 1024 (to_spec 191) (to_spec 3))) = dsub 20073 (ddiv 191 3).
Proof. vm_compute. repeat split. Qed.
