(* ===== verification/Udpstream.v ===== *)
(** The udpstream test (src/tests/udpstream/udpstream_common.c, udpstream_client.c,
    udpstream_server.c): a stream of numbered packets, what the receiver records of it, and
    the statistics that are reported.

    Doubles are rounded as in Double.v.  get_packet(), sendto() and the clock are what
    they answered; a protobuf message is the record of its fields. *)
From Stdlib Require Import QArith Qround Qabs Reals Qreals Lqa.
From stdpp Require Import sorting.
From S2P Require Import Prelude CLib Bytes Run Mos Double.
#[local] Open Scope Z_scope.

(** ** Data *)

Inductive schedule_direction : Set :=
| CLIENT_TO_SERVER | SERVER_TO_CLIENT | CLIENT_THEN_SERVER | SERVER_THEN_CLIENT | DIRECTION_NOT_SET.
Record opt_t : Set := {
  cport : Z; tport : Z; packet_size : Z; packet_count : Z; packet_spacing : Z; percentile_count : Z;
  rtt_samples : Z; dscp : Z; direction : schedule_direction
}.
Record summary_t : Set := { maximum : Z; minimum : Z; mean : Z; samples : Z }.

(** The messages Period, SummaryStats, Voip and Item. *)
Inductive status : Set := LOST | RECEIVED.
#[export] Instance status_eq_dec : EqDecision status.
Proof. solve_decision. Defined.
Record period : Set := Period { p_status : status; p_length : Z }.
Record voip_t : Set := { icpif : Z; cisco_mos : Z; itu_rating : R; itu_mos : R }.
Inductive flow : Set := TO_CLIENT | TO_SERVER.
Record item : Set := {
  i_direction : option flow; i_rtt : option summary_t; jitter : option summary_t; percentiles : list Z;
  packets_received : option Z; loss_periods : list period; loss_percent : option Q; voip : option voip_t
}.
Definition item_init : item := {|
  i_direction := None; i_rtt := None; jitter := None; percentiles := []; packets_received := None;
  loss_periods := []; loss_percent := None; voip := None |}.

Definition MINIMUM_UDPSTREAM_PACKET_COUNT : Z := 2.
Definition MINIMUM_UDPSTREAM_PACKET_LENGTH : Z := 68.
Definition MAXIMUM_UDPSTREAM_PACKET_LENGTH : Z := 1500.

(** ** Numbers *)

(** Conversion of a double to uint32_t: the fraction is discarded; what does not fit is
    undefined. *)
Definition to_uint32 (x : Q) : res Z :=
  let t := Z.quot (Qnum x) (QDen x) in
  if (0 <=? t) && (t <? 4294967296) then Ok t else Fault BadConversion.
(** round() *)
Definition round (x : Q) : Q :=
  inject_Z (if 0 <=? Qnum x then Qfloor (x + (1 # 2)) else - Qfloor (- x + (1 # 2))).
(** One step of a running mean, the [n]-th value: delta = value - mean; mean += delta / n. *)
Definition mean_step (mean : Q) (value n : Z) : Q :=
  let delta := dsub (inject_Z value) mean in dadd mean (ddiv delta (inject_Z n)).

(** cmp(): the arguments are read as unsigned, the difference is an int. *)
Definition cmp (a b : Z) : Z := i32 (u32 (u32 a - u32 b)).
Definition cmp_le (a b : Z) : Prop := cmp a b <= 0.
#[export] Instance cmp_le_dec a b : Decision (cmp_le a b) := Z_le_dec _ _.
Definition qsort (l : list Z) : list Z := merge_sort cmp_le l.

(** ** Reports *)

Definition timerisset (t : timeval) : bool := negb (tv_sec t =? 0) || negb (tv_usec t =? 0).

(** report_summary(): the fields of the message are signed. *)
Definition report_summary (summary : option summary_t) : option summary_t :=
  s ← summary;
  if samples s =? 0 then None
  else Some {| maximum := i32 (maximum s); minimum := i32 (minimum s); mean := i32 (mean s); samples := samples s |}.

(** The lost packets and the runs of them. *)
Fixpoint loss_runs (l : list period) (lost runs : Z) : Z * Z :=
  match l with
  | [] => (lost, runs)
  | Period LOST n :: l => loss_runs l (i32 (lost + n)) (runs + 1)
  | Period RECEIVED _ :: l => loss_runs l lost runs
  end.
Definition report_voip (it : option item) : option voip_t :=
  it ← it; rtt ← i_rtt it; j ← jitter it;
  let owd := u32 (Z.quot (mean rtt) 2) in
  let '(lost, runs) := loss_runs (loss_periods it) 0 0 in
  let loss := default 0%Q (loss_percent it) in
  let delay := u32 (owd + maximum j) in
  let avg_loss_length := if runs =? 0 then 0 else Z.quot lost runs in
  let score := calculate_icpif delay loss in
  let rating := calculate_itu_rating delay (Q2R loss) (IZR avg_loss_length) in
  Some {| icpif := score; cisco_mos := calculate_cisco_mos score;
          itu_rating := rating; itu_mos := calculate_itu_mos rating |}.

(** *** One stream *)

(** The variables of the loop: the periods so far, the current one first, and the delay
    variations that were stored in ipdv[]. *)
Record acc : Set := { received : Z; prev : Z; ipdv : list Z; avg : Q; periods : list period }.
Definition acc_init : acc := {| received := 0; prev := 0; ipdv := []; avg := 0; periods := [] |}.

Definition count_period (s : status) (l : list period) : list period :=
  match l with
  | Period s' n :: l' => if bool_decide (s = s') then Period s' (i32 (n + 1)) :: l' else Period s 1 :: l
  | [] => [Period s 1]
  end.
Definition count_packet (count : Z) (t : timeval) (a : acc) : res acc :=
  if negb (timerisset t) then
    Ok {| received := received a; prev := prev a; ipdv := ipdv a; avg := avg a;
          periods := count_period LOST (periods a) |}
  else
    let received := u32 (received a + 1) in
    let periods := count_period RECEIVED (periods a) in
    let current := i32 (tv_us t) in
    if received =? 1 then
      Ok {| received := received; prev := current; ipdv := ipdv a; avg := avg a; periods := periods |}
    else
      let samples := Z.of_nat (length (ipdv a)) in
      let v := i32 (current - prev a) in
      if samples <? count then
        Ok {| received := received; prev := current; ipdv := ipdv a ++ [v];
              avg := mean_step (avg a) v (samples + 1); periods := periods |}
      else Fault OutOfBounds.
Fixpoint count_packets (n : nat) (i count : Z) (times : list timeval) (a : acc) : res acc :=
  match n with
  | O => Ok a
  | S n => t ← rd times i; a ← count_packet count t a; count_packets n (i + 1) count times a
  end.

(** The percentiles of the sorted variations. *)
Definition percentile_index (samples n i : Z) : Z := i32 (samples / n * (i + 1)) - 1.
Fixpoint get_percentiles (k : nat) (i n : Z) (sorted : list Z) : res (list Z) :=
  match k with
  | O => Ok []
  | S k =>
      x ← rd sorted (percentile_index (Z.of_nat (length sorted)) n i);
      l ← get_percentiles k (i + 1) n sorted;
      Ok (x :: l)
  end.

(** report_stream(); [times] is [None] for NULL. *)
Definition report_stream (dir : flow) (rtt : option summary_t) (times : option (list timeval)) (options : opt_t)
    : res item :=
  if packet_count options =? 0 then Fault OutOfBounds
  else
    match times with
    | None => Ok {| i_direction := Some dir; i_rtt := None; jitter := None; percentiles := [];
                    packets_received := None; loss_periods := []; loss_percent := None; voip := None |}
    | Some times =>
        a ← count_packets (Z.to_nat (packet_count options)) 0 (packet_count options) times acc_init;
        let samples := Z.of_nat (length (ipdv a)) in
        let with_ := fun j ps r v => {|
          i_direction := Some dir; i_rtt := r; jitter := j; percentiles := ps;
          packets_received := Some (received a); loss_periods := rev (periods a);
          loss_percent := Some (dsub 100 (dmul (ddiv (inject_Z (received a)) (inject_Z (packet_count options))) 100));
          voip := v |} in
        if samples =? 0 then Ok (with_ None [] None None)
        else
          let sorted := qsort (ipdv a) in
          hi ← rd sorted (samples - 1);
          lo ← rd sorted 0;
          m ← to_uint32 (avg a);
          let j := report_summary (Some {| maximum := u32 hi; minimum := u32 lo; mean := m; samples := samples |}) in
          let n := Z.min (percentile_count options) samples in
          ps ← get_percentiles (Z.to_nat n) 0 n sorted;
          Ok (match rtt with
              | None => with_ j ps None None
              | Some _ =>
                  let r := report_summary rtt in
                  with_ j ps r (report_voip (Some (with_ j ps r None)))
              end)
    end.

(** ** The stream *)

Definition sizeof_payload : Z := 20.
Definition be64 (x : Z) : list Z := rev (le_bytes 8 (u64 x)).
(** The payload in a buffer of [len] bytes: too large a length is one that wrapped, and
    calloc() has returned NULL. *)
Definition fill_payload (len : Z) (now : timeval) (index : Z) : res (list Z) :=
  if len >=? 9223372036854775808 then Fault NullDeref
  else if len <? sizeof_payload then Fault OutOfBounds
  else Ok (be64 (tv_sec now) ++ be64 (tv_usec now) ++ be32 index ++ replicate (Z.to_nat (len - sizeof_payload)) 0).

(** What a buffer of this function holds after a datagram was received into it; bytes that
    were never written are not there. *)
Definition into_buffer (bytes buffer : list Z) : list Z := bytes ++ drop (length bytes) buffer.
(** The first [n] bytes, if all were written. *)
Definition written (n : nat) (buffer : list Z) : res (list Z) :=
  if bool_decide (length buffer < n)%nat then Fault Uninitialised else Ok (take n buffer).
(** The time in a payload. *)
Definition sent_time (payload : list Z) : timeval :=
  Tv (i64 (be_val (take 8 payload))) (i64 (be_val (take 8 (drop 8 payload)))).
Definition payload_index (payload : list Z) : Z := be_val (take 4 (drop 16 payload)).

(** *** Round trip times *)

(** A datagram and the time it arrived. *)
Record arrival : Set := Arrival { datagram : list Z; at_ : timeval }.
Definition truncated (a : arrival) : list Z := take (Z.to_nat MAXIMUM_UDPSTREAM_PACKET_LENGTH) (datagram a).

(** The loop of receive_reflected_packets() over what arrives before get_packet() times
    out; an empty datagram ends it too.  [running] is the static variable mean. *)
Fixpoint reflected_loop (expected : Z) (arrivals : list arrival) (response : list Z) (running : Q) (rtt : summary_t)
    : res (Q * summary_t) :=
  if expected >? samples rtt then
    match arrivals with
    | [] => Ok (running, rtt)
    | a :: arrivals =>
        match truncated a with
        | [] => Ok (running, rtt)
        | bytes =>
            let response := into_buffer bytes response in
            payload ← written 16 response;
            let value := u32 (DIFF_TV_US (at_ a) (sent_time payload)) in
            let n := u32 (samples rtt + 1) in
            reflected_loop expected arrivals response (mean_step running value n)
              {| maximum := Z.max value (maximum rtt); minimum := Z.min value (minimum rtt);
                 mean := mean rtt; samples := n |}
        end
    end
  else Ok (running, rtt).
Definition receive_reflected_packets (expected : Z) (arrivals : list arrival) (running : Q) (rtt : summary_t)
    : res (Q * summary_t) :=
  _ ← c_assert (expected >? 0);
  r ← reflected_loop expected arrivals [] running rtt;
  let '(running, rtt) := r in
  m ← to_uint32 (round running);
  Ok (running, {| maximum := maximum rtt; minimum := minimum rtt; mean := m; samples := samples rtt |}).

(** *** Sending *)

(** One packet: the time, whether sendto() works and what was reflected before the next. *)
Record round_t : Set := { now : timeval; accepted : bool; reflections : list arrival }.
(** send_udp_stream() has returned NULL, or a summary if there is one to make; with the
    packets that were sent and the static mean. *)
Record sent_stream : Set := { failed : bool; rtt : option summary_t; packets : list (list Z); static_mean : Q }.

Definition expected_samples (options : opt_t) : Z := u32 (packet_count options / rtt_samples options).
Fixpoint send_loop (n : nat) (i : Z) (options : opt_t) (len : Z) (rounds : list round_t) (st : sent_stream)
    : res sent_stream :=
  match n, rounds with
  | O, _ => Ok st
  | S _, [] => Fault OutOfFuel
  | S n, r :: rounds =>
      payload ← fill_payload len (now r) i;
      if negb (accepted r) then
        Ok {| failed := true; rtt := None; packets := packets st; static_mean := static_mean st |}
      else
        let packets := packets st ++ [payload] in
        match rtt st with
        | Some s =>
            m ← receive_reflected_packets (expected_samples options) (reflections r) (static_mean st) s;
            send_loop n (i + 1) options len rounds
              {| failed := false; rtt := Some (snd m); packets := packets; static_mean := fst m |}
        | None =>
            send_loop n (i + 1) options len rounds
              {| failed := false; rtt := None; packets := packets; static_mean := static_mean st |}
        end
  end.
(** [ip_header] is the size of the header of the address family, [None] for another
    family; [late] is what arrives during the final wait. *)
Definition send_udp_stream (ip_header : option Z) (dscp_ok : bool) (options : opt_t) (rounds : list round_t)
    (late : list arrival) (running : Q) : res sent_stream :=
  let fail := {| failed := true; rtt := None; packets := []; static_mean := running |} in
  match ip_header with
  | None => Ok fail
  | Some hdr =>
      if negb (dscp options =? 0) && negb dscp_ok then Ok fail
      else
        let start := if rtt_samples options >? 0
                     then Some {| maximum := 0; minimum := 4294967295; mean := 0; samples := 0 |} else None in
        let len := u64 (packet_size options - hdr - 8) in
        st ← send_loop (Z.to_nat (packet_count options)) 0 options len rounds
               {| failed := false; rtt := start; packets := []; static_mean := running |};
        match failed st, rtt st with
        | false, Some s =>
            m ← receive_reflected_packets (expected_samples options) late (static_mean st) s;
            Ok {| failed := false; rtt := Some (snd m); packets := packets st; static_mean := fst m |}
        | _, _ => Ok st
        end
  end.

(** *** Receiving *)

(** One round of get_packet(): what arrived, or [None] for a timeout.  The result has the
    times of the packets and the packets that were reflected. *)
Fixpoint receive_loop (n : nat) (options : opt_t) (arrivals : list (option arrival)) (buffer : list Z)
    (times : list timeval) (reflected : list (list Z)) : res (list timeval * list (list Z)) :=
  match n with
  | O => Ok (times, reflected)
  | S n =>
      match mjoin (head arrivals) with
      | None => receive_loop n options (tail arrivals) buffer times reflected
      | Some a =>
          match truncated a with
          | [] => receive_loop n options (tail arrivals) buffer times reflected
          | bytes =>
              let buffer := into_buffer bytes buffer in
              payload ← written 20 buffer;
              let index := payload_index payload in
              if index <? packet_count options then
                let reflected :=
                  if (rtt_samples options >? 0) && (index mod rtt_samples options =? 0) then reflected ++ [bytes]
                  else reflected in
                times ← wr times index (evutil_timersub (at_ a) (sent_time payload));
                receive_loop n options (tail arrivals) buffer times reflected
              else receive_loop n options (tail arrivals) buffer times reflected
          end
      end
  end.
Definition receive_udp_stream (options : opt_t) (arrivals : list (option arrival)) (times : list timeval)
    : res (list timeval * list (list Z)) :=
  receive_loop (Z.to_nat (packet_count options)) options arrivals [] times [].

(** *** Options and messages *)

(** The checks of the client before a test. *)
Definition check_options (o : opt_t) : opt_t :=
  let count := if packet_count o <? MINIMUM_UDPSTREAM_PACKET_COUNT then MINIMUM_UDPSTREAM_PACKET_COUNT
               else packet_count o in
  let size := if packet_size o <? MINIMUM_UDPSTREAM_PACKET_LENGTH then MINIMUM_UDPSTREAM_PACKET_LENGTH
              else packet_size o in
  let size := if size >? MAXIMUM_UDPSTREAM_PACKET_LENGTH then MAXIMUM_UDPSTREAM_PACKET_LENGTH else size in
  {| cport := cport o; tport := tport o; packet_size := size; packet_count := count;
     packet_spacing := packet_spacing o; percentile_count := percentile_count o;
     rtt_samples := if rtt_samples o >? count then count else rtt_samples o;
     dscp := dscp o; direction := direction o |}.

(** The message Hello. *)
Record hello_t : Set := {
  h_test_port : Z; h_packet_size : Z; h_packet_spacing : Z; h_packet_count : Z; h_percentile_count : Z;
  h_dscp : Z; h_rtt_samples : Z
}.
Definition build_hello (o : opt_t) : hello_t := {|
  h_test_port := tport o; h_packet_size := packet_size o; h_packet_spacing := packet_spacing o;
  h_packet_count := packet_count o; h_percentile_count := percentile_count o; h_dscp := dscp o;
  h_rtt_samples := rtt_samples o |}.
(** parse_hello() of what was unpacked; the fields of the message have 32 bits. *)
Definition parse_hello (hello : option hello_t) : res opt_t :=
  match hello with
  | None => Fault NullDeref
  | Some h => Ok {|
      cport := 0; tport := u16 (h_test_port h); packet_size := u16 (h_packet_size h);
      packet_count := u16 (h_packet_count h); packet_spacing := h_packet_spacing h;
      percentile_count := h_percentile_count h; rtt_samples := h_rtt_samples h; dscp := u8 (h_dscp h);
      direction := CLIENT_TO_SERVER |}
  end.

Definition build_schedule (o : opt_t) : list flow :=
  match direction o with
  | CLIENT_TO_SERVER => [TO_SERVER]
  | SERVER_TO_CLIENT => [TO_CLIENT]
  | SERVER_THEN_CLIENT => [TO_CLIENT; TO_SERVER]
  | CLIENT_THEN_SERVER => [TO_SERVER; TO_CLIENT]
  | DIRECTION_NOT_SET => []
  end.

(** The server receives a stream: the result it sends back and what it reflects. *)
Definition do_receive (options : opt_t) (arrivals : list (option arrival)) : res (item * list (list Z)) :=
  r ← receive_udp_stream options arrivals (replicate (Z.to_nat (packet_count options)) (Tv 0 0));
  it ← report_stream TO_SERVER None (Some (fst r)) options;
  Ok (it, snd r).
(** The server has sent a stream: the result holds just the round trip times. *)
Definition do_send (st : sent_stream) : item := {|
  i_direction := None; i_rtt := report_summary (rtt st); jitter := None; percentiles := [];
  packets_received := None; loss_periods := []; loss_percent := None; voip := None |}.

(** The client adds its round trip times to the result of the server. *)
Definition merge_results (results : option item) (rtt : option summary_t) : res (option item) :=
  match rtt with
  | None => Ok results
  | Some _ =>
      match results with
      | None => Fault NullDeref
      | Some it =>
          let with_ := fun v => {|
            i_direction := i_direction it; i_rtt := report_summary rtt; jitter := jitter it;
            percentiles := percentiles it; packets_received := packets_received it;
            loss_periods := loss_periods it; loss_percent := loss_percent it; voip := v |} in
          Ok (Some (with_ (report_voip (Some (with_ (voip it))))))
      end
  end.
Definition extract_summary (it : option item) : res (option summary_t) :=
  match it with
  | None => Fault NullDeref
  | Some it => Ok ((fun s => {| maximum := u32 (maximum s); minimum := u32 (minimum s); mean := u32 (mean s);
                                samples := samples s |}) <$> i_rtt it)
  end.

(** The reports of a test, the local one first. *)
Definition report_results (local_report server_report : option item) : res (list item) :=
  _ ← c_assert (bool_decide (is_Some local_report) || bool_decide (is_Some server_report));
  Ok (option_list local_report ++ option_list server_report).

(** ** Runs of packets *)

(** What the periods of a report say of each packet. *)
Definition expand (l : list period) : list status := l ≫= (fun p => replicate (Z.to_nat (p_length p)) (p_status p)).
(** Periods of different packets follow each other. *)
Fixpoint maximal (l : list period) : Prop :=
  match l with
  | p :: (p' :: _) as l => p_status p <> p_status p' /\ maximal l
  | _ => True
  end.
Definition status_of (t : timeval) : status := if timerisset t then RECEIVED else LOST.

Lemma maximal_app l p p' : maximal (l ++ [p]) -> p_status p <> p_status p' -> maximal (l ++ [p; p']).
Proof.
  induction l as [|q [|q' l] IH]; cbn; [done|naive_solver|]. intros [Hq Hm] Hne. split; [done|]. by apply IH.
Qed.
Lemma maximal_change l p p' : p_status p = p_status p' -> maximal (l ++ [p]) -> maximal (l ++ [p']).
Proof.
  intros Hs. induction l as [|q [|q' l] IH]; cbn; [done|rewrite Hs; naive_solver|].
  intros [Hq Hm]. split; [done|]. by apply IH.
Qed.

(** The periods of a list of packets: each once, as long as possible. *)
Definition run_lengths (ss : list status) (l : list period) : Prop :=
  expand l = ss /\ maximal l /\ Forall (fun p => 0 < p_length p) l.

Lemma count_period_runs s ss l :
  Z.of_nat (length ss) < 2147483647 -> run_lengths ss (rev l) -> run_lengths (ss ++ [s]) (rev (count_period s l)).
Proof.
  intros Hlen (He & Hm & Hp). assert (Happ : forall a b, expand (a ++ b) = expand a ++ expand b) by (intros; apply bind_app).
  destruct l as [|[s' n] l]; cbn [count_period].
  { cbn in *. subst ss. split_and!; [done|done|by repeat constructor]. }
  cbn [rev] in He, Hm, Hp. apply Forall_app in Hp as [Hp Hn]. rewrite Forall_singleton in Hn. cbn in Hn.
  rewrite Happ in He. cbn in He. rewrite app_nil_r in He.
  assert (Hsmall : n < 2147483647) by (rewrite <- He, length_app, length_replicate in Hlen; lia).
  case_bool_decide as Hs; cbn [rev]; unfold run_lengths.
  - subst s'. split_and!.
    + rewrite Happ. cbn. rewrite app_nil_r, i32_id by lia. rewrite <- He, <- app_assoc. f_equal.
      replace (Z.to_nat (n + 1)) with (Z.to_nat n + 1)%nat by lia. by rewrite replicate_add.
    + by apply (maximal_change _ (Period s n)).
    + apply Forall_app. split; [done|]. apply Forall_singleton. cbn. rewrite i32_id; lia.
  - rewrite <- app_assoc. cbn [app]. split_and!.
    + rewrite Happ, <- He, <- app_assoc. cbn. done.
    + apply maximal_app; [done|]. cbn. congruence.
    + apply Forall_app. split; [done|]. repeat constructor; cbn; lia.
Qed.

(** ** Means *)

Definition sum (l : list Z) : Z := foldr Z.add 0 l.
Lemma sum_app a b : sum (a ++ b) = sum a + sum b.
Proof. induction a as [|x a IH]; cbn; [done|]. unfold sum in *. lia. Qed.

(** The average of some values. *)
Definition mean_of (m : Q) (l : list Z) : Prop := (m * inject_Z (Z.of_nat (length l)) == inject_Z (sum l))%Q.
(** The running mean, as the code computes it. *)
Fixpoint running_from (n : Z) (m : Q) (l : list Z) : Q :=
  match l with [] => m | v :: l => running_from (n + 1) (mean_step m v (n + 1)) l end.
Definition running_mean (l : list Z) : Q := running_from 0 0 l.
Lemma running_snoc l v : running_mean (l ++ [v]) = mean_step (running_mean l) v (Z.of_nat (length l) + 1).
Proof.
  unfold running_mean. cut (forall n m, running_from n m (l ++ [v]) =
    mean_step (running_from n m l) v (n + Z.of_nat (length l) + 1)); [intros H; by rewrite H|].
  induction l as [|x l IH]; intros n m; cbn [running_from app length].
  - by rewrite Z.add_0_r.
  - rewrite IH. f_equal. lia.
Qed.

(** It is near the average: every step rounds three times, by at most 2^-19 each. *)
Definition ulp : Q := 1 # 524288.
Definition near_mean (m : Q) (l : list Z) : Prop :=
  exists M, mean_of M l /\ (- (4294967296) <= M <= 4294967296)%Q /\
    (Qabs (m - M) <= inject_Z (3 * Z.of_nat (length l)) * ulp)%Q.

Lemma rnd_near x : (- (17179869184) <= x <= 17179869184)%Q -> (- ulp <= rnd x - x <= ulp)%Q.
Proof.
  intros Hx. apply Qabs_Qle_condition, (rnd_error x 34); [lia|]. by apply Qabs_Qle_condition.
Qed.
Lemma scaled_bound (a b w : Q) : (- b <= a <= b -> 0 <= w <= 1 -> - b <= a * w <= b)%Q.
Proof. intros. nra. Qed.
Lemma inverse_range n : 0 <= n -> (0 <= / inject_Z (n + 1) <= 1)%Q.
Proof.
  intros Hn. destruct (n + 1) as [|p|p] eqn:E; [lia| |lia]. unfold inject_Z, Qinv, Qle. cbn. lia.
Qed.
Lemma average_step M n v : 0 <= n ->
  let w := (/ inject_Z (n + 1))%Q in
  (- (4294967296) <= M <= 4294967296)%Q -> -4294967296 <= v <= 4294967296 ->
  (- (4294967296) <= M + (inject_Z v - M) * w <= 4294967296)%Q.
Proof.
  intros Hn w HM Hv. pose proof (inverse_range n Hn) as Hw. fold w in Hw. clearbody w.
  assert (Hv' : (- (4294967296) <= inject_Z v <= 4294967296)%Q) by (unfold Qle, inject_Z; cbn; lia).
  set (V := inject_Z v) in *. clearbody V. nra.
Qed.
Lemma mean_step_near m l v :
  near_mean m l -> Z.of_nat (length l) < 65535 -> -4294967296 <= v <= 4294967296 ->
  near_mean (mean_step m v (Z.of_nat (length l) + 1)) (l ++ [v]).
Proof.
  intros (M & HM & Hb & Hm) Hl Hv. set (n := Z.of_nat (length l)) in *. assert (Hn : 0 <= n < 65535) by lia.
  pose proof (inverse_range n ltac:(lia)) as Hw. pose proof (average_step M n v ltac:(lia) Hb Hv) as Hb'. cbn zeta in Hb'.
  exists (M + (inject_Z v - M) * / inject_Z (n + 1))%Q. split; [|split; [exact Hb'|]].
  { unfold mean_of in *. rewrite length_app, sum_app. cbn [length sum foldr].
    rewrite Z.add_0_r, Nat2Z.inj_add. change (Z.of_nat 1) with 1. fold n in HM |- *.
    assert (Hne : (~ inject_Z (n + 1)%Z == 0)%Q) by (intros E; unfold Qeq in E; cbn in E; lia).
    rewrite inject_Z_plus in *. rewrite (inject_Z_plus (sum l)). setoid_rewrite <- HM. field. exact Hne. }
  rewrite length_app. cbn [length]. replace (3 * Z.of_nat (length l + 1)) with (3 * n + 3) by lia.
  apply Qabs_Qle_condition. apply Qabs_Qle_condition in Hm. rewrite inject_Z_plus.
  assert (HE : (0 <= inject_Z (3 * n) * ulp <= 1)%Q) by (unfold Qle, inject_Z, ulp; cbn; lia).
  assert (HV : (- (4294967296) <= inject_Z v <= 4294967296)%Q) by (unfold Qle, inject_Z; cbn; lia).
  change (inject_Z 3) with 3%Q. unfold mean_step, dadd, dsub, ddiv, Qdiv.
  set (E := (inject_Z (3 * n) * ulp)%Q) in *. set (V := inject_Z v) in *. set (w := (/ inject_Z (n + 1))%Q) in *.
  assert (HE' : ((inject_Z (3 * n) + 3) * ulp == E + 3 * ulp)%Q) by (unfold E; ring). rewrite HE'. clear HE'.
  clearbody E V w. assert (Hu : (0 <= ulp <= 1)%Q) by (unfold ulp, Qle; cbn; lia).
  assert (H1 : (- ulp <= rnd (V - m) - (V - m) <= ulp)%Q) by (apply rnd_near; lra).
  set (d := rnd (V - m)) in *. clearbody d.
  assert (Hd : (- (8589934595) <= d * w <= 8589934595)%Q) by (apply scaled_bound; lra).
  assert (H2 : (- ulp <= rnd (d * w) - d * w <= ulp)%Q) by (apply rnd_near; lra).
  set (q := rnd (d * w)) in *. clearbody q.
  assert (H3 : (- ulp <= rnd (m + q) - (m + q) <= ulp)%Q) by (apply rnd_near; lra).
  set (r := rnd (m + q)) in *. clearbody r.
  assert (H4 : (- ulp <= (d - (V - m)) * w <= ulp)%Q) by (by apply scaled_bound).
  assert (H5 : (- E <= (m - M) * (1 - w) <= E)%Q) by (apply scaled_bound; [done|lra]).
  assert (Hsum : (r - (M + (V - M) * w) ==
    (r - (m + q)) + (q - d * w) + (d - (V - m)) * w + (m - M) * (1 - w))%Q) by ring.
  rewrite Hsum. lra.
Qed.
Lemma running_mean_near l :
  Z.of_nat (length l) <= 65535 -> Forall (fun v => -4294967296 <= v <= 4294967296) l -> near_mean (running_mean l) l.
Proof.
  induction l as [|v l IH] using rev_ind; intros Hl Hv.
  - exists 0%Q. unfold mean_of. cbn. repeat split; unfold Qle; cbn; lia.
  - rewrite length_app in Hl. cbn in Hl. apply Forall_app in Hv as [Hv Hv'%Forall_cons]. rewrite running_snoc.
    apply mean_step_near; [apply IH; [lia|done]|lia|by destruct Hv'].
Qed.

(** ** Variations *)

(** Differences of successive values. *)
Definition diffs (l : list Z) : list Z := zip_with (fun a b => b - a) l (tail l).
Lemma diffs_snoc l x y : diffs (l ++ [x; y]) = diffs (l ++ [x]) ++ [y - x].
Proof.
  induction l as [|a l IH]; [done|]. destruct l as [|b l]; [done|].
  change (diffs ((a :: b :: l) ++ [x; y])) with ((b - a) :: diffs ((b :: l) ++ [x; y])).
  rewrite IH. done.
Qed.
Lemma diffs_length l : length (diffs l) = (length l - 1)%nat.
Proof. unfold diffs. rewrite length_zip_with. destruct l; cbn [length tail]; lia. Qed.
Lemma diffs_telescope x l : sum (diffs (x :: l)) = default x (last l) - x.
Proof.
  revert x. induction l as [|y l IH]; intros x; [cbn; lia|].
  change (sum (diffs (x :: y :: l))) with (y - x + sum (diffs (y :: l))). rewrite IH.
  destruct l as [|z l]; [cbn; lia|]. rewrite last_cons_cons.
  destruct (last (z :: l)) eqn:E; [cbn [default]; lia|by apply last_None in E].
Qed.

(** ** Sorting *)

(** Numbers whose differences fit an int. *)
Definition narrow (l : list Z) : Prop :=
  exists lo, -2147483648 <= lo /\ Forall (fun x => lo <= x <= lo + 2147483647) l.
Lemma cmp_order a b : -2147483648 <= a - b < 2147483648 -> cmp a b = a - b.
Proof.
  intros H. unfold cmp, i32, u32. Z.div_mod_to_equations. lia.
Qed.
#[export] Instance cmp_total : Total cmp_le.
Proof.
  intros a b. unfold cmp_le, cmp, i32, u32. Z.div_mod_to_equations. lia.
Qed.

Lemma narrow_perm l l' : l ≡ₚ l' -> narrow l -> narrow l'.
Proof. intros Hp (lo & Hlo & H). exists lo. split; [done|]. by rewrite <- Hp. Qed.
Lemma narrow_cmp l a b : narrow l -> a ∈ l -> b ∈ l -> cmp_le a b -> a <= b.
Proof.
  intros (lo & Hlo & H) Ha Hb Hc. rewrite Forall_forall in H. pose proof (H _ Ha). pose proof (H _ Hb).
  unfold cmp_le in Hc. rewrite cmp_order in Hc; lia.
Qed.
Lemma narrow_sorted l : narrow l -> Sorted cmp_le l -> Sorted Z.le l.
Proof.
  intros Hn Hs. induction Hs as [|x l Hs IH Hx]; constructor.
  - apply IH. destruct Hn as (lo & ? & H). exists lo. split; [done|]. by inversion H.
  - inversion Hx as [|y l' Hxy]; subst; constructor. eapply narrow_cmp; [exact Hn|set_solver..|done].
Qed.

(** qsort() with cmp() sorts, although cmp() reads signed numbers as unsigned. *)
Lemma qsort_sorts l : narrow l -> StronglySorted Z.le (qsort l) /\ qsort l ≡ₚ l.
Proof.
  intros Hn. assert (Hp : qsort l ≡ₚ l) by apply merge_sort_Permutation. split; [|done].
  apply Sorted_StronglySorted; [intros ???; apply Z.le_trans|].
  apply narrow_sorted; [by eapply narrow_perm; [symmetry|]|]. apply (Sorted_merge_sort cmp_le).
Qed.

(** ** Counting a stream *)

(** The delays of the packets that have a time. *)
Definition delays (times : list timeval) : list Z := tv_us <$> filter (fun t => timerisset t = true) times.
(** Successive delays differ by less than 2^30 microseconds, about 18 minutes. *)
Definition steady (times : list timeval) : Prop := Forall (fun d => -1073741824 <= d < 1073741824) (diffs (delays times)).

Lemma delays_app a b : delays (a ++ b) = delays a ++ delays b.
Proof. unfold delays. by rewrite filter_app, fmap_app. Qed.
Lemma diffs_app_prefix a b : exists c, diffs (a ++ b) = diffs a ++ c.
Proof.
  induction b as [|y b [c IH]] using rev_ind; [exists []; by rewrite !app_nil_r|].
  rewrite app_assoc. destruct (a ++ b) as [|z l] eqn:E using rev_ind.
  - apply app_nil in E as [-> ->]. by exists [].
  - clear IHl. rewrite <- app_assoc. cbn [app]. rewrite diffs_snoc, IH. exists (c ++ [y - z]). by rewrite app_assoc.
Qed.
Lemma steady_app a b : steady (a ++ b) -> steady a.
Proof.
  unfold steady. rewrite delays_app. destruct (diffs_app_prefix (delays a) (delays b)) as [c ->].
  by intros [H _]%Forall_app.
Qed.
Lemma i32_sub a b : i32 (i32 a - i32 b) = i32 (a - b).
Proof. unfold i32. Z.div_mod_to_equations. lia. Qed.

Record counted (ts : list timeval) (a : acc) : Prop := {
  counted_received : received a = Z.of_nat (length (delays ts));
  counted_prev : forall x, last (delays ts) = Some x -> prev a = i32 x;
  counted_ipdv : ipdv a = diffs (delays ts);
  counted_avg : avg a = running_mean (ipdv a);
  counted_periods : run_lengths (status_of <$> ts) (rev (periods a))
}.
Lemma counted_init : counted [] acc_init.
Proof. by split. Qed.

Lemma delays_le ts : (length (delays ts) <= length ts)%nat.
Proof. unfold delays. rewrite length_fmap. apply length_filter. Qed.

Lemma count_packet_step count ts t a :
  Z.of_nat (length ts) < count <= 65535 -> steady (ts ++ [t]) -> counted ts a ->
  exists a', count_packet count t a = Ok a' /\ counted (ts ++ [t]) a'.
Proof.
  intros Hc Hs [Hr Hp Hi Ha Hl]. unfold count_packet. pose proof (delays_le ts) as Hle.
  assert (Hper : run_lengths (status_of <$> ts ++ [t]) (rev (count_period (status_of t) (periods a)))).
  { rewrite fmap_app. apply count_period_runs; [rewrite length_fmap; lia|done]. }
  unfold steady in Hs. rewrite delays_app in Hs. unfold status_of in Hper at 2.
  destruct (timerisset t) eqn:Et; cbn [negb].
  2:{ eexists. split; [reflexivity|].
      assert (Hd : delays (ts ++ [t]) = delays ts).
      { rewrite delays_app. unfold delays at 2. rewrite filter_cons_False by (rewrite Et; done). cbn. by rewrite app_nil_r. }
      split; cbn; rewrite ?Hd; done. }
  assert (Hd : delays [t] = [tv_us t]) by (unfold delays; by rewrite filter_cons_True).
  rewrite Hd in Hs.
  assert (Hlen : length (delays (ts ++ [t])) = S (length (delays ts))) by (rewrite delays_app, Hd, length_app; cbn; lia).
  rewrite Hr, u32_id by lia.
  destruct (delays ts) as [|z l _] eqn:E using rev_ind.
  - cbn -[Z.of_nat]. change (Z.of_nat 0 + 1 =? 1) with true. cbv iota. eexists. split; [reflexivity|].
    split; cbn; rewrite ?Hlen, ?delays_app, ?Hd, ?E; try done.
    intros x Hx. by injection Hx as <-.
  - rewrite length_app in *. cbn [length] in *. destruct (Z.eqb_spec (Z.of_nat (length l + 1) + 1) 1); [lia|].
    rewrite <- app_assoc in Hs. cbn [app] in Hs. rewrite diffs_snoc in Hs. apply Forall_app in Hs as [_ Hs].
    rewrite Forall_singleton in Hs.
    assert (Hv : i32 (i32 (tv_us t) - prev a) = tv_us t - z).
    { rewrite (Hp z) by (by rewrite last_snoc). rewrite i32_sub, i32_id; lia. }
    rewrite Hv, Hi, diffs_length, length_app. cbn [length].
    destruct (Z.ltb_spec (Z.of_nat (length l + 1 - 1)) count); [|lia].
    eexists. split; [reflexivity|]. split; cbn [received prev ipdv avg periods].
    + lia.
    + rewrite delays_app, Hd, last_snoc. intros x Hx. by injection Hx as <-.
    + rewrite delays_app, Hd, E, <- app_assoc. cbn [app]. by rewrite diffs_snoc.
    + replace (Z.of_nat (length l + 1 - 1) + 1) with (Z.of_nat (length (diffs (l ++ [z]))) + 1)
        by (rewrite diffs_length, length_app; cbn; lia).
      by rewrite running_snoc, Ha, Hi.
    + done.
Qed.

Lemma count_packets_counts count rest : forall ts a,
  Z.of_nat (length (ts ++ rest)) = count -> count <= 65535 -> steady (ts ++ rest) -> counted ts a ->
  exists a', count_packets (length rest) (Z.of_nat (length ts)) count (ts ++ rest) a = Ok a' /\ counted (ts ++ rest) a'.
Proof.
  induction rest as [|t rest IH]; intros ts a Hc Hm Hs Ha; cbn [length count_packets].
  { exists a. by rewrite app_nil_r. }
  rewrite rd_app_0. cbn [rd]. change (rd (t :: rest) 0) with (Ok t). cbn [mbind res_bind].
  assert (Hassoc : ts ++ t :: rest = (ts ++ [t]) ++ rest) by (by rewrite <- app_assoc). rewrite Hassoc in *.
  destruct (count_packet_step count ts t a) as (a1 & -> & H1); [|by eapply steady_app|done|].
  { rewrite !length_app in Hc. cbn in Hc. lia. }
  cbn. replace (Z.of_nat (length ts) + 1) with (Z.of_nat (length (ts ++ [t]))) by (rewrite length_app; cbn; lia).
  by apply IH.
Qed.

(** ** Percentiles *)

Lemma percentile_bounds samples n i :
  0 < n <= samples -> samples < 2147483648 -> 0 <= i < n ->
  percentile_index samples n i = samples / n * (i + 1) - 1 /\ 0 <= percentile_index samples n i < samples.
Proof.
  intros Hn Hs Hi. unfold percentile_index.
  assert (Hq : 1 <= samples / n) by (apply Z.div_le_lower_bound; lia).
  assert (Hm : samples / n * (i + 1) <= samples).
  { transitivity (samples / n * n); [nia|]. rewrite Z.mul_comm. apply Z.mul_div_le. lia. }
  rewrite i32_id by nia. nia.
Qed.
Lemma get_percentiles_spec sorted n : forall k i,
  let samples := Z.of_nat (length sorted) in
  0 < n <= samples -> samples < 2147483648 -> 0 <= i -> i + Z.of_nat k <= n ->
  exists l, get_percentiles k i n sorted = Ok l /\ length l = k /\
    forall j x, l !! j = Some x -> sorted !! Z.to_nat (samples / n * (i + Z.of_nat j + 1) - 1) = Some x.
Proof.
  induction k as [|k IH]; intros i samples Hn Hs Hi Hk; cbn [get_percentiles]; [by exists []|].
  destruct (percentile_bounds samples n i Hn Hs) as [He Hb]; [lia|]. fold samples.
  destruct (rd_in_bounds sorted _ Hb) as [x Hx]. rewrite Hx. cbn [mbind res_bind].
  destruct (IH (i + 1) Hn Hs) as (l & -> & Hl & Hspec); [lia..|]. cbn. exists (x :: l).
  split_and!; [done|cbn; lia|]. intros [|j] y Hy; cbn in Hy.
  - injection Hy as <-. apply rd_Ok in Hx as [_ Hx]. by rewrite Z.add_0_r, <- He.
  - replace (i + Z.of_nat (S j) + 1) with (i + 1 + Z.of_nat j + 1) by lia. by apply Hspec.
Qed.

(** ** A stream is reported as it was received *)

Lemma diffs_bounded_sum l : Forall (fun d => -1073741824 <= d < 1073741824) l ->
  -1073741824 * Z.of_nat (length l) <= sum l <= 1073741824 * Z.of_nat (length l).
Proof. intros H. induction H as [|x l Hx _ IH]; cbn [sum foldr length]; [lia|]. unfold sum in *. lia. Qed.

Lemma quot_range s n : 0 < n -> - n < s <= 1073741824 * n -> 0 <= Z.quot s n <= 1073741824.
Proof.
  intros Hn Hs. destruct (Z.le_gt_cases 0 s).
  - split; [apply Z.quot_pos; lia|]. apply Z.quot_le_upper_bound; lia.
  - rewrite <- (Z.opp_involutive s), Z.quot_opp_l, Z.quot_small by lia. lia.
Qed.
(** What the conversion of a running mean gives. *)
Lemma quot_nonneg a b : 0 < b -> 0 <= Z.quot a b <-> - b < a.
Proof.
  intros Hb. pose proof (Z.quot_rem' a b). pose proof (Z.rem_bound_abs a b ltac:(lia)). split; intros; [nia|].
  destruct (Z.le_gt_cases 0 a); [apply Z.quot_pos; lia|].
  rewrite <- (Z.opp_involutive a), Z.quot_opp_l, Z.quot_small by lia. lia.
Qed.
Lemma to_uint32_running l :
  l <> [] -> Z.of_nat (length l) <= 65535 -> Forall (fun d => -1073741824 <= d < 1073741824) l ->
  let m := running_mean l in
  to_uint32 m = (if Qle_bool m (-1) then Fault BadConversion else Ok (Z.quot (Qnum m) (QDen m))) /\
  Z.quot (Qnum m) (QDen m) < 2147483648 /\
  (Qabs (m * inject_Z (Z.of_nat (length l)) - inject_Z (sum l))
     <= inject_Z (3 * Z.of_nat (length l) * Z.of_nat (length l)) * ulp)%Q.
Proof.
  intros Hl Hlen Hb m. destruct (running_mean_near l) as (M & HM & _ & Hm); [done|eapply Forall_impl; [exact Hb|cbn; lia]|].
  fold m in Hm. clearbody m. apply diffs_bounded_sum in Hb. set (n := Z.of_nat (length l)) in *.
  assert (Hn : 0 < n) by (subst n; destruct l; [done|cbn; lia]).
  assert (HM' : (M <= 1073741824)%Q) by (unfold mean_of, Qeq, Qle, inject_Z in *; cbn in *; fold n in HM; nia).
  unfold mean_of in HM. fold n in HM. apply Qabs_Qle_condition in Hm.
  assert (HE : (inject_Z (3 * n) * ulp <= 1)%Q) by (unfold Qle, inject_Z, ulp; cbn; lia).
  assert (Hup : Z.quot (Qnum m) (QDen m) <= 1073741825).
  { apply Z.quot_le_upper_bound; [lia|]. assert (Hle : (m <= 1073741825)%Q) by lra.
    unfold Qle in Hle. cbn in Hle. lia. }
  split; [|split; [lia|]].
  - unfold to_uint32. destruct (Z.ltb_spec (Z.quot (Qnum m) (QDen m)) 4294967296); [|lia].
    destruct (Qle_bool m (-1)) eqn:E.
    + apply Qle_bool_iff in E. unfold Qle in E. cbn in E.
      destruct (Z.leb_spec 0 (Z.quot (Qnum m) (QDen m))) as [H0|H0]; [|done]. apply quot_nonneg in H0; lia.
    + destruct (Z.leb_spec 0 (Z.quot (Qnum m) (QDen m))) as [H0|H0]; [done|]. exfalso.
      enough (Ht : Qle_bool m (-1) = true) by congruence. apply Qle_bool_iff. unfold Qle. cbn.
      destruct (Z.le_gt_cases (Qnum m * 1) (- QDen m)) as [|Hgt]; [lia|].
      assert (0 <= Z.quot (Qnum m) (QDen m)) by (apply quot_nonneg; lia). lia.
  - assert (Hn' : (0 <= inject_Z n)%Q) by (unfold Qle, inject_Z; cbn; lia).
    assert (Hs : (m * inject_Z n - inject_Z (sum l) == (m - M) * inject_Z n)%Q) by (rewrite <- HM; ring).
    rewrite Hs, (inject_Z_mult (3 * n)). apply Qabs_Qle_condition.
    set (E := (inject_Z (3 * n) * ulp)%Q) in *.
    assert (HE2 : (inject_Z (3 * n) * inject_Z n * ulp == E * inject_Z n)%Q) by (unfold E; ring). rewrite HE2.
    clearbody E. set (N := inject_Z n) in *. clearbody N. nra.
Qed.

(** The change of the delay over a stream, which is the sum of the variations. *)
Definition drift (ds : list Z) : Z := default 0 (last ds) - default 0 (head ds).
Lemma sum_diffs ds : sum (diffs ds) = drift ds.
Proof.
  destruct ds as [|x l]; [done|]. rewrite diffs_telescope. unfold drift. rewrite last_cons. cbn. by destruct (last l).
Qed.

(** What a report says of the variations of delay. *)
Definition jitter_of (options : opt_t) (ds : list Z) (it : item) : Prop :=
  let n := Z.of_nat (length (diffs ds)) in
  let k := Z.min (percentile_count options) n in
  exists j sorted, jitter it = Some j /\ StronglySorted Z.le sorted /\ sorted ≡ₚ diffs ds /\
    samples j = n /\ head sorted = Some (minimum j) /\ last sorted = Some (maximum j) /\
    mean j = Z.quot (Qnum (running_mean (diffs ds))) (QDen (running_mean (diffs ds))) /\
    (Qabs (running_mean (diffs ds) * inject_Z n - inject_Z (drift ds)) <= inject_Z (3 * n * n) * ulp)%Q /\
    length (percentiles it) = Z.to_nat k /\
    forall i x, percentiles it !! i = Some x -> sorted !! Z.to_nat (n / k * (Z.of_nat i + 1) - 1) = Some x.

Lemma i32_u32 z : -2147483648 <= z < 2147483648 -> i32 (u32 z) = z.
Proof. intros. unfold i32, u32. Z.div_mod_to_equations. lia. Qed.

(** The percentage of loss, with three roundings. *)
Lemma loss_percentage r count : 0 < count -> 0 <= r <= count ->
  (Qabs (dsub 100 (dmul (ddiv (inject_Z r) (inject_Z count)) 100) - 100 * inject_Z (count - r) / inject_Z count)
     <= 1 # 17592186044416)%Q.
Proof.
  intros Hc Hr. unfold dsub, dmul, ddiv. set (x := (inject_Z r / inject_Z count)%Q).
  assert (Hx : (0 <= x <= 1)%Q).
  { unfold x, Qdiv. destruct count as [|p|p]; [lia| |lia]. unfold inject_Z, Qinv, Qmult, Qle. cbn. lia. }
  assert (Hex : (100 * inject_Z (count - r) / inject_Z count == 100 - 100 * x)%Q).
  { unfold x, Z.sub. rewrite inject_Z_plus, inject_Z_opp. field. unfold Qeq. cbn. lia. }
  rewrite Hex. clearbody x.
  assert (H1 : (Qabs (rnd x - x) <= 1 # 9007199254740992)%Q).
  { apply (rnd_error x 0); [lia|]. apply Qabs_Qle_condition. change (inject_Z (2 ^ 0)) with 1%Q. lra. }
  apply Qabs_Qle_condition in H1. set (a := rnd x) in *. clearbody a.
  assert (H2 : (Qabs (rnd (a * 100) - a * 100) <= 1 # 70368744177664)%Q).
  { apply (rnd_error (a * 100) 7); [lia|]. apply Qabs_Qle_condition. change (inject_Z (2 ^ 7)) with 128%Q. lra. }
  apply Qabs_Qle_condition in H2. set (b := rnd (a * 100)) in *. clearbody b.
  assert (H3 : (Qabs (rnd (100 - b) - (100 - b)) <= 1 # 70368744177664)%Q).
  { apply (rnd_error (100 - b) 7); [lia|]. apply Qabs_Qle_condition. change (inject_Z (2 ^ 7)) with 128%Q. lra. }
  apply Qabs_Qle_condition in H3. set (c := rnd (100 - b)) in *. clearbody c.
  apply Qabs_Qle_condition. lra.
Qed.

(** The summary and the percentiles that are computed from sorted variations. *)
Lemma sorted_jitter options ds it hi lo ps :
  let n := Z.of_nat (length (diffs ds)) in
  let k := Z.min (percentile_count options) n in
  let sorted := qsort (diffs ds) in
  let m := running_mean (diffs ds) in
  0 < n <= 65535 -> Forall (fun d => -1073741824 <= d < 1073741824) (diffs ds) -> to_uint32 m = Ok (Z.quot (Qnum m) (QDen m)) ->
  rd sorted (n - 1) = Ok hi -> rd sorted 0 = Ok lo -> percentiles it = ps ->
  jitter it = report_summary (Some {| maximum := u32 hi; minimum := u32 lo;
    mean := Z.quot (Qnum m) (QDen m); samples := n |}) ->
  length ps = Z.to_nat k ->
  (forall i x, ps !! i = Some x -> sorted !! Z.to_nat (n / k * (Z.of_nat i + 1) - 1) = Some x) ->
  jitter_of options ds it.
Proof.
  intros n k sorted m Hn Hb Hs [_ Hhi]%rd_Ok [_ Hlo]%rd_Ok <- Hje Hpl Hps.
  destruct (qsort_sorts (diffs ds)) as [Hsort Hperm].
  { exists (-1073741824). split; [lia|]. eapply Forall_impl; [exact Hb|]. cbn. lia. }
  assert (Hlen : length sorted = length (diffs ds)) by (by apply Permutation_length).
  assert (Hbs : Forall (fun d => -1073741824 <= d < 1073741824) sorted) by (unfold sorted; by rewrite Hperm).
  destruct (to_uint32_running (diffs ds)) as (_ & Hq & Hnear); [intros E; subst n; rewrite E in Hn; cbn in Hn; lia|fold n; lia|done|].
  fold m n in Hq, Hnear.
  rewrite Forall_lookup in Hbs. pose proof (Hbs _ _ Hhi). pose proof (Hbs _ _ Hlo).
  unfold jitter_of. fold n k. cbn in Hje. destruct (Z.eqb_spec n 0); [lia|].
  exists {| maximum := i32 (u32 hi); minimum := i32 (u32 lo); mean := i32 (Z.quot (Qnum m) (QDen m)); samples := n |}, sorted.
  cbn. rewrite !i32_u32 by lia. rewrite i32_u32 in Hje by lia. split_and!; try done.
  - rewrite Hje. by rewrite i32_u32 by lia.
  - change (Z.to_nat 0) with 0%nat in Hlo. rewrite <- Hlo. by destruct sorted.
  - rewrite last_lookup. rewrite <- Hhi. f_equal. lia.
  - fold m. unfold to_uint32 in Hs. destruct (Z.leb_spec 0 (Z.quot (Qnum m) (QDen m))); [|done]. rewrite i32_id; lia.
  - by rewrite <- sum_diffs.
Qed.

(** The percentiles of any sorted list of the variations. *)
Lemma percentiles_exist options ds :
  let n := Z.of_nat (length (diffs ds)) in
  let k := Z.min (percentile_count options) n in
  let sorted := qsort (diffs ds) in
  0 <= percentile_count options -> 0 < n < 65536 ->
  exists l, get_percentiles (Z.to_nat k) 0 k sorted = Ok l /\ length l = Z.to_nat k /\
    forall i x, l !! i = Some x -> sorted !! Z.to_nat (n / k * (Z.of_nat i + 1) - 1) = Some x.
Proof.
  intros n k sorted Hp Hn. destruct (decide (k = 0)) as [->|]; [by exists []|].
  assert (Hlen : Z.of_nat (length sorted) = n) by (unfold sorted, qsort; by rewrite merge_sort_Permutation).
  destruct (get_percentiles_spec sorted k (Z.to_nat k) 0) as (l & El & Hll & Hspec); [lia..|].
  exists l. split_and!; [done..|]. intros i x Hx. apply Hspec in Hx. by rewrite Hlen in Hx.
Qed.

Lemma report_stream_spec dir rtt times options :
  packet_count options = Z.of_nat (length times) -> 0 < packet_count options <= 65535 ->
  0 <= percentile_count options -> steady times ->
  let ds := delays times in
  let n := Z.of_nat (length (diffs ds)) in
  if bool_decide (0 < n) && Qle_bool (running_mean (diffs ds)) (-1)
  then report_stream dir rtt (Some times) options = Fault BadConversion
  else exists it, report_stream dir rtt (Some times) options = Ok it /\ i_direction it = Some dir /\
    run_lengths (status_of <$> times) (loss_periods it) /\
    packets_received it = Some (Z.of_nat (length ds)) /\
    (exists p, loss_percent it = Some p /\
       (Qabs (p - 100 * inject_Z (packet_count options - Z.of_nat (length ds)) / inject_Z (packet_count options))
          <= 1 # 17592186044416)%Q) /\
    (if bool_decide (0 < n) then jitter_of options ds it else jitter it = None /\ percentiles it = []).
Proof.
  intros Hc Hpos Hpc Hs ds n. pose proof (delays_le times) as Hdl. fold ds in Hdl. unfold report_stream. destruct (Z.eqb_spec (packet_count options) 0); [lia|].
  destruct (count_packets_counts (packet_count options) times [] acc_init) as (a & Ea & [Hr _ Hi Ha Hl]);
    [done|lia|done|apply counted_init|].
  rewrite app_nil_l in *. cbn [length] in Ea. change (Z.of_nat 0) with 0 in Ea.
  replace (Z.to_nat (packet_count options)) with (length times) by lia. rewrite Ea. cbn [mbind res_bind].
  fold ds in Hr, Hi. rewrite Hi in *. fold n.
  destruct (Z.eqb_spec n 0) as [Hn0|Hn0].
  { rewrite bool_decide_eq_false_2 by lia. cbn. eexists. split_and!; try done; [by rewrite Hr|].
    eexists. split; [reflexivity|]. rewrite Hr. apply loss_percentage; lia. }
  assert (Hn : 0 < n) by lia. rewrite bool_decide_eq_true_2 by done. cbn [andb].
  assert (Hlen : Z.of_nat (length (qsort (diffs ds))) = n) by (unfold qsort; by rewrite merge_sort_Permutation).
  assert (Hmax : n < 65536).
  { subst n. rewrite diffs_length. pose proof (delays_le times). unfold ds. lia. }
  destruct (rd_in_bounds (qsort (diffs ds)) (n - 1)) as [hi Hhi]; [lia|].
  destruct (rd_in_bounds (qsort (diffs ds)) 0) as [lo Hlo]; [lia|].
  destruct (to_uint32_running (diffs ds)) as (Hto & _); [intros E; subst n; rewrite E in Hn; cbn in Hn; lia|fold n; lia|done|].
  rewrite Hhi, Hlo. cbn [mbind res_bind]. rewrite Ha, Hto.
  destruct (Qle_bool (running_mean (diffs ds)) (-1)); [done|]. cbn [mbind res_bind].
  destruct (percentiles_exist options ds) as (ps & Eps & Hpl & Hps); [done|fold n; lia|].
  fold n in Eps. rewrite Eps. cbn [mbind res_bind].
  assert (Hn' : 0 < n <= 65535) by lia.
  assert (Hj := fun it => sorted_jitter options ds it hi lo ps Hn' Hs Hto Hhi Hlo).
  destruct rtt as [s|]; eexists; (split; [reflexivity|]); cbn [i_direction loss_periods packets_received loss_percent].
  all: split_and!; [done|done|by rewrite Hr| |by apply Hj].
  all: eexists; split; [reflexivity|]; rewrite Hr; apply loss_percentage; lia.
Qed.

(** ** From the sender to the receiver *)

Lemma be_val_rev l : be_val (rev l) = le_val l.
Proof.
  induction l as [|b l IH]; [done|]. cbn [rev le_val]. unfold be_val in *. rewrite foldl_app, IH. cbn. lia.
Qed.
Lemma be64_val x : be_val (be64 x) = u64 x.
Proof. unfold be64. rewrite be_val_rev, le_val_bytes. change (256 ^ Z.of_nat 8) with 18446744073709551616. unfold u64. apply Zmod_mod. Qed.
Lemma be64_length x : length (be64 x) = 8%nat.
Proof. unfold be64. by rewrite length_rev, le_bytes_length. Qed.

(** A clock before the year 292 billion. *)
Definition clock_ok (t : timeval) : Prop := tv_wf t /\ tv_sec t < 9223372036854775808.

(** What the receiver reads in a payload is what the sender has put there. *)
Lemma payload_roundtrip len now i p :
  fill_payload len now i = Ok p -> clock_ok now -> 0 <= i < 4294967296 ->
  Z.of_nat (length p) = len /\ (20 <= length p)%nat /\ sent_time (take 20 p) = now /\ payload_index (take 20 p) = i.
Proof.
  unfold fill_payload, sizeof_payload. destruct (Z.geb_spec len 9223372036854775808); [done|].
  destruct (Z.ltb_spec len 20); [done|]. intros E [[Hs Hu] Hmax] Hi.
  set (pad := replicate (Z.to_nat (len - 20)) 0) in E.
  assert (p = be64 (tv_sec now) ++ be64 (tv_usec now) ++ be32 i ++ pad) as -> by congruence.
  assert (Hlen : Z.of_nat (length (be64 (tv_sec now) ++ be64 (tv_usec now) ++ be32 i ++ pad)) = len).
  { rewrite !length_app, !be64_length. unfold pad. rewrite length_replicate. cbn [length be32 le32 rev app]. lia. }
  split; [done|]. split; [lia|].
  assert (Ht : take 20 (be64 (tv_sec now) ++ be64 (tv_usec now) ++ be32 i ++ pad)
    = be64 (tv_sec now) ++ be64 (tv_usec now) ++ be32 i).
  { rewrite app_assoc, app_assoc, take_app_length'; [by rewrite <- app_assoc|]. by rewrite !length_app, !be64_length. }
  rewrite Ht. unfold sent_time, payload_index.
  rewrite (take_app_length' _ _ 8), (drop_app_length' _ _ 8) by (by rewrite be64_length).
  rewrite (take_app_length' _ _ 8) by (by rewrite be64_length).
  rewrite app_assoc, (drop_app_length' _ _ 16) by (by rewrite length_app, !be64_length).
  rewrite take_ge by done. rewrite !be64_val, be32_val, u32_id by lia. split; [|done].
  destruct now as [s u]; cbn in *. rewrite !u64_id, !i64_id by lia. done.
Qed.

(** The packets of a stream that was sent to its end. *)
Definition stream_of (len : Z) (rounds : list round_t) (i : Z) (l : list (list Z)) : Prop :=
  forall j p, l !! j = Some p -> exists r, rounds !! j = Some r /\ fill_payload len (now r) (i + Z.of_nat j) = Ok p.
Lemma send_loop_packets options len : forall n i rounds st st',
  send_loop n i options len rounds st = Ok st' -> failed st' = false ->
  exists l, packets st' = packets st ++ l /\ length l = n /\ stream_of len rounds i l.
Proof.
  induction n as [|n IH]; intros i rounds st st' H Hf; cbn [send_loop] in H.
  { injection H as <-. exists []. by rewrite app_nil_r. }
  destruct rounds as [|r rounds]; [done|]. apply res_bind_Ok in H as (p & Ep & H).
  destruct (accepted r); cbn [negb] in H; [|injection H as <-; done].
  assert (Hk : forall st1, packets st1 = packets st ++ [p] -> send_loop n (i + 1) options len rounds st1 = Ok st' ->
    exists l, packets st' = packets st ++ l /\ length l = S n /\ stream_of len (r :: rounds) i l).
  { intros st1 Hp Hs. destruct (IH _ _ _ _ Hs Hf) as (l & Hl & Hn & Hstream). exists (p :: l).
    rewrite Hl, Hp, <- app_assoc. split_and!; [done|cbn; lia|]. intros [|j] q Hq; cbn in Hq.
    - injection Hq as <-. exists r. by rewrite Z.add_0_r.
    - destruct (Hstream _ _ Hq) as (r' & Hr & Hfill). exists r'. split; [done|].
      by replace (i + Z.of_nat (S j)) with (i + 1 + Z.of_nat j) by lia. }
  destruct (rtt st) as [s|].
  - apply res_bind_Ok in H as (m & _ & H). by eapply Hk; [|exact H].
  - by eapply Hk; [|exact H].
Qed.
Lemma send_udp_stream_packets hdr dscp_ok options rounds late running st :
  send_udp_stream (Some hdr) dscp_ok options rounds late running = Ok st -> failed st = false ->
  0 <= packet_count options ->
  length (packets st) = Z.to_nat (packet_count options) /\
  stream_of (u64 (packet_size options - hdr - 8)) rounds 0 (packets st).
Proof.
  unfold send_udp_stream. intros H Hf Hc. destruct (_ && _); [injection H as <-; done|].
  apply res_bind_Ok in H as (st1 & E & H).
  assert (Hp : failed st1 = false /\ packets st = packets st1).
  { destruct (failed st1) eqn:Ef1; [injection H as <-; congruence|].
    destruct (rtt st1) as [s|]; [|injection H as <-; done].
    apply res_bind_Ok in H as (m & _ & [= <-]). done. }
  destruct Hp as [Hf1 ->]. destruct (send_loop_packets _ _ _ _ _ _ _ E Hf1) as (l & -> & Hl & Hs). done.
Qed.

(** What the network makes of a stream: in each round of the receiver the packet of some
    number and when it came, or nothing. *)
Definition deliver (pkts : list (list Z)) (d : option (nat * timeval)) : option arrival :=
  '(i, t) ← d; p ← pkts !! i; Some (Arrival p t).
Definition record_arrival (sent : list timeval) (times : list timeval) (d : option (nat * timeval)) : list timeval :=
  match d with
  | Some (i, t) => match sent !! i with Some s => <[i := evutil_timersub t s]> times | None => times end
  | None => times
  end.
(** The packets that are sent back. *)
Definition reflects (options : opt_t) (i : nat) : Prop := 0 < rtt_samples options /\ Z.of_nat i mod rtt_samples options = 0.
#[export] Instance reflects_dec options i : Decision (reflects options i) := ltac:(unfold reflects; apply _).

Section Delivery.
Context (options : opt_t) (len : Z) (rounds : list round_t) (pkts : list (list Z)).
Context (Hcount : Z.of_nat (length pkts) = packet_count options) (Hmax : packet_count options <= 65535).
Context (Hlen : len <= 1500) (Hclock : Forall (fun r => clock_ok (now r)) rounds).
Context (Hstream : stream_of len rounds 0 pkts).

Lemma packet_reads i p buffer :
  pkts !! i = Some p -> exists r payload, rounds !! i = Some r /\ truncated (Arrival p (Tv 0 0)) = p /\ p <> [] /\
    written 20 (into_buffer p buffer) = Ok payload /\ payload_index payload = Z.of_nat i /\ sent_time payload = now r.
Proof using All.
  intros Hp. destruct (Hstream _ _ Hp) as (r & Hr & Hf). pose proof (lookup_lt_Some _ _ _ Hp).
  destruct (payload_roundtrip _ _ _ _ Hf) as (Hl & H20 & Ht & Hi).
  { rewrite Forall_lookup in Hclock. by apply (Hclock _ _ Hr). }
  { lia. }
  exists r, (take 20 p). split_and!; try done.
  - unfold truncated, MAXIMUM_UDPSTREAM_PACKET_LENGTH. cbn [datagram]. apply take_ge. lia.
  - intros ->. cbn in H20. lia.
  - unfold written, into_buffer. rewrite length_app. rewrite bool_decide_eq_false_2 by lia.
    by rewrite take_app_le by lia.
Qed.

(** The packet that is sent back in a round. *)
Definition reflection (d : option (nat * timeval)) : option (list Z) :=
  match d with Some (i, _) => if decide (reflects options i) then pkts !! i else None | None => None end.

Lemma receive_loop_records : forall n ds buffer times reflected,
  Forall (fun d => forall i t, d = Some (i, t) -> (i < length pkts)%nat) ds ->
  Z.of_nat (length times) = packet_count options ->
  receive_loop n options (deliver pkts <$> ds) buffer times reflected =
    Ok (foldl (record_arrival (now <$> rounds)) times (take n ds), reflected ++ omap reflection (take n ds)).
Proof using All.
  induction n as [|n IH]; intros ds buffer times reflected Hv Ht; cbn [receive_loop].
  { by rewrite !take_0, app_nil_r. }
  destruct ds as [|[[i t]|] ds]; rewrite ?fmap_cons; cbn [take].
  - pose proof (IH [] buffer times reflected ltac:(constructor) Ht) as E. rewrite take_nil in E. exact E.
  - inversion Hv as [|? ? Hi Hv']; subst. specialize (Hi i t eq_refl).
    destruct (lookup_lt_is_Some_2 pkts i Hi) as [p Hp].
    destruct (packet_reads i p buffer Hp) as (r & payload & Hr & Htr & Hne & Hw & Hidx & Hsent).
    assert (deliver pkts (Some (i, t)) = Some (Arrival p t)) as -> by (unfold deliver; cbn; by rewrite Hp).
    cbn [head tail mjoin option_join]. change (truncated (Arrival p t)) with (truncated (Arrival p (Tv 0 0))).
    rewrite Htr. destruct p as [|b p']; [done|]. set (q := b :: p') in *. rewrite Hw. cbn [mbind res_bind].
    rewrite Hidx. destruct (Z.ltb_spec (Z.of_nat i) (packet_count options)); [|lia]. rewrite Hsent. cbn [at_].
    assert (Hi' : (i < length times)%nat) by lia.
    rewrite wr_in by lia. cbn [mbind res_bind]. rewrite Nat2Z.id.
    rewrite IH; [|done|by rewrite length_insert]. cbn [foldl record_arrival omap list_omap reflection].
    rewrite list_lookup_fmap, Hr. cbn [fmap option_fmap option_map]. f_equal. f_equal. rewrite Hp.
    destruct (decide (reflects options i)) as [[H1 H2]|Hn].
    + rewrite (proj2 (Z.gtb_lt _ _)) by lia. rewrite H2. cbn. by rewrite <- app_assoc.
    + destruct (Z.gtb_spec (rtt_samples options) 0), (Z.eqb_spec (Z.of_nat i mod rtt_samples options) 0); try done.
      exfalso. apply Hn. split; [lia|done].
  - inversion Hv as [|? ? _ Hv']; subst. change (deliver pkts None) with (@None arrival). cbn [head tail mjoin option_join].
    by rewrite IH.
Qed.
End Delivery.

(** The numbers of the packets that came. *)
Definition arrived (ds : list (option (nat * timeval))) : list nat := omap (fun d => fst <$> d) ds.
Lemma elem_of_arrived ds i t : Some (i, t) ∈ ds -> i ∈ arrived ds.
Proof. intros H. apply list_elem_of_omap. by exists (Some (i, t)). Qed.

Lemma record_length sent ds : forall times, length (foldl (record_arrival sent) times ds) = length times.
Proof.
  induction ds as [|[[i t]|] ds IH]; intros times; cbn; [done|rewrite IH|done].
  destruct (sent !! i); [by rewrite length_insert|done].
Qed.
Lemma record_spec sent ds : forall times i,
  NoDup (arrived ds) -> (i < length times)%nat ->
  (forall t s, Some (i, t) ∈ ds -> sent !! i = Some s ->
     foldl (record_arrival sent) times ds !! i = Some (evutil_timersub t s)) /\
  (i ∉ arrived ds -> foldl (record_arrival sent) times ds !! i = times !! i).
Proof.
  induction ds as [|[[j u]|] ds IH]; intros times i Hnd Hi; cbn [arrived omap list_omap fmap option_fmap option_map fst] in *.
  - split; [intros t s H; by apply elem_of_nil in H|done].
  - inversion Hnd as [|? ? Hj Hnd']; subst. change (omap _ ds) with (arrived ds) in *. cbn [foldl].
    set (times' := record_arrival sent times (Some (j, u))).
    assert (Hl : (i < length times')%nat).
    { unfold times'. cbn. destruct (sent !! j); [by rewrite length_insert|done]. }
    destruct (IH times' i Hnd' Hl) as [IH1 IH2]. split.
    + intros t s [E|Hin]%elem_of_cons Hs; [|by eapply IH1]. injection E as <- <-. rewrite IH2 by done.
      unfold times'. cbn. rewrite Hs. by apply list_lookup_insert_eq.
    + rewrite not_elem_of_cons. intros [Hne Hn]. rewrite IH2 by done. unfold times'. cbn.
      destruct (sent !! j); [by apply list_lookup_insert_ne|done].
  - cbn. destruct (IH times i Hnd Hi) as [IH1 IH2]. split; [|done].
    intros t s [E|Hin]%elem_of_cons Hs; [done|by eapply IH1].
Qed.

(** Which packets of a stream are counted as received. *)
Definition statuses (n : nat) (ds : list (option (nat * timeval))) : list status :=
  (fun i => if decide (i ∈ arrived ds) then RECEIVED else LOST) <$> seq 0 n.
Lemma timersub_set a b : tv_us a <> tv_us b -> timerisset (evutil_timersub a b) = true.
Proof.
  intros Hne. pose proof (timersub_us a b) as H. unfold timerisset. destruct (evutil_timersub a b) as [s u].
  unfold tv_us at 1 in H. cbn in *. destruct (Z.eqb_spec s 0), (Z.eqb_spec u 0); try done. lia.
Qed.
Lemma length_filter_fmap {A B} (f : A -> B) (P : B -> Prop) `{!forall x, Decision (P x)} (l : list A) :
  length (filter P (f <$> l)) = length (filter (fun x => P (f x)) l).
Proof.
  induction l as [|x l IH]; [done|]. rewrite fmap_cons. destruct (decide (P (f x))).
  - rewrite !filter_cons_True by done. cbn. by rewrite IH.
  - by rewrite !filter_cons_False by done.
Qed.
Lemma statuses_received n ds :
  NoDup (arrived ds) -> (forall i, i ∈ arrived ds -> (i < n)%nat) ->
  length (filter (fun s => s = RECEIVED) (statuses n ds)) = length (arrived ds).
Proof.
  intros Hnd Hlt. unfold statuses. rewrite length_filter_fmap. apply Permutation_length.
  apply NoDup_Permutation; [by apply NoDup_filter, NoDup_seq|done|]. intros i.
  rewrite list_elem_of_filter, elem_of_seq. cbn. case_decide; naive_solver lia.
Qed.
Lemma delays_statuses times : length (delays times) = length (filter (fun s => s = RECEIVED) (status_of <$> times)).
Proof.
  unfold delays. rewrite length_fmap, length_filter_fmap. f_equal. apply list_filter_iff. intros t. cbn.
  unfold status_of. by destruct (timerisset t).
Qed.

Lemma receive_statuses sent ds n :
  NoDup (arrived ds) -> (forall i, i ∈ arrived ds -> (i < n)%nat) -> (n <= length sent)%nat ->
  (forall i t s, Some (i, t) ∈ ds -> sent !! i = Some s -> tv_us t <> tv_us s) ->
  status_of <$> foldl (record_arrival sent) (replicate n (Tv 0 0)) ds = statuses n ds.
Proof.
  intros Hnd Hlt Hle Hne. apply list_eq. intros i. unfold statuses. rewrite !list_lookup_fmap.
  set (times := foldl _ _ _). assert (Hlen : length times = n) by (unfold times; by rewrite record_length, length_replicate).
  destruct (decide (i < n)%nat) as [Hi|Hi].
  2:{ rewrite !lookup_ge_None_2; [done|rewrite length_seq; lia|lia]. }
  rewrite lookup_seq_lt by done. cbn [fmap option_fmap option_map Nat.add].
  destruct (record_spec sent ds (replicate n (Tv 0 0)) i Hnd) as [H1 H2]; [by rewrite length_replicate|].
  case_decide as Ha.
  - apply list_elem_of_omap in Ha as ([[j t]|] & Hin & E); [|done]. cbn in E. injection E as ->.
    destruct (lookup_lt_is_Some_2 sent i) as [s Hs]; [lia|]. unfold times. rewrite (H1 t s) by done. cbn.
    unfold status_of. by rewrite timersub_set by (by eapply Hne).
  - unfold times. rewrite H2 by done. by rewrite lookup_replicate_2 by done.
Qed.

Lemma receive_udp_stream_records options len rounds pkts ds :
  let n := Z.to_nat (packet_count options) in
  length pkts = n -> 0 <= packet_count options <= 65535 -> len <= 1500 ->
  Forall (fun r => clock_ok (now r)) rounds -> stream_of len rounds 0 pkts ->
  Forall (fun d => forall i t, d = Some (i, t) -> (i < length pkts)%nat) ds -> (length ds <= n)%nat ->
  receive_udp_stream options (deliver pkts <$> ds) (replicate n (Tv 0 0)) =
    Ok (foldl (record_arrival (now <$> rounds)) (replicate n (Tv 0 0)) ds, omap (reflection options pkts) ds).
Proof.
  intros n Hn Hc Hlen Hclock Hs Hv Hd. unfold receive_udp_stream. fold n.
  rewrite (receive_loop_records options len rounds pkts) by (done || lia || (rewrite length_replicate; lia)).
  by rewrite take_ge by lia.
Qed.

(** C33: A stream from end to end.  A stream of 1 to 65535 packets of 68 to 1500 bytes that was sent
    to its end, of whose packets any reached the receiver in any order but none twice, within
    its rounds and not at the very microsecond they were sent, gives the receiver for each packet the time
    between its sending and its arrival.  If successive delays differ by less than 18 minutes, the
    server then reports exactly the packets that came, with the runs of received and
    lost packets in the order they were sent, unless the delay has shrunk over the stream so
    that the running mean of its differences is -1 microsecond or less: then the report
    converts a negative number to an unsigned one, which is undefined. *)
Theorem udpstream_end_to_end hdr dscp_ok options rounds late running st ds :
  20 <= hdr <= 40 -> 68 <= packet_size options <= 1500 -> 0 < packet_count options <= 65535 ->
  0 <= percentile_count options ->
  Forall (fun r => clock_ok (now r)) rounds ->
  send_udp_stream (Some hdr) dscp_ok options rounds late running = Ok st -> failed st = false ->
  NoDup (arrived ds) -> Forall (fun i => Z.of_nat i < packet_count options) (arrived ds) ->
  Z.of_nat (length ds) <= packet_count options ->
  (forall i t r, Some (i, t) ∈ ds -> rounds !! i = Some r -> tv_us t <> tv_us (now r)) ->
  let arrivals := deliver (packets st) <$> ds in
  let n := Z.to_nat (packet_count options) in
  exists times refl,
    receive_udp_stream options arrivals (replicate n (Tv 0 0)) = Ok (times, refl) /\
    (forall i t r, Some (i, t) ∈ ds -> rounds !! i = Some r -> times !! i = Some (evutil_timersub t (now r))) /\
    (steady times ->
     let vs := diffs (delays times) in
     if bool_decide (vs <> []) && Qle_bool (running_mean vs) (-1)
     then do_receive options arrivals = Fault BadConversion
     else exists it, do_receive options arrivals = Ok (it, refl) /\
       packets_received it = Some (Z.of_nat (length (arrived ds))) /\ run_lengths (statuses n ds) (loss_periods it)).
Proof.
  intros Hhdr Hsize Hcount Hpc Hclock Hsend Hok Hnd Hlt Hlen Hne arrivals n. rewrite Forall_forall in Hlt.
  destruct (send_udp_stream_packets _ _ _ _ _ _ _ Hsend Hok) as [Hpl Hstream]; [lia|].
  assert (Hrl : (n <= length rounds)%nat).
  { destruct (decide (n = 0)%nat); [lia|]. destruct (lookup_lt_is_Some_2 (packets st) (n - 1)) as [p Hp]; [lia|].
    destruct (Hstream _ _ Hp) as (r & Hr & _). apply lookup_lt_Some in Hr. lia. }
  assert (Hnow : forall i r, rounds !! i = Some r -> (now <$> rounds) !! i = Some (now r)) by (intros i r Hr; by rewrite list_lookup_fmap, Hr).
  set (times := foldl (record_arrival (now <$> rounds)) (replicate n (Tv 0 0)) ds).
  exists times, (omap (reflection options (packets st)) ds).
  assert (Hrecv : receive_udp_stream options arrivals (replicate n (Tv 0 0)) = Ok (times, omap (reflection options (packets st)) ds)).
  { apply (receive_udp_stream_records options (u64 (packet_size options - hdr - 8))); try done; try lia.
    - rewrite u64_id; lia.
    - apply Forall_forall. intros d Hd i t ->. apply elem_of_arrived in Hd. specialize (Hlt i Hd). lia. }
  split; [done|]. split.
  { intros i t r Hin Hr. pose proof (Hlt i (elem_of_arrived _ _ _ Hin)).
    destruct (record_spec (now <$> rounds) ds (replicate n (Tv 0 0)) i Hnd) as [H1 _]; [rewrite length_replicate; lia|].
    apply H1; [done|by apply Hnow]. }
  assert (Hst : status_of <$> times = statuses n ds).
  { apply receive_statuses; [done|intros i Hi; specialize (Hlt i Hi); lia|by rewrite length_fmap|].
    intros i t s Hin Hs. rewrite list_lookup_fmap in Hs. destruct (rounds !! i) as [r|] eqn:Hr; [|done].
    injection Hs as <-. by eapply Hne. }
  intros Hsteady vs. unfold do_receive. fold n. rewrite Hrecv. cbn [mbind res_bind fst snd].
  assert (Htl : packet_count options = Z.of_nat (length times)) by (unfold times; rewrite record_length, length_replicate; lia).
  pose proof (report_stream_spec TO_SERVER None times options Htl ltac:(lia) Hpc Hsteady) as Hspec. cbv zeta in Hspec.
  fold vs in Hspec.
  assert (Hb : bool_decide (0 < Z.of_nat (length vs)) = bool_decide (vs <> [])).
  { apply bool_decide_ext. destruct vs; cbn; [naive_solver lia|]. split; [done|lia]. }
  rewrite Hb in Hspec. destruct (bool_decide (vs <> []) && _); [by rewrite Hspec|].
  destruct Hspec as (it & Hr2 & _ & Hruns & Hrec & _). exists it. rewrite Hr2. cbn [mbind res_bind].
  rewrite Hst in Hruns. split; [done|]. split; [|done].
  rewrite Hrec, delays_statuses, Hst, statuses_received; [done..|]. intros i Hi. specialize (Hlt i Hi). lia.
Qed.

(** ** Round trip times *)

Definition rtt_value (a : arrival) : Z := u32 (DIFF_TV_US (at_ a) (sent_time (take 16 (truncated a)))).
(** The summary of some values. *)
Record summarises (vs : list Z) (running : Q) (s : summary_t) : Prop := {
  sum_samples : samples s = Z.of_nat (length vs);
  sum_maximum : maximum s = foldr Z.max 0 vs;
  sum_minimum : minimum s = foldr Z.min 4294967295 vs;
  sum_mean : running = running_mean vs
}.
Definition words (vs : list Z) : Prop := Forall (fun v => 0 <= v < 4294967296) vs.

Lemma max_app vs v : foldr Z.max 0 (vs ++ [v]) = Z.max v (foldr Z.max 0 vs) \/ v < 0.
Proof.
  destruct (Z.lt_ge_cases v 0); [by right|left]. induction vs as [|x vs IH]; cbn; [lia|]. rewrite IH. lia.
Qed.
Lemma min_app vs v : v < 4294967296 -> foldr Z.min 4294967295 (vs ++ [v]) = Z.min v (foldr Z.min 4294967295 vs).
Proof. intros. induction vs as [|x vs IH]; cbn; [lia|]. rewrite IH. lia. Qed.

Lemma reflected_loop_spec expected : forall arrivals vs response running s,
  0 <= expected < 4294967296 -> Forall (fun a => (16 <= length (datagram a))%nat) arrivals ->
  Z.of_nat (length vs) <= expected -> words vs -> summarises vs running s ->
  let vs' := take (Z.to_nat expected) (vs ++ (rtt_value <$> arrivals)) in
  exists running' s', reflected_loop expected arrivals response running s = Ok (running', s') /\
    words vs' /\ summarises vs' running' s'.
Proof.
  induction arrivals as [|a arrivals IH]; intros vs response running s He Ha Hle Hw Hs vs'.
  { exists running, s. unfold vs'. cbn [fmap list_fmap]. rewrite app_nil_r, take_ge by lia. cbn.
    by destruct (expected >? samples s). }
  inversion Ha as [|? ? H16 Ha']; subst. cbn [reflected_loop].
  destruct Hs as [Hn Hmax Hmin Hm]. rewrite Hn.
  destruct (Z.gtb_spec expected (Z.of_nat (length vs))) as [Hlt|Hge].
  2:{ exists running, s. unfold vs'. rewrite take_app_le, take_ge by lia. done. }
  assert (H16' : (16 <= length (truncated a))%nat).
  { unfold truncated, MAXIMUM_UDPSTREAM_PACKET_LENGTH. rewrite length_take. lia. }
  assert (Hwr : written 16 (into_buffer (truncated a) response) = Ok (take 16 (truncated a))).
  { unfold written, into_buffer. rewrite length_app, bool_decide_eq_false_2 by lia. by rewrite take_app_le. }
  destruct (truncated a) as [|b bytes] eqn:Et; [cbn in H16'; lia|]. rewrite <- Et in *. rewrite Hwr. cbn [mbind res_bind].
  fold (rtt_value a). pose proof (u32_range (DIFF_TV_US (at_ a) (sent_time (take 16 (truncated a))))) as Hv.
  fold (rtt_value a) in Hv. rewrite u32_id by lia.
  assert (Happ : vs ++ (rtt_value <$> a :: arrivals) = (vs ++ [rtt_value a]) ++ (rtt_value <$> arrivals)) by (by rewrite <- app_assoc).
  unfold vs'. rewrite Happ. apply IH; try done.
  - rewrite length_app. cbn. lia.
  - apply Forall_app. split; [done|]. by apply Forall_singleton.
  - split; cbn [samples maximum minimum].
    + rewrite length_app. cbn. lia.
    + destruct (max_app vs (rtt_value a)) as [->|]; [by rewrite Hmax|lia].
    + rewrite min_app by lia. by rewrite Hmin.
    + by rewrite running_snoc, Hm.
Qed.

Lemma words_sum vs : words vs -> 0 <= sum vs <= 4294967295 * Z.of_nat (length vs).
Proof. intros H. induction H as [|v vs Hv _ IH]; cbn [sum foldr length]; [lia|]. unfold sum in *. lia. Qed.

(** The mean of a summary: a whole number of microseconds next to the average, up to what the
    running mean is off it. *)
Definition rounded_mean (m : Z) (vs : list Z) : Prop :=
  let n := Z.of_nat (length vs) in 524288 * Z.abs (m * n - sum vs) <= 262144 * n + 3 * n * n.

Lemma mean_range m vs : vs <> [] -> words vs -> mean_of m vs -> (0 <= m)%Q /\ (m <= inject_Z 4294967295)%Q.
Proof.
  intros Hne Hw Hm. apply words_sum in Hw. unfold mean_of, Qeq, Qle, inject_Z in *. cbn in *.
  assert (Hn : 0 < Z.of_nat (length vs)) by (destruct vs; [done|cbn; lia]).
  rewrite Pos.mul_1_r in Hm. split; nia.
Qed.
(** round() is within half of its argument. *)
Lemma round_half m : exists z, round m = inject_Z z /\ (-(1 # 2) <= m - inject_Z z <= 1 # 2)%Q.
Proof.
  unfold round. eexists. split; [reflexivity|]. destruct (Z.leb_spec 0 (Qnum m)).
  - pose proof (Qfloor_le (m + (1 # 2))) as H1. pose proof (Qlt_floor (m + (1 # 2))) as H2. rewrite inject_Z_plus in H2.
    change (inject_Z 1) with 1%Q in H2. split; lra.
  - pose proof (Qfloor_le (- m + (1 # 2))) as H1. pose proof (Qlt_floor (- m + (1 # 2))) as H2. rewrite inject_Z_plus in H2.
    change (inject_Z 1) with 1%Q in H2. rewrite inject_Z_opp. split; lra.
Qed.
Lemma to_uint32_int z : 0 <= z < 4294967296 -> to_uint32 (inject_Z z) = Ok z.
Proof.
  intros Hz. unfold to_uint32, inject_Z. cbn [Qnum Qden]. rewrite Z.quot_1_r.
  by destruct (Z.leb_spec 0 z), (Z.ltb_spec z 4294967296); try lia.
Qed.
Lemma round_mean vs :
  words vs -> Z.of_nat (length vs) <= 65535 ->
  exists r, to_uint32 (round (running_mean vs)) = Ok r /\ rounded_mean r vs.
Proof.
  intros Hw Hlen. destruct (decide (vs = [])) as [->|Hne]; [by exists 0|].
  destruct (running_mean_near vs) as (M & HM & _ & Hm); [done|eapply Forall_impl; [exact Hw|cbn; lia]|].
  destruct (mean_range M vs Hne Hw HM) as [Hlo Hhi]. destruct (round_half (running_mean vs)) as (z & -> & Hz).
  apply Qabs_Qle_condition in Hm. set (m := running_mean vs) in *. clearbody m. unfold mean_of in HM. unfold rounded_mean.
  set (n := Z.of_nat (length vs)) in *. assert (Hn : 0 < n) by (subst n; destruct vs; [done|cbn; lia]).
  assert (HE : (inject_Z (3 * n) * ulp <= 2 # 5)%Q) by (unfold Qle, inject_Z, ulp; cbn; lia).
  assert (Hr : (-1 < inject_Z z)%Q /\ (inject_Z z < 4294967296)%Q).
  { change (inject_Z 4294967295) with 4294967295%Q in Hhi. split; lra. }
  assert (Hr' : 0 <= z < 4294967296) by (unfold Qlt, inject_Z in Hr; cbn in Hr; lia).
  exists z. split; [by apply to_uint32_int|]. clear Hr.
  assert (Hd : (- ((1 # 2) + inject_Z (3 * n) * ulp) <= inject_Z z - M <= (1 # 2) + inject_Z (3 * n) * ulp)%Q) by lra.
  clear - Hd HM Hn. assert (HN : (0 <= inject_Z n)%Q) by (unfold Qle, inject_Z; cbn; lia).
  assert (Hb : (- (inject_Z n * (1 # 2) + inject_Z n * inject_Z (3 * n) * ulp) <= inject_Z z * inject_Z n - inject_Z (sum vs)
    <= inject_Z n * (1 # 2) + inject_Z n * inject_Z (3 * n) * ulp)%Q).
  { rewrite <- HM. set (E := (inject_Z (3 * n) * ulp)%Q) in *.
    assert (HE : (inject_Z n * inject_Z (3 * n) * ulp == inject_Z n * E)%Q) by (unfold E; ring). rewrite HE.
    clearbody E. set (N := inject_Z n) in *. clearbody N. set (Zq := inject_Z z) in *. clearbody Zq. nra. }
  unfold Qle, Qminus, Qplus, Qopp, Qmult, inject_Z, ulp in Hb. cbn in Hb. lia.
Qed.

(** The state of the round trip times while a stream is sent. *)
Definition rtt_state (vs : list Z) (running : Q) (s : summary_t) : Prop :=
  words vs /\ summarises vs running s /\ rounded_mean (mean s) vs.
Definition full_size (arrivals : list arrival) : Prop := Forall (fun a => (16 <= length (datagram a))%nat) arrivals.

Lemma receive_reflected_spec expected arrivals vs running s :
  0 < expected <= 65535 -> full_size arrivals -> Z.of_nat (length vs) <= expected ->
  rtt_state vs running s ->
  exists running' s', receive_reflected_packets expected arrivals running s = Ok (running', s') /\
    rtt_state (take (Z.to_nat expected) (vs ++ (rtt_value <$> arrivals))) running' s'.
Proof.
  intros He Ha Hle (Hw & Hs & _). unfold receive_reflected_packets. rewrite c_assert_true by lia.
  destruct (reflected_loop_spec expected arrivals vs [] running s) as (r & s' & -> & Hw' & Hs'); [lia|done..|].
  cbn [mbind res_bind]. pose proof (sum_mean _ _ _ Hs') as Er. subst r.
  destruct (round_mean _ Hw') as (m & -> & Hm); [rewrite length_take; lia|].
  cbn [mbind res_bind]. eexists _, _. split; [reflexivity|]. split_and!; [done| |done].
  by destruct Hs' as [? ? ? ?]; split.
Qed.

Lemma take_take_app {A} n (a b : list A) : take n (take n a ++ b) = take n (a ++ b).
Proof.
  destruct (decide (length a <= n)%nat); [by rewrite (take_ge a)|].
  rewrite take_app_le by (rewrite length_take; lia). rewrite take_take, Nat.min_id, take_app_le by lia. done.
Qed.

Lemma fill_payload_returns len now i :
  20 <= len < 9223372036854775808 -> exists p, fill_payload len now i = Ok p.
Proof.
  intros Hl. unfold fill_payload, sizeof_payload. destruct (Z.geb_spec len 9223372036854775808), (Z.ltb_spec len 20); try lia.
  by eexists.
Qed.

(** sendto() has worked for every packet. *)
Definition all_accepted (rounds : list round_t) : Prop := Forall (fun r => accepted r = true) rounds.

(** Sending with samples of the round trip time. *)
Lemma send_loop_spec options len : forall n i rounds st s vs,
  20 <= len < 9223372036854775808 -> 0 < expected_samples options <= 65535 ->
  (n <= length rounds)%nat -> Forall (fun r => full_size (reflections r)) rounds ->
  rtt st = Some s -> rtt_state vs (static_mean st) s -> Z.of_nat (length vs) <= expected_samples options ->
  exists st', send_loop n i options len rounds st = Ok st' /\
    (failed st' = true /\ rtt st' = None /\ ~ all_accepted (take n rounds) \/
     exists s' vs', all_accepted (take n rounds) /\ (failed st = false -> failed st' = false) /\ rtt st' = Some s' /\ rtt_state vs' (static_mean st') s' /\
       vs' = take (Z.to_nat (expected_samples options)) (vs ++ (rtt_value <$> (take n rounds ≫= reflections)))).
Proof.
  induction n as [|n IH]; intros i rounds st s vs Hlen He Hr Hf Hst Hs Hle; cbn [send_loop].
  { exists st. split; [done|]. right. exists s, vs. rewrite take_0. cbn [mbind list_bind fmap list_fmap].
    rewrite app_nil_r, take_ge by lia. split; [constructor|done]. }
  destruct rounds as [|r rounds]; [cbn in Hr; lia|]. inversion Hf as [|? ? Hr1 Hr2]; subst.
  destruct (fill_payload_returns len (now r) i Hlen) as [p ->]. cbn [mbind res_bind].
  destruct (accepted r) eqn:Ea; cbn [negb].
  2:{ eexists. split; [reflexivity|]. left. split_and!; [done..|]. inversion 1. congruence. }
  rewrite Hst.
  destruct (receive_reflected_spec (expected_samples options) (reflections r) vs (static_mean st) s)
    as (m & s1 & -> & H1); [done..|]. cbn [mbind res_bind fst snd].
  edestruct (IH (i + 1) rounds) as (st' & -> & Hres); [done|done|cbn in Hr; lia|done|reflexivity|exact H1|rewrite length_take; lia|].
  exists st'. split; [done|]. destruct Hres as [(? & ? & Hno)|(s' & vs' & Hall & Hfail & Hrtt & Hstate & ->)]; [left|right].
  { split_and!; [done..|]. inversion 1. by apply Hno. }
  eexists s', _. split_and!; [by constructor|by intros _; apply Hfail|done|exact Hstate|].
  cbn [take mbind list_bind]. by rewrite take_take_app, fmap_app, app_assoc.
Qed.

(** With the options the client has checked, sending a stream returns whatever arrives
    that is large enough to hold a time.  It fails exactly when the code point cannot be
    set or sendto() refuses a packet; otherwise every packet was sent, and the summary has
    the number, the extremes and the mean of the first of the round trip times that were
    measured, as many as are asked for; the mean of n of them is off by at most half a
    microsecond and the rounding errors of the running mean, 3 n / 2^19. *)
Theorem udpstream_send_correct hdr dscp_ok o rounds late :
  let options := check_options o in
  let n := Z.to_nat (packet_count options) in
  20 <= hdr <= 40 -> 0 <= packet_count o <= 65535 -> 0 < rtt_samples o < 4294967296 ->
  (n <= length rounds)%nat -> Forall (fun r => full_size (reflections r)) rounds -> full_size late ->
  exists st, send_udp_stream (Some hdr) dscp_ok options rounds late 0 = Ok st /\
    (failed st = true <-> (dscp o <> 0 /\ dscp_ok = false) \/ ~ all_accepted (take n rounds)) /\
    (failed st = false ->
       let vs := take (Z.to_nat (packet_count options / rtt_samples options))
                   (rtt_value <$> (take n rounds ≫= reflections) ++ late) in
       length (packets st) = n /\
       exists s, rtt st = Some s /\ samples s = Z.of_nat (length vs) /\ maximum s = foldr Z.max 0 vs /\
         minimum s = foldr Z.min 4294967295 vs /\ rounded_mean (mean s) vs).
Proof.
  intros options n Hhdr Hc Hrtt Hn Hf Hlate.
  assert (Hopt : 2 <= packet_count options <= 65535 /\ 68 <= packet_size options <= 1500 /\
    0 < rtt_samples options <= packet_count options /\ dscp options = dscp o).
  { unfold options, check_options, MINIMUM_UDPSTREAM_PACKET_COUNT, MINIMUM_UDPSTREAM_PACKET_LENGTH,
      MAXIMUM_UDPSTREAM_PACKET_LENGTH. cbn. zbool; lia. }
  clearbody options. destruct Hopt as (Hcount & Hsize & Hsamples & Hd).
  assert (Hq : 1 <= packet_count options / rtt_samples options <= packet_count options).
  { split; [apply Z.div_le_lower_bound; lia|]. apply Z.div_le_upper_bound; nia. }
  assert (He : expected_samples options = packet_count options / rtt_samples options) by (unfold expected_samples; rewrite u32_id; lia).
  unfold send_udp_stream. rewrite Hd.
  destruct (negb (dscp o =? 0) && negb dscp_ok) eqn:Edscp.
  { eexists. split; [reflexivity|]. apply andb_prop in Edscp as [E1 E2]. cbn.
    split; [|done]. split; [intros _; left|done]. split; [by apply Z.eqb_neq, negb_true_iff|by destruct dscp_ok]. }
  rewrite (proj2 (Z.gtb_lt _ _)) by lia. rewrite u64_id by lia. fold n.
  set (s0 := {| maximum := 0; minimum := 4294967295; mean := 0; samples := 0 |}).
  set (st0 := {| failed := false; rtt := Some s0; packets := []; static_mean := 0 |}).
  destruct (send_loop_spec options (packet_size options - hdr - 8) n 0 rounds st0 s0 [])
    as (st & Eloop & Hres); [lia|lia|done|done|reflexivity| |cbn; lia|].
  { by split_and!; [constructor|split|]. }
  rewrite Eloop. cbn [mbind res_bind].
  assert (Hnd : ~ (dscp o <> 0 /\ dscp_ok = false)).
  { intros [Hx ->]. apply Z.eqb_neq in Hx. by rewrite Hx in Edscp. }
  destruct Hres as [(Hfail & Hnone & Hno)|(s & vs & Hall & Hfail & Hs & Hstate & Hvs)].
  { exists st. rewrite Hfail. split; [done|]. split; [|congruence]. split; [by right|done]. }
  rewrite (Hfail eq_refl), Hs.
  destruct (receive_reflected_spec (expected_samples options) late vs (static_mean st) s) as (m & s' & -> & Hw & Hsum & Hm);
    [lia|done|rewrite Hvs, length_take; lia|done|].
  cbn [mbind res_bind fst snd]. eexists. split; [reflexivity|]. cbn. split; [split; [done|]; intros [?|?]; done|].
  intros _. destruct (send_loop_packets _ _ _ _ _ _ _ Eloop (Hfail eq_refl)) as (l & -> & Hl & _). split; [done|].
  rewrite Hvs, app_nil_l, take_take_app, <- fmap_app, He in Hsum, Hm.
  destruct Hsum as [H1 H2 H3 _]. exists s'. split_and!; done.
Qed.


#[export] Instance steady_dec times : Decision (steady times) := ltac:(unfold steady; apply _).

(** *** Examples *)

Definition sample_options (count : Z) : opt_t := {|
  cport := 0; tport := 8826; packet_size := 100; packet_count := count; packet_spacing := 20000;
  percentile_count := 10; rtt_samples := 1; dscp := 0; direction := CLIENT_THEN_SERVER |}.
Definition sample_times : list timeval := [Tv 0 900; Tv 0 0; Tv 0 1000; Tv 0 950].

Definition sample_rounds : list round_t :=
  [{| now := Tv 1 0; accepted := true; reflections := [] |}; {| now := Tv 1 20000; accepted := true; reflections := [] |};
   {| now := Tv 1 40000; accepted := true; reflections := [] |}].
Definition sample_sent : sent_stream :=
  match send_udp_stream (Some 20) true (sample_options 3) sample_rounds [] 0 with
  | Ok st => st
  | Fault _ => {| failed := true; rtt := None; packets := []; static_mean := 0 |}
  end.
(** The last packet overtakes the first, the second is lost. *)
Definition sample_network : list (option (nat * timeval)) := [Some (2%nat, Tv 1 45000); Some (0%nat, Tv 1 50000); None].
Lemma udpstream_end_to_end_witness :
  exists times refl, receive_udp_stream (sample_options 3) (deliver (packets sample_sent) <$> sample_network)
    (replicate 3 (Tv 0 0)) = Ok (times, refl) /\ times !! 2%nat = Some (Tv 0 5000).
Proof.
  destruct (udpstream_end_to_end 20 true (sample_options 3) sample_rounds [] 0 sample_sent sample_network)
    as (times & refl & H & Ht & _).
  - lia.
  - cbn; lia.
  - cbn; lia.
  - cbn; lia.
  - repeat constructor; cbn; lia.
  - vm_compute. reflexivity.
  - vm_compute. reflexivity.
  - apply (bool_decide_unpack _). vm_compute. exact I.
  - repeat constructor; cbn; lia.
  - cbn. lia.
  - intros i t r Hin Hr. repeat (apply elem_of_cons in Hin as [Hin|Hin]); try discriminate; [..|by apply elem_of_nil in Hin].
    all: injection Hin as -> ->; cbn in Hr; injection Hr as <-; vm_compute; discriminate.
  - exists times, refl. split; [exact H|].
    apply (Ht 2%nat (Tv 1 45000) {| now := Tv 1 40000; accepted := true; reflections := [] |}); [by left|reflexivity].
Defined.

(** Two of the reflections of three packets are used, 30 and 40 milliseconds. *)
Definition sample_reflections : list round_t :=
  match packets sample_sent with
  | [p0; p1; p2] =>
      [{| now := Tv 1 0; accepted := true; reflections := [] |};
       {| now := Tv 1 20000; accepted := true; reflections := [Arrival p0 (Tv 1 30000)] |};
       {| now := Tv 1 40000; accepted := true; reflections := [Arrival p1 (Tv 1 60000)] |}]
  | _ => []
  end.
Lemma udpstream_send_correct_witness :
  exists st s, send_udp_stream (Some 20) true (check_options (sample_options 3)) sample_reflections [] 0 = Ok st /\
    rtt st = Some s /\ samples s = 2 /\ minimum s = 30000 /\ maximum s = 40000 /\ rounded_mean (mean s) [30000; 40000].
Proof.
  destruct (udpstream_send_correct 20 true (sample_options 3) sample_reflections []) as (st & H & Hf & Hok).
  - lia.
  - cbn; lia.
  - cbn; lia.
  - vm_compute. lia.
  - vm_compute. repeat constructor.
  - constructor.
  - assert (E : failed st = false).
    { destruct (failed st); [|reflexivity]. destruct (proj1 Hf eq_refl) as [[Hd _]|Hn]; [exfalso; apply Hd; reflexivity|].
      exfalso. apply Hn. vm_compute. repeat constructor. }
    destruct (Hok E) as (_ & s & Hs & H1 & H2 & H3 & H4). exists st, s.
    split; [exact H|]. split; [exact Hs|]. split; [exact H1|]. split; [exact H3|]. split; [exact H2|exact H4].
Defined.

(** ** Voice quality *)

Definition lost_packets (ss : list status) : Z := Z.of_nat (length (filter (fun s => s = LOST) ss)).
Definition lost_runs (l : list period) : Z := Z.of_nat (length (filter (fun p => p_status p = LOST) l)).
Lemma lost_replicate n s : lost_packets (replicate n s) = if decide (s = LOST) then Z.of_nat n else 0.
Proof.
  unfold lost_packets. induction n as [|n IH]; [by case_decide|]. rewrite replicate_S, filter_cons.
  case_decide; cbn [length]; lia.
Qed.
Lemma lost_app a b : lost_packets (a ++ b) = lost_packets a + lost_packets b.
Proof. unfold lost_packets. rewrite filter_app, length_app. lia. Qed.
Lemma loss_runs_spec l : forall lost runs,
  0 <= lost -> lost + lost_packets (expand l) < 2147483648 -> Forall (fun p => 0 < p_length p) l ->
  loss_runs l lost runs = (lost + lost_packets (expand l), runs + lost_runs l).
Proof.
  induction l as [|[s n] l IH]; intros lost runs Hl Hmax Hp; cbn [loss_runs].
  { unfold lost_packets, lost_runs. cbn. by rewrite !Z.add_0_r. }
  inversion Hp as [|? ? Hn Hp']; subst. cbn in Hn.
  assert (He : expand (Period s n :: l) = replicate (Z.to_nat n) s ++ expand l) by done.
  rewrite He, lost_app, lost_replicate in *. assert (0 <= lost_packets (expand l)) by (unfold lost_packets; lia).
  assert (Hr : lost_runs (Period s n :: l) = (if decide (s = LOST) then 1 else 0) + lost_runs l).
  { unfold lost_runs. rewrite filter_cons. cbn. destruct s; repeat case_decide; try done; cbn [length]; lia. }
  rewrite Hr. destruct s; repeat case_decide; try done; cbn iota in *.
  - rewrite i32_id by lia. rewrite IH by (lia || done). f_equal; lia.
  - rewrite IH by (lia || done). f_equal; lia.
Qed.

(** The scores of a merged result: those of half the mean round trip time plus the largest
    variation, the percentage of loss and the average length of a loss (rounded down). *)
Theorem voip_of_merged it rtt j p ss :
  jitter it = Some j -> loss_percent it = Some p -> run_lengths ss (loss_periods it) ->
  Z.of_nat (length ss) < 2147483648 -> samples rtt <> 0 -> 0 <= mean rtt < 2147483648 ->
  let delay := mean rtt / 2 + maximum j in
  0 <= delay < 4294967296 ->
  let burst := if lost_runs (loss_periods it) =? 0 then 0 else lost_packets ss / lost_runs (loss_periods it) in
  exists it' v, merge_results (Some it) (Some rtt) = Ok (Some it') /\ voip it' = Some v /\
    icpif v = calculate_icpif delay p /\ cisco_mos v = calculate_cisco_mos (icpif v) /\ 1 <= cisco_mos v <= 5 /\
    itu_rating v = calculate_itu_rating delay (Q2R p) (IZR burst) /\ itu_mos v = calculate_itu_mos (itu_rating v).
Proof.
  intros Hj Hp (Hex & _ & Hpos) Hss Hs Hm delay Hd burst. unfold merge_results, report_voip.
  cbn [i_rtt jitter loss_periods loss_percent report_summary mbind option_bind].
  destruct (Z.eqb_spec (samples rtt) 0); [done|]. rewrite Hj. cbn [mbind option_bind mean].
  rewrite (i32_id (mean rtt)) by lia. rewrite Z.quot_div_nonneg by lia.
  rewrite (u32_id (mean rtt / 2)) by (Z.div_mod_to_equations; lia). fold delay. rewrite u32_id by done.
  assert (Hle : lost_packets ss <= Z.of_nat (length ss)).
  { unfold lost_packets. pose proof (length_filter (fun s => s = LOST) ss). lia. }
  rewrite loss_runs_spec by (rewrite ?Hex; lia || done). rewrite Hex, !Z.add_0_l, Hp. cbn [default from_option id].
  assert (Hb : (if lost_runs (loss_periods it) =? 0 then 0 else Z.quot (lost_packets ss) (lost_runs (loss_periods it))) = burst).
  { unfold burst. destruct (Z.eqb_spec (lost_runs (loss_periods it)) 0); [done|].
    apply Z.quot_div_nonneg; unfold lost_packets, lost_runs in *; lia. }
  rewrite Hb. eexists _, _. split; [reflexivity|]. split; [reflexivity|]. cbn.
  split_and!; try done; unfold calculate_cisco_mos; case_ifs; lia.
Qed.

(** ** Where the code goes wrong *)

(** The steps between percentiles are truncated: with fewer than twice as many variations
    as percentiles, as after a single loss in the default 21 packets, what is reported are
    just the smallest variations. *)
Theorem percentiles_are_smallest options ds it i x :
  let n := Z.of_nat (length (diffs ds)) in
  let k := Z.min (percentile_count options) n in
  0 < k -> n < 2 * k -> jitter_of options ds it -> percentiles it !! i = Some x ->
  exists sorted, StronglySorted Z.le sorted /\ sorted ≡ₚ diffs ds /\ sorted !! i = Some x.
Proof.
  intros n k Hk Hn (j & sorted & _ & Hs & Hp & _ & _ & _ & _ & _ & Hx) Hi. exists sorted. split_and!; [done..|].
  apply Hx in Hi. fold n k in Hi. assert (Hd : n / k = 1) by (symmetry; apply Z.div_unique with (n - k); lia).
  rewrite Hd in Hi. by replace (Z.to_nat (1 * (Z.of_nat i + 1) - 1)) with i in Hi by lia.
Qed.
(** The mean of four variations of 191, -193, 7 and -1 microseconds is 1; the running mean stays below
    it by rounding, and is reported as 0. *)
Example mean_rounded_down :
  let times := (fun d => Tv 0 d) <$> [20073; 20264; 20071; 20078; 20077] in
  drift (delays times) = 4 /\
  (it ← report_stream TO_SERVER None (Some times) (sample_options 5); Ok (mean <$> jitter it)) = Ok (Some 0).
Proof. vm_compute. done. Qed.
Definition one_lost : list timeval := [Tv 0 0] ++ ((fun i => Tv 0 (1000 + Z.of_nat i * Z.of_nat i)) <$> seq 0 20).
Example highest_percentile :
  (it ← report_stream TO_SERVER None (Some one_lost) (sample_options 21);
   Ok (last (percentiles it), maximum <$> jitter it)) = Ok (Some 19, Some 37).
Proof. vm_compute. reflexivity. Qed.

(** With as many variations as a multiple of the percentiles each has its rank: that many
    of the variations are no larger, and the others no smaller. *)
Theorem percentile_rank options ds it i x :
  let n := Z.of_nat (length (diffs ds)) in
  let k := Z.min (percentile_count options) n in
  0 < k -> n mod k = 0 -> jitter_of options ds it -> percentiles it !! i = Some x ->
  let rank := Z.to_nat (n * (Z.of_nat i + 1) / k) in
  exists low high, low ++ high ≡ₚ diffs ds /\ length low = rank /\ x ∈ low /\
    Forall (fun y => y <= x) low /\ Forall (fun y => x <= y) high.
Proof.
  intros n k Hk Hmod (j & sorted & _ & Hs & Hp & _ & _ & _ & _ & Hl & Hx) Hi rank.
  assert (Hik : Z.of_nat i < k) by (apply lookup_lt_Some in Hi; fold n k in Hl; lia).
  apply Hx in Hi. fold n k in Hi. clear Hx.
  assert (Hn : n = k * (n / k)) by (pose proof (Z.div_mod n k); lia).
  assert (Hq : 0 < n / k) by (apply Z.div_str_pos; lia).
  assert (Hr : Z.of_nat rank = n / k * (Z.of_nat i + 1)).
  { unfold rank. rewrite Hn at 1. rewrite <- Z.mul_assoc, Z.mul_comm, Z.div_mul by lia. nia. }
  replace (Z.to_nat (n / k * (Z.of_nat i + 1) - 1)) with (rank - 1)%nat in Hi by lia.
  assert (Hr1 : (0 < rank)%nat) by nia.
  exists (take rank sorted), (drop rank sorted). pose proof (lookup_lt_Some _ _ _ Hi).
  assert (Hsplit : sorted = take (rank - 1) sorted ++ x :: drop rank sorted).
  { rewrite <- (take_drop_middle _ _ _ Hi) at 1. by replace (S (rank - 1)) with rank by lia. }
  assert (Htake : take rank sorted = take (rank - 1) sorted ++ [x]).
  { rewrite <- (take_S_r _ _ _ Hi). by replace (S (rank - 1)) with rank by lia. }
  rewrite Hsplit in Hs. split_and!.
  - by rewrite take_drop.
  - rewrite length_take. lia.
  - rewrite Htake. apply elem_of_app. right. by left.
  - rewrite Htake. apply Forall_app. split; [|by repeat constructor]. apply Forall_forall. intros y Hy.
    eapply (StronglySorted_app_1_elem_of Z.le _ _ y x Hs Hy). by left.
  - apply StronglySorted_app_1_r in Hs. by inversion Hs.
Qed.

(** What is recorded of the three packets of the example. *)
Definition recorded (ds : list (option (nat * timeval))) : res (list status) :=
  match receive_udp_stream (sample_options 3) (deliver (packets sample_sent) <$> ds) (replicate 3 (Tv 0 0)) with
  | Ok (times, _) => Ok (status_of <$> times)
  | Fault f => Fault f
  end.
(** A second copy of a packet uses up a round of the receiver, so the last packet that
    arrives is not read and is reported as lost. *)
Example duplicate_hides_packet :
  recorded [Some (0%nat, Tv 1 5000); Some (0%nat, Tv 1 5001); Some (1%nat, Tv 1 25000); Some (2%nat, Tv 1 45000)]
  = Ok [RECEIVED; RECEIVED; LOST].
Proof. vm_compute. reflexivity. Qed.
(** A packet whose delay is 0, as clocks that differ can make it, counts as lost. *)
Example no_delay_is_lost : recorded [Some (0%nat, Tv 1 0)] = Ok [LOST; LOST; LOST].
Proof. vm_compute. reflexivity. Qed.

(** The options of a HELLO arrive as they were, but the server does not check them. *)
Lemma hello_roundtrip o :
  0 <= tport o < 65536 -> 0 <= packet_size o < 65536 -> 0 <= packet_count o < 65536 -> 0 <= dscp o < 256 ->
  parse_hello (Some (build_hello o)) = Ok {|
    cport := 0; tport := tport o; packet_size := packet_size o; packet_count := packet_count o;
    packet_spacing := packet_spacing o; percentile_count := percentile_count o; rtt_samples := rtt_samples o;
    dscp := dscp o; direction := CLIENT_TO_SERVER |}.
Proof. intros. unfold parse_hello, build_hello. cbn. by rewrite !u16_id, u8_id by lia. Qed.
Definition hello_with (size count rtt : Z) : hello_t := {|
  h_test_port := 8826; h_packet_size := size; h_packet_spacing := 20000; h_packet_count := count;
  h_percentile_count := 10; h_dscp := 0; h_rtt_samples := rtt |}.
Definition serve_send (h : hello_t) : res item :=
  o ← parse_hello (Some h); st ← send_udp_stream (Some 20) true o sample_rounds [] 0; Ok (do_send st).
Example small_packets_overflow : serve_send (hello_with 40 3 1) = Fault OutOfBounds.
Proof. vm_compute. reflexivity. Qed.
Example many_samples_assert : serve_send (hello_with 100 3 4) = Fault AssertFail.
Proof. vm_compute. reflexivity. Qed.
Example no_packets_undefined :
  (o ← parse_hello (Some (hello_with 100 65536 1)); do_receive o []) = Fault OutOfBounds.
Proof. vm_compute. reflexivity. Qed.
(** A short reflection is read past what was received. *)
Example short_reflection :
  receive_reflected_packets 3 [Arrival [1; 2; 3] (Tv 1 0)] 0 {| maximum := 0; minimum := 4294967295; mean := 0; samples := 0 |}
  = Fault Uninitialised.
Proof. vm_compute. reflexivity. Qed.
