(* ===== verification/Accept.v ===== *)
(** Connections to a running client: the control port (control_establish_callback(),
    control_read_callback() and free_control_config() of src/measured/control.c), the local
    sockets of the resolvers (the callbacks of src/measured/nssock.c and asnsock.c,
    amp_resolver_connect() of src/common/ampresolv.c) and the TLS context they use
    (initialise_ssl_context() of src/common/ssl.c).

    The event loop is the sequence of events that libevent delivers; fork() and
    pthread_create() work or not as each event says. *)
From S2P Require Import Prelude CLib Acl Testlib Targets Run Controlmsg Sockets Control Certs Config Boot Packets.
#[local] Open Scope Z_scope.

(** ** The TLS context *)

(** What a context was set up with. *)
Record ssl_context : Set := {
  min_tls12 : bool; no_compression : bool; server_preference : bool; verify_peer : bool;
  certificate : option cstr; private_key : option cstr; trust : option cstr; secure_ciphers : bool;
  ecdh : bool
}.
(** Whether each call of OpenSSL works. *)
Record ssl_calls : Set := {
  c_new : bool; c_certificate : bool; c_private_key : bool; c_matches : bool; c_verify_locations : bool;
  c_ciphers : bool; c_curve : bool; c_tmp_ecdh : bool
}.
Definition context_new : ssl_context := {|
  min_tls12 := true; no_compression := true; server_preference := true; verify_peer := true;
  certificate := None; private_key := None; trust := None; secure_ciphers := false; ecdh := false |}.
(** initialise_ssl_context(): the context or NULL, and how many contexts are left that
    nothing points to; ssl_cleanup() frees the global one, which is not set yet. *)
Definition initialise_ssl_context (a : ssl_calls) (o : ssl_opt) : res (option ssl_context * nat) :=
  match o_cacert o, o_cert o, o_key o with
  | Some cacert, Some cert, Some key =>
      if negb (c_new a) then Fault NullDeref
      else if negb (c_certificate a) then Ok (None, 1%nat)
      else if negb (c_private_key a) then Ok (None, 1%nat)
      else if negb (c_matches a) then Ok (None, 1%nat)
      else if negb (c_verify_locations a) then Ok (None, 1%nat)
      else if negb (c_ciphers a) then Ok (None, 1%nat)
      else if negb (c_curve a) then Ok (None, 1%nat)
      else if negb (c_tmp_ecdh a) then Ok (None, 1%nat)
      else Ok (Some {| min_tls12 := min_tls12 context_new; no_compression := no_compression context_new;
                       server_preference := server_preference context_new; verify_peer := verify_peer context_new;
                       certificate := Some cert; private_key := Some key; trust := Some cacert;
                       secure_ciphers := true; ecdh := true |}, 0%nat)
  | _, _, _ => Ok (None, 0%nat)
  end.

(** ** The control port *)

(** What the event loop keeps: the descriptors of the process, the connections that have
    not sent anything yet, and what became of the processes that serve one. *)
Record port_t : Type := {
  p_world : world; pending : list Z; children : list (Z * res (list served))
}.
(** An event: a connection to the listening socket, or the first data on a connection,
    with whether fork() and unblock_signals() work and what the client sends. *)
Inductive event_t : Type :=
| Connection (listener : Z)
| Readable (fd : Z) (fork_ok : bool) (sigaction : Z -> bool) (sigprocmask : bool) (env : list (io (list Z))).

Section Port.
Context `{P : Protobuf MControl} `{K : Kernel} `{T : Openssl}.
Context (amp_tests : list module) (name_table : list Nametable.nametable_t) (acl : acl_root)
  (watchdog_ok : bool) (bound_device : option cstr) (local : option (Z * cstr))
  (callback : list cstr -> list (io (list Z)) -> list (io (list Z))).
(** The local sockets of the parent, and the signals it handles. *)
Context (asnsock nssock : Z) (signals : sig_state).

Definition control_establish_callback (evsock : Z) (p : port_t) : res port_t :=
  r ← accept_call evsock (p_world p);
  let '(fd, w) := r in
  if fd <? 0 then Ok {| p_world := w; pending := pending p; children := children p |}
  else Ok {| p_world := w; pending := pending p ++ [fd]; children := children p |}.

(** The child process: its copy of the descriptors, without the local sockets. *)
Definition control_child (fd : Z) (sigaction : Z -> bool) (sigprocmask : bool) (env : list (io (list Z))) (w : world)
    : res (list served) :=
  r ← close asnsock w;
  r ← close nssock (snd r);
  if fst (unblock_signals sigaction sigprocmask signals) <? 0 then Ok []
  else serve_connection amp_tests name_table acl watchdog_ok bound_device local callback fd env (snd r).

Definition control_read_callback (evsock : Z) (fork_ok : bool) (sigaction : Z -> bool) (sigprocmask : bool)
    (env : list (io (list Z))) (p : port_t) : res port_t :=
  let pending := filter (fun x => x <> evsock) (pending p) in
  if negb fork_ok then Ok {| p_world := p_world p; pending := pending; children := children p |}
  else
    let child := control_child evsock sigaction sigprocmask env (p_world p) in
    r ← close evsock (p_world p);
    Ok {| p_world := snd r; pending := pending; children := children p ++ [(evsock, child)] |}.

(** libevent calls a callback only for a descriptor that has an event. *)
Definition handle (e : event_t) (p : port_t) : res port_t :=
  match e with
  | Connection listener => control_establish_callback listener p
  | Readable fd fork_ok sigaction sigprocmask env =>
      if bool_decide (fd ∈ pending p) then control_read_callback fd fork_ok sigaction sigprocmask env p else Ok p
  end.
Fixpoint handle_all (es : list event_t) (p : port_t) : res port_t :=
  match es with
  | [] => Ok p
  | e :: es => p ← handle e p; handle_all es p
  end.
End Port.

(** ** The local resolvers *)

Section Local.
Context `{K : Kernel}.

(** resolver_socket_event_callback() and asn_socket_event_callback(): the connection that a
    new thread serves; a thread that could not be created is detached all the same. *)
Definition resolver_socket_event_callback (evsock : Z) (thread_ok : bool) : sys (option Z) :=
  fd ← accept_call evsock;
  if fd <? 0 then mret None
  else if negb thread_ok then lift (Fault Uninitialised) else mret (Some fd).
Definition asn_socket_event_callback (evsock : Z) (thread_ok : bool) : sys (option Z) :=
  resolver_socket_event_callback evsock thread_ok.

(** amp_resolver_connect(): the connection of a test to the resolver. *)
Definition amp_resolver_connect (connected : Z -> bool) : sys Z :=
  sock ← socket_call AF_UNIX;
  if sock <? 0 then mret (-1)
  else if negb (connected sock) then mret (-1) else mret sock.
End Local.

(** ** Serving connections *)

(** A process could be started for every connection. *)
Definition forks_work (es : list event_t) : Prop :=
  Forall (fun e => match e with Readable _ fork_ok _ _ _ => fork_ok = true | Connection _ => True end) es.

Lemma filter_out_perm (x : Z) (l : list Z) : NoDup l -> x ∈ l -> x :: filter (fun y => y <> x) l ≡ₚ l.
Proof.
  intros Hnd Hx. apply NoDup_Permutation; [|done|].
  - constructor; [rewrite list_elem_of_filter; naive_solver|by apply NoDup_filter].
  - intros y. rewrite elem_of_cons, list_elem_of_filter. destruct (decide (y = x)); naive_solver.
Qed.

Section Invariant.
Context `{P : Protobuf MControl} `{K : Kernel} `{T : Openssl}.
Context (amp_tests : list module) (name_table : list Nametable.nametable_t) (acl : acl_root)
  (watchdog_ok : bool) (bound_device : option cstr) (local : option (Z * cstr))
  (callback : list cstr -> list (io (list Z)) -> list (io (list Z))).
Context (asnsock nssock : Z) (signals : sig_state) (w0 : world).

(** The descriptors of every connection there was, [lost] those that no process serves. *)
Definition connections (lost : list Z) (p : port_t) : list Z := lost ++ pending p ++ (fst <$> children p).
Record port_inv (lost : list Z) (p : port_t) : Prop := {
  inv_fds : fds (p_world p) ≡ₚ lost ++ pending p ++ fds w0;
  inv_distinct : NoDup (connections lost p ++ fds w0);
  inv_fresh : Forall (fun fd => fd < next_fd (p_world p)) (connections lost p ++ fds w0);
  inv_positive : 0 <= next_fd (p_world p) /\ Forall (fun fd => 0 <= fd) (connections lost p);
  inv_children : Forall (fun c => exists sigaction sigprocmask env w,
    snd c = control_child amp_tests name_table acl watchdog_ok bound_device local callback asnsock nssock signals
              (fst c) sigaction sigprocmask env w) (children p)
}.
Lemma establish_inv lost evsock p :
  port_inv lost p -> exists p', control_establish_callback evsock p = Ok p' /\ port_inv lost p'.
Proof using Type.
  intros [Hf Hd Hn [H0 Hp] Hc]. unfold control_establish_callback, accept_call, open_fd.
  destruct (k_accept evsock); cbn [mbind res_bind].
  2:{ eexists. split; [reflexivity|]. by split. }
  set (fd := next_fd (p_world p)) in *. destruct (Z.ltb_spec fd 0); [lia|]. eexists. split; [reflexivity|].
  assert (Hperm : connections lost {| p_world := p_world p; pending := pending p ++ [fd]; children := children p |} ++ fds w0
    ≡ₚ fd :: connections lost p ++ fds w0) by (unfold connections; cbn; solve_Permutation).
  assert (Hfresh : fd ∉ connections lost p ++ fds w0).
  { intros Hin. rewrite Forall_forall in Hn. specialize (Hn fd Hin). lia. }
  split; cbn [p_world pending children fds next_fd].
  - rewrite Hf. solve_Permutation.
  - change (NoDup (connections lost {| p_world := p_world p; pending := pending p ++ [fd]; children := children p |} ++ fds w0)).
    rewrite Hperm. by constructor.
  - change (Forall (fun x => x < fd + 1) (connections lost {| p_world := p_world p; pending := pending p ++ [fd]; children := children p |} ++ fds w0)).
    rewrite Hperm. constructor; [lia|]. eapply Forall_impl; [exact Hn|]. cbn. lia.
  - split; [lia|]. unfold connections in *. cbn. rewrite !Forall_app in *. rewrite Forall_singleton. naive_solver lia.
  - done.
Qed.

Lemma read_inv lost fd fork_ok sigaction sigprocmask env p :
  fd ∈ pending p -> port_inv lost p ->
  exists p', control_read_callback amp_tests name_table acl watchdog_ok bound_device local callback asnsock nssock signals
    fd fork_ok sigaction sigprocmask env p = Ok p' /\
    port_inv (if fork_ok then lost else fd :: lost) p'.
Proof using Type.
  intros Hfd [Hf Hd Hn [H0 Hp] Hc]. unfold control_read_callback.
  set (rest := filter (fun x => x <> fd) (pending p)).
  assert (Hpend : fd :: rest ≡ₚ pending p).
  { apply filter_out_perm; [|done]. unfold connections in Hd. rewrite !NoDup_app in Hd. naive_solver. }
  destruct fork_ok; cbn [negb].
  - unfold close at 1. cbn [mbind res_bind]. eexists. split; [reflexivity|].
    set (child := control_child _ _ _ _ _ _ _ _ _ _ _ _ _ _ _).
    assert (Hperm : connections lost {| p_world := p_world p; pending := rest; children := children p ++ [(fd, child)] |} ++ fds w0
      ≡ₚ connections lost p ++ fds w0).
    { unfold connections. cbn. rewrite fmap_app, <- Hpend. cbn. solve_Permutation. }
    split; cbn [snd p_world pending children fds next_fd].
    + rewrite Hf, <- Hpend. apply (Permutation_cons_inv (a := fd)).
      rewrite filter_out_perm; [solve_Permutation| |set_solver].
      unfold connections in Hd. rewrite Hpend. rewrite !NoDup_app in *. set_solver.
    + change (NoDup (connections lost {| p_world := p_world p; pending := rest; children := children p ++ [(fd, child)] |} ++ fds w0)).
      by rewrite Hperm.
    + change (Forall (fun x => x < next_fd (p_world p))
        (connections lost {| p_world := p_world p; pending := rest; children := children p ++ [(fd, child)] |} ++ fds w0)).
      by rewrite Hperm.
    + split; [done|]. unfold connections in *. cbn. rewrite fmap_app, !Forall_app in *. rewrite <- Hpend in Hp.
      rewrite Forall_cons in Hp. cbn. rewrite Forall_singleton. naive_solver.
    + apply Forall_app. split; [done|]. apply Forall_singleton. cbn. by eexists _, _, _, _.
  - eexists. split; [reflexivity|].
    assert (Hperm : connections (fd :: lost) {| p_world := p_world p; pending := rest; children := children p |} ++ fds w0
      ≡ₚ connections lost p ++ fds w0).
    { unfold connections. cbn. rewrite <- Hpend. solve_Permutation. }
    split; cbn [p_world pending children].
    + rewrite Hf, <- Hpend. solve_Permutation.
    + by rewrite Hperm.
    + by rewrite Hperm.
    + split; [done|]. unfold connections in *. cbn. rewrite Forall_cons, !Forall_app in *. rewrite <- Hpend in Hp.
      rewrite Forall_cons in Hp. naive_solver.
    + done.
Qed.

Lemma handle_all_inv es : forall lost p,
  port_inv lost p ->
  exists p' lost', handle_all amp_tests name_table acl watchdog_ok bound_device local callback asnsock nssock signals es p
    = Ok p' /\ port_inv lost' p' /\ (forks_work es -> lost' = lost).
Proof using Type.
  induction es as [|e es IH]; intros lost p Hinv; cbn [handle_all]; [by exists p, lost|].
  assert (Hstep : exists p1 lost1, handle amp_tests name_table acl watchdog_ok bound_device local callback asnsock nssock
    signals e p = Ok p1 /\ port_inv lost1 p1 /\ (forks_work [e] -> lost1 = lost)).
  { destruct e as [listener|fd fork_ok sa sp env]; cbn [handle].
    - destruct (establish_inv lost listener p Hinv) as (p1 & E & H1). by exists p1, lost.
    - case_bool_decide as Hin; [|by exists p, lost].
      destruct (read_inv lost fd fork_ok sa sp env p Hin Hinv) as (p1 & E & H1). eexists p1, _. split_and!; [done..|].
      intros Hw. unfold forks_work in Hw. rewrite Forall_singleton in Hw. by rewrite Hw. }
  destruct Hstep as (p1 & lost1 & -> & H1 & Hl1). cbn [mbind res_bind].
  destruct (IH lost1 p1 H1) as (p' & lost' & E & H' & Hl'). exists p', lost'. split_and!; [done..|].
  intros [Hw Hws]%Forall_cons. rewrite Hl' by done. apply Hl1. by apply Forall_singleton.
Qed.
End Invariant.

Definition idle (w : world) : port_t := {| p_world := w; pending := []; children := [] |}.
Lemma idle_inv `{Protobuf MControl, Openssl} amp_tests name_table acl watchdog_ok bound_device local callback asnsock nssock signals w :
  NoDup (fds w) -> Forall (fun fd => fd < next_fd w) (fds w) -> 0 <= next_fd w ->
  port_inv amp_tests name_table acl watchdog_ok bound_device local callback asnsock nssock signals w [] (idle w).
Proof. intros. split; try done. Qed.


(** ** A connection that is not served *)

(** When fork() fails the connection is neither pending any more nor closed. *)
Theorem failed_fork_leaks `{Protobuf MControl, Kernel, Openssl} amp_tests name_table acl watchdog_ok bound_device local callback asnsock nssock
    signals fd sigaction sigprocmask env p :
  fd ∈ pending p -> fd ∈ fds (p_world p) ->
  exists p', handle amp_tests name_table acl watchdog_ok bound_device local callback asnsock nssock signals
      (Readable fd false sigaction sigprocmask env) p = Ok p' /\
    fd ∈ fds (p_world p') /\ (fd ∉ pending p') /\ children p' = children p.
Proof.
  intros Hp Hf. cbn [handle]. rewrite bool_decide_eq_true_2 by done. eexists. split; [reflexivity|].
  cbn. split_and!; [done| |done]. rewrite list_elem_of_filter. naive_solver.
Qed.

(** ** The TLS context *)

(** A context that is returned asks for and verifies the certificate of the peer, with TLS
    1.2 at least, and has the key, certificate and trust that were configured; when one of
    them cannot be used there is none, and the one that was made is lost. *)
Theorem ssl_context_verifies a o ca cert key :
  o_cacert o = Some ca -> o_cert o = Some cert -> o_key o = Some key -> c_new a = true ->
  (exists ctx, initialise_ssl_context a o = Ok (Some ctx, 0%nat) /\ min_tls12 ctx = true /\ no_compression ctx = true /\
     verify_peer ctx = true /\ certificate ctx = Some cert /\ private_key ctx = Some key /\ trust ctx = Some ca /\
     secure_ciphers ctx = true /\ c_matches a = true) \/
  initialise_ssl_context a o = Ok (None, 1%nat).
Proof.
  intros Hca Hce Hk Hn. unfold initialise_ssl_context. rewrite Hca, Hce, Hk, Hn. cbn [negb].
  destruct (c_certificate a), (c_private_key a), (c_matches a) eqn:Em, (c_verify_locations a), (c_ciphers a), (c_curve a), (c_tmp_ecdh a);
    cbn [negb]; (by right) || (left; eexists; split; [reflexivity|]; done).
Qed.

(** ** The local sockets *)

(** A connection of a test to a resolver is open, or -1 was returned; when connect() fails
    the socket stays open. *)
Lemma resolver_connect_spec `{Kernel} connected w :
  let fd := next_fd w in
  0 <= fd ->
  exists r w', amp_resolver_connect connected w = Ok (r, w') /\
    (r = fd /\ fds w' = fd :: fds w \/ r = -1 /\ (fds w' = fds w \/ fds w' = fd :: fds w /\ connected fd = false)).
Proof.
  intros fd Hfd. unfold amp_resolver_connect, socket_call, open_fd, mbind, sys_bind. fold fd.
  destruct (k_socket fd AF_UNIX).
  - destruct (Z.ltb_spec fd 0); [lia|]. destruct (connected fd) eqn:E; cbn; eexists _, _; (split; [reflexivity|]); cbn; auto.
  - cbn. eexists _, _. split; [reflexivity|]. auto.
Qed.

(** Two clients connect; the second sends its request first, the first one is still silent. *)
Definition two_clients : list event_t :=
  [Connection 3; Connection 3; Readable 11 true (fun _ => true) true two_requests].
Definition listening : world := {| fds := [3; 4; 5]; next_fd := 10; trace := [] |}.
Definition port_after : res port_t :=
  @handle_all measured_coding busy_kernel trusting our_tests [] (ctl_acl sample_control) true None local_v4 keep 4 5
    {| handled := signals; blocked := [] |} two_clients (idle listening).
