(* ===== verification/As.v ===== *)
(** The AS numbers of traceroute paths (src/tests/traceroute/as.c).

    After probing, the traceroute test asks for the AS number of every hop: a prefix
    trie of the /24 and /64 networks to look up is built ([IpTrie]), each leaf is sent
    as a query to the local cache or to the whois server ([Asn]), the answers go into
    the same trie, and every hop gets the number its address is found under.  The
    sockets are those of [Sockets]; [answer] is what the other end sends back for what
    it was sent. *)
From S2P Require Import Prelude CLib Address IpTrie Testlib Bytes Traceroute Sockets LocalSock Asn Accept.
#[local] Open Scope Z_scope.

(** asn_t *)
Definition AS_UNKNOWN : Z := 0.
Definition AS_NULL : Z := -1.
Definition AS_PRIVATE : Z := -2.

Definition is_private_address (addr : option sockaddr) : bool :=
  match addr with
  | None => false
  | Some a =>
      let within block len := compare_addresses (Some a) (Some block) len =? 0 in
      if sa_family a =? AF_INET then
        if within (SockIn 0) 32 then true
        else if within (SockIn (ntohl 0x0a000000)) 8 then true
        else if within (SockIn (ntohl 0xac100000)) 12 then true
        else within (SockIn (ntohl 0xc0a80000)) 16
      else if sa_family a =? AF_INET6 then within (SockIn6 (replicate 8 0)) 128
      else false
  end.

(** ** Collecting the networks *)

Fixpoint add_hops (masklen : Z) (item : dest_info_t) (i : Z) (n : nat) (trie : iptrie) : res iptrie :=
  match n with
  | O => Ok trie
  | S n =>
      h ← rd (hop item) i;
      let trie :=
        match hop_addr h with
        | Some a => if is_private_address (Some a) then trie else iptrie_add trie a masklen 0
        | None => trie
        end in
      add_hops masklen item (i + 1) n trie
  end.

Fixpoint build_trie (donelist : list dest_info_t) (trie : iptrie) : res iptrie :=
  match donelist with
  | [] => Ok trie
  | item :: rest =>
      if (path_length item <? 1) || (first_response item <? 1) then build_trie rest trie
      else
        let masklen := if ai_family (addr item) =? AF_INET then 24 else 64 in
        trie ← add_hops masklen item 0 (Z.to_nat (path_length item)) trie;
        build_trie rest trie
  end.

(** ** Matching the answers *)

Definition set_as (h : hop_info_t) (v : Z) : hop_info_t :=
  {| time_sent := time_sent h; as_ := v; delay := delay h; Traceroute.reply := Traceroute.reply h; hop_addr := hop_addr h |}.

Definition match_hop (trie : iptrie) (h : hop_info_t) : Z :=
  match hop_addr h with
  | Some a => if is_private_address (Some a) then AS_PRIVATE else iptrie_lookup_as trie a
  | None => AS_NULL
  end.

Fixpoint match_hops (trie : iptrie) (hops : list hop_info_t) (i : Z) (n : nat) : res (list hop_info_t) :=
  match n with
  | O => Ok hops
  | S n =>
      h ← rd hops i;
      hops ← wr hops i (set_as h (match_hop trie h));
      match_hops trie hops (i + 1) n
  end.

Fixpoint match_all (trie : iptrie) (donelist : list dest_info_t) : res (list dest_info_t) :=
  match donelist with
  | [] => Ok []
  | item :: rest =>
      hops ← match_hops trie (hop item) 0 (Z.to_nat (path_length item));
      rest ← match_all trie rest;
      Ok (set_hop item hops :: rest)
  end.

(** ** The whole lookup *)

Section Lookup.
Context `{K : Kernel} `{I : Inet}.
(** Whether connect() to the cache works, what the whois server does, the family that
    getsockname() gives for a descriptor, how many send() calls to the cache work, and
    what comes back for what was sent. *)
Context (connected : Z -> bool) (whois : whois_env) (sockname : Z -> option Z) (sends : nat)
  (answer : list (list Z) -> list (list Z)).

(** connect_to_whois_server() on the next free descriptor. *)
Definition whois_connect : sys (Z * conn) := fun w =>
  let e := {| w_getaddrinfo := w_getaddrinfo whois;
              w_socket := if w_socket whois <? 0 then -1 else next_fd w;
              w_sndtimeo := w_sndtimeo whois; w_connect := w_connect whois; w_getfl := w_getfl whois;
              w_setfl := w_setfl whois; w_sends := w_sends whois |} in
  let '(fd, left_open, c) := connect_to_whois_server e in
  Ok ((fd, c), {| fds := left_open ++ fds w; next_fd := next_fd w + 1; trace := trace w |}).

Definition set_as_numbers (donelist : list dest_info_t) : sys (Z * list dest_info_t) :=
  trie ← lift (build_trie donelist iptrie_empty);
  if iptrie_is_empty trie then mret (0, donelist)
  else
    fd ← amp_resolver_connect connected;
    fc ← (if fd <? 0 then whois_connect else mret (fd, {| out := []; good := sends |}));
    let '(asn_fd, c) := fc in
    if asn_fd <? 0 then mret (-1, donelist)
    else
      match iptrie_on_all_leaves (amp_asn_add_query asn_fd (sockname asn_fd)) trie (Ok c) with
      | (_, Fault f) => lift (Fault f)
      | (r, Ok c) =>
          if r <? 0 then close asn_fd;; mret (0, donelist)
          else
            let '(r, c) := amp_asn_flag_done asn_fd (sockname asn_fd) c in
            if r <? 0 then close asn_fd;; mret (0, donelist)
            else
              trie ← lift (amp_asn_fetch_results (sockname asn_fd) (answer (out c)) trie);
              donelist ← lift (match_all trie donelist);
              close asn_fd;; mret (0, donelist)
      end.
End Lookup.

(** ** What is expected of it *)

(** The addresses that need no lookup: 0.0.0.0, 10.0.0.0 to 10.255.255.255, 172.16.0.0 to
    172.31.255.255, 192.168.0.0 to 192.168.255.255 and the IPv6 unspecified address. *)
Definition private_range (a : sockaddr) : bool :=
  match a with
  | SockIn x =>
      let host := ntohl x in
      (host =? 0) || (0x0a000000 <=? host) && (host <? 0x0b000000)
      || (0xac100000 <=? host) && (host <? 0xac200000) || (0xc0a80000 <=? host) && (host <? 0xc0a90000)
  | SockIn6 ws => forallb (fun w => w =? 0) ws
  | SockOther _ => false
  end.

(** Two IPv4 addresses agree on [n] bits when the numbers above these bits are equal. *)
Lemma agree_div x y n :
  0 <= x < 4294967296 -> 0 <= y < 4294967296 -> 0 <= n <= 32 ->
  Address.agree (SockIn x) (SockIn y) n <-> ntohl x / 2 ^ (32 - n) = ntohl y / 2 ^ (32 - n).
Proof.
  intros Hx Hy Hn. rewrite <- !Z.shiftr_div_pow2 by lia. split.
  - intros Ha. apply Z.bits_inj'. intros j Hj. rewrite !Z.shiftr_spec by lia.
    destruct (Z.ltb_spec j n) as [Hjn|Hjn].
    + specialize (Ha (n - 1 - j)). cbn [abit] in Ha. replace (j + (32 - n)) with (31 - (n - 1 - j)) by lia.
      apply Ha. lia.
    + assert (Hb : forall z, Z.testbit (ntohl z) (j + (32 - n)) = false).
      { intros z. apply Z.testbit_false; [lia|]. rewrite Z.div_small; [done|].
        pose proof (bswap32_range (u32 z)) as Hr. fold (ntohl z) in Hr. assert (2 ^ 32 <= 2 ^ (j + (32 - n))) by (apply Z.pow_le_mono_r; lia). lia. }
      by rewrite !Hb.
  - intros He i Hi. cbn [abit]. apply (f_equal (fun z => Z.testbit z (n - 1 - i))) in He.
    rewrite !Z.shiftr_spec in He by lia. by replace (n - 1 - i + (32 - n)) with (31 - i) in He by lia.
Qed.

Lemma compare_private x y n :
  0 <= x < 4294967296 -> 0 <= y < 4294967296 -> 0 <= n <= 32 ->
  (compare_addresses (Some (SockIn x)) (Some (SockIn y)) n =? 0)
  = (ntohl x / 2 ^ (32 - n) =? ntohl y / 2 ^ (32 - n)).
Proof.
  intros Hx Hy Hn. apply Bool.eq_iff_eq_true. rewrite !Z.eqb_eq, compare_addresses_spec by (done || lia).
  cbn [width]. rewrite Z.min_l by lia. by apply agree_div.
Qed.

(** The numbers of a block of [2 ^ n] that starts at [b]. *)
Lemma block_range h b n :
  0 <= n -> b mod 2 ^ n = 0 -> (h / 2 ^ n =? b / 2 ^ n) = (b <=? h) && (h <? b + 2 ^ n).
Proof.
  intros Hn Hb. assert (Hp : 0 < 2 ^ n) by lia. generalize dependent (2 ^ n). intros p Hb Hp.
  apply Bool.eq_iff_eq_true. rewrite andb_true_iff, Z.eqb_eq, Z.leb_le, Z.ltb_lt.
  pose proof (Z.div_mod b p). pose proof (Z.div_mod h p). pose proof (Z.mod_pos_bound h p). split; intros; nia.
Qed.

(** is_private_address() is the range check it is meant to be. *)
Lemma private_correct a : addr_wf a -> is_private_address (Some a) = private_range a.
Proof.
  intros Ha. unfold is_private_address. destruct a as [x|ws|f]; cbn [sa_family]; [| |done].
  - change (AF_INET =? AF_INET) with true. cbn [addr_wf] in Ha. cbn iota.
    rewrite !compare_private by (done || lia || (rewrite ?ntohl_invol by lia; lia) || (apply (bswap32_range (u32 _)))).
    rewrite !ntohl_invol by lia. unfold private_range. rewrite ntohl_0.
    pose proof (bswap32_range (u32 x)) as Hr. fold (ntohl x) in Hr. generalize dependent (ntohl x). intros h Hr.
    change (32 - 32) with 0. change (32 - 8) with 24. change (32 - 12) with 20. change (32 - 16) with 16.
    rewrite (block_range h 0 0), (block_range h 0x0a000000 24), (block_range h 0xac100000 20), (block_range h 0xc0a80000 16)
      by (done || lia).
    replace ((0 <=? h) && _) with (h =? 0) by lia. by repeat destruct (_ && _); destruct (h =? 0).
  - change (AF_INET6 =? AF_INET) with false. change (AF_INET6 =? AF_INET6) with true. cbn iota.
    apply Bool.eq_iff_eq_true. rewrite Z.eqb_eq, compare_addresses_spec;
      [|done|split; [done|by apply Forall_replicate]|done|lia].
    cbn [width private_range]. rewrite Z.min_id. destruct Ha as [Hl Ha].
    replace 128 with (16 * Z.of_nat (length ws)) by lia.
    rewrite agree6_full by (lia || done || by apply Forall_replicate). rewrite forallb_forall. split.
    + intros -> w Hw%list_elem_of_In. apply elem_of_replicate in Hw as [-> _]. done.
    + intros H0. symmetry. apply replicate_as_elem_of. split; [done|]. intros w Hw%list_elem_of_In.
      apply H0 in Hw. by apply Z.eqb_eq in Hw.
Qed.

(** The hops of a path that need a lookup, and all the requests of a list of paths. *)
Definition hop_request (masklen : Z) (h : hop_info_t) : option entry :=
  match hop_addr h with
  | Some a => if private_range a then None else Some {| e_addr := a; e_prefix := masklen; e_as := AS_UNKNOWN |}
  | None => None
  end.
Definition path_hops (item : dest_info_t) : list hop_info_t := take (Z.to_nat (path_length item)) (hop item).
Definition probed (item : dest_info_t) : bool := (1 <=? path_length item) && (1 <=? first_response item).
Definition item_requests (item : dest_info_t) : list entry :=
  if probed item
  then omap (hop_request (if ai_family (addr item) =? AF_INET then 24 else 64)) (path_hops item) else [].
Definition requests (donelist : list dest_info_t) : list entry := concat (item_requests <$> donelist).

(** A path whose hops are addresses of the destination's family. *)
Definition item_ok (item : dest_info_t) : Prop :=
  0 <= path_length item <= Z.of_nat (length (hop item)) /\
  forall h a, h ∈ hop item -> hop_addr h = Some a -> addr_wf a /\ sa_family a = ai_family (addr item).

(** The number each hop is to get, when the cache answers with [results]: a network the
    cache has no answer for is unknown. *)
Definition expected_as (donelist : list dest_info_t) (results : iptrie) (h : hop_info_t) : Z :=
  match hop_addr h with
  | None => AS_NULL
  | Some a =>
      if private_range a then AS_PRIVATE
      else if existsb (fun e => covers e a) (all_leaves results) then iptrie_lookup_as results a
      else if existsb (fun e => covers e a) (requests donelist) then AS_UNKNOWN else -1
  end.
Definition with_as (f : hop_info_t -> Z) (item : dest_info_t) : dest_info_t :=
  set_hop item (((fun h => set_as h (f h)) <$> path_hops item) ++ drop (Z.to_nat (path_length item)) (hop item)).

(** *** The loops *)

Lemma drop_rd {A} (l : list A) i n :
  0 <= i -> (Z.to_nat i + S n <= length l)%nat ->
  exists a, rd l i = Ok a /\ take (S n) (drop (Z.to_nat i) l) = a :: take n (drop (Z.to_nat (i + 1)) l).
Proof.
  intros Hi Hn. destruct (rd_in_bounds l i) as [a Ha]; [lia|]. exists a. split; [done|].
  apply rd_Ok in Ha as [_ Ha]. rewrite (drop_S l a (Z.to_nat i)) by done. cbn.
  by replace (Z.to_nat (i + 1)) with (S (Z.to_nat i)) by lia.
Qed.

Lemma add_hops_spec masklen item n : forall i trie,
  (forall h a, h ∈ hop item -> hop_addr h = Some a -> addr_wf a) ->
  0 <= i -> (Z.to_nat i + n <= length (hop item))%nat ->
  add_hops masklen item i n trie
  = Ok (add_all (omap (hop_request masklen) (take n (drop (Z.to_nat i) (hop item)))) trie).
Proof.
  induction n as [|n IH]; intros i trie Hw Hi Hn; [done|]. cbn [add_hops].
  destruct (drop_rd (hop item) i n) as (h & Hh & ->); [done..|]. rewrite Hh, bind_Ok, IH by (done || lia).
  apply rd_Ok in Hh as [_ Hh]. apply list_elem_of_lookup_2 in Hh. cbn [omap list_omap]. unfold hop_request at 2.
  destruct (hop_addr h) as [a|] eqn:Ea; [|done]. rewrite private_correct by eauto.
  by destruct (private_range a).
Qed.

Lemma build_trie_spec l : forall trie,
  Forall item_ok l -> build_trie l trie = Ok (add_all (requests l) trie).
Proof.
  induction l as [|item l IH]; intros trie; [done|]. rewrite Forall_cons. intros [[Hp Hw] Hl]. cbn [build_trie].
  unfold requests. cbn [fmap list_fmap concat]. fold (requests l). rewrite add_all_app. unfold item_requests, probed.
  destruct (Z.ltb_spec (path_length item) 1); [by rewrite (proj2 (Z.leb_gt 1 (path_length item))) by lia; apply IH|].
  destruct (Z.ltb_spec (first_response item) 1).
  { rewrite (proj2 (Z.leb_gt 1 (first_response item))) by lia. rewrite andb_false_r. by apply IH. }
  rewrite (proj2 (Z.leb_le 1 (path_length item))), (proj2 (Z.leb_le 1 (first_response item))) by lia. cbn [orb andb].
  rewrite add_hops_spec by (naive_solver || lia). rewrite bind_Ok. by apply IH.
Qed.

Lemma match_hops_spec trie n : forall hops i,
  0 <= i -> (Z.to_nat i + n <= length hops)%nat ->
  match_hops trie hops i n
  = Ok (take (Z.to_nat i) hops ++ ((fun h => set_as h (match_hop trie h)) <$> take n (drop (Z.to_nat i) hops))
        ++ drop (Z.to_nat i + n) hops).
Proof.
  induction n as [|n IH]; intros hops i Hi Hn; cbn [match_hops].
  - rewrite Nat.add_0_r, take_0. cbn [fmap list_fmap app]. by rewrite take_drop.
  - destruct (drop_rd hops i n) as (h & Hh & ->); [done..|]. rewrite Hh, bind_Ok, wr_in by lia. rewrite bind_Ok.
    rewrite IH; [|lia|rewrite length_insert; lia]. replace (Z.to_nat (i + 1)) with (S (Z.to_nat i)) by lia.
    rewrite !drop_insert_lt by lia. apply rd_Ok in Hh as [_ Hh].
    rewrite (take_S_r _ _ (set_as h (match_hop trie h))) by (apply list_lookup_insert_eq; lia).
    rewrite take_insert_ge by lia. rewrite <- app_assoc. cbn [app fmap list_fmap].
    by replace (S (Z.to_nat i) + n)%nat with (Z.to_nat i + S n)%nat by lia.
Qed.

Lemma match_all_spec trie l :
  Forall item_ok l -> match_all trie l = Ok (with_as (match_hop trie) <$> l).
Proof.
  induction 1 as [|item l [Hp _] Hl IH]; [done|]. cbn [match_all].
  rewrite match_hops_spec by (done || lia). rewrite bind_Ok, IH, bind_Ok. done.
Qed.

(** *** The answers *)

Lemma spec_lookup_app l l' z :
  spec_lookup (l ++ l') z = if existsb (fun e => covers e z) l then spec_lookup l z else spec_lookup l' z.
Proof. induction l as [|e l IH]; [done|]. cbn. by destruct (covers e z). Qed.
Lemma spec_lookup_none l z : existsb (fun e => covers e z) l = false -> spec_lookup l z = -1.
Proof. induction l as [|e l IH]; [done|]. cbn. intros [-> ?]%orb_false_iff. by apply IH. Qed.
Lemma spec_lookup_unknown l z :
  Forall (fun e => e_as e = AS_UNKNOWN) l ->
  spec_lookup l z = if existsb (fun e => covers e z) l then AS_UNKNOWN else -1.
Proof. induction 1 as [|e l He Hl IH]; [done|]. cbn. by destruct (covers e z). Qed.
Lemma existsb_rev {A} (f : A -> bool) l : existsb f (rev l) = existsb f l.
Proof.
  apply Bool.eq_iff_eq_true. rewrite !existsb_exists. by setoid_rewrite <- in_rev.
Qed.

Lemma requests_ok l :
  Forall item_ok l -> Forall (fun e => asn_entry e /\ e_as e = AS_UNKNOWN) (requests l).
Proof.
  intros Hl. apply Forall_forall. intros e (x & He & Hx)%list_elem_of_In%in_concat.
  apply list_elem_of_In, list_elem_of_fmap in He as (item & -> & Hi). rewrite Forall_forall in Hl.
  destruct (Hl _ Hi) as [_ Hw]. unfold item_requests in Hx. destruct (probed item); [|done].
  apply list_elem_of_In, list_elem_of_omap in Hx as (h & Hh & Hr). apply elem_of_take in Hh as (i & Hh & _).
  apply list_elem_of_lookup_2 in Hh. unfold hop_request in Hr. destruct (hop_addr h) as [a|] eqn:Ea; [|done].
  destruct (private_range a); [done|]. injection Hr as <-. destruct (Hw h a Hh Ea) as [Ha Hf].
  split; [|done]. split; [done|]. cbn. rewrite <- Hf. by destruct a.
Qed.

Lemma lookup_expected l results h :
  Forall item_ok l -> root_ok results -> Forall asn_entry (all_leaves results) ->
  (forall a, hop_addr h = Some a -> addr_wf a) ->
  match_hop (add_all (all_leaves results) (add_all (requests l) iptrie_empty)) h = expected_as l results h.
Proof.
  intros Hl Hr Has Hw. unfold match_hop, expected_as. destruct (hop_addr h) as [a|]; [|done].
  specialize (Hw a eq_refl). rewrite private_correct by done. destruct (private_range a); [done|].
  pose proof (requests_ok l Hl) as Hq. destruct (asn_compatible (requests l ++ all_leaves results)) as [Hes Hc].
  { apply Forall_app. split; [|done]. eapply Forall_impl; [exact Hq|]. by intros e []. }
  rewrite <- add_all_app, add_all_lookup by done. rewrite rev_app_distr, spec_lookup_app, existsb_rev.
  destruct (existsb _ (all_leaves results)).
  - destruct (asn_compatible _ Has) as [Hes' Hc']. by rewrite <- add_all_lookup, copy_lookup by done.
  - rewrite spec_lookup_unknown, existsb_rev; [done|]. apply Forall_rev. eapply Forall_impl; [exact Hq|]. by intros e [].
Qed.

(** An address that the test asked about is never left as not looked up. *)
Lemma asked_known l item h a :
  item ∈ l -> probed item = true -> item_ok item -> h ∈ path_hops item -> hop_addr h = Some a ->
  private_range a = false -> existsb (fun e => covers e a) (requests l) = true.
Proof.
  intros Hi Hp [_ Hw] Hh Ha Hn. apply existsb_exists.
  pose proof Hh as (i & Hh' & _)%elem_of_take. apply list_elem_of_lookup_2 in Hh'. destruct (Hw h a Hh' Ha) as [Wa _].
  exists {| e_addr := a; e_prefix := if ai_family (addr item) =? AF_INET then 24 else 64; e_as := AS_UNKNOWN |}. split.
  - apply in_concat. exists (item_requests item). split; [by apply list_elem_of_In, list_elem_of_fmap_2|].
    apply list_elem_of_In. unfold item_requests. rewrite Hp. apply list_elem_of_omap. exists h. split; [done|].
    unfold hop_request. by rewrite Ha, Hn.
  - unfold covers. apply Z.eqb_eq, compare_addresses_spec; [done..| |apply agree_refl]. cbn. by case_match.
Qed.

Lemma requests_nonempty l :
  Forall item_ok l -> requests l <> [] -> iptrie_is_empty (add_all (requests l) iptrie_empty) = false.
Proof.
  intros Hl Hne. pose proof (requests_ok l Hl) as Hq. destruct (requests l) as [|e es] eqn:E; [done|].
  assert (Ha : asn_entry e /\ e_as e = AS_UNKNOWN) by (by rewrite Forall_forall in Hq; apply Hq; left).
  destruct Ha as [[Ha Hp] He]. destruct (iptrie_is_empty _) eqn:Ee; [|done]. exfalso.
  destruct (asn_compatible (e :: es)) as [Hes Hc]; [eapply Forall_impl; [exact Hq|]; by intros ? []|].
  pose proof (add_all_lookup (e :: es) (e_addr e) Hes Hc Ha) as Hk.
  rewrite spec_lookup_unknown, existsb_rev in Hk
    by (apply Forall_rev; eapply Forall_impl; [exact Hq|]; by intros ? []).
  replace (existsb _ (e :: es)) with true in Hk.
  - unfold iptrie_is_empty in Ee. apply andb_true_iff in Ee as [E4 E6]. unfold iptrie_lookup_as in Hk.
    destruct (ipv4 _), (ipv6 _); try done. by destruct (sa_family (e_addr e) =? AF_INET), (sa_family (e_addr e) =? AF_INET6).
  - cbn. replace (covers e (e_addr e)) with true; [done|]. symmetry. apply Z.eqb_eq, compare_addresses_spec; try done.
    rewrite Hp. by destruct (e_addr e).
Qed.

Lemma with_as_ext f g item :
  (forall h, h ∈ path_hops item -> f h = g h) -> with_as f item = with_as g item.
Proof.
  intros Hfg. unfold with_as. do 2 f_equal. apply list_fmap_ext. intros i h Hh. f_equal. apply Hfg.
  by apply list_elem_of_lookup_2 in Hh.
Qed.

(** The queries for a trie of requests, sent to the cache. *)
Lemma queries_sent `{Inet} fd trie sends :
  0 <= fd -> root_ok trie -> (2 * length (all_leaves trie) < sends)%nat ->
  exists c1 c2,
    iptrie_on_all_leaves (amp_asn_add_query fd (Some AF_UNIX)) trie (Ok {| out := []; good := sends |}) = (0, Ok c1) /\
    amp_asn_flag_done fd (Some AF_UNIX) c1 = (0, c2) /\
    forall q t, aligned q (out c2) ->
      fill_request_trie q t = Ok (0, add_all ((fun e => request (e_addr e)) <$> all_leaves trie) t).
Proof.
  intros Hfd Ht Hs.
  destruct (asn_local_roundtrip fd trie iptrie_empty {| out := []; good := sends |} {| out := []; good := 0 |})
    as (c1 & c2 & c3 & H1 & H2 & _ & H4 & _); try done; [by split; left|]. by exists c1, c2.
Qed.

Section Correct.
Context `{K : Kernel} `{I : Inet}.
Context (connected : Z -> bool) (whois : whois_env) (sockname : Z -> option Z) (sends : nat)
  (answer : list (list Z) -> list (list Z)).

(** A connection that cannot be had, or a send() that fails, changes no path. *)
Lemma unresolved_unchanged donelist w fd :
  Forall item_ok donelist -> fd = next_fd w -> world_ok w -> sockname fd = Some AF_UNIX ->
  (k_socket fd AF_UNIX = false \/ connected fd = false) /\ w_getaddrinfo whois = false \/
  k_socket fd AF_UNIX = true /\ connected fd = true /\ sends = 0%nat ->
  exists r w', set_as_numbers connected whois sockname sends answer donelist w = Ok ((r, donelist), w').
Proof.
  intros Hl -> [Hfd Hnew] Hname Hcase. unfold set_as_numbers, amp_resolver_connect, socket_call, open_fd, lift, mbind, sys_bind, mret, sys_ret.
  rewrite build_trie_spec by done. destruct (iptrie_is_empty _); [by eexists _, _|].
  change (k_socket (next_fd w) Boot.AF_UNIX) with (k_socket (next_fd w) AF_UNIX).
  assert (Hneg : (next_fd w <? 0) = false) by (apply Z.ltb_ge; lia).
  destruct Hcase as [[Hno Hgai]|(-> & Hcon & ->)].
  - assert (Hw : forall w1, exists w2, whois_connect whois w1 = Ok ((WHOIS_UNAVAILABLE, {| out := []; good := w_sends whois |}), w2)).
    { intros w1. unfold whois_connect, connect_to_whois_server. rewrite Hgai. by eexists. }
    destruct (k_socket (next_fd w) AF_UNIX).
    + destruct Hno as [|Hno]; [done|]. rewrite Hneg, Hno. cbn [negb Z.ltb Z.compare].
      match goal with |- context [whois_connect whois ?w1] => destruct (Hw w1) as [w2 ->] end. by eexists _, _.
    + cbn [Z.ltb Z.compare].
      match goal with |- context [whois_connect whois ?w1] => destruct (Hw w1) as [w2 ->] end. by eexists _, _.
  - rewrite Hneg, Hcon. cbn [negb]. rewrite Hneg, Hname, iptrie_on_all_leaves_correct.
    generalize (leaf_nodes (ipv4 (add_all (requests donelist) iptrie_empty)) ++
                leaf_nodes (ipv6 (add_all (requests donelist) iptrie_empty))).
    intros ns. assert (Hdone : exists c, amp_asn_flag_done (next_fd w) (Some AF_UNIX) {| out := []; good := 0 |} = (-1, c)).
    { unfold amp_asn_flag_done. rewrite Hneg. by eexists. }
    destruct ns as [|n ns]; cbn [run_until].
    + cbn [Z.ltb Z.compare]. destruct Hdone as [c ->]. cbn. rewrite ?Hneg. eexists _, _. reflexivity.
    + assert (Hn : amp_asn_add_query (next_fd w) (Some AF_UNIX) n (Ok {| out := []; good := 0 |})
          = (-1, Ok {| out := []; good := 0 |})).
      { destruct n as [|? ? x ? ?]; [done|]. cbn. rewrite Hneg. unfold amp_asn_add_query_local.
        by destruct (_ || _). }
      rewrite Hn. cbn. rewrite ?Hneg. eexists _, _. reflexivity.
Qed.

(** AS numbers of traceroute paths, from the addresses of the hops to their numbers.
    When the test can connect to the local ASN cache and some hop of a finished path has
    a public address, set_as_numbers() sends one query for each distinct /24 or /64,
    which the cache reads back as exactly these requests; and when the cache answers them
    with the leaves of any trie of AS numbers, then every hop of every path is given:
    AS_NULL without an address, AS_PRIVATE for 0.0.0.0, 10.0.0.0/8, 172.16.0.0/12,
    192.168.0.0/16 (a comment in the code says /24) and the IPv6 unspecified address, the AS
    number of the cache for an address in a network it answered for, and, if the path was
    probed, AS_UNKNOWN for one it did not.  Nothing else of the paths changes, 0 is returned, and the descriptor is closed. *)
Theorem as_numbers_set donelist results w :
  let fd := next_fd w in
  let trie := add_all (requests donelist) iptrie_empty in
  world_ok w -> k_socket fd AF_UNIX = true -> connected fd = true -> sockname fd = Some AF_UNIX ->
  Forall item_ok donelist -> requests donelist <> [] ->
  root_ok results -> Forall asn_entry (all_leaves results) ->
  Forall (fun e => -9223372036854775808 <= e_as e < 9223372036854775808) (all_leaves results) ->
  (2 * length (all_leaves trie) < sends)%nat ->
  (forall sent,
     (forall q t, aligned q sent ->
        fill_request_trie q t = Ok (0, add_all ((fun e => request (e_addr e)) <$> all_leaves trie) t)) ->
     aligned (answer sent) (concat (entry_sends <$> all_leaves results))) ->
  (exists w', set_as_numbers connected whois sockname sends answer donelist w
     = Ok ((0, with_as (expected_as donelist results) <$> donelist), w') /\ fds w' = fds w) /\
  forall item h a, item ∈ donelist -> probed item = true -> h ∈ path_hops item -> hop_addr h = Some a ->
    private_range a = false ->
    expected_as donelist results h =
      if existsb (fun e => covers e a) (all_leaves results) then iptrie_lookup_as results a else AS_UNKNOWN.
Proof.
  intros fd trie [Hfd Hnew] Hsock Hcon Hname Hl Hne Hr Has Hrange Hs Hans. split.
  - pose proof (requests_ok donelist Hl) as Hq. destruct (asn_compatible (requests donelist)) as [Hes Hc].
    { eapply Forall_impl; [exact Hq|]. by intros ? []. }
    destruct (queries_sent fd trie sends (Z.lt_le_incl _ _ Hfd) (add_all_ok _ Hes Hc) Hs) as (c1 & c2 & E1 & E2 & Hfill).
    unfold set_as_numbers, amp_resolver_connect, socket_call, open_fd, lift, mbind, sys_bind, mret, sys_ret.
    rewrite build_trie_spec by done. fold trie.
    pose proof (requests_nonempty donelist Hl Hne) as Hem. fold trie in Hem. rewrite Hem. fold fd.
    change (k_socket fd Boot.AF_UNIX) with (k_socket fd AF_UNIX). rewrite Hsock, (proj2 (Z.ltb_ge fd 0)), Hcon by lia. cbn [negb]. rewrite (proj2 (Z.ltb_ge fd 0)), Hname, E1 by lia.
    cbn [Z.ltb Z.compare]. rewrite E2. cbn [Z.ltb Z.compare]. unfold amp_asn_fetch_results.
    change (AF_UNIX =? AF_UNIX) with true. cbn iota.
    rewrite (fetch_results_local_spec _ (all_leaves results)); [|rewrite Forall_forall in Hrange |- *|by apply Hans].
    2:{ intros e He. split; [|by apply Hrange]. pose proof (all_leaves_wf _ Hr) as Hw. rewrite Forall_forall in Hw. by apply Hw. }
    rewrite match_all_spec by done. rewrite ?(proj2 (Z.ltb_ge fd 0)) by lia.
    rewrite (list_fmap_ext _ (with_as (expected_as donelist results)) donelist).
    2:{ intros i item Hi. apply list_elem_of_lookup_2 in Hi. apply with_as_ext. intros h Hh.
        apply lookup_expected; [done..|]. intros a Ha. rewrite Forall_forall in Hl.
        apply elem_of_take in Hh as (j & Hh & _). apply list_elem_of_lookup_2 in Hh. by eapply Hl. }
    eexists. split; [reflexivity|].
    cbn [fds]. rewrite filter_cons_False by naive_solver. by apply filter_fresh.
  - intros item h a Hi Hp Hh Ha Hpr. unfold expected_as. rewrite Ha, Hpr. destruct (existsb _ (all_leaves _)); [done|].
    rewrite Forall_forall in Hl. by rewrite (asked_known donelist item h a) by auto.
Qed.
End Correct.

(** ** A path through a private network *)

Definition hop_at (a : option sockaddr) : hop_info_t :=
  {| time_sent := {| tv_sec := 0; tv_usec := 0 |}; as_ := 0; delay := 1000; Traceroute.reply := REPLY_OK; hop_addr := a |}.
Definition path_to (hops : list (option sockaddr)) : dest_info_t := {|
  addr := {| ai_family := AF_INET; ai_addr := Some (ip4 192 0 2 7) |}; id := 0; probes := 5; first_response := 3; ttl := 5;
  first_ttl := 3; path_length := Z.of_nat (length hops); done_forward := true; attempts := 0; no_reply_count := 0;
  err_type := 0; err_code := 0; hop := (hop_at <$> hops) ++ replicate (30 - length hops) (hop_at None) |}.
Lemma path_ok hops :
  Forall (fun o => match o with Some a => addr_wf a /\ sa_family a = AF_INET | None => True end) hops ->
  (length hops <= 30)%nat -> item_ok (path_to hops).
Proof.
  intros Hh Hl. split; [cbn; rewrite length_app, length_fmap, length_replicate; lia|].
  intros h a [Hin|Hin]%elem_of_app Ha.
  - apply list_elem_of_fmap in Hin as (o & -> & Ho). cbn in Ha. subst o. rewrite Forall_forall in Hh. by apply (Hh _ Ho).
  - by apply elem_of_replicate in Hin as [-> _].
Qed.
(** A private first hop, one that does not answer, two in one /24, and one the cache does not know. *)
Definition example_paths : list dest_info_t :=
  [path_to [Some (ip4 192 168 1 1); None; Some (ip4 216 90 108 1); Some (ip4 216 90 108 9); Some (ip4 198 51 100 3)];
   path_to [Some (ip4 172 31 255 1); Some (ip4 192 0 2 7)]].
Definition cache_results : iptrie := add_all two_answers iptrie_empty.
Definition one_socket : Kernel := {|
  k_socket := fun _ _ => true; k_setsockopt := fun _ => SetDone; k_getsockopt := fun _ => None;
  k_bind_device := fun _ => true; k_bind := fun _ _ _ => None; k_listen := fun _ => None; k_accept := fun _ => true;
  k_connect := fun _ _ => true; k_getsockname := fun _ => SockIn 0; k_v6only := fun _ => true |}.
Definition no_whois : whois_env := {|
  w_getaddrinfo := false; w_socket := -1; w_sndtimeo := false; w_connect := None; w_getfl := false; w_setfl := false;
  w_sends := 0 |}.
Definition cache_answer (sent : list (list Z)) : list (list Z) := concat (entry_sends <$> all_leaves cache_results).
Definition as_world : world := {| fds := [0; 1; 2]; next_fd := 3; trace := [] |}.
Definition looked_up (l : list dest_info_t) : sys (Z * list dest_info_t) :=
  @set_as_numbers one_socket coded (fun _ => true) no_whois (fun _ => Some AF_UNIX) 100 cache_answer l.

Lemma as_numbers_set_witness :
  (exists w', looked_up example_paths as_world
     = Ok ((0, with_as (expected_as example_paths cache_results) <$> example_paths), w') /\ fds w' = [0; 1; 2]) /\
  map (fun item => map (expected_as example_paths cache_results) (path_hops item)) example_paths
  = [[-2; -1; 23028; 23028; 0]; [-2; 64496]].
Proof.
  split; [|vm_compute; reflexivity].
  refine (proj1 (@as_numbers_set one_socket coded (fun _ => true) no_whois (fun _ => Some AF_UNIX) 100 cache_answer
    example_paths cache_results as_world _ eq_refl eq_refl eq_refl _ _ _ _ _ _ _)).
  - split; [cbn; lia|]. repeat constructor.
  - apply Forall_cons. split; [|apply Forall_cons; split; [|apply Forall_nil; exact I]];
      (apply path_ok; [repeat constructor; cbn; lia|cbn; lia]).
  - vm_compute. discriminate.
  - apply add_all_ok; apply asn_compatible; repeat constructor; cbn; lia.
  - repeat constructor; cbn; lia.
  - repeat constructor; cbn; lia.
  - apply Nat.ltb_lt. vm_compute. reflexivity.
  - intros sent _. exists ((fun s => [s]) <$> cache_answer sent). split; [reflexivity|]. split; [reflexivity|].
    split; repeat constructor; discriminate.
Defined.

(** When no hop has a public address the function returns before the last loop, and hops
    without an address or with a private one keep AS_UNKNOWN. *)
Example private_path_unset :
  match looked_up [path_to [Some (ip4 192 168 1 1); None; Some (ip4 10 0 0 1)]] as_world with
  | Ok ((r, l), _) => (r, map (fun item => map as_ (path_hops item)) l) = (0, [[0; 0; 0]])
  | Fault _ => False
  end.
Proof. vm_compute. reflexivity. Qed.
