(* ===== verification/Throughput.v ===== *)
(** The throughput test (src/tests/throughput): its schedule, the streams of test
    data and the results (throughput_common.c and parts of throughput_client.c).

    A socket call is an event of the lists the loops consume: what select() says and
    what each write() takes ([round]), what each read() brings ([arrival]), with the
    clock that is read after it.  The buffer of test data is a list of bytes; writing
    outside it is a fault. *)
From S2P Require Import Prelude CLib Print Address Testlib Bytes Asn.
#[local] Open Scope Z_scope.

(** ** Data (throughput.h, throughput.proto) *)

Inductive direction_t : Set := DIRECTION_NULL | SERVER_TO_CLIENT | CLIENT_TO_SERVER.
Inductive protocol_t : Set := PROTOCOL_NONE | HTTP_POST.
#[export] Instance direction_eq_dec : EqDecision direction_t.
Proof. solve_decision. Defined.
#[export] Instance protocol_eq_dec : EqDecision protocol_t.
Proof. solve_decision. Defined.

Record tcpinfo_result : Set := {
  delivery_rate : Z; total_retrans : Z; rtt : Z; rttvar : Z; min_rtt : Z; busy_time : Z; rwnd_limited : Z;
  sndbuf_limited : Z
}.
Record test_result_t : Set := { r_bytes : Z; start_ns : Z; end_ns : Z; tcpinfo : option tcpinfo_result }.
Record test_request_t : Set := {
  direction : direction_t; protocol : protocol_t; bytes : Z; duration : Z; write_size : Z; randomise : bool;
  result : option test_result_t
}.
(** struct opt_t; the schedule is the list of its requests. *)
Record opt_t : Set := {
  o_protocol : protocol_t; cport : Z; tport : Z; o_write_size : Z; sock_mss : Z; sock_disable_nagle : bool;
  o_randomise : bool; disable_web10g : bool; reuse_addr : bool; sock_rcvbuf : Z; sock_sndbuf : Z; o_dscp : Z;
  textual_schedule : option cstr; schedule : list test_request_t
}.
Definition with_schedule (o : opt_t) (text : option cstr) (l : list test_request_t) : opt_t := {|
  o_protocol := o_protocol o; cport := cport o; tport := tport o; o_write_size := o_write_size o;
  sock_mss := sock_mss o; sock_disable_nagle := sock_disable_nagle o; o_randomise := o_randomise o;
  disable_web10g := disable_web10g o; reuse_addr := reuse_addr o; sock_rcvbuf := sock_rcvbuf o;
  sock_sndbuf := sock_sndbuf o; o_dscp := o_dscp o; textual_schedule := text; schedule := l |}.

(** ** The schedule *)

Definition atol (s : cstr) : Z := fst (fst (strtol s 10)).

(** One item of the schedule string; strtok() gives no empty ones. *)
Definition parse_item (o : opt_t) (pch : cstr) : test_request_t :=
  let arg := match pch with _ :: ((_ :: _) as s) => atol s | _ => 0 end in
  let item d b t :=
    {| direction := d; protocol := o_protocol o; bytes := b; duration := t; write_size := o_write_size o;
       randomise := o_randomise o; result := None |} in
  let current :=
    match pch with
    | "s"%char :: _ => item SERVER_TO_CLIENT (u64 arg) 0
    | "S"%char :: _ => item CLIENT_TO_SERVER (u64 arg) 0
    | "t"%char :: _ => item SERVER_TO_CLIENT 0 (u32 arg)
    | "T"%char :: _ => item CLIENT_TO_SERVER 0 (u32 arg)
    | _ => item DIRECTION_NULL 0 0
    end in
  if negb (bool_decide (direction current = DIRECTION_NULL)) && (bytes current =? 0) && (duration current =? 0)
  then item DIRECTION_NULL (bytes current) (duration current) else current.

Definition parseSchedule (options : opt_t) (request : cstr) : opt_t :=
  let text :=
    match textual_schedule options with
    | Some t => t ++ str "," ++ request
    | None => request
    end in
  with_schedule options (Some text)
    (schedule options ++ (parse_item options <$> strtok_all (str ",") request)).

Definition DEFAULT_TEST_DURATION : Z := 10.
(** The schedule made from the direction and duration options; the product is an int. *)
Definition make_schedule (direction_opt duration_opt : Z) : res cstr :=
  let d := (if duration_opt <? 0 then DEFAULT_TEST_DURATION else duration_opt) * 1000 in
  if d >? 2147483647 then Fault BadConversion
  else
    let part c := c ++ print_dec d in
    Ok (if direction_opt =? 0 then part (str "T")
        else if direction_opt =? 1 then part (str "t")
        else if direction_opt =? 2 then part (str "T") ++ str "," ++ part (str "t")
        else if direction_opt =? 3 then part (str "t") ++ str "," ++ part (str "T")
        else part (str "T")).

Definition freeSchedule (options : opt_t) : opt_t := with_schedule options (textual_schedule options) [].

(** *** Printing a schedule *)

(** An item as it is written in a schedule: who sends, and how many bytes or for how long. *)
Inductive limit : Set := Bytes (n : Z) | Milliseconds (n : Z).
Record wanted : Set := { from_client : bool; until : limit }.
Definition wanted_ok (w : wanted) : Prop :=
  match until w with Bytes n => 0 < n <= LONG_MAX | Milliseconds n => 0 < n < 4294967296 end.
Definition print_item (w : wanted) : cstr :=
  match until w with
  | Bytes n => (if from_client w then "S"%char else "s"%char) :: print_dec n
  | Milliseconds n => (if from_client w then "T"%char else "t"%char) :: print_dec n
  end.
Definition request_of (o : opt_t) (w : wanted) : test_request_t := {|
  direction := if from_client w then CLIENT_TO_SERVER else SERVER_TO_CLIENT; protocol := o_protocol o;
  bytes := match until w with Bytes n => n | Milliseconds _ => 0 end;
  duration := match until w with Bytes _ => 0 | Milliseconds n => n end;
  write_size := o_write_size o; randomise := o_randomise o; result := None |}.
Fixpoint print_schedule (l : list wanted) : cstr :=
  match l with
  | [] => []
  | [w] => print_item w
  | w :: l => print_item w ++ "," %char :: print_schedule l
  end.

Lemma print_dec_chars n : 0 <= n -> Forall (fun c => exists d, 0 <= d < 10 /\ c = digit_char d) (print_dec n).
Proof.
  intros Hn. unfold print_dec. rewrite (proj2 (Z.ltb_ge n 0)) by lia. apply print_base_chars. lia.
Qed.
Lemma print_item_word w : wanted_ok w -> Forall (fun c => c ∉ str ",") (print_item w).
Proof.
  intros Hw. assert (Hd : Forall (fun d => digit_char d <> ","%char) (seqZ 0 10)) by (repeat constructor; discriminate).
  rewrite Forall_forall in Hd.
  assert (Hp : forall n, 0 <= n -> Forall (fun c => c ∉ str ",") (print_dec n)).
  { intros n Hn. eapply Forall_impl; [by apply print_dec_chars|]. intros c (d & Hd10 & ->) Hin.
    apply list_elem_of_singleton in Hin. revert Hin. apply Hd, elem_of_seqZ. lia. }
  unfold print_item, wanted_ok in *. destruct (until w); (constructor; [|apply Hp; lia]);
    destruct (from_client w); intros Hin%list_elem_of_singleton; discriminate Hin.
Qed.
Lemma parse_print_item o w : wanted_ok w -> parse_item o (print_item w) = request_of o w.
Proof.
  intros Hw. assert (Hs : forall n, 0 <= n <= LONG_MAX ->
    match print_dec n with [] => 0 | _ :: _ => atol (print_dec n) end = n).
  { intros n Hn. assert (Hne : print_dec n <> []).
    { unfold print_dec. destruct (n <? 0); [done|]. apply print_base_nonempty. }
    destruct (print_dec n) eqn:E; [done|]. rewrite <- E. unfold atol. by rewrite strtol_print_dec. }
  unfold parse_item, print_item, request_of, wanted_ok in *. destruct (until w) as [n|n], (from_client w); cbv zeta;
    rewrite Hs by (unfold LONG_MAX in *; lia); cbn [direction bytes duration];
    unfold u64, u32; rewrite Z.mod_small by (unfold LONG_MAX in *; lia);
    rewrite (proj2 (Z.eqb_neq n 0)) by lia; by rewrite ?andb_false_r.
Qed.
Lemma print_schedule_tokens l :
  Forall wanted_ok l -> strtok_all (str ",") (print_schedule l) = print_item <$> l.
Proof.
  intros Hl. induction Hl as [|w l Hw Hl IH]; [done|].
  assert (Hne : print_item w <> []) by (unfold print_item; by destruct (until w)).
  destruct l as [|w' l]; [by rewrite strtok_word by (done || by apply print_item_word)|].
  change (print_schedule (w :: w' :: l)) with (print_item w ++ ","%char :: print_schedule (w' :: l)).
  rewrite strtok_cons, IH; [done|done|by apply print_item_word|by left].
Qed.

(** Schedules of the throughput test.  A schedule string that lists any tests
    (s or S with a number of bytes, t or T with a number of milliseconds) is parsed into
    exactly these tests, in this order and with the options given so far, after the ones
    that were there; the text that is kept for the report is the whole schedule: parsed
    by itself it gives the tests of all the schedule options together. *)
Theorem schedule_roundtrip o l l' :
  Forall wanted_ok l -> Forall wanted_ok l' -> l <> [] ->
  let o' := parseSchedule o (print_schedule l) in
  schedule o' = schedule o ++ (request_of o <$> l) /\
  (textual_schedule o = Some (print_schedule l') -> l' <> [] ->
   exists text, textual_schedule o' = Some text /\
     schedule (parseSchedule (with_schedule o None []) text) = (request_of o <$> l') ++ (request_of o <$> l)).
Proof.
  intros Hl Hl' Hne. cbn zeta.
  assert (Hp : forall k, Forall wanted_ok k -> parse_item o <$> (print_item <$> k) = request_of o <$> k).
  { intros k Hk. rewrite <- list_fmap_compose. apply Forall_fmap_ext_1. eapply Forall_impl; [exact Hk|]. apply parse_print_item. }
  split; [cbn; by rewrite print_schedule_tokens, Hp|]. intros Ht Hne'. eexists. split; [cbn; by rewrite Ht|].
  assert (Happ : forall k, k <> [] -> print_schedule (k ++ l) = print_schedule k ++ str "," ++ print_schedule l).
  { induction k as [|w k IH]; [done|]. intros _. destruct k as [|w' k].
    - cbn. by destruct l.
    - change (print_schedule ((w :: w' :: k) ++ l)) with (print_item w ++ ","%char :: print_schedule ((w' :: k) ++ l)).
      change (print_schedule (w :: w' :: k)) with (print_item w ++ ","%char :: print_schedule (w' :: k)).
      rewrite IH by done. by rewrite <- app_assoc. }
  rewrite <- Happ by done. cbn.
  rewrite print_schedule_tokens by (by apply Forall_app).
  assert (Hq : forall k, Forall wanted_ok k -> parse_item (with_schedule o None []) <$> (print_item <$> k) = request_of o <$> k).
  { intros k Hk. rewrite <- Hp by done. done. }
  rewrite Hq by (by apply Forall_app). by rewrite fmap_app.
Qed.

Definition plain_options : opt_t := {|
  o_protocol := PROTOCOL_NONE; cport := 8815; tport := 8826; o_write_size := 4; sock_mss := 0; sock_disable_nagle := false;
  o_randomise := false; disable_web10g := false; reuse_addr := false; sock_rcvbuf := 0; sock_sndbuf := 0; o_dscp := 0;
  textual_schedule := Some (str "s10"); schedule := [] |}.
Lemma schedule_roundtrip_witness :
  let l := [{| from_client := true; until := Milliseconds 10000 |}; {| from_client := false; until := Bytes 1048576 |}] in
  let l' := [{| from_client := false; until := Bytes 10 |}] in
  print_schedule l = str "T10000,s1048576" /\
  schedule (parseSchedule plain_options (print_schedule l)) = request_of plain_options <$> l /\
  exists text, textual_schedule (parseSchedule plain_options (print_schedule l)) = Some text /\
    schedule (parseSchedule (with_schedule plain_options None []) text)
    = (request_of plain_options <$> l') ++ (request_of plain_options <$> l).
Proof.
  intros l l'. split; [reflexivity|].
  destruct (schedule_roundtrip plain_options l l') as [H1 H2];
    [repeat constructor; unfold LONG_MAX; lia|repeat constructor; unfold LONG_MAX; lia|discriminate|].
  split; [exact H1|]. apply H2; [reflexivity|discriminate].
Defined.

(** The schedule made from the options is parsed into the tests it stands for. *)
Example made_schedules :
  (match make_schedule 2 (-1) with
   | Ok text => (fun i => (direction i, duration i)) <$> schedule (parseSchedule (with_schedule plain_options None []) text)
   | Fault _ => []
   end) = [(CLIENT_TO_SERVER, 10000); (SERVER_TO_CLIENT, 10000)] /\
  make_schedule 0 2147484 = Fault BadConversion.
Proof. split; reflexivity. Qed.
(** An item without a number, or with a code that is not known, takes no part in the test. *)
Example bad_items :
  direction <$> (parse_item plain_options <$> strtok_all (str ",") (str "t,,n5,T0,s-1"))
  = [DIRECTION_NULL; DIRECTION_NULL; DIRECTION_NULL; SERVER_TO_CLIENT].
Proof. reflexivity. Qed.

(** ** The test data *)

(** Bytes stored at [off] in a buffer. *)
Definition put (buf : list Z) (off : Z) (bs : list Z) : res (list Z) :=
  if (0 <=? off) && (off + Z.of_nat (length bs) <=? Z.of_nat (length buf))
  then Ok (take (Z.to_nat off) buf ++ bs ++ drop (Z.to_nat off + length bs) buf)
  else Fault OutOfBounds.
(** sprintf() ends the text with a NUL. *)
Definition sprintf (buf : list Z) (off : Z) (text : cstr) : res (list Z) := put buf off ((ch <$> text) ++ [0]).
Definition CRLF : cstr := [ascii_of_nat 13; ascii_of_nat 10].

(** [random] is what /dev/urandom gives; nothing when it cannot be opened. *)
Definition randomMemset (buf : list Z) (off size : Z) (random : list Z) : res (list Z) :=
  put buf off (take (Z.to_nat size) random).

Definition chunk_size (size : Z) : Z :=
  if size <? 0x10 + 3 + 2 then size - 3 - 2
  else if size <? 0x100 + 4 + 2 then size - 4 - 2
  else if size <? 0x10000 + 5 + 2 then size - 5 - 2
  else if size <? 0x100000 + 6 + 2 then size - 6 - 2
  else if size <? 0x1000000 + 7 + 2 then size - 7 - 2
  else if size <? 0x10000000 + 8 + 2 then size - 8 - 2
  else size - 9 - 2.
Definition addHttpChunkHeader (buf : list Z) (off size : Z) (randomise : bool) (random : list Z) : res (list Z) :=
  buf ← (if randomise then randomMemset buf off size random else Ok buf);
  if size <? 5 then Ok buf
  else
    buf ← sprintf buf off (print_hex (chunk_size size) ++ CRLF);
    buf ← put buf (off + size - 2) [13];
    put buf (off + size - 1) [10].

Definition headers : cstr :=
  str "POST / HTTP/1.1" ++ CRLF ++ str "Host: 127.0.0.1" ++ CRLF
  ++ str "User-Agent: AMP throughput test agent" ++ CRLF ++ str "Accept: */*" ++ CRLF
  ++ str "Transfer-Encoding: chunked" ++ CRLF
  ++ str "Content-Type: application/x-www-form-urlencoded" ++ CRLF ++ CRLF.
Definition strlen_headers : Z := Z.of_nat (length headers).
Definition addHttpHeaders (buf : list Z) (size : Z) (random : list Z) : res (list Z) :=
  if size <? strlen_headers then Ok buf
  else
    buf ← sprintf buf 0 headers;
    if size - strlen_headers >? 0
    then addHttpChunkHeader buf strlen_headers (size - strlen_headers) true random else Ok buf.

(** *** Chunks, as a receiver reads them (RFC 7230, section 4.1) *)

Definition is_crlf (l : list Z) : option (list Z) :=
  match l with 13 :: 10 :: rest => Some rest | _ => None end.
(** A chunk at the start of the data, and what follows it. *)
Definition read_chunk (l : list Z) : option (list Z * list Z) :=
  let text := char_of <$> l in
  if has_digit 16 text then
    let '(n, rest) := digits 16 0 text in
    match is_crlf (drop (length l - length rest) l) with
    | Some body =>
        if Z.of_nat (length body) <? n then None
        else match is_crlf (drop (Z.to_nat n) body) with
             | Some rest => Some (take (Z.to_nat n) body, rest)
             | None => None
             end
    | None => None
    end
  else None.

Lemma put_ok buf off bs :
  0 <= off -> off + Z.of_nat (length bs) <= Z.of_nat (length buf) ->
  put buf off bs = Ok (take (Z.to_nat off) buf ++ bs ++ drop (Z.to_nat off + length bs) buf).
Proof. intros Ho Hl. unfold put. rewrite (proj2 (Z.leb_le 0 off)), (proj2 (Z.leb_le _ _)) by lia. done. Qed.

Lemma ascii_char_of c : char_of (ch c) = c.
Proof. unfold char_of, ch. by rewrite N2Z.id, ascii_N_embedding. Qed.
Lemma text_char_of (s : cstr) : char_of <$> (ch <$> s) = s.
Proof. rewrite <- list_fmap_compose. rewrite <- (list_fmap_id s) at 2. apply list_fmap_ext. intros i c _. apply ascii_char_of. Qed.

(** A chunk that is laid out as it should be is read back. *)
Lemma read_chunk_ok (data rest : list Z) :
  read_chunk ((ch <$> print_hex (Z.of_nat (length data)) ++ CRLF) ++ data ++ [13; 10] ++ rest) = Some (data, rest).
Proof.
  set (n := Z.of_nat (length data)). set (tl := data ++ [13; 10] ++ rest).
  unfold read_chunk. rewrite fmap_app, text_char_of, <- app_assoc. unfold print_hex.
  rewrite (digits_print_base 16) by (done || lia).
  assert (Hd : has_digit 16 (print_base 16 n ++ CRLF ++ (char_of <$> tl)) = true).
  { pose proof (print_base_chars 16 ltac:(lia) n) as Hc. pose proof (print_base_nonempty 16 n) as Hne.
    destruct (print_base 16 n) as [|c s]; [done|]. rewrite Forall_cons in Hc. destruct Hc as [(d & Hd & ->) _].
    cbn. rewrite digit_val_char by lia. apply Z.ltb_lt. lia. }
  rewrite Hd. rewrite fmap_app, <- app_assoc.
  replace (length ((ch <$> print_base 16 n) ++ (ch <$> CRLF) ++ tl) - length (CRLF ++ (char_of <$> tl)))%nat
    with (length (ch <$> print_base 16 n)) by (rewrite !length_app, !length_fmap; lia).
  rewrite drop_app_length. cbn [is_crlf fmap list_fmap app CRLF].
  change (ch (ascii_of_nat 13)) with 13. change (ch (ascii_of_nat 10)) with 10. cbn [is_crlf].
  unfold tl. rewrite length_app. rewrite (proj2 (Z.ltb_ge _ _)) by lia. unfold n. rewrite Nat2Z.id.
  rewrite drop_app_length, take_app_length. done.
Qed.

Lemma put_split (A x B bs : list Z) off :
  off = Z.of_nat (length A) -> length bs = length x -> put (A ++ x ++ B) off bs = Ok (A ++ bs ++ B).
Proof.
  intros -> Hb. rewrite put_ok by (rewrite ?length_app; lia). rewrite Nat2Z.id, take_app_length, Hb.
  rewrite <- drop_drop, drop_app_length, drop_app_length. done.
Qed.

(** The bytes of a chunk of [size] bytes when the header takes [h] of them. *)
Lemma chunk_layout A B C off size text :
  off = Z.of_nat (length A) -> size = Z.of_nat (length B) -> Z.of_nat (length text) + 2 <= size ->
  exists data, Z.of_nat (length data) = size - Z.of_nat (length text) - 2 /\
    (buf ← sprintf (A ++ B ++ C) off text; buf ← put buf (off + size - 2) [13]; put buf (off + size - 1) [10])
    = Ok (A ++ ((ch <$> text) ++ data ++ [13; 10]) ++ C).
Proof.
  intros -> -> Hl. assert (Hb : (length text + 2 <= length B)%nat) by lia.
  set (first := take (S (length text)) B). set (B1 := drop (S (length text)) B).
  assert (HB : A ++ B ++ C = A ++ first ++ B1 ++ C) by (unfold first, B1; by rewrite (app_assoc (take _ _)), take_drop).
  assert (Hf : length first = S (length text)) by (unfold first; rewrite length_take; lia).
  assert (H1 : length B1 = (length B - S (length text))%nat) by (unfold B1; by rewrite length_drop).
  unfold sprintf. rewrite HB.
  rewrite put_split by (rewrite ?length_app, ?length_fmap, ?Hf; cbn; lia). rewrite bind_Ok.
  set (X := 0 :: B1). assert (HX : (length X = length B - length text)%nat) by (cbn; lia).
  destruct (drop (length X - 2) X) as [|x [|y [|]]] eqn:Etl;
    try (apply (f_equal length) in Etl; rewrite length_drop in Etl; cbn [length] in Etl; lia).
  exists (take (length X - 2) X). rewrite length_take. split; [lia|].
  replace (A ++ ((ch <$> text) ++ [0]) ++ B1 ++ C) with ((A ++ (ch <$> text) ++ take (length X - 2) X) ++ [x] ++ y :: C).
  2:{ rewrite <- !app_assoc. do 2 f_equal. change ([0] ++ B1 ++ C) with (X ++ C).
      pose proof (take_drop (length X - 2) X) as HX2. rewrite Etl in HX2. rewrite <- HX2 at 3. by rewrite <- app_assoc. }
  rewrite put_split by (rewrite ?length_app, ?length_fmap, ?length_take; cbn [length]; lia). rewrite bind_Ok.
  change ([13] ++ y :: C) with ([13] ++ [y] ++ C). rewrite app_assoc.
  rewrite put_split by (rewrite ?length_app, ?length_fmap, ?length_take; cbn [length]; lia).
  by rewrite <- !app_assoc.
Qed.

(** The sizes for which the digits of the chunk size take the room they were given. *)
Definition framed_size (size : Z) : Prop := 5 <= size <= 0x1006 /\ size <> 0x15 /\ size <> 0x106.
Lemma framed_digits size :
  framed_size size ->
  0 <= chunk_size size /\ Z.of_nat (length (print_hex (chunk_size size) ++ CRLF)) + 2 + chunk_size size = size.
Proof.
  intros (Hs & H1 & H2). rewrite length_app. unfold chunk_size, print_hex.
  destruct (Z.ltb_spec size (0x10 + 3 + 2)) as [H3|H3].
  - split; [lia|]. destruct (Z.eqb_spec size 5) as [->|]; [done|].
    rewrite (length_print_base 16 ltac:(lia) 0) by lia. cbn. lia.
  - destruct (Z.ltb_spec size (0x100 + 4 + 2)).
    + rewrite (length_print_base 16 ltac:(lia) 1) by lia. cbn. lia.
    + rewrite (proj2 (Z.ltb_lt size (0x10000 + 5 + 2))) by lia.
      rewrite (length_print_base 16 ltac:(lia) 2) by lia. cbn. lia.
Qed.

Lemma random_keeps A B C off size random :
  off = Z.of_nat (length A) -> size = Z.of_nat (length B) ->
  exists B', length B' = length B /\ randomMemset (A ++ B ++ C) off size random = Ok (A ++ B' ++ C).
Proof.
  intros -> ->. unfold randomMemset. rewrite Nat2Z.id. set (r := take (length B) random).
  assert (Hr : (length r <= length B)%nat) by (unfold r; rewrite length_take; lia).
  exists (r ++ drop (length r) B). split; [rewrite length_app, length_drop; lia|].
  rewrite <- (take_drop (length r) B) at 1. rewrite <- (app_assoc (take _ _)).
  rewrite put_split by (done || rewrite length_take; lia). by rewrite <- app_assoc.
Qed.

(** The header of a chunk of any size; the text may be longer or shorter than the room. *)
Lemma chunk_header A B C off size rnd random :
  off = Z.of_nat (length A) -> size = Z.of_nat (length B) -> 5 <= size ->
  let text := print_hex (chunk_size size) ++ CRLF in
  Z.of_nat (length text) + 2 <= size ->
  exists data, Z.of_nat (length data) = size - Z.of_nat (length text) - 2 /\
    addHttpChunkHeader (A ++ B ++ C) off size rnd random = Ok (A ++ ((ch <$> text) ++ data ++ [13; 10]) ++ C).
Proof.
  intros Ho Hs H5 text Ht. unfold addHttpChunkHeader. rewrite (proj2 (Z.ltb_ge size 5)) by lia.
  destruct rnd; [|rewrite bind_Ok; by apply chunk_layout].
  destruct (random_keeps A B C off size random Ho Hs) as (B' & HB' & ->). rewrite bind_Ok.
  apply chunk_layout; [done|congruence|done].
Qed.


(** A chunk-size line that announces one byte more than there is: the first byte of the
    closing CRLF is taken for data, and the chunk is not closed. *)
Lemma read_chunk_over (data rest : list Z) v :
  v = Z.of_nat (length data) + 1 ->
  read_chunk ((ch <$> print_hex v ++ CRLF) ++ data ++ [13; 10] ++ rest) = None.
Proof.
  intros Hv. assert (Hd : data ++ [13; 10] ++ rest = (data ++ [13]) ++ [10] ++ rest) by (by rewrite <- app_assoc).
  rewrite Hd. unfold read_chunk. rewrite fmap_app, text_char_of, <- app_assoc. unfold print_hex.
  rewrite (digits_print_base 16) by (done || lia). destruct (has_digit _ _); [|done].
  rewrite fmap_app, <- app_assoc. set (tl := (data ++ [13]) ++ [10] ++ rest).
  replace (length ((ch <$> print_base 16 v) ++ (ch <$> CRLF) ++ tl) - length (CRLF ++ (char_of <$> tl)))%nat
    with (length (ch <$> print_base 16 v)) by (rewrite !length_app, !length_fmap; lia).
  rewrite drop_app_length. cbn [is_crlf fmap list_fmap app CRLF].
  change (ch (ascii_of_nat 13)) with 13. change (ch (ascii_of_nat 10)) with 10. cbn [is_crlf].
  destruct (_ <? v); [done|]. unfold tl. replace (Z.to_nat v) with (length (data ++ [13])) by (rewrite length_app; cbn; lia).
  by rewrite drop_app_length.
Qed.

(** The sizes that have one digit more than the code reckons with. *)
Definition overrun_size (size : Z) : Prop :=
  0x1007 <= size < 0x10000 + 7 \/ 0x10008 <= size < 0x100000 + 8 \/ 0x100009 <= size < 0x1000000 + 9 \/
  0x100000a <= size < 0x10000000 + 10.
Lemma overrun_digits size :
  overrun_size size ->
  Z.of_nat (length (print_hex (chunk_size size) ++ CRLF)) + 2 + chunk_size size = size + 1.
Proof.
  intros Hs. rewrite length_app. unfold chunk_size, print_hex. unfold overrun_size in Hs.
  rewrite (proj2 (Z.ltb_ge size (0x10 + 3 + 2))), (proj2 (Z.ltb_ge size (0x100 + 4 + 2))) by lia.
  destruct (Z.ltb_spec size (0x10000 + 5 + 2)); [rewrite (length_print_base 16 ltac:(lia) 3) by lia; cbn; lia|].
  destruct (Z.ltb_spec size (0x100000 + 6 + 2)); [rewrite (length_print_base 16 ltac:(lia) 4) by lia; cbn; lia|].
  destruct (Z.ltb_spec size (0x1000000 + 7 + 2)); [rewrite (length_print_base 16 ltac:(lia) 5) by lia; cbn; lia|].
  rewrite (proj2 (Z.ltb_lt size (0x10000000 + 8 + 2))) by lia.
  rewrite (length_print_base 16 ltac:(lia) 6) by lia. cbn. lia.
Qed.

(** For a write of more than 4102 bytes, the default of 128 KiB included, the chunk-size
    line has a digit more than the table of sizes allows for and announces one byte too
    many: no receiver can read the chunk. *)
Lemma chunk_overrun B size rnd random :
  size = Z.of_nat (length B) -> overrun_size size ->
  exists B', addHttpChunkHeader B 0 size rnd random = Ok B' /\ length B' = length B /\
    forall rest, read_chunk (B' ++ rest) = None.
Proof.
  intros Hs Ho. pose proof (overrun_digits size Ho) as Hd.
  assert (H5 : 0x1007 <= size) by (unfold overrun_size in Ho; lia).
  assert (Hv : size - 10 <= chunk_size size <= size - 6).
  { unfold overrun_size in Ho. unfold chunk_size. zbool; lia. }
  destruct (chunk_header [] B [] 0 size rnd random) as (data & Hl & E); [done|done|lia|lia|].
  cbn [app] in E. rewrite app_nil_r in E. rewrite E. eexists. split; [done|].
  rewrite app_nil_r. split; [rewrite !length_app, length_fmap; cbn [length]; lia|].
  intros rest. rewrite <- !app_assoc. apply read_chunk_over. lia.
Qed.
Example default_write_size_overrun : overrun_size (128 * 1024).
Proof. unfold overrun_size. lia. Qed.

(** ** Sending and receiving *)

(** What write() does: the bytes it takes, EINTR, or an error.  After the last event
    nothing more can be written. *)
Inductive write_t : Set := Wrote (n : Z) | WriteIntr | WriteError.
(** The loop of writeBuffer(): the bytes that went out, and whether that was all. *)
Fixpoint write_loop (env : list write_t) (rest sent : list Z) : list Z * bool :=
  match env with
  | [] | WriteError :: _ => (sent, bool_decide (rest = []))
  | WriteIntr :: env => write_loop env rest sent
  | Wrote n :: env =>
      let k := Z.to_nat (Z.min n (Z.of_nat (length rest))) in
      let sent := sent ++ take k rest in
      match drop k rest with
      | [] => (sent, true)
      | rest' => if (0 <? k)%nat then write_loop env rest' sent else (sent, false)
      end
  end.
(** The return value is an int, and the bytes that went out. *)
Definition writeBuffer (env : list write_t) (data : list Z) : Z * list Z :=
  let '(sent, all) := write_loop env data [] in
  if all then (i32 (Z.of_nat (length sent)), sent) else (-1, sent).

(** What select() says. *)
Inductive select_t : Set := SelTimeout | SelIntr | SelError | SelOther | SelWritable.
#[export] Instance select_t_eq_dec : EqDecision select_t.
Proof. solve_decision. Defined.
(** One round of the loop: the clock, select(), the random data at hand and the writes. *)
Record round : Set := { now : Z; sel : select_t; random : list Z; writes : list write_t }.
Record stream_t : Set := { s_bytes : Z; buffer : list Z; wire : list Z; waits : list timeval }.

Definition run_time_ms (start now : Z) : Z := u64 (now - start) / 1000000.

(** The remaining time of the test, as the timeout of select(). *)
Definition select_timeout (o : test_request_t) (run : Z) : timeval :=
  if duration o >? 0 then {| tv_sec := (duration o - run) / 1000; tv_usec := (duration o - run) mod 1000 * 1000 |}
  else {| tv_sec := 10; tv_usec := 0 |}.

(** The buffer is filled again before it is sent. *)
Definition fill_buffer (o : test_request_t) (first : bool) (buf : list Z) (size : Z) (random : list Z) : res (list Z) :=
  match protocol o with
  | HTTP_POST => if first then addHttpHeaders buf size random else addHttpChunkHeader buf 0 size (randomise o) random
  | PROTOCOL_NONE => if randomise o || first then randomMemset buf 0 size random else Ok buf
  end.

(** The loop of sendStream(); the flag [more] is cleared in the round that has the last
    bytes to send, and ends the loop after it.  When the rounds run out the loop is still
    waiting. *)
Fixpoint send_loop (o : test_request_t) (start : Z) (rounds : list round) (st : stream_t) : res stream_t :=
  match rounds with
  | [] => Fault OutOfFuel
  | r :: rounds =>
      let run := run_time_ms start (now r) in
      if (duration o >? 0) && (run >=? duration o) then Ok st
      else
        let more := negb ((bytes o >? 0) && (u64 (bytes o - s_bytes st) <? write_size o)) in
        let bytes_to_send := if more then write_size o else u32 (bytes o - s_bytes st) in
        let st := {| s_bytes := s_bytes st; buffer := buffer st; wire := wire st;
                     waits := waits st ++ [select_timeout o run] |} in
        match sel r with
        | SelTimeout | SelError => Ok st
        | SelIntr | SelOther => if more then send_loop o start rounds st else Ok st
        | SelWritable =>
            buf ← fill_buffer o (s_bytes st =? 0) (buffer st) bytes_to_send (random r);
            let '(bytes_sent, out) := writeBuffer (writes r) (take (Z.to_nat bytes_to_send) buf) in
            if bytes_sent <? 0 then
              Ok {| s_bytes := s_bytes st; buffer := buf; wire := wire st ++ out; waits := waits st |}
            else
              let st := {| s_bytes := u64 (s_bytes st + bytes_sent); buffer := buf; wire := wire st ++ out;
                           waits := waits st |} in
              if more then send_loop o start rounds st else Ok st
        end
  end.

(** The fields of struct amp_tcp_info that are used (src/common/tcpinfo.h). *)
Record amp_tcp_info : Set := {
  tcpi_delivery_rate_app_limited : bool; tcpi_rtt : Z; tcpi_rttvar : Z; tcpi_total_retrans : Z; tcpi_notsent_bytes : Z;
  tcpi_min_rtt : Z; tcpi_delivery_rate : Z; tcpi_busy_time : Z; tcpi_rwnd_limited : Z; tcpi_sndbuf_limited : Z
}.
(** What getsockopt() gives, with the length it sets, and whether the sleep after it was
    not interrupted; [None] is an error. *)
Record tcp_sample : Set := { info : amp_tcp_info; info_len : Z; slept : bool }.
Definition sizeof_tcp_info : Z := 192.
Fixpoint tcp_loop (attempts : nat) (env : list (option tcp_sample)) : option tcp_sample :=
  match env with
  | Some s :: env =>
      match attempts with
      | S (S _ as attempts) => if (tcpi_notsent_bytes (info s) >? 0) && slept s then tcp_loop attempts env else Some s
      | _ => Some s
      end
  | _ => None
  end.
Definition get_tcp_info (env : list (option tcp_sample)) : option tcpinfo_result :=
  match tcp_loop 10 env with
  | None => None
  | Some s =>
      if negb (info_len s =? sizeof_tcp_info) then None
      else
        let i := info s in
        Some {| delivery_rate := if tcpi_delivery_rate_app_limited i then tcpi_delivery_rate i else 0;
                total_retrans := tcpi_total_retrans i; rtt := tcpi_rtt i; rttvar := tcpi_rttvar i;
                min_rtt := tcpi_min_rtt i; busy_time := tcpi_busy_time i; rwnd_limited := tcpi_rwnd_limited i;
                sndbuf_limited := tcpi_sndbuf_limited i |}
  end.

(** sendStream(): [start] and [finish] are the clock, [tcp] what the socket tells about itself.
    The return value, the result and the bytes that went out. *)
Definition sendStream (calloc_ok : bool) (start finish : Z) (tcp : list (option tcp_sample)) (rounds : list round)
    (o : test_request_t) (res0 : test_result_t) : res (Z * test_result_t * list Z) :=
  if (bytes o =? 0) && (duration o =? 0) then Ok (-1, res0, [])
  else if negb calloc_ok then Ok (-1, res0, [])
  else
    st ← send_loop o start rounds
           {| s_bytes := r_bytes res0; buffer := replicate (Z.to_nat (write_size o)) 0; wire := []; waits := [] |};
    Ok (0, {| r_bytes := s_bytes st; start_ns := start; end_ns := finish; tcpinfo := get_tcp_info tcp |}, wire st).

(** What read() brings, of at most [DEFAULT_WRITE_SIZE] bytes, and the clock after it. *)
Definition DEFAULT_WRITE_SIZE : Z := 128 * 1024.
Inductive arrival : Set := Got (data : list Z) (at_ : Z) | ReadIntr | ReadError.
(** readBuffer(): the bytes of the next read() that is not interrupted; the end of the
    list is the end of the stream. *)
Fixpoint readBuffer (env : list arrival) : Z * Z * list arrival :=
  match env with
  | [] => (0, 0, [])
  | ReadIntr :: env => readBuffer env
  | ReadError :: env => (-1, 0, env)
  | Got d t :: env => (Z.of_nat (length d), t, env)
  end.
Fixpoint receive_loop (fuel : nat) (env : list arrival) (r : test_result_t) : res test_result_t :=
  match fuel with
  | O => Fault OutOfFuel
  | S fuel =>
      let '(n, t, env) := readBuffer env in
      if n >? 0 then
        receive_loop fuel env
          {| r_bytes := u64 (r_bytes r + n); start_ns := if r_bytes r =? 0 then t else start_ns r; end_ns := end_ns r;
             tcpinfo := tcpinfo r |}
      else Ok r
  end.
Definition result_init : test_result_t := {| r_bytes := 0; start_ns := 0; end_ns := 0; tcpinfo := None |}.
Definition incomingTest (finish : Z) (env : list arrival) : res test_result_t :=
  r ← receive_loop (S (length env)) env result_init;
  Ok (if r_bytes r >? 0
      then {| r_bytes := r_bytes r; start_ns := start_ns r; end_ns := finish; tcpinfo := tcpinfo r |} else r).

Definition timeNanoseconds (t : timeval) : Z :=
  u64 (u64 (u64 (tv_sec t) * 1000000000) + u64 (u64 (tv_usec t) * 1000)).

(** ** Results *)

(** Amplet2__Throughput__Item; an absent field is [None]. *)
Record item_t : Set := {
  i_direction : direction_t; i_duration : option Z; i_bytes : option Z; i_tcpinfo : option tcpinfo_result
}.
Definition report_schedule (info : test_request_t) : item_t :=
  match result info with
  | None => {| i_direction := direction info; i_duration := None; i_bytes := None; i_tcpinfo := None |}
  | Some r => {| i_direction := direction info; i_duration := Some (u64 (end_ns r - start_ns r));
                 i_bytes := Some (r_bytes r); i_tcpinfo := tcpinfo r |}
  end.
(** Amplet2__Throughput__Report; the destination's name and address are parameters. *)
Record report_t : Set := {
  h_schedule : option cstr; h_family : Z; h_write_size : Z; h_name : cstr; h_address : option (list Z); h_dscp : Z;
  h_protocol : protocol_t; timestamp : Z; items : list item_t
}.
Definition report_results (start_time : Z) (dest : sockaddr) (name : cstr) (options : opt_t) : report_t := {|
  h_schedule := textual_schedule options; h_family := sa_family dest; h_write_size := o_write_size options;
  h_name := name; h_address := snd (copy_address_to_protobuf (Some (Some dest))); h_dscp := o_dscp options;
  h_protocol := o_protocol options; timestamp := start_time;
  items := report_schedule <$> filter (fun i => direction i <> DIRECTION_NULL) (schedule options) |}.
Definition extract_tcpinfo (item : option item_t) : res (option tcpinfo_result) :=
  match item with Some i => Ok (i_tcpinfo i) | None => Fault NullDeref end.

(** ** The options that are sent *)

Record hello_t : Set := {
  test_port : Z; mss : Z; rcvbuf : Z; sndbuf : Z; disable_nagle : bool; h_disable_web10g : bool; h_randomise : bool;
  h_reuse_addr : bool; hello_write_size : Z; hello_dscp : Z; hello_protocol : protocol_t
}.
Definition build_hello (o : opt_t) : hello_t := {|
  test_port := tport o; mss := u32 (sock_mss o); rcvbuf := sock_rcvbuf o; sndbuf := sock_sndbuf o;
  disable_nagle := sock_disable_nagle o; h_disable_web10g := disable_web10g o; h_randomise := o_randomise o;
  h_reuse_addr := reuse_addr o; hello_write_size := o_write_size o; hello_dscp := o_dscp o;
  hello_protocol := o_protocol o |}.
(** A message that does not unpack is used all the same. *)
Definition parse_hello (hello : option hello_t) : res opt_t :=
  match hello with
  | None => Fault NullDeref
  | Some h => Ok {|
      o_protocol := hello_protocol h; cport := 0; tport := u16 (test_port h); o_write_size := hello_write_size h;
      sock_mss := i32 (mss h); sock_disable_nagle := disable_nagle h; o_randomise := h_randomise h;
      disable_web10g := h_disable_web10g h; reuse_addr := h_reuse_addr h; sock_rcvbuf := rcvbuf h;
      sock_sndbuf := sndbuf h; o_dscp := u8 (hello_dscp h); textual_schedule := None; schedule := [] |}
  end.
Record send_t : Set := { send_duration : Z; send_write_size : Z; send_bytes : Z }.
Definition build_send (o : test_request_t) : send_t :=
  {| send_duration := duration o; send_write_size := write_size o; send_bytes := bytes o |}.
Definition parse_send (m : option send_t) : res test_request_t :=
  match m with
  | None => Fault NullDeref
  | Some m => Ok {| direction := DIRECTION_NULL; protocol := PROTOCOL_NONE; bytes := send_bytes m;
                    duration := send_duration m; write_size := send_write_size m; randomise := false; result := None |}
  end.

(** ** The stream *)

(** The events of one write take [n] bytes. *)
Fixpoint accepts (env : list write_t) (n : Z) : bool :=
  (n <=? 0) ||
  match env with
  | Wrote k :: env => (0 <? k) && accepts env (n - k)
  | WriteIntr :: env => accepts env n
  | _ => false
  end.
Lemma accepts_le env n m : accepts env n = true -> m <= n -> accepts env m = true.
Proof.
  revert n m. induction env as [|[k| |] env IH]; intros n m; cbn; rewrite ?orb_false_r;
    destruct (Z.leb_spec n 0), (Z.leb_spec m 0); try done; try lia; cbn.
  - intros [-> Ha]%andb_true_iff Hm. cbn. eapply IH; [done|lia].
  - intros H' Hm. by eapply IH.
Qed.
Lemma write_all env : forall rest sent,
  accepts env (Z.of_nat (length rest)) = true -> write_loop env rest sent = (sent ++ rest, true).
Proof.
  induction env as [|[k| |] env IH]; intros rest sent; cbn [write_loop accepts]; rewrite ?orb_false_r.
  - destruct rest; cbn; [by rewrite app_nil_r|done].
  - intros Ha. destruct (Z.leb_spec (Z.of_nat (length rest)) 0) as [H0|H0].
    + destruct rest; [|cbn in H0; lia]. by rewrite drop_nil, take_nil.
    + cbn in Ha. apply andb_true_iff in Ha as [Hk Ha]. apply Z.ltb_lt in Hk.
      set (j := Z.to_nat (Z.min k (Z.of_nat (length rest)))). 
      replace (sent ++ rest) with ((sent ++ take j rest) ++ drop j rest) by (by rewrite <- app_assoc, take_drop).
      destruct (drop j rest) as [|x rest'] eqn:Ed; [by rewrite app_nil_r|].
      rewrite (proj2 (Nat.ltb_lt 0 j)) by (unfold j; lia). apply IH.
      eapply accepts_le; [exact Ha|]. apply (f_equal length) in Ed. rewrite length_drop in Ed. unfold j in Ed. cbn [length] in *. lia.
  - destruct (Z.leb_spec (Z.of_nat (length rest)) 0); intros Ha; [|by apply IH]. destruct rest; [|cbn in *; lia].
    apply IH. by destruct env as [|[]].
  - destruct rest; cbn; [by rewrite app_nil_r|done].
Qed.
(** What goes out is the beginning of the data, and all of it when that is reported. *)
Lemma write_prefix env : forall rest sent,
  exists k, fst (write_loop env rest sent) = sent ++ take k rest /\ (k <= length rest)%nat /\
    (snd (write_loop env rest sent) = true <-> k = length rest).
Proof.
  induction env as [|[n| |] env IH]; intros rest sent; cbn [write_loop].
  - exists 0%nat. cbn. rewrite take_0, app_nil_r. split_and!; [done|lia|]. rewrite bool_decide_eq_true.
    destruct rest; cbn; split; (done || lia).
  - set (j := Z.to_nat (Z.min n (Z.of_nat (length rest)))). assert (Hj : (j <= length rest)%nat) by (unfold j; lia).
    pose proof (length_drop rest j) as Hd. destruct (drop j rest) as [|x rest'] eqn:Ed.
    + exists j. cbn in *. split_and!; [done|lia|]. split; [lia|done].
    + destruct (Nat.ltb_spec 0 j) as [H0|H0].
      * destruct (IH (x :: rest') (sent ++ take j rest)) as (k & -> & Hk & Ha). exists (j + k)%nat.
        rewrite <- Ed, <- app_assoc, take_take_drop. split_and!; [done|lia|]. rewrite Ed, Ha. cbn [length] in *. lia.
      * exists 0%nat. cbn in *. replace j with 0%nat by lia. rewrite take_0. split_and!; [done|lia|]. split; [done|lia].
  - apply IH.
  - exists 0%nat. cbn. rewrite take_0, app_nil_r. split_and!; [done|lia|]. rewrite bool_decide_eq_true.
    destruct rest; cbn; split; (done || lia).
Qed.

(** Filling the buffer keeps its size, and stays inside it but for headers that fit exactly. *)
Lemma put_length buf off bs buf' : put buf off bs = Ok buf' -> length buf' = length buf.
Proof.
  unfold put. destruct (_ && _) eqn:E; [|done]. apply andb_true_iff in E as [H1%Z.leb_le H2%Z.leb_le].
  intros [= <-]. rewrite !length_app, length_take, length_drop. lia.
Qed.
Lemma chunk_room size :
  5 <= size < 4294967296 -> Z.of_nat (length (print_hex (chunk_size size) ++ CRLF)) + 2 <= size.
Proof.
  intros Hs. rewrite length_app. unfold print_hex. change (length CRLF) with 2%nat. destruct (Z.ltb_spec size 21).
  - assert (Hv : 0 <= chunk_size size < 16 ^ Z.of_nat 1) by (unfold chunk_size; rewrite (proj2 (Z.ltb_lt size _)) by lia; lia).
    pose proof (length_print_base_le 16 ltac:(lia) 0 _ Hv). lia.
  - assert (Hv : 0 <= chunk_size size < 16 ^ Z.of_nat 8) by (unfold chunk_size; zbool; lia).
    pose proof (length_print_base_le 16 ltac:(lia) 7 _ Hv). lia.
Qed.
Lemma chunk_safe buf off size rnd random :
  0 <= off -> 0 <= size < 4294967296 -> off + size <= Z.of_nat (length buf) ->
  exists buf', addHttpChunkHeader buf off size rnd random = Ok buf' /\ length buf' = length buf.
Proof.
  intros Ho Hs Hb. set (A := take (Z.to_nat off) buf). set (B := take (Z.to_nat size) (drop (Z.to_nat off) buf)).
  set (C := drop (Z.to_nat size) (drop (Z.to_nat off) buf)).
  assert (E : buf = A ++ B ++ C) by (unfold A, B, C; by rewrite !take_drop).
  assert (HA : off = Z.of_nat (length A)) by (unfold A; rewrite length_take; lia).
  assert (HB : size = Z.of_nat (length B)) by (unfold B; rewrite length_take, length_drop; lia).
  clearbody A B C. subst buf. destruct (Z.ltb_spec size 5) as [H5|H5].
  - unfold addHttpChunkHeader. rewrite (proj2 (Z.ltb_lt size 5)) by lia. destruct rnd; [|by eexists].
    destruct (random_keeps A B C off size random HA HB) as (B' & HB' & ->). eexists. split; [done|].
    rewrite !length_app. lia.
  - pose proof (chunk_room size) as Hr.
    destruct (chunk_header A B C off size rnd random HA HB) as (data & Hl & ->); [done|apply Hr; lia|].
    eexists. split; [done|]. rewrite !length_app, length_fmap. rewrite !length_app in *. cbn [length] in *. lia.
Qed.

(** The one way to write outside the buffer: the headers fill it exactly, and sprintf()
    puts its NUL after them. *)
Definition headers_fit (o : test_request_t) : Prop := protocol o = HTTP_POST -> write_size o <> strlen_headers.
Lemma fill_safe o first buf size random :
  headers_fit o -> Z.of_nat (length buf) = write_size o -> 0 <= size <= write_size o -> write_size o < 4294967296 ->
  exists buf', fill_buffer o first buf size random = Ok buf' /\ length buf' = length buf.
Proof.
  intros Hh Hb Hs Hw. unfold fill_buffer. destruct (protocol o) eqn:Ep.
  - destruct (randomise o || first); [|by eexists]. unfold randomMemset.
    destruct (put _ _ _) as [buf1|] eqn:E1; [|rewrite put_ok in E1; [done|lia|rewrite length_take; lia]].
    eexists. split; [done|]. by eapply put_length.
  - destruct first; [|apply chunk_safe; lia]. unfold addHttpHeaders.
    destruct (Z.ltb_spec size strlen_headers) as [H1|H1]; [by eexists|]. specialize (Hh Ep).
    assert (Hroom : strlen_headers + 1 <= Z.of_nat (length buf)) by lia. unfold sprintf, strlen_headers in *.
    destruct (put buf 0 ((ch <$> headers) ++ [0])) as [buf1|] eqn:E1.
    2:{ rewrite put_ok in E1; [done|lia|]. rewrite length_app, length_fmap. cbn [length]. lia. }
    rewrite bind_Ok. pose proof (put_length _ _ _ _ E1) as L1.
    destruct (size - _ >? 0); [|by eexists]. destruct (chunk_safe buf1 (Z.of_nat (length headers))
      (size - Z.of_nat (length headers)) true random) as (buf2 & -> & L2); [lia..|]. eexists. split; [done|]. lia.
Qed.

Section Stream.
Context (o : test_request_t) (start : Z).
Hypothesis (Hws : 0 < write_size o < 2147483648) (Hbytes : 0 <= bytes o < 18446744073709551616) (Hfit : headers_fit o).

(** Before each round everything counted has gone out. *)
Record sending (st : stream_t) : Prop := {
  counted : s_bytes st = Z.of_nat (length (wire st));
  limited : 0 < bytes o -> s_bytes st <= bytes o;
  buffered : Z.of_nat (length (buffer st)) = write_size o
}.
(** Without a limit, the counter does not wrap around. *)
Definition room (rounds : list round) (st : stream_t) : Prop :=
  0 < bytes o \/ s_bytes st + Z.of_nat (length rounds) * write_size o < 18446744073709551616.

(** What a round sends. *)
Definition to_send (st : stream_t) : Z :=
  if (bytes o >? 0) && (bytes o - s_bytes st <? write_size o) then bytes o - s_bytes st else write_size o.
Lemma send_amount st :
  sending st ->
  (u64 (bytes o - s_bytes st) <? write_size o) = (bytes o - s_bytes st <? write_size o) \/ bytes o = 0.
Proof using Hbytes.
  intros [Hc Hl _]. destruct (Z.eqb_spec (bytes o) 0); [by right|]. left. unfold u64. rewrite Z.mod_small; [done|].
  specialize (Hl ltac:(lia)). lia.
Qed.

(** One round in which the socket can be written to. *)
Lemma writable_round r rounds st :
  sending st -> room (r :: rounds) st -> sel r = SelWritable ->
  (duration o >? 0) && (run_time_ms start (now r) >=? duration o) = false ->
  exists buf out,
    length buf = length (buffer st) /\ (length out <= Z.to_nat (to_send st))%nat /\
    (accepts (writes r) (to_send st) = true -> Z.of_nat (length out) = to_send st) /\
    let last := (bytes o >? 0) && (bytes o - s_bytes st <? write_size o) in
    let st' b := {| s_bytes := b; buffer := buf; wire := wire st ++ out;
                    waits := waits st ++ [select_timeout o (run_time_ms start (now r))] |} in
    send_loop o start (r :: rounds) st =
      if (Z.of_nat (length out) =? to_send st)
      then if last then Ok (st' (s_bytes st + to_send st)) else send_loop o start rounds (st' (s_bytes st + to_send st))
      else Ok (st' (s_bytes st)).
Proof using Hws Hbytes Hfit.
  intros Hst Hroom Hsel Htime. pose proof (send_amount st Hst) as Ham. destruct Hst as [Hc Hl Hb].
  assert (Hts : 0 <= to_send st <= write_size o).
  { unfold to_send. destruct (Z.gtb_spec (bytes o) 0), (Z.ltb_spec (bytes o - s_bytes st) (write_size o)); cbn; try lia. }
  destruct (fill_safe o (s_bytes st =? 0) (buffer st) (to_send st) (random r) Hfit Hb Hts ltac:(lia)) as (buf & Hfill & Hbuf).
  set (data := take (Z.to_nat (to_send st)) buf).
  assert (Hdl : Z.of_nat (length data) = to_send st) by (unfold data; rewrite length_take; lia).
  destruct (write_prefix (writes r) data []) as (k & Hk & Hkl & Hall).
  exists buf, (take k data). rewrite length_take. split; [done|]. split; [lia|]. split.
  { intros Ha. rewrite <- Hdl in Ha. apply (write_all _ _ []) in Ha. rewrite Ha in Hall. cbn in Hall.
    assert (k = length data) by (by apply Hall). lia. }
  cbv zeta. cbn [send_loop]. rewrite Htime, Hsel. cbn [s_bytes buffer wire waits].
  assert (Hmore : negb ((bytes o >? 0) && (u64 (bytes o - s_bytes st) <? write_size o))
                  = negb ((bytes o >? 0) && (bytes o - s_bytes st <? write_size o))).
  { destruct Ham as [->|E0]; [done|]. by rewrite E0. }
  rewrite Hmore. set (last := (bytes o >? 0) && (bytes o - s_bytes st <? write_size o)) in *.
  assert (Hsend : (if negb last then write_size o else u32 (bytes o - s_bytes st)) = to_send st).
  { unfold to_send. fold last. destruct last eqn:El; [|done]. cbn. unfold last in El.
    apply andb_true_iff in El as [E1 E2]. apply Z.gtb_lt in E1. apply Z.ltb_lt in E2. specialize (Hl E1).
    unfold u32. apply Z.mod_small. lia. }
  rewrite Hsend, Hfill, bind_Ok. fold data. unfold writeBuffer.
  destruct (write_loop (writes r) data []) as [out all]. cbn in Hk. subst out. cbn [fst snd] in *.
  unfold room in Hroom. cbn [length] in Hroom. rewrite Nat2Z.inj_succ in Hroom.
  destruct all.
  - assert (Hkd : k = length data) by (by apply Hall). rewrite (take_ge data k) by lia.
    rewrite Nat.min_r by lia. rewrite Hdl, Z.eqb_refl. unfold i32. rewrite Z.mod_small by lia.
    rewrite (proj2 (Z.ltb_ge _ _)) by lia. replace (to_send st + 2147483648 - 2147483648) with (to_send st) by lia.
    assert (Hlim : 0 < bytes o -> s_bytes st + to_send st <= bytes o).
    { intros H0. specialize (Hl H0). unfold to_send. rewrite (proj2 (Z.gtb_lt _ _)) by lia. cbn [andb].
      destruct (Z.ltb_spec (bytes o - s_bytes st) (write_size o)); lia. }
    unfold u64. rewrite Z.mod_small by (destruct Hroom; lia). by destruct last.
  - assert (Hkd : k <> length data) by (intros E; apply Hall in E; done).
    rewrite (proj2 (Z.eqb_neq _ (to_send st))) by lia. done.
Qed.

(** The state when the loop has ended: at most the limit went out, and what was counted is
    all of it but for a write that failed. *)
Definition stopped (st : stream_t) : Prop :=
  0 <= s_bytes st <= Z.of_nat (length (wire st)) /\ (0 < bytes o -> Z.of_nat (length (wire st)) <= bytes o).
Lemma sending_stopped st : sending st -> stopped st.
Proof using. intros [Hc Hl _]. unfold stopped. split; [lia|]. intros H0. specialize (Hl H0). lia. Qed.

Lemma to_send_le st : to_send st <= write_size o.
Proof using.
  unfold to_send. destruct (bytes o >? 0); cbn [andb]; [|lia].
  destruct (Z.ltb_spec (bytes o - s_bytes st) (write_size o)); lia.
Qed.
Lemma to_send_limited st : sending st -> 0 < bytes o -> s_bytes st + to_send st <= bytes o.
Proof using.
  intros [Hc Hl _] H0. unfold to_send. rewrite (proj2 (Z.gtb_lt _ _)) by lia. cbn [andb].
  destruct (Z.ltb_spec (bytes o - s_bytes st) (write_size o)); lia.
Qed.

Lemma send_loop_safe rounds : forall st,
  sending st -> room rounds st ->
  (exists st', send_loop o start rounds st = Ok st' /\ stopped st') \/
  send_loop o start rounds st = Fault OutOfFuel /\
    (duration o > 0 -> Forall (fun r => run_time_ms start (now r) < duration o) rounds).
Proof using Hws Hbytes Hfit.
  induction rounds as [|r rounds IH]; intros st Hst Hroom; [right; split; [done|]; intros; constructor|].
  destruct ((duration o >? 0) && (run_time_ms start (now r) >=? duration o)) eqn:Htime.
  { left. exists st. split; [cbn; by rewrite Htime|by apply sending_stopped]. }
  assert (Htr : duration o > 0 -> run_time_ms start (now r) < duration o).
  { intros Hd. rewrite (proj2 (Z.gtb_lt _ _)) in Htime by lia. cbn in Htime. rewrite Z.geb_leb in Htime.
    by apply Z.leb_gt in Htime. }
  assert (Hnext : forall st1, sending st1 -> room rounds st1 -> forall b : bool,
    (exists st', (if b then send_loop o start rounds st1 else Ok st1) = Ok st' /\ stopped st') \/
    (if b then send_loop o start rounds st1 else Ok st1) = Fault OutOfFuel /\
      (duration o > 0 -> Forall (fun r => run_time_ms start (now r) < duration o) (r :: rounds))).
  { intros st1 H1 Hr1 []; [|left; exists st1; split; [done|by apply sending_stopped]].
    destruct (IH st1 H1 Hr1) as [?|[? Hf]]; [by left|right]. split; [done|]. intros Hd. constructor; auto. }
  assert (Hkeep : forall w, sending {| s_bytes := s_bytes st; buffer := buffer st; wire := wire st; waits := w |} /\
    room rounds {| s_bytes := s_bytes st; buffer := buffer st; wire := wire st; waits := w |}).
  { intros w. split; [by destruct Hst|]. unfold room in *. cbn [length s_bytes] in *. lia. }
  destruct (sel r) eqn:Hsel.
  1,3: (left; eexists; split; [cbn; rewrite Htime, Hsel; reflexivity|]; apply sending_stopped, Hkeep).
  1,2: (cbn [send_loop]; rewrite Htime, Hsel; apply Hnext; apply Hkeep).
  destruct (writable_round r rounds st Hst Hroom Hsel Htime) as (buf & out & Hbuf & Hout & _ & ->).
  pose proof (to_send_limited st Hst) as Hlim. pose proof Hst as [Hc Hl Hb].
  destruct (Z.eqb_spec (Z.of_nat (length out)) (to_send st)) as [E|E].
  - set (st1 := {| s_bytes := s_bytes st + to_send st |}).
    assert (Hs1 : sending st1).
    { constructor; cbn; [rewrite length_app; lia|done|by rewrite Hbuf]. }
    assert (Hr1 : room rounds st1).
    { unfold room in *. cbn [length s_bytes st1] in *. pose proof (to_send_le st). lia. }
    destruct ((bytes o >? 0) && _); [apply (Hnext st1 Hs1 Hr1 false)|apply (Hnext st1 Hs1 Hr1 true)].
  - left. eexists. split; [done|]. split; cbn.
    + rewrite length_app. lia.
    + intros H0. specialize (Hlim H0). rewrite length_app. lia.
Qed.

(** A round in which the socket takes what it is given, or select() is interrupted. *)
Definition goes_on (r : round) : Prop :=
  sel r = SelWritable /\ accepts (writes r) (write_size o) = true \/ sel r = SelIntr \/ sel r = SelOther.
(** The rounds end with one that writes, if there is any. *)
Definition ends_writing (rounds : list round) : Prop :=
  forall r, last rounds = Some r -> sel r = SelWritable.
Definition writes_in (rounds : list round) : Z :=
  Z.of_nat (length (filter (fun r => sel r = SelWritable) rounds)).

(** The full writes of the first rounds, and the last part if the round after them writes. *)
Lemma send_loop_all rounds final post : forall st,
  sending st -> 0 < bytes o -> duration o = 0 -> Forall goes_on rounds -> goes_on final -> ends_writing rounds ->
  (bytes o - s_bytes st) / write_size o = writes_in rounds ->
  let sent := if decide (sel final = SelWritable) then bytes o else s_bytes st + writes_in rounds * write_size o in
  exists st', send_loop o start (rounds ++ final :: post) st = Ok st' /\
    s_bytes st' = sent /\ Z.of_nat (length (wire st')) = sent.
Proof using Hws Hbytes Hfit.
  induction rounds as [|r rounds IH]; intros st Hst H0 Hd Hall Hlast Hend Hlen; pose proof Hst as [Hc Hl Hb]; specialize (Hl H0).
  - assert (Hsmall : bytes o - s_bytes st < write_size o).
    { unfold writes_in in Hlen. cbn in Hlen. pose proof (Z.div_mod (bytes o - s_bytes st) (write_size o)).
      pose proof (Z.mod_pos_bound (bytes o - s_bytes st) (write_size o)). lia. }
    cbn [app]. cbn zeta. destruct (decide (sel final = SelWritable)) as [Hsel|Hsel].
    + destruct (writable_round final post st Hst ltac:(by left) Hsel) as (buf & out & Hbuf & Hout & Hfull & ->); [by rewrite Hd|].
      destruct Hlast as [[_ Hacc]|[?|?]]; [|congruence..].
      specialize (Hfull (accepts_le _ _ _ Hacc (to_send_le st))). rewrite Hfull, Z.eqb_refl.
      unfold to_send in *. rewrite (proj2 (Z.gtb_lt (bytes o) 0)), (proj2 (Z.ltb_lt _ _) Hsmall) in * by lia. cbn [andb] in *.
      eexists. split; [done|]. cbn. rewrite length_app. lia.
    + cbn [send_loop]. rewrite Hd. cbn [Z.gtb Z.compare andb]. rewrite (proj2 (Z.gtb_lt (bytes o) 0)) by lia.
      unfold u64. rewrite Z.mod_small, (proj2 (Z.ltb_lt _ _) Hsmall) by lia. cbn [andb negb].
      unfold writes_in. cbn [filter list_filter length]. rewrite Z.mul_0_l, Z.add_0_r.
      destruct Hlast as [[? _]|[-> | ->]]; [done|..]; eexists; (split; [reflexivity|]); cbn; lia.
  - apply Forall_cons in Hall as [Hr Hall]. cbn [app].
    assert (Hbig : sel r = SelWritable -> write_size o <= bytes o - s_bytes st).
    { intros Hsel. unfold writes_in in Hlen. rewrite filter_cons_True in Hlen by done. cbn [length] in Hlen.
      destruct (Z.le_gt_cases (write_size o) (bytes o - s_bytes st)); [done|]. rewrite Z.div_small in Hlen; lia. }
    assert (Hend' : ends_writing rounds) by (intros r' Hr'; apply Hend; rewrite last_cons, Hr'; done).
    destruct (decide (sel r = SelWritable)) as [Hsel|Hsel].
    + destruct (writable_round r (rounds ++ final :: post) st Hst ltac:(by left) Hsel)
        as (buf & out & Hbuf & Hout & Hfull & ->); [by rewrite Hd|].
      destruct Hr as [[_ Hacc]|[?|?]]; [|congruence..]. specialize (Hbig Hsel).
      specialize (Hfull (accepts_le _ _ _ Hacc (to_send_le st))). rewrite Hfull, Z.eqb_refl.
      unfold to_send in *. rewrite (proj2 (Z.gtb_lt (bytes o) 0)), (proj2 (Z.ltb_ge _ _) Hbig) in * by lia. cbn [andb] in *.
      unfold writes_in in *. rewrite filter_cons_True in Hlen |- * by done. cbn [length] in *.
      match goal with |- context [send_loop _ _ _ ?s] => destruct (IH s) as (st' & -> & H1 & H2) end; try done.
      * constructor; cbn; [rewrite length_app; lia|lia|by rewrite Hbuf].
      * cbn [s_bytes].
        replace (bytes o - s_bytes st) with (bytes o - (s_bytes st + write_size o) + 1 * write_size o) in Hlen by lia.
        rewrite Z.div_add in Hlen by lia. lia.
      * exists st'. cbn [s_bytes] in *. destruct (decide _); split_and!; try done; lia.
    + unfold writes_in in *. rewrite filter_cons_False in Hlen |- * by done.
      cbn [send_loop]. rewrite Hd. cbn [Z.gtb Z.compare andb].
      assert (Hmore : sel r = SelIntr \/ sel r = SelOther) by (destruct Hr as [[? _]|]; done).
      assert (Hmany : write_size o <= bytes o - s_bytes st).
      { destruct (last rounds) as [r'|] eqn:Er; [|rewrite <- (Hend r) in Hsel by (by rewrite last_cons, Er); done].
        pose proof (Hend' r' Er) as Hw'. apply last_Some in Er as [l ->]. rewrite filter_app, length_app, (filter_cons_True _ _ []) in Hlen by done.
        cbn [length] in Hlen. destruct (Z.le_gt_cases (write_size o) (bytes o - s_bytes st)); [done|]. rewrite Z.div_small in Hlen; lia. }
      rewrite (proj2 (Z.gtb_lt (bytes o) 0)) by lia. unfold u64. rewrite Z.mod_small, (proj2 (Z.ltb_ge _ _) Hmany) by lia. cbn [andb negb].
      assert (Hs : sending {| s_bytes := s_bytes st; buffer := buffer st; wire := wire st;
        waits := waits st ++ [select_timeout o (run_time_ms start (now r))] |}) by (by constructor).
      destruct (IH _ Hs H0 Hd Hall Hlast Hend' Hlen) as (st' & E & H1 & H2). cbn [s_bytes] in *.
      exists st'. destruct Hmore as [-> | ->]; done.
Qed.
End Stream.

(** *** The receiver *)

(** The data of the reads, which all bring some; the clock when the first arrived. *)
Definition arrived (env : list arrival) : list Z :=
  concat (omap (fun a => match a with Got d _ => Some d | _ => None end) env).
Definition whole (env : list arrival) : Prop :=
  Forall (fun a => match a with Got d _ => d <> [] | ReadIntr => True | ReadError => False end) env.
Fixpoint first_arrival (env : list arrival) : Z :=
  match env with Got _ t :: _ => t | _ :: env => first_arrival env | [] => 0 end.

Lemma read_whole env :
  whole env ->
  (arrived env = [] /\ readBuffer env = (0, 0, [])) \/
  exists d t env', readBuffer env = (Z.of_nat (length d), t, env') /\ d <> [] /\ arrived env = d ++ arrived env' /\
    first_arrival env = t /\ whole env' /\ (length env' < length env)%nat.
Proof.
  induction 1 as [|[d t| |] env Ha Hw IH]; [by left| | |done].
  - right. exists d, t, env. split_and!; try done. cbn. lia.
  - destruct IH as [[? ?]|(d & t & env' & ? & ? & ? & ? & ? & ?)]; [by left|right]. exists d, t, env'. split_and!; try done. cbn. lia.
Qed.
Lemma receive_loop_spec fuel : forall env r,
  whole env -> (length env < fuel)%nat -> 0 <= r_bytes r ->
  r_bytes r + Z.of_nat (length (arrived env)) < 18446744073709551616 ->
  receive_loop fuel env r = Ok {|
    r_bytes := r_bytes r + Z.of_nat (length (arrived env));
    start_ns := if (r_bytes r =? 0) && (0 <? Z.of_nat (length (arrived env))) then first_arrival env else start_ns r;
    end_ns := end_ns r; tcpinfo := tcpinfo r |}.
Proof.
  induction fuel as [|fuel IH]; intros env r Hw Hf Hr Hb; [lia|]. cbn [receive_loop].
  destruct (read_whole env Hw) as [[Ha ->]|(d & t & env' & -> & Hd & Ha & Ht & Hw' & Hl)].
  - cbn. rewrite Ha. cbn. rewrite andb_false_r, Z.add_0_r. by destruct r.
  - assert (Hdl : (0 < length d)%nat) by (destruct d; cbn; [done|lia]). rewrite (proj2 (Z.gtb_lt _ _)) by lia.
    rewrite Ha, length_app in Hb |- *. unfold u64. rewrite Z.mod_small by lia. rewrite IH by (done || cbn; lia).
    cbn [r_bytes start_ns end_ns tcpinfo]. rewrite (proj2 (Z.eqb_neq (r_bytes r + _) 0)) by lia. cbn [andb].
    rewrite (proj2 (Z.ltb_lt 0 (Z.of_nat (length d + _)))), andb_true_r, Ht by lia. do 2 f_equal; lia.
Qed.
Lemma incoming_spec finish env :
  whole env -> 0 < Z.of_nat (length (arrived env)) < 18446744073709551616 ->
  incomingTest finish env = Ok {|
    r_bytes := Z.of_nat (length (arrived env)); start_ns := first_arrival env; end_ns := finish; tcpinfo := None |}.
Proof.
  intros Hw Hb. unfold incomingTest. rewrite receive_loop_spec by (done || cbn; lia). rewrite bind_Ok.
  cbn [r_bytes start_ns end_ns tcpinfo result_init]. rewrite Z.add_0_l, (proj2 (Z.gtb_lt _ 0)), (proj2 (Z.ltb_lt 0 _)) by lia. done.
Qed.

Lemma sending_init o (rounds : list round) :
  0 < write_size o -> 0 < bytes o \/ Z.of_nat (length rounds) * write_size o < 18446744073709551616 ->
  let st := {| s_bytes := r_bytes result_init; buffer := replicate (Z.to_nat (write_size o)) 0; wire := []; waits := [] |} in
  sending o st /\ room o rounds st.
Proof. intros Hw Hr st. split; [constructor; cbn; [done|lia|rewrite length_replicate; lia]|]. unfold room. cbn. lia. Qed.

(** C35: A throughput test of a number of bytes, from the sender to the report.  In every round
    select() finds the socket writable, and the writes of the round together take what they are
    given, in whatever pieces and interrupted or not; or select() is interrupted.  Then
    sendStream() ends with the round after the one that has the last full write.  If that round
    is a writable one, exactly the bytes that were asked for were sent and that number is
    reported; if select() was interrupted in it, the part that does not fill a write is
    lost, and only the full writes are sent and reported.  A receiver that gets the stream, if
    it is not empty, in whatever pieces, counts the same number, from the clock when the first
    piece arrived to the clock at the end, and this is what the report of the test holds.  The
    write size is from 1 to 2^31 - 1, and over HTTP not that of the headers, 165 bytes. *)
Theorem stream_delivered o start finish tcp rounds final post :
  0 < write_size o < 2147483648 -> 0 < bytes o < 18446744073709551616 -> duration o = 0 -> headers_fit o ->
  Forall (goes_on o) (rounds ++ [final]) -> ends_writing rounds -> writes_in rounds = bytes o / write_size o ->
  let sent := if decide (sel final = SelWritable) then bytes o else bytes o / write_size o * write_size o in
  exists r out, sendStream true start finish tcp (rounds ++ final :: post) o result_init = Ok (0, r, out) /\
    r_bytes r = sent /\ start_ns r = start /\ end_ns r = finish /\ Z.of_nat (length out) = sent /\
    forall env finish', whole env -> arrived env = out -> 0 < sent ->
      exists r', incomingTest finish' env = Ok r' /\
        forall d p ws rnd,
          let item := report_schedule {| direction := d; protocol := p; bytes := bytes o; duration := 0; write_size := ws;
                                         randomise := rnd; result := Some r' |} in
          i_bytes item = Some sent /\ i_duration item = Some (u64 (finish' - first_arrival env)).
Proof.
  intros Hws Hb Hd Hfit Hall Hend Hlen sent. unfold sendStream. rewrite (proj2 (Z.eqb_neq (bytes o) 0)) by lia. cbn [andb negb].
  destruct (sending_init o rounds ltac:(lia) ltac:(left; lia)) as [Hst _].
  apply Forall_app in Hall as [Hall Hf]. apply Forall_cons in Hf as [Hf _].
  destruct (send_loop_all o start Hws ltac:(lia) Hfit rounds final post _ Hst ltac:(lia) Hd Hall Hf Hend) as (st & -> & Hs & Hw).
  { cbn. by rewrite Z.sub_0_r. }
  cbn [s_bytes r_bytes result_init] in Hs, Hw. rewrite Z.add_0_l, Hlen in Hs, Hw. fold sent in Hs, Hw.
  assert (Hle : sent <= bytes o).
  { subst sent. destruct (decide _); [lia|]. rewrite Z.mul_comm. apply Z.mul_div_le. lia. }
  rewrite bind_Ok. eexists _, _. split; [done|]. split_and!; [done..|].
  intros env finish' Hwh He H0. rewrite incoming_spec by (done || rewrite He; lia). eexists. split; [done|].
  intros d p ws rnd. cbn. by rewrite He, Hw.
Qed.

(** C36: Limits of a throughput test.  With any behaviour of the socket, a test with a
    duration ends at the latest in the first round that starts when that time is over,
    writes only inside its buffer, never sends more than the number of bytes it was given
    (if it was), and counts no byte that did not go out; a receiver that gets what went
    out counts at least what the sender counted.  The write size is from 1 to 2^31 - 1, and over
    HTTP not that of the headers, 165 bytes, which with their NUL do not fit the buffer; and
    without a number of bytes the rounds cannot send 2^64 bytes. *)
Theorem stream_bounded o start finish tcp rounds r0 :
  0 < write_size o < 2147483648 -> 0 <= bytes o < 18446744073709551616 -> 0 < duration o -> headers_fit o ->
  0 < bytes o \/ Z.of_nat (length rounds) * write_size o < 18446744073709551616 ->
  r0 ∈ rounds -> duration o <= run_time_ms start (now r0) ->
  exists r out, sendStream true start finish tcp rounds o result_init = Ok (0, r, out) /\
    0 <= r_bytes r <= Z.of_nat (length out) /\ (0 < bytes o -> Z.of_nat (length out) <= bytes o) /\
    forall env finish', whole env -> arrived env = out -> Z.of_nat (length out) < 18446744073709551616 ->
      exists r', incomingTest finish' env = Ok r' /\ r_bytes r' = Z.of_nat (length out) /\ r_bytes r <= r_bytes r'.
Proof.
  intros Hws Hb Hd Hfit Hroom Hin Hover. unfold sendStream. rewrite (proj2 (Z.eqb_neq (duration o) 0)), andb_false_r by lia.
  cbn [negb]. destruct (sending_init o rounds ltac:(lia) Hroom) as [Hst Hrm].
  destruct (send_loop_safe o start Hws Hb Hfit rounds _ Hst Hrm) as [(st & -> & Hs & Hl)|[_ Hf]].
  - rewrite bind_Ok. eexists _, _. split; [done|]. split; [done|]. split; [done|]. intros env finish' Hw He Hlt.
    unfold incomingTest. rewrite receive_loop_spec by (done || rewrite ?He; cbn; lia). rewrite bind_Ok, He.
    eexists. split; [done|]. cbn [r_bytes result_init] in *. case_ifs; cbn [r_bytes]; lia.
  - exfalso. specialize (Hf ltac:(lia)). rewrite Forall_forall in Hf. specialize (Hf _ Hin). lia.
Qed.

(** ** Concrete streams *)

Definition ten_bytes : test_request_t := {|
  direction := CLIENT_TO_SERVER; protocol := PROTOCOL_NONE; bytes := 10; duration := 0; write_size := 4; randomise := false;
  result := None |}.
Definition writable (t : Z) (ws : list write_t) : round :=
  {| now := t; sel := SelWritable; random := [1; 2; 3; 4; 5; 6]; writes := ws |}.
Definition slow_socket : list round :=
  [writable 1 [Wrote 1; WriteIntr; Wrote 3]; {| now := 2; sel := SelIntr; random := []; writes := [] |};
   writable 3 [WriteIntr; Wrote 9]].
Lemma stream_delivered_witness :
  exists r out, sendStream true 0 5 [] (slow_socket ++ [writable 4 [Wrote 2; Wrote 5]]) ten_bytes result_init = Ok (0, r, out) /\
    r_bytes r = 10 /\ out = [1; 2; 3; 4; 1; 2; 3; 4; 1; 2] /\
    (exists r', incomingTest 40 [Got [1; 2; 3] 10; ReadIntr; Got [4; 1; 2; 3; 4; 1; 2] 20] = Ok r' /\
       r_bytes r' = 10 /\ start_ns r' = 10 /\ end_ns r' = 40).
Proof.
  destruct (stream_delivered ten_bytes 0 5 [] slow_socket (writable 4 [Wrote 2; Wrote 5]) []) as (r & out & E & Hb & _ & _ & _ & _);
    [cbn; lia|cbn; lia|reflexivity|intros H; discriminate H| | |vm_compute; reflexivity|].
  - unfold slow_socket. cbn [app].
    repeat (apply List.Forall_cons; [first [left; split; reflexivity|right; left; reflexivity]|]). apply List.Forall_nil.
  - intros r [= <-]. reflexivity.
  - exists r, out. split; [exact E|]. split; [exact Hb|]. vm_compute in E. injection E as <- <-.
    split; [reflexivity|]. eexists. split; [reflexivity|]. repeat split.
Defined.

Definition half_second : test_request_t := {|
  direction := SERVER_TO_CLIENT; protocol := HTTP_POST; bytes := 0; duration := 500; write_size := 180; randomise := true;
  result := None |}.
Definition timed_rounds : list round :=
  [writable 0 [Wrote 180]; {| now := 100000000; sel := SelIntr; random := []; writes := [] |};
   writable 200000000 [Wrote 100; WriteError]; writable 600000000 []].
Lemma stream_bounded_witness :
  exists r out, sendStream true 0 7 [] timed_rounds half_second result_init = Ok (0, r, out) /\
    r_bytes r = 180 /\ length out = 280%nat.
Proof.
  destruct (stream_bounded half_second 0 7 [] timed_rounds (writable 600000000 [])) as (r & out & E & _);
    [cbn; lia|cbn; lia|cbn; lia|intros _; vm_compute; discriminate|cbn; lia|
     apply list_elem_of_In; right; right; right; left; reflexivity|vm_compute; discriminate|].
  exists r, out. split; [exact E|]. vm_compute in E. injection E as <- <-. split; reflexivity.
Defined.


(** A signal that interrupts the last wait ends a test of a number of bytes early: the
    flag that ends the loop is already set when select() returns EINTR. *)
Example last_part_lost :
  match sendStream true 0 5 []
          [writable 1 [Wrote 4]; writable 2 [Wrote 4]; {| now := 3; sel := SelIntr; random := []; writes := [] |};
           writable 4 [Wrote 4]] ten_bytes result_init with
  | Ok (r, res, out) => (r, r_bytes res, length out) = (0, 8, 8%nat)
  | Fault _ => False
  end.
Proof. vm_compute. reflexivity. Qed.

(** With a write size of 0, as a client can ask of the server, nothing is ever sent and
    nothing ends the loop but the time limit, if there is one. *)
Example zero_write_size rounds :
  Forall (fun r => sel r = SelWritable) rounds ->
  forall st, s_bytes st = 0 -> buffer st = [] ->
  send_loop {| direction := SERVER_TO_CLIENT; protocol := PROTOCOL_NONE; bytes := 10; duration := 0; write_size := 0;
               randomise := false; result := None |} 0 rounds st = Fault OutOfFuel.
Proof.
  induction 1 as [|r rounds Hr _ IH]; [done|]. intros st H0 Hb.
  assert (Hw : writeBuffer (writes r) [] = (0, [])).
  { unfold writeBuffer. rewrite write_all; [done|]. by destruct (writes r) as [|[]]. }
  cbn [send_loop duration bytes write_size s_bytes buffer wire waits]. rewrite H0, Hr, Hb.
  change (u64 (10 - 0) <? 0) with false. change (0 >? 0) with false. change (10 >? 0) with true. cbn [andb negb].
  change (fill_buffer _ (0 =? 0) [] 0 (random r)) with (Ok (@nil Z)). rewrite bind_Ok. change (take (Z.to_nat 0) []) with (@nil Z).
  rewrite Hw. by apply IH.
Qed.

(** Headers that fill the buffer exactly: their NUL is written after its end. *)
Example headers_overflow :
  strlen_headers = 165 /\
  addHttpHeaders (replicate 165 0) 165 [] = Fault OutOfBounds.
Proof. split; vm_compute; reflexivity. Qed.
