(* ===== verification/TputRun.v ===== *)
(** The two ends of the throughput test: runSchedule() of throughput_client.c and
    serveTest(), do_receive(), do_send() and do_renew() of throughput_server.c.

    Both are written against the control connection as an interface ([Channel]): packets
    are written and read whole.  The implementation in src/common/controlmsg.c is one
    instance ([bytes_channel]); two queues of packets, what [Controlmsg] shows two ends to
    see of each other, are another ([queue_channel]) and are used to run the ends together.
    Sockets are those of [Sockets], where each that is opened has a new number; the streams
    of test data are those of [Throughput], and what the network does to the data on each
    socket is an argument ([test_env]). *)
From stdpp Require Import countable.
From S2P Require Import Prelude CLib Address Testlib Bytes Controlmsg Sockets Throughput.
#[local] Open Scope Z_scope.

(** ** The control connection *)

Class Channel (L : Type) := {
  write_packet : list Z -> L -> Z * L;
  read_packet : L -> Z * list Z * L
}.

(** The connection as it is: events of the BIO, and the bytes written. *)
Record bytes_link : Type := { wenv : list (io Z); wout : list Z; renv : list (io (list Z)) }.
#[export] Instance bytes_channel : Channel bytes_link := {|
  write_packet data l :=
    let '(r, out, env) := write_control_packet (wenv l) data in
    (r, {| wenv := env; wout := wout l ++ out; renv := renv l |});
  read_packet l :=
    let '(r, data, env) := read_control_packet (renv l) in
    (r, data, {| wenv := wenv l; wout := wout l; renv := env |})
|}.

(** Packets that arrive in order, until the other end closes. *)
Record queues : Type := { inq : list (list Z); outq : list (list Z) }.
#[export] Instance queue_channel : Channel queues := {|
  write_packet data l := (Z.of_nat (length data), {| inq := inq l; outq := outq l ++ [data] |});
  read_packet l :=
    match inq l with
    | [] => (-1, [], l)
    | d :: rest => (Z.of_nat (length d), d, {| inq := rest; outq := outq l |})
    end
|}.

(** Messages inside the control messages. *)
Class Codec (M : Type) := { enc : M -> list Z; dec : list Z -> option M }.
Class CodecLaws (M : Type) `{Codec M} (ok : M -> Prop) : Prop := {
  dec_enc m : ok m -> dec (enc m) = Some m;
  enc_bytes m : ok m -> bytes_ok (enc m)
}.

Definition AMP_TEST_THROUGHPUT : Z := 6.

(** What the network does to a stream on one socket: the clocks, the rounds of the sender and
    what arrives at the receiver. *)
Record test_env : Type := {
  e_start : Z; e_finish : Z; e_tcp : list (option tcp_sample); e_rounds : list round; e_calloc : bool;
  e_arrivals : list arrival
}.

(** On a descriptor that is not open, select() and read() are errors. *)
Definition not_open (e : test_env) : test_env := {|
  e_start := e_start e; e_finish := e_finish e; e_tcp := [None];
  e_rounds := [{| now := e_start e; sel := SelError; random := []; writes := [] |}]; e_calloc := e_calloc e;
  e_arrivals := [ReadError] |}.
Section Streams.
Context (net : Z -> test_env).
Definition on_socket (sock_fd : Z) : sys test_env := fun w =>
  Ok (if bool_decide (sock_fd ∈ fds w) then net sock_fd else not_open (net sock_fd), w).
(** sendStream(sock_fd, ...); FD_SET() of a negative descriptor is out of bounds. *)
Definition send_on (sock_fd : Z) (o : test_request_t) (res0 : test_result_t) : sys (Z * test_result_t * list Z) :=
  if (sock_fd <? 0) && negb ((bytes o =? 0) && (duration o =? 0)) then lift (Fault OutOfBounds)
  else
    e ← on_socket sock_fd;
    lift (sendStream (e_calloc e) (e_start e) (e_finish e) (e_tcp e) (e_rounds e) o res0).
(** incomingTest(sock_fd, ...) *)
Definition incoming_on (sock_fd : Z) : sys test_result_t :=
  e ← on_socket sock_fd; lift (incomingTest (e_finish e) (e_arrivals e)).
End Streams.

Section Ends.
Context {L : Type} `{Channel L} `{P : Protobuf Control} `{Codec hello_t} `{Codec send_t} `{Codec item_t} `{K : Kernel}.

Definition send_message (m : Control) (l : L) : Z * L := write_packet (pack m) l.
Definition read_ready (l : L) : Z * option Z * L :=
  let '(len, data, l) := read_packet l in
  if len <? 0 then (-1, None, l)
  else let '(r, port) := parse_control_ready AMP_TEST_THROUGHPUT data in if r <? 0 then (-1, None, l) else (0, port, l).
Definition read_result (l : L) : Z * option (list Z) * L :=
  let '(len, data, l) := read_packet l in
  if len <? 0 then (-1, None, l)
  else let '(r, d) := parse_control_result AMP_TEST_THROUGHPUT data in if r <? 0 then (-1, None, l) else (0, d, l).
Definition read_hello (l : L) : Z * option (option (res opt_t)) * L :=
  let '(len, data, l) := read_packet l in
  if len <? 0 then (-1, None, l)
  else
    let '(r, o) := parse_control_hello AMP_TEST_THROUGHPUT data true (Some (fun d => parse_hello (dec d))) in
    if r <? 0 then (-1, None, l) else (0, o, l).

(** ** The client *)

(** How an item of the schedule ends: with the next one, at the label [end], or with a
    NULL result; and the test socket. *)
Inductive step : Type := Next (sock : Z) (cur : test_request_t) | GotoEnd (sock : Z) (cur : test_request_t) | ReturnNull.
Definition with_result (cur : test_request_t) (r : test_result_t) : test_request_t := {|
  direction := direction cur; protocol := protocol cur; bytes := bytes cur; duration := duration cur;
  write_size := write_size cur; randomise := randomise cur; result := Some r |}.

Section Client.
Context (dest : sockaddr) (sockopts : server_opts) (net : Z -> test_env).

(** The test socket is opened again when the last test has closed it. *)
Definition renew_socket (test_socket : Z) (cur : test_request_t) (l : L) : sys (step * L) :=
  if test_socket <? 0 then
    let '(r, l) := send_message (renew_msg AMP_TEST_THROUGHPUT) l in
    if r <? 0 then mret (GotoEnd test_socket cur, l)
    else
      let '(r, tport, l) := read_ready l in
      if r <? 0 then mret (ReturnNull, l)
      else
        sock ← connect_to_server dest (default 0 tport) (Some sockopts);
        if sock =? -1 then mret (GotoEnd sock cur, l) else mret (Next sock cur, l)
  else mret (Next test_socket cur, l).

Definition client_receive (test_socket : Z) (cur : test_request_t) (l : L) : sys (step * L) :=
  let '(r, l) := send_message (send_msg AMP_TEST_THROUGHPUT (Some (enc (build_send cur)))) l in
  if r <? 0 then mret (GotoEnd test_socket cur, l)
  else
    result ← incoming_on net test_socket;
    _ ← close test_socket;
    let '(r, data, l) := read_result l in
    if r <? 0 then mret (ReturnNull, l)
    else
      info ← lift (match data with Some d => extract_tcpinfo (dec d) | None => Fault Uninitialised end);
      mret (Next (-1) (with_result cur {| r_bytes := r_bytes result; start_ns := start_ns result; end_ns := end_ns result;
                                          tcpinfo := info |}), l).

Definition client_send (test_socket : Z) (cur : test_request_t) (l : L) : sys (step * L) :=
  let '(_, l) := send_message (receive_msg AMP_TEST_THROUGHPUT None) l in
  let '(r, _, l) := read_ready l in
  if r <? 0 then mret (ReturnNull, l)
  else
    s ← send_on net test_socket cur result_init;
    let '(sent_result, result, _) := s in
    _ ← close test_socket;
    if sent_result =? 0 then
      let '(r, data, l) := read_result l in
      if r <? 0 then mret (ReturnNull, l)
      else
        match data with
        | None => lift (Fault Uninitialised)
        | Some d =>
            match dec d with
            | None => lift (Fault NullDeref)
            | Some item =>
                mret (Next (-1) (with_result cur {| r_bytes := default 0 (i_bytes item); start_ns := 0;
                                                    end_ns := default 0 (i_duration item); tcpinfo := tcpinfo result |}), l)
            end
        end
    else mret (Next (-1) (with_result cur result), l).

(** The loop over the schedule. *)
Fixpoint run_items (todo done_ : list test_request_t) (test_socket : Z) (l : L)
    : sys (option (list test_request_t) * Z * L) :=
  match todo with
  | [] => mret (Some done_, test_socket, l)
  | cur :: todo =>
      s ← renew_socket test_socket cur l;
      match s with
      | (ReturnNull, l) => mret (None, test_socket, l)
      | (GotoEnd sock cur, l) => mret (Some (done_ ++ cur :: todo), sock, l)
      | (Next sock cur, l) =>
          let continue s :=
            match s with
            | (ReturnNull, l) => mret (None, sock, l)
            | (GotoEnd sock cur, l) => mret (Some (done_ ++ cur :: todo), sock, l)
            | (Next sock cur, l) => run_items todo (done_ ++ [cur]) sock l
            end in
          match direction cur with
          | DIRECTION_NULL => run_items todo (done_ ++ [cur]) sock l
          | SERVER_TO_CLIENT => s ← client_receive sock cur l; continue s
          | CLIENT_TO_SERVER => s ← client_send sock cur l; continue s
          end
      end
  end.

(** runSchedule(): NULL or the report. *)
Definition runSchedule (start_time_ns : Z) (name : cstr) (options : opt_t) (l : L)
    : sys (option report_t * L) :=
  let finish schedule test_socket l :=
    _ ← (if negb (test_socket =? -1) then close test_socket else mret tt);
    mret (Some (report_results (start_time_ns / 1000000000) dest name
                  (with_schedule options (textual_schedule options) schedule)), l) in
  let '(r, l) := send_message (hello_msg AMP_TEST_THROUGHPUT (enc (build_hello options))) l in
  if r <? 0 then finish (schedule options) (-1) l
  else
    let '(r, tport, l) := read_ready l in
    if r <? 0 then mret (None, l)
    else
      test_socket ← connect_to_server dest (default 0 tport) (Some sockopts);
      if test_socket =? -1 then finish (schedule options) (-1) l
      else
        x ← run_items (schedule options) [] test_socket l;
        match x with
        | (None, _, l) => mret (None, l)
        | (Some schedule, test_socket, l) => finish schedule test_socket l
        end.
End Client.

(** ** The server *)

Section Server.
(** The port that getsockname() gives for a listening socket. *)
Context (socket_port : Z -> Z) (net : Z -> test_env).
Definition getSocketPort (sock_fd : Z) : res Z := _ ← c_assert (sock_fd >? 0); Ok (socket_port sock_fd).

Definition do_receive (test_sock : Z) (l : L) : sys (Z * L) :=
  let '(_, l) := send_message (ready_msg AMP_TEST_THROUGHPUT 0) l in
  result ← incoming_on net test_sock;
  let item := report_schedule {| direction := CLIENT_TO_SERVER; protocol := PROTOCOL_NONE; bytes := 0; duration := 0;
                                 write_size := 0; randomise := false; result := Some result |} in
  let '(r, l) := send_message (result_msg AMP_TEST_THROUGHPUT (enc item)) l in
  mret (if r <? 0 then -1 else 0, l).

Definition do_send (test_sock : Z) (options : opt_t) (request : test_request_t) (l : L) : sys (Z * L) :=
  let request := {| direction := direction request; protocol := o_protocol options; bytes := bytes request;
                    duration := duration request; write_size := write_size request; randomise := o_randomise options;
                    result := None |} in
  s ← send_on net test_sock request result_init;
  let '(r, result, _) := s in
  if r <? 0 then mret (-1, l)
  else
    let item := report_schedule {| direction := SERVER_TO_CLIENT; protocol := PROTOCOL_NONE; bytes := 0; duration := 0;
                                   write_size := 0; randomise := false; result := Some result |} in
    let '(r, l) := send_message (result_msg AMP_TEST_THROUGHPUT (enc item)) l in
    mret (if r <? 0 then -1 else 0, l).

(** The listening socket of the pair. *)
Definition listening_socket (s : socket_t) : Z := if Testlib.socket s >? 0 then Testlib.socket s else socket6 s.
Definition accept_one (t_listen : Z) : sys Z := accept_call t_listen.

Definition do_renew (port portmax : Z) (sockopts : server_opts) (l : L) : sys (Z * L) :=
  r ← listen_ports (Z.to_nat (portmax - port)) port portmax sockopts;
  let '(res, sockets) := r in
  if negb (res =? 0) then mret (-1, l)
  else
    let t_listen := listening_socket sockets in
    p ← lift (getSocketPort t_listen);
    let '(_, l) := send_message (ready_msg AMP_TEST_THROUGHPUT p) l in
    test_sock ← accept_one t_listen;
    if test_sock =? -1 then mret (-1, l)
    else _ ← close t_listen; mret (test_sock, l).

(** errorCleanup, and the end of the loop. *)
Definition cleanup (test_sock : Z) : sys unit := if negb (test_sock =? -1) then close test_sock else mret tt.

(** The loop over the messages of the client; a message that does not unpack is used all the same. *)
Fixpoint serve_loop (fuel : nat) (options : opt_t) (portmax : Z) (sockopts : server_opts)
    (test_sock : Z) (l : L) : sys (Z * L) :=
  match fuel with
  | O => lift (Fault OutOfFuel)
  | S fuel =>
      let '(len, data, l) := read_packet l in
      if negb (len >? 0) then _ ← cleanup test_sock; mret (0, l)
      else
        match unpack data with
        | None => lift (Fault NullDeref)
        | Some msg =>
            let again s :=
              let '(r, l) := s in
              if r <? 0 then _ ← cleanup test_sock; mret (-1, l)
              else _ ← close test_sock; serve_loop fuel options portmax sockopts (-1) l in
            let type := default 0 (c_type msg) in
            if type =? TYPE_RECEIVE then
              let '(r, _) := @parse_control_receive P unit AMP_TEST_THROUGHPUT data false None in
              if r <? 0 then _ ← cleanup test_sock; mret (-1, l)
              else s ← do_receive test_sock l; again s
            else if type =? TYPE_SEND then
              let '(r, o) := parse_control_send AMP_TEST_THROUGHPUT data true (Some (fun d => parse_send (dec d))) in
              if r <? 0 then _ ← cleanup test_sock; mret (-1, l)
              else match o with
                   | Some (Some request) =>
                       request ← lift request; s ← do_send test_sock options request l; again s
                   | _ => lift (Fault NullDeref)
                   end
            else if type =? TYPE_RENEW then
              s ← do_renew (tport options) portmax sockopts l;
              let '(test_sock, l) := s in
              if test_sock <? 0 then _ ← cleanup test_sock; mret (-1, l)
              else serve_loop fuel options portmax sockopts test_sock l
            else serve_loop fuel options portmax sockopts test_sock l
        end
  end.

Definition DEFAULT_TEST_PORT : Z := 8826.
Definition MAX_TEST_PORT : Z := 8836.
Definition with_dscp (o : server_opts) (d : Z) : server_opts := {|
  so_opts := {| Testlib.sock_mss := Testlib.sock_mss (so_opts o);
                Testlib.sock_disable_nagle := Testlib.sock_disable_nagle (so_opts o);
                Testlib.sock_rcvbuf := Testlib.sock_rcvbuf (so_opts o); Testlib.sock_sndbuf := Testlib.sock_sndbuf (so_opts o);
                Testlib.reuse_addr := Testlib.reuse_addr (so_opts o); Testlib.dscp := d |};
  device := device o; socktype := socktype o; sourcev4 := sourcev4 o; sourcev6 := sourcev6 o |}.

Definition with_tport (o : opt_t) (p : Z) : opt_t := {|
  o_protocol := o_protocol o; cport := cport o; tport := p; o_write_size := o_write_size o;
  sock_mss := sock_mss o; sock_disable_nagle := sock_disable_nagle o; o_randomise := o_randomise o;
  disable_web10g := disable_web10g o; reuse_addr := reuse_addr o; sock_rcvbuf := sock_rcvbuf o;
  sock_sndbuf := sock_sndbuf o; o_dscp := o_dscp o; textual_schedule := textual_schedule o; schedule := schedule o |}.
(** The first port from [port] on that can be had, and its number. *)
Fixpoint listen_from (more : nat) (port portmax : Z) (o : server_opts) : sys (Z * socket_t * Z) :=
  r ← start_listening port o;
  if (fst r =? EADDRINUSE) && (port <? portmax) then
    match more with O => mret (r, port) | S more => listen_from more (u16 (port + 1)) portmax o end
  else mret (r, port).

(** serveTest(): the port that could be had is kept in the options, for the renewals. *)
Definition serveTest (fuel : nat) (sockopts : server_opts) (l : L) : sys (Z * L) :=
  let '(r, o, l) := read_hello l in
  if r <? 0 then mret (-1, l)
  else
    match o with
    | Some (Some options) =>
        options ← lift options;
        let sockopts := with_dscp sockopts (o_dscp options) in
        let portmax := if tport options =? DEFAULT_TEST_PORT then MAX_TEST_PORT else tport options in
        r ← listen_from (Z.to_nat (portmax - tport options)) (tport options) portmax sockopts;
        let '(res, sockets, tport') := r in
        if negb (res =? 0) then mret (-1, l)
        else
          _ ← lift (c_assert ((Testlib.socket sockets >? 0) || (socket6 sockets >? 0)));
          let t_listen := listening_socket sockets in
          p ← lift (getSocketPort t_listen);
          let '(_, l) := send_message (ready_msg AMP_TEST_THROUGHPUT p) l in
          test_sock ← accept_one t_listen;
          _ ← close t_listen;
          serve_loop fuel (with_tport options tport') portmax sockopts test_sock l
    | _ => lift (Fault NullDeref)
    end.
End Server.
End Ends.

(** ** Both ends together *)

(** Numbers of descriptors are not used again, and calls are only added to the trace. *)
Definition grows {A} (m : sys A) : Prop := forall w a w',
  world_ok w -> m w = Ok (a, w') -> world_ok w' /\ next_fd w <= next_fd w' /\ trace w `prefix_of` trace w'.
Lemma grows_ret {A} (a : A) : grows (mret a).
Proof. intros w a' w' Hw [= _ <-]. done. Qed.
Lemma grows_bind {A B} (m : sys A) (k : A -> sys B) : grows m -> (forall a, grows (k a)) -> grows (m ≫= k).
Proof.
  intros Hm Hk w b w' Hw. unfold mbind, sys_bind. destruct (m w) as [[a w1]|] eqn:E; [|done]. intros H.
  destruct (Hm _ _ _ Hw E) as (Hw1 & Hn1 & Hp1). destruct (Hk _ _ _ _ Hw1 H) as (Hw2 & Hn2 & Hp2).
  split; [done|]. split; [lia|by etrans].
Qed.
Lemma grows_lift {A} (m : res A) : grows (lift m).
Proof. intros w a w' Hw. unfold lift. destruct m; [|done]. by intros [= _ <-]. Qed.
Lemma grows_log cs : grows (log cs).
Proof. intros w a w' Hw [= _ <-]. split; [done|]. split; [cbn; lia|by eexists]. Qed.
Lemma grows_close fd : grows (close fd).
Proof.
  intros w a w' [Hn Hf] [= _ <-]. split; [|split; [cbn; lia|by eexists]]. split; [done|]. cbn. apply Forall_forall.
  intros x [_ Hx]%list_elem_of_filter. eapply Forall_forall in Hf; [|exact Hx]. done.
Qed.
Lemma grows_open ok c : grows (open_fd ok c).
Proof.
  intros w a w' [Hn Hf]. unfold open_fd. destruct ok; intros [= _ <-]; [|done]. split; [|split; [cbn; lia|by eexists]].
  split; cbn; [lia|]. constructor; [lia|]. eapply Forall_impl; [exact Hf|]. cbn. lia.
Qed.
Lemma grows_socket `{Kernel} family : grows (socket_call family).
Proof. intros w a w'. apply grows_open. Qed.
Ltac grows := repeat first
  [ match goal with H : forall _, grows _ |- _ => apply H end
  | apply grows_ret | apply grows_bind; [|intros ?] | apply grows_lift | apply grows_log | apply grows_close
  | apply grows_open | apply grows_socket | progress case_match | assumption ].
Lemma grows_start_listening `{Kernel} port o : grows (start_listening port o).
Proof. unfold start_listening, open_sockets, setup, listen_bound, listen_v4, listen_v6, close_open. grows. Qed.
Lemma grows_connect_loop `{Kernel} sock dest port : forall more attempts, grows (connect_loop more attempts sock dest port).
Proof. induction more as [|more IH]; intros attempts; cbn [connect_loop]; grows. Qed.
Lemma grows_connect `{Kernel} dest port o : grows (connect_to_server dest port o).
Proof. pose proof (grows_connect_loop). unfold connect_to_server, setup, bind_local. grows. Qed.

Section Exchange.
Context `{P : Protobuf Control, !ProtobufLaws Control}.
Context (hello_ok : hello_t -> Prop) (send_ok : send_t -> Prop) (item_ok : item_t -> Prop).
Context `{CH : Codec hello_t, !CodecLaws hello_t hello_ok} `{CS : Codec send_t, !CodecLaws send_t send_ok}.
Context `{CI : Codec item_t, !CodecLaws item_t item_ok}.

(** The request of a test as the server sees it, with the options of the client. *)
Definition seen_request (o : opt_t) (cur : test_request_t) : test_request_t := {|
  direction := DIRECTION_NULL; protocol := o_protocol o; bytes := bytes cur; duration := duration cur;
  write_size := write_size cur; randomise := o_randomise o; result := None |}.
Definition server_item (d : direction_t) (r : test_result_t) : item_t :=
  report_schedule {| direction := d; protocol := PROTOCOL_NONE; bytes := 0; duration := 0; write_size := 0;
                     randomise := false; result := Some r |}.
Definition received (e : test_env) (out : list Z) : test_result_t := {|
  r_bytes := Z.of_nat (length out); start_ns := first_arrival (e_arrivals e); end_ns := e_finish e; tcpinfo := None |}.

(** A test whose data arrives, the environments of the client and of the server, and
    the result that the client is to report. *)
Inductive test_run (o : opt_t) (cur : test_request_t) (c s : test_env) : test_result_t -> Prop :=
| client_sends r out :
    direction cur = CLIENT_TO_SERVER ->
    sendStream (e_calloc c) (e_start c) (e_finish c) (e_tcp c) (e_rounds c) cur result_init = Ok (0, r, out) ->
    whole (e_arrivals s) -> arrived (e_arrivals s) = out -> 0 < Z.of_nat (length out) < 18446744073709551616 ->
    item_ok (server_item CLIENT_TO_SERVER (received s out)) ->
    test_run o cur c s {| r_bytes := Z.of_nat (length out); start_ns := 0;
      end_ns := u64 (e_finish s - first_arrival (e_arrivals s)); tcpinfo := tcpinfo r |}
| server_sends r out :
    direction cur = SERVER_TO_CLIENT ->
    send_ok (build_send cur) ->
    sendStream (e_calloc s) (e_start s) (e_finish s) (e_tcp s) (e_rounds s) (seen_request o cur) result_init = Ok (0, r, out) ->
    whole (e_arrivals c) -> arrived (e_arrivals c) = out -> 0 < Z.of_nat (length out) < 18446744073709551616 ->
    item_ok (server_item SERVER_TO_CLIENT r) ->
    test_run o cur c s {| r_bytes := Z.of_nat (length out); start_ns := first_arrival (e_arrivals c);
      end_ns := e_finish c; tcpinfo := tcpinfo r |}.

(** A schedule, with a socket at each end for every test that is run. *)
Inductive runs (net_c net_s : Z -> test_env) (o : opt_t)
    : list test_request_t -> list Z -> list Z -> list test_request_t -> Prop :=
| runs_nil : runs net_c net_s o [] [] [] []
| runs_null cur l cs ss l' :
    direction cur = DIRECTION_NULL -> runs net_c net_s o l cs ss l' -> runs net_c net_s o (cur :: l) cs ss (cur :: l')
| runs_test cur c s r l cs ss l' :
    test_run o cur (net_c c) (net_s s) r -> runs net_c net_s o l cs ss l' ->
    runs net_c net_s o (cur :: l) (c :: cs) (s :: ss) (with_result cur r :: l').

(** *** Messages *)

Ltac msg_valid := cbn; unfold control_valid, uint, AMP_TEST_THROUGHPUT; cbn; repeat split; (done || lia).

Lemma read_ready_ok p rest out :
  0 <= p < 65536 ->
  read_ready {| inq := pack (ready_msg AMP_TEST_THROUGHPUT p) :: rest; outq := out |} = (0, Some p, {| inq := rest; outq := out |}).
Proof using ProtobufLaws0.
  intros Hp. unfold read_ready, parse_control_ready. cbn [read_packet queue_channel inq outq].
  rewrite nonneg_length. erewrite unpack_as_pack; [|msg_valid|done|done].
  rewrite !bool_decide_eq_true_2 by done. cbn. by rewrite u16_id.
Qed.
Lemma read_result_ok d rest out :
  bytes_ok d ->
  read_result {| inq := pack (result_msg AMP_TEST_THROUGHPUT d) :: rest; outq := out |} = (0, Some d, {| inq := rest; outq := out |}).
Proof using ProtobufLaws0.
  intros Hd. unfold read_result, parse_control_result. cbn [read_packet queue_channel inq outq].
  rewrite nonneg_length. erewrite unpack_as_pack; [|msg_valid|done|done].
  by rewrite !bool_decide_eq_true_2 by done.
Qed.
Lemma send_queue m q : send_message m q = (Z.of_nat (length (pack m)), {| inq := inq q; outq := outq q ++ [pack m] |}).
Proof using. done. Qed.

(** *** Sockets *)

(** The test socket is the only descriptor open besides [fds0], or there is none. *)
Definition open_at (fds0 : list Z) (sock : Z) (w : world) : Prop :=
  world_ok w /\ ((sock = -1 /\ fds w = fds0) \/ 0 < sock /\ (sock ∉ fds0) /\ fds w = sock :: fds0).

Lemma filter_absent (x : Z) (l : list Z) : x ∉ l -> filter (fun y => y <> x) l = l.
Proof using.
  induction l as [|y l IH]; [done|]. rewrite not_elem_of_cons. intros [Hy Hl]. by rewrite filter_cons_True, IH by done.
Qed.
Lemma close_test fds0 sock w :
  open_at fds0 sock w -> 0 < sock -> exists w', close sock w = Ok (tt, w') /\ open_at fds0 (-1) w' /\
    next_fd w' = next_fd w /\ trace w `prefix_of` trace w'.
Proof using.
  intros [[Hn Hf] [[-> _]|(_ & Hin & E)]] Hs; [lia|]. eexists. split; [done|].
  assert (Hc : filter (fun y => y <> sock) (fds w) = fds0).
  { rewrite E, filter_cons_False by naive_solver. by apply filter_absent. }
  split; [|split; [done|by eexists]]. split; [|left; split; [done|exact Hc]]. split; [done|]. cbn [fds next_fd]. rewrite Hc.
  rewrite E in Hf. by inversion Hf.
Qed.
Lemma open_below fds0 sock w : open_at fds0 sock w -> sock < next_fd w.
Proof using.
  intros [[Hn Hf] [[-> _]|(_ & _ & E)]]; [lia|]. rewrite E in Hf. by inversion Hf.
Qed.
(** A stream on the test socket is what the network does to it. *)
Lemma incoming_open net fds0 sock w :
  open_at fds0 sock w -> 0 < sock ->
  incoming_on net sock w = lift (incomingTest (e_finish (net sock)) (e_arrivals (net sock))) w.
Proof using.
  intros [_ [[-> _]|(_ & _ & E)]] Hs; [lia|]. unfold incoming_on, on_socket, mbind, sys_bind.
  by rewrite bool_decide_eq_true_2 by (rewrite E; left).
Qed.
Lemma send_open net fds0 sock o r0 w :
  open_at fds0 sock w -> 0 < sock ->
  let e := net sock in
  send_on net sock o r0 w = lift (sendStream (e_calloc e) (e_start e) (e_finish e) (e_tcp e) (e_rounds e) o r0) w.
Proof using.
  intros [_ [[-> _]|(_ & _ & E)]] Hs; [lia|]. unfold send_on, on_socket, mbind, sys_bind.
  rewrite (proj2 (Z.ltb_ge sock 0)) by lia. cbn [andb]. by rewrite bool_decide_eq_true_2 by (rewrite E; left).
Qed.

Context (Kc Ks : Kernel) (dest : sockaddr) (so_c so_s : server_opts) (socket_port : Z -> Z) (pmax : Z).
(** The client can connect.  Listening on a port fails only because it is in use, which the
    last port of the range is not; it is for one family.  Connections come. *)
Definition connects_ok : Prop := forall port w sock w',
  world_ok w -> @connect_to_server Kc dest port (Some so_c) w = Ok (sock, w') -> sock <> -1.
Definition listens_ok : Prop := forall d port w res s w',
  world_ok w -> @start_listening Ks port (with_dscp so_s d) w = Ok ((res, s), w') ->
  res = 0 /\ length (owned s) = 1%nat \/ res = EADDRINUSE /\ port <> pmax.
Definition accepts_ok : Prop := forall fd, @k_accept Ks fd = true.
Definition ports_ok : Prop := forall fd, 0 <= socket_port fd < 65536.
Hypothesis (Hconn : connects_ok) (Hlisten : listens_ok) (Haccept : accepts_ok) (Hport : ports_ok) (Hmax : pmax < 65536).

(** Two sockets are the ends of a connection: the client has connected to the port of the
    listening socket on which the server has accepted. *)
Definition linked (wc ws : world) (c s : Z) : Prop :=
  exists lfd, Accept lfd s ∈ trace ws /\ Connect c dest (socket_port lfd) ∈ trace wc.
Lemma linked_later wc ws wc' ws' c s :
  trace wc `prefix_of` trace wc' -> trace ws `prefix_of` trace ws' -> linked wc ws c s -> linked wc' ws' c s.
Proof using. intros [k1 E1] [k2 E2] (lfd & Ha & Hc). exists lfd. rewrite E1, E2, !elem_of_app. auto. Qed.

Lemma connect_test fds0 w port :
  open_at fds0 (-1) w ->
  exists sock w', @connect_to_server Kc dest port (Some so_c) w = Ok (sock, w') /\ 0 < sock /\ open_at fds0 sock w' /\
    next_fd w <= sock /\ next_fd w <= next_fd w' /\ trace w `prefix_of` trace w' /\ Connect sock dest port ∈ trace w'.
Proof using Hconn.
  intros [Hw [[_ E]|[? _]]]; [|lia]. pose proof (@connect_to_server_post Kc dest port (Some so_c) w (proj1 Hw)) as Hp. unfold wp in Hp.
  destruct (@connect_to_server Kc dest port (Some so_c) w) as [[sock w']|] eqn:Ec; [|done].
  destruct (@grows_connect Kc _ _ _ _ _ _ Hw Ec) as (Hw' & Hn & Hpre). pose proof (Hconn _ _ _ _ Hw Ec) as Hne.
  destruct Hp as (cs & Et & _ & [(-> & Ef & Hl)|[-> _]]); [|done]. destruct Hw as [Hn0 Hf].
  exists (next_fd w), w'. split_and!; try done.
  - split; [done|]. right. split; [done|]. rewrite <- E. split; [|done]. intros Hin.
    eapply Forall_forall in Hf; [|exact Hin]. cbn in Hf. lia.
  - rewrite Et. apply elem_of_app. right. by apply last_Some_elem_of.
Qed.

(** The socket that a connection is accepted on is closed after it. *)
Lemma accept_test fds0 t_listen w :
  open_at fds0 t_listen w -> 0 < t_listen ->
  exists sock w1 w2, @accept_one Ks t_listen w = Ok (sock, w1) /\ close t_listen w1 = Ok (tt, w2) /\ 0 < sock /\
    open_at fds0 sock w2 /\ next_fd w <= sock /\ next_fd w <= next_fd w2 /\ trace w `prefix_of` trace w2 /\
    Accept t_listen sock ∈ trace w2.
Proof using Haccept.
  intros [[Hn Hf] [[-> _]|(_ & Hin & E)]] Ht; [lia|]. unfold accept_one, accept_call, open_fd. rewrite Haccept.
  eexists _, _, _. split; [done|]. split; [done|]. split; [done|]. rewrite E in Hf. inversion Hf as [|? ? Hlt Hf0 E0]; subst.
  assert (Hne : next_fd w <> t_listen) by lia.
  assert (Hc : filter (fun y => y <> t_listen) (next_fd w :: fds w) = next_fd w :: fds0).
  { rewrite filter_cons_True by done. rewrite E, filter_cons_False by naive_solver. by rewrite filter_absent. }
  split; [split; [|right; split; [done|]; split; [|exact Hc]]|].
  - split; [cbn; lia|]. cbn [fds next_fd]. rewrite Hc. constructor; [lia|]. eapply Forall_impl; [exact Hf0|]. cbn. lia.
  - intros Hx. rewrite Forall_forall in Hf0. specialize (Hf0 _ Hx). cbn in Hf0. lia.
  - cbn. split_and!; [lia|lia|by rewrite <- app_assoc; eexists|]. rewrite !elem_of_app. left. right. left.
Qed.

Lemma socket_port_ok fd : 0 < fd -> getSocketPort socket_port fd = Ok (socket_port fd).
Proof using. intros Hf. unfold getSocketPort. by rewrite (proj2 (Z.gtb_lt fd 0)) by lia. Qed.

(** Listening on one port. *)
Definition listening (fds0 : list Z) (w : world) (s : socket_t) (w' : world) : Prop :=
  0 < listening_socket s /\ open_at fds0 (listening_socket s) w' /\ next_fd w <= next_fd w' /\ trace w `prefix_of` trace w'.
Lemma listen_once fds0 d port w :
  open_at fds0 (-1) w ->
  exists res s w', @start_listening Ks port (with_dscp so_s d) w = Ok ((res, s), w') /\
    (res = 0 /\ listening fds0 w s w' \/
     res = EADDRINUSE /\ port <> pmax /\ open_at fds0 (-1) w' /\ next_fd w <= next_fd w' /\ trace w `prefix_of` trace w').
Proof using Hlisten.
  intros [Hw [[_ E]|[? _]]]; [|lia]. pose proof (@wp_start_listening Ks port (with_dscp so_s d) w Hw) as Hp. unfold wp in Hp.
  destruct (@start_listening Ks port (with_dscp so_s d) w) as [[[res s] w']|] eqn:Es; [|done]. exists res, s, w'. split; [done|].
  destruct (@grows_start_listening Ks _ _ _ _ _ Hw Es) as (Hw' & Hn & Hpre).
  destruct (Hlisten _ _ _ _ _ _ Hw Es) as [[-> Hone]|[-> Hne]].
  - left. split; [done|]. destruct Hp as [(_ & (Ef & _ & _ & _ & H4 & H6) & Hs & _)|[(? & _)|(? & _)]]; [|done..].
    destruct Hw as [Hn0 Hf0]. unfold owned in Ef, Hone.
    assert (Hl : 0 < listening_socket s /\ next_fd w <= listening_socket s /\ owned s = [listening_socket s]).
    { unfold listening_socket, owned in *. destruct (Z.le_gt_cases 0 (Testlib.socket s)) as [G4|G4], (Z.le_gt_cases 0 (socket6 s)) as [G6|G6].
      - rewrite !filter_cons_True in Hone by done. cbn in Hone. lia.
      - rewrite filter_cons_False, filter_cons_True by lia. destruct (H4 G4). rewrite (proj2 (Z.gtb_lt _ _)) by lia. done || (split_and!; [lia|lia|done]).
      - rewrite filter_cons_True, filter_cons_False by lia. specialize (H6 G6).
        destruct (Z.gtb_spec (Testlib.socket s) 0); [lia|]. split_and!; [lia|lia|done].
      - lia. }
    destruct Hl as (Hl0 & Hl1 & Hown). unfold owned in Hown. rewrite Hown in Ef. split_and!; [done| |lia|done].
    split; [done|]. right. split; [done|]. rewrite <- E. split; [|done]. intros Hin.
    eapply Forall_forall in Hf0; [|exact Hin]. cbn in Hf0. lia.
  - right. destruct Hp as [(? & _)|[(_ & Ef & _)|(? & _)]]; [done| |done]. split_and!; try done.
    split; [done|]. left. by rewrite Ef.
Qed.
(** The ports of the range are tried up to one that can be had. *)
Lemma listen_range fds0 d : forall more port w,
  open_at fds0 (-1) w -> 0 <= port -> port + Z.of_nat more = pmax ->
  exists s p w', listening fds0 w s w' /\ port <= p <= pmax /\
    @listen_ports Ks more port pmax (with_dscp so_s d) w = Ok ((0, s), w') /\
    listen_from (K:=Ks) more port pmax (with_dscp so_s d) w = Ok ((0, s, p), w').
Proof using Hlisten Hmax.
  induction more as [|more IH]; intros port w Ho H0 Hp;
    destruct (listen_once fds0 d port w Ho) as (res & s & w1 & Es & [[-> Hl]|(-> & Hne & Ho1 & Hn1 & Hp1)]).
  - exists s, port, w1. cbn [listen_ports listen_from]. unfold mbind, sys_bind. rewrite Es. split_and!; (done || lia).
  - lia.
  - exists s, port, w1. cbn [listen_ports listen_from]. unfold mbind, sys_bind. rewrite Es. split_and!; (done || lia).
  - destruct (IH (port + 1) w1 Ho1 ltac:(lia) ltac:(lia)) as (s2 & p & w2 & (H1 & H2 & H3 & H4) & Hr & E1 & E2).
    exists s2, p, w2. cbn [listen_ports listen_from]. unfold mbind, sys_bind. rewrite Es. cbn [fst].
    change (EADDRINUSE =? EADDRINUSE) with true. rewrite (proj2 (Z.ltb_lt port pmax)), u16_id by lia. cbn [andb].
    rewrite E1, E2. split; [split_and!; [done|done|lia|by etrans]|]. split; [lia|done].
Qed.

Lemma do_renew_ok fds0 w port d :
  open_at fds0 (-1) w -> 0 <= port <= pmax ->
  exists lfd sock w', 0 < sock /\ open_at fds0 sock w' /\ next_fd w <= sock /\ next_fd w <= next_fd w' /\
    trace w `prefix_of` trace w' /\ Accept lfd sock ∈ trace w' /\ forall q,
    @do_renew queues _ P Ks socket_port port pmax (with_dscp so_s d) q w
    = Ok ((sock, {| inq := inq q; outq := outq q ++ [pack (ready_msg AMP_TEST_THROUGHPUT (socket_port lfd))] |}), w').
Proof using Hlisten Haccept Hport Hmax.
  intros Ho Hp. destruct (listen_range fds0 d (Z.to_nat (pmax - port)) port w Ho) as (s & p & w1 & (Hs & Ho1 & Hn1 & Hp1) & _ & Hl & _); [lia..|].
  destruct (accept_test fds0 (listening_socket s) w1) as (sock & w2 & w3 & Ha & Hc & Hsock & Hos & Hn3 & Hn4 & Hp3 & Hacc); [done..|].
  exists (listening_socket s), sock, w3. do 2 (split; [done|]). do 2 (split; [lia|]). split; [by etrans|]. split; [done|]. intros q.
  unfold do_renew. unfold mbind, sys_bind. rewrite Hl. cbn [Z.eqb negb]. rewrite socket_port_ok by done. unfold lift. rewrite send_queue, Ha.
  rewrite (proj2 (Z.eqb_neq sock (-1))) by lia. by rewrite Hc.
Qed.

(** *** One test *)

Lemma item_bytes i : item_ok i -> bytes_ok (enc i).
Proof using CodecLaws2. apply enc_bytes. Qed.

Lemma client_send_ok net fds0 s cur r out sock w w' :
  let c := net sock in
  sendStream (e_calloc c) (e_start c) (e_finish c) (e_tcp c) (e_rounds c) cur result_init = Ok (0, r, out) ->
  let item := server_item CLIENT_TO_SERVER (received s out) in
  item_ok item -> open_at fds0 sock w -> 0 < sock -> close sock w = Ok (tt, w') -> forall rest q,
    client_send net sock cur {| inq := pack (ready_msg AMP_TEST_THROUGHPUT 0) ::
                                     pack (result_msg AMP_TEST_THROUGHPUT (enc item)) :: rest; outq := q |} w
    = Ok ((Next (-1) (with_result cur {| r_bytes := Z.of_nat (length out); start_ns := 0;
             end_ns := u64 (e_finish s - first_arrival (e_arrivals s)); tcpinfo := tcpinfo r |}),
           {| inq := rest; outq := q ++ [pack (receive_msg AMP_TEST_THROUGHPUT None)] |}), w').
Proof using ProtobufLaws0 CodecLaws2.
  intros c Hs item Hi Ho Hsock Hc rest q. unfold client_send. rewrite send_queue. cbn [inq outq].
  rewrite read_ready_ok by lia. cbn [Z.ltb Z.compare].
  unfold mbind, sys_bind. rewrite (send_open net fds0) by done. unfold lift. fold c. rewrite Hs, Hc. cbn [Z.eqb].
  rewrite read_result_ok by (by apply item_bytes). cbn [Z.ltb Z.compare]. by rewrite (dec_enc item Hi).
Qed.

Lemma client_receive_ok net fds0 cur r out sock w w' :
  let c := net sock in
  whole (e_arrivals c) -> arrived (e_arrivals c) = out -> 0 < Z.of_nat (length out) < 18446744073709551616 ->
  let item := server_item SERVER_TO_CLIENT r in
  item_ok item -> open_at fds0 sock w -> 0 < sock -> close sock w = Ok (tt, w') -> forall rest q,
    client_receive net sock cur {| inq := pack (result_msg AMP_TEST_THROUGHPUT (enc item)) :: rest; outq := q |} w
    = Ok ((Next (-1) (with_result cur {| r_bytes := Z.of_nat (length out); start_ns := first_arrival (e_arrivals c);
             end_ns := e_finish c; tcpinfo := tcpinfo r |}),
           {| inq := rest; outq := q ++ [pack (send_msg AMP_TEST_THROUGHPUT (Some (enc (build_send cur))))] |}), w').
Proof using ProtobufLaws0 CodecLaws2.
  intros c Hw <- Hb item Hi Ho Hsock Hc rest q. unfold client_receive. rewrite send_queue, nonneg_length. cbn [inq outq].
  unfold mbind, sys_bind. rewrite (incoming_open net fds0) by done. unfold lift. fold c. rewrite incoming_spec, Hc by done.
  rewrite read_result_ok by (by apply item_bytes). cbn [Z.ltb Z.compare]. by rewrite (dec_enc item Hi).
Qed.

Section Serving.
Context (opts : opt_t) (d : Z).
Hypothesis (Htport : 0 <= tport opts <= pmax).
Abbreviation serve net fuel sock q := (serve_loop (K:=Ks) socket_port net fuel opts pmax (with_dscp so_s d) sock q).

(** A message of the client is unpacked, and its type selects the case. *)
Lemma message_read net fuel sock m rest q w t :
  valid m -> c_type m = Some t ->
  serve net (S fuel) sock {| inq := pack m :: rest; outq := q |} w =
    (let l := {| inq := rest; outq := q |} in
     let again s :=
       let '(r, l) := s in
       if r <? 0 then _ ← cleanup sock; mret (-1, l) else _ ← close sock; serve net fuel (-1) l in
     if t =? TYPE_RECEIVE then
       let '(r, _) := @parse_control_receive P unit AMP_TEST_THROUGHPUT (pack m) false None in
       if r <? 0 then _ ← cleanup sock; mret (-1, l)
       else s ← do_receive net sock l; again s
     else if t =? TYPE_SEND then
       let '(r, o) := parse_control_send AMP_TEST_THROUGHPUT (pack m) true (Some (fun d => parse_send (dec d))) in
       if r <? 0 then _ ← cleanup sock; mret (-1, l)
       else match o with
            | Some (Some request) => request ← lift request; s ← do_send net sock opts request l; again s
            | _ => lift (Fault NullDeref)
            end
     else if t =? TYPE_RENEW then
       s ← @do_renew queues _ P Ks socket_port (tport opts) pmax (with_dscp so_s d) l;
       let '(sock, l) := s in
       if sock <? 0 then _ ← cleanup sock; mret (-1, l) else serve net fuel sock l
     else serve net fuel sock l) w.
Proof using ProtobufLaws0.
  intros Hv Ht. cbn [serve_loop]. cbn [read_packet queue_channel inq outq].
  rewrite (proj2 (Z.gtb_lt _ 0)) by (by eapply pack_positive). cbn [negb]. by rewrite unpack_pack, Ht by done.
Qed.

Lemma serve_receive_ok net fds0 out sock w w' :
  let s := net sock in
  whole (e_arrivals s) -> arrived (e_arrivals s) = out -> 0 < Z.of_nat (length out) < 18446744073709551616 ->
  let item := server_item CLIENT_TO_SERVER (received s out) in
  open_at fds0 sock w -> 0 < sock -> close sock w = Ok (tt, w') -> forall fuel rest q,
    serve net (S fuel) sock {| inq := pack (receive_msg AMP_TEST_THROUGHPUT None) :: rest; outq := q |} w
    = serve net fuel (-1) {| inq := rest; outq := q ++ [pack (ready_msg AMP_TEST_THROUGHPUT 0);
                                                        pack (result_msg AMP_TEST_THROUGHPUT (enc item))] |} w'.
Proof using ProtobufLaws0.
  intros s Hw <- Hb item Ho Hsock Hc fuel rest q. rewrite (message_read _ _ _ _ _ _ _ TYPE_RECEIVE) by (done || msg_valid). cbv zeta.
  change (TYPE_RECEIVE =? TYPE_RECEIVE) with true. unfold parse_control_receive.
  erewrite unpack_as_pack by (done || msg_valid). rewrite !bool_decide_eq_true_2 by done. cbn [andb c_receive receive_msg].
  unfold lacks_options. rewrite bool_decide_eq_false_2 by (by intros []). cbn [andb Z.ltb Z.compare].
  unfold do_receive. rewrite !send_queue. unfold mbind, sys_bind. rewrite (incoming_open net fds0) by done. unfold lift. fold s.
  rewrite incoming_spec by done. rewrite send_queue.
  unfold mret, sys_ret. rewrite nonneg_length. cbn [Z.ltb Z.compare]. rewrite Hc. cbn [inq outq]. by rewrite <- app_assoc.
Qed.

Lemma serve_send_ok net fds0 cur r out sock w w' :
  send_ok (build_send cur) ->
  let s := net sock in
  sendStream (e_calloc s) (e_start s) (e_finish s) (e_tcp s) (e_rounds s) (seen_request opts cur) result_init = Ok (0, r, out) ->
  let item := server_item SERVER_TO_CLIENT r in
  open_at fds0 sock w -> 0 < sock -> close sock w = Ok (tt, w') -> forall fuel rest q,
    serve net (S fuel) sock
      {| inq := pack (send_msg AMP_TEST_THROUGHPUT (Some (enc (build_send cur)))) :: rest; outq := q |} w
    = serve net fuel (-1) {| inq := rest; outq := q ++ [pack (result_msg AMP_TEST_THROUGHPUT (enc item))] |} w'.
Proof using ProtobufLaws0 CodecLaws1.
  intros Hok s Hs item Ho Hsock Hc.
  assert (Hv : valid (send_msg AMP_TEST_THROUGHPUT (Some (enc (build_send cur))))).
  { pose proof (enc_bytes (build_send cur) Hok). msg_valid. }
  intros fuel rest q. rewrite (message_read _ _ _ _ _ _ _ TYPE_SEND) by done. cbv zeta.
  change (TYPE_SEND =? TYPE_RECEIVE) with false. change (TYPE_SEND =? TYPE_SEND) with true. unfold parse_control_send.
  erewrite unpack_as_pack by done. rewrite !bool_decide_eq_true_2 by done. cbn [andb c_send send_msg].
  unfold lacks_options, store_options. cbn [send_options]. rewrite !bool_decide_eq_true_2 by (by eexists). cbn [andb negb Z.ltb Z.compare].
  cbn [fmap option_fmap option_map]. rewrite (dec_enc (build_send cur) Hok). unfold do_send, parse_send, mbind, sys_bind.
  cbn [lift direction protocol bytes duration write_size randomise build_send send_bytes send_duration send_write_size].
  unfold seen_request in Hs. rewrite (send_open net fds0) by done. unfold lift. fold s.
  rewrite Hs. cbn [Z.ltb Z.compare]. rewrite send_queue.
  unfold mret, sys_ret. rewrite nonneg_length. cbn [Z.ltb Z.compare]. by rewrite Hc.
Qed.

Lemma serve_renew_ok fds0 w :
  open_at fds0 (-1) w ->
  exists lfd sock w', 0 < sock /\ open_at fds0 sock w' /\ next_fd w <= sock /\ next_fd w <= next_fd w' /\
    trace w `prefix_of` trace w' /\ Accept lfd sock ∈ trace w' /\ forall net fuel rest q,
    serve net (S fuel) (-1) {| inq := pack (renew_msg AMP_TEST_THROUGHPUT) :: rest; outq := q |} w
    = serve net fuel sock {| inq := rest; outq := q ++ [pack (ready_msg AMP_TEST_THROUGHPUT (socket_port lfd))] |} w'.
Proof using ProtobufLaws0 Hlisten Haccept Hport Hmax Htport.
  intros Ho. destruct (do_renew_ok fds0 w (tport opts) d Ho Htport) as (lfd & sock & w' & Hs & Ho' & Hn1 & Hn2 & Hp & Ha & Hr).
  exists lfd, sock, w'. do 6 (split; [done|]). intros net fuel rest q.
  rewrite (message_read _ _ _ _ _ _ _ TYPE_RENEW) by (done || msg_valid). cbv zeta.
  change (TYPE_RENEW =? TYPE_RECEIVE) with false. change (TYPE_RENEW =? TYPE_SEND) with false.
  change (TYPE_RENEW =? TYPE_RENEW) with true. unfold mbind, sys_bind. rewrite Hr.
  by rewrite (proj2 (Z.ltb_ge sock 0)) by lia.
Qed.

(** *** The whole schedule *)

(** Both ends have a test socket, or neither, and the two are linked. *)
Definition paired (fc fs : list Z) (sc ss : Z) (wc ws : world) : Prop :=
  open_at fc sc wc /\ open_at fs ss ws /\ (0 < sc <-> 0 < ss) /\ (0 < sc -> linked wc ws sc ss).
(** The worlds after some calls. *)
Definition later (w w' : world) : Prop := next_fd w <= next_fd w' /\ trace w `prefix_of` trace w'.
Lemma later_trans w1 w2 w3 : later w1 w2 -> later w2 w3 -> later w1 w3.
Proof using. intros [? ?] [? ?]. split; [lia|by etrans]. Qed.

(** Both ends have a test socket, opened again if need be. *)
Lemma renewed fc fs sc ss wc ws :
  paired fc fs sc ss wc ws ->
  exists C S sc' ss' wc' ws', 0 < sc' /\ 0 < ss' /\ paired fc fs sc' ss' wc' ws' /\ later wc wc' /\ later ws ws' /\
    (sc' = sc \/ next_fd wc <= sc') /\ (ss' = ss \/ next_fd ws <= ss') /\
    (forall cur rest q, renew_socket (K:=Kc) dest so_c sc cur {| inq := S ++ rest; outq := q |} wc
       = Ok ((Next sc' cur, {| inq := rest; outq := q ++ C |}), wc')) /\
    (forall net fuel rest q, serve net (length C + fuel) ss {| inq := C ++ rest; outq := q |} ws
       = serve net fuel ss' {| inq := rest; outq := q ++ S |} ws').
Proof using ProtobufLaws0 Hconn Hlisten Haccept Hport Hmax Htport.
  intros (Hc & Hs & Hiff & Hlink). destruct (Z.ltb_spec 0 sc) as [H0|H0].
  - exists [], [], sc, ss, wc, ws. split; [done|]. split; [by apply Hiff|]. split; [done|]. do 2 (split; [by split; [lia|]|]).
    do 2 (split; [by left|]). split.
    + intros cur rest q. unfold renew_socket. rewrite (proj2 (Z.ltb_ge sc 0)), app_nil_r by lia. done.
    + intros net fuel rest q. by rewrite app_nil_r.
  - assert (sc = -1) as -> by (destruct Hc as [_ [[-> _]|(? & _)]]; [done|lia]).
    assert (ss = -1) as -> by (destruct Hs as [_ [[-> _]|(? & _)]]; [done|lia]).
    destruct (serve_renew_ok fs ws Hs) as (lfd & ss' & ws' & Hss & Hos & Hns1 & Hns2 & Hps & Hacc & Hren).
    destruct (connect_test fc wc (socket_port lfd) Hc) as (sc' & wc' & Hcon & Hsc & Hoc & Hnc1 & Hnc2 & Hpc & Hcc).
    exists [pack (renew_msg AMP_TEST_THROUGHPUT)], [pack (ready_msg AMP_TEST_THROUGHPUT (socket_port lfd))], sc', ss', wc', ws'.
    do 2 (split; [done|]). split; [split; [done|]; split; [done|]; split; [done|]; intros _; by exists lfd|].
    do 2 (split; [done|]). do 2 (split; [by right|]). split.
    + intros cur rest q. unfold renew_socket. cbn [app]. change (-1 <? 0) with true. cbn iota. rewrite send_queue, nonneg_length.
      cbn [inq outq]. rewrite read_ready_ok by apply Hport. change (default 0 (Some (socket_port lfd))) with (socket_port lfd).
      cbn [Z.ltb Z.compare]. unfold mbind, sys_bind. rewrite Hcon.
      by rewrite (proj2 (Z.eqb_neq sc' (-1))) by lia.
    + intros net fuel rest q. apply Hren.
Qed.

(** The sockets of the tests: distinct, new but for one that was open, and linked. *)
Definition fresh_sockets (sock : Z) (w : world) (l : list Z) : Prop :=
  NoDup l /\ Forall (fun c => 0 < c /\ (c = sock \/ next_fd w <= c)) l.
Lemma fresh_later sock w w' l : later w w' -> fresh_sockets (-1) w' l -> fresh_sockets sock w l.
Proof using.
  intros [Hn _] [Hd Hf]. split; [done|]. eapply Forall_impl; [exact Hf|]. cbn. intros c [H0 Hc]. split; [done|]. lia.
Qed.
Lemma fresh_cons sock c w w1 w2 l :
  0 < c -> c = sock \/ next_fd w <= c -> c < next_fd w1 -> later w w1 -> later w1 w2 -> fresh_sockets (-1) w2 l ->
  fresh_sockets sock w (c :: l).
Proof using.
  intros H0 Hc Hlt Hl1 Hl2 Hf. assert (Hf' : fresh_sockets sock w l) by (eapply fresh_later; [by eapply later_trans|done]).
  destruct Hf as [Hd Hf]. split; constructor; [|done|done|apply Hf']. intros Hin.
  eapply Forall_forall in Hf; [|exact Hin]. destruct Hl2 as [Hn _]. cbn in Hf. lia.
Qed.

Definition tests_in (l : list test_request_t) : list test_request_t := filter (fun c => direction c <> DIRECTION_NULL) l.
(** What the two ends of a schedule do, for all that the network may do to the sockets. *)
Definition exchanged (o : opt_t) (l : list test_request_t) (sc ss : Z) (wc ws : world) (cs ss_ : list Z)
    (sc' : Z) (wc' ws' : world) : Prop :=
  forall net_c net_s l', runs net_c net_s o l cs ss_ l' ->
  exists C S,
    (forall done q, run_items (K:=Kc) dest so_c net_c l done sc {| inq := S; outq := q |} wc
       = Ok ((Some (done ++ l'), sc', {| inq := []; outq := q ++ C |}), wc')) /\
    (forall fuel q, (length C < fuel)%nat ->
       serve net_s fuel ss {| inq := C; outq := q |} ws = Ok ((0, {| inq := []; outq := q ++ S |}), ws')).

(** One test, and the rest of the schedule. *)
Lemma exchange_test o cur l fc fs sc ss wc ws sc1 ss1 wc1 ws1 wc2 ws2 cs ss_ sc' wc' ws' C1 S1 :
  (forall cur, seen_request opts cur = seen_request o cur) -> direction cur <> DIRECTION_NULL ->
  0 < sc1 -> 0 < ss1 -> open_at fc sc1 wc1 -> open_at fs ss1 ws1 ->
  (forall cur rest q, renew_socket (K:=Kc) dest so_c sc cur {| inq := S1 ++ rest; outq := q |} wc
     = Ok ((Next sc1 cur, {| inq := rest; outq := q ++ C1 |}), wc1)) ->
  (forall net fuel rest q, serve net (length C1 + fuel) ss {| inq := C1 ++ rest; outq := q |} ws
     = serve net fuel ss1 {| inq := rest; outq := q ++ S1 |} ws1) ->
  close sc1 wc1 = Ok (tt, wc2) -> close ss1 ws1 = Ok (tt, ws2) ->
  exchanged o l (-1) (-1) wc2 ws2 cs ss_ sc' wc' ws' ->
  exchanged o (cur :: l) sc ss wc ws (sc1 :: cs) (ss1 :: ss_) sc' wc' ws'.
Proof using ProtobufLaws0 CodecLaws1 CodecLaws2.
  intros Hseen Hd H1 H2 Hoc Hos Hcl Hsv Hc2 Hs2 Hrest net_c net_s done Hruns.
  inversion Hruns as [| |? ? ? r ? ? ? l' Ht Hruns' E1 E2 E3 E4]; subst; [done|].
  destruct (Hrest net_c net_s l' Hruns') as (C3 & S3 & Hcl3 & Hsv3).
  destruct Ht as [r out Hdir Hsend Hw Ha Hb Hi|r out Hdir Hok Hsend Hw Ha Hb Hi].
  - pose proof (client_send_ok net_c fc (net_s ss1) cur r out sc1 wc1 wc2 Hsend Hi Hoc H1 Hc2) as Hstep.
    pose proof (serve_receive_ok net_s fs out ss1 ws1 ws2 Hw Ha Hb Hos H2 Hs2) as Hstep2.
    eexists (C1 ++ [_] ++ C3), (S1 ++ [_; _] ++ S3). split.
    + intros dn q. cbn [run_items]. unfold mbind, sys_bind. rewrite Hcl, Hdir. cbn [app]. rewrite Hstep, Hcl3.
      by rewrite <- !app_assoc.
    + intros fuel q Hf. rewrite !length_app in Hf. cbn [length app] in Hf |- *.
      replace fuel with (length C1 + S (fuel - length C1 - 1))%nat by lia. rewrite Hsv, Hstep2, Hsv3 by lia.
      by rewrite <- !app_assoc.
  - pose proof (client_receive_ok net_c fc cur r out sc1 wc1 wc2 Hw Ha Hb Hi Hoc H1 Hc2) as Hstep.
    rewrite <- Hseen in Hsend. pose proof (serve_send_ok net_s fs cur r out ss1 ws1 ws2 Hok Hsend Hos H2 Hs2) as Hstep2.
    eexists (C1 ++ [_] ++ C3), (S1 ++ [_] ++ S3). split.
    + intros dn q. cbn [run_items]. unfold mbind, sys_bind. rewrite Hcl, Hdir. cbn [app]. rewrite Hstep, Hcl3.
      by rewrite <- !app_assoc.
    + intros fuel q Hf. rewrite !length_app in Hf. cbn [length app] in Hf |- *.
      replace fuel with (length C1 + S (fuel - length C1 - 1))%nat by lia. rewrite Hsv, Hstep2, Hsv3 by lia.
      by rewrite <- !app_assoc.
Qed.

Lemma exchange_loop o l :
  o_protocol opts = o_protocol o -> o_randomise opts = o_randomise o ->
  forall fc fs sc ss wc ws, paired fc fs sc ss wc ws ->
  exists cs ss_ sc' wc' ws',
    length cs = length (tests_in l) /\ fresh_sockets sc wc cs /\ fresh_sockets ss ws ss_ /\ Forall2 (linked wc' ws') cs ss_ /\
    open_at fc sc' wc' /\ open_at fs (-1) ws' /\ later wc wc' /\ later ws ws' /\
    exchanged o l sc ss wc ws cs ss_ sc' wc' ws'.
Proof using ProtobufLaws0 CodecLaws1 CodecLaws2 Hconn Hlisten Haccept Hport Hmax Htport.
  intros Hpr Hrn. assert (Hseen : forall cur, seen_request opts cur = seen_request o cur).
  { intros cur. unfold seen_request. by rewrite Hpr, Hrn. }
  induction l as [|cur l IH]; intros fc fs sc ss wc ws Hp.
  - destruct Hp as (Hc & Hs & _).
    assert (Hcl : exists ws', cleanup ss ws = Ok (tt, ws') /\ open_at fs (-1) ws' /\ later ws ws').
    { unfold cleanup. destruct Hs as [Hw [[-> Hf]|(H0 & Hr)]].
      - exists ws. split; [done|]. split; [split; [done|by left]|by split; [lia|]].
      - rewrite (proj2 (Z.eqb_neq ss (-1))) by lia. destruct (close_test fs ss ws) as (w' & ? & ? & Hn & ?); [split; [done|by right]|done|].
        exists w'. split; [done|]. split; [done|]. split; [lia|done]. }
    destruct Hcl as (ws' & Hcl & Ho & Hl). exists [], [], sc, wc, ws'.
    split; [done|]. do 2 (split; [split; constructor|]). split; [constructor|]. do 2 (split; [done|]). split; [by split; [lia|]|]. split; [done|].
    intros net_c net_s l' Hr. inversion Hr; subst. exists [], []. split.
    + intros done q. cbn. by rewrite !app_nil_r.
    + intros [|fuel] q Hf; [cbn in Hf; lia|]. cbn [serve_loop]. cbn [read_packet queue_channel inq outq Z.gtb Z.compare negb].
      unfold mbind, sys_bind. rewrite Hcl. by rewrite app_nil_r.
  - destruct (renewed fc fs sc ss wc ws Hp) as (C1 & S1 & sc1 & ss1 & wc1 & ws1 & H1 & H2 & Hp1 & Hlc & Hls & Hfc & Hfs & Hcl & Hsv).
    destruct (decide (direction cur = DIRECTION_NULL)) as [Hd|Hd].
    + destruct (IH fc fs sc1 ss1 wc1 ws1 Hp1) as (cs & ss_ & sc' & wc' & ws' & Hlen & Hf1 & Hf2 & Hlk & Ho1 & Ho2 & Hl1 & Hl2 & Hex).
      exists cs, ss_, sc', wc', ws'. unfold tests_in. rewrite filter_cons_False by tauto. split; [done|].
      assert (Hup : forall a b w w1 k, later w w1 -> b = a \/ next_fd w <= b -> fresh_sockets b w1 k -> fresh_sockets a w k).
      { intros a b w w1 k [Hn _] Hb [Hd' Hf]. split; [done|]. eapply Forall_impl; [exact Hf|]. cbn. intros. lia. }
      split; [by eapply Hup|]. split; [by eapply Hup|]. do 3 (split; [done|]). do 2 (split; [by eapply later_trans|]).
      intros net_c net_s done Hruns. inversion Hruns as [|? ? ? ? l' Hd' Hruns'|? ? ? ? ? ? ? ? Ht]; subst; [|destruct Ht; congruence].
      destruct (Hex net_c net_s l' Hruns') as (C2 & S2 & Hcl2 & Hsv2). exists (C1 ++ C2), (S1 ++ S2). split.
      * intros dn q. cbn [run_items]. unfold mbind, sys_bind. rewrite Hcl, Hd, Hcl2. by rewrite <- !app_assoc.
      * intros fuel q Hf. rewrite length_app in Hf. replace fuel with (length C1 + (fuel - length C1))%nat by lia.
        rewrite Hsv, Hsv2 by lia. by rewrite <- app_assoc.
    + destruct Hp1 as (Hoc & Hos & _ & Hlink). specialize (Hlink H1).
      destruct (close_test fc sc1 wc1 Hoc H1) as (wc2 & Hc2 & Hoc2 & Hn1 & Ht1).
      destruct (close_test fs ss1 ws1 Hos H2) as (ws2 & Hs2 & Hos2 & Hn2 & Ht2).
      assert (Hlc2 : later wc1 wc2) by (split; [lia|done]). assert (Hls2 : later ws1 ws2) by (split; [lia|done]).
      destruct (IH fc fs (-1) (-1) wc2 ws2) as (cs & ss_ & sc' & wc' & ws' & Hlen & Hf1 & Hf2 & Hlk & Ho1 & Ho2 & Hl1 & Hl2 & Hex).
      { split; [done|]. split; [done|]. split; [lia|lia]. }
      exists (sc1 :: cs), (ss1 :: ss_), sc', wc', ws'. unfold tests_in. rewrite filter_cons_True by done. cbn [length].
      split; [by rewrite Hlen|]. split; [by apply (fresh_cons sc sc1 wc wc1 wc2); [| |apply (open_below fc)|..]|].
      split; [by apply (fresh_cons ss ss1 ws ws1 ws2); [| |apply (open_below fs)|..]|].
      split. { constructor; [|done]. apply (linked_later wc1 ws1); [etrans; [exact Ht1|apply Hl1]|etrans; [exact Ht2|apply Hl2]|exact Hlink]. }
      do 2 (split; [done|]). do 2 (split; [by eapply later_trans; [|eapply later_trans]|]).
      by eapply (exchange_test o cur l fc fs sc ss wc ws sc1 ss1 wc1 ws1 wc2 ws2).
Qed.
End Serving.

(** *** The theorem *)

(** The options that a HELLO carries. *)
Definition options_ok (o : opt_t) : Prop :=
  0 <= tport o < 65536 /\ -2147483648 <= sock_mss o < 2147483648 /\ 0 <= o_dscp o < 256 /\ hello_ok (build_hello o).
Definition seen_options (o : opt_t) : opt_t := {|
  o_protocol := o_protocol o; cport := 0; tport := tport o; o_write_size := o_write_size o; sock_mss := sock_mss o;
  sock_disable_nagle := sock_disable_nagle o; o_randomise := o_randomise o; disable_web10g := disable_web10g o;
  reuse_addr := reuse_addr o; sock_rcvbuf := sock_rcvbuf o; sock_sndbuf := sock_sndbuf o; o_dscp := o_dscp o;
  textual_schedule := None; schedule := [] |}.
Lemma tput_hello_roundtrip o : options_ok o -> parse_hello (dec (enc (build_hello o))) = Ok (seen_options o).
Proof using CodecLaws0.
  intros (Hp & Hm & Hd & Hok). rewrite (dec_enc (build_hello o) Hok). unfold parse_hello, build_hello, seen_options.
  cbn [test_port mss rcvbuf sndbuf disable_nagle h_disable_web10g h_randomise h_reuse_addr hello_write_size hello_dscp hello_protocol].
  rewrite u16_id by done. replace (u8 (o_dscp o)) with (o_dscp o) by (unfold u8; rewrite Z.mod_small; lia).
  replace (i32 (u32 (sock_mss o))) with (sock_mss o); [done|]. unfold i32, u32. Z.div_mod_to_equations. lia.
Qed.

Lemma read_hello_ok o rest q :
  options_ok o ->
  read_hello {| inq := pack (hello_msg AMP_TEST_THROUGHPUT (enc (build_hello o))) :: rest; outq := q |}
  = (0, Some (Some (Ok (seen_options o))), {| inq := rest; outq := q |}).
Proof using ProtobufLaws0 CodecLaws0.
  intros Ho. unfold read_hello, parse_control_hello. cbn [read_packet queue_channel inq outq]. rewrite nonneg_length.
  assert (Hb : bytes_ok (enc (build_hello o))) by (apply enc_bytes; apply Ho).
  erewrite unpack_as_pack; [|msg_valid|done|done]. rewrite !bool_decide_eq_true_2 by done. cbn [andb c_hello hello_msg].
  unfold lacks_options, store_options. cbn [hello_options]. rewrite !bool_decide_eq_true_2 by (by eexists).
  cbn [andb negb Z.ltb Z.compare fmap option_fmap option_map]. by rewrite tput_hello_roundtrip.
Qed.

(** The server up to its loop. *)
Definition last_port (o : opt_t) : Z := if tport o =? DEFAULT_TEST_PORT then MAX_TEST_PORT else tport o.
Lemma serve_start o w :
  options_ok o -> world_ok w -> last_port o = pmax ->
  exists lfd p sock w', tport o <= p <= pmax /\ 0 < sock /\ open_at (fds w) sock w' /\ next_fd w <= sock /\
    later w w' /\ Accept lfd sock ∈ trace w' /\ forall net fuel rest q,
    serveTest (K:=Ks) socket_port net fuel so_s
      {| inq := pack (hello_msg AMP_TEST_THROUGHPUT (enc (build_hello o))) :: rest; outq := q |} w
    = serve_loop (K:=Ks) socket_port net fuel (with_tport (seen_options o) p) pmax (with_dscp so_s (o_dscp o)) sock
        {| inq := rest; outq := q ++ [pack (ready_msg AMP_TEST_THROUGHPUT (socket_port lfd))] |} w'.
Proof using ProtobufLaws0 CodecLaws0 Hlisten Haccept Hport Hmax.
  intros Ho Hw Hpm. assert (Hle : 0 <= tport o <= pmax).
  { destruct Ho as (Hp & _). rewrite <- Hpm. unfold last_port, DEFAULT_TEST_PORT, MAX_TEST_PORT. destruct (Z.eqb_spec (tport o) 8826); lia. }
  destruct (listen_range (fds w) (o_dscp o) (Z.to_nat (pmax - tport o)) (tport o) w) as (s & p & w1 & (Hs & Ho1 & Hn1 & Hp1) & Hr & _ & Hl);
    [by split; [|left]|lia|lia|].
  destruct (accept_test (fds w) (listening_socket s) w1) as (sock & w2 & w3 & Ha & Hc & Hsock & Hos & Hn3 & Hn4 & Hp3 & Hacc); [done..|].
  exists (listening_socket s), p, sock, w3. split; [done|]. split; [done|]. split; [done|]. split; [lia|].
  split; [split; [lia|by etrans]|]. split; [done|].
  intros net fuel rest q. unfold serveTest. rewrite read_hello_ok by done. cbn [Z.ltb Z.compare]. unfold mbind, sys_bind.
  cbn [lift]. change (o_dscp (seen_options o)) with (o_dscp o). change (tport (seen_options o)) with (tport o).
  fold (last_port o). rewrite Hpm. unfold lift. rewrite Hl. cbn [Z.eqb negb].
  assert (Hpos : (Testlib.socket s >? 0) || (socket6 s >? 0) = true).
  { unfold listening_socket in Hs. destruct (Testlib.socket s >? 0); [done|]. cbn. apply Z.gtb_lt. lia. }
  rewrite Hpos. cbn [c_assert]. rewrite socket_port_ok by done. rewrite send_queue, Ha, Hc. done.
Qed.

End Exchange.

(** ** A test run by both ends *)

Definition ideal : Kernel := {|
  k_socket := fun _ _ => true; k_setsockopt := fun _ => SetDone; k_getsockopt := fun _ => None;
  k_bind_device := fun _ => true; k_bind := fun _ _ _ => None; k_listen := fun _ => None; k_accept := fun _ => true;
  k_connect := fun _ _ => true; k_getsockname := fun _ => SockIn 16777343; k_v6only := fun _ => true |}.
Definition server_v4 : server_opts := {|
  so_opts := plain_opts; device := None; socktype := SOCK_STREAM; sourcev4 := Some (SockIn 16777343); sourcev6 := None |}.
Definition client_v4 : server_opts := {|
  so_opts := plain_opts; device := None; socktype := SOCK_STREAM; sourcev4 := None; sourcev6 := None |}.

(** The first two ports are in use. *)
Definition busy : Kernel := {|
  k_socket := fun _ _ => true; k_setsockopt := fun _ => SetDone; k_getsockopt := fun _ => None; k_bind_device := fun _ => true;
  k_bind := fun _ _ port => if port <? 8828 then Some EADDRINUSE else None; k_listen := fun _ => None;
  k_accept := fun _ => true; k_connect := fun _ _ => true; k_getsockname := fun _ => SockIn 16777343; k_v6only := fun _ => true |}.
Lemma busy_listens : listens_ok busy server_v4 8836.
Proof.
  intros d port w res s w' [Hn Hf]. set (fd := next_fd w) in *.
  destruct (@socket_setup_returns busy fd AF_INET (so_opts (with_dscp server_v4 d)) Hn) as [cs E].
  assert (H1 : (fd <? 0) = false) by (apply Z.ltb_ge; lia). assert (H2 : (fd >=? 0) = true) by (apply Z.geb_le; lia).
  unfold start_listening, open_sockets, socket_call, open_fd, setup, log, lift, mbind, sys_bind, mret, sys_ret.
  cbn [sourcev4 sourcev6 with_dscp server_v4 k_socket busy]. fold fd. cbn [Testlib.socket socket6]. rewrite H1, H2. cbn [andb].
  change (-1 >=? 0) with false. cbn iota. rewrite E. cbn [device with_dscp server_v4 Z.ltb Z.compare].
  unfold bind_sockets_to_address. cbn [Testlib.socket socket6]. rewrite H2. cbn [k_bind busy].
  destruct (u16 port <? 8828) eqn:Hp.
  - cbn. rewrite Hp. unfold close_open. rewrite ?H2, ?(proj2 (Z.ltb_ge fd 0)) by lia. rewrite bool_decide_eq_true_2 by done. cbn.
    intros [= <- <- <-]. right. split; [done|]. by intros ->.
  - cbn. unfold listen_bound, listen_v4, mbind, sys_bind, mret, sys_ret. cbn. rewrite H2. cbn. rewrite H1. cbn.
    intros [= <- <- <-]. left. split; [done|]. rewrite decide_False by (cbn; lia). by rewrite decide_True by (cbn; lia).
Qed.
Lemma ideal_connects dest : addr_wf dest -> connects_ok ideal dest client_v4.
Proof.
  intros Ha port w sock w' [Hn Hf]. set (fd := next_fd w) in *.
  destruct (@socket_setup_returns ideal fd (sa_family dest) plain_opts Hn) as [cs E].
  assert (H1 : (fd <? 0) = false) by (apply Z.ltb_ge; lia).
  destruct dest as [a|a|f]; [| |done];
    (unfold connect_to_server, socket_call, open_fd, setup, log, lift, mbind, sys_bind, mret, sys_ret;
     cbn [k_socket ideal so_opts client_v4]; fold fd; rewrite H1, E; cbn; unfold mbind, sys_bind; cbn;
     intros [= <- <-]; lia).
Qed.

(** Codecs that satisfy the laws. *)
#[export] Instance direction_countable : Countable direction_t :=
  inj_countable' (fun d => match d with DIRECTION_NULL => 0%nat | SERVER_TO_CLIENT => 1%nat | CLIENT_TO_SERVER => 2%nat end)
    (fun n => match n with 0%nat => DIRECTION_NULL | 1%nat => SERVER_TO_CLIENT | _ => CLIENT_TO_SERVER end)
    (fun d => match d with DIRECTION_NULL | SERVER_TO_CLIENT | CLIENT_TO_SERVER => eq_refl end).
#[export] Instance protocol_countable : Countable protocol_t :=
  inj_countable' (fun p => match p with PROTOCOL_NONE => false | HTTP_POST => true end)
    (fun b : bool => if b then HTTP_POST else PROTOCOL_NONE) (fun p => match p with PROTOCOL_NONE | HTTP_POST => eq_refl end).
#[export] Instance tcpinfo_eq_dec : EqDecision tcpinfo_result.
Proof. solve_decision. Defined.
#[export] Instance tcpinfo_countable : Countable tcpinfo_result :=
  inj_countable' (fun t => (delivery_rate t, total_retrans t, rtt t, rttvar t, min_rtt t, busy_time t, rwnd_limited t, sndbuf_limited t))
    (fun '(a, b, c, d, e, f, g, h) => Build_tcpinfo_result a b c d e f g h)
    (fun t => match t with Build_tcpinfo_result _ _ _ _ _ _ _ _ => eq_refl end).
#[export] Instance hello_eq_dec : EqDecision hello_t.
Proof. solve_decision. Defined.
#[export] Instance hello_countable : Countable hello_t :=
  inj_countable' (fun h => (test_port h, mss h, rcvbuf h, sndbuf h, disable_nagle h, h_disable_web10g h, h_randomise h,
      h_reuse_addr h, hello_write_size h, hello_dscp h, hello_protocol h))
    (fun '(a, b, c, d, e, f, g, h, i, j, k) => Build_hello_t a b c d e f g h i j k)
    (fun h => match h with Build_hello_t _ _ _ _ _ _ _ _ _ _ _ => eq_refl end).
#[export] Instance send_eq_dec : EqDecision send_t.
Proof. solve_decision. Defined.
#[export] Instance send_countable : Countable send_t :=
  inj_countable' (fun s => (send_duration s, send_write_size s, send_bytes s)) (fun '(a, b, c) => Build_send_t a b c)
    (fun s => match s with Build_send_t _ _ _ => eq_refl end).
#[export] Instance item_eq_dec : EqDecision item_t.
Proof. solve_decision. Defined.
#[export] Instance item_countable : Countable item_t :=
  inj_countable' (fun i => (i_direction i, i_duration i, i_bytes i, i_tcpinfo i)) (fun '(a, b, c, d) => Build_item_t a b c d)
    (fun i => match i with Build_item_t _ _ _ _ => eq_refl end).

Definition counted_codec (M : Type) `{Countable M} : Codec M :=
  {| enc m := pos_bytes (encode m); dec l := p ← bytes_pos l; decode p |}.
Lemma counted_laws (M : Type) `{Countable M} : @CodecLaws M (counted_codec M) (fun _ => True).
Proof.
  constructor; intros m _; cbn; [|apply pos_bytes_ok]. rewrite bytes_pos_bytes. cbn. apply decode_encode.
Qed.

(** Ten bytes from the client, then ten from the server, then an item that is not a test. *)
Definition both_ways : opt_t := parseSchedule (with_schedule plain_options None []) (str "S10,s10,x").
Definition sender_env : test_env := {|
  e_start := 1000; e_finish := 5000; e_tcp := []; e_rounds := slow_socket ++ [writable 4 [Wrote 2; Wrote 5]]; e_calloc := true; e_arrivals := [] |}.
Definition receiver_env : test_env := {|
  e_start := 0; e_finish := 9000; e_tcp := []; e_rounds := []; e_calloc := true;
  e_arrivals := [Got [1; 2; 3] 2000; ReadIntr; Got [4; 1; 2; 3; 4; 1; 2] 4000] |}.
Definition ends_world : world := {| fds := [0; 1; 2]; next_fd := 3; trace := [] |}.

(** What the network does to the socket of the first test, and to any other. *)
Definition first_of (sock : Z) (e e' : test_env) : Z -> test_env := fun fd => if fd =? sock then e else e'.
Definition both_ways_done : list test_request_t :=
  match schedule both_ways with
  | [a; b; c] =>
      [with_result a {| r_bytes := 10; start_ns := 0; end_ns := 7000; tcpinfo := None |};
       with_result b {| r_bytes := 10; start_ns := 2000; end_ns := 9000; tcpinfo := None |}; c]
  | _ => []
  end.
Lemma both_ways_run c1 c2 s1 s2 :
  c1 <> c2 -> s1 <> s2 ->
  @runs (fun _ => True) (fun _ => True) (first_of c1 sender_env receiver_env) (first_of s1 receiver_env sender_env)
    both_ways (schedule both_ways) [c1; c2] [s1; s2] both_ways_done.
Proof.
  intros Hc Hs.
  assert (Ec : (c2 =? c1) = false) by lia. assert (Es : (s2 =? s1) = false) by lia.
  assert (E1 : first_of c1 sender_env receiver_env c1 = sender_env) by (unfold first_of; by rewrite Z.eqb_refl).
  assert (E2 : first_of c1 sender_env receiver_env c2 = receiver_env) by (unfold first_of; by rewrite Ec).
  assert (E3 : first_of s1 receiver_env sender_env s1 = receiver_env) by (unfold first_of; by rewrite Z.eqb_refl).
  assert (E4 : first_of s1 receiver_env sender_env s2 = sender_env) by (unfold first_of; by rewrite Es).
  change (schedule both_ways) with (parse_item (with_schedule plain_options None []) <$> [str "S10"; str "s10"; str "x"]).
  cbn [fmap list_fmap]. apply runs_test; [|apply runs_test; [|apply runs_null; [|apply runs_nil]]].
  - rewrite E1, E3. refine (eq_ind _ (test_run _ _ _ _ _ _) _ _ _);
      [eapply client_sends;
        [reflexivity|vm_compute; reflexivity|repeat constructor; discriminate|reflexivity|cbn; lia|exact I]|]. reflexivity.
  - rewrite E2, E4. refine (eq_ind _ (test_run _ _ _ _ _ _) _ _ _);
      [eapply server_sends;
        [reflexivity|exact I|vm_compute; reflexivity|repeat constructor; discriminate|reflexivity|cbn; lia|exact I]|]. reflexivity.
  - reflexivity.
Qed.


(** ** What the ends leave open *)

#[local] Existing Instance control_coding.
Definition packet (m : Control) : list Z := pack m.
Definition ready_8826 : list Z := packet (ready_msg AMP_TEST_THROUGHPUT 8826).
(** A client whose server goes away before it is ready to receive returns without closing the test socket. *)
Example ready_lost :
  match @runSchedule queues _ control_coding (counted_codec hello_t) (counted_codec send_t) (counted_codec item_t) ideal
          (SockIn 16777343) client_v4 (fun _ => sender_env) 0 (str "server")
          (parseSchedule (with_schedule plain_options None []) (str "S10")) {| inq := [ready_8826]; outq := [] |} ends_world with
  | Ok ((None, _), w) => fds w = [3; 0; 1; 2]
  | _ => False
  end.
Proof. vm_compute. reflexivity. Qed.

Definition serve_messages (K : Kernel) (ms : list Control) : res (Z * list Z) :=
  match @serveTest queues _ control_coding (counted_codec hello_t) (counted_codec send_t) (counted_codec item_t) K
          (fun _ => 8826) (fun _ => sender_env) 10 server_v4
          {| inq := packet (hello_msg AMP_TEST_THROUGHPUT (@enc _ (counted_codec hello_t) (build_hello both_ways))) :: map packet ms;
             outq := [] |} ends_world with
  | Ok ((r, _), w) => Ok (r, fds w)
  | Fault f => Fault f
  end.
(** Every renewal that a client asks for while a connection is open leaves that one open. *)
Example renewed_twice :
  serve_messages ideal [renew_msg AMP_TEST_THROUGHPUT; renew_msg AMP_TEST_THROUGHPUT] = Ok (0, [6; 4; 0; 1; 2]).
Proof. vm_compute. reflexivity. Qed.
(** When accept() fails after a renewal the listening socket stays open. *)
Definition one_accept : Kernel := {|
  k_socket := fun _ _ => true; k_setsockopt := fun _ => SetDone; k_getsockopt := fun _ => None;
  k_bind_device := fun _ => true; k_bind := fun _ _ _ => None; k_listen := fun _ => None; k_accept := fun fd => fd =? 3;
  k_connect := fun _ _ => true; k_getsockname := fun _ => SockIn 16777343; k_v6only := fun _ => true |}.
Example accept_fails : serve_messages one_accept [renew_msg AMP_TEST_THROUGHPUT] = Ok (-1, [5; 4; 0; 1; 2]).
Proof. vm_compute. reflexivity. Qed.
(** Options that do not unpack crash the server. *)
Example bad_send_options : serve_messages ideal [send_msg AMP_TEST_THROUGHPUT (Some [9])] = Fault NullDeref.
Proof. vm_compute. reflexivity. Qed.
