(* ===== verification/Events.v ===== *)
(** The events of measured: event_base_foreach_event() as it is provided for old
    versions of libevent (src/measured/libevent_foreach.c), the callback that collects
    events before the schedule is cleared, and the dump of the schedule (src/measured/
    schedule.c, src/measured/measured.c).

    An event base keeps its events in four places: those that wait for a descriptor or a
    signal, those that are about to run by priority, timers with a common timeout,
    and the heap of the other timers.  Elsewhere in the development a base is
    the list of events a visit meets; [visited] is that list.  The heap is libevent's: what
    min_heap_erase() leaves of it is a parameter. *)
From stdpp Require Import gmap.
From S2P Require Import Prelude CLib Print Calendar SchedTime ParamString Address Nametable Targets Schedule.
#[local] Open Scope Z_scope.

Record event_base (E : Type) : Type := {
  eventqueue : list E; activequeues : list (list E); common_timeout_queues : list (list E); timeheap : list E
}.
Arguments eventqueue {E} _.
Arguments activequeues {E} _.
Arguments common_timeout_queues {E} _.
Arguments timeheap {E} _.

Section Foreach.
Context {E D : Type} (fn : E -> D -> Z * D).

(** TAILQ_FOREACH, up to the first call that does not return 0. *)
Fixpoint foreach_queue (l : list E) (arg : D) : Z * D :=
  match l with
  | [] => (0, arg)
  | e :: l => let '(r, arg) := fn e arg in if r =? 0 then foreach_queue l arg else (r, arg)
  end.
(** The loop over the active queues visits the inserted events once more for each queue
    that is not empty. *)
Fixpoint foreach_active (queues : list (list E)) (inserted : list E) (arg : D) : Z * D :=
  match queues with
  | [] => (0, arg)
  | q :: queues =>
      match q with
      | [] => foreach_active queues inserted arg
      | _ => let '(r, arg) := foreach_queue inserted arg in
             if r =? 0 then foreach_active queues inserted arg else (r, arg)
      end
  end.
Fixpoint foreach_common (queues : list (list E)) (arg : D) : Z * D :=
  match queues with
  | [] => (0, arg)
  | q :: queues => let '(r, arg) := foreach_queue q arg in if r =? 0 then foreach_common queues arg else (r, arg)
  end.
Definition event_base_foreach_event (base : event_base E) (arg : D) : Z * D :=
  let '(r, arg) := foreach_queue (eventqueue base) arg in
  if negb (r =? 0) then (r, arg)
  else
    let '(r, arg) := foreach_active (activequeues base) (eventqueue base) arg in
    if negb (r =? 0) then (r, arg)
    else
      let '(r, arg) := foreach_common (common_timeout_queues base) arg in
      if negb (r =? 0) then (r, arg) else foreach_queue (timeheap base) arg.

(** The order of the visit. *)
Definition nonempty (l : list E) : bool := match l with [] => false | _ => true end.
Definition again (base : event_base E) : nat := length (List.filter nonempty (activequeues base)).
Definition visited (base : event_base E) : list E :=
  eventqueue base ++ concat (replicate (again base) (eventqueue base)) ++ concat (common_timeout_queues base)
  ++ timeheap base.

Lemma foreach_app l l' arg :
  foreach_queue (l ++ l') arg =
    let '(r, arg) := foreach_queue l arg in if r =? 0 then foreach_queue l' arg else (r, arg).
Proof.
  revert arg. induction l as [|e l IH]; intros arg; [done|]. cbn. destruct (fn e arg) as [r d].
  destruct (r =? 0) eqn:Er; [apply IH|]. by rewrite Er.
Qed.
Lemma foreach_active_queue queues inserted arg :
  foreach_active queues inserted arg =
  foreach_queue (concat (replicate (length (List.filter nonempty queues)) inserted)) arg.
Proof.
  revert arg. induction queues as [|[|e q] queues IH]; intros arg; [done|apply IH|]. cbn. rewrite foreach_app.
  destruct (foreach_queue inserted arg) as [r d]. by destruct (r =? 0).
Qed.
Lemma foreach_common_queue queues arg : foreach_common queues arg = foreach_queue (concat queues) arg.
Proof.
  revert arg. induction queues as [|q queues IH]; intros arg; [done|]. cbn. rewrite foreach_app.
  destruct (foreach_queue q arg) as [r d]. by destruct (r =? 0).
Qed.

(** The visit calls the function on the events of [visited], in order, up to the first
    that does not return 0. *)
Lemma foreach_visited base arg : event_base_foreach_event base arg = foreach_queue (visited base) arg.
Proof.
  unfold event_base_foreach_event, visited. rewrite !foreach_app.
  destruct (foreach_queue (eventqueue base) arg) as [r d]. destruct (r =? 0) eqn:E1; cbn [negb]; [|done].
  rewrite foreach_active_queue, foreach_app. unfold again. destruct (foreach_queue (concat _) d) as [r2 d2].
  destruct (r2 =? 0) eqn:E2; cbn [negb]; [|done]. rewrite foreach_common_queue, foreach_app.
  destruct (foreach_queue (concat _) d2) as [r3 d3]. by destruct (r3 =? 0).
Qed.
End Foreach.

(** ** Collecting and clearing *)

(** add_events_list_callback() *)
Definition add_events_list_callback {E} (ev : E) (l : list E) : Z * list E := (0, ev :: l).
Definition collected {E} (base : event_base E) : list E :=
  snd (event_base_foreach_event add_events_list_callback base []).
Lemma collected_visited {E} (base : event_base E) : collected base = rev (visited base).
Proof.
  unfold collected. rewrite foreach_visited. rewrite <- (app_nil_r (rev _)).
  generalize (@nil E). induction (visited base) as [|e l IH]; intros acc; [done|]. cbn. rewrite IH. by rewrite <- app_assoc.
Qed.
#[export] Instance timeval_eq_dec : EqDecision timeval.
Proof. solve_decision. Defined.
#[export] Instance target_lists_eq_dec : EqDecision target_lists.
Proof. solve_decision. Defined.
#[export] Instance test_item_eq_dec : EqDecision test_item.
Proof. solve_decision. Defined.
#[export] Instance event_eq_dec : EqDecision event.
Proof. solve_decision. Defined.

(** TAILQ_REMOVE, when the event is in the queue. *)
Fixpoint drop_event (ev : event) (l : list event) : option (list event) :=
  match l with
  | [] => None
  | e :: l => if bool_decide (e = ev) then Some l else cons e <$> drop_event ev l
  end.
Fixpoint drop_common (ev : event) (queues : list (list event)) : option (list (list event)) :=
  match queues with
  | [] => None
  | q :: queues =>
      match drop_event ev q with Some q => Some (q :: queues) | None => cons q <$> drop_common ev queues end
  end.
Lemma drop_event_Some ev l l' : drop_event ev l = Some l' -> ev :: l' ≡ₚ l.
Proof.
  revert l'. induction l as [|e l IH]; intros l' H; [done|]. cbn in H. case_bool_decide as He; [by simplify_eq|].
  destruct (drop_event ev l) as [k|]; [|done]. cbn in H. simplify_eq. rewrite <- (IH k) by done. apply Permutation_swap.
Qed.
Lemma drop_event_None ev l : drop_event ev l = None <-> ev ∉ l.
Proof.
  induction l as [|e l IH]; cbn; [set_solver|]. case_bool_decide; [set_solver|]. destruct (drop_event ev l); cbn.
  - split; [done|]. intros Hn. assert (ev ∉ l) by set_solver. by apply IH in H0.
  - split; [|done]. intros _. assert (ev ∉ l) by (by apply IH). set_solver.
Qed.
Lemma drop_common_spec ev qs :
  match drop_common ev qs with Some qs' => ev :: concat qs' ≡ₚ concat qs | None => ev ∉ concat qs end.
Proof.
  induction qs as [|q qs IH]; cbn; [set_solver|]. destruct (drop_event ev q) as [q'|] eqn:Eq.
  - cbn. by rewrite <- (drop_event_Some _ _ _ Eq).
  - apply drop_event_None in Eq. destruct (drop_common ev qs) as [qs'|]; cbn; [|set_solver].
    rewrite <- IH. by rewrite Permutation_middle.
Qed.
Section Clear.
Context (min_heap_erase : list event -> event -> list event).

(** event_free() of an event that a visit has met: it is taken from where it waits.  One that is
    nowhere was freed before. *)
Definition event_free (ev : event) (base : event_base event) : res (event_base event) :=
  match drop_event ev (eventqueue base) with
  | Some q => Ok {| eventqueue := q; activequeues := activequeues base;
                    common_timeout_queues := common_timeout_queues base; timeheap := timeheap base |}
  | None =>
      match drop_common ev (common_timeout_queues base) with
      | Some qs => Ok {| eventqueue := eventqueue base; activequeues := activequeues base;
                         common_timeout_queues := qs; timeheap := timeheap base |}
      | None =>
          if bool_decide (ev ∈ timeheap base)
          then Ok {| eventqueue := eventqueue base; activequeues := activequeues base;
                     common_timeout_queues := common_timeout_queues base;
                     timeheap := min_heap_erase (timeheap base) ev |}
          else Fault UseAfterFree
      end
  end.

(** clear_test_schedule(): the loop over the collected events. *)
Fixpoint clear_collected (all : bool) (h : param_heap) (l : list event) (base : event_base event)
    : res (param_heap * event_base event) :=
  match l with
  | [] => Ok (h, base)
  | RunTest item next :: l =>
      base ← event_free (RunTest item next) base;
      h ← free_test_schedule_item h item;
      clear_collected all h l base
  | FetchSchedule url :: l =>
      if all then base ← event_free (FetchSchedule url) base; clear_collected all h l base
      else clear_collected all h l base
  | OtherEvent :: l => clear_collected all h l base
  end.
Definition clear_base (all : bool) (h : param_heap) (base : event_base event)
    : res (param_heap * event_base event) := clear_collected all h (collected base) base.

(** The timers that wait. *)
Definition waiting (base : event_base event) : list event :=
  concat (common_timeout_queues base) ++ timeheap base.
(** Descriptors and signals are not tests. *)
Definition no_timers (base : event_base event) : Prop := Forall (fun ev => ev = OtherEvent) (eventqueue base).

Context (erase_ok : forall l ev, ev ∈ l -> ev :: min_heap_erase l ev ≡ₚ l).

(** A timer that waits is taken out, and nothing else changes. *)
Lemma event_free_waiting ev base :
  no_timers base -> ev <> OtherEvent -> ev ∈ waiting base ->
  exists base', event_free ev base = Ok base' /\ eventqueue base' = eventqueue base /\
    activequeues base' = activequeues base /\ ev :: waiting base' ≡ₚ waiting base.
Proof using erase_ok.
  intros Hq Hne Hin. unfold event_free.
  assert (E : drop_event ev (eventqueue base) = None).
  { apply drop_event_None. intros Hev. eapply Forall_forall in Hq; [|exact Hev]. done. }
  rewrite E. pose proof (drop_common_spec ev (common_timeout_queues base)) as Hc.
  destruct (drop_common ev _) as [qs|]; [|rewrite bool_decide_eq_true_2 by (unfold waiting in Hin; set_solver)];
    eexists; (split; [done|]); (split; [done|]); (split; [done|]); unfold waiting; cbn.
  - by rewrite <- Hc.
  - rewrite Permutation_middle, erase_ok; [done|]. unfold waiting in Hin. set_solver.
Qed.

(** The events that are freed. *)
Definition freed (all : bool) (l : list event) : list event := filter (fun ev => ~ stays all ev) l.
Lemma clear_collected_spec all l : forall h kept base rest,
  no_timers base -> waiting base ≡ₚ freed all l ++ rest ->
  match clear_loop all h l kept with
  | Ok (h', _) => exists base', clear_collected all h l base = Ok (h', base') /\ eventqueue base' = eventqueue base /\
      activequeues base' = activequeues base /\ waiting base' ≡ₚ rest
  | Fault f => clear_collected all h l base = Fault f
  end.
Proof using erase_ok.
  induction l as [|ev l IH]; intros h kept base rest Hq Hw; [by exists base|].
  assert (Hfree : ~ stays all ev -> exists base', event_free ev base = Ok base' /\ eventqueue base' = eventqueue base /\
    activequeues base' = activequeues base /\ no_timers base' /\ waiting base' ≡ₚ freed all l ++ rest).
  { intros Hs. unfold freed in Hw. rewrite filter_cons_True in Hw by done.
    destruct (event_free_waiting ev base) as (b & E & E1 & E2 & Hp);
      [done|intros ->; by apply Hs|rewrite Hw; set_solver|]. exists b. unfold no_timers. rewrite E1.
    split_and!; [done..|]. rewrite Hw in Hp. by apply Permutation_cons_inv in Hp. }
  assert (Hkeep : stays all ev -> waiting base ≡ₚ freed all l ++ rest).
  { intros Hs. unfold freed in *. by rewrite filter_cons_False in Hw by tauto. }
  destruct ev as [item next|url|]; cbn [clear_loop clear_collected].
  - destruct Hfree as (b & -> & E1 & E2 & Hb & Hp); [by intros []|]. rewrite bind_Ok.
    destruct (free_test_schedule_item h item) as [h'|]; [|done]. rewrite !bind_Ok.
    specialize (IH h' kept b rest Hb Hp). rewrite E1, E2 in IH. exact IH.
  - destruct all; [|by apply IH; [|apply Hkeep]].
    destruct Hfree as (b & -> & E1 & E2 & Hb & Hp); [done|]. rewrite bind_Ok.
    specialize (IH h kept b rest Hb Hp). rewrite E1, E2 in IH. exact IH.
  - by apply IH; [|apply Hkeep].
Qed.

Lemma visited_waiting base :
  visited base = concat (replicate (S (again base)) (eventqueue base)) ++ waiting base.
Proof. unfold visited, waiting. cbn. by rewrite !app_assoc. Qed.
Lemma queue_copies base n : no_timers base ->
  Forall (fun ev => ev = OtherEvent) (concat (replicate n (eventqueue base))).
Proof. intros Hq. induction n as [|n IH]; cbn; [constructor|]. by apply Forall_app. Qed.
Lemma other_skipped all l l' : Forall (fun ev => ev = OtherEvent) l ->
  freed all (l ++ l') = freed all l' /\ omap ev_params (l ++ l') = omap ev_params l'.
Proof.
  intros Hl. unfold freed. rewrite filter_app, omap_app. induction Hl as [|ev l -> Hl [IH1 IH2]]; [done|]. cbn [omap list_omap ev_params app].
  by rewrite filter_cons_False by (cbn; tauto).
Qed.
End Clear.

(** C13: Clearing the schedule of an event base, when what waits for descriptors and signals are
    no tests.  The visit meets every timer that waits exactly once, what waits for descriptors
    and signals once more for each active queue that is not empty, and no event that is in an active
    queue.  If the tests that wait have argument vectors of their own, clearing frees
    exactly these vectors and takes exactly the tests that wait (with [all] also the timer that fetches
    schedules) from the base: the active queues, the tests that
    are about to run in them, and the other events are left as they were.  If two tests
    that wait share a vector, or one was freed, clearing is a use after free. *)
Theorem event_base_cleared erase all h (base : event_base event) :
  (forall l ev, ev ∈ l -> ev :: erase l ev ≡ₚ l) -> no_timers base ->
  let ps := omap ev_params (waiting base) in
  collected base ≡ₚ concat (replicate (S (again base)) (eventqueue base)) ++ waiting base /\
  (NoDup ps /\ Forall (fun p => is_Some (h !! p)) ps ->
   exists base', clear_base erase all h base = Ok (delete_all ps h, base') /\
     eventqueue base' = eventqueue base /\ activequeues base' = activequeues base /\
     waiting base' ≡ₚ filter (stays all) (waiting base)) /\
  (~ (NoDup ps /\ Forall (fun p => is_Some (h !! p)) ps) -> clear_base erase all h base = Fault UseAfterFree).
Proof.
  intros Herase Hq ps. rewrite collected_visited, visited_waiting. split; [symmetry; apply Permutation_rev|].
  pose proof (queue_copies base (S (again base)) Hq) as Ho.
  destruct (other_skipped all _ (waiting base) Ho) as [Hf Hp]. rewrite <- visited_waiting in Hf, Hp.
  destruct (clear_test_schedule_spec all h (visited base)) as [H1 H2]. cbv zeta in H1, H2. rewrite Hp in H1, H2. fold ps in H1, H2.
  pose proof (clear_collected_spec erase Herase all (collected base) h [] base (filter (stays all) (waiting base)) Hq) as Hc.
  rewrite collected_visited in Hc. fold (clear_test_schedule all h (visited base)) in Hc.
  unfold clear_base. rewrite collected_visited. split; intros Hd.
  - rewrite (H1 Hd) in Hc. apply Hc. unfold freed. rewrite <- Permutation_rev. fold (freed all (visited base)).
    rewrite Hf. unfold freed. rewrite Permutation_app_comm. symmetry. apply filter_app_complement.
  - rewrite (H2 Hd) in Hc. apply Hc. unfold freed. rewrite <- Permutation_rev. fold (freed all (visited base)).
    rewrite Hf. unfold freed. rewrite Permutation_app_comm. symmetry. apply filter_app_complement.
Qed.

(** ** The dump *)

Section Dump.
(** When each event is due, and the argument vectors. *)
Context (pending : event -> timeval) (h : param_heap).
Definition seconds6 (t : timeval) : cstr := print_dec (i32 (tv_sec t)) ++ str "." ++ pad 6 (print_dec (i32 (tv_usec t))).
Definition newline : cstr := [ascii_of_nat 10].

Definition dump_event_run_test (item : test_item) : res cstr :=
  args ← (match params item with
          | None => Ok (str " (no args)")
          | Some p => l ← deref h p; Ok (concat ((fun a => str " " ++ a) <$> l))
          end);
  Ok (str "EVENT_RUN_TEST " ++ test_name (test item) ++ str " " ++ seconds6 (interval item) ++ args ++ newline).
Definition dump_event_fetch_schedule (url : cstr) : cstr := str "EVENT_FETCH_SCHEDULE " ++ url ++ newline.
(** dump_events_callback(): the text so far is the argument. *)
Definition dump_events_callback (ev : event) (out : res cstr) : Z * res cstr :=
  (0, out ← out;
      match ev with
      | RunTest item _ => l ← dump_event_run_test item; Ok (out ++ seconds6 (pending ev) ++ str " " ++ l)
      | FetchSchedule url => Ok (out ++ seconds6 (pending ev) ++ str " " ++ dump_event_fetch_schedule url)
      | OtherEvent => Ok out
      end).
Definition dump_schedule (wall : timeval) (base : event_base event) : res cstr :=
  let header := str "===== SCHEDULE at " ++ print_dec (i32 (tv_sec wall)) ++ str "." ++ print_dec (i32 (tv_usec wall))
                ++ str " =====" ++ newline in
  out ← snd (event_base_foreach_event dump_events_callback base (Ok header));
  Ok (out ++ newline).

(** The line of an event. *)
Definition line_of (ev : event) : res cstr :=
  match ev with
  | RunTest item _ => l ← dump_event_run_test item; Ok (seconds6 (pending ev) ++ str " " ++ l)
  | FetchSchedule url => Ok (seconds6 (pending ev) ++ str " " ++ dump_event_fetch_schedule url)
  | OtherEvent => Ok []
  end.
Lemma dump_lines l : forall out lines,
  Forall2 (fun e s => line_of e = Ok s) l lines ->
  snd (foreach_queue dump_events_callback l (Ok out)) = Ok (out ++ concat lines).
Proof.
  induction l as [|e l IH]; intros out lines Hl; inversion Hl as [|? s ? lines' He Hl']; subst.
  - cbn. by rewrite app_nil_r.
  - cbn [foreach_queue dump_events_callback concat]. change (0 =? 0) with true. cbn iota. rewrite bind_Ok.
    assert (Hs : (match e with
                  | RunTest item _ => l ← dump_event_run_test item; Ok (out ++ seconds6 (pending e) ++ str " " ++ l)
                  | FetchSchedule url => Ok (out ++ seconds6 (pending e) ++ str " " ++ dump_event_fetch_schedule url)
                  | OtherEvent => Ok out
                  end) = Ok (out ++ s)).
    { destruct e as [item next|url|]; cbn [line_of] in He.
      - destruct (dump_event_run_test item); [|done]. rewrite bind_Ok in He |- *. congruence.
      - congruence.
      - replace s with (@nil ascii) by congruence. by rewrite app_nil_r. }
    rewrite Hs, (IH _ lines') by done. by rewrite <- app_assoc.
Qed.
End Dump.

(** debug_dump(): the file the dump is appended to; when it cannot be opened its name is
    not freed. *)
Definition debug_dump (pending : event -> timeval) (h : param_heap) (pid : Z) (fopen_ok : bool) (wall : timeval)
    (base : event_base event) : res (cstr * option cstr * nat) :=
  let filename := str "/tmp/amplet2.schedule.dump." ++ print_dec pid in
  if negb fopen_ok then Ok (filename, None, 1%nat)
  else text ← dump_schedule pending h wall base; Ok (filename, Some text, 0%nat).

(** ** A base with two tests *)

Definition one : event := RunTest (sample_item (Some 1) (names ["a"%string])) (Tv 60 0).
Definition two : event := RunTest (sample_item (Some 2) (names ["b"%string])) (Tv 90 0).
Definition vectors : param_heap := <[1 := [str "-s"; str "84"]]> (<[2 := [str "-4"]]> ∅).
Definition fetch : event := FetchSchedule (str "https://example.org").
Definition two_waiting : event_base event :=
  {| eventqueue := [OtherEvent]; activequeues := [[]; []]; common_timeout_queues := [[fetch]]; timeheap := [one; two] |}.
(** The same base when the first test is about to run. *)
Definition about_to_run : event_base event :=
  {| eventqueue := [OtherEvent]; activequeues := [[one]; []]; common_timeout_queues := [[fetch]]; timeheap := [two] |}.

(** A heap without its first occurrence of an event. *)
Definition erase_first (l : list event) (ev : event) : list event := default l (drop_event ev l).
Lemma erase_first_ok l ev : ev ∈ l -> ev :: erase_first l ev ≡ₚ l.
Proof.
  intros Hin. unfold erase_first. destruct (drop_event ev l) as [l'|] eqn:E; [by apply drop_event_Some|].
  by apply drop_event_None in E.
Qed.
Lemma event_base_cleared_witness :
  (exists base', clear_base erase_first false vectors two_waiting = Ok (delete_all [1; 2] vectors, base') /\
     waiting base' ≡ₚ [fetch]) /\
  exists base', clear_base erase_first false vectors about_to_run = Ok (delete_all [2] vectors, base') /\
     activequeues base' = [[one]; []] /\ waiting base' ≡ₚ [fetch].
Proof.
  split.
  - destruct (event_base_cleared erase_first false vectors two_waiting erase_first_ok) as (_ & Hc & _).
    + repeat constructor.
    + destruct Hc as (b & E & _ & _ & Hw); [apply (bool_decide_unpack _); vm_compute; exact I|].
      exists b. split; [exact E|exact Hw].
  - destruct (event_base_cleared erase_first false vectors about_to_run erase_first_ok) as (_ & Hc & _).
    + repeat constructor.
    + destruct Hc as (b & E & _ & Ha & Hw); [apply (bool_decide_unpack _); vm_compute; exact I|].
      exists b. split; [exact E|]. split; [exact Ha|exact Hw].
Defined.

(** A reload at this moment leaves the first test, and its argument vector, as they were. *)
Example active_test_stays :
  match clear_base erase_first false vectors about_to_run with
  | Ok (h, base) => activequeues base = [[one]; []] /\ timeheap base = [] /\ h !! 1 = vectors !! 1 /\ h !! 2 = None
  | Fault _ => False
  end.
Proof. vm_compute. done. Qed.

Example dump_ex :
  match dump_schedule (fun ev => match ev with RunTest _ t => t | _ => Tv 3600 7 end) vectors (Tv 1000 50) two_waiting with
  | Ok text => String.string_of_list_ascii text
  | Fault _ => EmptyString
  end = String.string_of_list_ascii
    (str "===== SCHEDULE at 1000.50 =====" ++ newline ++
     str "3600.000007 EVENT_FETCH_SCHEDULE https://example.org" ++ newline ++
     str "60.000000 EVENT_RUN_TEST icmp 60.000000 -s 84" ++ newline ++
     str "90.000000 EVENT_RUN_TEST icmp 60.000000 -4" ++ newline ++ newline).
Proof. vm_compute. reflexivity. Qed.
