(* ===== verification/Diag.v ===== *)
(** What the program tells its operator: log lines (src/common/debug.c), the meaning of
    ICMP errors (src/common/icmpcode.c), sizes and speeds (src/common/print.c), and the
    dumps of the nametable (src/measured/nametable.c) and of the access control lists
    (src/measured/acl.c).

    A double is the real number it stands for: rounding is not modelled until printf()
    rounds to two digits. *)
From Stdlib Require Import QArith Qround Qpower Qfield.
From S2P Require Import Prelude CLib Address Nametable Acl Config Asn Print.
#[local] Open Scope Z_scope.

(** ** Log lines *)

Definition LOG_WARNING : Z := 4.
Definition LOG_INFO : Z := 6.
Definition LOG_DEBUG : Z := 7.
(** What vsnprintf() leaves of a message. *)
Definition log_buffer : nat := 1024.

Definition log_prefix (priority : Z) : cstr :=
  str (if priority =? 0 then "EMERG" else if priority =? 1 then "ALERT" else if priority =? 2 then "CRITICAL"
       else if priority =? 3 then "ERROR" else if priority =? 4 then "WARNING" else if priority =? 5 then "NOTICE"
       else if priority =? 6 then "INFO" else if priority =? 7 then "DEBUG" else "???").

(** Where a line goes. *)
Inductive log_line : Type :=
| Syslog (priority : Z) (text : cstr)
| Stderr (text : cstr)
| LogFile (text : cstr).

(** The state of the process: is it built to use syslog, is stdout a terminal, can the
    log file be opened, what is it called, and what does ctime_r() say. *)
Record log_env : Type := {
  to_syslog : bool; isatty : bool; log_file_ok : bool; log_name : option cstr; ctime : cstr
}.

(** The message without its last character when that is a newline; the character before
    an empty message is not in the buffer. *)
Definition chop_newline (buffer : cstr) : res cstr :=
  c ← rd buffer (Z.of_nat (length buffer) - 1);
  Ok (if bool_decide (c = NL) then take (length buffer - 1) buffer else buffer).

(** Log(): [message] is the format with its arguments put in. *)
Definition Log (env : log_env) (log_level priority : Z) (message : cstr) : res (option log_line) :=
  if priority >? log_level then Ok None
  else
    buffer ← chop_newline (take log_buffer message);
    if to_syslog env && negb (isatty env) then
      Ok (Some (Syslog priority (match log_name env with Some n => n ++ str " " ++ buffer | None => buffer end)))
    else
      let date := take (length (ctime env) - 1) (ctime env) in
      let line := date ++ str " " ++ log_prefix priority ++ str ": " ++ buffer ++ [NL] in
      if isatty env then Ok (Some (Stderr line))
      else if negb (log_file_ok env) then Ok None
      else Ok (Some (LogFile line)).

Lemma chop_newline_spec message c :
  chop_newline (message ++ [c]) = Ok (if bool_decide (c = NL) then message else message ++ [c]).
Proof.
  unfold chop_newline. rewrite length_app, (proj2 (rd_Ok _ _ c)).
  - rewrite bind_Ok. case_bool_decide; [|done]. f_equal. apply take_app_length'. cbn. lia.
  - cbn. split; [lia|]. rewrite lookup_app_r; [|lia]. replace (_ - _)%nat with 0%nat by lia. done.
Qed.

(** A level the configuration can set lets through the messages of this priority and the
    more urgent ones, and only those; each is written once, where the process writes to. *)
Lemma log_filters env value log_level priority message c :
  loglevel_of LOG_LEVELS value = Some log_level -> (length message < log_buffer)%nat ->
  log_file_ok env = true ->
  exists out, Log env log_level priority (message ++ [c]) = Ok out /\
    (is_Some out <-> priority <= log_level).
Proof.
  intros Hl Hlen Hf. unfold Log. destruct (Z.gtb_spec priority log_level).
  { exists None. split; [done|]. split; [intros [? [=]]|lia]. }
  rewrite (take_ge (message ++ [c])) by (rewrite length_app; cbn; lia). rewrite chop_newline_spec, bind_Ok, Hf. cbn [negb].
  destruct (to_syslog env && negb (isatty env)); [|destruct (isatty env)]; eexists; (split; [done|]);
    (split; [lia|by eexists]).
Qed.

(** An empty message is not a message: the byte before the buffer is looked at. *)
Lemma log_empty env log_level priority :
  priority <= log_level -> Log env log_level priority [] = Fault OutOfBounds.
Proof. intros H. unfold Log. destruct (Z.gtb_spec priority log_level); [lia|done]. Qed.

(** ** Address families and addresses *)

Definition family_to_string (family : Z) : cstr :=
  str (if family =? AF_INET then "ipv4" else if family =? AF_INET6 then "ipv6" else "unknown").

Section Dumps.
Context `{Inet}.

Definition amp_inet_ntop (addr : option addrinfo) (buffer : bool) : res cstr :=
  match addr with
  | None => Fault AssertFail
  | Some a =>
      _ ← c_assert buffer;
      Ok (if (ai_family a =? AF_INET) || (ai_family a =? AF_INET6) then inet_ntop (ai_addr a) else str "unknown")
  end.

(** The lines dump_nametable() logs. *)
Definition dump_address (a : addrinfo) : res cstr :=
  match ai_canonname a with
  | None => Fault AssertFail
  | Some name =>
      let family := sa_family (ai_addr a) in
      if (family =? AF_INET) || (family =? AF_INET6)
      then Ok (name ++ str " " ++ inet_ntop (ai_addr a) ++ [NL])
      else Ok (str "unknown address family: " ++ print_dec family ++ [NL])
  end.
Fixpoint dump_addresses (l : list addrinfo) : res (list cstr) :=
  match l with [] => Ok [] | a :: l => x ← dump_address a; r ← dump_addresses l; Ok (x :: r) end.
Definition dump_nametable (name_table : list nametable_t) : res (list cstr) :=
  lines ← dump_addresses (concat (nt_addr <$> name_table));
  Ok (match name_table with [] => [] | _ => [str "====== DEPRECATED NAMETABLE ======"] end ++ lines).
End Dumps.

(** The lines print_acl() logs: a node, the labels of its children, an empty line, and the
    children the same way. *)
Fixpoint print_acl_internal (root : acl_node) : res (list cstr) :=
  match root with
  | AclNode l perms _ num cs =>
      let header := l ++ str " " ++ print_dec perms in
      let labels := (fun c => str " " ++ label c) <$> take (Z.to_nat num) cs in
      _ ← (if num >? Z.of_nat (length cs) then Fault OutOfBounds else Ok tt);
      below ← (fix children (n : nat) (cs : list acl_node) {struct cs} : res (list cstr) :=
         match n, cs with
         | S n, c :: cs => x ← print_acl_internal c; r ← children n cs; Ok (x ++ r)
         | _, _ => Ok []
         end) (Z.to_nat num) cs;
      Ok (header :: labels ++ [[NL]] ++ below)
  end.
Definition print_acl (root : option acl_root) : res (list cstr) :=
  match root with
  | None => Ok []
  | Some root =>
      a ← print_acl_internal (server root);
      b ← print_acl_internal (test root);
      c ← print_acl_internal (schedule root);
      Ok (str "SERVER:" :: a ++ str "TEST:" :: b ++ str "SCHEDULE:" :: c)
  end.

(** In a tree built from rules the dump reads no child that is not there. *)
Lemma print_acl_total k R n : acl_inv k R n -> exists lines, print_acl_internal n = Ok lines.
Proof.
  revert R. induction n as [l p i m cs IH] using acl_node_ind'. intros R Hinv.
  inversion Hinv as [? ? ? ? ? Hk Hnd Hok Hrec Hno]; subst. cbn [print_acl_internal]. rewrite Nat2Z.id.
  destruct (Z.gtb_spec (Z.of_nat (length cs)) (Z.of_nat (length cs))); [lia|]. rewrite bind_Ok.
  assert (Hall : Forall (fun c => exists lines, print_acl_internal c = Ok lines) cs).
  { rewrite Forall_forall in IH |- *. intros c Hc. eapply (IH c Hc), Hrec, Hc. }
  clear -Hall. enough (E : exists below, (fix children (n : nat) (cs : list acl_node) {struct cs} : res (list cstr) :=
         match n, cs with
         | S n, c :: cs => x ← print_acl_internal c; r ← children n cs; Ok (x ++ r)
         | _, _ => Ok []
         end) (length cs) cs = Ok below) by (destruct E as [below ->]; rewrite bind_Ok; eauto).
  induction Hall as [|c cs [x Hx] Hcs [r Hr]]; cbn [length]; [by eexists|]. rewrite Hx, bind_Ok, Hr, bind_Ok. eauto.
Qed.

(** ** ICMP errors *)

Definition icmp4_code_str (type code : Z) : string :=
  match type with
  | 0 => "Echo Reply"
  | 3 =>
      match code with
      | 0 => "Net Unreachable"
      | 1 => "Host Unreachable"
      | 2 => "Protocol Unreachable"
      | 3 => "Port Unreachable"
      | 4 => "Fragmentation Needed and Don't Fragment was Set"
      | 5 => "Source Route Failed"
      | 6 => "Destination Network Unknown"
      | 7 => "Destination Host Unknown"
      | 8 => "Source Host Isolated"
      | 9 => "Destination Network is Administratively Prohibited"
      | 10 => "Destination Host is Administratively Prohibited"
      | 11 => "Destination Network Unreachable for Type of Service"
      | 12 => "Destination Host Unreachable for Type of Service"
      | 13 => "Communication Administratively Prohibited"
      | 14 => "Host Precedence Violation"
      | 15 => "Precedence Cutoff in effect"
      | _ => "Destination Unreachable, Unknown Code"
      end
  | 4 => "Source Quench"
  | 5 =>
      match code with
      | 0 => "Redirect Datagram for the Network"
      | 1 => "Redirect Datagram for the Host"
      | 2 => "Redirect Datagram for the Type of Service and Network"
      | 3 => "Redirect Datagram for the Type of Service and Host"
      | _ => "Redirect, Unknown Code"
      end
  | 8 => "Echo Request"
  | 11 =>
      match code with
      | 0 => "Time to Live Exceeded in Transit"
      | 1 => "Fragment Reassembly Time Exceeded"
      | _ => "Time Exceeded, Unknown Code"
      end
  | 12 => "Parameter Problem"
  | 13 => "Timestamp"
  | 14 => "Timestamp Reply"
  | _ => "Unknown Type"
  end%string.

Definition icmp6_code_str (type code : Z) : string :=
  match type with
  | 1 =>
      match code with
      | 0 => "No Route to Destination"
      | 1 => "Communication Administratively Prohibited"
      | 2 => "Beyond Scope of Source Address"
      | 3 => "Address Unreachable"
      | 4 => "Port Unreachable"
      | _ => "Destination Unreachable, Unknown Code"
      end
  | 2 => "Packet Too Big"
  | 3 =>
      match code with
      | 0 => "Hop Limit Exceeded in Transit"
      | 1 => "Fragment Reassembly Time Exceeded"
      | _ => "Time Exceeded, Unknown Code"
      end
  | 4 =>
      match code with
      | 0 => "Erroneous Header Field Encountered"
      | 1 => "Unrecognised Next Header Type Encountered"
      | 2 => "Unrecognised IPv6 Option Encountered"
      | _ => "Parameter Problem, Unknown Code"
      end
  | 128 => "Echo Request"
  | 129 => "Echo Reply"
  | 130 => "Multicase Listener Query"
  | 131 => "Multicast Listener Report"
  | 132 => "Multicast Listener Drone"
  | 133 => "Router Solicitation"
  | 134 => "Router Advertisement"
  | 135 => "Neighbour Solicitation"
  | 136 => "Neighbour Advertisement"
  | 137 => "Redirect Message"
  | _ => "Unknown Type"
  end%string.

Definition icmp_code_str (family type code : Z) : string :=
  if family =? AF_INET then icmp4_code_str type code
  else if family =? AF_INET6 then icmp6_code_str type code
  else "unknown address family".

(** The number of codes of a type that have a text of their own: RFC 792, 1122 and 1812
    for IPv4, RFC 4443 for IPv6; and the types that have none. *)
Definition codes (family type : Z) : Z :=
  if family =? AF_INET then match type with 3 => 16 | 5 => 4 | 11 => 2 | _ => 0 end
  else match type with 1 => 5 | 3 => 2 | 4 => 3 | _ => 0 end.
Definition known_types (family : Z) : list Z :=
  if family =? AF_INET then [0; 3; 4; 5; 8; 11; 12; 13; 14] else [1; 2; 3; 4] ++ seqZ 128 10.
(** What a type and a code mean: codes the type does not have mean the same. *)
Definition meaning (family type code : Z) : option (Z * Z) :=
  if bool_decide (type ∈ known_types family) then Some (type, Z.min code (codes family type)) else None.
Definition octets : list Z := seqZ 0 256.
(** The text of a meaning, and all meanings. *)
Definition text_of (family : Z) (m : option (Z * Z)) : string :=
  match m with Some (t, c) => icmp_code_str family t c | None => "Unknown Type" end.
Definition meanings (family : Z) : list (option (Z * Z)) :=
  None :: concat ((fun t => (fun c => Some (t, c)) <$> seqZ 0 (codes family t + 1)) <$> known_types family).

Definition described (family : Z) : bool :=
  forallb (fun t => forallb (fun c =>
    let m := meaning family t c in
    String.eqb (icmp_code_str family t c) (text_of family m) && bool_decide (m ∈ meanings family)) octets) octets.
Definition distinct (family : Z) : bool :=
  forallb (fun m => forallb (fun m' => if String.eqb (text_of family m) (text_of family m') then bool_decide (m = m') else true)
                      (meanings family)) (meanings family).

(** Two errors of a family are described by the same text exactly when they mean the same. *)
Lemma icmp_text_faithful family t c t' c' :
  family = AF_INET \/ family = AF_INET6 -> 0 <= t < 256 -> 0 <= c < 256 -> 0 <= t' < 256 -> 0 <= c' < 256 ->
  icmp_code_str family t c = icmp_code_str family t' c' <-> meaning family t c = meaning family t' c'.
Proof.
  intros Hf Ht Hc Ht' Hc'.
  assert (Hd : described family = true) by (destruct Hf as [-> | ->]; vm_compute; reflexivity).
  assert (Hi : distinct family = true) by (destruct Hf as [-> | ->]; vm_compute; reflexivity).
  assert (Hdesc : forall t c, 0 <= t < 256 -> 0 <= c < 256 ->
            icmp_code_str family t c = text_of family (meaning family t c) /\ meaning family t c ∈ meanings family).
  { intros u d Hu Hd'. unfold described in Hd. rewrite forallb_forall in Hd.
    specialize (Hd u ltac:(apply list_elem_of_In, elem_of_seqZ; lia)). rewrite forallb_forall in Hd.
    specialize (Hd d ltac:(apply list_elem_of_In, elem_of_seqZ; lia)). cbv zeta in Hd.
    apply andb_true_iff in Hd as [E M]. split; [by apply String.eqb_eq|by apply bool_decide_eq_true in M]. }
  destruct (Hdesc t c Ht Hc) as [-> M], (Hdesc t' c' Ht' Hc') as [-> M']. split; [|by intros ->].
  intros E. unfold distinct in Hi. rewrite forallb_forall in Hi.
  specialize (Hi _ ltac:(apply list_elem_of_In, M)). rewrite forallb_forall in Hi.
  specialize (Hi _ ltac:(apply list_elem_of_In, M')). rewrite E, String.eqb_refl in Hi. by apply bool_decide_eq_true in Hi.
Qed.

(** ** Sizes and speeds *)

Definition Qltb (a b : Q) : bool := negb (Qle_bool b a).
(** %.02lf of a number that is not negative: to the nearest, ties to even. *)
Definition round_even (q : Q) : Z :=
  let f := Qfloor q in
  let d := (q - inject_Z f)%Q in
  if Qltb d (1 # 2) then f else if Qltb (1 # 2) d then f + 1 else if Z.even f then f else f + 1.
Definition fixed2 (q : Q) : cstr :=
  let n := round_even (q * 100) in print_dec (n / 100) ++ str "." ++ pad 2 (print_dec (n mod 100)).

(** The loop over the units. *)
Fixpoint scaled_print (factor scaled : Q) (units : list cstr) (last : cstr) : cstr :=
  match units with
  | [] => fixed2 scaled ++ str " " ++ last
  | unit :: units =>
      if Qltb scaled factor then fixed2 scaled ++ str " " ++ unit
      else scaled_print factor (scaled / factor) units last
  end.
Definition print_formatted_bytes (bytes : Z) : cstr :=
  scaled_print 1024 (inject_Z bytes) [str "bytes"; str "KiB"; str "MiB"; str "GiB"] (str "TiB").
Definition print_formatted_duration (time_us : Z) : cstr := fixed2 (inject_Z time_us / 1000000) ++ str " seconds".
Definition x_per_sec (bytes time_us : Z) : Q :=
  if (bytes =? 0) || (time_us =? 0) then 0 else (inject_Z bytes * 8) / (inject_Z time_us / 1000000).
Definition print_formatted_speed (bytes time_us : Z) : cstr :=
  scaled_print 1000 (x_per_sec bytes time_us)
    [str "bits/sec"; str "Kbits/sec"; str "Mbits/sec"; str "Gbits/sec"] (str "Tb/s").

(** The number that is printed and its unit stand for the value: it is the value divided
    once by the factor for every unit passed, less than the factor unless the units have run
    out, and not less than one unless the first unit is used. *)
Lemma scaled_print_spec (factor : Q) last : (0 < factor)%Q -> forall units scaled,
  exists k : nat, (k <= length units)%nat /\
    (exists q : Q, (q * factor ^ Z.of_nat k == scaled)%Q /\
      scaled_print factor scaled units last = fixed2 q ++ str " " ++ nth k units last /\
      ((k < length units)%nat -> (q < factor)%Q) /\ ((0 < k)%nat -> (1 <= q)%Q)).
Proof.
  intros Hf units. induction units as [|unit units IH]; intros scaled; cbn [scaled_print length].
  - exists 0%nat. split; [lia|]. exists scaled. split_and!; [apply Qmult_1_r|done|lia|lia].
  - destruct (Qltb scaled factor) eqn:E.
    + exists 0%nat. split; [lia|]. exists scaled. unfold Qltb in E. apply negb_true_iff in E.
      split_and!; [apply Qmult_1_r|done| |lia]. intros _. apply Qnot_le_lt. rewrite <- Qle_bool_iff. congruence.
    + destruct (IH (scaled / factor)%Q) as (k & Hk & q & Hq & Ht & Hlt & Hge). exists (S k). split; [lia|].
      exists q. assert (Hf0 : ~ factor == 0) by (intros Z0; rewrite Z0 in Hf; by apply (Qlt_irrefl 0)).
      split_and!; [|done|intros; apply Hlt; lia|].
      * rewrite Nat2Z.inj_succ. unfold Z.succ. rewrite Qpower_plus by done. cbn [Qpower].
        rewrite Qmult_assoc, Hq. change (Qpower_positive factor 1) with factor. field. done.
      * intros _. destruct k as [|k]; [|apply Hge; lia]. change (q * 1 == scaled / factor)%Q in Hq.
        unfold Qltb in E. apply negb_false_iff, Qle_bool_iff in E.
        assert (E1 : (q == scaled / factor)%Q) by (rewrite <- Hq; symmetry; apply Qmult_1_r). rewrite E1.
        apply Qle_shift_div_l; [done|]. by rewrite Qmult_1_l.
Qed.

Example sizes :
  String.string_of_list_ascii <$> [print_formatted_bytes 1023; print_formatted_bytes 1536; print_formatted_bytes 1048575;
    print_formatted_speed 12500000 1000000; print_formatted_speed 5 0; print_formatted_duration 1500000]
  = ["1023.00 bytes"; "1.50 KiB"; "1024.00 KiB"; "100.00 Mbits/sec"; "0.00 bits/sec"; "1.50 seconds"]%string.
Proof. vm_compute. reflexivity. Qed.
Example log_ex :
  Log {| to_syslog := true; isatty := true; log_file_ok := true; log_name := None;
         ctime := str "Thu Jan  1 00:00:00 1970" ++ [NL] |} 4 4 (str "No target" ++ [NL])
  = Ok (Some (Stderr (str "Thu Jan  1 00:00:00 1970 WARNING: No target" ++ [NL]))).
Proof. reflexivity. Qed.
