(* ===== verification/Remote.v ===== *)
(** The command that runs a test on another machine (src/measured/remote-client.c): its
    options, the request it makes of them, and what comes of it at the server, from the
    command line to the printed result. *)
From stdpp Require Import gmap.
From S2P Require Import Prelude CLib Address SchedTime ParamString Nametable Acl Targets Schedule Testlib Run Controlmsg Sockets Control Files Certs Config Boot Daemon Accept Packets.
#[local] Open Scope Z_scope.

(** ** Options *)

(** The long options: whether an argument is required, and the letter they stand for. *)
Definition long_options : list (string * bool * ascii) :=
  [("cacert", true, "0"%char); ("cert", true, "9"%char); ("key", true, "8"%char); ("connect", true, "c"%char);
   ("port", true, "p"%char); ("test", true, "t"%char); ("list", true, "l"%char); ("args", true, "a"%char);
   ("debug", false, "x"%char); ("help", false, "h"%char)]%string.
(** What getopt_long() makes of a long option written in full and the word after it. *)
Definition long_option (name : string) (next : option cstr) : getopt_t :=
  match find (fun o => String.eqb (fst (fst o)) name) long_options with
  | Some (_, true, c) =>
      match next with
      | Some w => {| opt := c; optarg := Some w; next_word := None |}
      | None => {| opt := "?"%char; optarg := None; next_word := None |}
      end
  | Some (_, false, c) => {| opt := c; optarg := None; next_word := next |}
  | None => {| opt := "?"%char; optarg := None; next_word := next |}
  end.

(** The local variables of main().  [None] in one of the first three is a member of
    [sslopts] that nothing was stored in; the others are NULL. *)
Record client_opts : Type := {
  x_cacert : option cstr; x_cert : option cstr; x_key : option cstr;
  x_args : option cstr; x_host : cstr; x_port : cstr; x_test : option cstr; x_list : bool; x_debug : bool;
  x_sourcev4 : option (list sockaddr); x_sourcev6 : option (list sockaddr); x_device : option cstr
}.
Definition DEFAULT_AMPLET_CONTROL_PORT : cstr := str "8869".
Definition no_opts : client_opts := {|
  x_cacert := None; x_cert := None; x_key := None; x_args := None; x_host := str "localhost";
  x_port := DEFAULT_AMPLET_CONTROL_PORT; x_test := None; x_list := false; x_debug := false;
  x_sourcev4 := None; x_sourcev6 := None; x_device := None |}.

Section Client.
(** getaddrinfo() for a numeric address, and the directory of test modules the program
    was built with. *)
Context (numeric : cstr -> Z * list sockaddr) (AMP_TEST_DIRECTORY : cstr).

(** One option, or the status main() exits with. *)
Definition client_option (g : getopt_t) (o : client_opts) : client_opts + Z :=
  let '{| x_cacert := ca; x_cert := ce; x_key := k; x_args := a; x_host := h; x_port := p; x_test := t; x_list := l;
          x_debug := x; x_sourcev4 := s4; x_sourcev6 := s6; x_device := d |} := o in
  let arg := default [] (optarg g) in
  match opt g with
  | "0" => inl (Build_client_opts (optarg g) ce k a h p t l x s4 s6 d)
  | "9" => inl (Build_client_opts ca (optarg g) k a h p t l x s4 s6 d)
  | "8" => inl (Build_client_opts ca ce (optarg g) a h p t l x s4 s6 d)
  | "a" => inl (Build_client_opts ca ce k (optarg g) h p t l x s4 s6 d)
  | "c" => inl (Build_client_opts ca ce k a arg p t l x s4 s6 d)
  | "l" => inl (Build_client_opts ca ce k a h p t true x s4 s6 d)
  | "p" => inl (Build_client_opts ca ce k a h arg t l x s4 s6 d)
  | "t" => inl (Build_client_opts ca ce k a h p (optarg g) l x s4 s6 d)
  | "x" => inl (Build_client_opts ca ce k a h p t l true s4 s6 d)
  | "4" => inl (Build_client_opts ca ce k a h p t l x (get_numeric_address numeric arg) s6 d)
  | "6" => inl (Build_client_opts ca ce k a h p t l x s4 (get_numeric_address numeric arg) d)
  | "I" => inl (Build_client_opts ca ce k a h p t l x s4 s6 (optarg g))
  | "h" | "?" => inr EXIT_SUCCESS
  | _ => inr EXIT_FAILURE
  end%char.
Fixpoint client_options (l : list getopt_t) (o : client_opts) : client_opts + Z :=
  match l with
  | [] => inl o
  | g :: l => match client_option g o with inl o => client_options l o | inr e => inr e end
  end.

(** ** The run *)

(** What the machine answers: the test modules found, whether OpenSSL works, and what
    getaddrinfo() makes of the host: its first address, and the canonical name. *)
Record client_env : Type := {
  e_found : list candidate; e_seeded : bool; e_ssl : ssl_calls;
  e_getaddrinfo : cstr -> cstr -> option (sockaddr * cstr)
}.
(** get_registered_tests() and list_all_tests(); the array is there once tests were
    registered. *)
Definition get_registered_tests (r : Z * list registered) : option (list registered) :=
  if fst r =? 0 then Some (snd r) else None.
Definition list_all_tests (r : Z * list registered) : list cstr :=
  (str "Available tests (" ++ AMP_TEST_DIRECTORY ++ str ")") ::
  match get_registered_tests r with
  | None => [str "  none"]
  | Some tests => (fun t => str "  " ++ test_name (def (reg t))) <$> tests
  end.
Definition get_registered_by_name (amp_tests : list registered) (name : cstr) : option registered :=
  find (fun t => strcmp_eq (test_name (def (reg t))) name) amp_tests.

Inductive outcome : Type :=
| Exit (status : Z) (text : list cstr)
| Usage (status : Z)
| Ran (status : Z) (out : client_out) (fds : list Z).   (* with the descriptors that are left open *)

(** The key material has to be set by then: the members of [sslopts] have no value of
    their own. *)
Definition key_material (o : client_opts) : res ssl_opt :=
  match x_cacert o, x_cert o, x_key o with
  | Some ca, Some ce, Some k => Ok {| o_cacert := Some ca; o_key := Some k; o_cert := Some ce; o_keys_dir := [] |}
  | _, _, _ => Fault Uninitialised
  end.
Definition first_address (l : option (list sockaddr)) : option sockaddr := match l with Some (a :: _) => Some a | _ => None end.
Definition sockopts (o : client_opts) : server_opts := {|
  so_opts := {| sock_mss := 0; sock_disable_nagle := 0; sock_rcvbuf := 0; sock_sndbuf := 0; reuse_addr := 0; dscp := 0 |};
  device := x_device o; socktype := 0;
  sourcev4 := first_address (x_sourcev4 o); sourcev6 := first_address (x_sourcev6 o) |}.
(** OpenSSL once the context exists. *)
Definition with_context (T : Openssl) : Openssl := {|
  ssl_ctx := true; bio_new_socket := @bio_new_socket T; bio_new_ssl := @bio_new_ssl T; do_handshake := @do_handshake T;
  verify_result_ok := @verify_result_ok T; peer_certificate := @peer_certificate T |}.
Definition status_of (out : client_out) : Z := match out with ClientFailed _ => EXIT_FAILURE | _ => EXIT_SUCCESS end.
Definition finish (out : client_out) : sys outcome := fun w => Ok (Ran (status_of out) out (Sockets.fds w), w).
(** close_control_connection() *)
Definition close_control_connection (ctrl : option Z) : sys unit :=
  match ctrl with None => mret tt | Some fd => Sockets.close fd end.

Context `{K : Kernel} `{T : Openssl} `{P : Protobuf MControl}.

(** The connection and the exchange on it; the connection is closed on the way out, except
    where the program exits at once. *)
Definition exchange (o : client_opts) (test : registered) (operands : list cstr) (dest : sockaddr * cstr)
    (wenv : list (Controlmsg.io Z)) (renv : list (Controlmsg.io (list Z))) : sys outcome :=
  ctrl ← @connect_control_server K (with_context T) (fst dest) (snd dest) (atoi (x_port o)) (Some (sockopts o));
  match ctrl with
  | None => finish (ClientFailed (str "failed to connect control server"))
  | Some fd =>
      out ← Sockets.lift (remote_client (id (reg test)) operands (x_args o) wenv renv);
      _ ← (match out with ClientFailed _ => mret tt | _ => close_control_connection (Some fd) end : sys unit);
      finish out
  end.

(** main(): [l] is what getopt_long() returned, [operands] the words after the options. *)
Definition client_main (env : client_env) (l : list getopt_t) (operands : list cstr)
    (wenv : list (Controlmsg.io Z)) (renv : list (Controlmsg.io (list Z))) : sys outcome :=
  match client_options l no_opts with
  | inr status => mret (Usage status)
  | inl o =>
      let registered := register_tests (Some AMP_TEST_DIRECTORY) (e_found env) in
      if x_list o then mret (Exit EXIT_SUCCESS (list_all_tests registered))
      else match x_test o with
           | None => mret (Usage EXIT_FAILURE)
           | Some name =>
               match get_registered_by_name (snd registered) name with
               | None => mret (Exit EXIT_FAILURE ((str "Invalid test: " ++ name) :: list_all_tests registered))
               | Some test =>
                   if negb (e_seeded env) then mret (Exit EXIT_FAILURE [])
                   else
                     keys ← Sockets.lift (key_material o);
                     ctx ← Sockets.lift (initialise_ssl_context (e_ssl env) keys);
                     match fst ctx with
                     | None => mret (Exit EXIT_FAILURE [])
                     | Some _ =>
                         match e_getaddrinfo env (x_host o) (x_port o) with
                         | None => Sockets.lift (Fault Uninitialised)   (* the result is not looked at, [dest] not set *)
                         | Some dest => exchange o test operands dest wenv renv
                         end
                     end
               end
           end
  end.
End Client.

(** ** What the server makes of the request *)

Definition ids (targets : list cstr) : list Z := Z.of_nat <$> seq 0 (length targets).
Lemma target_array_ids targets : Control.target_array targets = Targets.target_array (ids targets).
Proof. unfold Control.target_array, Targets.target_array, ids. by rewrite <- list_fmap_compose. Qed.
Lemma document_lookup targets (i : nat) : target_document targets !! Z.of_nat i = YScalar <$> targets !! i.
Proof.
  unfold target_document.
  assert (H : forall k, (list_to_map (imap (fun j s => (Z.of_nat (k + j), YScalar s)) targets) : yaml_document) !! Z.of_nat (k + i)
                        = YScalar <$> targets !! i); [|apply (H 0%nat)].
  revert i. induction targets as [|s targets IH]; intros i k; [by destruct i|].
  cbn [imap]. rewrite list_to_map_cons. destruct i as [|i].
  - rewrite Nat.add_0_r. by rewrite lookup_insert_eq.
  - rewrite lookup_insert_ne by lia. change ((s :: targets) !! S i) with (targets !! i). rewrite <- (IH i (S k)).
    replace (S k + i)%nat with (k + S i)%nat by lia. f_equal. f_equal. apply imap_ext. intros j x _. cbn. do 2 f_equal. lia.
Qed.
Lemma ids_elem targets i : i ∈ ids targets -> exists j s, i = Z.of_nat j /\ targets !! j = Some s.
Proof.
  intros (j & -> & Hj)%list_elem_of_fmap. apply elem_of_seq in Hj.
  destruct (lookup_lt_is_Some_2 targets j) as [s Hs]; [lia|]. eauto.
Qed.
Lemma scalars_document targets : scalar_at (target_document targets) <$> ids targets = targets.
Proof.
  apply list_eq. intros i. unfold ids. rewrite !list_lookup_fmap. destruct (decide (i < length targets)%nat) as [Hi|Hi].
  - rewrite lookup_seq_lt by done. cbn. unfold scalar_at. rewrite document_lookup.
    destruct (lookup_lt_is_Some_2 targets i) as [s ->]; done.
  - rewrite lookup_seq_ge, (lookup_ge_None_2 targets) by lia. done.
Qed.

(** Targets that name something, without a limit on their addresses. *)
Definition plain_target (s : cstr) : Prop := strtok_all BANG s <> [] /\ unlimited s.

Lemma command_line_targets nt test targets :
  nt_ok nt -> max_targets test = 0 -> Forall plain_target targets ->
  exists document t left,
    populate_target_lists nt test (target_document targets) (Some (Control.target_array targets)) = Ok (document, t, left) /\
    dests t = mjoin (view_dests <$> (target_view nt <$> targets)) /\
    resolve t = rev (omap view_resolve (target_view nt <$> targets)).
Proof.
  intros Hnt Hm Ht. rewrite target_array_ids. unfold populate_target_lists. rewrite Hm.
  destruct (populate_loop_all nt (target_document targets) no_targets (ids targets)) as (d & t & E & Hd & Hr); [done| | | |].
  - unfold ids. apply NoDup_fmap_2; [apply _|apply NoDup_seq].
  - intros i (j & s & -> & Hs)%ids_elem. rewrite document_lookup, Hs. rewrite Forall_lookup in Ht.
    destruct (Ht _ _ Hs) as [Hne _]. destruct (strtok_all BANG s) as [|a opts] eqn:Es; [done|]. by exists s, a, opts.
  - intros i (j & s & -> & Hs)%ids_elem. unfold scalar_at. rewrite document_lookup, Hs. rewrite Forall_lookup in Ht.
    by destruct (Ht _ _ Hs).
  - rewrite E, bind_Ok. exists d, t. eexists. rewrite Hd, Hr, scalars_document. cbn. rewrite app_nil_r. done.
Qed.

(** ** From the command line to the printed result *)

Section Outcome.
Context `{K : Kernel} `{T : Openssl} `{P : Protobuf MControl} `{L : !ProtobufLaws MControl}.
Context (numeric : cstr -> Z * list sockaddr) (test_dir : cstr).

Definition reliable_ssl : ssl_calls := {|
  c_new := true; c_certificate := true; c_private_key := true; c_matches := true; c_verify_locations := true;
  c_ciphers := true; c_curve := true; c_tmp_ecdh := true |}.

(** A command line that asks for a test the client knows, with its keys, where the
    connection [fd] to the server can be made. *)
Record asks (env : client_env) (l : list getopt_t) (o : client_opts) (test : registered) (w : world) (fd : Z)
    (w' : world) : Prop := {
  a_options : client_options numeric l no_opts = inl o;
  a_no_list : x_list o = false;
  a_test : (name ← x_test o; get_registered_by_name (snd (register_tests (Some test_dir) (e_found env))) name) = Some test;
  a_keys : is_Some (x_cacert o) /\ is_Some (x_cert o) /\ is_Some (x_key o);
  a_ssl : e_seeded env = true /\ e_ssl env = reliable_ssl;
  a_connect : exists dest, e_getaddrinfo env (x_host o) (x_port o) = Some dest /\
    @connect_control_server K (with_context T) (fst dest) (snd dest) (atoi (x_port o)) (Some (sockopts o)) w = Ok (Some fd, w')
}.

(** What is left when the connection has been closed. *)
Definition closed (fd : Z) (w : world) : world :=
  {| Sockets.fds := filter (fun x => x <> fd) (Sockets.fds w); next_fd := next_fd w; trace := trace w ++ [Close fd] |}.

Lemma client_main_exchange env l o test w fd w' operands wenv renv out :
  asks env l o test w fd w' ->
  remote_client (id (reg test)) operands (x_args o) wenv renv = Ok out -> status_of out = EXIT_SUCCESS ->
  client_main numeric test_dir env l operands wenv renv w
  = Ok (Ran EXIT_SUCCESS out (filter (fun x => x <> fd) (Sockets.fds w')), closed fd w').
Proof using.
  intros [Ho Hl Ht Hk [Hs Hc] (dest & Hd & Hcon)] Hout Hst. unfold client_main. rewrite Ho, Hl.
  destruct (x_test o) as [name|]; [|discriminate]. cbn [mbind option_bind] in Ht. rewrite Ht, Hs. cbn [negb].
  unfold mbind, sys_bind, Sockets.lift, key_material.
  destruct Hk as ([ca ->] & [ce ->] & [k ->]). rewrite Hc. cbn [initialise_ssl_context o_cacert o_cert o_key].
  cbn. rewrite Hd. unfold exchange, mbind, sys_bind, Sockets.lift. rewrite Hcon, Hout.
  destruct out; [discriminate|reflexivity..].
Qed.

Lemma remote_client_refused test_id targets params wenv code text renv :
  0 <= fst (fst (send_measured wenv (test_msg test_id targets params))) ->
  valid (response_msg code text) -> msmall (response_msg code text) -> code <> MEASURED_CONTROL_OK ->
  stream renv = frame (pack (response_msg code text)) ->
  remote_client test_id targets params wenv renv = Ok (StartError code text).
Proof using L.
  intros Hw Hv Hs Hc Hst. unfold remote_client. destruct (send_measured wenv _) as [[r out] wenv']. cbn in Hw.
  rewrite (proj2 (Z.ltb_ge r 0)) by lia.
  destruct (packet_framed (response_msg code text) renv []) as (renv1 & Hr1 & _);
    [done|by eapply mtyped_not_init|done|constructor|by rewrite app_nil_r|].
  assert (Hrd : read_measured_response renv = Ok (0, Some (code, text), renv1)).
  { unfold read_measured_response, parse_measured_response.
    rewrite Hr1, (proj2 (Z.ltb_ge _ _)) by lia. by rewrite unpack_pack. }
  rewrite Hrd, bind_Ok. change (0 <? 0) with false. cbv iota. by rewrite (proj2 (Z.eqb_neq _ _) Hc).
Qed.

(** The server: its tests, names, access control list, and the machine it runs on. *)
Context (amp_tests : list module) (name_table : list nametable_t) (acl : acl_root)
  (bound_device : option cstr) (local : option (Z * cstr))
  (callback : list cstr -> list (Controlmsg.io (list Z)) -> list (Controlmsg.io (list Z))).
Definition serve := process_control_message amp_tests name_table acl true bound_device local callback.

(** What the server sends back: its responses, and what the test measured. *)
Definition wire (data : list Z) (a : served) : list Z :=
  match a with
  | Reply code text => frame (pack (response_msg code text))
  | TestRun m _ _ => frame (pack (mresult_msg (id m) data))
  | ServerRun _ => []
  end.
Definition view (targets : list cstr) := target_view name_table <$> targets.
Definition named (targets : list cstr) : nat :=
  (length (mjoin (view_dests <$> view targets)) + length (omap view_resolve (view targets)))%nat.

(** Targets the test [m] takes, without a maximum, and arguments that can be split. *)
Record runnable (m : module) (targets : list cstr) (params : option cstr) (ps : option (list cstr)) : Prop := {
  r_names : nt_ok name_table;
  r_max : max_targets (def m) = 0;
  r_plain : Forall plain_target targets;
  r_params : parse_param_string params = Ok ps;
  r_enough : min_targets (def m) <= Z.of_nat (named targets) < 4294967296
}.

Lemma single_test m targets params ps :
  runnable m targets params ps -> get_test_by_id amp_tests (id m) = Some m -> valid (test_msg (id m) targets params) ->
  exists t, do_single_test amp_tests name_table (pack (test_msg (id m) targets params)) = Ok (Some (m, t, ps)) /\
    dests t = mjoin (view_dests <$> view targets) /\ resolve t = rev (omap view_resolve (view targets)).
Proof using L.
  intros [Hnt Hmax Hpl Hps Hn] Hm Hv. unfold do_single_test, parse_single_test. rewrite unpack_pack by done.
  cbn [m_type test_msg m_test]. rewrite bool_decide_eq_true_2 by done. cbn [negb]. rewrite Hm, Hps, bind_Ok.
  destruct (command_line_targets name_table (def m) targets Hnt Hmax Hpl) as (d & t & rest & E & Hd & Hr).
  pose proof (populate_target_lists_counts name_table (def m) _ _ _ ltac:(lia) E) as (Cd & Cr & _). cbn [fst snd] in Cd, Cr.
  exists t. split; [|done].
  assert (Ht : (match targets with [] => Ok no_targets | _ :: _ =>
      r ← populate_target_lists name_table (def m) (target_document targets) (Some (Control.target_array targets));
      Ok (snd (fst r)) end) = Ok t).
  { destruct targets; [|rewrite E; done]. cbn in E. congruence. }
  rewrite Ht, !bind_Ok. rewrite c_assert_true; [done|].
  apply Z.geb_le. unfold total_count. rewrite Cd, Cr, Hd, Hr, length_rev.
  unfold named, view in Hn. rewrite !(u32_id (Z.of_nat _)) by lia. rewrite u32_id; lia.
Qed.

(** Messages the codec takes and the connection carries. *)
Definition sendable (m : MControl) : Prop := valid m /\ msmall m.
Definition refused : served := Reply MEASURED_CONTROL_FORBIDDEN (str "Requires TEST permissions").

Lemma serve_one_test cn m targets params ps wenv senv :
  runnable m targets params ps -> get_test_by_id amp_tests (id m) = Some m -> sendable (test_msg (id m) targets params) ->
  delivered (send_measured wenv (test_msg (id m) targets params)) senv [] ->
  (get_acl (Some acl) (Some cn) ACL_TEST = 0 -> serve cn senv = Ok [refused]) /\
  (get_acl (Some acl) (Some cn) ACL_TEST <> 0 -> exists t,
     serve cn senv = Ok [Reply MEASURED_CONTROL_OK (str "OK"); TestRun m t ps] /\
     dests t = mjoin (view_dests <$> view targets) /\ resolve t = rev (omap view_resolve (view targets))).
Proof using L.
  intros Hrun Hm [Hv Hs] Hd. set (msg := test_msg (id m) targets params) in *.
  pose proof (pack_nonempty msg Hv ltac:(by eapply mtyped_not_init)) as Hne.
  destruct (measured_arrives msg TYPE_TEST wenv senv [] Hv eq_refl Hs Hd) as (senv' & Hr & Hst).
  assert (Hlen : (0 < length (stream senv))%nat).
  { destruct (stream senv) eqn:Es; [|cbn; lia]. pose proof (read_control_packet_spec senv ltac:(rewrite Es; constructor)) as Hsp.
    rewrite Es in Hsp. cbn in Hsp. destruct Hsp as (env' & Hsp). rewrite Hr in Hsp. injection Hsp as Hl _ _. lia. }
  unfold serve, process_control_message. destruct (length (stream senv)) as [|n]; [lia|].
  cbn [process_loop]. rewrite Hr. destruct (Z.gtb_spec (Z.of_nat (length (pack msg))) 0) as [_|Hz];
    [|destruct (pack msg); [done|cbn in Hz; lia]].
  rewrite unpack_pack by done. cbn [m_type msg test_msg]. rewrite bool_decide_eq_false_2 by done.
  unfold process_message. cbn [m_type test_msg]. bd. split.
  - intros ->. cbn [negb Z.eqb]. rewrite bind_Ok. cbn [snd fst].
    pose proof (read_control_packet_spec senv' ltac:(rewrite Hst; constructor)) as Hsp. rewrite Hst in Hsp. cbn in Hsp.
    destruct Hsp as (env' & ->). done.
  - intros Hacl. destruct (Z.eqb_spec (get_acl (Some acl) (Some cn) ACL_TEST) 0); [done|]. cbn [negb].
    destruct (single_test m targets params ps Hrun Hm Hv) as (t & E & Hdests & Hres). exists t.
    subst msg. rewrite E, !bind_Ok. done.
Qed.

(** C16: a test asked for on the command line of one machine is run on another as it was
    asked for, for the tests that take any number of targets (those with max_targets 0: icmp, tcpping, traceroute, dns, youtube and sip; not those with
    a maximum, such as throughput, udpstream and http).  The conditions: the client knows the test and has all three key files, its
    OpenSSL works and it can connect to the server, which knows a test of the same number; every operand names
    something and none has a !count; together they stand for at least the test's
    min_targets; the argument string can be split; the four messages fit the
    codec and the 10 MiB of a packet; and the request arrives as it was written.  Then the client sends one
    request, and the server, whatever else it has registered, runs the test of that number with
    the arguments split as parse_param_string() splits them and exactly the addresses and
    names the operands stand for, if the access control list gives the client's name the
    permission, and nothing otherwise.  When the server's answers arrive, the client prints what the test measured, or
    the refusal, and in both cases has closed its connection. *)
Theorem remote_test_end_to_end env l o test operands w fd w' wenv renv senv cn m ps data :
  asks env l o test w fd w' -> id m = id (reg test) -> get_test_by_id amp_tests (id m) = Some m ->
  runnable m operands (x_args o) ps ->
  Forall sendable [test_msg (id m) operands (x_args o); response_msg MEASURED_CONTROL_OK (str "OK");
                   response_msg MEASURED_CONTROL_FORBIDDEN (str "Requires TEST permissions"); mresult_msg (id m) data] ->
  delivered (send_measured wenv (test_msg (id m) operands (x_args o))) senv [] ->
  exists log, serve cn senv = Ok log /\
    (if get_acl (Some acl) (Some cn) ACL_TEST =? 0 then log = [refused]
     else exists t, log = [Reply MEASURED_CONTROL_OK (str "OK"); TestRun m t ps] /\
       dests t = mjoin (view_dests <$> view operands) /\ resolve t = rev (omap view_resolve (view operands))) /\
    (stream renv = concat (wire data <$> log) ->
     client_main numeric test_dir env l operands wenv renv w
     = Ok (Ran EXIT_SUCCESS
             (if get_acl (Some acl) (Some cn) ACL_TEST =? 0
              then StartError MEASURED_CONTROL_FORBIDDEN (str "Requires TEST permissions") else Printed data)
             (filter (fun x => x <> fd) (Sockets.fds w')), closed fd w')).
Proof using L.
  intros Ha Hid Hm Hrun Hsend Hd.
  inversion Hsend as [|? ? Hreq Hs1]; inversion Hs1 as [|? ? [Hv1 Ho1] Hs2]; inversion Hs2 as [|? ? [Hv2 Ho2] Hs3];
    inversion Hs3 as [|? ? [Hv3 Ho3] _]; subst.
  assert (Hw : 0 <= fst (fst (send_measured wenv (test_msg (id m) operands (x_args o))))).
  { unfold delivered in Hd. destruct (send_measured _ _) as [[r out] wenv']. naive_solver. }
  destruct (serve_one_test cn m operands (x_args o) ps wenv senv Hrun Hm Hreq Hd) as [Hno Hyes].
  destruct (Z.eqb_spec (get_acl (Some acl) (Some cn) ACL_TEST) 0) as [E|E].
  - exists [refused]. split_and!; [by apply Hno|done|]. cbn [fmap list_fmap concat wire refused]. rewrite app_nil_r. intros Hst.
    eapply client_main_exchange; [done| |done]. rewrite <- Hid. by apply remote_client_refused.
  - destruct (Hyes E) as (t & Hlog & Ht). eexists. split_and!; [done|by exists t|]. cbn [fmap list_fmap concat wire].
    intros Hst. eapply client_main_exchange; [done| |done]. rewrite <- Hid.
    destruct (remote_client_reports (id m) operands (x_args o) wenv MEASURED_CONTROL_OK (str "OK") renv
      (mresult_msg (id m) data) []) as (_ & H & _); [done..|constructor|done|]. by apply H.
Qed.
End Outcome.

(** ** A test of another machine *)

Definition word (c : ascii) (a : string) : getopt_t := {| opt := c; optarg := Some (str a); next_word := None |}.
Definition command_line : list getopt_t :=
  [word "c" "amp.example.org"; word "t" "icmp"; word "a" "-s 84"; word "0" "ca.pem"; word "9" "cert.pem"; word "8" "key.pem"].
Definition no_numeric (s : cstr) : Z * list sockaddr := (-2, []).
Definition remote_host : sockaddr := SockIn 3232235777.
Definition client_machine : client_env := {|
  e_found := [NoSymbol; TestInfo (plain_module 1 t_icmp)]; e_seeded := true; e_ssl := reliable_ssl;
  e_getaddrinfo := fun h p => Some (remote_host, str "amp.example.org") |}.
Definition their_tests : list module := [throughput_module; plain_module 1 t_icmp].
Definition testers : acl_root := snd (add_acl initialise_acl (str ".example.org") ACL_TEST 1).
Definition asked : MControl := test_msg 1 [str "a"; str "b"] (Some (str "-s 84")).
Definition result_bytes : list Z := [10; 3; 7].
Definition wide : list (Controlmsg.io Z) := [Moved 4; Moved 100000].
Definition opts_of (l : list getopt_t) : client_opts :=
  match client_options no_numeric l no_opts with inl o => o | inr _ => no_opts end.
Definition icmp_registered : registered := {| reg := plain_module 1 t_icmp; client_params := None |}.

Lemma command_line_asks : exists w', @asks easy_kernel trusting no_numeric (str "/usr/lib/amplet2") client_machine command_line
  (opts_of command_line) icmp_registered fresh_world 3 w' /\ Sockets.fds w' = [3; 0; 1; 2].
Proof.
  eexists. split; [constructor|].
  - reflexivity.
  - reflexivity.
  - reflexivity.
  - repeat split; eexists; reflexivity.
  - split; reflexivity.
  - eexists. split; [reflexivity|]. vm_compute. reflexivity.
  - reflexivity.
Defined.
Lemma asked_runnable : runnable [] (plain_module 1 t_icmp) [str "a"; str "b"] (Some (str "-s 84"))
  (Some [str "-s"; str "84"]).
Proof.
  constructor.
  - intros name. by exists None.
  - reflexivity.
  - repeat constructor; vm_compute; discriminate || reflexivity.
  - reflexivity.
  - vm_compute. split; [discriminate|reflexivity].
Qed.

Lemma asked_sendable : Forall (@sendable measured_coding) [asked; response_msg MEASURED_CONTROL_OK (str "OK");
  response_msg MEASURED_CONTROL_FORBIDDEN (str "Requires TEST permissions"); mresult_msg 1 result_bytes].
Proof.
  repeat (apply List.Forall_cons; [split; [apply (bool_decide_unpack (mcontrol_valid _)); vm_compute; exact I
                                          |unfold msmall; vm_compute; discriminate]|]). constructor.
Qed.
Lemma asked_delivered : delivered (@send_measured measured_coding wide asked) (sends [asked]) [].
Proof.
  assert (E : @send_measured measured_coding wide asked
    = (Z.of_nat (length (@pack _ measured_coding asked)), frame (@pack _ measured_coding asked), [])) by (vm_compute; reflexivity).
  unfold delivered. rewrite E. split_and!; [lia|constructor|]. vm_compute. reflexivity.
Qed.
Lemma replies_arrive t ps :
  stream (sends [response_msg MEASURED_CONTROL_OK (str "OK"); mresult_msg 1 result_bytes])
  = concat (@wire measured_coding result_bytes <$> [Reply MEASURED_CONTROL_OK (str "OK"); TestRun (plain_module 1 t_icmp) t ps]).
Proof. vm_compute. reflexivity. Qed.

Lemma remote_test_end_to_end_witness :
  exists w', @client_main no_numeric (str "/usr/lib/amplet2") easy_kernel trusting measured_coding client_machine command_line
    [str "a"; str "b"] wide
    (sends [response_msg MEASURED_CONTROL_OK (str "OK"); mresult_msg 1 result_bytes]) fresh_world
  = Ok (Ran EXIT_SUCCESS (Printed result_bytes) [0; 1; 2], w').
Proof.
  set (P := measured_coding). assert (L : @ProtobufLaws MControl _ P) by apply measured_coding_laws.
  destruct command_line_asks as (w' & Ha & Hfds).
  destruct (@remote_test_end_to_end easy_kernel trusting P L no_numeric (str "/usr/lib/amplet2") their_tests [] testers None local_v4
    keep client_machine command_line (opts_of command_line) icmp_registered [str "a"; str "b"]
    fresh_world 3 w' wide (sends [response_msg MEASURED_CONTROL_OK (str "OK"); mresult_msg 1 result_bytes])
    (sends [asked]) (str "client.example.org") (plain_module 1 t_icmp) (Some [str "-s"; str "84"]) result_bytes)
    as (log & Hlog & Hwhat & Hrun).
  - exact Ha.
  - reflexivity.
  - reflexivity.
  - apply asked_runnable.
  - apply asked_sendable.
  - apply asked_delivered.
  - assert (Hacl : (get_acl (Some testers) (Some (str "client.example.org")) ACL_TEST =? 0) = false) by reflexivity.
    rewrite Hacl in Hwhat, Hrun. destruct Hwhat as (t & -> & _). rewrite Hfds in Hrun. eexists. apply Hrun.
    apply replies_arrive.
Defined.

(** --list needs an argument: alone, it prints the usage and exits as if all was well. *)
Example list_needs_argument env operands wenv renv w :
  @client_main no_numeric (str "/usr/lib/amplet2") easy_kernel trusting measured_coding env [long_option "list" None] operands
    wenv renv w = Ok (Usage EXIT_SUCCESS, w).
Proof. reflexivity. Qed.
(** Without --cacert the program looks at memory it has not written. *)
Example no_keys_given :
  @client_main no_numeric (str "/usr/lib/amplet2") easy_kernel trusting measured_coding client_machine
    [word "t" "icmp"] [] wide [] fresh_world = Fault Uninitialised.
Proof. reflexivity. Qed.
(** Nor does it notice that the host has no address. *)
Example unknown_host :
  @client_main no_numeric (str "/usr/lib/amplet2") easy_kernel trusting measured_coding
    {| e_found := e_found client_machine; e_seeded := true; e_ssl := reliable_ssl; e_getaddrinfo := fun _ _ => None |}
    command_line [] wide [] fresh_world = Fault Uninitialised.
Proof. reflexivity. Qed.
