(* ===== verification/Release.v ===== *)
(** Memory that is given back: the functions of measured that free what it keeps
    (free_acl() of src/measured/acl.c, unregister_tests() of src/common/modules.c,
    free_control_config() of src/measured/control.c, free_global_vars() and
    free_local_meta_vars() of src/measured/measured.c, and the end of its main(), free_fetch_schedule_item() of src/measured/schedule.c,
    amp_resolve_freeaddr() of src/common/ampresolv.c, free_duped_environ() of
    src/common/testlib.c).

    Structures are seen as the blocks they are made of: a pointer is the number of a block,
    [None] is NULL.  The state is the set of blocks malloc() has given and nobody freed,
    with the handles of dlopen() and the events of libevent among them; freeing anything
    else is a fault. *)
From stdpp Require Import gmap.
From S2P Require Import Prelude.
#[local] Open Scope Z_scope.
#[local] Set Warnings "-register-all".

Definition blocks := gset Z.
Definition free (p : option Z) (h : blocks) : res blocks :=
  match p with
  | None => Ok h
  | Some b => if decide (b ∈ h) then Ok (h ∖ {[b]}) else Fault UseAfterFree
  end.
(** dlclose() and event_free() *)
Definition dlclose : option Z -> blocks -> res blocks := free.
Definition event_free : option Z -> blocks -> res blocks := free.

Fixpoint for_each {A} (f : A -> blocks -> res blocks) (l : list A) (h : blocks) : res blocks :=
  match l with [] => Ok h | x :: l => h ← f x h; for_each f l h end.

(** A function that frees what a structure owns: the blocks of [owned], each once, in some
    order. *)
Definition free_blocks (l : list Z) (h : blocks) : res blocks := for_each (fun b => free (Some b)) l h.
Definition frees {A} (owned : A -> list Z) (f : A -> blocks -> res blocks) (x : A) : Prop :=
  exists l, l ≡ₚ owned x /\ forall h, f x h = free_blocks l h.

(** The blocks of a pointer that may be NULL. *)
Definition block (p : option Z) : list Z := match p with Some b => [b] | None => [] end.

Lemma for_each_app {A} (f : A -> blocks -> res blocks) l k h :
  for_each f (l ++ k) h = (h ← for_each f l h; for_each f k h).
Proof.
  revert h. induction l as [|x l IH]; intros h; [done|]. cbn. destruct (f x h); [apply IH|done].
Qed.
Lemma free_blocks_app l k h : free_blocks (l ++ k) h = (h ← free_blocks l h; free_blocks k h).
Proof. apply for_each_app. Qed.
Lemma free_block p h : free p h = free_blocks (block p) h.
Proof. destruct p as [b|]; [|done]. cbn. by case_decide. Qed.

(** Blocks that are there are freed, all of them and no others. *)
Lemma free_blocks_spec l h : NoDup l -> list_to_set l ⊆ h -> free_blocks l h = Ok (h ∖ list_to_set l).
Proof.
  revert h. induction l as [|b l IH]; intros h Hn Hs.
  - cbn. f_equal. set_solver.
  - inversion Hn as [|? ? Hb Hn']; subst. cbn [free_blocks for_each free]. rewrite list_to_set_cons in Hs.
    rewrite decide_True by set_solver. rewrite bind_Ok. fold (free_blocks l (h ∖ {[b]})). rewrite IH; [|done|].
    + f_equal. rewrite list_to_set_cons. set_solver.
    + intros x Hx. assert (x <> b); [|set_solver]. intros ->. apply Hb. by apply elem_of_list_to_set in Hx.
Qed.
Lemma frees_all {A} (owned : A -> list Z) f x h :
  frees owned f x -> NoDup (owned x) -> list_to_set (owned x) ⊆ h -> f x h = Ok (h ∖ list_to_set (owned x)).
Proof.
  intros (l & Hl & Hf) Hn Hs. rewrite Hf, free_blocks_spec.
  - by rewrite (list_to_set_perm_L _ _ Hl).
  - by rewrite Hl.
  - by rewrite (list_to_set_perm_L _ _ Hl).
Qed.
Lemma frees_list {A} (owned : A -> list Z) f (l : list A) :
  Forall (frees owned f) l -> frees (fun l => concat (owned <$> l)) (for_each f) l.
Proof.
  induction 1 as [|x l (k & Hk & Hf) Hl (ks & Hks & Hfs)]; [by exists []|].
  exists (k ++ ks). split; [cbn; by rewrite Hk, Hks|]. intros h. cbn [for_each]. rewrite Hf, free_blocks_app.
  destruct (free_blocks k h); [apply Hfs|done].
Qed.
Lemma frees_block p : frees block free p.
Proof. exists (block p). split; [done|]. intros h. apply free_block. Qed.
(** Steps one after the other. *)
Definition steps (l : list (blocks -> res blocks)) (h : blocks) : res blocks := for_each (fun f => f) l h.
Lemma frees_steps {A} (owned : A -> list Z) f (x : A) (ks : list (list Z)) (fs : list (blocks -> res blocks)) :
  Forall2 (fun k g => exists l, l ≡ₚ k /\ forall h, g h = free_blocks l h) ks fs ->
  concat ks ≡ₚ owned x -> (forall h, f x h = steps fs h) -> frees owned f x.
Proof.
  intros H Hp Hf. enough (exists l, l ≡ₚ concat ks /\ forall h, steps fs h = free_blocks l h) as (l & Hl & He).
  { exists l. split; [by rewrite Hl|]. intros h. by rewrite Hf. }
  clear Hp Hf. induction H as [|k g ks gs (l & Hl & Hg) _ (l' & Hl' & Hs)]; [by exists []|].
  exists (l ++ l'). split; [cbn; by rewrite Hl, Hl'|]. intros h. unfold steps. cbn [for_each]. rewrite Hg, free_blocks_app.
  destruct (free_blocks l h); [apply Hs|done].
Qed.

(** ** Access control lists *)

(** The node, its label, the array of children, the counter and the children. *)
Inductive acl_mem : Type := AclMem (node label : Z) (array : option Z) (num_children : Z) (children : list acl_mem).
Fixpoint acl_owned (n : acl_mem) : list Z :=
  match n with AclMem node label array _ children => node :: label :: block array ++ concat (acl_owned <$> children) end.

Fixpoint free_acl_internal (root : acl_mem) (h : blocks) : res blocks :=
  match root with
  | AclMem node label array num children =>
      h ← (fix go (n : nat) (l : list acl_mem) (h : blocks) {struct l} : res blocks :=
             match n, l with
             | O, _ => Ok h
             | S n, c :: l => h ← free_acl_internal c h; go n l h
             | S _, [] => Fault OutOfBounds
             end) (Z.to_nat num) children h;
      h ← free (Some label) h;
      h ← free array h;
      free (Some node) h
  end.
Record acl_root_mem : Type := { a_root : Z; a_server : acl_mem; a_test : acl_mem; a_schedule : acl_mem }.
Definition acl_root_owned (a : acl_root_mem) : list Z :=
  concat [acl_owned (a_server a); acl_owned (a_test a); acl_owned (a_schedule a); [a_root a]].
Definition free_acl (root : option acl_root_mem) (h : blocks) : res blocks :=
  match root with
  | None => Ok h
  | Some a =>
      h ← free_acl_internal (a_server a) h;
      h ← free_acl_internal (a_test a) h;
      h ← free_acl_internal (a_schedule a) h;
      free (Some (a_root a)) h
  end.

(** Every counter is the number of children. *)
Fixpoint counted (n : acl_mem) : Prop :=
  match n with
  | AclMem _ _ _ num children => num = Z.of_nat (length children) /\
      (fix all (l : list acl_mem) : Prop := match l with [] => True | c :: l => counted c /\ all l end) children
  end.

Lemma acl_mem_ind' (Q : acl_mem -> Prop) :
  (forall node label array num children, Forall Q children -> Q (AclMem node label array num children)) -> forall n, Q n.
Proof.
  intros H. fix IH 1. intros [node label array num children]. apply H.
  induction children as [|c l IHl]; constructor; [apply IH|exact IHl].
Qed.
Lemma frees_acl n : counted n -> frees acl_owned free_acl_internal n.
Proof.
  induction n as [node label array num children IH] using acl_mem_ind'. cbn [counted]. intros [-> Hc].
  assert (Hall : Forall (frees acl_owned free_acl_internal) children).
  { induction IH as [|c l Hq Hl IHl]; [constructor|]. destruct Hc as [Hc Hcs]. constructor; auto. }
  assert (Hgo : forall h, (fix go (n : nat) (l : list acl_mem) (h : blocks) {struct l} : res blocks :=
             match n, l with
             | O, _ => Ok h
             | S n, c :: l => h ← free_acl_internal c h; go n l h
             | S _, [] => Fault OutOfBounds
             end) (length children) children h = for_each free_acl_internal children h).
  { clear. induction children as [|c l IH]; intros h; [done|]. cbn [length for_each].
    destruct (free_acl_internal c h); [apply IH|done]. }
  eapply (frees_steps _ _ _ [concat (acl_owned <$> children); [label]; block array; [node]]
            [for_each free_acl_internal children; free (Some label); free array; free (Some node)]).
  - repeat constructor; [apply frees_list, Hall|apply (frees_block (Some label))|apply frees_block|apply (frees_block (Some node))].
  - cbn [concat app acl_owned]. rewrite Permutation_app_comm. cbn [app]. rewrite <- app_assoc. cbn [app].
    rewrite <- Permutation_middle. apply Permutation_swap.
  - intros h. cbn [free_acl_internal]. rewrite Nat2Z.id, Hgo. unfold steps. cbn [for_each].
    destruct (for_each _ _ h) as [h1|]; [rewrite !bind_Ok|done]. destruct (free (Some label) h1) as [h2|]; [rewrite !bind_Ok|done].
    destruct (free array h2) as [h3|]; [rewrite !bind_Ok|done]. by destruct (free (Some node) h3).
Qed.

(** ** Test modules, settings and lists *)

(** A NULL-terminated array of strings. *)
Record strings_mem : Type := { s_array : Z; s_strings : list Z }.
Definition strings_owned (s : option strings_mem) : list Z :=
  match s with None => [] | Some s => s_strings s ++ [s_array s] end.
Definition free_strings (s : option strings_mem) (h : blocks) : res blocks :=
  match s with
  | None => Ok h
  | Some s => h ← for_each (fun p => free (Some p)) (s_strings s) h; free (Some (s_array s)) h
  end.

Record test_mem : Type := {
  t_test : Z; t_name : option Z; t_dlhandle : option Z; t_server : option strings_mem; t_client : option strings_mem
}.
Definition test_owned (t : test_mem) : list Z :=
  concat [block (t_name t); block (t_dlhandle t); strings_owned (t_server t); strings_owned (t_client t); [t_test t]].
Definition unregister_test (t : test_mem) (h : blocks) : res blocks :=
  h ← free (t_name t) h;
  h ← dlclose (t_dlhandle t) h;
  h ← free_strings (t_server t) h;
  h ← free_strings (t_client t) h;
  free (Some (t_test t)) h.
(** unregister_tests(): the array of tests, if there is one.  The pointer to it stays. *)
Definition tests_owned (tests : option (Z * list test_mem)) : list Z :=
  match tests with None => [] | Some (array, l) => concat (test_owned <$> l) ++ [array] end.
Definition unregister_tests (tests : option (Z * list test_mem)) (h : blocks) : res blocks :=
  match tests with
  | None => Ok h
  | Some (array, l) => h ← for_each unregister_test l h; free (Some array) h
  end.

(** free_global_vars(): ampname, local, collector, vhost, exchange, routingkey, the four
    strings of amqp_ssl, asnsock and nssock. *)
Record vars_mem : Type := {
  v_ampname : option Z; v_local : option Z; v_collector : option Z; v_vhost : option Z; v_exchange : option Z;
  v_routingkey : option Z; v_keys_dir : option Z; v_cacert : option Z; v_cert : option Z; v_key : option Z;
  v_asnsock : option Z; v_nssock : option Z
}.
Definition vars_fields (v : vars_mem) : list (option Z) :=
  [v_ampname v; v_local v; v_collector v; v_vhost v; v_exchange v; v_routingkey v; v_keys_dir v; v_cacert v; v_cert v;
   v_key v; v_asnsock v; v_nssock v].
Definition vars_owned (v : option vars_mem) : list Z := match v with None => [] | Some v => concat (block <$> vars_fields v) end.
Definition free_global_vars (v : option vars_mem) (h : blocks) : res blocks :=
  match v with
  | None => Ok h
  | Some v =>
      h ← free (v_ampname v) h; h ← free (v_local v) h; h ← free (v_collector v) h; h ← free (v_vhost v) h;
      h ← free (v_exchange v) h; h ← free (v_routingkey v) h; h ← free (v_keys_dir v) h; h ← free (v_cacert v) h;
      h ← free (v_cert v) h; h ← free (v_key v) h; h ← free (v_asnsock v) h; free (v_nssock v) h
  end.

Record fetch_mem : Type := {
  f_item : Z; f_schedule_dir : option Z; f_schedule_url : option Z; f_cacert : option Z; f_cert : option Z; f_key : option Z
}.
Definition fetch_owned (f : option fetch_mem) : list Z :=
  match f with
  | None => []
  | Some f => concat [block (f_schedule_url f); block (f_schedule_dir f); block (f_cacert f); block (f_cert f);
                      block (f_key f); [f_item f]]
  end.
Definition free_fetch_schedule_item (f : option fetch_mem) (h : blocks) : res blocks :=
  match f with
  | None => Ok h
  | Some f =>
      h ← free (f_schedule_url f) h; h ← free (f_schedule_dir f) h; h ← free (f_cacert f) h; h ← free (f_cert f) h;
      h ← free (f_key f) h; free (Some (f_item f)) h
  end.

Record control_mem : Type := {
  c_control : Z; c_port : option Z; c_iface : option Z; c_ipv4 : option Z; c_ipv6 : option Z; c_socket : option Z;
  c_socket6 : option Z; c_acl : option acl_root_mem
}.
Definition acl_opt_owned (a : option acl_root_mem) : list Z := match a with None => [] | Some a => acl_root_owned a end.
Definition control_owned (c : option control_mem) : list Z :=
  match c with
  | None => []
  | Some c => concat [block (c_iface c); block (c_ipv4 c); block (c_ipv6 c); block (c_port c); acl_opt_owned (c_acl c);
                      block (c_socket c); block (c_socket6 c); [c_control c]]
  end.
Definition free_control_config (c : option control_mem) (h : blocks) : res blocks :=
  match c with
  | None => Ok h
  | Some c =>
      h ← free (c_iface c) h; h ← free (c_ipv4 c) h; h ← free (c_ipv6 c) h; h ← free (c_port c) h;
      h ← free_acl (c_acl c) h; h ← event_free (c_socket c) h; h ← event_free (c_socket6 c) h; free (Some (c_control c)) h
  end.

(** amp_resolve_freeaddr(): a chain of addresses. *)
Record addrinfo_mem : Type := { i_item : Z; i_addr : option Z; i_canonname : option Z }.
Definition addrinfo_owned (i : addrinfo_mem) : list Z := concat [block (i_addr i); block (i_canonname i); [i_item i]].
Definition free_addrinfo (i : addrinfo_mem) (h : blocks) : res blocks :=
  h ← free (i_addr i) h; h ← free (i_canonname i) h; free (Some (i_item i)) h.
Definition amp_resolve_freeaddr (l : list addrinfo_mem) (h : blocks) : res blocks := for_each free_addrinfo l h.

(** free_duped_environ(): the environment set_proc_name() made, and what environ is after. *)
Definition free_duped_environ (environ : option strings_mem) (h : blocks) : res (option strings_mem * blocks) :=
  match environ with
  | None => Fault NullDeref
  | Some e => h ← free_strings (Some e) h; Ok (None, h)
  end.

(** *** Each of them frees what it is given *)

(** A function that frees a list of blocks, whatever else there is. *)
Definition freed (k : list Z) (g : blocks -> res blocks) : Prop := exists l, l ≡ₚ k /\ forall h, g h = free_blocks l h.
Create HintDb frees.
Lemma freed_block p : freed (block p) (free p).
Proof. apply frees_block. Qed.
Lemma freed_one b : freed [b] (free (Some b)).
Proof. apply (frees_block (Some b)). Qed.
Lemma freed_nil : freed [] (fun h => Ok h).
Proof. by exists []. Qed.
Lemma freed_bind k k' g g' : freed k g -> freed k' g' -> freed (k ++ k') (fun h => h ← g h; g' h).
Proof.
  intros (l & Hl & Hg) (l' & Hl' & Hg'). exists (l ++ l'). split; [by rewrite Hl, Hl'|]. intros h.
  rewrite Hg, free_blocks_app. destruct (free_blocks l h); [apply Hg'|done].
Qed.
Lemma freed_last k g : freed k g -> freed (k ++ []) g.
Proof. by rewrite app_nil_r. Qed.
#[local] Hint Resolve freed_block freed_one freed_nil : frees.
Ltac freed := repeat (apply freed_bind; [eauto with frees|]); try apply freed_last; eauto with frees.

Lemma freed_strings s : freed (strings_owned s) (free_strings s).
Proof.
  destruct s as [s|]; [|apply freed_nil]. cbn. apply freed_bind; [|apply freed_one]. by exists (s_strings s).
Qed.
#[local] Hint Resolve freed_strings : frees.
Lemma freed_for_each {A} (owned : A -> list Z) f l :
  Forall (fun x => freed (owned x) (f x)) l -> freed (concat (owned <$> l)) (for_each f l).
Proof. apply frees_list. Qed.
Lemma freed_test t : freed (test_owned t) (unregister_test t).
Proof. unfold test_owned, unregister_test, dlclose. cbn [concat]. freed. Qed.
Lemma freed_tests tests : freed (tests_owned tests) (unregister_tests tests).
Proof.
  destruct tests as [[array l]|]; [|apply freed_nil]. cbn. apply freed_bind; [|apply freed_one].
  apply freed_for_each, Forall_forall. intros t _. apply freed_test.
Qed.
Lemma freed_vars v : freed (vars_owned v) (free_global_vars v).
Proof. destruct v as [v|]; [|apply freed_nil]. cbn [vars_owned free_global_vars vars_fields fmap list_fmap concat]. freed. Qed.
Lemma freed_fetch f : freed (fetch_owned f) (free_fetch_schedule_item f).
Proof. destruct f as [f|]; [|apply freed_nil]. cbn [fetch_owned free_fetch_schedule_item concat]. freed. Qed.
Lemma freed_addresses l : freed (concat (addrinfo_owned <$> l)) (amp_resolve_freeaddr l).
Proof.
  apply freed_for_each, Forall_forall. intros i _. unfold addrinfo_owned, free_addrinfo. cbn [concat]. freed.
Qed.

(** The trees of an access control list. *)
Definition acl_counted (a : option acl_root_mem) : Prop :=
  match a with None => True | Some a => counted (a_server a) /\ counted (a_test a) /\ counted (a_schedule a) end.
Lemma freed_acl a : acl_counted a -> freed (acl_opt_owned a) (free_acl a).
Proof.
  destruct a as [a|]; [|intros _; apply freed_nil]. intros (Hs & Ht & Hc).
  unfold acl_opt_owned, acl_root_owned, free_acl. cbn [concat].
  repeat (apply freed_bind; [by apply frees_acl|]). apply freed_last, freed_one.
Qed.
Lemma freed_control c :
  (forall x, c = Some x -> acl_counted (c_acl x)) -> freed (control_owned c) (free_control_config c).
Proof.
  destruct c as [c|]; [|intros _; apply freed_nil]. intros Hc. specialize (Hc c eq_refl). apply freed_acl in Hc.
  cbn [control_owned free_control_config concat]. unfold event_free. freed.
Qed.

(** ** Shutting down *)

(** The events of the signals and of the two local sockets. *)
Record events_mem : Type := {
  signal_load : option Z; signal_int : option Z; signal_term : option Z; signal_chld : option Z;
  resolver_socket_event : option Z; asn_socket_event : option Z; signal_hup : option Z; signal_usr1 : option Z;
  signal_tmax : option Z
}.
Definition events_fields (e : events_mem) : list (option Z) :=
  [signal_load e; signal_int e; signal_term e; signal_chld e; resolver_socket_event e; asn_socket_event e; signal_hup e;
   signal_usr1 e; signal_tmax e].
Definition free_events (e : events_mem) (h : blocks) : res blocks :=
  h ← event_free (signal_load e) h; h ← event_free (signal_int e) h; h ← event_free (signal_term e) h;
  h ← event_free (signal_chld e) h; h ← event_free (resolver_socket_event e) h; h ← event_free (asn_socket_event e) h;
  h ← event_free (signal_hup e) h; h ← event_free (signal_usr1 e) h; event_free (signal_tmax e) h.
Definition event_base_free (base : Z) : blocks -> res blocks := free (Some base).

(** A string of [meta]: one that the configuration file was the source of is a block, one
    that an option of the command line has set is a word of argv. *)
Inductive string_at : Set := Malloced (b : Z) | Word.
#[export] Instance string_at_eq_dec : EqDecision string_at.
Proof. solve_decision. Defined.
Definition malloced (s : option string_at) : list Z := match s with Some (Malloced b) => [b] | _ => [] end.
Definition free_string_at (s : option string_at) (h : blocks) : res blocks :=
  match s with
  | None => Ok h
  | Some (Malloced b) => free (Some b) h
  | Some Word => Fault BadFree
  end.
Record meta_mem : Type := { iface : option string_at; sourcev4 : option string_at; sourcev6 : option string_at }.
Definition meta_fields (m : meta_mem) : list (option string_at) := [iface m; sourcev4 m; sourcev6 m].
Definition free_local_meta_vars (m : meta_mem) (h : blocks) : res blocks :=
  h ← free_string_at (iface m) h; h ← free_string_at (sourcev4 m) h; free_string_at (sourcev6 m) h.
(** -I, -4 or -6 was given. *)
Definition from_command_line (m : meta_mem) : bool := bool_decide (Some Word ∈ meta_fields m).

(** What measured still holds when its schedule and its name table are gone, but for the AS
    numbers, the context of the resolver and what the libraries keep for themselves. *)
Record held : Type := {
  h_control : option control_mem; h_events : events_mem; h_base : Z; h_meta : meta_mem; h_vars : option vars_mem;
  h_tests : option (Z * list test_mem) }.
Definition held_first (x : held) : list Z :=
  control_owned (h_control x) ++ concat (block <$> events_fields (h_events x)) ++ [h_base x].
Definition held_owned (x : held) : list Z :=
  held_first x ++ concat (malloced <$> meta_fields (h_meta x)) ++ vars_owned (h_vars x) ++ tests_owned (h_tests x).
(** The calls at the end of main() that free it, in their order. *)
Definition release_first (x : held) (h : blocks) : res blocks :=
  h ← free_control_config (h_control x) h; h ← free_events (h_events x) h; event_base_free (h_base x) h.
Definition release_all (x : held) (h : blocks) : res blocks :=
  h ← release_first x h;
  h ← free_local_meta_vars (h_meta x) h; h ← free_global_vars (h_vars x) h; unregister_tests (h_tests x) h.

Lemma freed_events e : freed (concat (block <$> events_fields e)) (free_events e).
Proof. unfold free_events, events_fields, event_free. cbn [fmap list_fmap concat]. freed. Qed.
Lemma freed_string s : s <> Some Word -> freed (malloced s) (free_string_at s).
Proof. destruct s as [[b|]|]; [intros _; apply freed_one|done|intros _; apply freed_nil]. Qed.
Lemma freed_meta m : from_command_line m = false -> freed (concat (malloced <$> meta_fields m)) (free_local_meta_vars m).
Proof.
  intros Hm%bool_decide_eq_false_1. unfold meta_fields in Hm. rewrite !not_elem_of_cons in Hm. destruct Hm as (H1 & H2 & H3 & _).
  unfold meta_fields, free_local_meta_vars. cbn [fmap list_fmap concat].
  apply freed_bind; [by apply freed_string|]. apply freed_bind; [by apply freed_string|]. by apply freed_last, freed_string.
Qed.
Lemma freed_first x :
  (forall c, h_control x = Some c -> acl_counted (c_acl c)) -> freed (held_first x) (release_first x).
Proof.
  intros Hc. unfold held_first, release_first. apply freed_bind; [by apply freed_control|].
  apply freed_bind; [apply freed_events|apply freed_one].
Qed.

(** What comes after something has been freed is still there. *)
Lemma freed_leaves k k' g h :
  freed k g -> NoDup (k ++ k') -> list_to_set (k ++ k') ⊆ h ->
  exists h', g h = Ok h' /\ list_to_set k' ⊆ h'.
Proof.
  intros (l & Hl & Hg) Hn Hs. apply NoDup_app in Hn as (Hn & Hd & _). rewrite list_to_set_app in Hs.
  exists (h ∖ list_to_set k). split.
  - rewrite Hg, free_blocks_spec; [by rewrite (list_to_set_perm_L _ _ Hl)|by rewrite Hl|rewrite (list_to_set_perm_L _ _ Hl); set_solver].
  - intros b Hb. assert (b ∉ k) by (intros Hk; apply (Hd b Hk); by apply elem_of_list_to_set in Hb). set_solver.
Qed.
(** A word of the command line is handed to free(). *)
Lemma meta_bad_free m h :
  from_command_line m = true -> NoDup (concat (malloced <$> meta_fields m)) ->
  list_to_set (concat (malloced <$> meta_fields m)) ⊆ h -> free_local_meta_vars m h = Fault BadFree.
Proof.
  intros Hm%bool_decide_eq_true_1 Hn Hs.
  assert (H : forall l h, Some Word ∈ l -> NoDup (concat (malloced <$> l)) -> list_to_set (concat (malloced <$> l)) ⊆ h ->
    for_each free_string_at l h = Fault BadFree).
  { clear. induction l as [|s l IH]; intros h Hin Hn Hs; [by apply not_elem_of_nil in Hin|].
    destruct (decide (s = Some Word)) as [->|Hne]; [done|]. apply elem_of_cons in Hin as [?|Hin]; [congruence|].
    cbn [fmap list_fmap concat] in Hn, Hs. cbn [for_each].
    destruct (freed_leaves _ _ _ h (freed_string s Hne) Hn Hs) as (h' & -> & Hs'). rewrite bind_Ok. apply IH; [done| |done].
    by apply NoDup_app in Hn as (_ & _ & ?). }
  specialize (H _ h Hm Hn Hs). unfold meta_fields, free_local_meta_vars in *. cbn [for_each] in H. revert H.
  destruct (free_string_at (iface m) h) as [h1|]; [rewrite !bind_Ok|done].
  destruct (free_string_at (sourcev4 m) h1) as [h2|]; [rewrite !bind_Ok|done]. by destruct (free_string_at (sourcev6 m) h2).
Qed.

(** C25: measured on its way out, from free_control_config() to unregister_tests(): its
    control port with the access control lists, its events and their base, the interface and
    addresses for its tests, its settings, and its table of tests.  The conditions: the
    structures share no block with each other, all their blocks are allocated, and the 8-bit counters
    of the access control list still count the children.  Then, if neither -I nor -4 nor -6
    was given, exactly the blocks of these structures are freed: every one once, and no block of anyone
    else.  If one of them was given, free() is handed a word of the command line,
    which is a fault. *)
Theorem shutdown_releases (x : held) (h : blocks) :
  (forall c, h_control x = Some c -> acl_counted (c_acl c)) -> NoDup (held_owned x) -> list_to_set (held_owned x) ⊆ h ->
  release_all x h = if from_command_line (h_meta x) then Fault BadFree else Ok (h ∖ list_to_set (held_owned x)).
Proof.
  intros Hc Hn Hs. pose proof (freed_first x Hc) as Hfirst. destruct (from_command_line (h_meta x)) eqn:Hm.
  - unfold release_all. destruct (freed_leaves _ _ _ h Hfirst Hn Hs) as (h' & -> & Hs'). rewrite bind_Ok.
    apply NoDup_app in Hn as (_ & _ & Hn). apply NoDup_app in Hn as (Hn & _ & _). rewrite list_to_set_app in Hs'.
    rewrite meta_bad_free; [done|done|done|set_solver].
  - assert (F : freed (held_owned x) (release_all x)).
    { unfold held_owned, release_all. apply freed_bind; [done|]. apply freed_bind; [by apply freed_meta|].
      apply freed_bind; [apply freed_vars|apply freed_tests]. }
    exact (frees_all held_owned release_all x h F Hn Hs).
Qed.

(** *** A process with one test and one rule *)

Definition one_rule_mem : acl_root_mem := {|
  a_root := 1; a_server := AclMem 2 3 (Some 4) 1 [AclMem 5 6 None 0 []]; a_test := AclMem 7 8 None 0 [];
  a_schedule := AclMem 9 10 None 0 [] |}.
Definition small_control : control_mem := {|
  c_control := 11; c_port := Some 12; c_iface := None; c_ipv4 := Some 13; c_ipv6 := Some 14; c_socket := Some 15;
  c_socket6 := None; c_acl := Some one_rule_mem |}.
Definition small_vars : vars_mem := {|
  v_ampname := Some 16; v_local := Some 17; v_collector := Some 18; v_vhost := Some 19; v_exchange := Some 20;
  v_routingkey := None; v_keys_dir := Some 21; v_cacert := None; v_cert := None; v_key := None; v_asnsock := Some 22;
  v_nssock := Some 23 |}.
Definition small_tests : Z * list test_mem :=
  (24, [{| t_test := 25; t_name := Some 26; t_dlhandle := Some 27; t_server := Some {| s_array := 28; s_strings := [29; 30] |};
           t_client := None |}]).
Definition small_events : events_mem := {|
  signal_load := Some 31; signal_int := Some 32; signal_term := Some 33; signal_chld := Some 34; resolver_socket_event := Some 35;
  asn_socket_event := Some 36; signal_hup := None; signal_usr1 := Some 37; signal_tmax := Some 38 |}.
Definition small (m : meta_mem) : held := {|
  h_control := Some small_control; h_events := small_events; h_base := 39; h_meta := m; h_vars := Some small_vars;
  h_tests := Some small_tests |}.
Definition configured : meta_mem := {| iface := Some (Malloced 40); sourcev4 := None; sourcev6 := None |}.
Definition given : meta_mem := {| iface := Some (Malloced 40); sourcev4 := Some Word; sourcev6 := None |}.

Lemma shutdown_releases_witness :
  release_all (small configured) (list_to_set (seqZ 1 42)) = Ok {[41; 42]} /\
  release_all (small given) (list_to_set (seqZ 1 42)) = Fault BadFree.
Proof.
  split.
  - rewrite (shutdown_releases (small configured) (list_to_set (seqZ 1 42))).
    + vm_compute. reflexivity.
    + intros c [= <-]. repeat split.
    + apply (bool_decide_unpack _). vm_compute. exact I.
    + apply (bool_decide_unpack _). vm_compute. exact I.
  - rewrite (shutdown_releases (small given) (list_to_set (seqZ 1 42))).
    + vm_compute. reflexivity.
    + intros c [= <-]. repeat split.
    + apply (bool_decide_unpack _). vm_compute. exact I.
    + apply (bool_decide_unpack _). vm_compute. exact I.
Defined.

(** The pointer to the table of tests is kept: calling unregister_tests() again frees the
    same blocks again. *)
Example unregister_twice :
  (h ← unregister_tests (Some small_tests) (list_to_set (seqZ 1 32)); unregister_tests (Some small_tests) h) = Fault UseAfterFree.
Proof. vm_compute. reflexivity. Qed.
(** A node whose counter went from 255 to 0 keeps its children. *)
Example wrapped_counter_leaks :
  free_acl_internal (AclMem 1 2 (Some 3) 0 [AclMem 4 5 None 0 []]) {[1; 2; 3; 4; 5]} = Ok {[4; 5]}.
Proof. vm_compute. reflexivity. Qed.
