(* ===== verification/Tcpping.v ===== *)
(** The tcpping test (src/tests/tcpping/tcpping.c, and the packet headers of
    pcapcapture.c): a SYN to every destination, and the answers a capture device sees.

    A captured packet is its bytes with the length it had on the wire; every header field
    is a load from the bytes, so a load outside them is a fault.  The array of results is
    not cleared when it is allocated: an entry is [None] until it is written. *)
From S2P Require Import Prelude CLib Address Bytes Checksum.
#[local] Open Scope Z_scope.

Definition IPHDR : Z := 20.
Definition IP6HDR : Z := 40.
Definition TCPHDR : Z := 20.
Definition ICMPHDR : Z := 8.
Definition MIN_TCPPING_PROBE_LEN : Z := IP6HDR + TCPHDR + 4.
Definition MAX_TCPPING_PROBE_LEN : Z := 1500.
Definition LOSS_TIMEOUT : Z := 10.

Inductive reply_type : Set := NO_REPLY | TCP_REPLY | ICMP_REPLY.
Record dest : Set := { ai_family : Z; ai_addr : option sockaddr }.
Record info_t : Set := {
  addr : dest; time_sent : option timeval; seqno : Z; delay : Z; reply : reply_type; replyflags : Z;
  icmptype : Z; icmpcode : Z
}.
#[export] Instance reply_type_eq_dec : EqDecision reply_type.
Proof. solve_decision. Defined.

(** What does not change while the test runs. *)
Record settings : Set := {
  port : Z; packet_size : Z; inter_packet_delay : Z; seqindex : Z; dests : list dest;
  sourceportv4 : Z; sourceportv6 : Z; raw_socket : Z; raw_socket6 : Z;
  sourcev4 : option sockaddr; sourcev6 : option sockaddr
}.
(** struct tcppingglobals; [halted] is event_base_loopbreak(). *)
Record globals : Set := {
  opts : settings; info : list (option info_t); destindex : Z; destcount : Z; outstanding : Z;
  halted : bool; nextpackettimer : option timeval; losstimer : option timeval
}.

(** ** Options *)

(** The size of the packets; [random] is random(), below 2^31. *)
Definition process_options (random_size : bool) (random packet_size : Z) : Z :=
  let size := if random_size
              then u16 (MIN_TCPPING_PROBE_LEN + (MAX_TCPPING_PROBE_LEN - MIN_TCPPING_PROBE_LEN) * random / 2147483648)
              else packet_size in
  let size := if size <? MIN_TCPPING_PROBE_LEN then MIN_TCPPING_PROBE_LEN else size in
  if size >? MAX_TCPPING_PROBE_LEN then MAX_TCPPING_PROBE_LEN else size.

Lemma process_options_range r random size :
  MIN_TCPPING_PROBE_LEN <= process_options r random size <= MAX_TCPPING_PROBE_LEN.
Proof. unfold process_options, MIN_TCPPING_PROBE_LEN, MAX_TCPPING_PROBE_LEN, IP6HDR, TCPHDR. case_ifs; lia. Qed.

(** ** Probes *)

(** The pseudo header, or NULL for a family that has none. *)
Definition pseudo_header (src : sockaddr) (dst : sockaddr) (packet_size : Z) : option (list Z) :=
  match src, dst with
  | SockIn s, SockIn d => Some (in_addr_bytes s ++ in_addr_bytes d ++ [0; 6] ++ be16 packet_size)
  | SockIn6 s, SockIn6 d => Some (in6_addr_bytes s ++ in6_addr_bytes d ++ be32 packet_size ++ [0; 0; 0; 6])
  | _, _ => None
  end.
Definition tcp_checksum (packet pseudo : list Z) : Z := checksum (pseudo ++ packet).

(** The bytes of a TCP header before the checksum, and after it. *)
Definition tcp_front (sport dport seq ack doff flags window : Z) : list Z :=
  be16 sport ++ be16 dport ++ be32 seq ++ be32 ack ++ [16 * doff; flags] ++ be16 window.
Definition syn_options (family : Z) : list Z :=
  [2; 4] ++ be16 536 ++ (if family =? AF_INET then replicate 20 1 else []).
(** Sequence numbers are 100 apart.  They are computed as an int, before the probe is made
    and, with the same operands, in its header. *)
Definition probe_seq (o : settings) (index : Z) : Z := u32 (seqindex o + index * 100).
Definition seq_fits (o : settings) (index : Z) : bool :=
  (index * 100 <? 2147483648) && (seqindex o + index * 100 <? 2147483648).

(** craft_tcp_syn(): the packet, and whether the checksum was set. *)
Definition craft_tcp_syn (o : settings) (index srcport size : Z) (src dst : sockaddr) : res (Z * list Z) :=
  let v4 := sa_family src =? AF_INET in
  let front := tcp_front srcport (port o) (probe_seq o index) 0 (if v4 then 11 else 6) 2 6666 in
  let back := [0; 0] ++ syn_options (sa_family src) in
  if size <? Z.of_nat (length (front ++ [0; 0] ++ back)) then Fault OutOfBounds
  else
    let back := back ++ replicate (Z.to_nat size - length (front ++ [0; 0] ++ back)) 0 in
    match pseudo_header src dst size with
    | None => Ok (0, front ++ [0; 0] ++ back)
    | Some pseudo => Ok (1, front ++ le16 (tcp_checksum (front ++ [0; 0] ++ back) pseudo) ++ back)
    end.

(** ** Responses *)

(** A uint32_t load. *)
Definition rd32 (buf : list Z) (off : Z) : res Z :=
  a ← rd buf off; b ← rd buf (off + 1); c ← rd buf (off + 2); d ← rd buf (off + 3); Ok (ld32 [a; b; c; d]).

Definition unpack_destid (destid max : Z) : Z :=
  if (destid <? 0) || (destid >=? i32 (max * 100)) || negb (Z.rem destid 100 =? 0) then -1 else Z.quot destid 100.

Definition match_response (g : globals) (tcp : list Z) (istcp : bool) : res Z :=
  destid ← (if istcp then
      ack_seq ← rd32 tcp 8;
      let packed_destid := i32 (u32 (ntohl ack_seq - seqindex (opts g) - 1)) in
      let destid := unpack_destid packed_destid (destcount g) in
      Ok (if destid <? 0
          then unpack_destid (i32 (packed_destid - (packet_size (opts g) - MIN_TCPPING_PROBE_LEN))) (destcount g)
          else destid)
    else
      seq ← rd32 tcp 4;
      Ok (unpack_destid (i32 (u32 (ntohl seq - seqindex (opts g)))) (destcount g)));
  if (destid <? 0) || (destid >=? destcount g) then Ok (-1)
  else
    entry ← rd (info g) destid;
    match entry with
    | None => Fault Uninitialised
    | Some i => Ok (if bool_decide (reply i = NO_REPLY) then destid else -1)
    end.

Definition with_info (g : globals) (l : list (option info_t)) (out : Z) : globals := {|
  opts := opts g; info := l; destindex := destindex g; destcount := destcount g; outstanding := out; halted := halted g;
  nextpackettimer := nextpackettimer g; losstimer := losstimer g |}.
Definition halt (g : globals) : globals := {|
  opts := opts g; info := info g; destindex := destindex g; destcount := destcount g; outstanding := outstanding g;
  halted := true; nextpackettimer := nextpackettimer g; losstimer := losstimer g |}.

(** The time since the probe was sent; the time is not set when it was not sent. *)
Definition delay_since (ts : timeval) (i : info_t) : res Z :=
  match time_sent i with
  | None => Fault Uninitialised
  | Some t => let d := DIFF_TV_US ts t in Ok (if d >? 0 then u32 d else 0)
  end.
Definition record (g : globals) (destid : Z) (ts : timeval) (f : Z -> info_t -> info_t) : res globals :=
  entry ← rd (info g) destid;
  match entry with
  | None => Fault Uninitialised
  | Some i => d ← delay_since ts i; l ← wr (info g) destid (Some (f d i)); Ok (with_info g l (i32 (outstanding g - 1)))
  end.

(** The six control bits of a header, added up one by one. *)
Definition control_bits (b : Z) : Z :=
  u8 ((if Z.testbit b 5 then 0x20 else 0) + (if Z.testbit b 4 then 0x10 else 0) + (if Z.testbit b 3 then 0x08 else 0)
      + (if Z.testbit b 2 then 0x04 else 0) + (if Z.testbit b 1 then 0x02 else 0) + (if Z.testbit b 0 then 0x01 else 0)).
Definition set_tcp_reply (flags d : Z) (i : info_t) : info_t := {|
  addr := addr i; time_sent := time_sent i; seqno := seqno i; delay := d; reply := TCP_REPLY; replyflags := flags;
  icmptype := icmptype i; icmpcode := icmpcode i |}.
Definition set_icmp_reply (type code d : Z) (i : info_t) : info_t := {|
  addr := addr i; time_sent := time_sent i; seqno := seqno i; delay := d; reply := ICMP_REPLY; replyflags := replyflags i;
  icmptype := type; icmpcode := code |}.

Definition process_tcp_response (g : globals) (tcp : list Z) (remaining : Z) (ts : timeval) : res globals :=
  if remaining <? TCPHDR then Ok g
  else
    destid ← match_response g tcp true;
    if destid >=? 0 then
      flags ← rd tcp 13; record g destid ts (set_tcp_reply (control_bits flags))
    else Ok g.

(** The part that both ICMP handlers share: [off] is where the quoted TCP header is. *)
Definition process_quoted (g : globals) (icmp : list Z) (off : Z) (remaining : Z) (ts : timeval) : res globals :=
  if remaining <? TCPHDR then Ok g
  else
    destid ← match_response g (drop (Z.to_nat off) icmp) false;
    if destid >=? 0 then
      type ← rd icmp 0; code ← rd icmp 1; record g destid ts (set_icmp_reply type code)
    else Ok g.
Definition process_icmp4_response (g : globals) (icmp : list Z) (remaining : Z) (ts : timeval) : res globals :=
  if remaining <? ICMPHDR then Ok g
  else
    let remaining := remaining - ICMPHDR in
    if remaining <? IPHDR then Ok g
    else
      b0 ← rd icmp ICMPHDR;
      let hl := ip_ihl b0 * 4 in
      if remaining <? hl then Ok g else process_quoted g icmp (ICMPHDR + hl) (remaining - hl) ts.
Definition process_icmp6_response (g : globals) (icmp : list Z) (remaining : Z) (ts : timeval) : res globals :=
  if remaining <? ICMPHDR then Ok g
  else
    let remaining := remaining - ICMPHDR in
    if remaining <? IP6HDR then Ok g else process_quoted g icmp (ICMPHDR + IP6HDR) (remaining - IP6HDR) ts.

(** struct pcaptransport: the transport header and what the length on the wire leaves for it. *)
Record pcaptransport : Set := { protocol : Z; header : option (list Z); t_remaining : Z; ts : timeval }.
Inductive datalink_t : Set := DLT_EN10MB | DLT_LINUX_SLL | OtherLink.
Definition link_header (l : datalink_t) : option (Z * Z) :=
  match l with DLT_EN10MB => Some (14, 12) | DLT_LINUX_SLL => Some (16, 14) | OtherLink => None end.
(** pcap_transport_header(): [captured] may be shorter than [len]. *)
Definition pcap_transport_header (link : datalink_t) (next : option (list Z * Z * timeval)) : res pcaptransport :=
  let none ts := Ok {| protocol := 0; header := None; t_remaining := 0; ts := ts |} in
  match next with
  | None => none (Tv 0 0)
  | Some (packet, len, ts) =>
      match link_header link with
      | None => none ts
      | Some (size, type_at) =>
          if len <? size then none ts
          else
            type ← rd16 packet type_at;
            let ethertype := ntohs type in
            let remaining := len - size in
            if ethertype =? 0x0800 then
              if remaining <? IPHDR then none ts
              else
                b0 ← rd packet size;
                let hl := ip_ihl b0 * 4 in
                if remaining <? hl then none ts
                else
                  proto ← rd packet (size + 9);
                  Ok {| protocol := proto; header := Some (drop (Z.to_nat (size + hl)) packet);
                        t_remaining := remaining - hl; ts := ts |}
            else if ethertype =? 0x86dd then
              if remaining <? IP6HDR then none ts
              else
                proto ← rd packet (size + 6);
                Ok {| protocol := proto; header := Some (drop (Z.to_nat (size + IP6HDR)) packet);
                      t_remaining := remaining - IP6HDR; ts := ts |}
            else none ts
      end
  end.

Definition receive_packet (g : globals) (t : pcaptransport) : res globals :=
  match header t with
  | None => Ok g
  | Some h =>
      if t_remaining t <=? 0 then Ok g
      else
        g ← (if protocol t =? 6 then process_tcp_response g h (t_remaining t) (ts t) else Ok g);
        g ← (if protocol t =? 1 then process_icmp4_response g h (t_remaining t) (ts t) else Ok g);
        g ← (if protocol t =? 58 then process_icmp6_response g h (t_remaining t) (ts t) else Ok g);
        Ok (if (outstanding g =? 0) && (destindex g =? destcount g) then halt g else g)
  end.

(** ** Sending *)

(** What the host does for one probe: the source address the routing table gives, what
    pcap_listen() returned, and the time the packet was sent, unless that failed. *)
Record send_env : Type := {
  find_source_address : dest -> option sockaddr; pcap_listen : Z; transmit : Z -> list Z -> option timeval
}.
Definition new_info (o : settings) (index : Z) (d : dest) (t : option timeval) : info_t := {|
  addr := d; time_sent := t; seqno := probe_seq o index; delay := 0; reply := NO_REPLY; replyflags := 0;
  icmptype := 0; icmpcode := 0 |}.

(** The "nextdest:" part of send_packet(). *)
Definition schedule_next (g : globals) : globals :=
  let index := i32 (destindex g + 1) in
  let last := index =? destcount g in
  let waiting := negb (outstanding g =? 0) in
  {| opts := opts g; info := info g; destindex := index; destcount := destcount g; outstanding := outstanding g;
     halted := if last && negb waiting then true else halted g;
     nextpackettimer :=
       if last then None
       else Some (Tv (inter_packet_delay (opts g) / 1000000) (inter_packet_delay (opts g) mod 1000000));
     losstimer := if last && waiting then Some (Tv LOSS_TIMEOUT 0) else losstimer g |}.

(** The source port, socket and size of the TCP packet for a family. *)
Definition family_settings (o : settings) (family : Z) : option (Z * Z * Z) :=
  if family =? AF_INET then Some (sourceportv4 o, raw_socket o, packet_size o - IPHDR)
  else if family =? AF_INET6 then Some (sourceportv6 o, raw_socket6 o, packet_size o - IP6HDR) else None.
Definition source_address (o : settings) (e : send_env) (d : dest) : option sockaddr :=
  match (if ai_family d =? AF_INET then sourcev4 o else None), (if ai_family d =? AF_INET6 then sourcev6 o else None) with
  | Some s, _ => Some s
  | None, Some s => Some s
  | None, None => find_source_address e d
  end.

(** The probe to the next destination. *)
Inductive probe_result : Set := NotTried | SendFailed | SentAt (t : timeval).
Definition send_probe (o : settings) (e : send_env) (index : Z) (d : dest) : res probe_result :=
  match ai_addr d, family_settings o (ai_family d) with
  | Some a, Some (srcport, sock, size) =>
      match source_address o e d with
      | None => Ok NotTried
      | Some src =>
          if pcap_listen e =? -1 then Ok NotTried
          else
            p ← craft_tcp_syn o index srcport size src a;
            Ok (if fst p <? 0 then NotTried
                else match transmit e sock (snd p) with Some t => SentAt t | None => SendFailed end)
      end
  | _, _ => Ok NotTried
  end.
(** The time in the array: not set, zero, or that of sending. *)
Definition probe_time (r : probe_result) : option timeval :=
  match r with NotTried => None | SendFailed => Some (Tv 0 0) | SentAt t => Some t end.
Definition send_packet (g : globals) (e : send_env) : res globals :=
  _ ← c_assert (destindex g <? destcount g);
  d ← rd (dests (opts g)) (destindex g);
  _ ← (if seq_fits (opts g) (destindex g) then Ok tt else Fault SignedOverflow);
  t ← send_probe (opts g) e (destindex g) d;
  l ← wr (info g) (destindex g) (Some (new_info (opts g) (destindex g) d (probe_time t)));
  Ok (schedule_next (with_info g l (match t with SentAt _ => i32 (outstanding g + 1) | _ => outstanding g end))).

Definition halt_test (g : globals) : globals := {|
  opts := opts g; info := info g; destindex := destindex g; destcount := destcount g; outstanding := outstanding g;
  halted := true; nextpackettimer := nextpackettimer g; losstimer := None |}.

(** The fields report_destination() puts in an item. *)
Record item : Set := { rtt : option Z; flags : option Z; icmp : option (Z * Z) }.
Definition report_destination (i : info_t) : item :=
  match reply i with
  | NO_REPLY => {| rtt := None; flags := None; icmp := None |}
  | TCP_REPLY => {| rtt := Some (delay i); flags := Some (replyflags i); icmp := None |}
  | ICMP_REPLY => {| rtt := None; flags := None; icmp := Some (icmptype i, icmpcode i) |}
  end.
(** report_results() on an array whose entries may not be written. *)
Fixpoint report_results (l : list (option info_t)) : res (list item) :=
  match l with
  | [] => Ok []
  | None :: _ => Fault Uninitialised
  | Some i :: l => r ← report_results l; Ok (report_destination i :: r)
  end.

(** The event loop: the timer for the next packet, a packet on a capture device, the timer
    for lost packets.  What is not armed does not fire. *)
Inductive event : Type := Tick (e : send_env) | Packet (t : pcaptransport) | Loss.
Definition step (g : globals) (ev : event) : res globals :=
  if halted g then Ok g
  else match ev with
       | Tick e => match nextpackettimer g with Some _ => send_packet g e | None => Ok g end
       | Packet t => receive_packet g t
       | Loss => Ok (match losstimer g with Some _ => halt_test g | None => g end)
       end.
Fixpoint run (g : globals) (evs : list event) : res globals :=
  match evs with [] => Ok g | ev :: evs => g ← step g ev; run g evs end.
Definition start (o : settings) : globals := {|
  opts := o; info := replicate (length (dests o)) None; destindex := 0; destcount := Z.of_nat (length (dests o));
  outstanding := 0; halted := false; nextpackettimer := Some (Tv 0 0); losstimer := None |}.

(** ** What the network does *)

(** The fate of a destination: not probed yet, not reachable from here, or probed at a time
    and perhaps answered. *)
Inductive fate : Set :=
| Unsent | Skipped (failed : bool) | Waiting (t : timeval) | Answered (t at_ : timeval) (flags : Z) | Refused (t at_ : timeval) (type code : Z).
Definition was_sent (f : fate) : Prop := match f with Unsent | Skipped _ => False | _ => True end.
Definition waiting (f : fate) : bool := match f with Waiting _ => true | _ => false end.

(** A segment that comes back: it acknowledges the SYN, or the SYN with all its payload. *)
Definition payload (o : settings) : Z := packet_size o - MIN_TCPPING_PROBE_LEN.
Inductive answer : Type :=
| Ack (whole : bool) (flags : Z) (sport dport seq doff window : Z) (rest : list Z)
| Quote4 (type code : Z) (mid hdr : list Z) (sport dport ack doff fl window : Z) (rest : list Z)
| Quote6 (type code : Z) (mid hdr : list Z) (sport dport ack doff fl window : Z) (rest : list Z).
Definition answer_packet (o : settings) (i : nat) (at_ : timeval) (a : answer) : pcaptransport :=
  let of_bytes p l := {| protocol := p; header := Some l; t_remaining := Z.of_nat (length l); ts := at_ |} in
  let s := probe_seq o (Z.of_nat i) in
  match a with
  | Ack whole fl sp dp seq doff win rest =>
      of_bytes 6 (tcp_front sp dp seq (s + 1 + (if whole then payload o else 0)) doff fl win ++ rest)
  | Quote4 type code mid hdr sp dp ack doff fl win rest =>
      of_bytes 1 ([type; code] ++ mid ++ hdr ++ tcp_front sp dp s ack doff fl win ++ rest)
  | Quote6 type code mid hdr sp dp ack doff fl win rest =>
      of_bytes 58 ([type; code] ++ mid ++ hdr ++ tcp_front sp dp s ack doff fl win ++ rest)
  end.
(** Whole headers; and a payload that cannot be taken for a step between destinations. *)
Definition answer_ok (o : settings) (a : answer) : Prop :=
  match a with
  | Ack whole fl _ _ _ _ _ rest => (4 <= length rest)%nat /\ (whole = true -> payload o = 0 \/ payload o mod 100 <> 0)
  | Quote4 _ _ mid hdr _ _ _ _ _ _ rest => length mid = 6%nat /\ hdr_ok hdr /\ (4 <= length rest)%nat
  | Quote6 _ _ mid hdr _ _ _ _ _ _ rest => length mid = 6%nat /\ length hdr = 40%nat /\ (4 <= length rest)%nat
  end.
Definition answered (at_ : timeval) (a : answer) (f : fate) : fate :=
  match f, a with
  | Waiting t, Ack _ fl _ _ _ _ _ _ => Answered t at_ (control_bits fl)
  | Waiting t, (Quote4 type code _ _ _ _ _ _ _ _ _ | Quote6 type code _ _ _ _ _ _ _ _ _) => Refused t at_ type code
  | _, _ => f
  end.
Definition fate_delay (t at_ : timeval) : Z := let d := DIFF_TV_US at_ t in if d >? 0 then u32 d else 0.
Definition fate_item (f : fate) : item :=
  match f with
  | Answered t at_ fl => {| rtt := Some (fate_delay t at_); flags := Some fl; icmp := None |}
  | Refused _ _ type code => {| rtt := None; flags := None; icmp := Some (type, code) |}
  | _ => {| rtt := None; flags := None; icmp := None |}
  end.

(** The test as the network sees it. *)
Record net : Type := { fates : list fate; sent : nat; over : bool }.
Inductive happening : Type := HTick (e : send_env) | HAnswer (i : nat) (at_ : timeval) (a : answer) | HLoss.
Definition event_of (o : settings) (h : happening) : event :=
  match h with HTick e => Tick e | HAnswer i at_ a => Packet (answer_packet o i at_ a) | HLoss => Loss end.

Definition probe_fate (o : settings) (e : send_env) (k : nat) (d : dest) : fate :=
  match send_probe o e (Z.of_nat k) d with
  | Ok (SentAt t) => Waiting t | Ok SendFailed => Skipped true | _ => Skipped false
  end.
Definition all_done (o : settings) (l : list fate) (k : nat) : bool :=
  (k =? length (dests o))%nat && negb (existsb waiting l).
Definition net_step (o : settings) (n : net) (h : happening) : net :=
  if over n then n
  else match h with
       | HTick e =>
           match dests o !! sent n with
           | Some d =>
               let l := <[sent n := probe_fate o e (sent n) d]> (fates n) in
               {| fates := l; sent := S (sent n); over := all_done o l (S (sent n)) |}
           | None => n
           end
       | HAnswer i at_ a =>
           let l := alter (answered at_ a) i (fates n) in {| fates := l; sent := sent n; over := all_done o l (sent n) |}
       | HLoss => {| fates := fates n; sent := sent n; over := (sent n =? length (dests o))%nat |}
       end.
Definition net_start (o : settings) : net := {| fates := replicate (length (dests o)) Unsent; sent := 0; over := false |}.

(** Only probes that were sent are answered, and the host finds source addresses of the
    family of the destination. *)
Definition sources_ok (o : settings) (e : send_env) : Prop :=
  forall d a src, d ∈ dests o -> ai_addr d = Some a -> source_address o e d = Some src ->
    sa_family src = ai_family d /\ sa_family a = ai_family d.
Definition honest (o : settings) (n : net) (h : happening) : Prop :=
  match h with
  | HTick e => sources_ok o e
  | HAnswer i _ a => answer_ok o a /\ exists f, fates n !! i = Some f /\ was_sent f
  | HLoss => True
  end.
Fixpoint all_honest (o : settings) (n : net) (hs : list happening) : Prop :=
  match hs with [] => True | h :: hs => honest o n h /\ all_honest o (net_step o n h) hs end.

Definition settings_ok (o : settings) : Prop :=
  dests o <> [] /\ Z.of_nat (length (dests o)) < 20000000 /\ MIN_TCPPING_PROBE_LEN <= packet_size o <= MAX_TCPPING_PROBE_LEN /\
  0 <= seqindex o /\ seqindex o + (Z.of_nat (length (dests o)) - 1) * 100 < 2147483648.

(** ** Matching *)

Lemma rd32_at buf i a b c d :
  buf !! i = Some a -> buf !! S i = Some b -> buf !! S (S i) = Some c -> buf !! S (S (S i)) = Some d ->
  rd32 buf (Z.of_nat i) = Ok (ld32 [a; b; c; d]).
Proof.
  intros Ha Hb Hc Hd. unfold rd32.
  replace (Z.of_nat i + 1) with (Z.of_nat (S i)) by lia. replace (Z.of_nat i + 2) with (Z.of_nat (S (S i))) by lia.
  replace (Z.of_nat i + 3) with (Z.of_nat (S (S (S i)))) by lia.
  by rewrite (rd_at _ _ _ Ha), (rd_at _ _ _ Hb), (rd_at _ _ _ Hc), (rd_at _ _ _ Hd).
Qed.
Lemma load_be32 x : ntohl (ld32 (be32 x)) = u32 x.
Proof. rewrite ntohl_ld32 by (apply be32_bytes || done). apply be32_val. Qed.

Lemma front_ack sp dp seq ack doff fl win rest :
  rd32 (tcp_front sp dp seq ack doff fl win ++ rest) 8 = Ok (ld32 (be32 ack)).
Proof. apply (rd32_at _ 8); reflexivity. Qed.
Lemma front_seq sp dp seq ack doff fl win rest :
  rd32 (tcp_front sp dp seq ack doff fl win ++ rest) 4 = Ok (ld32 (be32 seq)).
Proof. apply (rd32_at _ 4); reflexivity. Qed.
Lemma front_flags sp dp seq ack doff fl win rest : rd (tcp_front sp dp seq ack doff fl win ++ rest) 13 = Ok fl.
Proof. reflexivity. Qed.
Lemma front_length sp dp seq ack doff fl win : length (tcp_front sp dp seq ack doff fl win) = 16%nat.
Proof. reflexivity. Qed.

Lemma u32_distance s x : u32 (u32 (s + x) - s) = u32 x.
Proof. unfold u32. rewrite Zminus_mod_idemp_l. f_equal. lia. Qed.
Lemma u32_nested s x : u32 (u32 s + x) = u32 (s + x).
Proof. unfold u32. by rewrite Zplus_mod_idemp_l. Qed.

Lemma unpack_id (i count : Z) : 0 <= i < count -> count < 20000000 -> unpack_destid (i * 100) count = i.
Proof.
  intros Hi Hc. unfold unpack_destid. rewrite i32_id by lia.
  rewrite (proj2 (Z.ltb_ge _ _)) by lia. destruct (Z.geb_spec (i * 100) (count * 100)); [lia|].
  rewrite Z.rem_mul by lia. cbn. apply Z.quot_mul. lia.
Qed.
Lemma unpack_other (x count : Z) : 0 <= x -> x mod 100 <> 0 -> unpack_destid x count = -1.
Proof.
  intros Hx Hm. unfold unpack_destid. rewrite Z.rem_mod_nonneg by lia. rewrite (proj2 (Z.eqb_neq _ _) Hm).
  by rewrite !orb_true_r.
Qed.

Section Refine.
Context (o : settings) (Ho : settings_ok o).

(** What the array holds for a destination. *)
Definition info_of (k : nat) (d : dest) (f : fate) : info_t :=
  match f with
  | Waiting t => new_info o (Z.of_nat k) d (Some t)
  | Answered t at_ fl => set_tcp_reply fl (fate_delay t at_) (new_info o (Z.of_nat k) d (Some t))
  | Refused t at_ type code => set_icmp_reply type code (fate_delay t at_) (new_info o (Z.of_nat k) d (Some t))
  | Skipped true => new_info o (Z.of_nat k) d (Some (Tv 0 0))
  | _ => new_info o (Z.of_nat k) d None
  end.
Definition entry_of (k : nat) (d : dest) (f : fate) : option info_t :=
  match f with Unsent => None | _ => Some (info_of k d f) end.
Definition num_waiting (l : list fate) : nat := length (List.filter waiting l).

Record sim (g : globals) (n : net) : Prop := {
  s_opts : opts g = o;
  s_count : destcount g = Z.of_nat (length (dests o));
  s_index : destindex g = Z.of_nat (sent n);
  s_sent : (sent n <= length (dests o))%nat;
  s_fates : length (fates n) = length (dests o);
  s_length : length (info g) = length (dests o);
  s_info : forall k d f, dests o !! k = Some d -> fates n !! k = Some f -> info g !! k = Some (entry_of k d f);
  s_unsent : forall k f, fates n !! k = Some f -> f = Unsent <-> (sent n <= k)%nat;
  s_out : outstanding g = Z.of_nat (num_waiting (fates n));
  s_over : halted g = over n;
  s_all : over n = true -> sent n = length (dests o);
  s_timers : over n = false ->
    if (sent n =? length (dests o))%nat then is_Some (losstimer g) /\ nextpackettimer g = None
    else is_Some (nextpackettimer g) /\ losstimer g = None
}.

Lemma num_waiting_insert l i f f' :
  l !! i = Some f ->
  (num_waiting (<[i := f']> l) + (if waiting f then 1 else 0) = num_waiting l + (if waiting f' then 1 else 0))%nat.
Proof using.
  revert i. induction l as [|x l IH]; intros [|i] Hi; [done..| |].
  - injection Hi as ->. unfold num_waiting. cbn. destruct (waiting f), (waiting f'); cbn; lia.
  - change (<[S i := f']> (x :: l)) with (x :: <[i := f']> l). specialize (IH i Hi). unfold num_waiting in *.
    cbn [List.filter]. destruct (waiting x); cbn [length]; lia.
Qed.
Lemma existsb_waiting l : existsb waiting l = negb (num_waiting l =? 0)%nat.
Proof using. induction l as [|x l IH]; [done|]. unfold num_waiting in *. cbn. destruct (waiting x); [done|]. cbn. apply IH. Qed.
Lemma num_waiting_le l : (num_waiting l <= length l)%nat.
Proof using. unfold num_waiting. induction l as [|x l IH]; cbn; [lia|]. destruct (waiting x); cbn; lia. Qed.

Lemma waiting_inv x : waiting x = true -> exists t, x = Waiting t.
Proof using. destruct x; try done. eauto. Qed.

Section Answer.
Context (g : globals) (n : net) (Hs : sim g n) (i : nat) (d : dest) (f : fate).
Context (Hd : dests o !! i = Some d) (Hf : fates n !! i = Some f) (Hsent : was_sent f).

Lemma index_range : 0 <= Z.of_nat i < destcount g /\ destcount g < 20000000.
Proof using Hs Ho Hd. rewrite (s_count _ _ Hs). pose proof (lookup_lt_Some _ _ _ Hd). destruct Ho as (_ & Hl & _). lia. Qed.

Lemma found (x : Z) : x = Z.of_nat i ->
  (if (x <? 0) || (x >=? destcount g) then Ok (-1)
   else entry ← rd (info g) x;
        match entry with
        | None => Fault Uninitialised
        | Some e => Ok (if bool_decide (reply e = NO_REPLY) then x else -1)
        end) = Ok (if waiting f then Z.of_nat i else -1).
Proof using Hs Ho Hd Hf Hsent.
  intros ->. pose proof index_range as [Hi _]. rewrite (proj2 (Z.ltb_ge _ _)) by lia.
  destruct (Z.geb_spec (Z.of_nat i) (destcount g)); [lia|]. cbn [orb].
  rewrite (rd_at _ _ _ (s_info _ _ Hs _ _ _ Hd Hf)), bind_Ok. destruct f; cbn in Hsent |- *; done.
Qed.

Lemma match_ack whole sp dp seq doff fl win rest :
  (whole = true -> payload o = 0 \/ payload o mod 100 <> 0) ->
  match_response g (tcp_front sp dp seq (probe_seq o (Z.of_nat i) + 1 + (if whole then payload o else 0)) doff fl win ++ rest)
    true = Ok (if waiting f then Z.of_nat i else -1).
Proof using Hs Ho Hd Hf Hsent.
  intros Hp. pose proof index_range as [Hi Hc]. unfold match_response. rewrite front_ack, bind_Ok, load_be32, (s_opts _ _ Hs).
  set (p := if whole then payload o else 0).
  assert (Hpr : 0 <= p <= 1436).
  { destruct Ho as (_ & _ & Hz & _). subst p. unfold payload, MIN_TCPPING_PROBE_LEN, MAX_TCPPING_PROBE_LEN, IP6HDR, TCPHDR in *.
    destruct whole; lia. }
  assert (E : i32 (u32 (u32 (probe_seq o (Z.of_nat i) + 1 + p) - seqindex o - 1)) = Z.of_nat i * 100 + p).
  { unfold probe_seq. rewrite <- Z.add_assoc, u32_nested, <- Z.sub_add_distr.
    replace (seqindex o + Z.of_nat i * 100 + (1 + p)) with ((seqindex o + 1) + (Z.of_nat i * 100 + p)) by lia.
    rewrite u32_distance, u32_id, i32_id by lia. done. }
  rewrite E, bind_Ok. fold (payload o). apply found.
  destruct (Z.eqb_spec (p mod 100) 0) as [E0|E0].
  - assert (p = 0) as ->.
    { subst p. destruct whole; [|done]. destruct (Hp eq_refl) as [|Hne]; [done|]. by rewrite E0 in Hne. }
    rewrite Z.add_0_r, unpack_id by lia. by rewrite (proj2 (Z.ltb_ge _ _)) by lia.
  - rewrite unpack_other; [|lia|by rewrite Z.add_comm, Z_mod_plus_full]. cbn [Z.ltb Z.compare].
    assert (Ep : p = payload o) by (subst p; by destruct whole). rewrite <- Ep.
    replace (Z.of_nat i * 100 + p - p) with (Z.of_nat i * 100) by lia. rewrite i32_id by lia. apply unpack_id; lia.
Qed.

Lemma match_quote sp dp ack doff fl win rest :
  match_response g (tcp_front sp dp (probe_seq o (Z.of_nat i)) ack doff fl win ++ rest) false
  = Ok (if waiting f then Z.of_nat i else -1).
Proof using Hs Ho Hd Hf Hsent.
  pose proof index_range as [Hi Hc]. unfold match_response. rewrite front_seq, bind_Ok, load_be32, (s_opts _ _ Hs).
  unfold probe_seq. assert (E : forall x, u32 (u32 x) = u32 x) by (intros; apply Z.mod_mod; lia).
  rewrite E, u32_distance, u32_id, i32_id, bind_Ok by lia. apply found, unpack_id; lia.
Qed.

(** What is written to the array for an answer. *)
Definition after (at_ : timeval) (a : answer) : globals :=
  if waiting f
  then with_info g (<[i := Some (info_of i d (answered at_ a f))]> (info g)) (i32 (outstanding g - 1)) else g.
Lemma record_answer at_ upd :
  (forall t, f = Waiting t ->
   record g (Z.of_nat i) at_ upd
   = Ok (with_info g (<[i := Some (upd (fate_delay t at_) (new_info o (Z.of_nat i) d (Some t)))]> (info g)) (i32 (outstanding g - 1)))).
Proof using Hs Ho Hd Hf Hsent.
  intros t ->. unfold record. pose proof (s_info _ _ Hs _ _ _ Hd Hf) as Hi. rewrite (rd_at _ _ _ Hi), bind_Ok.
  cbn [entry_of info_of]. cbn [delay_since time_sent new_info]. rewrite bind_Ok, wr_in, bind_Ok, Nat2Z.id; [done|].
  apply lookup_lt_Some in Hi. lia.
Qed.

Lemma quoted_answer at_ type code pre sp dp ack doff fl win rest :
  (4 <= length rest)%nat ->
  let l := [type; code] ++ pre ++ tcp_front sp dp (probe_seq o (Z.of_nat i)) ack doff fl win ++ rest in
  process_quoted g l (Z.of_nat (2 + length pre)) (Z.of_nat (length l - (2 + length pre))) at_
  = Ok (if waiting f
        then with_info g (<[i := Some (match f with
                                       | Waiting t => set_icmp_reply type code (fate_delay t at_) (new_info o (Z.of_nat i) d (Some t))
                                       | _ => info_of i d f
                                       end)]> (info g)) (i32 (outstanding g - 1))
        else g).
Proof using Hs Ho Hd Hf Hsent.
  intros Hr l. unfold process_quoted.
  assert (Hl : length l = (2 + length pre + (16 + length rest))%nat) by (subst l; rewrite !length_app; cbn; lia).
  rewrite Hl, (proj2 (Z.ltb_ge _ _)) by (unfold TCPHDR; lia). rewrite Nat2Z.id.
  replace (drop (2 + length pre) l) with (tcp_front sp dp (probe_seq o (Z.of_nat i)) ack doff fl win ++ rest).
  2: { subst l. rewrite app_assoc. symmetry. apply drop_app_length'. rewrite length_app. done. }
  rewrite match_quote, bind_Ok. destruct (waiting f) eqn:Ew; [|done]. destruct (waiting_inv _ Ew) as [t Et].
  destruct (Z.geb_spec (Z.of_nat i) 0); [|lia].
  change (rd l 0) with (Ok type). change (rd l 1) with (Ok code). rewrite !bind_Ok, (record_answer at_ _ t Et), Et. done.
Qed.

Lemma receive_answer at_ a :
  answer_ok o a ->
  receive_packet g (answer_packet o i at_ a)
  = Ok (let g := after at_ a in if (outstanding g =? 0) && (destindex g =? destcount g) then halt g else g).
Proof using Hs Ho Hd Hf Hsent.
  intros Ha. unfold receive_packet. destruct a as [whole fl sp dp seq doff win rest|type code mid hdr sp dp ack doff fl win rest
                                                  |type code mid hdr sp dp ack doff fl win rest]; cbn [answer_ok] in Ha;
    cbn [answer_packet header protocol t_remaining ts Z.eqb Pos.eqb].
  - destruct Ha as [Hr Hp]. rewrite length_app, front_length.
    destruct (Z.leb_spec (Z.of_nat (16 + length rest)) 0); [lia|]. unfold process_tcp_response.
    rewrite (proj2 (Z.ltb_ge _ _)) by (unfold TCPHDR; lia). rewrite match_ack by done. rewrite bind_Ok.
    assert (E : (if (if waiting f then Z.of_nat i else -1) >=? 0
         then flags ← rd (tcp_front sp dp seq (probe_seq o (Z.of_nat i) + 1 + (if whole then payload o else 0)) doff fl win ++ rest) 13;
              record g (if waiting f then Z.of_nat i else -1) at_ (set_tcp_reply (control_bits flags))
         else Ok g) = Ok (after at_ (Ack whole fl sp dp seq doff win rest))).
    { unfold after. rewrite front_flags, bind_Ok. destruct (waiting f) eqn:Ew; [|done]. destruct (waiting_inv _ Ew) as [t Et].
      destruct (Z.geb_spec (Z.of_nat i) 0); [|lia]. by rewrite (record_answer at_ _ t Et), Et. }
    rewrite E, !bind_Ok. done.
  - destruct Ha as (Hm & (b0 & hrest & Hb & Hv & Hi & Hl) & Hr).
    assert (Hll : length ([type; code] ++ mid ++ hdr ++ tcp_front sp dp (probe_seq o (Z.of_nat i)) ack doff fl win ++ rest)
                  = (8 + length hdr + (16 + length rest))%nat) by (rewrite !length_app, Hm; cbn; lia).
    set (l := [type; code] ++ mid ++ hdr ++ tcp_front sp dp (probe_seq o (Z.of_nat i)) ack doff fl win ++ rest) in *.
    destruct (Z.leb_spec (Z.of_nat (length l)) 0); [lia|]. rewrite bind_Ok. unfold process_icmp4_response, ICMPHDR, IPHDR.
    rewrite !(proj2 (Z.ltb_ge _ _)) by lia.
    assert (Hb0 : rd l 8 = Ok b0).
    { apply (rd_at _ 8). subst l. rewrite app_assoc, lookup_app_r by (rewrite length_app, Hm; cbn; lia).
      rewrite length_app, Hm. cbn. by rewrite Hb. }
    rewrite Hb0, bind_Ok. rewrite (proj2 (Z.ltb_ge _ _)) by lia. rewrite Hl.
    pose proof (quoted_answer at_ type code (mid ++ hdr) sp dp ack doff fl win rest Hr) as Q. cbv zeta in Q.
    rewrite <- (app_assoc mid hdr) in Q. fold l in Q. rewrite length_app, Hm in Q.
    replace (8 + Z.of_nat (length hdr)) with (Z.of_nat (2 + (6 + length hdr))) by lia.
    replace (Z.of_nat (length l) - 8 - Z.of_nat (length hdr)) with (Z.of_nat (length l - (2 + (6 + length hdr)))) by lia.
    rewrite Q, !bind_Ok. unfold after. destruct (waiting f) eqn:Ew; [|done].
    destruct (waiting_inv _ Ew) as [t Et]. by rewrite Et.
  - destruct Ha as (Hm & Hl & Hr).
    assert (Hll : length ([type; code] ++ mid ++ hdr ++ tcp_front sp dp (probe_seq o (Z.of_nat i)) ack doff fl win ++ rest)
                  = (8 + 40 + (16 + length rest))%nat) by (rewrite !length_app, Hm, Hl; cbn; lia).
    set (l := [type; code] ++ mid ++ hdr ++ tcp_front sp dp (probe_seq o (Z.of_nat i)) ack doff fl win ++ rest) in *.
    destruct (Z.leb_spec (Z.of_nat (length l)) 0); [lia|]. rewrite !bind_Ok. unfold process_icmp6_response, ICMPHDR, IP6HDR.
    rewrite !(proj2 (Z.ltb_ge _ _)) by lia.
    pose proof (quoted_answer at_ type code (mid ++ hdr) sp dp ack doff fl win rest Hr) as Q. cbv zeta in Q.
    rewrite <- (app_assoc mid hdr) in Q. fold l in Q. rewrite length_app, Hm, Hl in Q.
    replace (Z.of_nat (length l) - 8 - 40) with (Z.of_nat (length l - (2 + (6 + 40)))) by lia.
    change (8 + 40) with (Z.of_nat (2 + (6 + 40))). rewrite Q, !bind_Ok. unfold after. destruct (waiting f) eqn:Ew; [|done].
    destruct (waiting_inv _ Ew) as [t Et]. by rewrite Et.
Qed.
End Answer.

Lemma tcp_probe_ok e k d : sources_ok o e -> d ∈ dests o -> exists t, send_probe o e k d = Ok t.
Proof using Ho.
  intros He Hd. unfold send_probe. destruct (ai_addr d) as [a|] eqn:Ea; [|eauto]. unfold family_settings.
  destruct (Z.eqb_spec (ai_family d) AF_INET) as [F4|F4]; [|destruct (Z.eqb_spec (ai_family d) AF_INET6) as [F6|F6]; [|eauto]];
    (destruct (source_address o e d) as [src|] eqn:Es; [|eauto]); destruct (He d a src Hd Ea Es) as [E1 E2];
    (destruct (pcap_listen e =? -1); [eauto|]); unfold craft_tcp_syn; rewrite E1;
    destruct Ho as (_ & _ & Hz & _); unfold MIN_TCPPING_PROBE_LEN, IP6HDR, TCPHDR, IPHDR in *;
    [rewrite F4|rewrite F6]; cbn [Z.eqb Pos.eqb AF_INET AF_INET6 syn_options];
    (rewrite (proj2 (Z.ltb_ge _ _)) by (cbn; lia)); destruct (pseudo_header _ _ _); rewrite bind_Ok; eauto.
Qed.

Lemma sim_start : sim (start o) (net_start o).
Proof using Ho.
  destruct Ho as (Hne & _).
  constructor; cbn [start net_start opts destcount destindex sent fates info outstanding halted over losstimer nextpackettimer];
    try done; try lia.
  - apply length_replicate.
  - apply length_replicate.
  - intros k d f Hd Hf. apply lookup_replicate in Hf as [-> Hk]. by apply lookup_replicate.
  - intros k f Hf. apply lookup_replicate in Hf as [-> _]. split; [lia|done].
  - unfold num_waiting. induction (length (dests o)); cbn; done.
  - intros _. destruct (dests o); [done|]. cbn. split; [eauto|done].
Qed.

(** The end of a step: what is waited for decides whether the loop stops. *)
Lemma all_done_spec l k : Z.of_nat (length (dests o)) < 20000000 ->
  all_done o l k = (Z.of_nat (num_waiting l) =? 0) && (Z.of_nat k =? Z.of_nat (length (dests o))).
Proof using.
  intros _. unfold all_done. rewrite existsb_waiting, negb_involutive, andb_comm. f_equal.
  - destruct (Nat.eqb_spec (num_waiting l) 0), (Z.eqb_spec (Z.of_nat (num_waiting l)) 0); lia || done.
  - destruct (Nat.eqb_spec k (length (dests o))), (Z.eqb_spec (Z.of_nat k) (Z.of_nat (length (dests o)))); lia || done.
Qed.

(** A new fate of one destination, in the array and in the network. *)
Lemma entries_insert g n i d f' :
  sim g n -> dests o !! i = Some d -> f' <> Unsent -> forall k d' f, dests o !! k = Some d' ->
  <[i := f']> (fates n) !! k = Some f -> <[i := Some (info_of i d f')]> (info g) !! k = Some (entry_of k d' f).
Proof using.
  intros Hs Hd Hun k d' f Hd' Hf. pose proof (lookup_lt_Some _ _ _ Hd). destruct (decide (k = i)) as [->|Hk].
  - rewrite list_lookup_insert_eq in Hf by (rewrite (s_fates _ _ Hs); lia). injection Hf as <-.
    rewrite list_lookup_insert_eq by (rewrite (s_length _ _ Hs); lia). rewrite Hd in Hd'. injection Hd' as <-.
    by destruct f'.
  - rewrite list_lookup_insert_ne in Hf by done. rewrite list_lookup_insert_ne by done. by apply (s_info _ _ Hs).
Qed.

Lemma sim_tick g n e d :
  sim g n -> sources_ok o e -> over n = false -> dests o !! sent n = Some d ->
  exists g', send_packet g e = Ok g' /\ sim g' (net_step o n (HTick e)).
Proof using Ho.
  intros Hs He Hov Hd. pose proof (lookup_lt_Some _ _ _ Hd) as Hlt. destruct Ho as (Hne & Hl & Hz & Hq0 & Hq).
  destruct (tcp_probe_ok e (Z.of_nat (sent n)) d He ltac:(by eapply list_elem_of_lookup_2)) as [t Et].
  unfold send_packet. rewrite c_assert_true by (rewrite (s_index _ _ Hs), (s_count _ _ Hs); apply Z.ltb_lt; lia).
  rewrite (s_opts _ _ Hs), (s_index _ _ Hs), (rd_at _ _ _ Hd), bind_Ok.
  assert (Hseq : seq_fits o (Z.of_nat (sent n)) = true) by (unfold seq_fits; apply andb_true_iff; split; apply Z.ltb_lt; lia).
  rewrite Hseq, bind_Ok, Et, bind_Ok.
  rewrite wr_in, bind_Ok, Nat2Z.id by (rewrite (s_length _ _ Hs); lia). eexists. split; [reflexivity|].
  unfold net_step. rewrite Hov, Hd. set (f' := probe_fate o e (sent n) d).
  assert (Hf' : f' = match t with SentAt t => Waiting t | SendFailed => Skipped true | NotTried => Skipped false end) by (subst f'; unfold probe_fate; by rewrite Et).
  destruct (lookup_lt_is_Some_2 (fates n) (sent n)) as [f Hf]; [rewrite (s_fates _ _ Hs); lia|].
  assert (f = Unsent) as -> by (apply (s_unsent _ _ Hs _ _ Hf); lia).
  pose proof (num_waiting_insert (fates n) (sent n) Unsent f' Hf) as Hw. cbn [waiting] in Hw. rewrite Nat.add_0_r in Hw.
  pose proof (num_waiting_le (<[sent n := f']> (fates n))) as Hle. rewrite length_insert, (s_fates _ _ Hs) in Hle.
  assert (Hout : (match t with SentAt _ => i32 (outstanding g + 1) | _ => outstanding g end)
                 = Z.of_nat (num_waiting (<[sent n := f']> (fates n)))).
  { rewrite (s_out _ _ Hs), Hw. rewrite Hf' in *. destruct t; cbn [waiting] in *; [| |rewrite i32_id]; lia. }
  rewrite Hout. unfold schedule_next, with_info. cbn [outstanding destcount destindex info opts halted nextpackettimer losstimer].
  rewrite (s_count _ _ Hs), (s_index _ _ Hs), i32_id by lia.
  replace (Z.of_nat (sent n) + 1) with (Z.of_nat (S (sent n))) by lia.
  pose proof (all_done_spec (<[sent n := f']> (fates n)) (S (sent n)) Hl) as Hdone.
  constructor; cbn [opts destcount destindex sent fates info outstanding halted over losstimer nextpackettimer].
  - apply (s_opts _ _ Hs).
  - done.
  - done.
  - lia.
  - rewrite length_insert. apply (s_fates _ _ Hs).
  - rewrite length_insert. apply (s_length _ _ Hs).
  - replace (new_info o (Z.of_nat (sent n)) d (probe_time t)) with (info_of (sent n) d f') by (rewrite Hf'; by destruct t).
    apply entries_insert; [done..|]. rewrite Hf'. by destruct t.
  - intros k f Hf0. destruct (decide (k = sent n)) as [->|Hk].
    + rewrite list_lookup_insert_eq in Hf0 by (rewrite (s_fates _ _ Hs); lia). injection Hf0 as <-.
      rewrite Hf'. split; [by destruct t|lia].
    + rewrite list_lookup_insert_ne in Hf0 by done. rewrite (s_unsent _ _ Hs _ _ Hf0). lia.
  - done.
  - rewrite Hdone, (s_over _ _ Hs), Hov, negb_involutive, andb_comm. by destruct (_ && _).
  - rewrite Hdone. intros [_ E%Z.eqb_eq]%andb_true_iff. lia.
  - rewrite Hdone. intros Hd0. pose proof (s_timers _ _ Hs Hov) as Ht. rewrite (proj2 (Nat.eqb_neq _ _)) in Ht by lia.
    destruct Ht as [Hn Hlo].
    destruct (Nat.eqb_spec (S (sent n)) (length (dests o))) as [E|E].
    + rewrite (proj2 (Z.eqb_eq _ _)) in Hd0 |- * by lia. rewrite andb_true_r in Hd0. rewrite Hd0. cbn. eauto.
    + rewrite (proj2 (Z.eqb_neq _ _)) by lia. eauto.
Qed.

Lemma sim_answer g n i at_ a f :
  sim g n -> answer_ok o a -> over n = false -> fates n !! i = Some f -> was_sent f ->
  exists g', receive_packet g (answer_packet o i at_ a) = Ok g' /\ sim g' (net_step o n (HAnswer i at_ a)).
Proof using Ho.
  intros Hs Ha Hov Hf Hsent. pose proof (lookup_lt_Some _ _ _ Hf) as Hlt. rewrite (s_fates _ _ Hs) in Hlt.
  destruct (lookup_lt_is_Some_2 (dests o) i Hlt) as [d Hd].
  rewrite (receive_answer g n Hs i d f Hd Hf Hsent at_ a Ha). eexists. split; [reflexivity|].
  unfold net_step. rewrite Hov. set (f' := answered at_ a f).
  assert (Hal : alter (answered at_ a) i (fates n) = <[i := f']> (fates n)).
  { apply list_eq. intros k. destruct (decide (k = i)) as [->|Hk].
    - rewrite list_lookup_alter_eq, list_lookup_insert_eq, Hf by (rewrite (s_fates _ _ Hs); lia). done.
    - by rewrite list_lookup_alter_ne, list_lookup_insert_ne. }
  rewrite Hal. pose proof (num_waiting_insert (fates n) i f f' Hf) as Hw.
  assert (Hwf' : waiting f' = false) by (subst f'; destruct f; try done; by destruct a).
  rewrite Hwf', Nat.add_0_r in Hw. pose proof (num_waiting_le (fates n)) as Hle. rewrite (s_fates _ _ Hs) in Hle.
  destruct Ho as (Hne & Hl & Hz & _).
  assert (Hid : waiting f = false -> f' = f) by (subst f'; by destruct f).
  assert (Hout : outstanding (after g i d f at_ a) = Z.of_nat (num_waiting (<[i := f']> (fates n)))).
  { unfold after. rewrite <- Nat2Z.id at 1. pose proof (s_out _ _ Hs) as Hso.
    destruct (waiting f); cbn [with_info outstanding]; [rewrite i32_id|]; lia. }
  assert (Hinfo : info (after g i d f at_ a) = <[i := Some (info_of i d f')]> (info g)).
  { unfold after. destruct (waiting f) eqn:Ew; [done|]. rewrite (Hid eq_refl). symmetry. apply list_insert_id.
    rewrite (s_info _ _ Hs _ _ _ Hd Hf). by destruct f. }
  assert (Hsame : forall A (p : globals -> A), (forall l x, p (with_info g l x) = p g) -> p (after g i d f at_ a) = p g).
  { intros A p Hp. unfold after. by destruct (waiting f). }
  pose proof (all_done_spec (<[i := f']> (fates n)) (sent n) Hl) as Hdone.
  assert (Hun : f' <> Unsent) by (subst f'; destruct f; try done; by destruct a).
  assert (Hstop : sim (if (outstanding (after g i d f at_ a) =? 0) && (destindex (after g i d f at_ a) =? destcount (after g i d f at_ a))
                       then halt (after g i d f at_ a) else after g i d f at_ a)
    {| fates := <[i := f']> (fates n); sent := sent n; over := all_done o (<[i := f']> (fates n)) (sent n) |}); [|exact Hstop].
  rewrite Hout, (Hsame _ destindex), (Hsame _ destcount), (s_index _ _ Hs), (s_count _ _ Hs), <- Hdone by done.
  assert (Hhalt : forall A (p : globals -> A), (forall x, p (halt x) = p x) ->
    p (if all_done o (<[i := f']> (fates n)) (sent n) then halt (after g i d f at_ a) else after g i d f at_ a) = p (after g i d f at_ a)).
  { intros A p Hp. by destruct (all_done _ _ _). }
  constructor; cbn [sent fates over]; rewrite ?(Hhalt _ opts), ?(Hhalt _ destcount), ?(Hhalt _ destindex), ?(Hhalt _ info),
    ?(Hhalt _ outstanding), ?(Hhalt _ losstimer), ?(Hhalt _ nextpackettimer), ?Hinfo, ?Hout by done.
  - rewrite (Hsame _ opts) by done. apply (s_opts _ _ Hs).
  - rewrite (Hsame _ destcount) by done. apply (s_count _ _ Hs).
  - rewrite (Hsame _ destindex) by done. apply (s_index _ _ Hs).
  - apply (s_sent _ _ Hs).
  - rewrite length_insert. apply (s_fates _ _ Hs).
  - rewrite length_insert. apply (s_length _ _ Hs).
  - by apply entries_insert.
  - intros k f0 Hf0. destruct (decide (k = i)) as [->|Hk].
    + rewrite list_lookup_insert_eq in Hf0 by (rewrite (s_fates _ _ Hs); lia). injection Hf0 as <-.
      rewrite <- (s_unsent _ _ Hs _ _ Hf). split; [done|]. intros ->. done.
    + rewrite list_lookup_insert_ne in Hf0 by done. by apply (s_unsent _ _ Hs).
  - done.
  - destruct (all_done _ _ _) eqn:E; [done|]. rewrite (Hsame _ halted) by done. rewrite (s_over _ _ Hs). done.
  - rewrite Hdone. intros [_ E%Z.eqb_eq]%andb_true_iff. lia.
  - intros _. rewrite (Hsame _ losstimer), (Hsame _ nextpackettimer) by done. apply (s_timers _ _ Hs Hov).
Qed.

Lemma sim_step g n h :
  sim g n -> honest o n h -> exists g', step g (event_of o h) = Ok g' /\ sim g' (net_step o n h).
Proof using Ho.
  intros Hs Hh. unfold step. rewrite (s_over _ _ Hs). destruct (over n) eqn:Hov.
  { exists g. split; [done|]. unfold net_step. by rewrite Hov. }
  pose proof (s_timers _ _ Hs Hov) as Ht. destruct h as [e|i at_ a|]; cbn [event_of honest] in *.
  - destruct (dests o !! sent n) as [d|] eqn:Hd.
    + rewrite (proj2 (Nat.eqb_neq _ _)) in Ht by (apply lookup_lt_Some in Hd; lia). destruct Ht as [[t ->] _].
      by apply (sim_tick g n e d).
    + apply lookup_ge_None in Hd as Hge. pose proof (s_sent _ _ Hs). rewrite (proj2 (Nat.eqb_eq _ _)) in Ht by lia.
      destruct Ht as [_ ->]. exists g. split; [done|]. unfold net_step. by rewrite Hov, Hd.
  - destruct Hh as (Ha & f & Hf & Hsent). by eapply sim_answer.
  - unfold net_step. rewrite Hov. destruct (Nat.eqb_spec (sent n) (length (dests o))) as [E|E]; destruct Ht as [H1 H2].
    + destruct H1 as [t ->]. eexists. split; [done|]. destruct Hs.
      constructor; cbn [halt_test opts destcount destindex sent fates info outstanding halted over losstimer nextpackettimer]; done.
    + rewrite H2. exists g. split; [done|]. destruct n as [l k v]. cbn [over sent fates] in *. subst v. done.
Qed.
Lemma sim_run hs : forall g n,
  sim g n -> all_honest o n hs -> exists g', run g (event_of o <$> hs) = Ok g' /\ sim g' (foldl (net_step o) n hs).
Proof using Ho.
  induction hs as [|h hs IH]; intros g n Hs Hh; [by exists g|]. destruct Hh as [Hh Hhs].
  destruct (sim_step g n h Hs Hh) as (g1 & E & Hs1). destruct (IH g1 _ Hs1 Hhs) as (g' & E' & Hs').
  exists g'. split; [|done]. cbn [fmap list_fmap run]. by rewrite E, bind_Ok.
Qed.

(** A finished test has an entry for every destination. *)
Lemma report_fates g n : sim g n -> sent n = length (dests o) -> report_results (info g) = Ok (fate_item <$> fates n).
Proof using.
  intros Hs Hall.
  assert (Hent : forall k e f, info g !! k = Some e -> fates n !! k = Some f -> exists i, e = Some i /\ report_destination i = fate_item f).
  { intros k e f He Hf. pose proof (lookup_lt_Some _ _ _ Hf) as Hk. rewrite (s_fates _ _ Hs) in Hk.
    destruct (lookup_lt_is_Some_2 (dests o) k Hk) as [d Hd]. rewrite (s_info _ _ Hs _ _ _ Hd Hf) in He. injection He as <-.
    assert (f <> Unsent) by (rewrite (s_unsent _ _ Hs _ _ Hf); lia). exists (info_of k d f). destruct f as [|[]| | |]; done. }
  assert (Hlen : length (info g) = length (fates n)) by (rewrite (s_length _ _ Hs), (s_fates _ _ Hs); done).
  clear -Hent Hlen. revert Hlen Hent. generalize (fates n). induction (info g) as [|e l IH]; intros [|f fs] Hlen Hent; try done.
  destruct (Hent 0%nat e f eq_refl eq_refl) as (i & -> & Hi). cbn [report_results]. rewrite (IH fs).
  - rewrite bind_Ok. cbn. by rewrite Hi.
  - cbn in Hlen. lia.
  - intros k. apply (Hent (S k)).
Qed.

(** Ticks bring the test to its last destination. *)
Definition ticks (hs : list happening) : nat := length (List.filter (fun h => match h with HTick _ => true | _ => false end) hs).
Lemma stays_over l : forall n, over n = true -> over (foldl (net_step o) n l) = true.
Proof using. induction l as [|x l IH]; intros n Hn; [done|]. apply IH. unfold net_step. by rewrite Hn. Qed.
Lemma sent_ticks hs : forall n, (sent n <= length (dests o))%nat ->
  over (foldl (net_step o) n hs) = true \/
  (Nat.min (length (dests o)) (sent n + ticks hs) <= sent (foldl (net_step o) n hs) <= length (dests o))%nat.
Proof using.
  induction hs as [|h hs IH]; intros n Hn; [right; cbn; lia|]. cbn [foldl].
  destruct (over n) eqn:E; [left; apply stays_over; unfold net_step; by rewrite E|]. unfold ticks in *. cbn [List.filter].
  destruct h as [e|i at_ a|].
  - destruct (dests o !! sent n) as [d|] eqn:Hd.
    + pose proof (lookup_lt_Some _ _ _ Hd). unfold net_step at 2 4 6. rewrite E, Hd. cbn [length].
      edestruct (IH {| fates := <[sent n := probe_fate o e (sent n) d]> (fates n); sent := S (sent n);
                       over := all_done o (<[sent n := probe_fate o e (sent n) d]> (fates n)) (S (sent n)) |}) as [|]; cbn [sent] in *;
        [lia|by left|right; lia].
    + apply lookup_ge_None in Hd as Hge. unfold net_step at 2 4 6. rewrite E, Hd. destruct (IH n Hn); [by left|right; cbn; lia].
  - destruct (IH (net_step o n (HAnswer i at_ a))) as [|Hi]; [|by left|].
    + unfold net_step. by rewrite E.
    + right. unfold net_step at 1 in Hi. rewrite E in Hi. exact Hi.
  - destruct (IH (net_step o n HLoss)) as [|Hi]; [|by left|].
    + unfold net_step. by rewrite E.
    + right. unfold net_step at 1 in Hi. rewrite E in Hi. exact Hi.
Qed.

(** C6: the tcpping test reports what the network did.  The conditions: at least one destination and fewer than 20 million,
    a packet size that the options allow, a first sequence number to which 100 for every further destination can be added
    without signed overflow, and source addresses of the family of the destination; only probes that were sent
    are answered, by whole TCP headers; a segment that acknowledges the whole payload only comes when the payload is not a positive multiple of 100
    bytes (it would be put down to another destination); and an ICMP error quotes the whole TCP
    header of the probe (one that quotes 8 bytes of it is ignored).  Then, whatever the order in
    which the timers fire and answers arrive, nothing
    outside the arrays or not yet written is touched, every destination is probed once and
    in order, and a response, be it a TCP segment or an ICMP error that quotes the probe, is
    put down to the destination it belongs to, the first one only.  When all probes have been
    sent and the timer for lost packets fires the test has ended, and the report has for each
    destination, in order, the delay and the control bits of the answer, the type and code of
    the error, or nothing. *)
Theorem tcpping_end_to_end hs :
  all_honest o (net_start o) hs ->
  exists g, run (start o) (event_of o <$> hs) = Ok g /\
    (halted g = true -> report_results (info g) = Ok (fate_item <$> fates (foldl (net_step o) (net_start o) hs))) /\
    (forall hs1 hs2, hs = hs1 ++ HLoss :: hs2 -> (length (dests o) <= ticks hs1)%nat -> halted g = true).
Proof using Ho.
  intros Hh. destruct (sim_run hs _ _ sim_start Hh) as (g & Hrun & Hs). exists g. split; [done|]. split.
  - intros Hg. apply report_fates; [done|]. apply (s_all _ _ Hs). by rewrite <- (s_over _ _ Hs).
  - intros hs1 hs2 -> Ht. rewrite (s_over _ _ Hs), foldl_app. cbn [foldl].
    apply stays_over. set (n1 := foldl (net_step o) (net_start o) hs1). unfold net_step.
    destruct (over n1) eqn:E; [done|]. cbn [over]. apply Nat.eqb_eq.
    destruct (sent_ticks hs1 (net_start o)) as [E'|Hr]; [cbn; lia|subst n1; congruence|]. cbn [sent net_start] in Hr. subst n1. lia.
Qed.
End Refine.

(** ** Three destinations *)

Definition v4 (a : Z) : dest := {| ai_family := AF_INET; ai_addr := Some (SockIn a) |}.
Definition three : settings := {|
  port := 80; packet_size := 64; inter_packet_delay := 100; seqindex := 2147483400;
  dests := [v4 16843009; v4 134744072; {| ai_family := AF_INET; ai_addr := None |}];
  sourceportv4 := 40000; sourceportv6 := 40001; raw_socket := 3; raw_socket6 := 4;
  sourcev4 := Some (SockIn 16777343); sourcev6 := None |}.
Definition sends_at (t : timeval) : send_env :=
  {| find_source_address := fun _ => None; pcap_listen := 1; transmit := fun _ _ => Some t |}.
(** The first answers with a SYN ACK, a router with an error for the second. *)
Definition story : list happening := [
  HTick (sends_at (Tv 100 0)); HTick (sends_at (Tv 100 500)); 
  HAnswer 0 (Tv 100 20000) (Ack false 18 80 40000 7 5 6666 [0; 0; 0; 0]);
  HTick (sends_at (Tv 100 900));
  HAnswer 1 (Tv 100 30000) (Quote4 11 0 (replicate 6 0) (69 :: replicate 19 0) 40000 80 0 11 2 6666 [0; 0; 0; 0]);
  HLoss ].

Lemma tcpping_end_to_end_witness :
  exists g, run (start three) (event_of three <$> story) = Ok g /\
    report_results (info g) = Ok [
      {| rtt := Some 20000; flags := Some 18; icmp := None |};
      {| rtt := None; flags := None; icmp := Some (11, 0) |};
      {| rtt := None; flags := None; icmp := None |} ].
Proof.
  assert (Hset : settings_ok three) by (split; [discriminate|vm_compute; repeat split; discriminate || reflexivity]).
  destruct (tcpping_end_to_end three Hset story) as (g & Hrun & Hrep & Hend).
  - assert (Hsrc : forall t, sources_ok three (sends_at t)).
    { intros t d a src Hd Ha Hs. cbn in Hd. rewrite !elem_of_cons, elem_of_nil in Hd.
      destruct Hd as [->|[->|[->|[]]]]; cbn in Ha, Hs; [..|discriminate]; injection Ha as <-; injection Hs as <-; done. }
    split; [apply Hsrc|]. split; [apply Hsrc|]. split.
    { split; [split; [cbn; lia|done]|]. eexists. split; [reflexivity|exact I]. }
    split; [apply Hsrc|]. split; [|done]. split.
    { split; [done|]. split; [|cbn; lia]. exists 69, (replicate 19 0). repeat split; vm_compute; discriminate || reflexivity. }
    eexists. split; [reflexivity|exact I].
  - exists g. split; [exact Hrun|]. rewrite Hrep; [vm_compute; reflexivity|].
    apply (Hend (take 5 story) []); [reflexivity|]. cbn. lia.
Defined.

(** ** The checksum of a probe *)

Lemma pseudo_even src dst size ps :
  pseudo_header src dst size = Some ps -> Nat.even (length ps) = true.
Proof.
  unfold pseudo_header. assert (H6 : forall l, Nat.even (length (in6_addr_bytes l)) = true) by (intros l; induction l; done).
  destruct src as [s|s|], dst as [d|d|]; try done; intros [= <-]; [done|].
  rewrite !length_app, !Nat.even_add, !H6. done.
Qed.
Lemma in6_bytes_ok l : bytes_ok (in6_addr_bytes l).
Proof. induction l as [|w l IH]; [constructor|]. constructor; [apply byte_at_range|]. constructor; [apply byte_at_range|done]. Qed.
Lemma be16_bytes x : bytes_ok (be16 x).
Proof.
  unfold bytes_ok, be16. pose proof (u16_range x). repeat constructor; Z.div_mod_to_equations; lia.
Qed.
Lemma pseudo_bytes src dst size ps : pseudo_header src dst size = Some ps -> bytes_ok ps.
Proof.
  unfold pseudo_header. destruct src as [s|s|], dst as [d|d|]; try done; intros H; apply (inj Some) in H; subst ps.
  - unfold bytes_ok, in_addr_bytes. rewrite !Forall_app.
    split_and!; [repeat constructor; apply byte_at_range..|repeat constructor; lia|apply be16_bytes].
  - unfold bytes_ok. rewrite !Forall_app. split_and!; [apply in6_bytes_ok..|apply be32_bytes|repeat constructor; lia].
Qed.
Lemma front_bytes sp dp seq ack doff fl win :
  0 <= doff < 16 -> 0 <= fl < 256 -> bytes_ok (tcp_front sp dp seq ack doff fl win).
Proof.
  intros Hd Hf. unfold tcp_front, bytes_ok. rewrite !Forall_app.
  split_and!; try apply be16_bytes; try apply be32_bytes. repeat constructor; lia.
Qed.

(** A probe verifies: the checksum over the pseudo header and the whole segment is zero. *)
Lemma syn_verifies o index srcport size src dst packet ps :
  size < 65536 -> craft_tcp_syn o index srcport size src dst = Ok (1, packet) ->
  pseudo_header src dst size = Some ps -> Z.of_nat (length ps) < 65536 ->
  Z.of_nat (length packet) = size /\ checksum (ps ++ packet) = 0.
Proof.
  intros Hsize H Hps Hpl. unfold craft_tcp_syn in H. destruct (Z.ltb_spec size (Z.of_nat (length (tcp_front srcport (port o)
    (probe_seq o index) 0 (if sa_family src =? AF_INET then 11 else 6) 2 6666 ++ [0; 0] ++ [0; 0] ++ syn_options (sa_family src)))))
    as [|Hl]; [done|].
  rewrite Hps in H. match type of H with Ok (1, ?X) = _ => assert (HX : X = packet) by congruence end. subst packet. clear H.
  set (front := tcp_front _ _ _ _ _ _ _) in *. match goal with |- context [replicate ?k 0] => set (z := k) end.
  set (back := ([0; 0] ++ syn_options (sa_family src)) ++ replicate z 0).
  assert (Hfront : length front = 16%nat) by reflexivity.
  assert (Hback : Z.of_nat (length back) = size - 18).
  { subst back z. rewrite !length_app in *. rewrite length_replicate. cbn [length] in *. lia. }
  assert (Hbytes : bytes_ok (ps ++ front ++ [0; 0] ++ back)).
  { unfold bytes_ok. rewrite !Forall_app. split_and!.
    - by eapply pseudo_bytes.
    - apply front_bytes; [by destruct (sa_family src =? AF_INET)|lia].
    - repeat constructor; lia.
    - subst back. rewrite !Forall_app. split_and!; [repeat constructor; lia| |by apply Forall_replicate].
      unfold syn_options. rewrite !Forall_app. split_and!; [repeat constructor; lia|apply be16_bytes|].
      destruct (_ =? _); [by apply Forall_replicate|constructor]. }
  set (ck := tcp_checksum (front ++ [0; 0] ++ back) ps).
  assert (Hck : 0 <= ck < 65536) by apply u16_range.
  split; [rewrite !length_app, Hfront; change (length (le16 ck)) with 2%nat; lia|]. unfold le16. rewrite (u16_id ck) by lia.
  rewrite app_assoc. apply (checksum_fill (ps ++ front) back (ck mod 256) (ck / 256)).
  - rewrite length_app, Nat.even_add, (pseudo_even _ _ _ _ Hps), Hfront. done.
  - split; [by rewrite <- app_assoc|]. rewrite !length_app, Hfront. change (length [0; 0]) with 2%nat. lia.
  - apply Z.mod_pos_bound. lia.
  - Z.div_mod_to_equations. lia.
  - rewrite <- app_assoc. subst ck. unfold tcp_checksum. pose proof (Z.div_mod (checksum (ps ++ front ++ [0; 0] ++ back)) 256). lia.
Qed.

(** ** What goes wrong *)

(** With 100 bytes of payload a reset that acknowledges all of it is put down to the next
    destination. *)
Definition with_size (o : settings) (size : Z) : settings := {|
  port := port o; packet_size := size; inter_packet_delay := inter_packet_delay o; seqindex := seqindex o; dests := dests o;
  sourceportv4 := sourceportv4 o; sourceportv6 := sourceportv6 o; raw_socket := raw_socket o; raw_socket6 := raw_socket6 o;
  sourcev4 := sourcev4 o; sourcev6 := sourcev6 o |}.
Definition reset_of_first : happening := HAnswer 0 (Tv 100 20000) (Ack true 20 80 40000 0 5 0 [0; 0; 0; 0]).
Example reset_of_another :
  match run (start (with_size three 164)) (event_of (with_size three 164) <$>
     [HTick (sends_at (Tv 100 0)); HTick (sends_at (Tv 100 500)); reset_of_first]) with
  | Ok g => option_map report_destination <$> info g
            = [Some {| rtt := None; flags := None; icmp := None |}; Some {| rtt := Some 19500; flags := Some 20; icmp := None |}; None]
  | Fault _ => False
  end.
Proof. vm_compute. reflexivity. Qed.
(** The first sequence number is a random int: the next ones may not fit one. *)
Definition with_seqindex (o : settings) (s : Z) : settings := {|
  port := port o; packet_size := packet_size o; inter_packet_delay := inter_packet_delay o; seqindex := s; dests := dests o;
  sourceportv4 := sourceportv4 o; sourceportv6 := sourceportv6 o; raw_socket := raw_socket o; raw_socket6 := raw_socket6 o;
  sourcev4 := sourcev4 o; sourcev6 := sourcev6 o |}.
Example sequence_overflows :
  run (start (with_seqindex three 2147483600)) [Tick (sends_at (Tv 100 0)); Tick (sends_at (Tv 100 500))] = Fault SignedOverflow.
Proof. vm_compute. reflexivity. Qed.
(** A segment for a destination that has not been probed is looked up in memory that was
    never written. *)
Example answer_before_probe :
  run (start three) (event_of three <$> [HTick (sends_at (Tv 100 0)); HAnswer 1 (Tv 100 20000) (Ack false 18 80 40000 7 5 6666 [0; 0; 0; 0])])
  = Fault Uninitialised.
Proof. vm_compute. reflexivity. Qed.
(** So is the array when the test is interrupted before all probes were sent. *)
Example interrupted_report :
  match run (start three) (event_of three <$> [HTick (sends_at (Tv 100 0))]) with
  | Ok g => report_results (info g) = Fault Uninitialised
  | Fault _ => False
  end.
Proof. vm_compute. reflexivity. Qed.
(** The length on the wire says nothing about how much was captured. *)
Example capture_cut_short :
  pcap_transport_header DLT_EN10MB (Some (replicate 12 0 ++ [8; 0], 60, Tv 0 0)) = Fault OutOfBounds.
Proof. vm_compute. reflexivity. Qed.
(** An error that quotes only the eight bytes RFC 792 asks for, which hold the sequence
    number, is ignored. *)
Example short_quote_ignored g type code mid hdr quoted at_ :
  length mid = 6%nat -> hdr_ok hdr -> length quoted = 8%nat ->
  process_icmp4_response g ([type; code] ++ mid ++ hdr ++ quoted) (Z.of_nat (16 + length hdr)) at_ = Ok g.
Proof.
  intros Hm (b0 & hrest & Hb & _ & Hi & Hl) Hq. unfold process_icmp4_response, ICMPHDR, IPHDR.
  rewrite !(proj2 (Z.ltb_ge _ _)) by lia.
  assert (Hb0 : rd ([type; code] ++ mid ++ hdr ++ quoted) 8 = Ok b0).
  { apply (rd_at _ 8). rewrite app_assoc, lookup_app_r by (rewrite length_app, Hm; cbn; lia).
    rewrite length_app, Hm. cbn. by rewrite Hb. }
  rewrite Hb0, bind_Ok, (proj2 (Z.ltb_ge _ _)) by lia. unfold process_quoted, TCPHDR.
  by rewrite (proj2 (Z.ltb_lt _ _)) by lia.
Qed.
